(* ===== verification/_CoqProject ===== *)
-Q . S2P
Prelude.v
Aes128.v
AesCbc.v
Hash.v
Sha256.v
Md5.v
Tea.v
Base64.v
Binary.v
Strings.v
Strfmt.v
LinuxList.v
ListEntry.v
Locks.v
Walkfiles.v
Args.v
Memlen.v
AesX86.v
AesEquiv.v
Samdb.v
Mpool.v
BtUtils.v
Readfile.v
Files.v
Slackware.v
Bits.v
Time.v
Threads.v
Socket.v
Ip.v
Cpuid.v
Readproc.v
BtPage.v
BtTree.v
BtSearch.v
BtDelete.v
BtPut.v
BtLevels.v
BtSplit.v
BtRemove.v
BtInsert.v
BtSeq.v
BtCursor.v
BtOverflow.v
BtOpen.v
BtConv.v
BtSamdb.v
Fnmatch.v
Globs.v
