(* ===== verification/Prelude.v ===== *)
(** A verification library of samlib, a C library of utilities.

    * The program

    samlib is a set of small parts that call each other little: hashes and ciphers
    (sha256.c, md5.c, tea.c, aes128.c, aes-cbc.c, aes-x86.c), text (base64.c,
    safecpy.c, strlcpy.c, strfmt.c, arg-helpers.c), containers (linux-list.h), locks
    (samthread.h, mutex.c), files (walkfiles.c, readfile.c, readcmd.c, mkdir-p.c,
    file.c, copy.c, is-elf.c, must.c), the system (samthread.c, socket.c, ip.c, cpuid.c,
    readproc.c), a database (the btree of db.1.85 over a buffer pool, and its wrapper
    samdb.c) and odds and ends (slackware.c, crc16.c, xorshift.c, random.c, time.c).  Where parts call each
    other the models do too: aes128.c and aes-cbc.c call aes-x86.c, the hashes share
    a buffer discipline, md5.c and sha256.c print digests with the digits of
    strfmt.c, walkfiles.c and file.c build names with strconcat.

    * The files of the library

    - Prelude.v (this file): the C operators and widths, arrays, the outcome of a
      call (a value, exit, or undefined behaviour), bytes and words, the hint
      databases [samlib] and [samlib_rw], and the tactics [fits_auto] (widths) and
      [xor_ring] (exclusive-ors).
    - Aes128.v: aes128.c, software path.  Blocks of sixteen bytes, the key expansion,
      the rounds, the contexts; the x86 path is the class [AesHw].  Decryption and
      encryption are inverse.
    - AesCbc.v: aes-cbc.c, software path, for 128 and 256 bits, with the x86 path as
      the class [AesCbcHw].  The tables are those of the field, decryption inverts
      encryption, CBC round trip, errors.
    - AesX86.v: aes-x86.c over vectors of sixteen bytes.  The AES instructions are
      parameters with their documented behaviour (class [AesInstructions]); the
      key schedules, the inverse schedule and the CBC loops compute what AesCbc.v
      computes.  It gives the instance of [AesCbcHw]; AesEquiv.v gives that of [AesHw].
    - AesEquiv.v: the three implementations of AES-128 agree.
    - Hash.v: the buffering that md5.c and sha256.c share, over an abstract block
      function; the class [StreamHash] is what a streaming hash promises.
    - Sha256.v, Md5.v: sha256.c and md5.c, instances of [StreamHash]: any sequence of
      updates gives the digest of the whole message.  The unrolled block functions are
      the loops of the standards; the lost bits of the length of MD5 are stated.
    - Tea.v: tea.c.  Base64.v: base64.c.  Binary.v: binary.c.  Round trips and bounds.
    - Strings.v: safecpy.c and strlcpy.c on a memory with checked writes: every
      function stays in the size it is given and leaves the prefix that fits.
    - Strfmt.v: strfmt.c: the formatter refines the complete text cut to the buffer,
      and numbers read back.
    - LinuxList.v: linux-list.h on a heap of links: every operation does to the ring
      what it does to the list of its entries.  ListEntry.v: the structures that hold
      the links, and the loops over them.
    - Locks.v: the spin lock of samthread.h and the mutex of mutex.c as step relations
      over threads; the class [LockMachine] is the abstract lock they are compared
      with, [Futex] what the system promises.
    - Walkfiles.v: walkfiles.c over a file system given by lstat and opendir.
    - Args.v: arg-helpers.c: memory lengths, numbers and durations as text.  Memlen.v: its
      memory lengths with tenths.
    - Samdb.v: samdb.c over a structure of functions, as struct __db is one; the class
      [Btree] is what it relies on in them.  The invariant of the global handle over all
      sequences of calls.  BtSamdb.v: the structure that dbopen makes, the proof that
      it has that interface, and round trip and walk on it.
    - Mpool.v: the buffer pool under the btree (db.1.85/mpool.c, mpool.h, queue.h): a
      pool with its file represents the list of the pages stored in it.  BtUtils.v:
      the default order of keys and their separators (db.1.85/bt_utils.c).
    - The btree, of which the pages are those of the pool.  BtPage.v: a page, with its
      two ends growing towards each other, and the division of its items (bt_psplit).
      BtTree.v: the state, the free list, overflow pages, the comparison of an item,
      the search and the lookup.  BtDelete.v, BtPut.v: deletion and insertion, line by
      line.  BtSearch.v: what a tree is (levels of linked pages, the separators of which
      enclose the keys below) and that search and lookup find what is there.
      BtLevels.v: the parts of that invariant that one operation touches and those it
      leaves.  BtSplit.v, BtRemove.v, BtInsert.v: division, deletion and insertion
      keep it, and do to the records what they do to a sorted map.  BtSeq.v: the scan
      moves over the list of the records.  BtCursor.v: the deletion of the record under
      the cursor, and the scan after it.  BtOverflow.v: long keys and data are read
      back.  BtOpen.v: dbopen, sync and close; a tree that is written out is found again.
      BtConv.v: the pages as bytes, and their conversion to and from the other byte order.
    - Fnmatch.v: win32/fnmatch.c, the shell patterns with their flags, brackets and ksh
      patterns; it ends on every pattern.  Globs.v: the language of a pattern, which
      fnmatch decides, and with it the filters of walkfiles.c.
    - Readfile.v: readfile.c, readcmd.c, do-system.c over the bytes of a stream.
    - Files.v: mkdir-p.c (over the class [Mkdir]), file.c, copy.c, is-elf.c, must.c.
    - Slackware.v: slackware.c.  Bits.v: crc16.c, xorshift.c, random.c and the powers of
      two of samlib.h.  Time.v: time.c and globals.c.
    - Threads.v: samthread.c, a thread and its joiners as a step relation.  Socket.v:
      socket.c over a table of descriptors.  Ip.v: ip.c over the system's list of
      addresses and a heap.  Cpuid.v: cpuid.c and tsc.c with the two instructions as
      arguments.  Readproc.v: readproc.c over the files of /proc.

    A function of the code is the definition of the same name; a state it changes is
    an argument and a result, memory is a list of bytes, a pointer is an offset, and
    a static variable is a field of a record.  What the code gets from outside (the
    system, the processor) is an argument.  Strings are
    lists of bytes without their NUL unless a buffer is meant.  A length in an int of
    strfmt.c, strlcpy.c, safecpy.c, arg-helpers.c and samdb.c wraps as the int does; where a theorem needs it to
    fit, it says so, and Strings.long_source_overflows and Strfmt.strfmt_long_string
    state what happens where it does not.

    * What the theorems show

    Functional correctness against an independent definition (the digests of the
    standards, the multiplication of the field, the text of a format, the list behind
    a ring, the files below a directory, the lines of a text), equivalence of the
    optimised paths (unrolled, tabulated, in hardware) with the plain ones, round
    trips of everything that is written to be read, the bounds of every buffer, the
    results on every error path, and for the locks the invariants over all
    interleavings and the progress of the spin lock under a fair scheduler.  The
    buffer pool is a refinement: whatever buckets it reuses and whatever calls fail,
    it holds the pages of an abstract list.  The btree is one too: get, put and
    delete on the pages are lookup, insertion and deletion in a sorted list of
    records, with a position in it for the cursor.  Some theorems state what the code does
    where this is not what it means to do: the in-place decryption, the MD5 of large
    messages, the unlock race of the mutex, the walk of a path that is too long, the
    trailing slash of tmpfilename, the lost carry of chksum16, the seeding of
    xorshift128plus, the sync of a database of the other byte order, the close of samdb.c that fails, the order of
    insertions that bt_put.c keeps over deletions, the free list that is not written, keys on
    overflow pages, the page that overflows with two items to a page, the tests in
    fnmatch.c that are the wrong way round.

    * Fuel

    Loops whose length depends on data recurse on the data where they can.  The
    others have fuel, and the theorems say how much is enough: the walker needs one
    more than the depth of the tree (and no fuel is enough for the path that is too
    long), db_walk one more than the number of records, the line loops are given one
    more than the number of bytes, and chksum16 its count.  The matcher of
    fnmatch.c and its inner loops have fuel for the length of pattern and string together, which is enough
    for the nested calls: using it up is a result of its own, [Spent], and it is shown that no call gives it.  The loops over a list need its length, the dump of a buffer
    is given its length and one.  The search of the btree is given fuel for 51 levels,
    which trees of up to that height need; the bound of the stack of the code is 50
    pages.  The walk over the leaves to the cursor is given the number of pages and
    one, and no page is met twice.

    * What is not modelled

    The functions on floating point numbers (get_duration, timeval_delta_d, mbs, the
    %f of strfmt; nicer_mem_len is modelled, its doubles being integers and exact
    quotients of them), output only (dumpstack.c), the Windows branches except getline
    and fnmatch.c, the vendored regular expressions (win32/regex.c), in db.1.85 the
    pages of record numbers, and the tests.  Memory that the btree asks for may be refused
    where the code tests for it; how large its buffers already are is not kept, nor are the
    pages that stay pinned between calls, which every call gives back first.  Two
    handles of samdb.c do not share a file, and a callback of db_walk does not call the
    functions of the database.  The plain vector operations of the
    compiler are functions on lists of bytes in AesX86.v. *)

From Stdlib Require Export ZArith Lia Bool Btauto List.
From stdpp Require Export base numbers option list.

#[export] Set Default Goal Selector "!".
#[global] Open Scope Z_scope.

(** ** C operators on integers *)

Declare Scope c_scope.
Delimit Scope c_scope with C.
Notation "x .<< y" := (Z.shiftl x y) (at level 51, left associativity) : c_scope.
Notation "x .>> y" := (Z.shiftr x y) (at level 51, left associativity) : c_scope.
Notation "x .& y" := (Z.land x y) (at level 52, left associativity) : c_scope.
Notation "x .^ y" := (Z.lxor x y) (at level 53, left associativity) : c_scope.
Notation "x .| y" := (Z.lor x y) (at level 54, left associativity) : c_scope.
#[global] Open Scope c_scope.

(** Conversions to the fixed-width C types. *)
Definition u8 (z : Z) : Z := z mod 2 ^ 8.
Definition u16 (z : Z) : Z := z mod 2 ^ 16.
Definition u32 (z : Z) : Z := z mod 2 ^ 32.
Definition u64 (z : Z) : Z := z mod 2 ^ 64.
Definition s32 (z : Z) : Z := (z + 2 ^ 31) mod 2 ^ 32 - 2 ^ 31.
Definition s64 (z : Z) : Z := (z + 2 ^ 63) mod 2 ^ 64 - 2 ^ 63.

(** [x] fits in [n] bits, unsigned. *)
Definition fits (n x : Z) : Prop := 0 <= x < 2 ^ n.
Abbreviation is_byte := (fits 8).
Abbreviation is_u32 := (fits 32).
Abbreviation is_u64 := (fits 64).

(** The length of an array, as the integer the code computes with. *)
Definition zlen {A} (l : list A) : Z := Z.of_nat (length l).

Lemma zlen_nonneg {A} (l : list A) : 0 <= zlen l.
Proof. unfold zlen. lia. Qed.
Lemma zlen_app {A} (a b : list A) : zlen (a ++ b) = zlen a + zlen b.
Proof. unfold zlen. rewrite length_app. lia. Qed.
Lemma zlen_cons {A} (x : A) (b : list A) : zlen (x :: b) = 1 + zlen b.
Proof. unfold zlen. cbn. lia. Qed.
Lemma zlen_nil_inv {A} (l : list A) : zlen l = 0 -> l = [].
Proof. destruct l as [|y l]; [done|]. rewrite zlen_cons. pose proof (zlen_nonneg l). lia. Qed.

(** Array reads and writes whose index the code keeps in range. *)
Definition rd (l : list Z) (i : Z) : Z := nth (Z.to_nat i) l 0.
Definition wr (l : list Z) (i v : Z) : list Z := <[Z.to_nat i := v]> l.

(** [memcpy] or [memset] of the bytes [v] at index [i] of the array [l]. *)
Definition splice (l : list Z) (i : Z) (v : list Z) : list Z :=
  take (Z.to_nat i) l ++ v ++ drop (Z.to_nat i + length v) l.

(** The [errno] values the library returns. *)
Definition ENOENT : Z := 2.
Definition EIO : Z := 5.
Definition ENOMEM : Z := 12.
Definition EACCES : Z := 13.
Definition EBUSY : Z := 16.
Definition EEXIST : Z := 17.
Definition EINVAL : Z := 22.
Definition ENOSYS : Z := 38.

(** How a call ends: with a value, by [exit], or in undefined behaviour. *)
Inductive outcome (A : Type) :=
  | Ret (a : A)
  | Exit (code : Z)
  | Fault.
Arguments Ret {A} a.
Arguments Exit {A} code.
Arguments Fault {A}.

#[export] Instance outcome_ret : MRet outcome := @Ret.
#[export] Instance outcome_bind : MBind outcome := fun A B f m =>
  match m with Ret a => f a | Exit c => Exit c | Fault => Fault end.

(** A checked access: [None] is undefined behaviour. *)
Definition checked {A} (o : option A) : outcome A := match o with Some a => Ret a | None => Fault end.

(** The hexadecimal digits, shared by strfmt.c, md5.c and sha256.c. *)
Definition tohex : list Z :=
  [48; 49; 50; 51; 52; 53; 54; 55; 56; 57; 97; 98; 99; 100; 101; 102].

(** A straight-line sequence of statements on a state. *)
Definition exec {S} (stmts : list (S -> S)) (s : S) : S :=
  fold_left (fun s f => f s) stmts s.

Create HintDb samlib.
Create Rewrite HintDb samlib_rw.

#[export] Instance fits_dec n x : Decision (fits n x).
Proof. unfold fits. apply _. Defined.

(** ** Bounded integers and their bits *)

Lemma fits_nonneg n x : fits n x -> 0 <= x.
Proof. unfold fits. lia. Qed.

Lemma fits_bits n x :
  0 <= n -> fits n x <-> 0 <= x /\ forall i, n <= i -> Z.testbit x i = false.
Proof.
  intros Hn. unfold fits. split.
  - intros Hx. split; [lia|]. intros i Hi.
    rewrite <- (Z.mod_small x (2 ^ n)) by lia. apply Z.mod_pow2_bits_high. lia.
  - intros [H0 Hb]. split; [done|].
    destruct (Z.lt_ge_cases x (2 ^ n)) as [|Hge]; [done|exfalso].
    assert (0 < x) by (pose proof (Z.pow_pos_nonneg 2 n); lia).
    assert (n <= Z.log2 x) by (apply Z.log2_le_pow2; lia).
    specialize (Hb (Z.log2 x)). rewrite Z.bit_log2 in Hb by lia.
    by specialize (Hb ltac:(lia)).
Qed.

Ltac fits_bitwise f :=
  intros; rewrite ->fits_bits in * by lia; destruct_and?;
  split; [by apply f; try split|];
  intros; rewrite ?Z.lxor_spec, ?Z.land_spec, ?Z.lor_spec;
  repeat match goal with H : forall i, _ |- _ => rewrite H by lia end.

Lemma fits_lxor n x y : 0 <= n -> fits n x -> fits n y -> fits n (x .^ y).
Proof. fits_bitwise Z.lxor_nonneg; done. Qed.

Lemma fits_lor n x y : 0 <= n -> fits n x -> fits n y -> fits n (x .| y).
Proof. fits_bitwise Z.lor_nonneg; done. Qed.

Lemma fits_land_l n x y : 0 <= n -> fits n x -> fits n (x .& y).
Proof.
  intros Hn Hx. rewrite ->fits_bits in * by lia. destruct Hx as [Hx0 Hxb].
  split; [apply Z.land_nonneg; auto|]. intros i Hi. by rewrite Z.land_spec, Hxb.
Qed.

Lemma fits_land_r n x y : 0 <= n -> fits n y -> fits n (x .& y).
Proof. intros. rewrite Z.land_comm. by apply fits_land_l. Qed.

Lemma fits_mod n x : 0 <= n -> fits n (x mod 2 ^ n).
Proof. intros. apply Z.mod_pos_bound. by apply Z.pow_pos_nonneg. Qed.

Lemma fits_shiftr n k x : 0 <= n -> 0 <= k -> fits (n + k) x -> fits n (x .>> k).
Proof.
  intros Hn Hk Hx. rewrite ->fits_bits in * by lia. destruct Hx as [Hx0 Hxb].
  split; [by apply Z.shiftr_nonneg|].
  intros i Hi. rewrite Z.shiftr_spec by lia. apply Hxb. lia.
Qed.

Lemma fits_shiftr_weak n k x : 0 <= n -> 0 <= k -> fits n x -> fits n (x .>> k).
Proof.
  intros Hn Hk Hx. apply fits_shiftr; [done..|].
  destruct Hx as [Hx0 Hx1]. split; [done|].
  eapply Z.lt_le_trans; [done|]. apply Z.pow_le_mono_r; lia.
Qed.

Lemma fits_0 n : 0 <= n -> fits n 0.
Proof. intros. split; [done|]. by apply Z.pow_pos_nonneg. Qed.

Lemma fits_u8 x : is_byte (u8 x).
Proof. by apply fits_mod. Qed.
Lemma fits_u32 x : is_u32 (u32 x).
Proof. by apply fits_mod. Qed.
Lemma fits_u64 x : is_u64 (u64 x).
Proof. by apply fits_mod. Qed.

Lemma u8_id x : is_byte x -> u8 x = x.
Proof. apply Z.mod_small. Qed.
Lemma u32_id x : is_u32 x -> u32 x = x.
Proof. apply Z.mod_small. Qed.
Lemma u64_id x : is_u64 x -> u64 x = x.
Proof. apply Z.mod_small. Qed.
Lemma s32_id x : - 2 ^ 31 <= x < 2 ^ 31 -> s32 x = x.
Proof. intros. unfold s32. rewrite Z.mod_small; lia. Qed.
Lemma s32_range x : - 2 ^ 31 <= s32 x < 2 ^ 31.
Proof. unfold s32. pose proof (Z.mod_pos_bound (x + 2 ^ 31) (2 ^ 32)). lia. Qed.

#[export] Hint Resolve fits_u8 fits_u32 fits_u64 fits_0 fits_land_l : samlib.
#[export] Hint Extern 2 (fits _ (_ .^ _)) => apply fits_lxor : samlib.
#[export] Hint Extern 2 (fits _ (_ .| _)) => apply fits_lor : samlib.
#[export] Hint Extern 1 (0 <= _) => lia : samlib.
#[export] Hint Extern 1 (_ <= _ < _) => lia : samlib.

(** [fits_auto] closes the width side conditions of the components. *)
Ltac fits_auto := solve [eauto 8 with samlib | unfold fits in *; lia].

(** [xor_ring] proves equalities between exclusive-ors of the same atoms. *)
Ltac xor_ring :=
  apply Z.bits_inj'; intros ?i _; rewrite ?Z.lxor_spec, ?Z.bits_0; btauto.

Lemma lxor_cancel_r x y : x .^ y .^ y = x.
Proof. xor_ring. Qed.
#[export] Hint Rewrite lxor_cancel_r : samlib_rw.

(** ** Exhaustive checks over the bytes *)

Definition all_bytes : list Z := seqZ 0 256.

Lemma elem_of_all_bytes x : is_byte x -> x ∈ all_bytes.
Proof. intros Hx. apply elem_of_seqZ. unfold fits in Hx. lia. Qed.

Lemma byte_forall (P : Z -> Prop) `{!forall x, Decision (P x)} x :
  forallb (fun x => bool_decide (P x)) all_bytes = true -> is_byte x -> P x.
Proof.
  intros HP Hx. rewrite forallb_forall in HP.
  apply (bool_decide_eq_true_1 (P x)), HP, list_elem_of_In.
  by apply elem_of_all_bytes.
Qed.

Lemma byte_forall2 (P : Z -> Z -> Prop) `{!forall x y, Decision (P x y)} x y :
  forallb (fun x => forallb (fun y => bool_decide (P x y)) all_bytes) all_bytes = true ->
  is_byte x -> is_byte y -> P x y.
Proof.
  intros HP Hx Hy. apply (byte_forall (P x)); [|done].
  rewrite forallb_forall in HP.
  by apply HP, list_elem_of_In, elem_of_all_bytes.
Qed.

(** ** Arrays *)

Lemma rd_Forall (P : Z -> Prop) l i : P 0 -> Forall P l -> P (rd l i).
Proof.
  intros H0 Hl. unfold rd. destruct (nth_in_or_default (Z.to_nat i) l 0) as [Hin| ->]; [|done].
  eapply List.Forall_forall; eauto.
Qed.

Lemma wr_Forall (P : Z -> Prop) l i v : Forall P l -> P v -> Forall P (wr l i v).
Proof. intros. by apply Forall_insert. Qed.

Lemma length_wr l i v : length (wr l i v) = length l.
Proof. apply length_insert. Qed.

Lemma rd_wr_eq l i v : 0 <= i < zlen l -> rd (wr l i v) i = v.
Proof.
  unfold zlen, rd, wr. intros Hi. apply nth_lookup_Some.
  apply list_lookup_insert_eq. lia.
Qed.

Lemma rd_wr_ne l i j v : 0 <= i -> 0 <= j -> i <> j -> rd (wr l i v) j = rd l j.
Proof.
  intros Hi Hj Hne. unfold rd, wr. rewrite !nth_lookup.
  rewrite list_lookup_insert_ne; [done|lia].
Qed.

Lemma rd_byte l i : Forall is_byte l -> is_byte (rd l i).
Proof. apply rd_Forall. by apply fits_0. Qed.

Lemma seqZ_snoc a n : 0 <= n -> seqZ a (n + 1) = seqZ a n ++ [a + n].
Proof. intros. rewrite seqZ_app by lia. cbn. by rewrite Z.add_comm. Qed.

Lemma length_splice l i v :
  0 <= i -> i + zlen v <= zlen l -> length (splice l i v) = length l.
Proof.
  unfold splice, zlen. intros. rewrite !length_app, length_take, length_drop. lia.
Qed.

Lemma take_splice l i v n :
  0 <= i <= zlen l -> n = (Z.to_nat i + length v)%nat ->
  take n (splice l i v) = take (Z.to_nat i) l ++ v.
Proof.
  intros Hi ->. unfold splice, zlen in *. rewrite app_assoc.
  rewrite take_app_length'; [done|]. rewrite length_app, length_take. lia.
Qed.

#[export] Hint Resolve rd_byte wr_Forall : samlib.
#[export] Hint Rewrite length_wr : samlib_rw.

(** ** Statement sequences and loops *)

(** The rest of a computation, by what it is given. *)
Lemma bind_ext {A B} (x : outcome A) (f g : A -> outcome B) : (forall a, x = Ret a -> f a = g a) -> x ≫= f = x ≫= g.
Proof. destruct x; cbn; auto. Qed.

Lemma bind_ext2 {A B} (x y : outcome A) (f g : A -> outcome B) :
  x = y -> (forall a, y = Ret a -> f a = g a) -> x ≫= f = y ≫= g.
Proof. intros ->. apply bind_ext. Qed.

Lemma bind_Ret {A} (x : outcome A) : x ≫= Ret = x.
Proof. by destruct x. Qed.

Lemma exec_app {S} (l1 l2 : list (S -> S)) s : exec (l1 ++ l2) s = exec l2 (exec l1 s).
Proof. unfold exec. apply List.fold_left_app. Qed.

Lemma fold_left_inv {A B} (f : A -> B -> A) (P : A -> Prop) l a :
  (forall a b, b ∈ l -> P a -> P (f a b)) -> P a -> P (fold_left f l a).
Proof.
  revert a. induction l as [|b l IH]; intros a Hf Ha; cbn; [done|].
  apply IH; [|apply Hf; [apply list_elem_of_here|done]].
  intros a' b' Hb'. apply Hf. by apply list_elem_of_further.
Qed.

Lemma exec_inv {S} (P : S -> Prop) stmts s :
  Forall (fun f => forall s, P s -> P (f s)) stmts -> P s -> P (exec stmts s).
Proof.
  intros Hf Hs. unfold exec. apply fold_left_inv; [|done].
  intros a f Hin Ha. rewrite Forall_forall in Hf. by apply Hf.
Qed.

(** ** Byte encodings of words *)

Definition be_bytes (n : nat) (x : Z) : list Z :=
  map (fun i => u8 (x .>> (8 * i))) (rev (seqZ 0 (Z.of_nat n))).
Definition le_bytes (n : nat) (x : Z) : list Z :=
  map (fun i => u8 (x .>> (8 * i))) (seqZ 0 (Z.of_nat n)).

Lemma length_be_bytes n x : length (be_bytes n x) = n.
Proof. unfold be_bytes. rewrite length_map, length_rev, length_seqZ. lia. Qed.

Lemma length_le_bytes n x : length (le_bytes n x) = n.
Proof. unfold le_bytes. rewrite length_map, length_seqZ. lia. Qed.

(** The word [k] of a buffer, on a little-endian machine. *)
Definition le_word (b : list Z) (k : Z) : Z :=
  rd b (4 * k) .| (rd b (4 * k + 1) .<< 8) .| (rd b (4 * k + 2) .<< 16)
  .| (rd b (4 * k + 3) .<< 24).

Lemma u8_spec x i : 0 <= i -> Z.testbit (u8 x) i = (i <? 8) && Z.testbit x i.
Proof.
  intros Hi. unfold u8. destruct (Z.ltb_spec i 8).
  - by rewrite Z.mod_pow2_bits_low by lia.
  - by rewrite Z.mod_pow2_bits_high by lia.
Qed.

Lemma u32_spec x i : 0 <= i -> Z.testbit (u32 x) i = (i <? 32) && Z.testbit x i.
Proof.
  intros Hi. unfold u32. destruct (Z.ltb_spec i 32).
  - by rewrite Z.mod_pow2_bits_low by lia.
  - by rewrite Z.mod_pow2_bits_high by lia.
Qed.

Lemma testbit_high n x i : fits n x -> 0 <= n <= i -> Z.testbit x i = false.
Proof. intros Hx Hi. apply fits_bits in Hx as [_ Hx]; [|lia]. apply Hx. lia. Qed.

(** Split a bit index into the byte it falls in. *)
Ltac byte_cases i :=
  destruct (Z.lt_ge_cases i 8); [|destruct (Z.lt_ge_cases i 16); [|
  destruct (Z.lt_ge_cases i 24); [|destruct (Z.lt_ge_cases i 32)]]].

Lemma le_word_bytes w : is_u32 w -> le_word (le_bytes 4 w) 0 = w.
Proof.
  intros Hw. apply Z.bits_inj'. intros i Hi.
  change (le_word (le_bytes 4 w) 0) with
    (u8 (w .>> 0) .| (u8 (w .>> 8) .<< 8) .| (u8 (w .>> 16) .<< 16) .| (u8 (w .>> 24) .<< 24)).
  rewrite !Z.lor_spec, !Z.shiftl_spec by lia.
  assert (E : forall k, 0 <= k -> Z.testbit (u8 (w .>> k)) (i - k)
    = (k <=? i) && (i <? k + 8) && Z.testbit w i).
  { intros k Hk. destruct (Z.leb_spec k i).
    - rewrite u8_spec, Z.shiftr_spec by lia. replace (i - k + k) with i by lia.
      destruct (Z.ltb_spec (i - k) 8), (Z.ltb_spec i (k + 8)); try lia; done.
    - by rewrite Z.testbit_neg_r by lia. }
  replace (Z.testbit (u8 (w .>> 0)) i) with (Z.testbit (u8 (w .>> 0)) (i - 0)) by (f_equal; lia).
  rewrite !E by lia.
  repeat match goal with |- context [?a <=? ?b] => destruct (Z.leb_spec a b) end;
    repeat match goal with |- context [?a <? ?b] => destruct (Z.ltb_spec a b) end;
    try lia; cbn; rewrite ?orb_false_r; try done.
  symmetry. apply (testbit_high 32); [done|lia].
Qed.

Lemma le_word_u32 b k : Forall is_byte b -> is_u32 (le_word b k).
Proof.
  intros Hb. unfold le_word.
  assert (E : forall i s, 0 <= s <= 24 -> is_u32 (rd b i .<< s)).
  { intros i s Hs. pose proof (rd_byte b i Hb) as Hr. unfold fits in *.
    rewrite Z.shiftl_mul_pow2 by lia. split; [nia|].
    apply Z.lt_le_trans with (2 ^ 8 * 2 ^ s); [nia|].
    rewrite <- Z.pow_add_r by lia. apply Z.pow_le_mono_r; lia. }
  replace (rd b (4 * k)) with (rd b (4 * k) .<< 0) by apply Z.shiftl_0_r.
  apply fits_lor; [lia| |apply E; lia]. apply fits_lor; [lia| |apply E; lia].
  apply fits_lor; [lia|apply E; lia|apply E; lia].
Qed.

Lemma le_bytes_word b :
  Forall is_byte b -> length b = 4%nat -> le_bytes 4 (le_word b 0) = b.
Proof.
  intros Hb Hlen. do 5 (destruct b as [|? b]; try done).
  rewrite !Forall_cons in Hb. destruct Hb as (H0 & H1 & H2 & H3 & _).
  change (le_bytes 4 ?w) with [u8 (w .>> 0); u8 (w .>> 8); u8 (w .>> 16); u8 (w .>> 24)].
  assert (E : forall k x, 0 <= k -> is_byte x ->
    (forall i, 0 <= i < 8 -> Z.testbit (le_word [z; z0; z1; z2] 0) (i + k) = Z.testbit x i) ->
    u8 (le_word [z; z0; z1; z2] 0 .>> k) = x).
  { intros k x Hk Hx Hbits. apply Z.bits_inj'. intros i Hi. rewrite u8_spec by lia.
    destruct (Z.ltb_spec i 8); cbn [andb].
    - rewrite Z.shiftr_spec by lia. by apply Hbits.
    - symmetry. by apply (testbit_high 8). }
  assert (W : forall j, 0 <= j -> Z.testbit (le_word [z; z0; z1; z2] 0) j =
    Z.testbit z j || Z.testbit z0 (j - 8) || Z.testbit z1 (j - 16) || Z.testbit z2 (j - 24)).
  { intros j Hj. change (le_word [z; z0; z1; z2] 0) with
      (z .| (z0 .<< 8) .| (z1 .<< 16) .| (z2 .<< 24)).
    by rewrite !Z.lor_spec, !Z.shiftl_spec by lia. }
  assert (Out : forall x j, is_byte x -> j < 0 \/ 8 <= j -> Z.testbit x j = false).
  { intros x j Hx [Hj|Hj]; [by apply Z.testbit_neg_r|by apply (testbit_high 8)]. }
  repeat f_equal; apply E; try done; try lia; intros i Hi; rewrite W by lia.
  - rewrite (Out z0), (Out z1), (Out z2) by (done || lia).
    by rewrite !orb_false_r, Z.add_0_r.
  - rewrite (Out z), (Out z1), (Out z2) by (done || lia).
    rewrite !orb_false_r. cbn. f_equal. lia.
  - rewrite (Out z), (Out z0), (Out z2) by (done || lia).
    rewrite !orb_false_r. cbn. f_equal. lia.
  - rewrite (Out z), (Out z0), (Out z1) by (done || lia). cbn. f_equal. lia.
Qed.

(** ** C strings in buffers *)

(** The bytes before the first NUL. *)
Fixpoint c_string (l : list Z) : list Z :=
  match l with
  | c :: l => if c =? 0 then [] else c :: c_string l
  | [] => []
  end.

Lemma c_string_text t r : Forall (fun c => c <> 0) t -> c_string (t ++ 0 :: r) = t.
Proof.
  intros Ht. induction Ht as [|c t Hc Ht IH]; [done|]. cbn. by rewrite (proj2 (Z.eqb_neq _ _) Hc), IH.
Qed.

Lemma c_string_all t : Forall (fun c => c <> 0) t -> c_string t = t.
Proof.
  intros Ht. induction Ht as [|c t Hc Ht IH]; [done|]. cbn. by rewrite (proj2 (Z.eqb_neq _ _) Hc), IH.
Qed.
