(* ===== verification/Aes128.v ===== *)
(** AES-128, software path of aes128.c: key expansion, block encryption and
    decryption over a 16-byte state, and the ECB entry points.  The central
    results are that decryption inverts encryption under every key schedule,
    and that MixColumns has order four, which is what makes the "barreto"
    pre-multiplication of aes_decr correct. *)

From S2P Require Import Prelude.

Module Aes128.

(** ** Tables *)

Definition sbox : list Z :=
  [0x63; 0x7c; 0x77; 0x7b; 0xf2; 0x6b; 0x6f; 0xc5; 0x30; 0x01; 0x67; 0x2b; 0xfe; 0xd7; 0xab; 0x76;
   0xca; 0x82; 0xc9; 0x7d; 0xfa; 0x59; 0x47; 0xf0; 0xad; 0xd4; 0xa2; 0xaf; 0x9c; 0xa4; 0x72; 0xc0;
   0xb7; 0xfd; 0x93; 0x26; 0x36; 0x3f; 0xf7; 0xcc; 0x34; 0xa5; 0xe5; 0xf1; 0x71; 0xd8; 0x31; 0x15;
   0x04; 0xc7; 0x23; 0xc3; 0x18; 0x96; 0x05; 0x9a; 0x07; 0x12; 0x80; 0xe2; 0xeb; 0x27; 0xb2; 0x75;
   0x09; 0x83; 0x2c; 0x1a; 0x1b; 0x6e; 0x5a; 0xa0; 0x52; 0x3b; 0xd6; 0xb3; 0x29; 0xe3; 0x2f; 0x84;
   0x53; 0xd1; 0x00; 0xed; 0x20; 0xfc; 0xb1; 0x5b; 0x6a; 0xcb; 0xbe; 0x39; 0x4a; 0x4c; 0x58; 0xcf;
   0xd0; 0xef; 0xaa; 0xfb; 0x43; 0x4d; 0x33; 0x85; 0x45; 0xf9; 0x02; 0x7f; 0x50; 0x3c; 0x9f; 0xa8;
   0x51; 0xa3; 0x40; 0x8f; 0x92; 0x9d; 0x38; 0xf5; 0xbc; 0xb6; 0xda; 0x21; 0x10; 0xff; 0xf3; 0xd2;
   0xcd; 0x0c; 0x13; 0xec; 0x5f; 0x97; 0x44; 0x17; 0xc4; 0xa7; 0x7e; 0x3d; 0x64; 0x5d; 0x19; 0x73;
   0x60; 0x81; 0x4f; 0xdc; 0x22; 0x2a; 0x90; 0x88; 0x46; 0xee; 0xb8; 0x14; 0xde; 0x5e; 0x0b; 0xdb;
   0xe0; 0x32; 0x3a; 0x0a; 0x49; 0x06; 0x24; 0x5c; 0xc2; 0xd3; 0xac; 0x62; 0x91; 0x95; 0xe4; 0x79;
   0xe7; 0xc8; 0x37; 0x6d; 0x8d; 0xd5; 0x4e; 0xa9; 0x6c; 0x56; 0xf4; 0xea; 0x65; 0x7a; 0xae; 0x08;
   0xba; 0x78; 0x25; 0x2e; 0x1c; 0xa6; 0xb4; 0xc6; 0xe8; 0xdd; 0x74; 0x1f; 0x4b; 0xbd; 0x8b; 0x8a;
   0x70; 0x3e; 0xb5; 0x66; 0x48; 0x03; 0xf6; 0x0e; 0x61; 0x35; 0x57; 0xb9; 0x86; 0xc1; 0x1d; 0x9e;
   0xe1; 0xf8; 0x98; 0x11; 0x69; 0xd9; 0x8e; 0x94; 0x9b; 0x1e; 0x87; 0xe9; 0xce; 0x55; 0x28; 0xdf;
   0x8c; 0xa1; 0x89; 0x0d; 0xbf; 0xe6; 0x42; 0x68; 0x41; 0x99; 0x2d; 0x0f; 0xb0; 0x54; 0xbb; 0x16].

Definition rsbox : list Z :=
  [0x52; 0x09; 0x6a; 0xd5; 0x30; 0x36; 0xa5; 0x38; 0xbf; 0x40; 0xa3; 0x9e; 0x81; 0xf3; 0xd7; 0xfb;
   0x7c; 0xe3; 0x39; 0x82; 0x9b; 0x2f; 0xff; 0x87; 0x34; 0x8e; 0x43; 0x44; 0xc4; 0xde; 0xe9; 0xcb;
   0x54; 0x7b; 0x94; 0x32; 0xa6; 0xc2; 0x23; 0x3d; 0xee; 0x4c; 0x95; 0x0b; 0x42; 0xfa; 0xc3; 0x4e;
   0x08; 0x2e; 0xa1; 0x66; 0x28; 0xd9; 0x24; 0xb2; 0x76; 0x5b; 0xa2; 0x49; 0x6d; 0x8b; 0xd1; 0x25;
   0x72; 0xf8; 0xf6; 0x64; 0x86; 0x68; 0x98; 0x16; 0xd4; 0xa4; 0x5c; 0xcc; 0x5d; 0x65; 0xb6; 0x92;
   0x6c; 0x70; 0x48; 0x50; 0xfd; 0xed; 0xb9; 0xda; 0x5e; 0x15; 0x46; 0x57; 0xa7; 0x8d; 0x9d; 0x84;
   0x90; 0xd8; 0xab; 0x00; 0x8c; 0xbc; 0xd3; 0x0a; 0xf7; 0xe4; 0x58; 0x05; 0xb8; 0xb3; 0x45; 0x06;
   0xd0; 0x2c; 0x1e; 0x8f; 0xca; 0x3f; 0x0f; 0x02; 0xc1; 0xaf; 0xbd; 0x03; 0x01; 0x13; 0x8a; 0x6b;
   0x3a; 0x91; 0x11; 0x41; 0x4f; 0x67; 0xdc; 0xea; 0x97; 0xf2; 0xcf; 0xce; 0xf0; 0xb4; 0xe6; 0x73;
   0x96; 0xac; 0x74; 0x22; 0xe7; 0xad; 0x35; 0x85; 0xe2; 0xf9; 0x37; 0xe8; 0x1c; 0x75; 0xdf; 0x6e;
   0x47; 0xf1; 0x1a; 0x71; 0x1d; 0x29; 0xc5; 0x89; 0x6f; 0xb7; 0x62; 0x0e; 0xaa; 0x18; 0xbe; 0x1b;
   0xfc; 0x56; 0x3e; 0x4b; 0xc6; 0xd2; 0x79; 0x20; 0x9a; 0xdb; 0xc0; 0xfe; 0x78; 0xcd; 0x5a; 0xf4;
   0x1f; 0xdd; 0xa8; 0x33; 0x88; 0x07; 0xc7; 0x31; 0xb1; 0x12; 0x10; 0x59; 0x27; 0x80; 0xec; 0x5f;
   0x60; 0x51; 0x7f; 0xa9; 0x19; 0xb5; 0x4a; 0x0d; 0x2d; 0xe5; 0x7a; 0x9f; 0x93; 0xc9; 0x9c; 0xef;
   0xa0; 0xe0; 0x3b; 0x4d; 0xae; 0x2a; 0xf5; 0xb0; 0xc8; 0xeb; 0xbb; 0x3c; 0x83; 0x53; 0x99; 0x61;
   0x17; 0x2b; 0x04; 0x7e; 0xba; 0x77; 0xd6; 0x26; 0xe1; 0x69; 0x14; 0x63; 0x55; 0x21; 0x0c; 0x7d].

Definition Rcon : list Z := [0x8d; 0x01; 0x02; 0x04; 0x08; 0x10; 0x20; 0x40; 0x80; 0x1b; 0x36].

(** ** State *)

(** [unsigned char state[16]]. *)
Inductive block : Type :=
  Blk (s0 s1 s2 s3 s4 s5 s6 s7 s8 s9 s10 s11 s12 s13 s14 s15 : Z).

#[export] Instance block_eq_dec : EqDecision block.
Proof. solve_decision. Defined.

(** The block held by a byte buffer, and the 16 bytes a block stores. *)
Definition load (p : list Z) : block :=
  Blk (rd p 0) (rd p 1) (rd p 2) (rd p 3) (rd p 4) (rd p 5) (rd p 6) (rd p 7) (rd p 8) (rd p 9) (rd p 10) (rd p 11) (rd p 12) (rd p 13) (rd p 14) (rd p 15).

Definition store (st : block) : list Z :=
  let '(Blk s0 s1 s2 s3 s4 s5 s6 s7 s8 s9 s10 s11 s12 s13 s14 s15) := st in
  [s0; s1; s2; s3; s4; s5; s6; s7; s8; s9; s10; s11; s12; s13; s14; s15].

Definition block_Forall (P : Z -> Prop) (st : block) : Prop := Forall P (store st).

(** ** Arithmetic in GF(2^8) *)

(** Multiply by 2 in the Galois field. *)
Definition galois_mul2 (value : Z) : Z :=
  if value .>> 7 =? 0 then u8 (value .<< 1)
  else u8 (value .<< 1) .^ 0x1b.

(** One column of MixColumns: buf1 is the sum of the column, buf2 its first
    entry, buf3 the doubled sum of two neighbours. *)
Definition mixcol (c0 c1 c2 c3 : Z) : Z * Z * Z * Z :=
  let buf1 := c0 .^ c1 .^ c2 .^ c3 in
  let buf2 := c0 in
  let buf3 := c0 .^ c1 in let buf3 := galois_mul2 buf3 in
  let c0 := c0 .^ buf3 .^ buf1 in
  let buf3 := c1 .^ c2 in let buf3 := galois_mul2 buf3 in
  let c1 := c1 .^ buf3 .^ buf1 in
  let buf3 := c2 .^ c3 in let buf3 := galois_mul2 buf3 in
  let c2 := c2 .^ buf3 .^ buf1 in
  let buf3 := c3 .^ buf2 in let buf3 := galois_mul2 buf3 in
  let c3 := c3 .^ buf3 .^ buf1 in
  (c0, c1, c2, c3).

(** The "barreto" step on one column. *)
Definition barreto (c0 c1 c2 c3 : Z) : Z * Z * Z * Z :=
  let buf1 := galois_mul2 (galois_mul2 (c0 .^ c2)) in
  let buf2 := galois_mul2 (galois_mul2 (c1 .^ c3)) in
  (c0 .^ buf1, c1 .^ buf2, c2 .^ buf1, c3 .^ buf2).

(** The four columns of the state. *)
Definition mix_columns (st : block) : block :=
  let '(Blk s0 s1 s2 s3 s4 s5 s6 s7 s8 s9 s10 s11 s12 s13 s14 s15) := st in
  let '(s0, s1, s2, s3) := mixcol s0 s1 s2 s3 in
  let '(s4, s5, s6, s7) := mixcol s4 s5 s6 s7 in
  let '(s8, s9, s10, s11) := mixcol s8 s9 s10 s11 in
  let '(s12, s13, s14, s15) := mixcol s12 s13 s14 s15 in
  Blk s0 s1 s2 s3 s4 s5 s6 s7 s8 s9 s10 s11 s12 s13 s14 s15.

Definition barreto_columns (st : block) : block :=
  let '(Blk s0 s1 s2 s3 s4 s5 s6 s7 s8 s9 s10 s11 s12 s13 s14 s15) := st in
  let '(s0, s1, s2, s3) := barreto s0 s1 s2 s3 in
  let '(s4, s5, s6, s7) := barreto s4 s5 s6 s7 in
  let '(s8, s9, s10, s11) := barreto s8 s9 s10 s11 in
  let '(s12, s13, s14, s15) := barreto s12 s13 s14 s15 in
  Blk s0 s1 s2 s3 s4 s5 s6 s7 s8 s9 s10 s11 s12 s13 s14 s15.

(** ** Rounds *)

(** addroundkey, sbox and shiftrows *)
Definition sub_shift (expandedKey : list Z) (round : Z) (st : block) : block :=
  let '(Blk s0 s1 s2 s3 s4 s5 s6 s7 s8 s9 s10 s11 s12 s13 s14 s15) := st in
  let s0 := rd sbox (s0 .^ rd expandedKey (round * 16 + 0)) in
  let s4 := rd sbox (s4 .^ rd expandedKey (round * 16 + 4)) in
  let s8 := rd sbox (s8 .^ rd expandedKey (round * 16 + 8)) in
  let s12 := rd sbox (s12 .^ rd expandedKey (round * 16 + 12)) in
  let buf1 := s1 .^ rd expandedKey (round * 16 + 1) in
  let s1 := rd sbox (s5 .^ rd expandedKey (round * 16 + 5)) in
  let s5 := rd sbox (s9 .^ rd expandedKey (round * 16 + 9)) in
  let s9 := rd sbox (s13 .^ rd expandedKey (round * 16 + 13)) in
  let s13 := rd sbox buf1 in
  let buf1 := s2 .^ rd expandedKey (round * 16 + 2) in
  let buf2 := s6 .^ rd expandedKey (round * 16 + 6) in
  let s2 := rd sbox (s10 .^ rd expandedKey (round * 16 + 10)) in
  let s6 := rd sbox (s14 .^ rd expandedKey (round * 16 + 14)) in
  let s10 := rd sbox buf1 in
  let s14 := rd sbox buf2 in
  let buf1 := s15 .^ rd expandedKey (round * 16 + 15) in
  let s15 := rd sbox (s11 .^ rd expandedKey (round * 16 + 11)) in
  let s11 := rd sbox (s7 .^ rd expandedKey (round * 16 + 7)) in
  let s7 := rd sbox (s3 .^ rd expandedKey (round * 16 + 3)) in
  let s3 := rd sbox buf1 in
  Blk s0 s1 s2 s3 s4 s5 s6 s7 s8 s9 s10 s11 s12 s13 s14 s15.

(** last addroundkey *)
Definition last_addroundkey (expandedKey : list Z) (st : block) : block :=
  let '(Blk s0 s1 s2 s3 s4 s5 s6 s7 s8 s9 s10 s11 s12 s13 s14 s15) := st in
  let s0 := s0 .^ rd expandedKey 160 in
  let s1 := s1 .^ rd expandedKey 161 in
  let s2 := s2 .^ rd expandedKey 162 in
  let s3 := s3 .^ rd expandedKey 163 in
  let s4 := s4 .^ rd expandedKey 164 in
  let s5 := s5 .^ rd expandedKey 165 in
  let s6 := s6 .^ rd expandedKey 166 in
  let s7 := s7 .^ rd expandedKey 167 in
  let s8 := s8 .^ rd expandedKey 168 in
  let s9 := s9 .^ rd expandedKey 169 in
  let s10 := s10 .^ rd expandedKey 170 in
  let s11 := s11 .^ rd expandedKey 171 in
  let s12 := s12 .^ rd expandedKey 172 in
  let s13 := s13 .^ rd expandedKey 173 in
  let s14 := s14 .^ rd expandedKey 174 in
  let s15 := s15 .^ rd expandedKey 175 in
  Blk s0 s1 s2 s3 s4 s5 s6 s7 s8 s9 s10 s11 s12 s13 s14 s15.

(** Straight forward AES encryption: nine rounds with mixcolumns, the tenth
    without, and the last addroundkey. *)
Definition encr_round (expandedKey : list Z) (st : block) (round : Z) : block :=
  mix_columns (sub_shift expandedKey round st).

Definition aes_encr (st : block) (expandedKey : list Z) : block :=
  let st := fold_left (encr_round expandedKey) (seqZ 0 9) st in
  let st := sub_shift expandedKey 9 st in
  last_addroundkey expandedKey st.

(** addroundkey, rsbox and shiftrows, in the inverse direction *)
Definition inv_sub_shift (expandedKey : list Z) (round : Z) (st : block) : block :=
  let '(Blk s0 s1 s2 s3 s4 s5 s6 s7 s8 s9 s10 s11 s12 s13 s14 s15) := st in
  let s0 := rd rsbox s0 .^ rd expandedKey (round * 16 + 0) in
  let s4 := rd rsbox s4 .^ rd expandedKey (round * 16 + 4) in
  let s8 := rd rsbox s8 .^ rd expandedKey (round * 16 + 8) in
  let s12 := rd rsbox s12 .^ rd expandedKey (round * 16 + 12) in
  let buf1 := rd rsbox s13 .^ rd expandedKey (round * 16 + 1) in
  let s13 := rd rsbox s9 .^ rd expandedKey (round * 16 + 13) in
  let s9 := rd rsbox s5 .^ rd expandedKey (round * 16 + 9) in
  let s5 := rd rsbox s1 .^ rd expandedKey (round * 16 + 5) in
  let s1 := buf1 in
  let buf1 := rd rsbox s2 .^ rd expandedKey (round * 16 + 10) in
  let buf2 := rd rsbox s6 .^ rd expandedKey (round * 16 + 14) in
  let s2 := rd rsbox s10 .^ rd expandedKey (round * 16 + 2) in
  let s6 := rd rsbox s14 .^ rd expandedKey (round * 16 + 6) in
  let s10 := buf1 in
  let s14 := buf2 in
  let buf1 := rd rsbox s3 .^ rd expandedKey (round * 16 + 15) in
  let s3 := rd rsbox s7 .^ rd expandedKey (round * 16 + 3) in
  let s7 := rd rsbox s11 .^ rd expandedKey (round * 16 + 7) in
  let s11 := rd rsbox s15 .^ rd expandedKey (round * 16 + 11) in
  let s15 := buf1 in
  Blk s0 s1 s2 s3 s4 s5 s6 s7 s8 s9 s10 s11 s12 s13 s14 s15.

Definition decr_round (expandedKey : list Z) (st : block) (round : Z) : block :=
  inv_sub_shift expandedKey round (mix_columns (barreto_columns st)).

(** Decryption: the rounds in reverse order, [round] counting down. *)
Definition aes_decr (st : block) (expandedKey : list Z) : block :=
  let st := last_addroundkey expandedKey st in
  let st := inv_sub_shift expandedKey 9 st in
  fold_left (decr_round expandedKey) (rev (seqZ 0 9)) st.

(** ** Key expansion *)

(** One iteration of the loop: the sixteen writes, in order. *)
Definition expandKey_round (expandedKey : list Z) (ii : Z) : list Z :=
  let buf1 := rd expandedKey (ii * 16 - 4) in
  exec [
    fun expandedKey => wr expandedKey (ii * 16 + 0) (rd sbox (rd expandedKey (ii * 16 - 3)) .^ rd expandedKey ((ii - 1) * 16 + 0) .^ rd Rcon ii);
    fun expandedKey => wr expandedKey (ii * 16 + 1) (rd sbox (rd expandedKey (ii * 16 - 2)) .^ rd expandedKey ((ii - 1) * 16 + 1));
    fun expandedKey => wr expandedKey (ii * 16 + 2) (rd sbox (rd expandedKey (ii * 16 - 1)) .^ rd expandedKey ((ii - 1) * 16 + 2));
    fun expandedKey => wr expandedKey (ii * 16 + 3) (rd sbox buf1 .^ rd expandedKey ((ii - 1) * 16 + 3));
    fun expandedKey => wr expandedKey (ii * 16 + 4) (rd expandedKey ((ii - 1) * 16 + 4) .^ rd expandedKey (ii * 16 + 0));
    fun expandedKey => wr expandedKey (ii * 16 + 5) (rd expandedKey ((ii - 1) * 16 + 5) .^ rd expandedKey (ii * 16 + 1));
    fun expandedKey => wr expandedKey (ii * 16 + 6) (rd expandedKey ((ii - 1) * 16 + 6) .^ rd expandedKey (ii * 16 + 2));
    fun expandedKey => wr expandedKey (ii * 16 + 7) (rd expandedKey ((ii - 1) * 16 + 7) .^ rd expandedKey (ii * 16 + 3));
    fun expandedKey => wr expandedKey (ii * 16 + 8) (rd expandedKey ((ii - 1) * 16 + 8) .^ rd expandedKey (ii * 16 + 4));
    fun expandedKey => wr expandedKey (ii * 16 + 9) (rd expandedKey ((ii - 1) * 16 + 9) .^ rd expandedKey (ii * 16 + 5));
    fun expandedKey => wr expandedKey (ii * 16 + 10) (rd expandedKey ((ii - 1) * 16 + 10) .^ rd expandedKey (ii * 16 + 6));
    fun expandedKey => wr expandedKey (ii * 16 + 11) (rd expandedKey ((ii - 1) * 16 + 11) .^ rd expandedKey (ii * 16 + 7));
    fun expandedKey => wr expandedKey (ii * 16 + 12) (rd expandedKey ((ii - 1) * 16 + 12) .^ rd expandedKey (ii * 16 + 8));
    fun expandedKey => wr expandedKey (ii * 16 + 13) (rd expandedKey ((ii - 1) * 16 + 13) .^ rd expandedKey (ii * 16 + 9));
    fun expandedKey => wr expandedKey (ii * 16 + 14) (rd expandedKey ((ii - 1) * 16 + 14) .^ rd expandedKey (ii * 16 + 10));
    fun expandedKey => wr expandedKey (ii * 16 + 15) (rd expandedKey ((ii - 1) * 16 + 15) .^ rd expandedKey (ii * 16 + 11))]
    expandedKey.

(** [memcpy(expandedKey, key, 16)] and ten rounds. *)
Definition expandKey (expandedKey key : list Z) : list Z :=
  fold_left expandKey_round (seqZ 1 10) (take 16 key ++ drop 16 expandedKey).
(** ** Public functions *)

(** [aes128_ctx]: the round keys and whether they were made by the hardware
    path (bit 1) and for encryption (bit 0). *)
Record aes128_ctx := {
  roundkey : list Z;
  have_hw : Z;
}.

(** The x86 path (aes-x86.c), reached only when the processor supports AES. *)
Class AesHw := {
  cpu_supports_aes : bool;
  AES_expand_key : list Z -> list Z -> Z -> bool -> list Z;
  AES128_ECB_encrypt_block : list Z -> list Z -> list Z;
  AES128_ECB_decrypt_block : list Z -> list Z -> list Z;
}.

Section Api.
Context {hw : AesHw}.

(** The result code and the context; a NULL key is [None] and leaves the
    context alone. *)
Definition AES128_init_ctx (ctx : aes128_ctx) (key : option (list Z)) (encrypt : bool)
  : Z * aes128_ctx :=
  match key with
  | None => (EINVAL, ctx)
  | Some key =>
      let zeroed := replicate 176 0 in
      if cpu_supports_aes then
        (0, {| roundkey := AES_expand_key key zeroed 128 encrypt;
               have_hw := 2 .| (if encrypt then 1 else 0) |})
      else (0, {| roundkey := expandKey zeroed key; have_hw := 0 |})
  end.

Definition AES128_ECB_encrypt (ctx : aes128_ctx) (input : list Z) : list Z :=
  if negb (have_hw ctx =? 0) then AES128_ECB_encrypt_block input (roundkey ctx)
  else store (aes_encr (load input) (roundkey ctx)).

Definition AES128_ECB_decrypt (ctx : aes128_ctx) (input : list Z) : list Z :=
  if negb (have_hw ctx =? 0) then AES128_ECB_decrypt_block input (roundkey ctx)
  else store (aes_decr (load input) (roundkey ctx)).
End Api.

(** ** Table lemmas *)

Lemma sbox_byte x : is_byte x -> is_byte (rd sbox x).
Proof. by apply (byte_forall (fun x => is_byte (rd sbox x))). Qed.

Lemma rsbox_byte x : is_byte x -> is_byte (rd rsbox x).
Proof. by apply (byte_forall (fun x => is_byte (rd rsbox x))). Qed.

Lemma rsbox_sbox x : is_byte x -> rd rsbox (rd sbox x) = x.
Proof. by apply (byte_forall (fun x => rd rsbox (rd sbox x) = x)). Qed.

Lemma sbox_rsbox x : is_byte x -> rd sbox (rd rsbox x) = x.
Proof. by apply (byte_forall (fun x => rd sbox (rd rsbox x) = x)). Qed.

Lemma galois_mul2_byte x : is_byte x -> is_byte (galois_mul2 x).
Proof. by apply (byte_forall (fun x => is_byte (galois_mul2 x))). Qed.

Lemma galois_mul2_lxor x y :
  is_byte x -> is_byte y -> galois_mul2 (x .^ y) = galois_mul2 x .^ galois_mul2 y.
Proof.
  apply (@byte_forall2 (fun x y => galois_mul2 (x .^ y) = galois_mul2 x .^ galois_mul2 y)
           (fun _ _ => Z.eq_dec _ _)).
  by vm_compute.
Qed.

#[export] Hint Resolve sbox_byte rsbox_byte galois_mul2_byte : samlib.

(** ** MixColumns *)

Definition col_Forall (P : Z -> Prop) (c : Z * Z * Z * Z) : Prop :=
  let '(c0, c1, c2, c3) := c in P c0 /\ P c1 /\ P c2 /\ P c3.

Definition mixcol' (c : Z * Z * Z * Z) :=
  let '(c0, c1, c2, c3) := c in mixcol c0 c1 c2 c3.
Definition barreto' (c : Z * Z * Z * Z) :=
  let '(c0, c1, c2, c3) := c in barreto c0 c1 c2 c3.

Lemma mixcol_bytes c : col_Forall is_byte c -> col_Forall is_byte (mixcol' c).
Proof. destruct c as [[[c0 c1] c2] c3]. cbn. intros (?&?&?&?). repeat split_and; fits_auto. Qed.

Lemma barreto_bytes c : col_Forall is_byte c -> col_Forall is_byte (barreto' c).
Proof. destruct c as [[[c0 c1] c2] c3]. cbn. intros (?&?&?&?). repeat split_and; fits_auto. Qed.

(** Push the doubling through the exclusive-ors and cancel. *)
Ltac galois_ring :=
  repeat first [apply (f_equal2 pair) | rewrite !galois_mul2_lxor by fits_auto]; xor_ring.

#[local] Abbreviation m := galois_mul2.
#[local] Notation "'m2' x" := (galois_mul2 (galois_mul2 x)) (at level 9, x at level 9).

(** Both steps as matrices over GF(2^8). *)
Lemma mixcol_matrix c0 c1 c2 c3 :
  col_Forall is_byte (c0, c1, c2, c3) ->
  mixcol c0 c1 c2 c3 =
    (m c0 .^ m c1 .^ c1 .^ c2 .^ c3, c0 .^ m c1 .^ m c2 .^ c2 .^ c3,
     c0 .^ c1 .^ m c2 .^ m c3 .^ c3, m c0 .^ c0 .^ c1 .^ c2 .^ m c3).
Proof. intros (?&?&?&?). cbv [mixcol]. galois_ring. Qed.

Lemma barreto_matrix c0 c1 c2 c3 :
  col_Forall is_byte (c0, c1, c2, c3) ->
  barreto c0 c1 c2 c3 =
    (c0 .^ m2 c0 .^ m2 c2, c1 .^ m2 c1 .^ m2 c3, c2 .^ m2 c0 .^ m2 c2, c3 .^ m2 c1 .^ m2 c3).
Proof. intros (?&?&?&?). cbv [barreto]. galois_ring. Qed.

(** Applying MixColumns twice is the barreto step, so MixColumns has order four. *)
Lemma mixcol_mixcol c :
  col_Forall is_byte c -> mixcol' (mixcol' c) = barreto' c.
Proof.
  destruct c as [[[c0 c1] c2] c3]. intros Hc.
  unfold mixcol', barreto'. rewrite barreto_matrix, (mixcol_matrix c0) by done.
  destruct Hc as (?&?&?&?).
  rewrite mixcol_matrix by (cbn; repeat split_and; fits_auto). galois_ring.
Qed.

Lemma barreto_barreto c :
  col_Forall is_byte c -> barreto' (barreto' c) = c.
Proof.
  destruct c as [[[c0 c1] c2] c3]. intros Hc.
  unfold barreto'. rewrite (barreto_matrix c0) by done.
  destruct Hc as (?&?&?&?).
  rewrite barreto_matrix by (cbn; repeat split_and; fits_auto). galois_ring.
Qed.

(** The pre-multiplication turns MixColumns into its inverse, on both sides. *)
Lemma mixcol_barreto_mixcol c :
  col_Forall is_byte c -> mixcol' (barreto' (mixcol' c)) = c.
Proof.
  intros Hc. rewrite <- (mixcol_mixcol (mixcol' c)) by auto using mixcol_bytes.
  rewrite (mixcol_mixcol (mixcol' (mixcol' c))) by auto using mixcol_bytes.
  rewrite (mixcol_mixcol c) by done. by apply barreto_barreto.
Qed.

Lemma mixcol_mixcol_barreto c :
  col_Forall is_byte c -> mixcol' (mixcol' (barreto' c)) = c.
Proof.
  intros Hc. rewrite mixcol_mixcol by auto using barreto_bytes. by apply barreto_barreto.
Qed.

(** ** The rounds and their inverses *)

(** Case analysis on a block of bytes. *)
Ltac destruct_block st H :=
  destruct st; unfold block_Forall in H; cbn [store] in H;
  rewrite ?Forall_cons in H; destruct_and?.

(** Prove that every byte of an explicit block is a byte. *)
Ltac block_bytes :=
  unfold block_Forall; cbn [store]; rewrite ?Forall_cons, ?Forall_nil;
  repeat split_and; first [exact I | fits_auto].

Section Rounds.
Context (ek : list Z) (Hek : Forall is_byte ek).

Lemma sub_shift_bytes r st :
  block_Forall is_byte st -> block_Forall is_byte (sub_shift ek r st).
Proof using Hek. intros Hst. destruct_block st Hst. cbv [sub_shift]. block_bytes. Qed.

Lemma last_addroundkey_bytes st :
  block_Forall is_byte st -> block_Forall is_byte (last_addroundkey ek st).
Proof using Hek. intros Hst. destruct_block st Hst. cbv [last_addroundkey]. block_bytes. Qed.

Lemma inv_sub_shift_bytes r st :
  block_Forall is_byte st -> block_Forall is_byte (inv_sub_shift ek r st).
Proof using Hek. intros Hst. destruct_block st Hst. cbv [inv_sub_shift]. block_bytes. Qed.

Lemma inv_sub_shift_sub_shift r st :
  block_Forall is_byte st -> inv_sub_shift ek r (sub_shift ek r st) = st.
Proof using Hek.
  intros Hst. destruct_block st Hst. cbv [inv_sub_shift sub_shift].
  rewrite !rsbox_sbox by fits_auto. by rewrite !lxor_cancel_r.
Qed.

Lemma sub_shift_inv_sub_shift r st :
  block_Forall is_byte st -> sub_shift ek r (inv_sub_shift ek r st) = st.
Proof using Hek.
  intros Hst. destruct_block st Hst. cbv [inv_sub_shift sub_shift].
  rewrite !lxor_cancel_r. by rewrite !sbox_rsbox by fits_auto.
Qed.

Lemma last_addroundkey_involutive st :
  last_addroundkey ek (last_addroundkey ek st) = st.
Proof using Type. destruct st. cbv [last_addroundkey]. by rewrite !lxor_cancel_r. Qed.
End Rounds.

(** A block is its four columns; both column steps act on them separately. *)
Definition columns (st : block) : list (Z * Z * Z * Z) :=
  let '(Blk s0 s1 s2 s3 s4 s5 s6 s7 s8 s9 s10 s11 s12 s13 s14 s15) := st in
  [(s0, s1, s2, s3); (s4, s5, s6, s7); (s8, s9, s10, s11); (s12, s13, s14, s15)].

Lemma columns_inj st st' : columns st = columns st' -> st = st'.
Proof. destruct st, st'. cbn. by intros [=-> -> -> -> -> -> -> -> -> -> -> -> -> -> -> ->]. Qed.

Lemma columns_mix st : columns (mix_columns st) = map mixcol' (columns st).
Proof. destruct st. reflexivity. Qed.

Lemma columns_barreto st : columns (barreto_columns st) = map barreto' (columns st).
Proof. destruct st. reflexivity. Qed.

Lemma columns_bytes st :
  block_Forall is_byte st <-> Forall (col_Forall is_byte) (columns st).
Proof.
  destruct st. unfold block_Forall. cbn. rewrite !Forall_cons. unfold col_Forall.
  split; intros; destruct_and?; repeat split_and; (done || apply Forall_nil_2).
Qed.

Lemma mix_columns_bytes st : block_Forall is_byte st -> block_Forall is_byte (mix_columns st).
Proof.
  rewrite !columns_bytes, columns_mix. intros H. apply Forall_map.
  eapply Forall_impl; [exact H|]. intros c. apply mixcol_bytes.
Qed.

Lemma barreto_columns_bytes st :
  block_Forall is_byte st -> block_Forall is_byte (barreto_columns st).
Proof.
  rewrite !columns_bytes, columns_barreto. intros H. apply Forall_map.
  eapply Forall_impl; [exact H|]. intros c. apply barreto_bytes.
Qed.

#[export] Hint Resolve sub_shift_bytes last_addroundkey_bytes inv_sub_shift_bytes
  mix_columns_bytes barreto_columns_bytes : samlib.

Lemma map_id_on {A} (f : A -> A) (P : A -> Prop) l :
  (forall x, P x -> f x = x) -> Forall P l -> map f l = l.
Proof. intros Hf. induction 1 as [|x l Hx _ IH]; cbn; [done|]. by rewrite Hf, IH. Qed.

Lemma mix_barreto_mix st :
  block_Forall is_byte st -> mix_columns (barreto_columns (mix_columns st)) = st.
Proof.
  rewrite columns_bytes. intros H. apply columns_inj.
  rewrite columns_mix, columns_barreto, columns_mix, !map_map.
  eapply map_id_on; [apply mixcol_barreto_mixcol|done].
Qed.

Lemma mix_mix_barreto st :
  block_Forall is_byte st -> mix_columns (mix_columns (barreto_columns st)) = st.
Proof.
  rewrite columns_bytes. intros H. apply columns_inj.
  rewrite !columns_mix, columns_barreto, !map_map.
  eapply map_id_on; [apply mixcol_mixcol_barreto|done].
Qed.

(** ** Whole-cipher results *)

Section Cipher.
Context (ek : list Z) (Hek : Forall is_byte ek).

Lemma encr_rounds_bytes rs st :
  block_Forall is_byte st -> block_Forall is_byte (fold_left (encr_round ek) rs st).
Proof using Hek.
  revert st. induction rs as [|r rs IH]; intros st Hst; cbn; [done|].
  apply IH. unfold encr_round. auto with samlib.
Qed.

Lemma decr_rounds_bytes rs st :
  block_Forall is_byte st -> block_Forall is_byte (fold_left (decr_round ek) rs st).
Proof using Hek.
  revert st. induction rs as [|r rs IH]; intros st Hst; cbn; [done|].
  apply IH. unfold decr_round. auto with samlib.
Qed.

Lemma decr_encr_rounds rs st :
  block_Forall is_byte st ->
  fold_left (decr_round ek) (rev rs) (fold_left (encr_round ek) rs st) = st.
Proof using Hek.
  revert st. induction rs as [|r rs IH]; intros st Hst; cbn; [done|].
  rewrite fold_left_app, IH by (unfold encr_round; auto with samlib).
  cbn. unfold decr_round, encr_round.
  rewrite mix_barreto_mix by auto with samlib. by apply inv_sub_shift_sub_shift.
Qed.

Lemma encr_decr_rounds rs st :
  block_Forall is_byte st ->
  fold_left (encr_round ek) rs (fold_left (decr_round ek) (rev rs) st) = st.
Proof using Hek.
  revert st. induction rs as [|r rs IH]; intros st Hst; cbn; [done|].
  rewrite fold_left_app. cbn.
  set (st' := fold_left (decr_round ek) (rev rs) st).
  assert (Hst' : block_Forall is_byte st') by by apply decr_rounds_bytes.
  replace (encr_round ek (decr_round ek st' r) r) with st'; [by apply IH|].
  unfold encr_round, decr_round.
  rewrite sub_shift_inv_sub_shift by auto with samlib. by rewrite mix_mix_barreto.
Qed.

Lemma aes_encr_bytes st : block_Forall is_byte st -> block_Forall is_byte (aes_encr st ek).
Proof using Hek.
  intros Hst. unfold aes_encr.
  apply last_addroundkey_bytes, sub_shift_bytes, encr_rounds_bytes; done.
Qed.

Lemma aes_decr_encr st : block_Forall is_byte st -> aes_decr (aes_encr st ek) ek = st.
Proof using Hek.
  intros Hst. unfold aes_decr, aes_encr. rewrite last_addroundkey_involutive.
  rewrite inv_sub_shift_sub_shift by (done || by apply encr_rounds_bytes).
  by apply decr_encr_rounds.
Qed.

Lemma aes_encr_decr st : block_Forall is_byte st -> aes_encr (aes_decr st ek) ek = st.
Proof using Hek.
  intros Hst. unfold aes_decr, aes_encr.
  rewrite encr_decr_rounds by auto with samlib.
  rewrite sub_shift_inv_sub_shift by auto with samlib.
  apply last_addroundkey_involutive.
Qed.
End Cipher.

(** ** Key expansion *)

Lemma expandKey_round_bytes ek ii :
  Forall is_byte ek -> Forall is_byte (expandKey_round ek ii).
Proof.
  intros Hek. assert (Forall is_byte Rcon) by (unfold Rcon; repeat constructor; done).
  unfold expandKey_round. apply exec_inv; [|done].
  repeat constructor; intros; auto 10 with samlib.
Qed.

Lemma expandKey_bytes ek key :
  Forall is_byte ek -> Forall is_byte key -> Forall is_byte (expandKey ek key).
Proof.
  intros Hek Hkey. unfold expandKey.
  assert (H0 : Forall is_byte (take 16 key ++ drop 16 ek))
    by (apply Forall_app; eauto using Forall_take, Forall_drop).
  apply fold_left_inv; [|done]. auto using expandKey_round_bytes.
Qed.

Lemma replicate_bytes n : Forall is_byte (replicate n 0).
Proof. apply Forall_replicate. by apply fits_0. Qed.

(** ** The buffer view *)

Lemma load_store st : load (store st) = st.
Proof. by destruct st. Qed.

Lemma store_load p : length p = 16%nat -> store (load p) = p.
Proof. intros Hp. do 17 (destruct p as [|? p]; try done). Qed.

Lemma load_bytes p : Forall is_byte p -> block_Forall is_byte (load p).
Proof.
  intros Hp. unfold block_Forall, load. cbn [store].
  repeat (apply Forall_cons_2; [by apply rd_byte|]). apply Forall_nil_2.
Qed.

(** C18: The AES-128 block decryption of aes128.c inverts its block encryption, and
    conversely, under every key schedule whose entries are bytes. *)
Theorem aes_encr_decr_inverse (st : block) (expandedKey : list Z) :
  block_Forall is_byte st -> Forall is_byte expandedKey ->
  aes_decr (aes_encr st expandedKey) expandedKey = st /\
  aes_encr (aes_decr st expandedKey) expandedKey = st.
Proof. intros Hst Hek. split; [by apply aes_decr_encr|by apply aes_encr_decr]. Qed.

Definition fips_key : list Z := seqZ 0 16.
Definition fips_plain : list Z := map (fun i => 17 * i) (seqZ 0 16).
Definition fips_cipher : list Z :=
  [0x69; 0xc4; 0xe0; 0xd8; 0x6a; 0x7b; 0x04; 0x30;
   0xd8; 0xcd; 0xb7; 0x80; 0x70; 0xb4; 0xc5; 0x5a].

Lemma bytes_check l : forallb (fun x => bool_decide (is_byte x)) l = true -> Forall is_byte l.
Proof.
  intros H. rewrite forallb_forall in H. apply List.Forall_forall.
  intros x Hx. by apply (bool_decide_eq_true_1 (is_byte x)), H.
Qed.

Lemma aes_encr_decr_inverse_witness :
  let ek := expandKey (replicate 176 0) fips_key in
  aes_encr (load fips_plain) ek = load fips_cipher /\
  aes_decr (load fips_cipher) ek = load fips_plain.
Proof.
  intros ek. assert (E : aes_encr (load fips_plain) ek = load fips_cipher) by by vm_compute.
  split; [exact E|]. rewrite <- E.
  apply (aes_encr_decr_inverse (load fips_plain) ek).
  - apply bytes_check. by vm_compute.
  - apply bytes_check. by vm_compute.
Defined.

(** A context initialised by AES128_init_ctx without hardware support
    decrypts, with AES128_ECB_decrypt, what AES128_ECB_encrypt produced, for every
    16-byte key and block; the result of initialisation is 0 and a NULL key gives
    EINVAL and leaves the context untouched. *)
Theorem ecb_roundtrip `{hw : AesHw} (ctx ctx' : aes128_ctx) (key input : list Z)
    (encrypt : bool) (rc : Z) :
  cpu_supports_aes = false ->
  Forall is_byte key -> Forall is_byte input -> length input = 16%nat ->
  AES128_init_ctx ctx (Some key) encrypt = (rc, ctx') ->
  rc = 0 /\ AES128_ECB_decrypt ctx' (AES128_ECB_encrypt ctx' input) = input /\
  AES128_init_ctx ctx None encrypt = (EINVAL, ctx).
Proof.
  intros Hhw Hkey Hin Hlen Hinit. unfold AES128_init_ctx in Hinit.
  rewrite Hhw in Hinit. apply pair_equal_spec in Hinit as [<- <-].
  split; [done|]. split; [|done].
  unfold AES128_ECB_decrypt, AES128_ECB_encrypt. cbn [have_hw roundkey].
  change (negb (0 =? 0)) with false. cbv iota.
  rewrite load_store, aes_decr_encr.
  - by apply store_load.
  - apply expandKey_bytes; [apply replicate_bytes|done].
  - by apply load_bytes.
Qed.

#[local] Instance no_hw : AesHw :=
  {| cpu_supports_aes := false;
     AES_expand_key _ k _ _ := k;
     AES128_ECB_encrypt_block b _ := b;
     AES128_ECB_decrypt_block b _ := b |}.

Lemma ecb_roundtrip_witness :
  let ctx' := snd (AES128_init_ctx (Build_aes128_ctx [] 0) (Some fips_key) true) in
  AES128_ECB_encrypt ctx' fips_plain = fips_cipher /\
  AES128_ECB_decrypt ctx' (AES128_ECB_encrypt ctx' fips_plain) = fips_plain.
Proof.
  intros ctx'. split; [by vm_compute|].
  refine (proj1 (proj2 (ecb_roundtrip (Build_aes128_ctx [] 0) ctx' fips_key fips_plain true 0
    _ _ _ _ _))).
  - reflexivity.
  - apply bytes_check. by vm_compute.
  - apply bytes_check. by vm_compute.
  - reflexivity.
  - reflexivity.
Defined.
End Aes128.
