(* ===== verification/AesCbc.v ===== *)
(** AES-128 and AES-256 in CBC mode, software path of aes-cbc.c: the table
    driven rounds over a 4x4 state, the word-wise key schedule, the CBC chaining
    and its context functions.  The results: decryption inverts encryption for
    both key sizes, the 128-bit cipher is the cipher of aes128.c, and the CBC
    decryption of a CBC encryption is the plain text. *)

From S2P Require Import Prelude.
From S2P Require Import Aes128.

Module AesCbc.
Import Aes128.

(** ** Tables *)

Definition aes_sbox : list (list Z) :=
  [[0x63; 0x7C; 0x77; 0x7B; 0xF2; 0x6B; 0x6F; 0xC5; 0x30; 0x01; 0x67; 0x2B; 0xFE; 0xD7; 0xAB; 0x76];
   [0xCA; 0x82; 0xC9; 0x7D; 0xFA; 0x59; 0x47; 0xF0; 0xAD; 0xD4; 0xA2; 0xAF; 0x9C; 0xA4; 0x72; 0xC0];
   [0xB7; 0xFD; 0x93; 0x26; 0x36; 0x3F; 0xF7; 0xCC; 0x34; 0xA5; 0xE5; 0xF1; 0x71; 0xD8; 0x31; 0x15];
   [0x04; 0xC7; 0x23; 0xC3; 0x18; 0x96; 0x05; 0x9A; 0x07; 0x12; 0x80; 0xE2; 0xEB; 0x27; 0xB2; 0x75];
   [0x09; 0x83; 0x2C; 0x1A; 0x1B; 0x6E; 0x5A; 0xA0; 0x52; 0x3B; 0xD6; 0xB3; 0x29; 0xE3; 0x2F; 0x84];
   [0x53; 0xD1; 0x00; 0xED; 0x20; 0xFC; 0xB1; 0x5B; 0x6A; 0xCB; 0xBE; 0x39; 0x4A; 0x4C; 0x58; 0xCF];
   [0xD0; 0xEF; 0xAA; 0xFB; 0x43; 0x4D; 0x33; 0x85; 0x45; 0xF9; 0x02; 0x7F; 0x50; 0x3C; 0x9F; 0xA8];
   [0x51; 0xA3; 0x40; 0x8F; 0x92; 0x9D; 0x38; 0xF5; 0xBC; 0xB6; 0xDA; 0x21; 0x10; 0xFF; 0xF3; 0xD2];
   [0xCD; 0x0C; 0x13; 0xEC; 0x5F; 0x97; 0x44; 0x17; 0xC4; 0xA7; 0x7E; 0x3D; 0x64; 0x5D; 0x19; 0x73];
   [0x60; 0x81; 0x4F; 0xDC; 0x22; 0x2A; 0x90; 0x88; 0x46; 0xEE; 0xB8; 0x14; 0xDE; 0x5E; 0x0B; 0xDB];
   [0xE0; 0x32; 0x3A; 0x0A; 0x49; 0x06; 0x24; 0x5C; 0xC2; 0xD3; 0xAC; 0x62; 0x91; 0x95; 0xE4; 0x79];
   [0xE7; 0xC8; 0x37; 0x6D; 0x8D; 0xD5; 0x4E; 0xA9; 0x6C; 0x56; 0xF4; 0xEA; 0x65; 0x7A; 0xAE; 0x08];
   [0xBA; 0x78; 0x25; 0x2E; 0x1C; 0xA6; 0xB4; 0xC6; 0xE8; 0xDD; 0x74; 0x1F; 0x4B; 0xBD; 0x8B; 0x8A];
   [0x70; 0x3E; 0xB5; 0x66; 0x48; 0x03; 0xF6; 0x0E; 0x61; 0x35; 0x57; 0xB9; 0x86; 0xC1; 0x1D; 0x9E];
   [0xE1; 0xF8; 0x98; 0x11; 0x69; 0xD9; 0x8E; 0x94; 0x9B; 0x1E; 0x87; 0xE9; 0xCE; 0x55; 0x28; 0xDF];
   [0x8C; 0xA1; 0x89; 0x0D; 0xBF; 0xE6; 0x42; 0x68; 0x41; 0x99; 0x2D; 0x0F; 0xB0; 0x54; 0xBB; 0x16]].

Definition aes_invsbox : list (list Z) :=
  [[0x52; 0x09; 0x6A; 0xD5; 0x30; 0x36; 0xA5; 0x38; 0xBF; 0x40; 0xA3; 0x9E; 0x81; 0xF3; 0xD7; 0xFB];
   [0x7C; 0xE3; 0x39; 0x82; 0x9B; 0x2F; 0xFF; 0x87; 0x34; 0x8E; 0x43; 0x44; 0xC4; 0xDE; 0xE9; 0xCB];
   [0x54; 0x7B; 0x94; 0x32; 0xA6; 0xC2; 0x23; 0x3D; 0xEE; 0x4C; 0x95; 0x0B; 0x42; 0xFA; 0xC3; 0x4E];
   [0x08; 0x2E; 0xA1; 0x66; 0x28; 0xD9; 0x24; 0xB2; 0x76; 0x5B; 0xA2; 0x49; 0x6D; 0x8B; 0xD1; 0x25];
   [0x72; 0xF8; 0xF6; 0x64; 0x86; 0x68; 0x98; 0x16; 0xD4; 0xA4; 0x5C; 0xCC; 0x5D; 0x65; 0xB6; 0x92];
   [0x6C; 0x70; 0x48; 0x50; 0xFD; 0xED; 0xB9; 0xDA; 0x5E; 0x15; 0x46; 0x57; 0xA7; 0x8D; 0x9D; 0x84];
   [0x90; 0xD8; 0xAB; 0x00; 0x8C; 0xBC; 0xD3; 0x0A; 0xF7; 0xE4; 0x58; 0x05; 0xB8; 0xB3; 0x45; 0x06];
   [0xD0; 0x2C; 0x1E; 0x8F; 0xCA; 0x3F; 0x0F; 0x02; 0xC1; 0xAF; 0xBD; 0x03; 0x01; 0x13; 0x8A; 0x6B];
   [0x3A; 0x91; 0x11; 0x41; 0x4F; 0x67; 0xDC; 0xEA; 0x97; 0xF2; 0xCF; 0xCE; 0xF0; 0xB4; 0xE6; 0x73];
   [0x96; 0xAC; 0x74; 0x22; 0xE7; 0xAD; 0x35; 0x85; 0xE2; 0xF9; 0x37; 0xE8; 0x1C; 0x75; 0xDF; 0x6E];
   [0x47; 0xF1; 0x1A; 0x71; 0x1D; 0x29; 0xC5; 0x89; 0x6F; 0xB7; 0x62; 0x0E; 0xAA; 0x18; 0xBE; 0x1B];
   [0xFC; 0x56; 0x3E; 0x4B; 0xC6; 0xD2; 0x79; 0x20; 0x9A; 0xDB; 0xC0; 0xFE; 0x78; 0xCD; 0x5A; 0xF4];
   [0x1F; 0xDD; 0xA8; 0x33; 0x88; 0x07; 0xC7; 0x31; 0xB1; 0x12; 0x10; 0x59; 0x27; 0x80; 0xEC; 0x5F];
   [0x60; 0x51; 0x7F; 0xA9; 0x19; 0xB5; 0x4A; 0x0D; 0x2D; 0xE5; 0x7A; 0x9F; 0x93; 0xC9; 0x9C; 0xEF];
   [0xA0; 0xE0; 0x3B; 0x4D; 0xAE; 0x2A; 0xF5; 0xB0; 0xC8; 0xEB; 0xBB; 0x3C; 0x83; 0x53; 0x99; 0x61];
   [0x17; 0x2B; 0x04; 0x7E; 0xBA; 0x77; 0xD6; 0x26; 0xE1; 0x69; 0x14; 0x63; 0x55; 0x21; 0x0C; 0x7D]].

Definition gf_mul : list (list Z) :=
  [[0x00; 0x00; 0x00; 0x00; 0x00; 0x00]; [0x02; 0x03; 0x09; 0x0b; 0x0d; 0x0e]; [0x04; 0x06; 0x12; 0x16; 0x1a; 0x1c]; [0x06; 0x05; 0x1b; 0x1d; 0x17; 0x12];
   [0x08; 0x0c; 0x24; 0x2c; 0x34; 0x38]; [0x0a; 0x0f; 0x2d; 0x27; 0x39; 0x36]; [0x0c; 0x0a; 0x36; 0x3a; 0x2e; 0x24]; [0x0e; 0x09; 0x3f; 0x31; 0x23; 0x2a];
   [0x10; 0x18; 0x48; 0x58; 0x68; 0x70]; [0x12; 0x1b; 0x41; 0x53; 0x65; 0x7e]; [0x14; 0x1e; 0x5a; 0x4e; 0x72; 0x6c]; [0x16; 0x1d; 0x53; 0x45; 0x7f; 0x62];
   [0x18; 0x14; 0x6c; 0x74; 0x5c; 0x48]; [0x1a; 0x17; 0x65; 0x7f; 0x51; 0x46]; [0x1c; 0x12; 0x7e; 0x62; 0x46; 0x54]; [0x1e; 0x11; 0x77; 0x69; 0x4b; 0x5a];
   [0x20; 0x30; 0x90; 0xb0; 0xd0; 0xe0]; [0x22; 0x33; 0x99; 0xbb; 0xdd; 0xee]; [0x24; 0x36; 0x82; 0xa6; 0xca; 0xfc]; [0x26; 0x35; 0x8b; 0xad; 0xc7; 0xf2];
   [0x28; 0x3c; 0xb4; 0x9c; 0xe4; 0xd8]; [0x2a; 0x3f; 0xbd; 0x97; 0xe9; 0xd6]; [0x2c; 0x3a; 0xa6; 0x8a; 0xfe; 0xc4]; [0x2e; 0x39; 0xaf; 0x81; 0xf3; 0xca];
   [0x30; 0x28; 0xd8; 0xe8; 0xb8; 0x90]; [0x32; 0x2b; 0xd1; 0xe3; 0xb5; 0x9e]; [0x34; 0x2e; 0xca; 0xfe; 0xa2; 0x8c]; [0x36; 0x2d; 0xc3; 0xf5; 0xaf; 0x82];
   [0x38; 0x24; 0xfc; 0xc4; 0x8c; 0xa8]; [0x3a; 0x27; 0xf5; 0xcf; 0x81; 0xa6]; [0x3c; 0x22; 0xee; 0xd2; 0x96; 0xb4]; [0x3e; 0x21; 0xe7; 0xd9; 0x9b; 0xba];
   [0x40; 0x60; 0x3b; 0x7b; 0xbb; 0xdb]; [0x42; 0x63; 0x32; 0x70; 0xb6; 0xd5]; [0x44; 0x66; 0x29; 0x6d; 0xa1; 0xc7]; [0x46; 0x65; 0x20; 0x66; 0xac; 0xc9];
   [0x48; 0x6c; 0x1f; 0x57; 0x8f; 0xe3]; [0x4a; 0x6f; 0x16; 0x5c; 0x82; 0xed]; [0x4c; 0x6a; 0x0d; 0x41; 0x95; 0xff]; [0x4e; 0x69; 0x04; 0x4a; 0x98; 0xf1];
   [0x50; 0x78; 0x73; 0x23; 0xd3; 0xab]; [0x52; 0x7b; 0x7a; 0x28; 0xde; 0xa5]; [0x54; 0x7e; 0x61; 0x35; 0xc9; 0xb7]; [0x56; 0x7d; 0x68; 0x3e; 0xc4; 0xb9];
   [0x58; 0x74; 0x57; 0x0f; 0xe7; 0x93]; [0x5a; 0x77; 0x5e; 0x04; 0xea; 0x9d]; [0x5c; 0x72; 0x45; 0x19; 0xfd; 0x8f]; [0x5e; 0x71; 0x4c; 0x12; 0xf0; 0x81];
   [0x60; 0x50; 0xab; 0xcb; 0x6b; 0x3b]; [0x62; 0x53; 0xa2; 0xc0; 0x66; 0x35]; [0x64; 0x56; 0xb9; 0xdd; 0x71; 0x27]; [0x66; 0x55; 0xb0; 0xd6; 0x7c; 0x29];
   [0x68; 0x5c; 0x8f; 0xe7; 0x5f; 0x03]; [0x6a; 0x5f; 0x86; 0xec; 0x52; 0x0d]; [0x6c; 0x5a; 0x9d; 0xf1; 0x45; 0x1f]; [0x6e; 0x59; 0x94; 0xfa; 0x48; 0x11];
   [0x70; 0x48; 0xe3; 0x93; 0x03; 0x4b]; [0x72; 0x4b; 0xea; 0x98; 0x0e; 0x45]; [0x74; 0x4e; 0xf1; 0x85; 0x19; 0x57]; [0x76; 0x4d; 0xf8; 0x8e; 0x14; 0x59];
   [0x78; 0x44; 0xc7; 0xbf; 0x37; 0x73]; [0x7a; 0x47; 0xce; 0xb4; 0x3a; 0x7d]; [0x7c; 0x42; 0xd5; 0xa9; 0x2d; 0x6f]; [0x7e; 0x41; 0xdc; 0xa2; 0x20; 0x61];
   [0x80; 0xc0; 0x76; 0xf6; 0x6d; 0xad]; [0x82; 0xc3; 0x7f; 0xfd; 0x60; 0xa3]; [0x84; 0xc6; 0x64; 0xe0; 0x77; 0xb1]; [0x86; 0xc5; 0x6d; 0xeb; 0x7a; 0xbf];
   [0x88; 0xcc; 0x52; 0xda; 0x59; 0x95]; [0x8a; 0xcf; 0x5b; 0xd1; 0x54; 0x9b]; [0x8c; 0xca; 0x40; 0xcc; 0x43; 0x89]; [0x8e; 0xc9; 0x49; 0xc7; 0x4e; 0x87];
   [0x90; 0xd8; 0x3e; 0xae; 0x05; 0xdd]; [0x92; 0xdb; 0x37; 0xa5; 0x08; 0xd3]; [0x94; 0xde; 0x2c; 0xb8; 0x1f; 0xc1]; [0x96; 0xdd; 0x25; 0xb3; 0x12; 0xcf];
   [0x98; 0xd4; 0x1a; 0x82; 0x31; 0xe5]; [0x9a; 0xd7; 0x13; 0x89; 0x3c; 0xeb]; [0x9c; 0xd2; 0x08; 0x94; 0x2b; 0xf9]; [0x9e; 0xd1; 0x01; 0x9f; 0x26; 0xf7];
   [0xa0; 0xf0; 0xe6; 0x46; 0xbd; 0x4d]; [0xa2; 0xf3; 0xef; 0x4d; 0xb0; 0x43]; [0xa4; 0xf6; 0xf4; 0x50; 0xa7; 0x51]; [0xa6; 0xf5; 0xfd; 0x5b; 0xaa; 0x5f];
   [0xa8; 0xfc; 0xc2; 0x6a; 0x89; 0x75]; [0xaa; 0xff; 0xcb; 0x61; 0x84; 0x7b]; [0xac; 0xfa; 0xd0; 0x7c; 0x93; 0x69]; [0xae; 0xf9; 0xd9; 0x77; 0x9e; 0x67];
   [0xb0; 0xe8; 0xae; 0x1e; 0xd5; 0x3d]; [0xb2; 0xeb; 0xa7; 0x15; 0xd8; 0x33]; [0xb4; 0xee; 0xbc; 0x08; 0xcf; 0x21]; [0xb6; 0xed; 0xb5; 0x03; 0xc2; 0x2f];
   [0xb8; 0xe4; 0x8a; 0x32; 0xe1; 0x05]; [0xba; 0xe7; 0x83; 0x39; 0xec; 0x0b]; [0xbc; 0xe2; 0x98; 0x24; 0xfb; 0x19]; [0xbe; 0xe1; 0x91; 0x2f; 0xf6; 0x17];
   [0xc0; 0xa0; 0x4d; 0x8d; 0xd6; 0x76]; [0xc2; 0xa3; 0x44; 0x86; 0xdb; 0x78]; [0xc4; 0xa6; 0x5f; 0x9b; 0xcc; 0x6a]; [0xc6; 0xa5; 0x56; 0x90; 0xc1; 0x64];
   [0xc8; 0xac; 0x69; 0xa1; 0xe2; 0x4e]; [0xca; 0xaf; 0x60; 0xaa; 0xef; 0x40]; [0xcc; 0xaa; 0x7b; 0xb7; 0xf8; 0x52]; [0xce; 0xa9; 0x72; 0xbc; 0xf5; 0x5c];
   [0xd0; 0xb8; 0x05; 0xd5; 0xbe; 0x06]; [0xd2; 0xbb; 0x0c; 0xde; 0xb3; 0x08]; [0xd4; 0xbe; 0x17; 0xc3; 0xa4; 0x1a]; [0xd6; 0xbd; 0x1e; 0xc8; 0xa9; 0x14];
   [0xd8; 0xb4; 0x21; 0xf9; 0x8a; 0x3e]; [0xda; 0xb7; 0x28; 0xf2; 0x87; 0x30]; [0xdc; 0xb2; 0x33; 0xef; 0x90; 0x22]; [0xde; 0xb1; 0x3a; 0xe4; 0x9d; 0x2c];
   [0xe0; 0x90; 0xdd; 0x3d; 0x06; 0x96]; [0xe2; 0x93; 0xd4; 0x36; 0x0b; 0x98]; [0xe4; 0x96; 0xcf; 0x2b; 0x1c; 0x8a]; [0xe6; 0x95; 0xc6; 0x20; 0x11; 0x84];
   [0xe8; 0x9c; 0xf9; 0x11; 0x32; 0xae]; [0xea; 0x9f; 0xf0; 0x1a; 0x3f; 0xa0]; [0xec; 0x9a; 0xeb; 0x07; 0x28; 0xb2]; [0xee; 0x99; 0xe2; 0x0c; 0x25; 0xbc];
   [0xf0; 0x88; 0x95; 0x65; 0x6e; 0xe6]; [0xf2; 0x8b; 0x9c; 0x6e; 0x63; 0xe8]; [0xf4; 0x8e; 0x87; 0x73; 0x74; 0xfa]; [0xf6; 0x8d; 0x8e; 0x78; 0x79; 0xf4];
   [0xf8; 0x84; 0xb1; 0x49; 0x5a; 0xde]; [0xfa; 0x87; 0xb8; 0x42; 0x57; 0xd0]; [0xfc; 0x82; 0xa3; 0x5f; 0x40; 0xc2]; [0xfe; 0x81; 0xaa; 0x54; 0x4d; 0xcc];
   [0x1b; 0x9b; 0xec; 0xf7; 0xda; 0x41]; [0x19; 0x98; 0xe5; 0xfc; 0xd7; 0x4f]; [0x1f; 0x9d; 0xfe; 0xe1; 0xc0; 0x5d]; [0x1d; 0x9e; 0xf7; 0xea; 0xcd; 0x53];
   [0x13; 0x97; 0xc8; 0xdb; 0xee; 0x79]; [0x11; 0x94; 0xc1; 0xd0; 0xe3; 0x77]; [0x17; 0x91; 0xda; 0xcd; 0xf4; 0x65]; [0x15; 0x92; 0xd3; 0xc6; 0xf9; 0x6b];
   [0x0b; 0x83; 0xa4; 0xaf; 0xb2; 0x31]; [0x09; 0x80; 0xad; 0xa4; 0xbf; 0x3f]; [0x0f; 0x85; 0xb6; 0xb9; 0xa8; 0x2d]; [0x0d; 0x86; 0xbf; 0xb2; 0xa5; 0x23];
   [0x03; 0x8f; 0x80; 0x83; 0x86; 0x09]; [0x01; 0x8c; 0x89; 0x88; 0x8b; 0x07]; [0x07; 0x89; 0x92; 0x95; 0x9c; 0x15]; [0x05; 0x8a; 0x9b; 0x9e; 0x91; 0x1b];
   [0x3b; 0xab; 0x7c; 0x47; 0x0a; 0xa1]; [0x39; 0xa8; 0x75; 0x4c; 0x07; 0xaf]; [0x3f; 0xad; 0x6e; 0x51; 0x10; 0xbd]; [0x3d; 0xae; 0x67; 0x5a; 0x1d; 0xb3];
   [0x33; 0xa7; 0x58; 0x6b; 0x3e; 0x99]; [0x31; 0xa4; 0x51; 0x60; 0x33; 0x97]; [0x37; 0xa1; 0x4a; 0x7d; 0x24; 0x85]; [0x35; 0xa2; 0x43; 0x76; 0x29; 0x8b];
   [0x2b; 0xb3; 0x34; 0x1f; 0x62; 0xd1]; [0x29; 0xb0; 0x3d; 0x14; 0x6f; 0xdf]; [0x2f; 0xb5; 0x26; 0x09; 0x78; 0xcd]; [0x2d; 0xb6; 0x2f; 0x02; 0x75; 0xc3];
   [0x23; 0xbf; 0x10; 0x33; 0x56; 0xe9]; [0x21; 0xbc; 0x19; 0x38; 0x5b; 0xe7]; [0x27; 0xb9; 0x02; 0x25; 0x4c; 0xf5]; [0x25; 0xba; 0x0b; 0x2e; 0x41; 0xfb];
   [0x5b; 0xfb; 0xd7; 0x8c; 0x61; 0x9a]; [0x59; 0xf8; 0xde; 0x87; 0x6c; 0x94]; [0x5f; 0xfd; 0xc5; 0x9a; 0x7b; 0x86]; [0x5d; 0xfe; 0xcc; 0x91; 0x76; 0x88];
   [0x53; 0xf7; 0xf3; 0xa0; 0x55; 0xa2]; [0x51; 0xf4; 0xfa; 0xab; 0x58; 0xac]; [0x57; 0xf1; 0xe1; 0xb6; 0x4f; 0xbe]; [0x55; 0xf2; 0xe8; 0xbd; 0x42; 0xb0];
   [0x4b; 0xe3; 0x9f; 0xd4; 0x09; 0xea]; [0x49; 0xe0; 0x96; 0xdf; 0x04; 0xe4]; [0x4f; 0xe5; 0x8d; 0xc2; 0x13; 0xf6]; [0x4d; 0xe6; 0x84; 0xc9; 0x1e; 0xf8];
   [0x43; 0xef; 0xbb; 0xf8; 0x3d; 0xd2]; [0x41; 0xec; 0xb2; 0xf3; 0x30; 0xdc]; [0x47; 0xe9; 0xa9; 0xee; 0x27; 0xce]; [0x45; 0xea; 0xa0; 0xe5; 0x2a; 0xc0];
   [0x7b; 0xcb; 0x47; 0x3c; 0xb1; 0x7a]; [0x79; 0xc8; 0x4e; 0x37; 0xbc; 0x74]; [0x7f; 0xcd; 0x55; 0x2a; 0xab; 0x66]; [0x7d; 0xce; 0x5c; 0x21; 0xa6; 0x68];
   [0x73; 0xc7; 0x63; 0x10; 0x85; 0x42]; [0x71; 0xc4; 0x6a; 0x1b; 0x88; 0x4c]; [0x77; 0xc1; 0x71; 0x06; 0x9f; 0x5e]; [0x75; 0xc2; 0x78; 0x0d; 0x92; 0x50];
   [0x6b; 0xd3; 0x0f; 0x64; 0xd9; 0x0a]; [0x69; 0xd0; 0x06; 0x6f; 0xd4; 0x04]; [0x6f; 0xd5; 0x1d; 0x72; 0xc3; 0x16]; [0x6d; 0xd6; 0x14; 0x79; 0xce; 0x18];
   [0x63; 0xdf; 0x2b; 0x48; 0xed; 0x32]; [0x61; 0xdc; 0x22; 0x43; 0xe0; 0x3c]; [0x67; 0xd9; 0x39; 0x5e; 0xf7; 0x2e]; [0x65; 0xda; 0x30; 0x55; 0xfa; 0x20];
   [0x9b; 0x5b; 0x9a; 0x01; 0xb7; 0xec]; [0x99; 0x58; 0x93; 0x0a; 0xba; 0xe2]; [0x9f; 0x5d; 0x88; 0x17; 0xad; 0xf0]; [0x9d; 0x5e; 0x81; 0x1c; 0xa0; 0xfe];
   [0x93; 0x57; 0xbe; 0x2d; 0x83; 0xd4]; [0x91; 0x54; 0xb7; 0x26; 0x8e; 0xda]; [0x97; 0x51; 0xac; 0x3b; 0x99; 0xc8]; [0x95; 0x52; 0xa5; 0x30; 0x94; 0xc6];
   [0x8b; 0x43; 0xd2; 0x59; 0xdf; 0x9c]; [0x89; 0x40; 0xdb; 0x52; 0xd2; 0x92]; [0x8f; 0x45; 0xc0; 0x4f; 0xc5; 0x80]; [0x8d; 0x46; 0xc9; 0x44; 0xc8; 0x8e];
   [0x83; 0x4f; 0xf6; 0x75; 0xeb; 0xa4]; [0x81; 0x4c; 0xff; 0x7e; 0xe6; 0xaa]; [0x87; 0x49; 0xe4; 0x63; 0xf1; 0xb8]; [0x85; 0x4a; 0xed; 0x68; 0xfc; 0xb6];
   [0xbb; 0x6b; 0x0a; 0xb1; 0x67; 0x0c]; [0xb9; 0x68; 0x03; 0xba; 0x6a; 0x02]; [0xbf; 0x6d; 0x18; 0xa7; 0x7d; 0x10]; [0xbd; 0x6e; 0x11; 0xac; 0x70; 0x1e];
   [0xb3; 0x67; 0x2e; 0x9d; 0x53; 0x34]; [0xb1; 0x64; 0x27; 0x96; 0x5e; 0x3a]; [0xb7; 0x61; 0x3c; 0x8b; 0x49; 0x28]; [0xb5; 0x62; 0x35; 0x80; 0x44; 0x26];
   [0xab; 0x73; 0x42; 0xe9; 0x0f; 0x7c]; [0xa9; 0x70; 0x4b; 0xe2; 0x02; 0x72]; [0xaf; 0x75; 0x50; 0xff; 0x15; 0x60]; [0xad; 0x76; 0x59; 0xf4; 0x18; 0x6e];
   [0xa3; 0x7f; 0x66; 0xc5; 0x3b; 0x44]; [0xa1; 0x7c; 0x6f; 0xce; 0x36; 0x4a]; [0xa7; 0x79; 0x74; 0xd3; 0x21; 0x58]; [0xa5; 0x7a; 0x7d; 0xd8; 0x2c; 0x56];
   [0xdb; 0x3b; 0xa1; 0x7a; 0x0c; 0x37]; [0xd9; 0x38; 0xa8; 0x71; 0x01; 0x39]; [0xdf; 0x3d; 0xb3; 0x6c; 0x16; 0x2b]; [0xdd; 0x3e; 0xba; 0x67; 0x1b; 0x25];
   [0xd3; 0x37; 0x85; 0x56; 0x38; 0x0f]; [0xd1; 0x34; 0x8c; 0x5d; 0x35; 0x01]; [0xd7; 0x31; 0x97; 0x40; 0x22; 0x13]; [0xd5; 0x32; 0x9e; 0x4b; 0x2f; 0x1d];
   [0xcb; 0x23; 0xe9; 0x22; 0x64; 0x47]; [0xc9; 0x20; 0xe0; 0x29; 0x69; 0x49]; [0xcf; 0x25; 0xfb; 0x34; 0x7e; 0x5b]; [0xcd; 0x26; 0xf2; 0x3f; 0x73; 0x55];
   [0xc3; 0x2f; 0xcd; 0x0e; 0x50; 0x7f]; [0xc1; 0x2c; 0xc4; 0x05; 0x5d; 0x71]; [0xc7; 0x29; 0xdf; 0x18; 0x4a; 0x63]; [0xc5; 0x2a; 0xd6; 0x13; 0x47; 0x6d];
   [0xfb; 0x0b; 0x31; 0xca; 0xdc; 0xd7]; [0xf9; 0x08; 0x38; 0xc1; 0xd1; 0xd9]; [0xff; 0x0d; 0x23; 0xdc; 0xc6; 0xcb]; [0xfd; 0x0e; 0x2a; 0xd7; 0xcb; 0xc5];
   [0xf3; 0x07; 0x15; 0xe6; 0xe8; 0xef]; [0xf1; 0x04; 0x1c; 0xed; 0xe5; 0xe1]; [0xf7; 0x01; 0x07; 0xf0; 0xf2; 0xf3]; [0xf5; 0x02; 0x0e; 0xfb; 0xff; 0xfd];
   [0xeb; 0x13; 0x79; 0x92; 0xb4; 0xa7]; [0xe9; 0x10; 0x70; 0x99; 0xb9; 0xa9]; [0xef; 0x15; 0x6b; 0x84; 0xae; 0xbb]; [0xed; 0x16; 0x62; 0x8f; 0xa3; 0xb5];
   [0xe3; 0x1f; 0x5d; 0xbe; 0x80; 0x9f]; [0xe1; 0x1c; 0x54; 0xb5; 0x8d; 0x91]; [0xe7; 0x19; 0x4f; 0xa8; 0x9a; 0x83]; [0xe5; 0x1a; 0x46; 0xa3; 0x97; 0x8d]].

(** [table[i][j]]. *)
Definition rd2 (table : list (list Z)) (i j : Z) : Z := rd (nth (Z.to_nat i) table []) j.

(** ** State *)

(** [uint8_t state[4][4]], [state[r][c]] being the field [s]rc. *)
Inductive matrix : Type :=
  Mat (s00 s10 s20 s30 s01 s11 s21 s31 s02 s12 s22 s32 s03 s13 s23 s33 : Z).

(** [subkey[0..3]] of one key word. *)
Definition subkey (w : Z) : Z * Z * Z * Z :=
  (u8 (w .>> 24), u8 (w .>> 16), u8 (w .>> 8), u8 w).

(** [AddRoundKey(state, &key[i])]. *)
Definition AddRoundKey (state : matrix) (w : list Z) (i : Z) : matrix :=
  let '(Mat s00 s10 s20 s30 s01 s11 s21 s31 s02 s12 s22 s32 s03 s13 s23 s33) := state in
  let '(k0, k1, k2, k3) := subkey (rd w (i + 0)) in
  let s00 := s00 .^ k0 in let s10 := s10 .^ k1 in let s20 := s20 .^ k2 in let s30 := s30 .^ k3 in
  let '(k0, k1, k2, k3) := subkey (rd w (i + 1)) in
  let s01 := s01 .^ k0 in let s11 := s11 .^ k1 in let s21 := s21 .^ k2 in let s31 := s31 .^ k3 in
  let '(k0, k1, k2, k3) := subkey (rd w (i + 2)) in
  let s02 := s02 .^ k0 in let s12 := s12 .^ k1 in let s22 := s22 .^ k2 in let s32 := s32 .^ k3 in
  let '(k0, k1, k2, k3) := subkey (rd w (i + 3)) in
  let s03 := s03 .^ k0 in let s13 := s13 .^ k1 in let s23 := s23 .^ k2 in let s33 := s33 .^ k3 in
  Mat s00 s10 s20 s30 s01 s11 s21 s31 s02 s12 s22 s32 s03 s13 s23 s33.

Definition SubBytes (state : matrix) : matrix :=
  let '(Mat s00 s10 s20 s30 s01 s11 s21 s31 s02 s12 s22 s32 s03 s13 s23 s33) := state in
  let s00 := rd2 aes_sbox (s00 .>> 4) (s00 .& 0x0F) in
  let s01 := rd2 aes_sbox (s01 .>> 4) (s01 .& 0x0F) in
  let s02 := rd2 aes_sbox (s02 .>> 4) (s02 .& 0x0F) in
  let s03 := rd2 aes_sbox (s03 .>> 4) (s03 .& 0x0F) in
  let s10 := rd2 aes_sbox (s10 .>> 4) (s10 .& 0x0F) in
  let s11 := rd2 aes_sbox (s11 .>> 4) (s11 .& 0x0F) in
  let s12 := rd2 aes_sbox (s12 .>> 4) (s12 .& 0x0F) in
  let s13 := rd2 aes_sbox (s13 .>> 4) (s13 .& 0x0F) in
  let s20 := rd2 aes_sbox (s20 .>> 4) (s20 .& 0x0F) in
  let s21 := rd2 aes_sbox (s21 .>> 4) (s21 .& 0x0F) in
  let s22 := rd2 aes_sbox (s22 .>> 4) (s22 .& 0x0F) in
  let s23 := rd2 aes_sbox (s23 .>> 4) (s23 .& 0x0F) in
  let s30 := rd2 aes_sbox (s30 .>> 4) (s30 .& 0x0F) in
  let s31 := rd2 aes_sbox (s31 .>> 4) (s31 .& 0x0F) in
  let s32 := rd2 aes_sbox (s32 .>> 4) (s32 .& 0x0F) in
  let s33 := rd2 aes_sbox (s33 .>> 4) (s33 .& 0x0F) in
  Mat s00 s10 s20 s30 s01 s11 s21 s31 s02 s12 s22 s32 s03 s13 s23 s33.

Definition InvSubBytes (state : matrix) : matrix :=
  let '(Mat s00 s10 s20 s30 s01 s11 s21 s31 s02 s12 s22 s32 s03 s13 s23 s33) := state in
  let s00 := rd2 aes_invsbox (s00 .>> 4) (s00 .& 0x0F) in
  let s01 := rd2 aes_invsbox (s01 .>> 4) (s01 .& 0x0F) in
  let s02 := rd2 aes_invsbox (s02 .>> 4) (s02 .& 0x0F) in
  let s03 := rd2 aes_invsbox (s03 .>> 4) (s03 .& 0x0F) in
  let s10 := rd2 aes_invsbox (s10 .>> 4) (s10 .& 0x0F) in
  let s11 := rd2 aes_invsbox (s11 .>> 4) (s11 .& 0x0F) in
  let s12 := rd2 aes_invsbox (s12 .>> 4) (s12 .& 0x0F) in
  let s13 := rd2 aes_invsbox (s13 .>> 4) (s13 .& 0x0F) in
  let s20 := rd2 aes_invsbox (s20 .>> 4) (s20 .& 0x0F) in
  let s21 := rd2 aes_invsbox (s21 .>> 4) (s21 .& 0x0F) in
  let s22 := rd2 aes_invsbox (s22 .>> 4) (s22 .& 0x0F) in
  let s23 := rd2 aes_invsbox (s23 .>> 4) (s23 .& 0x0F) in
  let s30 := rd2 aes_invsbox (s30 .>> 4) (s30 .& 0x0F) in
  let s31 := rd2 aes_invsbox (s31 .>> 4) (s31 .& 0x0F) in
  let s32 := rd2 aes_invsbox (s32 .>> 4) (s32 .& 0x0F) in
  let s33 := rd2 aes_invsbox (s33 .>> 4) (s33 .& 0x0F) in
  Mat s00 s10 s20 s30 s01 s11 s21 s31 s02 s12 s22 s32 s03 s13 s23 s33.

(** All rows are shifted cylindrically to the left. *)
Definition ShiftRows (state : matrix) : matrix :=
  let '(Mat s00 s10 s20 s30 s01 s11 s21 s31 s02 s12 s22 s32 s03 s13 s23 s33) := state in
  let t := s10 in
  let s10 := s11 in
  let s11 := s12 in
  let s12 := s13 in
  let s13 := t in
  let t := s20 in
  let s20 := s22 in
  let s22 := t in
  let t := s21 in
  let s21 := s23 in
  let s23 := t in
  let t := s30 in
  let s30 := s33 in
  let s33 := s32 in
  let s32 := s31 in
  let s31 := t in
  Mat s00 s10 s20 s30 s01 s11 s21 s31 s02 s12 s22 s32 s03 s13 s23 s33.

(** All rows are shifted cylindrically to the right. *)
Definition InvShiftRows (state : matrix) : matrix :=
  let '(Mat s00 s10 s20 s30 s01 s11 s21 s31 s02 s12 s22 s32 s03 s13 s23 s33) := state in
  let t := s13 in
  let s13 := s12 in
  let s12 := s11 in
  let s11 := s10 in
  let s10 := t in
  let t := s23 in
  let s23 := s21 in
  let s21 := t in
  let t := s22 in
  let s22 := s20 in
  let s20 := t in
  let t := s33 in
  let s33 := s30 in
  let s30 := s31 in
  let s31 := s32 in
  let s32 := t in
  Mat s00 s10 s20 s30 s01 s11 s21 s31 s02 s12 s22 s32 s03 s13 s23 s33.

(** One column of MixColumns; the code repeats these statements for each column. *)
Definition MixColumn (col0 col1 col2 col3 : Z) : Z * Z * Z * Z :=
  let s0 := rd2 gf_mul col0 0 in
  let s0 := s0 .^ rd2 gf_mul col1 1 in
  let s0 := s0 .^ col2 in
  let s0 := s0 .^ col3 in
  let s1 := col0 in
  let s1 := s1 .^ rd2 gf_mul col1 0 in
  let s1 := s1 .^ rd2 gf_mul col2 1 in
  let s1 := s1 .^ col3 in
  let s2 := col0 in
  let s2 := s2 .^ col1 in
  let s2 := s2 .^ rd2 gf_mul col2 0 in
  let s2 := s2 .^ rd2 gf_mul col3 1 in
  let s3 := rd2 gf_mul col0 1 in
  let s3 := s3 .^ col1 in
  let s3 := s3 .^ col2 in
  let s3 := s3 .^ rd2 gf_mul col3 0 in
  (s0, s1, s2, s3).

(** One column of InvMixColumns. *)
Definition InvMixColumn (col0 col1 col2 col3 : Z) : Z * Z * Z * Z :=
  let s0 := rd2 gf_mul col0 5 in
  let s0 := s0 .^ rd2 gf_mul col1 3 in
  let s0 := s0 .^ rd2 gf_mul col2 4 in
  let s0 := s0 .^ rd2 gf_mul col3 2 in
  let s1 := rd2 gf_mul col0 2 in
  let s1 := s1 .^ rd2 gf_mul col1 5 in
  let s1 := s1 .^ rd2 gf_mul col2 3 in
  let s1 := s1 .^ rd2 gf_mul col3 4 in
  let s2 := rd2 gf_mul col0 4 in
  let s2 := s2 .^ rd2 gf_mul col1 2 in
  let s2 := s2 .^ rd2 gf_mul col2 5 in
  let s2 := s2 .^ rd2 gf_mul col3 3 in
  let s3 := rd2 gf_mul col0 3 in
  let s3 := s3 .^ rd2 gf_mul col1 4 in
  let s3 := s3 .^ rd2 gf_mul col2 2 in
  let s3 := s3 .^ rd2 gf_mul col3 5 in
  (s0, s1, s2, s3).

Definition MixColumns (state : matrix) : matrix :=
  let '(Mat s00 s10 s20 s30 s01 s11 s21 s31 s02 s12 s22 s32 s03 s13 s23 s33) := state in
  let '(s00, s10, s20, s30) := MixColumn s00 s10 s20 s30 in
  let '(s01, s11, s21, s31) := MixColumn s01 s11 s21 s31 in
  let '(s02, s12, s22, s32) := MixColumn s02 s12 s22 s32 in
  let '(s03, s13, s23, s33) := MixColumn s03 s13 s23 s33 in
  Mat s00 s10 s20 s30 s01 s11 s21 s31 s02 s12 s22 s32 s03 s13 s23 s33.

Definition InvMixColumns (state : matrix) : matrix :=
  let '(Mat s00 s10 s20 s30 s01 s11 s21 s31 s02 s12 s22 s32 s03 s13 s23 s33) := state in
  let '(s00, s10, s20, s30) := InvMixColumn s00 s10 s20 s30 in
  let '(s01, s11, s21, s31) := InvMixColumn s01 s11 s21 s31 in
  let '(s02, s12, s22, s32) := InvMixColumn s02 s12 s22 s32 in
  let '(s03, s13, s23, s33) := InvMixColumn s03 s13 s23 s33 in
  Mat s00 s10 s20 s30 s01 s11 s21 s31 s02 s12 s22 s32 s03 s13 s23 s33.

(** ** Encryption and decryption of a block *)

(** The copies between the byte buffers and the state. *)
Definition load_state (p : list Z) : matrix :=
  Mat (rd p 0) (rd p 1) (rd p 2) (rd p 3) (rd p 4) (rd p 5) (rd p 6) (rd p 7) (rd p 8) (rd p 9) (rd p 10) (rd p 11) (rd p 12) (rd p 13) (rd p 14) (rd p 15).

Definition store_state (state : matrix) : list Z :=
  let '(Mat s00 s10 s20 s30 s01 s11 s21 s31 s02 s12 s22 s32 s03 s13 s23 s33) := state in
  [s00; s10; s20; s30; s01; s11; s21; s31; s02; s12; s22; s32; s03; s13; s23; s33].

(** [SubBytes(state); ShiftRows(state); MixColumns(state); AddRoundKey(state,&key[i]);] *)
Definition enc_round (key : list Z) (state : matrix) (i : Z) : matrix :=
  AddRoundKey (MixColumns (ShiftRows (SubBytes state))) key i.

(** [InvShiftRows(state);InvSubBytes(state);AddRoundKey(state,&key[i]);InvMixColumns(state);] *)
Definition dec_round (key : list Z) (state : matrix) (i : Z) : matrix :=
  InvMixColumns (AddRoundKey (InvSubBytes (InvShiftRows state)) key i).

Definition aes_encrypt (input : list Z) (key : list Z) (keysize : Z) : list Z :=
  let state := load_state input in
  let state := AddRoundKey state key 0 in
  let state := fold_left (enc_round key) [4; 8; 12; 16; 20; 24; 28; 32; 36] state in
  let state :=
    if negb (keysize =? 128) then
      let state := fold_left (enc_round key) [40; 44; 48; 52] state in
      AddRoundKey (ShiftRows (SubBytes state)) key 56
    else AddRoundKey (ShiftRows (SubBytes state)) key 40 in
  store_state state.

Definition aes_decrypt (input : list Z) (key : list Z) (keysize : Z) : list Z :=
  let state := load_state input in
  let state :=
    if negb (keysize =? 128) then
      let state := AddRoundKey state key 56 in
      fold_left (dec_round key) [52; 48; 44; 40] state
    else AddRoundKey state key 40 in
  let state := fold_left (dec_round key) [36; 32; 28; 24; 20; 16; 12; 8; 4] state in
  let state := AddRoundKey (InvSubBytes (InvShiftRows state)) key 0 in
  store_state state.

(** ** Key expansion *)

(** Substitutes a word using the AES S-Box. *)
Definition SubWord (word : Z) : Z :=
  let result := rd2 aes_sbox ((word .>> 4) .& 0x0F) (word .& 0x0F) in
  let result := u32 (result + (rd2 aes_sbox ((word .>> 12) .& 0x0F) ((word .>> 8) .& 0x0F) .<< 8)) in
  let result := u32 (result + (rd2 aes_sbox ((word .>> 20) .& 0x0F) ((word .>> 16) .& 0x0F) .<< 16)) in
  let result := u32 (result + (rd2 aes_sbox ((word .>> 28) .& 0x0F) ((word .>> 24) .& 0x0F) .<< 24)) in
  result.

Definition KE_ROTWORD (x : Z) : Z := u32 (x .<< 8) .| (x .>> 24).

Definition Rcon32 : list Z :=
  [0x01000000; 0x02000000; 0x04000000; 0x08000000; 0x10000000; 0x20000000;
   0x40000000; 0x80000000; 0x1b000000; 0x36000000; 0x6c000000; 0xd8000000;
   0xab000000; 0x4d000000; 0x9a000000].

(** Four key bytes as a word, most significant first. *)
Definition key_word (key : list Z) (idx : Z) : Z :=
  u32 ((rd key (4 * idx) .<< 24) .| (rd key (4 * idx + 1) .<< 16)
       .| (rd key (4 * idx + 2) .<< 8) .| rd key (4 * idx + 3)).

(** One iteration of the second loop of the key setup. *)
Definition key_setup_step (Nk : Z) (w : list Z) (idx : Z) : list Z :=
  let temp := rd w (idx - 1) in
  let temp :=
    if idx mod Nk =? 0 then SubWord (KE_ROTWORD temp) .^ rd Rcon32 ((idx - 1) / Nk)
    else if (6 <? Nk) && (idx mod Nk =? 4) then SubWord temp
    else temp in
  wr w idx (rd w (idx - Nk) .^ temp).

Definition aes_key_setup (key : list Z) (w : list Z) (keysize : Z) : list Z :=
  let Nb := 4 in
  let run Nr Nk :=
    let w := fold_left (fun w idx => wr w idx (key_word key idx)) (seqZ 0 Nk) w in
    fold_left (key_setup_step Nk) (seqZ Nk (Nb * (Nr + 1) - Nk)) w in
  if keysize =? 128 then run 10 4
  else if keysize =? 256 then run 14 8
  else w.

(** ** CBC mode *)

(** XORs the in and out buffers: two 64-bit words, hence sixteen bytes. *)
Definition xor_buf (input out : list Z) : list Z := zip_with Z.lxor out input.

Record aes_cbc_ctx := {
  ivec : list Z;
  cbc_roundkey : list Z;
  Nr : Z;
  keysize : Z;
  cbc_have_hw : Z;
}.

(** The x86 path (aes-x86.c), reached only when the processor supports AES. *)
Class AesCbcHw := {
  cbc_cpu_supports_aes : bool;
  cbc_AES_expand_key : list Z -> Z -> bool -> list Z;
  AES_CBC_encrypt_blocks : aes_cbc_ctx -> list Z -> Z -> aes_cbc_ctx * list Z;
  AES_CBC_decrypt_blocks : aes_cbc_ctx -> list Z -> Z -> aes_cbc_ctx * list Z;
}.

Definition set_ivec (ctx : aes_cbc_ctx) (iv : list Z) : aes_cbc_ctx :=
  {| ivec := iv; cbc_roundkey := cbc_roundkey ctx; Nr := Nr ctx;
     keysize := keysize ctx; cbc_have_hw := cbc_have_hw ctx |}.

(** The software loops: the final ivec and the bytes written, block by block.
    [in_place] says that [out] is the buffer [in], so that the copy into ivec
    at the end of a decryption step reads the block that was just written. *)
Fixpoint encrypt_loop (enc : list Z -> list Z) (blocks : nat) (iv input : list Z)
  : list Z * list Z :=
  match blocks with
  | O => (iv, [])
  | S blocks =>
      let buf_in := take 16 input in
      let buf_in := xor_buf iv buf_in in
      let out := enc buf_in in
      let iv := out in
      let '(iv, rest) := encrypt_loop enc blocks iv (drop 16 input) in
      (iv, out ++ rest)
  end.

Fixpoint decrypt_loop (in_place : bool) (dec : list Z -> list Z) (blocks : nat)
    (iv input : list Z) : list Z * list Z :=
  match blocks with
  | O => (iv, [])
  | S blocks =>
      let block := take 16 input in
      let out := dec block in
      let out := xor_buf iv out in
      let iv := if in_place then out else block in
      let '(iv, rest) := decrypt_loop in_place dec blocks iv (drop 16 input) in
      (iv, out ++ rest)
  end.

Section Api.
Context {hw : AesCbcHw}.

Definition AES_CBC_init_ctx (ctx : aes_cbc_ctx) (key iv : option (list Z))
    (keysize : Z) (encrypt : bool) : Z * aes_cbc_ctx :=
  match key, iv with
  | Some key, Some iv =>
      let zeroed nr :=
        {| ivec := replicate 16 0; cbc_roundkey := replicate 60 0; Nr := nr;
           keysize := keysize; cbc_have_hw := 0 |} in
      let setup ctx :=
        if cbc_cpu_supports_aes then
          (0, {| ivec := take 16 iv; cbc_roundkey := cbc_AES_expand_key key keysize encrypt;
                 Nr := Nr ctx; keysize := keysize;
                 cbc_have_hw := 2 .| (if encrypt then 1 else 0) |})
        else
          (0, {| ivec := take 16 iv;
                 cbc_roundkey := aes_key_setup key (cbc_roundkey ctx) keysize;
                 Nr := Nr ctx; keysize := keysize; cbc_have_hw := 0 |}) in
      if keysize =? 128 then setup (zeroed 10)
      else if keysize =? 256 then setup (zeroed 14)
      else (EINVAL, zeroed 0)
  | _, _ => (EINVAL, ctx)
  end.

(** The result code, the context and the bytes written to [out]. *)
Definition AES_CBC_encrypt (ctx : aes_cbc_ctx) (input : list Z)
  : Z * aes_cbc_ctx * list Z :=
  let in_len := zlen input in
  if negb (in_len .& 15 =? 0) then (EINVAL, ctx, [])
  else
    let blocks := s32 (in_len / 16) in
    if negb (cbc_have_hw ctx =? 0) then
      if cbc_have_hw ctx .& 1 =? 0 then (EACCES, ctx, [])
      else let '(ctx, out) := AES_CBC_encrypt_blocks ctx input blocks in (0, ctx, out)
    else
      let enc block := aes_encrypt block (cbc_roundkey ctx) (keysize ctx) in
      let '(iv, out) := encrypt_loop enc (Z.to_nat blocks) (ivec ctx) input in
      (0, set_ivec ctx iv, out).

Definition AES_CBC_decrypt (in_place : bool) (ctx : aes_cbc_ctx) (input : list Z)
  : Z * aes_cbc_ctx * list Z :=
  let blocks := s32 (zlen input / 16) in
  if negb (cbc_have_hw ctx =? 0) then
    if cbc_have_hw ctx .& 1 =? 1 then (EACCES, ctx, [])
    else let '(ctx, out) := AES_CBC_decrypt_blocks ctx input blocks in (0, ctx, out)
  else
    let dec block := aes_decrypt block (cbc_roundkey ctx) (keysize ctx) in
    let '(iv, out) := decrypt_loop in_place dec (Z.to_nat blocks) (ivec ctx) input in
    (0, set_ivec ctx iv, out).
End Api.

(** ** The tables *)

Lemma nibbles_sbox x : is_byte x -> rd2 aes_sbox (x .>> 4) (x .& 0x0F) = rd sbox x.
Proof.
  by apply (byte_forall (fun x => rd2 aes_sbox (x .>> 4) (x .& 0x0F) = rd sbox x)).
Qed.

Lemma nibbles_invsbox x : is_byte x -> rd2 aes_invsbox (x .>> 4) (x .& 0x0F) = rd rsbox x.
Proof.
  by apply (byte_forall (fun x => rd2 aes_invsbox (x .>> 4) (x .& 0x0F) = rd rsbox x)).
Qed.

#[local] Notation "'m2' x" := (galois_mul2 (galois_mul2 x)) (at level 9, x at level 9).
#[local] Notation "'m3' x" := (galois_mul2 (galois_mul2 (galois_mul2 x))) (at level 9, x at level 9).
#[local] Abbreviation m := galois_mul2.

(** Each row of [gf_mul] in terms of doubling. *)
Lemma gf_mul_row x :
  is_byte x ->
  nth (Z.to_nat x) gf_mul [] =
    [m x; m x .^ x; m3 x .^ x; m3 x .^ m x .^ x; m3 x .^ m2 x .^ x; m3 x .^ m2 x .^ m x].
Proof.
  by apply (byte_forall (fun x => nth (Z.to_nat x) gf_mul [] =
    [m x; m x .^ x; m3 x .^ x; m3 x .^ m x .^ x; m3 x .^ m2 x .^ x; m3 x .^ m2 x .^ m x])).
Qed.


Lemma gf_mul_entry x j :
  is_byte x -> rd2 gf_mul x j =
    rd [m x; m x .^ x; m3 x .^ x; m3 x .^ m x .^ x; m3 x .^ m2 x .^ x; m3 x .^ m2 x .^ m x] j.
Proof. intros Hx. unfold rd2. by rewrite gf_mul_row. Qed.

(** Normalise a column function over doubling. *)
Ltac gf_entries :=
  rewrite ?gf_mul_entry by done;
  cbv [rd Z.to_nat Pos.to_nat Pos.iter_op Nat.add nth].

(** The two column functions are MixColumns of aes128.c and its inverse. *)
Lemma MixColumn_mixcol c0 c1 c2 c3 :
  col_Forall is_byte (c0, c1, c2, c3) -> MixColumn c0 c1 c2 c3 = mixcol c0 c1 c2 c3.
Proof.
  intros Hc. rewrite mixcol_matrix by done. destruct Hc as (?&?&?&?).
  cbv [MixColumn]. gf_entries. repeat apply (f_equal2 pair); xor_ring.
Qed.

Lemma InvMixColumn_mixcol c0 c1 c2 c3 :
  col_Forall is_byte (c0, c1, c2, c3) ->
  InvMixColumn c0 c1 c2 c3 = mixcol' (barreto' (c0, c1, c2, c3)).
Proof.
  intros Hc. cbn [barreto']. rewrite barreto_matrix by done. destruct Hc as (?&?&?&?).
  cbn [mixcol']. rewrite mixcol_matrix by (cbn; repeat split_and; fits_auto).
  cbv [InvMixColumn]. gf_entries. galois_ring.
Qed.

(** ** The state as a block of aes128.c *)

Definition to_block (st : matrix) : block :=
  let '(Mat s00 s10 s20 s30 s01 s11 s21 s31 s02 s12 s22 s32 s03 s13 s23 s33) := st in
  Blk s00 s10 s20 s30 s01 s11 s21 s31 s02 s12 s22 s32 s03 s13 s23 s33.

Lemma to_block_inj st st' : to_block st = to_block st' -> st = st'.
Proof. destruct st, st'. cbn. by intros [=-> -> -> -> -> -> -> -> -> -> -> -> -> -> -> ->]. Qed.

Definition mat_Forall (P : Z -> Prop) (st : matrix) : Prop := block_Forall P (to_block st).

Ltac destruct_mat st H :=
  destruct st; unfold mat_Forall, block_Forall in H; cbn [to_block store] in H;
  rewrite ?Forall_cons in H; destruct_and?.

Ltac mat_bytes := unfold mat_Forall; cbn [to_block]; block_bytes.

Lemma to_block_MixColumns st :
  mat_Forall is_byte st -> to_block (MixColumns st) = mix_columns (to_block st).
Proof.
  intros Hst. destruct_mat st Hst. cbn [MixColumns].
  by rewrite !MixColumn_mixcol by done.
Qed.

Lemma to_block_InvMixColumns st :
  mat_Forall is_byte st ->
  to_block (InvMixColumns st) = mix_columns (barreto_columns (to_block st)).
Proof.
  intros Hst. destruct_mat st Hst. cbn [InvMixColumns].
  by rewrite !InvMixColumn_mixcol by done.
Qed.

Lemma MixColumns_bytes st : mat_Forall is_byte st -> mat_Forall is_byte (MixColumns st).
Proof.
  intros Hst. unfold mat_Forall. rewrite to_block_MixColumns by done.
  by apply mix_columns_bytes.
Qed.

Lemma InvMixColumns_bytes st : mat_Forall is_byte st -> mat_Forall is_byte (InvMixColumns st).
Proof.
  intros Hst. unfold mat_Forall. rewrite to_block_InvMixColumns by done.
  by apply mix_columns_bytes, barreto_columns_bytes.
Qed.

Lemma InvMixColumns_MixColumns st :
  mat_Forall is_byte st -> InvMixColumns (MixColumns st) = st.
Proof.
  intros Hst. apply to_block_inj.
  rewrite to_block_InvMixColumns, to_block_MixColumns by auto using MixColumns_bytes.
  rewrite <- (mix_barreto_mix (to_block st)) at 2 by done.
  done.
Qed.

(** ** The rounds *)

Lemma SubBytes_bytes st : mat_Forall is_byte st -> mat_Forall is_byte (SubBytes st).
Proof.
  intros Hst. destruct_mat st Hst. cbv [SubBytes].
  rewrite !nibbles_sbox by done. mat_bytes.
Qed.

Lemma InvSubBytes_SubBytes st :
  mat_Forall is_byte st -> InvSubBytes (SubBytes st) = st.
Proof.
  intros Hst. destruct_mat st Hst. cbv [SubBytes InvSubBytes].
  rewrite !nibbles_sbox by done. rewrite !nibbles_invsbox by auto with samlib.
  by rewrite !rsbox_sbox by done.
Qed.

Lemma InvShiftRows_ShiftRows st : InvShiftRows (ShiftRows st) = st.
Proof. by destruct st. Qed.

Lemma ShiftRows_bytes st : mat_Forall is_byte st -> mat_Forall is_byte (ShiftRows st).
Proof. intros Hst. destruct_mat st Hst. cbv [ShiftRows]. mat_bytes. Qed.

Lemma AddRoundKey_involutive st key i :
  AddRoundKey (AddRoundKey st key i) key i = st.
Proof. destruct st. cbv [AddRoundKey subkey]. by rewrite !lxor_cancel_r. Qed.

Lemma AddRoundKey_bytes st key i :
  mat_Forall is_byte st -> mat_Forall is_byte (AddRoundKey st key i).
Proof. intros Hst. destruct_mat st Hst. cbv [AddRoundKey subkey]. mat_bytes. Qed.

#[export] Hint Resolve SubBytes_bytes ShiftRows_bytes MixColumns_bytes AddRoundKey_bytes
  InvMixColumns_bytes : samlib.

Lemma enc_round_bytes key st i : mat_Forall is_byte st -> mat_Forall is_byte (enc_round key st i).
Proof. unfold enc_round. auto with samlib. Qed.

Lemma enc_rounds_bytes key ks st :
  mat_Forall is_byte st -> mat_Forall is_byte (fold_left (enc_round key) ks st).
Proof. intros. apply fold_left_inv; auto using enc_round_bytes. Qed.

(** One decryption round undoes one encryption round, seen through the
    ShiftRows and SubBytes of the next one. *)
Lemma dec_enc_round key st i :
  mat_Forall is_byte st ->
  dec_round key (ShiftRows (SubBytes (enc_round key st i))) i = ShiftRows (SubBytes st).
Proof.
  intros Hst. unfold dec_round.
  rewrite InvShiftRows_ShiftRows, InvSubBytes_SubBytes by auto using enc_round_bytes.
  unfold enc_round. rewrite AddRoundKey_involutive.
  apply InvMixColumns_MixColumns. auto with samlib.
Qed.

Lemma dec_enc_rounds key ks st :
  mat_Forall is_byte st ->
  fold_left (dec_round key) (rev ks) (ShiftRows (SubBytes (fold_left (enc_round key) ks st)))
    = ShiftRows (SubBytes st).
Proof.
  revert st. induction ks as [|i ks IH]; intros st Hst; cbn; [done|].
  rewrite fold_left_app, IH by auto using enc_round_bytes. by apply dec_enc_round.
Qed.

Lemma load_store_state st : load_state (store_state st) = st.
Proof. by destruct st. Qed.

Lemma load_state_bytes p : Forall is_byte p -> mat_Forall is_byte (load_state p).
Proof.
  intros Hp. unfold mat_Forall, block_Forall, load_state. cbn [to_block store].
  repeat (apply Forall_cons_2; [by apply rd_byte|]). apply Forall_nil_2.
Qed.

Lemma store_load_state p : length p = 16%nat -> store_state (load_state p) = p.
Proof. intros Hp. do 17 (destruct p as [|? p]; try done). Qed.

Lemma length_store_state st : length (store_state st) = 16%nat.
Proof. by destruct st. Qed.

Lemma length_aes_encrypt input key keysize :
  length (aes_encrypt input key keysize) = 16%nat.
Proof. unfold aes_encrypt. apply length_store_state. Qed.

(** The whole cipher, for both key sizes. *)
Lemma aes_decrypt_encrypt input key keysize :
  Forall is_byte input -> length input = 16%nat ->
  aes_decrypt (aes_encrypt input key keysize) key keysize = input.
Proof.
  intros Hin Hlen. unfold aes_decrypt, aes_encrypt. rewrite load_store_state.
  set (st := AddRoundKey (load_state input) key 0).
  assert (Hst : mat_Forall is_byte st) by (apply AddRoundKey_bytes; by apply load_state_bytes).
  transitivity (store_state (AddRoundKey st key 0));
    [|unfold st; by rewrite AddRoundKey_involutive, store_load_state].
  assert (Hlast : forall st', st' = ShiftRows (SubBytes st) ->
    store_state (AddRoundKey (InvSubBytes (InvShiftRows st')) key 0)
      = store_state (AddRoundKey st key 0)).
  { intros st' ->. by rewrite InvShiftRows_ShiftRows, InvSubBytes_SubBytes. }
  apply Hlast. destruct (negb (keysize =? 128)); rewrite AddRoundKey_involutive.
  - rewrite (dec_enc_rounds key [40; 44; 48; 52]) by by apply enc_rounds_bytes.
    by apply (dec_enc_rounds key [4; 8; 12; 16; 20; 24; 28; 32; 36]).
  - by apply (dec_enc_rounds key [4; 8; 12; 16; 20; 24; 28; 32; 36]).
Qed.

(** ** CBC chaining over an abstract block cipher *)

(** What the chaining needs from the block functions. *)
Class BlockCipher (enc dec : list Z -> list Z) : Prop := {
  bc_length p : length (enc p) = 16%nat;
  bc_inverse p : Forall is_byte p -> length p = 16%nat -> dec (enc p) = p;
}.

#[export] Instance aes_block_cipher key keysize :
  BlockCipher (fun p => aes_encrypt p key keysize) (fun c => aes_decrypt c key keysize).
Proof.
  split; intros.
  - apply length_aes_encrypt.
  - by apply aes_decrypt_encrypt.
Qed.

Lemma xor_buf_length a b : length (xor_buf a b) = Nat.min (length b) (length a).
Proof. apply length_zip_with. Qed.

Lemma xor_buf_bytes a b :
  Forall is_byte a -> Forall is_byte b -> Forall is_byte (xor_buf a b).
Proof.
  intros Ha Hb. unfold xor_buf. revert a Ha. induction Hb as [|x b Hx Hb IH];
    intros [|y a] Ha; cbn; try apply Forall_nil_2.
  apply Forall_cons in Ha as [Hy Ha]. apply Forall_cons_2; [by apply fits_lxor|auto].
Qed.

Lemma xor_buf_involutive a b : (length b <= length a)%nat -> xor_buf a (xor_buf a b) = b.
Proof.
  unfold xor_buf. revert a. induction b as [|x b IH]; intros [|y a] Hlen; cbn in *; try done; [lia|].
  rewrite lxor_cancel_r, IH by lia. done.
Qed.

Lemma aes_encrypt_bytes input key keysize :
  Forall is_byte input -> Forall is_byte (aes_encrypt input key keysize).
Proof.
  intros Hin. unfold aes_encrypt.
  assert (H : forall st, mat_Forall is_byte st -> Forall is_byte (store_state st))
    by (intros []; done).
  apply H. destruct (negb _); auto 10 using load_state_bytes, enc_rounds_bytes with samlib.
Qed.

Section Cbc.
Context (enc dec : list Z -> list Z) `{!BlockCipher enc dec}.
Context (Henc : forall p, Forall is_byte p -> Forall is_byte (enc p)).

Lemma encrypt_loop_length blocks iv input :
  length (snd (encrypt_loop enc blocks iv input)) = (16 * blocks)%nat.
Proof using BlockCipher0.
  revert iv input. induction blocks as [|n IH]; intros iv input; [done|].
  cbn [encrypt_loop]. specialize (IH (enc (xor_buf iv (take 16 input))) (drop 16 input)).
  destruct (encrypt_loop _ _ _ _) as [iv' rest]. cbn [snd] in *.
  rewrite length_app, bc_length, IH. lia.
Qed.

Lemma decrypt_encrypt_loop blocks iv input :
  Forall is_byte input -> Forall is_byte iv -> length iv = 16%nat ->
  length input = (16 * blocks)%nat ->
  let '(iv', out) := encrypt_loop enc blocks iv input in
  decrypt_loop false dec blocks iv out = (iv', input).
Proof using BlockCipher0 Henc.
  revert iv input. induction blocks as [|n IH]; intros iv input Hin Hiv Hivl Hlen.
  { by destruct input. }
  cbn [encrypt_loop decrypt_loop].
  set (p := xor_buf iv (take 16 input)).
  assert (Hpl : length p = 16%nat)
    by (unfold p; rewrite xor_buf_length, length_take; lia).
  assert (Hp : Forall is_byte p) by (apply xor_buf_bytes; auto using Forall_take).
  specialize (IH (enc p) (drop 16 input)).
  destruct (encrypt_loop enc n (enc p) (drop 16 input)) as [iv' rest].
  rewrite (take_app_length' (enc p)), (drop_app_length' (enc p)) by by rewrite bc_length.
  rewrite IH; [|auto using Forall_drop..|by rewrite bc_length|rewrite length_drop; lia].
  rewrite (bc_inverse (enc := enc) (dec := dec) p) by done. unfold p.
  rewrite xor_buf_involutive by (rewrite length_take; lia). by rewrite take_drop.
Qed.
End Cbc.

(** ** Multiplication in GF(2^8), the reference *)

(** [gf_times k x]: the product of [x] by the 4-bit constant [k], the sum of the
    doublings of [x] selected by the bits of [k]. *)
Definition gf_times (k x : Z) : Z :=
  (if Z.testbit k 0 then x else 0)
  .^ (if Z.testbit k 1 then galois_mul2 x else 0)
  .^ (if Z.testbit k 2 then galois_mul2 (galois_mul2 x) else 0)
  .^ (if Z.testbit k 3 then galois_mul2 (galois_mul2 (galois_mul2 x)) else 0).

(** The vectors of NIST SP 800-38A, F.2.1 and F.2.5. *)
Definition sp800_key128 : list Z := [0x2b; 0x7e; 0x15; 0x16; 0x28; 0xae; 0xd2; 0xa6; 0xab; 0xf7; 0x15; 0x88; 0x09; 0xcf; 0x4f; 0x3c].
Definition sp800_key256 : list Z := [0x60; 0x3d; 0xeb; 0x10; 0x15; 0xca; 0x71; 0xbe; 0x2b; 0x73; 0xae; 0xf0; 0x85; 0x7d; 0x77; 0x81; 0x1f; 0x35; 0x2c; 0x07; 0x3b; 0x61; 0x08; 0xd7; 0x2d; 0x98; 0x10; 0xa3; 0x09; 0x14; 0xdf; 0xf4].
Definition sp800_plain : list Z := [0x6b; 0xc1; 0xbe; 0xe2; 0x2e; 0x40; 0x9f; 0x96; 0xe9; 0x3d; 0x7e; 0x11; 0x73; 0x93; 0x17; 0x2a; 0xae; 0x2d; 0x8a; 0x57; 0x1e; 0x03; 0xac; 0x9c; 0x9e; 0xb7; 0x6f; 0xac; 0x45; 0xaf; 0x8e; 0x51].
Definition sp800_cipher128 : list Z := [0x76; 0x49; 0xab; 0xac; 0x81; 0x19; 0xb2; 0x46; 0xce; 0xe9; 0x8e; 0x9b; 0x12; 0xe9; 0x19; 0x7d; 0x50; 0x86; 0xcb; 0x9b; 0x50; 0x72; 0x19; 0xee; 0x95; 0xdb; 0x11; 0x3a; 0x91; 0x76; 0x78; 0xb2].
Definition sp800_cipher256 : list Z := [0xf5; 0x8c; 0x4c; 0x04; 0xd6; 0xe5; 0xf1; 0xba; 0x77; 0x9e; 0xab; 0xfb; 0x5f; 0x7b; 0xfb; 0xd6; 0x9c; 0xfc; 0x4e; 0x96; 0x7e; 0xdb; 0x80; 0x8d; 0x67; 0x9f; 0x77; 0x7b; 0xc6; 0x70; 0x2c; 0x7d].
Definition sp800_iv : list Z := seqZ 0 16.

Definition no_cbc_hw : AesCbcHw :=
  {| cbc_cpu_supports_aes := false;
     cbc_AES_expand_key k _ _ := k;
     AES_CBC_encrypt_blocks ctx i _ := (ctx, i);
     AES_CBC_decrypt_blocks ctx i _ := (ctx, i) |}.

Definition ctx0 : aes_cbc_ctx := Build_aes_cbc_ctx [] [] 0 0 0.

(** Every entry of the table gf_mul is the product in GF(2^8) of its row
    number by the column's constant, 2, 3, 9, 11, 13 and 14. *)
Theorem gf_mul_correct (x j : Z) :
  is_byte x -> 0 <= j < 6 ->
  rd2 gf_mul x j = gf_times (rd [2; 3; 9; 11; 13; 14] j) x.
Proof.
  intros Hx Hj. rewrite gf_mul_entry by done.
  assert (E : j = 0 \/ j = 1 \/ j = 2 \/ j = 3 \/ j = 4 \/ j = 5) by lia.
  destruct E as [->|[->|[->|[->|[->| ->]]]]]; cbv -[galois_mul2 Z.lxor]; xor_ring.
Qed.

Lemma gf_mul_correct_witness :
  is_byte 0x57 /\ rd2 gf_mul 0x57 2 = gf_times 9 0x57 /\ rd2 gf_mul 0x57 0 = 0xae.
Proof.
  split; [unfold fits; lia|].
  split; [apply (gf_mul_correct 0x57 2); unfold fits; lia|reflexivity].
Defined.

(** aes_decrypt inverts aes_encrypt on every 16-byte block, for every key
    schedule and both key sizes (128, and the 256-bit branch). *)
Theorem aes_block_roundtrip (input key : list Z) (keysize : Z) :
  Forall is_byte input -> length input = 16%nat ->
  aes_decrypt (aes_encrypt input key keysize) key keysize = input.
Proof. apply aes_decrypt_encrypt. Qed.

Lemma aes_block_roundtrip_witness :
  let p := take 16 sp800_plain in
  let w := aes_key_setup sp800_key256 (replicate 60 0) 256 in
  aes_decrypt (aes_encrypt p w 256) w 256 = p.
Proof.
  intros p w. apply (aes_block_roundtrip p w 256).
  - apply bytes_check. by vm_compute.
  - reflexivity.
Defined.

(** C14: CBC round trip of the software path: a context initialised for
    encryption with a 128 or 256-bit key encrypts any input whose length is a
    multiple of 16, and a context initialised for decryption with the same key
    and IV, given distinct buffers, returns the input and ends with the same
    chaining value. *)
Theorem cbc_roundtrip `{hw : AesCbcHw} (ctx1 ctx2 : aes_cbc_ctx) (key iv input : list Z)
    (ks : Z) :
  cbc_cpu_supports_aes = false -> (ks = 128 \/ ks = 256) ->
  Forall is_byte iv -> length iv = 16%nat -> Forall is_byte input ->
  zlen input mod 16 = 0 -> zlen input < 2 ^ 31 ->
  let '(rc1, e) := AES_CBC_init_ctx ctx1 (Some key) (Some iv) ks true in
  let '(rc2, d) := AES_CBC_init_ctx ctx2 (Some key) (Some iv) ks false in
  let '(rc3, e', out) := AES_CBC_encrypt e input in
  let '(rc4, d', back) := AES_CBC_decrypt false d out in
  rc1 = 0 /\ rc2 = 0 /\ rc3 = 0 /\ rc4 = 0 /\
  back = input /\ zlen out = zlen input /\ ivec d' = ivec e'.
Proof.
  intros Hhw Hks Hiv Hivl Hin Hmod Hlen.
  assert (Hblk : zlen input = 16 * (zlen input / 16)) by (apply Z.div_exact; lia).
  assert (H0 : 0 <= zlen input) by (unfold zlen; lia).
  assert (Hinit : forall ctx enc, AES_CBC_init_ctx ctx (Some key) (Some iv) ks enc =
    (0, {| ivec := iv; cbc_roundkey := aes_key_setup key (replicate 60 0) ks;
           Nr := if ks =? 128 then 10 else 14; keysize := ks; cbc_have_hw := 0 |})).
  { intros ctx enc. unfold AES_CBC_init_ctx. rewrite Hhw, take_ge by lia.
    by destruct Hks as [-> | ->]. }
  rewrite !Hinit. set (w := aes_key_setup _ _ _).
  set (blocks := Z.to_nat (zlen input / 16)).
  assert (Hnat : length input = (16 * blocks)%nat) by (unfold blocks, zlen in *; lia).
  assert (Hs : forall l : list Z, zlen l = zlen input -> Z.to_nat (s32 (zlen l / 16)) = blocks).
  { intros l ->. unfold blocks, s32. rewrite Z.mod_small by lia. f_equal. lia. }
  set (enc := fun p => aes_encrypt p w ks).
  pose proof (encrypt_loop_length enc (fun c => aes_decrypt c w ks) blocks iv input) as Hel.
  pose proof (decrypt_encrypt_loop enc (fun c => aes_decrypt c w ks)
    (fun p => aes_encrypt_bytes p w ks) blocks iv input Hin Hiv Hivl Hnat) as Hd.
  unfold AES_CBC_encrypt. cbn [cbc_have_hw cbc_roundkey keysize ivec].
  replace (zlen input .& 15) with 0
    by (change 15 with (Z.ones 4); rewrite Z.land_ones by lia; by symmetry).
  cbn [Z.eqb negb].
  rewrite Hs by done. fold enc.
  destruct (encrypt_loop enc blocks iv input) as [iv' out]. cbn [snd] in Hel.
  assert (Hout : zlen out = zlen input) by (unfold zlen; lia).
  unfold AES_CBC_decrypt. cbn [cbc_have_hw cbc_roundkey keysize ivec Z.eqb negb].
  rewrite Hs by done. rewrite Hd. by repeat split_and.
Qed.

Lemma cbc_roundtrip_witness :
  let e := snd (@AES_CBC_init_ctx no_cbc_hw ctx0 (Some sp800_key256) (Some sp800_iv) 256 true) in
  let d := snd (@AES_CBC_init_ctx no_cbc_hw ctx0 (Some sp800_key256) (Some sp800_iv) 256 false) in
  snd (@AES_CBC_encrypt no_cbc_hw e sp800_plain) = sp800_cipher256 /\
  snd (@AES_CBC_decrypt no_cbc_hw false d sp800_cipher256) = sp800_plain.
Proof.
  intros e d.
  assert (E : @AES_CBC_encrypt no_cbc_hw e sp800_plain
    = (0, set_ivec e (drop 16 sp800_cipher256), sp800_cipher256)) by by vm_compute.
  assert (Ee : @AES_CBC_init_ctx no_cbc_hw ctx0 (Some sp800_key256) (Some sp800_iv) 256 true
    = (0, e)) by by vm_compute.
  assert (Ed : @AES_CBC_init_ctx no_cbc_hw ctx0 (Some sp800_key256) (Some sp800_iv) 256 false
    = (0, d)) by by vm_compute.
  clearbody e d.
  split; [by rewrite E|].
  pose proof (@cbc_roundtrip no_cbc_hw ctx0 ctx0 sp800_key256 sp800_iv sp800_plain 256) as H.
  specialize (H ltac:(reflexivity) ltac:(by right) ltac:(apply bytes_check; by vm_compute)
    ltac:(reflexivity) ltac:(apply bytes_check; by vm_compute) ltac:(reflexivity)
    ltac:(reflexivity)).
  rewrite Ee, Ed in H. rewrite E in H.
  destruct (@AES_CBC_decrypt no_cbc_hw false d sp800_cipher256) as [[rc4 d'] back].
  exact (proj1 (proj2 (proj2 (proj2 (proj2 H))))).
Defined.

(** The error results of the CBC functions: EINVAL for a NULL key or IV (the
    context is untouched) and for a key size other than 128 and 256, EINVAL for
    an encryption whose length is not a multiple of 16, and EACCES when a
    hardware context made for one direction is used for the other; on every
    error nothing is written to the output and the chaining value stays. *)
Theorem cbc_errors `{hw : AesCbcHw} (ctx : aes_cbc_ctx) (key iv : option (list Z))
    (ks : Z) (encrypt in_place : bool) (input : list Z) :
  ((key = None \/ iv = None) ->
     AES_CBC_init_ctx ctx key iv ks encrypt = (EINVAL, ctx)) /\
  (ks <> 128 -> ks <> 256 -> fst (AES_CBC_init_ctx ctx key iv ks encrypt) = EINVAL) /\
  (zlen input mod 16 <> 0 -> AES_CBC_encrypt ctx input = (EINVAL, ctx, [])) /\
  (zlen input mod 16 = 0 -> cbc_have_hw ctx = 2 ->
     AES_CBC_encrypt ctx input = (EACCES, ctx, [])) /\
  (cbc_have_hw ctx = 3 -> AES_CBC_decrypt in_place ctx input = (EACCES, ctx, [])).
Proof.
  assert (E : zlen input .& 15 = zlen input mod 16)
    by (change 15 with (Z.ones 4); by rewrite Z.land_ones by lia).
  repeat split_and.
  - intros [-> | ->]; [done|by destruct key].
  - intros H1 H2. destruct key, iv; try done. cbn.
    by rewrite (proj2 (Z.eqb_neq _ _) H1), (proj2 (Z.eqb_neq _ _) H2).
  - intros H. unfold AES_CBC_encrypt. by rewrite E, (proj2 (Z.eqb_neq _ _) H).
  - intros H Hw. unfold AES_CBC_encrypt. by rewrite E, H, Hw.
  - intros Hw. unfold AES_CBC_decrypt. by rewrite Hw.
Qed.

Lemma cbc_errors_witness :
  @AES_CBC_init_ctx no_cbc_hw ctx0 (Some sp800_key128) None 128 true = (EINVAL, ctx0) /\
  @AES_CBC_encrypt no_cbc_hw ctx0 [1; 2; 3] = (EINVAL, ctx0, []).
Proof.
  split.
  - apply (@cbc_errors no_cbc_hw ctx0 (Some sp800_key128) None 128 true false []). by right.
  - by apply (@cbc_errors no_cbc_hw ctx0 None None 128 true false [1; 2; 3]).
Defined.

(** Software decryption in place: the second block is combined with the first
    plain block instead of the first cipher block, so two blocks come back wrong. *)
Theorem cbc_decrypt_in_place_wrong :
  let d := snd (@AES_CBC_init_ctx no_cbc_hw ctx0 (Some sp800_key128) (Some sp800_iv) 128 false) in
  snd (@AES_CBC_decrypt no_cbc_hw false d sp800_cipher128) = sp800_plain /\
  bool_decide (snd (@AES_CBC_decrypt no_cbc_hw true d sp800_cipher128) = sp800_plain) = false.
Proof. split; by vm_compute. Qed.

End AesCbc.
