(* ===== verification/Hash.v ===== *)
(** The streaming construction shared by sha256.c and md5.c: a message is
    absorbed byte by byte into 64-byte blocks, each full block is compressed
    into the chaining value, and the last block is padded with 0x80, zeros and
    the 8-byte length.  The class [StreamHash] is what an init/update/final
    triple promises; every client of a digest is verified against it. *)

From S2P Require Import Prelude.

(** ** Absorbing a message *)

Section Absorb.
Context {H : Type} (compress : H -> list Z -> H).

Definition absorb1 (s : H * list Z) (b : Z) : H * list Z :=
  let buf := s.2 ++ [b] in
  if (length buf =? 64)%nat then (compress s.1 buf, []) else (s.1, buf).

Definition absorb (s : H * list Z) (msg : list Z) : H * list Z :=
  fold_left absorb1 msg s.

Lemma absorb_app s m1 m2 : absorb s (m1 ++ m2) = absorb (absorb s m1) m2.
Proof using Type. apply List.fold_left_app. Qed.

Lemma absorb_cons s b m : absorb s (b :: m) = absorb (absorb1 s b) m.
Proof using Type. done. Qed.

Lemma absorb1_short h buf b :
  (length buf < 63)%nat -> absorb1 (h, buf) b = (h, buf ++ [b]).
Proof using Type.
  intros Hlen. unfold absorb1. cbn [fst snd]. rewrite length_app. cbn [length].
  by rewrite (proj2 (Nat.eqb_neq _ _)) by lia.
Qed.

Lemma absorb1_full h buf b :
  length buf = 63%nat -> absorb1 (h, buf) b = (compress h (buf ++ [b]), []).
Proof using Type.
  intros Hlen. unfold absorb1. cbn [fst snd]. rewrite length_app. cbn [length].
  by rewrite (proj2 (Nat.eqb_eq _ _)) by lia.
Qed.

Lemma absorb_short h buf l :
  (length buf + length l < 64)%nat -> absorb (h, buf) l = (h, buf ++ l).
Proof using Type.
  revert buf. induction l as [|b l IH]; intros buf Hlen; cbn [length] in *.
  - by rewrite app_nil_r.
  - rewrite absorb_cons, absorb1_short by lia.
    rewrite IH by (rewrite length_app; cbn; lia). by rewrite <- app_assoc.
Qed.

Lemma absorb_block h buf l :
  (length buf < 64)%nat -> (length buf + length l = 64)%nat ->
  absorb (h, buf) l = (compress h (buf ++ l), []).
Proof using Type.
  intros Hbuf Hlen. destruct (exists_last (l := l)) as (l' & b & ->).
  { intros ->. cbn in Hlen. lia. }
  rewrite length_app in Hlen. cbn [length] in Hlen.
  rewrite absorb_app, absorb_short by lia. rewrite absorb_cons.
  rewrite absorb1_full by (rewrite length_app; lia). by rewrite <- app_assoc.
Qed.

Lemma absorb_blocks h bs :
  Forall (fun b => length b = 64%nat) bs ->
  absorb (h, []) (concat bs) = (fold_left compress bs h, []).
Proof using Type.
  intros Hbs. revert h. induction Hbs as [|b bs Hb _ IH]; intros h; [done|].
  cbn [concat fold_left]. rewrite absorb_app, (absorb_block h []) by (cbn; lia). apply IH.
Qed.

Lemma absorb_rest s m :
  (length s.2 < 64)%nat ->
  (length (absorb s m).2 < 64)%nat /\
  Z.of_nat (length (absorb s m).2) = (Z.of_nat (length s.2) + zlen m) mod 64.
Proof using Type.
  unfold zlen. revert s. induction m as [|b m IH]; intros [h buf] Hs; cbn [snd] in Hs.
  - split; [done|]. cbn [absorb fold_left snd length]. rewrite Z.mod_small; lia.
  - rewrite absorb_cons. cbn [length snd].
    destruct (decide (length buf = 63%nat)) as [He|Hne].
    + rewrite absorb1_full by done. destruct (IH (compress h (buf ++ [b]), [])) as [IH1 IH2];
        [cbn; lia|]. split; [done|]. rewrite IH2. cbn [snd length]. rewrite He.
      replace (Z.of_nat 63 + Z.of_nat (S (length m)))
        with (Z.of_nat 0 + Z.of_nat (length m) + 1 * 64) by lia.
      by rewrite Z.mod_add by lia.
    + rewrite absorb1_short by lia.
      destruct (IH (h, buf ++ [b])) as [IH1 IH2]; [cbn; rewrite length_app; cbn; lia|].
      split; [done|]. rewrite IH2. cbn [snd]. rewrite length_app. cbn [length].
      f_equal. lia.
Qed.

(** The padded message: 0x80, the fewest zeros that leave eight bytes in the
    last block, and the encoded length. *)
Definition pad (len_enc : list Z) (msg : list Z) : list Z :=
  msg ++ 0x80 :: replicate (Z.to_nat ((55 - zlen msg) mod 64)) 0 ++ len_enc.

(** The two ways the last block is completed. *)
Definition finish (h : H) (rest len_enc : list Z) : H :=
  if (56 <=? length rest)%nat then
    compress (compress h (rest ++ 0x80 :: replicate (63 - length rest) 0))
      (replicate 56 0 ++ len_enc)
  else compress h (rest ++ 0x80 :: replicate (55 - length rest) 0 ++ len_enc).

Lemma absorb_pad h msg len_enc :
  length len_enc = 8%nat ->
  absorb (h, []) (pad len_enc msg) =
    (let '(h', rest) := absorb (h, []) msg in finish h' rest len_enc, []).
Proof using Type.
  intros He. unfold pad. rewrite absorb_app.
  destruct (absorb_rest (h, []) msg) as [Hlt Hmod]; [cbn; lia|].
  destruct (absorb (h, []) msg) as [h' rest]. cbn [snd length] in *.
  change (Z.of_nat 0) with 0 in Hmod. rewrite Z.add_0_l in Hmod.
  replace ((55 - zlen msg) mod 64) with ((55 - Z.of_nat (length rest)) mod 64)
    by (rewrite Hmod; apply Zminus_mod_idemp_r).
  unfold finish. destruct (Nat.leb_spec 56 (length rest)) as [Hge|Hlt'].
  - replace ((55 - Z.of_nat (length rest)) mod 64) with (119 - Z.of_nat (length rest))
      by (rewrite <- (Z.mod_add _ 1) by lia; rewrite Z.mod_small; lia).
    replace (Z.to_nat (119 - Z.of_nat (length rest)))
      with ((63 - length rest) + 56)%nat by lia.
    rewrite replicate_add, <- app_assoc, app_comm_cons, absorb_app.
    rewrite absorb_block by (cbn [length]; rewrite ?length_replicate; lia).
    rewrite (absorb_block _ []); [done|cbn; lia|].
    rewrite length_app, length_replicate, He. done.
  - rewrite Z.mod_small by lia.
    replace (Z.to_nat (55 - Z.of_nat (length rest))) with (55 - length rest)%nat by lia.
    rewrite absorb_block; [done|done|].
    cbn [length]. rewrite length_app, length_replicate, He. lia.
Qed.

Lemma pad_blocks msg len_enc :
  length len_enc = 8%nat -> zlen (pad len_enc msg) mod 64 = 0.
Proof using Type.
  intros He. unfold pad, zlen. rewrite length_app. cbn [length].
  rewrite length_app, length_replicate, He.
  pose proof (Z.mod_pos_bound (55 - Z.of_nat (length msg)) 64 ltac:(lia)) as Hb.
  pose proof (Z.div_mod (55 - Z.of_nat (length msg)) 64 ltac:(lia)) as Hd.
  apply Z.mod_divide; [lia|]. exists (1 - (55 - Z.of_nat (length msg)) / 64). lia.
Qed.
End Absorb.

(** A message of whole blocks is the concatenation of its blocks. *)
Lemma split_blocks (l : list Z) :
  zlen l mod 64 = 0 -> exists bs, Forall (fun b => length b = 64%nat) bs /\ concat bs = l.
Proof.
  unfold zlen. intros Hl. apply Z.mod_divide in Hl as [k Hk]; [|lia].
  assert (Hk' : length l = (Z.to_nat k * 64)%nat) by lia. clear Hk.
  revert l Hk'. induction (Z.to_nat k) as [|n IH]; intros l Hl.
  - exists []. by destruct l.
  - destruct (IH (drop 64 l)) as (bs & Hbs & E); [rewrite length_drop; lia|].
    exists (take 64 l :: bs). split.
    + apply Forall_cons_2; [rewrite length_take; lia|done].
    + cbn. by rewrite E, take_drop.
Qed.

(** ** Streaming digests *)

(** [repr c m]: the context [c] has been fed exactly [m].  A chunk holds less
    than [chunk_max] bytes (the width of the length argument) and the digest is
    right for messages under [msg_max] bytes (the width of the length counter). *)
Class StreamHash {Ctx} (init : Ctx) (update : Ctx -> list Z -> Ctx)
    (final : Ctx -> list Z) (digest : list Z -> list Z) := {
  repr : Ctx -> list Z -> Prop;
  chunk_max : Z;
  msg_max : Z;
  repr_init : repr init [];
  repr_update c m chunk : repr c m -> Forall is_byte chunk -> zlen chunk < chunk_max ->
    repr (update c chunk) (m ++ chunk);
  repr_final c m : repr c m -> zlen m < msg_max -> final c = digest m;
}.

Section Stream.
Context `{HS : StreamHash Ctx init update final digest}.

Lemma stream_repr chunks s m :
  repr s m ->
  Forall (Forall is_byte) chunks -> Forall (fun c => zlen c < chunk_max) chunks ->
  repr (fold_left update chunks s) (m ++ concat chunks).
Proof using Type.
  intros Hs Hb. revert s m Hs. induction Hb as [|c cs Hc _ IH]; intros s m Hs Hl.
  - cbn. by rewrite app_nil_r.
  - apply Forall_cons in Hl as [Hl1 Hl2]. cbn [concat fold_left].
    rewrite app_assoc. apply IH; [|done]. by apply repr_update.
Qed.

(** However a message is cut into chunks, the digest is that of the message. *)
Lemma stream_chunks chunks :
  Forall (Forall is_byte) chunks -> Forall (fun c => zlen c < chunk_max) chunks ->
  zlen (concat chunks) < msg_max ->
  final (fold_left update chunks init) = digest (concat chunks).
Proof using Type.
  intros Hb Hl Hm. apply repr_final; [|done].
  apply (stream_repr chunks init []); auto using repr_init.
Qed.
End Stream.

(** ** Printing a digest *)

(** The characters written for the bytes of a digest, NUL included. *)
Definition hex_str (digest : list Z) : list Z :=
  flat_map (fun d => [rd tohex ((d .>> 4) .& 0xf); rd tohex (d .& 0xf)]) digest ++ [0].

(** The value of a hexadecimal digit. *)
Definition unhex (c : Z) : Z := if c <=? 57 then c - 48 else c - 87.

(** Reading a digest back from its digits, up to the NUL. *)
Fixpoint unhex_str (str : list Z) : list Z :=
  match str with
  | hi :: lo :: str => 16 * unhex hi + unhex lo :: unhex_str str
  | _ => []
  end.

Lemma hex_str_length digest : zlen (hex_str digest) = 2 * zlen digest + 1.
Proof.
  unfold hex_str, zlen. rewrite length_app.
  induction digest as [|d digest IH]; [done|]. cbn [flat_map length app] in *. lia.
Qed.

Lemma unhex_byte d :
  is_byte d -> 16 * unhex (rd tohex ((d .>> 4) .& 0xf)) + unhex (rd tohex (d .& 0xf)) = d.
Proof.
  by apply (byte_forall (fun d =>
    16 * unhex (rd tohex ((d .>> 4) .& 0xf)) + unhex (rd tohex (d .& 0xf)) = d)).
Qed.

Lemma unhex_hex_str digest : Forall is_byte digest -> unhex_str (hex_str digest) = digest.
Proof.
  induction 1 as [|d digest Hd _ IH]; [done|].
  unfold hex_str in *. cbn [flat_map app unhex_str]. by rewrite IH, unhex_byte.
Qed.
