(* ===== verification/Sha256.v ===== *)
(** SHA-256 (sha256.c): the block function with its macros, the buffered
    update, the padding and the wrappers.  The streaming interface of Hash.v is
    discharged for FIPS 180-2 padding; the rewritten Ch and Maj macros, the
    message schedule and the unrolled form of the rounds are each shown equal to
    their definition in the standard. *)

From S2P Require Import Prelude.
From S2P Require Import Hash.

Module Sha256.

Definition SHA256_Message_Block_Size : Z := 64.
Definition PAD_BYTE : Z := 0x80.

(** ** Macros *)

(** FIPS-180-2 section 4.1 *)
Definition SHA_Ch_fips (x y z : Z) : Z := (x .& y) .^ (u32 (Z.lnot x) .& z).
Definition SHA_Maj_fips (x y z : Z) : Z := (x .& y) .^ (x .& z) .^ (y .& z).

(** The modified macros that are compiled. *)
Definition SHA_Ch (x y z : Z) : Z := (x .& (y .^ z)) .^ z.
Definition SHA_Maj (x y z : Z) : Z := (x .& (y .| z)) .| (y .& z).

Definition SHA256_SHR (bits word : Z) : Z := word .>> bits.
Definition SHA256_ROTR (bits word : Z) : Z := (word .>> bits) .| u32 (word .<< (32 - bits)).

Definition SHA256_SIGMA0 (word : Z) : Z :=
  SHA256_ROTR 2 word .^ SHA256_ROTR 13 word .^ SHA256_ROTR 22 word.
Definition SHA256_SIGMA1 (word : Z) : Z :=
  SHA256_ROTR 6 word .^ SHA256_ROTR 11 word .^ SHA256_ROTR 25 word.
Definition SHA256_sigma0 (word : Z) : Z :=
  SHA256_ROTR 7 word .^ SHA256_ROTR 18 word .^ SHA256_SHR 3 word.
Definition SHA256_sigma1 (word : Z) : Z :=
  SHA256_ROTR 17 word .^ SHA256_ROTR 19 word .^ SHA256_SHR 10 word.

Definition K : list Z := concat [
  [0x428a2f98; 0x71374491; 0xb5c0fbcf; 0xe9b5dba5; 0x3956c25b];
  [0x59f111f1; 0x923f82a4; 0xab1c5ed5; 0xd807aa98; 0x12835b01];
  [0x243185be; 0x550c7dc3; 0x72be5d74; 0x80deb1fe; 0x9bdc06a7];
  [0xc19bf174; 0xe49b69c1; 0xefbe4786; 0x0fc19dc6; 0x240ca1cc];
  [0x2de92c6f; 0x4a7484aa; 0x5cb0a9dc; 0x76f988da; 0x983e5152];
  [0xa831c66d; 0xb00327c8; 0xbf597fc7; 0xc6e00bf3; 0xd5a79147];
  [0x06ca6351; 0x14292967; 0x27b70a85; 0x2e1b2138; 0x4d2c6dfc];
  [0x53380d13; 0x650a7354; 0x766a0abb; 0x81c2c92e; 0x92722c85];
  [0xa2bfe8a1; 0xa81a664b; 0xc24b8b70; 0xc76c51a3; 0xd192e819];
  [0xd6990624; 0xf40e3585; 0x106aa070; 0x19a4c116; 0x1e376c08];
  [0x2748774c; 0x34b0bcb5; 0x391c0cb3; 0x4ed8aa4a; 0x5b9cca4f];
  [0x682e6ff3; 0x748f82ee; 0x78a5636f; 0x84c87814; 0x8cc70208];
  [0x90befffa; 0xa4506ceb; 0xbef9a3f7; 0xc67178f2]].

(** Initial Hash Values: FIPS-180-2 section 5.3.2 *)
Definition SHA256_H0 : list Z :=
  [0x6A09E667; 0xBB67AE85; 0x3C6EF372; 0xA54FF53A;
   0x510E527F; 0x9B05688C; 0x1F83D9AB; 0x5BE0CD19].

(** ** Context *)

Record sha256ctx := {
  block : list Z;
  h : list Z;
  len : Z;
  index : Z;
}.

Definition zero_ctx : sha256ctx :=
  {| block := replicate 64 0; h := replicate 8 0; len := 0; index := 0 |}.

Definition sha256_init : sha256ctx :=
  {| block := replicate 64 0; h := SHA256_H0; len := 0; index := 0 |}.

(** ** The block function *)

Definition CB_INIT (block : list Z) (t4 : Z) : Z :=
  (rd block t4 .<< 24) .| (rd block (t4 + 1) .<< 16) .| (rd block (t4 + 2) .<< 8)
  .| rd block (t4 + 3).

(** The sixteen words of the block. *)
Definition W_init (block : list Z) : list Z :=
  [CB_INIT block 0; CB_INIT block 4; CB_INIT block 8; CB_INIT block 12;
   CB_INIT block 16; CB_INIT block 20; CB_INIT block 24; CB_INIT block 28;
   CB_INIT block 32; CB_INIT block 36; CB_INIT block 40; CB_INIT block 44;
   CB_INIT block 48; CB_INIT block 52; CB_INIT block 56; CB_INIT block 60].

Definition W_step (W : list Z) (t : Z) : list Z :=
  wr W t (u32 (SHA256_sigma1 (rd W (t - 2)) + rd W (t - 7)
               + SHA256_sigma0 (rd W (t - 15)) + rd W (t - 16))).

Definition W_schedule (block : list Z) : list Z :=
  fold_left W_step (seqZ 16 48) (W_init block ++ replicate 48 0).

(** The word buffers A to H. *)
Inductive regs : Type := Regs (A B C D E F G H : Z).

Definition round (W : list Z) (r : regs) (t : Z) : regs :=
  let '(Regs A B C D E F G H) := r in
  let temp1 := u32 (H + SHA256_SIGMA1 E + SHA_Ch E F G + rd K t + rd W t) in
  let temp2 := u32 (SHA256_SIGMA0 A + SHA_Maj A B C) in
  let H := G in
  let G := F in
  let F := E in
  let E := u32 (D + temp1) in
  let D := C in
  let C := B in
  let B := A in
  let A := u32 (temp1 + temp2) in
  Regs A B C D E F G H.

(** The chaining value after one block, by the loop over the rounds. *)
Definition load_regs (h : list Z) : regs :=
  Regs (rd h 0) (rd h 1) (rd h 2) (rd h 3) (rd h 4) (rd h 5) (rd h 6) (rd h 7).

Definition add_regs (h : list Z) (r : regs) : list Z :=
  let '(Regs A B C D E F G H) := r in
  [u32 (rd h 0 + A); u32 (rd h 1 + B); u32 (rd h 2 + C); u32 (rd h 3 + D);
   u32 (rd h 4 + E); u32 (rd h 5 + F); u32 (rd h 6 + G); u32 (rd h 7 + H)].

Definition compress (h block : list Z) : list Z :=
  add_regs h (fold_left (round (W_schedule block)) (seqZ 0 64) (load_regs h)).

Definition SHA256ProcessMessageBlock (context : sha256ctx) : sha256ctx :=
  {| block := block context; h := compress (h context) (block context);
     len := len context; index := 0 |}.

(** The alternative body of the block function, with the loop unrolled: the
    registers stay where they are and the macro's arguments rotate.  The
    registers A to H are the cells 0 to 7 of a list. *)
Section Unrolled.
Context (W : list Z).

Definition UNROLL (a b c d e f g h Wi Ki : Z) (r : list Z) : list Z :=
  let temp1 := u32 (rd r h + SHA256_SIGMA1 (rd r e) + SHA_Ch (rd r e) (rd r f) (rd r g)
                    + Ki + rd W Wi) in
  let temp2 := u32 (SHA256_SIGMA0 (rd r a) + SHA_Maj (rd r a) (rd r b) (rd r c)) in
  let r := wr r d (u32 (rd r d + temp1)) in
  wr r h (u32 (temp1 + temp2)).

#[local] Abbreviation rA := 0.
#[local] Abbreviation rB := 1.
#[local] Abbreviation rC := 2.
#[local] Abbreviation rD := 3.
#[local] Abbreviation rE := 4.
#[local] Abbreviation rF := 5.
#[local] Abbreviation rG := 6.
#[local] Abbreviation rH := 7.

Definition unrolled_rounds : list Z -> list Z := exec [
  UNROLL rA rB rC rD rE rF rG rH 0 0x428a2f98;
  UNROLL rH rA rB rC rD rE rF rG 1 0x71374491;
  UNROLL rG rH rA rB rC rD rE rF 2 0xb5c0fbcf;
  UNROLL rF rG rH rA rB rC rD rE 3 0xe9b5dba5;
  UNROLL rE rF rG rH rA rB rC rD 4 0x3956c25b;
  UNROLL rD rE rF rG rH rA rB rC 5 0x59f111f1;
  UNROLL rC rD rE rF rG rH rA rB 6 0x923f82a4;
  UNROLL rB rC rD rE rF rG rH rA 7 0xab1c5ed5;
  UNROLL rA rB rC rD rE rF rG rH 8 0xd807aa98;
  UNROLL rH rA rB rC rD rE rF rG 9 0x12835b01;
  UNROLL rG rH rA rB rC rD rE rF 10 0x243185be;
  UNROLL rF rG rH rA rB rC rD rE 11 0x550c7dc3;
  UNROLL rE rF rG rH rA rB rC rD 12 0x72be5d74;
  UNROLL rD rE rF rG rH rA rB rC 13 0x80deb1fe;
  UNROLL rC rD rE rF rG rH rA rB 14 0x9bdc06a7;
  UNROLL rB rC rD rE rF rG rH rA 15 0xc19bf174;
  UNROLL rA rB rC rD rE rF rG rH 16 0xe49b69c1;
  UNROLL rH rA rB rC rD rE rF rG 17 0xefbe4786;
  UNROLL rG rH rA rB rC rD rE rF 18 0x0fc19dc6;
  UNROLL rF rG rH rA rB rC rD rE 19 0x240ca1cc;
  UNROLL rE rF rG rH rA rB rC rD 20 0x2de92c6f;
  UNROLL rD rE rF rG rH rA rB rC 21 0x4a7484aa;
  UNROLL rC rD rE rF rG rH rA rB 22 0x5cb0a9dc;
  UNROLL rB rC rD rE rF rG rH rA 23 0x76f988da;
  UNROLL rA rB rC rD rE rF rG rH 24 0x983e5152;
  UNROLL rH rA rB rC rD rE rF rG 25 0xa831c66d;
  UNROLL rG rH rA rB rC rD rE rF 26 0xb00327c8;
  UNROLL rF rG rH rA rB rC rD rE 27 0xbf597fc7;
  UNROLL rE rF rG rH rA rB rC rD 28 0xc6e00bf3;
  UNROLL rD rE rF rG rH rA rB rC 29 0xd5a79147;
  UNROLL rC rD rE rF rG rH rA rB 30 0x06ca6351;
  UNROLL rB rC rD rE rF rG rH rA 31 0x14292967;
  UNROLL rA rB rC rD rE rF rG rH 32 0x27b70a85;
  UNROLL rH rA rB rC rD rE rF rG 33 0x2e1b2138;
  UNROLL rG rH rA rB rC rD rE rF 34 0x4d2c6dfc;
  UNROLL rF rG rH rA rB rC rD rE 35 0x53380d13;
  UNROLL rE rF rG rH rA rB rC rD 36 0x650a7354;
  UNROLL rD rE rF rG rH rA rB rC 37 0x766a0abb;
  UNROLL rC rD rE rF rG rH rA rB 38 0x81c2c92e;
  UNROLL rB rC rD rE rF rG rH rA 39 0x92722c85;
  UNROLL rA rB rC rD rE rF rG rH 40 0xa2bfe8a1;
  UNROLL rH rA rB rC rD rE rF rG 41 0xa81a664b;
  UNROLL rG rH rA rB rC rD rE rF 42 0xc24b8b70;
  UNROLL rF rG rH rA rB rC rD rE 43 0xc76c51a3;
  UNROLL rE rF rG rH rA rB rC rD 44 0xd192e819;
  UNROLL rD rE rF rG rH rA rB rC 45 0xd6990624;
  UNROLL rC rD rE rF rG rH rA rB 46 0xf40e3585;
  UNROLL rB rC rD rE rF rG rH rA 47 0x106aa070;
  UNROLL rA rB rC rD rE rF rG rH 48 0x19a4c116;
  UNROLL rH rA rB rC rD rE rF rG 49 0x1e376c08;
  UNROLL rG rH rA rB rC rD rE rF 50 0x2748774c;
  UNROLL rF rG rH rA rB rC rD rE 51 0x34b0bcb5;
  UNROLL rE rF rG rH rA rB rC rD 52 0x391c0cb3;
  UNROLL rD rE rF rG rH rA rB rC 53 0x4ed8aa4a;
  UNROLL rC rD rE rF rG rH rA rB 54 0x5b9cca4f;
  UNROLL rB rC rD rE rF rG rH rA 55 0x682e6ff3;
  UNROLL rA rB rC rD rE rF rG rH 56 0x748f82ee;
  UNROLL rH rA rB rC rD rE rF rG 57 0x78a5636f;
  UNROLL rG rH rA rB rC rD rE rF 58 0x84c87814;
  UNROLL rF rG rH rA rB rC rD rE 59 0x8cc70208;
  UNROLL rE rF rG rH rA rB rC rD 60 0x90befffa;
  UNROLL rD rE rF rG rH rA rB rC 61 0xa4506ceb;
  UNROLL rC rD rE rF rG rH rA rB 62 0xbef9a3f7;
  UNROLL rB rC rD rE rF rG rH rA 63 0xc67178f2].
End Unrolled.

Definition compress_unrolled (h block : list Z) : list Z :=
  add_regs h (load_regs (unrolled_rounds (W_schedule block) (take 8 h))).

(** ** Update, padding and result *)

(** [context->block[context->index++] = b] *)
Definition put (context : sha256ctx) (b : Z) : sha256ctx :=
  {| block := wr (block context) (index context) b; h := h context;
     len := len context; index := index context + 1 |}.

(** The block-wise loop of the update: the context and the bytes left. *)
Fixpoint update_blocks (fuel : nat) (context : sha256ctx) (message_array : list Z)
  : sha256ctx * list Z :=
  match fuel with
  | O => (context, message_array)
  | S fuel =>
      if SHA256_Message_Block_Size <=? zlen message_array then
        let context :=
          SHA256ProcessMessageBlock
            {| block := take 64 message_array; h := h context;
               len := len context; index := index context |} in
        update_blocks fuel context (drop 64 message_array)
      else (context, message_array)
  end.

(** The byte-wise loop of the update. *)
Definition update_byte (context : sha256ctx) (b : Z) : sha256ctx :=
  let context := put context (b .& 0xFF) in
  if index context =? SHA256_Message_Block_Size then SHA256ProcessMessageBlock context
  else context.

Definition sha256_update (context : sha256ctx) (message_array : list Z) : sha256ctx :=
  let length := zlen message_array in
  if length =? 0 then context
  else
    let context :=
      {| block := block context; h := h context;
         len := u64 (len context + length); index := index context |} in
    let '(context, message_array) :=
      if index context =? 0 then
        update_blocks (Z.to_nat (length / 64)) context message_array
      else (context, message_array) in
    fold_left update_byte message_array context.

(** [while (index < limit) block[index++] = 0] *)
Definition zero_fill (limit : Z) (context : sha256ctx) : sha256ctx :=
  fold_left put (replicate (Z.to_nat (limit - index context)) 0) context.

(** The message length as the last 8 octets of the block. *)
Definition store_length (len : Z) (block : list Z) : list Z :=
  let block := wr block 56 (u8 (len .>> 56)) in
  let block := wr block 57 (u8 (len .>> 48)) in
  let block := wr block 58 (u8 (len .>> 40)) in
  let block := wr block 59 (u8 (len .>> 32)) in
  let block := wr block 60 (u8 (len .>> 24)) in
  let block := wr block 61 (u8 (len .>> 16)) in
  let block := wr block 62 (u8 (len .>> 8)) in
  let block := wr block 63 (u8 len) in
  block.

(** The pad byte; a block with no room for the length is completed first. *)
Definition pad_byte (context : sha256ctx) : sha256ctx :=
  if SHA256_Message_Block_Size - 8 <=? index context then
    let context := put context PAD_BYTE in
    let context := zero_fill SHA256_Message_Block_Size context in
    SHA256ProcessMessageBlock context
  else put context PAD_BYTE.

Definition SHA256PadMessage (context : sha256ctx) : sha256ctx :=
  let context := pad_byte context in
  let context := zero_fill (SHA256_Message_Block_Size - 8) context in
  let len := u64 (len context * 8) in
  SHA256ProcessMessageBlock
    {| block := store_length len (block context); h := h context;
       len := len; index := index context |}.

(** The digest and the cleared context. *)
Definition sha256_final (ctx : sha256ctx) : list Z * sha256ctx :=
  let ctx := SHA256PadMessage ctx in
  (map (fun i => u8 (rd (h ctx) (i .>> 2) .>> (8 * (3 - (i .& 0x03))))) (seqZ 0 32), zero_ctx).

Definition sha256str (digest : list Z) : list Z := hex_str digest.

Definition sha256 (data : list Z) : list Z :=
  let ctx := sha256_init in
  let ctx := sha256_update ctx data in
  fst (sha256_final ctx).


(** ** Macros *)

Lemma SHA_Ch_correct x y z :
  is_u32 x -> is_u32 y -> is_u32 z -> SHA_Ch x y z = SHA_Ch_fips x y z.
Proof.
  intros Hx Hy Hz. apply fits_bits in Hz as [_ Hz]; [|lia].
  apply Z.bits_inj'. intros i Hi. unfold SHA_Ch, SHA_Ch_fips.
  rewrite !Z.lxor_spec, !Z.land_spec, !Z.lxor_spec, u32_spec, Z.lnot_spec by lia.
  destruct (Z.ltb_spec i 32); [btauto|]. rewrite Hz by lia. btauto.
Qed.

Lemma SHA_Maj_correct x y z : SHA_Maj x y z = SHA_Maj_fips x y z.
Proof.
  apply Z.bits_inj'. intros i Hi. unfold SHA_Maj, SHA_Maj_fips.
  rewrite !Z.lxor_spec, !Z.lor_spec, !Z.land_spec, !Z.lor_spec. btauto.
Qed.

Lemma SHA256_ROTR_spec bits word i :
  0 < bits < 32 -> is_u32 word -> 0 <= i < 32 ->
  Z.testbit (SHA256_ROTR bits word) i = Z.testbit word ((i + bits) mod 32).
Proof.
  intros Hb Hw Hi. apply fits_bits in Hw as [_ Hw]; [|lia]. unfold SHA256_ROTR.
  rewrite Z.lor_spec, Z.shiftr_spec, u32_spec, Z.shiftl_spec by lia.
  rewrite (proj2 (Z.ltb_lt i 32)) by lia. cbn [andb].
  destruct (Z.lt_ge_cases (i + bits) 32).
  - rewrite Z.mod_small by lia. rewrite (Z.testbit_neg_r word (i - (32 - bits))) by lia.
    apply orb_false_r.
  - rewrite Hw by lia. replace ((i + bits) mod 32) with (i - (32 - bits)); [done|].
    rewrite <- (Z.mod_add _ (-1)) by lia. rewrite Z.mod_small; lia.
Qed.

(** ** The message schedule *)

Lemma length_W_step W t : length (W_step W t) = length W.
Proof. apply length_wr. Qed.

Lemma length_W_fold ts W : length (fold_left W_step ts W) = length W.
Proof.
  revert W. induction ts as [|t ts IH]; intros W; cbn; [done|]. by rewrite IH, length_W_step.
Qed.

Lemma W_prefix W n t :
  0 <= n -> 0 <= t < 16 -> rd (fold_left W_step (seqZ 16 n) W) t = rd W t.
Proof.
  intros Hn Ht. revert n Hn. apply natlike_ind; [done|].
  intros n Hn IH. change (Z.succ n) with (n + 1).
  rewrite seqZ_snoc, List.fold_left_app by done. cbn [fold_left].
  transitivity (rd (fold_left W_step (seqZ 16 n) W) t); [|done].
  apply rd_wr_ne; lia.
Qed.

Lemma W_recurrence W n t :
  zlen W = 64 -> 0 <= n <= 48 -> 16 <= t < 16 + n ->
  let W' := fold_left W_step (seqZ 16 n) W in
  rd W' t = u32 (SHA256_sigma1 (rd W' (t - 2)) + rd W' (t - 7)
                 + SHA256_sigma0 (rd W' (t - 15)) + rd W' (t - 16)).
Proof.
  intros Hlen [Hn Hn48] Ht. revert n Hn Hn48 Ht.
  apply (natlike_ind (fun n => n <= 48 -> 16 <= t < 16 + n -> _)); [lia|].
  intros n Hn IH Hn48 Ht. change (Z.succ n) with (n + 1).
  rewrite seqZ_snoc, List.fold_left_app by done. cbn [fold_left].
  set (W' := fold_left W_step (seqZ 16 n) W) in *.
  assert (Hlen' : zlen W' = 64) by (unfold zlen, W' in *; by rewrite length_W_fold).
  assert (Hne : forall i, 0 <= i -> i <> 16 + n -> rd (W_step W' (16 + n)) i = rd W' i)
    by (intros; unfold W_step; apply rd_wr_ne; lia).
  cbn zeta. rewrite !(Hne (t - _)) by lia.
  destruct (decide (t = 16 + n)) as [->|Hne'].
  - unfold W_step. apply rd_wr_eq. lia.
  - rewrite Hne by lia. apply IH; lia.
Qed.

(** ** The unrolled rounds *)

(** The registers after [k] rotations of the macro's arguments. *)
Definition view (k : Z) (r : list Z) : regs :=
  Regs (rd r ((8 - k) mod 8)) (rd r ((9 - k) mod 8)) (rd r ((10 - k) mod 8))
    (rd r ((11 - k) mod 8)) (rd r ((12 - k) mod 8)) (rd r ((13 - k) mod 8))
    (rd r ((14 - k) mod 8)) (rd r ((15 - k) mod 8)).

(** The macro with its arguments rotated [k] times is one round of the loop. *)
Lemma UNROLL_round W k t Kt r :
  length r = 8%nat -> 0 <= k < 8 -> rd K t = Kt ->
  let arg j := (j - k) mod 8 in
  view ((k + 1) mod 8)
    (UNROLL W (arg 8) (arg 9) (arg 10) (arg 11) (arg 12) (arg 13) (arg 14) (arg 15) t Kt r)
  = round W (view k r) t.
Proof.
  intros Hlen Hk HK. do 9 (destruct r as [|? r]; try done). subst Kt.
  assert (E : k = 0 \/ k = 1 \/ k = 2 \/ k = 3 \/ k = 4 \/ k = 5 \/ k = 6 \/ k = 7) by lia.
  destruct E as [->|[->|[->|[->|[->|[->|[-> | ->]]]]]]]; reflexivity.
Qed.

Lemma UNROLL_length W a b c d e f g h' Wi Ki r :
  length (UNROLL W a b c d e f g h' Wi Ki r) = length r.
Proof. unfold UNROLL. by rewrite !length_wr. Qed.

(** A run of unrolled statements against the rounds they stand for. *)
Lemma unrolled_step W k t Kt ts stmts r :
  length r = 8%nat -> 0 <= k < 8 -> rd K t = Kt ->
  let arg j := (j - k) mod 8 in
  let f := UNROLL W (arg 8) (arg 9) (arg 10) (arg 11) (arg 12) (arg 13) (arg 14) (arg 15) t Kt in
  (forall r, length r = 8%nat ->
     view 0 (exec stmts r) = fold_left (round W) ts (view ((k + 1) mod 8) r)) ->
  view 0 (exec (f :: stmts) r) = fold_left (round W) (t :: ts) (view k r).
Proof.
  intros Hlen Hk HK arg f Hrest. cbn [fold_left].
  rewrite <- (UNROLL_round W k t Kt r Hlen Hk HK).
  change (exec (f :: stmts) r) with (exec stmts (f r)). apply Hrest.
  unfold f. by rewrite UNROLL_length.
Qed.

Lemma unrolled_rounds_correct W r :
  length r = 8%nat ->
  view 0 (unrolled_rounds W r) = fold_left (round W) (seqZ 0 64) (view 0 r).
Proof.
  intros Hlen. unfold unrolled_rounds.
  let l := eval vm_compute in (seqZ 0 64) in change (seqZ 0 64) with l.
  revert r Hlen.
  do 8 (
    intros ? ?; eapply (unrolled_step W 0); [done|lia|reflexivity|];
    intros ? ?; eapply (unrolled_step W 1); [done|lia|reflexivity|];
    intros ? ?; eapply (unrolled_step W 2); [done|lia|reflexivity|];
    intros ? ?; eapply (unrolled_step W 3); [done|lia|reflexivity|];
    intros ? ?; eapply (unrolled_step W 4); [done|lia|reflexivity|];
    intros ? ?; eapply (unrolled_step W 5); [done|lia|reflexivity|];
    intros ? ?; eapply (unrolled_step W 6); [done|lia|reflexivity|];
    intros ? ?; eapply (unrolled_step W 7); [done|lia|reflexivity|]).
  done.
Qed.

(** ** The context as a streaming state *)

(** Between calls: an index inside the block and eight words of digest. *)
Definition wf (c : sha256ctx) : Prop :=
  0 <= index c < 64 /\ length (block c) = 64%nat /\ length (h c) = 8%nat.

(** The chaining value and the pending bytes. *)
Definition abs (c : sha256ctx) : list Z * list Z :=
  (h c, take (Z.to_nat (index c)) (block c)).

Lemma abs_length c : wf c -> length (abs c).2 = Z.to_nat (index c).
Proof. intros (Hi & Hb & _). cbn. rewrite length_take. lia. Qed.

Lemma length_compress hv b : length (compress hv b) = 8%nat.
Proof. unfold compress, add_regs. by destruct (fold_left _ _ _). Qed.

(** Storing bytes at the index extends the pending bytes. *)
Lemma puts_spec l c :
  0 <= index c -> length (block c) = 64%nat -> index c + zlen l <= 64 ->
  let c' := fold_left put l c in
  index c' = index c + zlen l /\ length (block c') = 64%nat /\ h c' = h c /\ len c' = len c /\
  take (Z.to_nat (index c')) (block c') = take (Z.to_nat (index c)) (block c) ++ l.
Proof.
  unfold zlen. revert c. induction l as [|b l IH]; intros c Hi Hb Hl; cbn [fold_left length] in *.
  - rewrite app_nil_r. repeat split_and; (done || lia).
  - destruct (IH (put c b)) as (IH1 & IH2 & IH3 & IH4 & IH5);
      [cbn; lia|cbn; by rewrite length_wr|cbn; lia|].
    repeat split_and; [cbn in IH1; lia|done..|]. rewrite IH5. cbn [put index block].
    rewrite (cons_middle b), app_assoc. f_equal.
    replace (Z.to_nat (index c + 1)) with (S (Z.to_nat (index c))) by lia.
    unfold wr. rewrite (take_S_r _ _ b) by (apply list_lookup_insert_eq; lia).
    by rewrite take_insert_ge by lia.
Qed.

(** One byte of the update is one byte absorbed. *)
Lemma update_byte_absorb c b :
  wf c -> is_byte b ->
  wf (update_byte c b) /\ abs (update_byte c b) = absorb1 compress (abs c) b /\
  len (update_byte c b) = len c.
Proof.
  intros Hwf Hb. pose proof (abs_length c Hwf) as Hal. destruct Hwf as (Hi & Hbl & Hh).
  assert (Eb : b .& 0xFF = b)
    by (change 0xFF with (Z.ones 8); rewrite Z.land_ones by lia; by apply u8_id).
  destruct (puts_spec [b] c) as (P1 & P2 & P3 & P4 & P5); [lia|done|unfold zlen; cbn; lia|].
  cbn [fold_left] in *. change (zlen [b]) with 1 in P1.
  unfold update_byte. rewrite Eb. destruct (Z.eqb_spec (index (put c b)) 64) as [E|E].
  - unfold SHA256_Message_Block_Size. rewrite (proj2 (Z.eqb_eq _ _) E).
    split; [|split; [|done]].
    + unfold wf; repeat split_and; cbn [SHA256ProcessMessageBlock index block h];
        first [lia|done|apply length_compress].
    + unfold abs at 2. rewrite absorb1_full by (unfold abs in Hal; cbn [snd] in Hal; lia).
      unfold abs. cbn [SHA256ProcessMessageBlock index block h].
      rewrite <- P5, E, (take_ge _ (Z.to_nat 64)) by lia. by rewrite P3.
  - unfold SHA256_Message_Block_Size. rewrite (proj2 (Z.eqb_neq _ _) E).
    split; [|split; [|done]].
    + unfold wf. rewrite P3. lia.
    + unfold abs at 2. rewrite absorb1_short by (unfold abs in Hal; cbn [snd] in Hal; lia).
      unfold abs. by rewrite P3, P5.
Qed.

Lemma update_bytes_absorb l c :
  wf c -> Forall is_byte l ->
  wf (fold_left update_byte l c) /\
  abs (fold_left update_byte l c) = absorb compress (abs c) l /\
  len (fold_left update_byte l c) = len c.
Proof.
  intros Hwf Hl. revert c Hwf. induction Hl as [|b l Hb _ IH]; intros c Hwf; [done|].
  cbn [fold_left]. rewrite absorb_cons.
  destruct (update_byte_absorb c b Hwf Hb) as (H1 & H2 & H3).
  destruct (IH _ H1) as (I1 & I2 & I3). rewrite I2, I3, H2, H3. done.
Qed.

(** The block-wise loop absorbs what it consumes. *)
Lemma update_blocks_absorb fuel c msg :
  wf c -> index c = 0 ->
  let '(c', msg') := update_blocks fuel c msg in
  wf c' /\ absorb compress (abs c') msg' = absorb compress (abs c) msg /\ len c' = len c /\
  (Forall is_byte msg -> Forall is_byte msg').
Proof.
  revert c msg. induction fuel as [|fuel IH]; intros c msg Hwf Hi; cbn [update_blocks]; [done|].
  unfold SHA256_Message_Block_Size. destruct (Z.leb_spec 64 (zlen msg)) as [Hge|]; [|done].
  unfold zlen in Hge.
  set (c1 := SHA256ProcessMessageBlock _).
  assert (Hwf1 : wf c1).
  { unfold wf; repeat split_and; cbn [c1 SHA256ProcessMessageBlock index block h];
      rewrite ?length_take; first [lia|apply length_compress]. }
  specialize (IH c1 (drop 64 msg) Hwf1 eq_refl).
  destruct (update_blocks fuel c1 (drop 64 msg)) as [c' msg'].
  destruct IH as (I1 & I2 & I3 & I4). split; [done|]. split; [|split; [done|]].
  - rewrite I2. rewrite <- (take_drop 64 msg) at 2. rewrite absorb_app. f_equal.
    unfold abs at 2. rewrite Hi. change (take (Z.to_nat 0) (block c)) with (@nil Z).
    rewrite absorb_block by (cbn [length]; rewrite ?length_take; lia). done.
  - intros Hb. apply I4. by apply Forall_drop.
Qed.

Lemma sha256_update_absorb c msg :
  wf c -> Forall is_byte msg ->
  wf (sha256_update c msg) /\ abs (sha256_update c msg) = absorb compress (abs c) msg /\
  len (sha256_update c msg) = (if zlen msg =? 0 then len c else u64 (len c + zlen msg)).
Proof.
  intros Hwf Hb. unfold sha256_update. destruct (Z.eqb_spec (zlen msg) 0) as [E|E].
  { unfold zlen in E. destruct msg; [done|cbn in E; lia]. }
  set (c1 := {| block := block c |}). assert (Hwf1 : wf c1) by apply Hwf.
  assert (H : forall c2 msg2, wf c2 -> Forall is_byte msg2 ->
    absorb compress (abs c2) msg2 = absorb compress (abs c) msg -> len c2 = len c1 ->
    wf (fold_left update_byte msg2 c2) /\
    abs (fold_left update_byte msg2 c2) = absorb compress (abs c) msg /\
    len (fold_left update_byte msg2 c2) = len c1).
  { intros c2 msg2 Hw2 Hb2 Ha2 Hl2.
    destruct (update_bytes_absorb msg2 c2 Hw2 Hb2) as (U1 & U2 & U3).
    split; [done|]. split; [by rewrite U2|by rewrite U3]. }
  destruct (Z.eqb_spec (index c1) 0) as [Ei|Ei].
  - pose proof (update_blocks_absorb (Z.to_nat (zlen msg / 64)) c1 msg Hwf1 Ei) as U.
    destruct (update_blocks _ c1 msg) as [c2 msg2]. destruct U as (U1 & U2 & U3 & U4).
    apply H; auto.
  - by apply H.
Qed.

(** ** Padding and the digest *)

Lemma wr_app_r p d i v :
  0 <= i -> Z.of_nat (length p) <= i -> wr (p ++ d) i v = p ++ wr d (i - Z.of_nat (length p)) v.
Proof.
  intros Hi Hp. unfold wr. rewrite insert_app_r_alt by lia. do 2 f_equal. lia.
Qed.

(** The eight length bytes replace the end of the block. *)
Lemma store_length_spec n b :
  length b = 64%nat -> store_length n b = take 56 b ++ be_bytes 8 n.
Proof.
  intros Hb. unfold store_length. rewrite <- (take_drop 56 b) at 1.
  assert (Hp : length (take 56 b) = 56%nat) by (rewrite length_take; lia).
  assert (Hd : length (drop 56 b) = 8%nat) by (rewrite length_drop; lia).
  revert Hd. generalize (drop 56 b). intros d Hd.
  rewrite !wr_app_r by (rewrite ?Hp; lia). rewrite Hp. f_equal.
  do 9 (destruct d as [|? d]; try done).
Qed.

Lemma zero_fill_spec limit c :
  0 <= index c <= limit -> limit <= 64 -> length (block c) = 64%nat ->
  let c' := zero_fill limit c in
  index c' = limit /\ length (block c') = 64%nat /\ h c' = h c /\ len c' = len c /\
  take (Z.to_nat limit) (block c') =
    take (Z.to_nat (index c)) (block c) ++ replicate (Z.to_nat (limit - index c)) 0.
Proof.
  intros Hi Hl Hb. unfold zero_fill.
  destruct (puts_spec (replicate (Z.to_nat (limit - index c)) 0) c) as (P1 & P2 & P3 & P4 & P5);
    [lia|done|unfold zlen; rewrite length_replicate; lia|].
  unfold zlen in P1. rewrite length_replicate in P1.
  repeat split_and; [lia|done..|]. rewrite <- P5. do 2 f_equal. lia.
Qed.

(** The last block: the first 56 bytes as stored, then the length. *)
Lemma last_block c :
  0 <= index c <= 56 -> length (block c) = 64%nat ->
  let c' := zero_fill 56 c in
  h c' = h c /\ len c' = len c /\
  forall n, store_length n (block c') =
    take (Z.to_nat (index c)) (block c) ++ replicate (Z.to_nat (56 - index c)) 0 ++ be_bytes 8 n.
Proof.
  intros Hi Hb. destruct (zero_fill_spec 56 c) as (_ & Z2 & Z3 & Z4 & Z5); [lia..|done|].
  cbv zeta. repeat split_and; [done..|]. intros n. rewrite store_length_spec by done.
  change (Z.to_nat 56) with 56%nat in Z5. by rewrite Z5, <- app_assoc.
Qed.

(** The context after the pad byte, in the two cases of [finish]. *)
Lemma pad_byte_spec c :
  wf c ->
  let c' := pad_byte c in
  len c' = len c /\ length (block c') = 64%nat /\
  (index c < 56 -> index c' = index c + 1 /\ h c' = h c /\
     take (Z.to_nat (index c')) (block c') = (abs c).2 ++ [PAD_BYTE]) /\
  (56 <= index c -> index c' = 0 /\
     h c' = compress (h c) ((abs c).2 ++ PAD_BYTE :: replicate (Z.to_nat (63 - index c)) 0)).
Proof.
  intros (Hi & Hb & Hh). unfold pad_byte, SHA256_Message_Block_Size.
  destruct (puts_spec [PAD_BYTE] c) as (P1 & P2 & P3 & P4 & P5); [lia|done|unfold zlen; cbn; lia|].
  change (zlen [PAD_BYTE]) with 1 in P1. cbn [fold_left] in *.
  destruct (Z.leb_spec (64 - 8) (index c)) as [Hge|Hlt].
  - destruct (zero_fill_spec 64 (put c PAD_BYTE)) as (Z1 & Z2 & Z3 & Z4 & Z5); [lia..|done|].
    rewrite (take_ge _ (Z.to_nat 64)) in Z5 by lia.
    cbn [SHA256ProcessMessageBlock h index block len].
    repeat split_and; [congruence|done|lia|]. intros _. split; [done|].
    rewrite Z3, P3, Z5, P5. f_equal. rewrite <- app_assoc. cbn [app abs snd].
    do 3 f_equal. lia.
  - repeat split_and; [done|done| |lia]. intros _. split; [lia|]. split; [done|exact P5].
Qed.

Lemma compress_unfold hv b :
  compress hv b = add_regs hv (fold_left (round (W_schedule b)) (seqZ 0 64) (load_regs hv)).
Proof. reflexivity. Qed.

#[local] Opaque compress.

Lemma SHA256PadMessage_finish c :
  wf c ->
  h (SHA256PadMessage c) =
    finish compress (h c) (abs c).2 (be_bytes 8 (u64 (len c * 8))).
Proof.
  intros Hwf. pose proof (abs_length c Hwf) as Hal.
  destruct (pad_byte_spec c Hwf) as (B1 & B2 & B3 & B4). destruct Hwf as (Hi & _ & _).
  unfold SHA256PadMessage, finish, SHA256_Message_Block_Size. rewrite Hal.
  cbn [SHA256ProcessMessageBlock h block index len]. change (64 - 8) with 56.
  set (c1 := pad_byte c) in *.
  destruct (Nat.leb_spec 56 (Z.to_nat (index c))).
  - destruct (B4 ltac:(lia)) as [E1 E2].
    destruct (last_block c1) as (L1 & L2 & L3); [lia|done|].
    rewrite L3, L1, L2, B1, E1, E2.
    replace (63 - Z.to_nat (index c))%nat with (Z.to_nat (63 - index c)) by lia. done.
  - destruct (B3 ltac:(lia)) as (E1 & E2 & E3).
    destruct (last_block c1) as (L1 & L2 & L3); [lia|done|].
    rewrite L3, L1, L2, B1, E2, E3, <- app_assoc, E1.
    replace (55 - Z.to_nat (index c))%nat with (Z.to_nat (56 - (index c + 1))) by lia. done.
Qed.

(** FIPS 180-2: the digest of a message. *)
Definition sha256_fips (msg : list Z) : list Z :=
  flat_map (be_bytes 4)
    (absorb compress (SHA256_H0, []) (pad (be_bytes 8 (8 * zlen msg)) msg)).1.

Lemma digest_bytes hv :
  length hv = 8%nat ->
  map (fun i => u8 (rd hv (i .>> 2) .>> (8 * (3 - (i .& 0x03))))) (seqZ 0 32)
  = flat_map (be_bytes 4) hv.
Proof. intros Hh. do 9 (destruct hv as [|? hv]; try done). Qed.

Lemma length_finish {H} (f : H -> list Z -> H) (P : H -> Prop) hv rest e :
  (forall hv b, P (f hv b)) -> P (finish f hv rest e).
Proof. intros HP. unfold finish. destruct (_ <=? _)%nat; apply HP. Qed.

Lemma sha256_init_wf : wf sha256_init.
Proof. unfold wf, sha256_init. cbn [index block h]. rewrite length_replicate. split; [lia|done]. Qed.

#[export] Program Instance sha256_stream :
  StreamHash sha256_init sha256_update (fun c => fst (sha256_final c)) sha256_fips := {
  repr c m := wf c /\ abs c = absorb compress (SHA256_H0, []) m /\ len c = u64 (zlen m);
  chunk_max := 2 ^ 32;
  msg_max := 2 ^ 61;
}.
Next Obligation. split; [apply sha256_init_wf|]. split; reflexivity. Qed.
Next Obligation.
  intros c m chunk (Hwf & Ha & Hl) Hb _.
  destruct (sha256_update_absorb c chunk Hwf Hb) as (U1 & U2 & U3).
  split; [done|]. split; [by rewrite U2, Ha, absorb_app|].
  rewrite U3, Hl. unfold zlen. rewrite length_app.
  destruct (Z.eqb_spec (Z.of_nat (length chunk)) 0).
  - f_equal. lia.
  - unfold u64. rewrite Zplus_mod_idemp_l. f_equal. lia.
Qed.
Next Obligation.
  intros c m (Hwf & Ha & Hl) Hm. cbv beta. unfold sha256_final. cbn [fst].
  rewrite SHA256PadMessage_finish by done.
  rewrite digest_bytes by (apply length_finish; apply length_compress).
  unfold sha256_fips. rewrite absorb_pad by apply length_be_bytes.
  replace (u64 (len c * 8)) with (8 * zlen m).
  { by rewrite <- Ha. }
  rewrite Hl. unfold zlen in *. rewrite (u64_id (Z.of_nat (length m))) by (unfold fits; lia).
  rewrite u64_id by (unfold fits; lia). lia.
Qed.

(** ** Results *)

Definition abc : list Z := [97; 98; 99].
Definition abc_digest : list Z :=
  [0xba; 0x78; 0x16; 0xbf; 0x8f; 0x01; 0xcf; 0xea; 0x41; 0x41; 0x40; 0xde; 0x5d; 0xae; 0x22; 0x23;
   0xb0; 0x03; 0x61; 0xa3; 0x96; 0x17; 0x7a; 0x9c; 0xb4; 0x10; 0xff; 0x61; 0xf2; 0x00; 0x15; 0xad].

(** C13: However a message under 2^61 bytes is cut into sha256_update calls, the
    digest of sha256_final is the FIPS 180-2 digest of the whole message: the
    blocks of the message padded with 0x80, zeros and its 64-bit length,
    compressed in order; the one-shot sha256 computes the same. *)
Theorem sha256_streaming (chunks : list (list Z)) :
  Forall (Forall is_byte) chunks -> Forall (fun c => zlen c < 2 ^ 32) chunks ->
  zlen (concat chunks) < 2 ^ 61 ->
  fst (sha256_final (fold_left sha256_update chunks sha256_init)) = sha256_fips (concat chunks) /\
  (zlen (concat chunks) < 2 ^ 32 -> sha256 (concat chunks) = sha256_fips (concat chunks)) /\
  exists blocks, Forall (fun b => length b = 64%nat) blocks /\
    concat blocks = pad (be_bytes 8 (8 * zlen (concat chunks))) (concat chunks) /\
    sha256_fips (concat chunks) = flat_map (be_bytes 4) (fold_left compress blocks SHA256_H0).
Proof.
  intros Hb Hl Hm. split; [|split].
  - exact (stream_chunks (HS := sha256_stream) chunks Hb Hl Hm).
  - intros Hlen. pose proof (stream_chunks (HS := sha256_stream) [concat chunks]) as S.
    cbn [concat fold_left] in S. rewrite app_nil_r in S. apply S; [..|done].
    + apply Forall_cons_2; [|apply Forall_nil_2]. by apply Forall_concat.
    + apply Forall_cons_2; [done|apply Forall_nil_2].
  - destruct (split_blocks (pad (be_bytes 8 (8 * zlen (concat chunks))) (concat chunks)))
      as (bs & Hbs & E); [by apply pad_blocks, length_be_bytes|].
    exists bs. split; [done|]. split; [done|]. unfold sha256_fips.
    by rewrite <- E, absorb_blocks by done.
Qed.

Lemma sha256_streaming_witness :
  sha256 abc = abc_digest /\
  fst (sha256_final (fold_left sha256_update [[97]; [98; 99]] sha256_init)) = sha256_fips abc.
Proof.
  split; [by vm_compute|]. refine (proj1 (sha256_streaming [[97]; [98; 99]] _ _ _)).
  - repeat apply Forall_cons_2; try apply Forall_nil_2; unfold fits; lia.
  - repeat apply Forall_cons_2; try apply Forall_nil_2; reflexivity.
  - reflexivity.
Defined.

(** The rewritten macros SHA_Ch and SHA_Maj equal the FIPS 180-2 functions on
    32-bit words, and SHA256_ROTR is rotation to the right: bit i of the result
    is bit (i + bits) mod 32 of the word. *)
Theorem sha256_macros (x y z bits i : Z) :
  is_u32 x -> is_u32 y -> is_u32 z -> 0 < bits < 32 -> 0 <= i < 32 ->
  SHA_Ch x y z = SHA_Ch_fips x y z /\ SHA_Maj x y z = SHA_Maj_fips x y z /\
  Z.testbit (SHA256_ROTR bits x) i = Z.testbit x ((i + bits) mod 32).
Proof.
  intros. repeat split_and; [by apply SHA_Ch_correct|apply SHA_Maj_correct|].
  by apply SHA256_ROTR_spec.
Qed.

Lemma sha256_macros_witness :
  SHA_Ch 0xF0F0F0F0 0x12345678 0x9abcdef0 = SHA_Ch_fips 0xF0F0F0F0 0x12345678 0x9abcdef0.
Proof.
  apply (sha256_macros 0xF0F0F0F0 0x12345678 0x9abcdef0 2 0); unfold fits; lia.
Defined.

(** The message schedule: the first sixteen words are the big-endian words of
    the block, and every later word satisfies the FIPS 180-2 recurrence. *)
Theorem sha256_schedule (block : list Z) (t : Z) :
  let W := W_schedule block in
  (0 <= t < 16 -> rd W t = CB_INIT block (4 * t)) /\
  (16 <= t < 64 ->
     rd W t = u32 (SHA256_sigma1 (rd W (t - 2)) + rd W (t - 7)
                   + SHA256_sigma0 (rd W (t - 15)) + rd W (t - 16))).
Proof.
  unfold W_schedule. split; intros Ht.
  - rewrite W_prefix by lia.
    let l := eval vm_compute in (seqZ 0 16) in
      assert (E : t ∈ l) by (change l with (seqZ 0 16); apply elem_of_seqZ; lia). rewrite !elem_of_cons, elem_of_nil in E.
    repeat (destruct E as [->|E]; [reflexivity|]). done.
  - apply W_recurrence; [done|lia..].
Qed.

Lemma sha256_schedule_witness :
  rd (W_schedule (seqZ 0 64)) 1 = 0x04050607 /\
  rd (W_schedule (seqZ 0 64)) 1 = CB_INIT (seqZ 0 64) 4.
Proof.
  split; [by vm_compute|]. apply (sha256_schedule (seqZ 0 64) 1). lia.
Defined.

Lemma load_regs_view r : load_regs r = view 0 r.
Proof. done. Qed.

(** The unrolled body of the block function, whose macro arguments rotate
    from line to line, computes the same chaining value as the loop. *)
Theorem sha256_unrolled_equiv (h block : list Z) :
  length h = 8%nat -> compress_unrolled h block = compress h block.
Proof.
  intros Hh. unfold compress_unrolled. rewrite compress_unfold, take_ge by lia.
  by rewrite !load_regs_view, unrolled_rounds_correct.
Qed.

Lemma sha256_unrolled_equiv_witness :
  compress_unrolled SHA256_H0 (seqZ 0 64) = compress SHA256_H0 (seqZ 0 64).
Proof. by apply (sha256_unrolled_equiv SHA256_H0 (seqZ 0 64)). Defined.

End Sha256.
