(* ===== verification/Md5.v ===== *)
(** MD5 (md5.c): the unrolled block function, the buffered update, the padding,
    the wrappers and the digest of a file.  The unrolled statements are shown to
    be the 64 rounds of RFC 1321, and the update and final functions to implement
    the streaming interface of Hash.v, with the length counter as the code keeps
    it, in 32 bits. *)

From S2P Require Import Prelude.
From S2P Require Import Hash.

Module Md5.

(** ** Macros *)

Definition F (x y z : Z) : Z := (x .& y) .| (u32 (Z.lnot x) .& z).
Definition G (x y z : Z) : Z := (x .& z) .| (y .& u32 (Z.lnot z)).
Definition H (x y z : Z) : Z := x .^ y .^ z.
Definition I (x y z : Z) : Z := y .^ (x .| u32 (Z.lnot z)).

Definition ROTATE (x n : Z) : Z := u32 (x .<< n) .| (x .>> (32 - n)).

(** The four chaining words A to D are the cells 0 to 3 of [abcd]. *)
Record md5ctx := {
  abcd : list Z;
  buf : list Z;
  cur : Z;
  size : Z;
}.

(** One statement of a round: [a = b + ROTATE((a + f(b,c,d) + x[k] + t), s)]. *)
Definition R (f : Z -> Z -> Z -> Z) (x : list Z) (a b c d k s t : Z) (r : list Z) : list Z :=
  wr r a (u32 (rd r b
               + ROTATE (u32 (rd r a + f (rd r b) (rd r c) (rd r d) + rd x k + t)) s)).
Definition R1 := R F.
Definition R2 := R G.
Definition R3 := R H.
Definition R4 := R I.

#[local] Abbreviation rA := 0.
#[local] Abbreviation rB := 1.
#[local] Abbreviation rC := 2.
#[local] Abbreviation rD := 3.

Definition round1 (x : list Z) : list (list Z -> list Z) := [
  R1 x rA rB rC rD 0 7 0xd76aa478;
  R1 x rD rA rB rC 1 12 0xe8c7b756;
  R1 x rC rD rA rB 2 17 0x242070db;
  R1 x rB rC rD rA 3 22 0xc1bdceee;
  R1 x rA rB rC rD 4 7 0xf57c0faf;
  R1 x rD rA rB rC 5 12 0x4787c62a;
  R1 x rC rD rA rB 6 17 0xa8304613;
  R1 x rB rC rD rA 7 22 0xfd469501;
  R1 x rA rB rC rD 8 7 0x698098d8;
  R1 x rD rA rB rC 9 12 0x8b44f7af;
  R1 x rC rD rA rB 10 17 0xffff5bb1;
  R1 x rB rC rD rA 11 22 0x895cd7be;
  R1 x rA rB rC rD 12 7 0x6b901122;
  R1 x rD rA rB rC 13 12 0xfd987193;
  R1 x rC rD rA rB 14 17 0xa679438e;
  R1 x rB rC rD rA 15 22 0x49b40821].

Definition round2 (x : list Z) : list (list Z -> list Z) := [
  R2 x rA rB rC rD 1 5 0xf61e2562;
  R2 x rD rA rB rC 6 9 0xc040b340;
  R2 x rC rD rA rB 11 14 0x265e5a51;
  R2 x rB rC rD rA 0 20 0xe9b6c7aa;
  R2 x rA rB rC rD 5 5 0xd62f105d;
  R2 x rD rA rB rC 10 9 0x02441453;
  R2 x rC rD rA rB 15 14 0xd8a1e681;
  R2 x rB rC rD rA 4 20 0xe7d3fbc8;
  R2 x rA rB rC rD 9 5 0x21e1cde6;
  R2 x rD rA rB rC 14 9 0xc33707d6;
  R2 x rC rD rA rB 3 14 0xf4d50d87;
  R2 x rB rC rD rA 8 20 0x455a14ed;
  R2 x rA rB rC rD 13 5 0xa9e3e905;
  R2 x rD rA rB rC 2 9 0xfcefa3f8;
  R2 x rC rD rA rB 7 14 0x676f02d9;
  R2 x rB rC rD rA 12 20 0x8d2a4c8a].

Definition round3 (x : list Z) : list (list Z -> list Z) := [
  R3 x rA rB rC rD 5 4 0xfffa3942;
  R3 x rD rA rB rC 8 11 0x8771f681;
  R3 x rC rD rA rB 11 16 0x6d9d6122;
  R3 x rB rC rD rA 14 23 0xfde5380c;
  R3 x rA rB rC rD 1 4 0xa4beea44;
  R3 x rD rA rB rC 4 11 0x4bdecfa9;
  R3 x rC rD rA rB 7 16 0xf6bb4b60;
  R3 x rB rC rD rA 10 23 0xbebfbc70;
  R3 x rA rB rC rD 13 4 0x289b7ec6;
  R3 x rD rA rB rC 0 11 0xeaa127fa;
  R3 x rC rD rA rB 3 16 0xd4ef3085;
  R3 x rB rC rD rA 6 23 0x04881d05;
  R3 x rA rB rC rD 9 4 0xd9d4d039;
  R3 x rD rA rB rC 12 11 0xe6db99e5;
  R3 x rC rD rA rB 15 16 0x1fa27cf8;
  R3 x rB rC rD rA 2 23 0xc4ac5665].

Definition round4 (x : list Z) : list (list Z -> list Z) := [
  R4 x rA rB rC rD 0 6 0xf4292244;
  R4 x rD rA rB rC 7 10 0x432aff97;
  R4 x rC rD rA rB 14 15 0xab9423a7;
  R4 x rB rC rD rA 5 21 0xfc93a039;
  R4 x rA rB rC rD 12 6 0x655b59c3;
  R4 x rD rA rB rC 3 10 0x8f0ccc92;
  R4 x rC rD rA rB 10 15 0xffeff47d;
  R4 x rB rC rD rA 1 21 0x85845dd1;
  R4 x rA rB rC rD 8 6 0x6fa87e4f;
  R4 x rD rA rB rC 15 10 0xfe2ce6e0;
  R4 x rC rD rA rB 6 15 0xa3014314;
  R4 x rB rC rD rA 13 21 0x4e0811a1;
  R4 x rA rB rC rD 4 6 0xf7537e82;
  R4 x rD rA rB rC 11 10 0xbd3af235;
  R4 x rC rD rA rB 2 15 0x2ad7d2bb;
  R4 x rB rC rD rA 9 21 0xeb86d391].

(** The buffer as sixteen little-endian words. *)
Definition words (b : list Z) : list Z := map (le_word b) (seqZ 0 16).

(** Calculate one block. *)
Definition calc (abcd buf : list Z) : list Z :=
  let x := words buf in
  let r := exec (round1 x ++ round2 x ++ round3 x ++ round4 x) abcd in
  [u32 (rd r 0 + rd abcd 0); u32 (rd r 1 + rd abcd 1);
   u32 (rd r 2 + rd abcd 2); u32 (rd r 3 + rd abcd 3)].

Definition md5_calc (ctx : md5ctx) : md5ctx :=
  {| abcd := calc (abcd ctx) (buf ctx); buf := buf ctx; cur := cur ctx; size := size ctx |}.

(** ** Interface *)

Definition md5_H0 : list Z := [0x67452301; 0xefcdab89; 0x98badcfe; 0x10325476].

(** The buffer keeps whatever it held. *)
Definition md5_init (ctx : md5ctx) : md5ctx :=
  {| abcd := md5_H0; buf := buf ctx; cur := 0; size := 0 |}.

(** One iteration of the update loop: the context and the bytes left. *)
Definition update_step (ctx : md5ctx) (data : list Z) : md5ctx * list Z :=
  let left := 64 - cur ctx in
  let n := if zlen data <? left then zlen data else left in
  let ctx :=
    {| abcd := abcd ctx; buf := splice (buf ctx) (cur ctx) (take (Z.to_nat n) data);
       cur := cur ctx + n; size := u32 (size ctx + n) |} in
  let data := drop (Z.to_nat n) data in
  if cur ctx =? 64 then
    let ctx := md5_calc ctx in
    ({| abcd := abcd ctx; buf := buf ctx; cur := 0; size := size ctx |}, data)
  else (ctx, data).

Fixpoint update_loop (fuel : nat) (ctx : md5ctx) (data : list Z) : md5ctx :=
  match fuel with
  | O => ctx
  | S fuel =>
      if 0 <? zlen data then
        let '(ctx, data) := update_step ctx data in update_loop fuel ctx data
      else ctx
  end.

Definition md5_update (ctx : md5ctx) (data : list Z) : md5ctx :=
  update_loop (length data) ctx data.

Definition md5_pad (ctx : md5ctx) : md5ctx :=
  let ctx :=
    {| abcd := abcd ctx; buf := wr (buf ctx) (cur ctx) 0x80;
       cur := cur ctx + 1; size := size ctx |} in
  let ctx :=
    {| abcd := abcd ctx;
       buf := splice (buf ctx) (cur ctx) (replicate (Z.to_nat (64 - cur ctx)) 0);
       cur := cur ctx; size := size ctx |} in
  let ctx :=
    if 56 <? cur ctx then
      let ctx := md5_calc ctx in
      {| abcd := abcd ctx; buf := replicate 64 0; cur := 0; size := size ctx |}
    else ctx in
  (* uint64_t size = ctx->size * 8, computed in 32 bits *)
  let size64 := u32 (size ctx * 8) in
  {| abcd := abcd ctx; buf := splice (buf ctx) 56 (le_bytes 8 size64);
     cur := cur ctx; size := size ctx |}.

(** The digest and the cleared context. *)
Definition md5_final (ctx : md5ctx) : list Z * md5ctx :=
  let ctx := md5_pad ctx in
  let ctx := md5_calc ctx in
  (flat_map (le_bytes 4) (abcd ctx),
   {| abcd := replicate 4 0; buf := replicate 64 0; cur := 0; size := 0 |}).

Definition md5str (hash : list Z) : list Z := hex_str hash.

(** [ctx0] is the uninitialised context on the stack. *)
Definition md5 (ctx0 : md5ctx) (data : list Z) : list Z :=
  let ctx := md5_init ctx0 in
  let ctx := md5_update ctx data in
  fst (md5_final ctx).

(** ** The digest of a file *)

(** The results of successive read calls: bytes, end of file or an error. *)
Inductive read_result : Type := Data (chunk : list Z) | Eof | ReadError.

(** The read loop: the context and the last value of [n] when not positive. *)
Fixpoint read_loop (reads : list read_result) (ctx : md5ctx) : md5ctx * Z :=
  match reads with
  | Data chunk :: reads =>
      if 0 <? zlen chunk then read_loop reads (md5_update ctx chunk) else (ctx, 0)
  | Eof :: _ | [] => (ctx, 0)
  | ReadError :: _ => (ctx, -1)
  end.

(** The result, [errno] when it is set, and the hash, written in both cases. *)
Definition _md5sum (ctx0 : md5ctx) (reads : list read_result) : Z * option Z * list Z :=
  let ctx := md5_init ctx0 in
  let '(ctx, n) := read_loop reads ctx in
  let hash := fst (md5_final ctx) in
  if negb (n =? 0) then (-1, Some EIO, hash) else (0, None, hash).

(** Opening fails ([None]) or gives a descriptor with its future reads; the
    result, the hash if written, and the number of descriptors still open. *)
Definition md5sum (ctx0 : md5ctx) (opened : option (list read_result))
  : Z * option (list Z) * Z :=
  match opened with
  | None => (-1, None, 0)
  | Some reads =>
      let fds := 1 in
      let '(rc, _, hash) := _md5sum ctx0 reads in
      let fds := fds - 1 in
      (rc, Some hash, fds)
  end.

(** ** RFC 1321 as a loop *)

(** The sine of an integer, by its Taylor series in fixed point. *)
Fixpoint sine_terms (n : nat) (x k term acc : Z) : Z :=
  match n with
  | O => acc
  | S n => sine_terms n x (k + 2) (- (term * x * x / ((k + 1) * (k + 2)))) (acc + term)
  end.
Definition sine (x : Z) : Z := sine_terms 150 x 1 (x .<< 256) 0.

(** [T[i]] is the integer part of 4294967296 times abs(sin(i + 1)). *)
Definition T (i : Z) : Z := (Z.abs (sine (i + 1)) .<< 32) .>> 256.

(** The function, word and shift of the step [i]. *)
Definition rfc_f (i : Z) : Z -> Z -> Z -> Z :=
  if i <? 16 then F else if i <? 32 then G else if i <? 48 then H else I.
Definition rfc_k (i : Z) : Z :=
  if i <? 16 then i else if i <? 32 then (5 * i + 1) mod 16
  else if i <? 48 then (3 * i + 5) mod 16 else 7 * i mod 16.
Definition rfc_s (i : Z) : Z :=
  rd (if i <? 16 then [7; 12; 17; 22] else if i <? 32 then [5; 9; 14; 20]
      else if i <? 48 then [4; 11; 16; 23] else [6; 10; 15; 21]) (i mod 4).

Definition rfc_step (x : list Z) (r : Z * Z * Z * Z) (i : Z) : Z * Z * Z * Z :=
  let '(a, b, c, d) := r in
  (d, u32 (b + ROTATE (u32 (a + rfc_f i b c d + rd x (rfc_k i) + T i)) (rfc_s i)), b, c).

Definition rfc_calc (abcd buf : list Z) : list Z :=
  let '(a, b, c, d) :=
    fold_left (rfc_step (words buf)) (seqZ 0 64) (rd abcd 0, rd abcd 1, rd abcd 2, rd abcd 3) in
  [u32 (a + rd abcd 0); u32 (b + rd abcd 1); u32 (c + rd abcd 2); u32 (d + rd abcd 3)].

(** The registers after [k] rotations of the statements' arguments. *)
Definition view (k : Z) (r : list Z) : Z * Z * Z * Z :=
  (rd r ((4 - k) mod 4), rd r ((5 - k) mod 4), rd r ((6 - k) mod 4), rd r ((7 - k) mod 4)).

Lemma R_step x k i r :
  length r = 4%nat -> 0 <= k < 4 ->
  let arg j := (j - k) mod 4 in
  view ((k + 1) mod 4)
    (R (rfc_f i) x (arg 4) (arg 5) (arg 6) (arg 7) (rfc_k i) (rfc_s i) (T i) r)
  = rfc_step x (view k r) i.
Proof.
  intros Hlen Hk. do 5 (destruct r as [|? r]; try done).
  assert (E : k = 0 \/ k = 1 \/ k = 2 \/ k = 3) by lia.
  destruct E as [->|[->|[-> | ->]]]; reflexivity.
Qed.

Lemma R_length f x a b c d k s t r : length (R f x a b c d k s t r) = length r.
Proof. apply length_wr. Qed.

(** A run of statements against the steps they stand for. *)
Lemma R_run x k i js stmts r f kk s t :
  length r = 4%nat -> 0 <= k < 4 ->
  rfc_f i = f -> rfc_k i = kk -> rfc_s i = s -> T i = t ->
  let arg j := (j - k) mod 4 in
  (forall r, length r = 4%nat ->
     view 0 (exec stmts r) = fold_left (rfc_step x) js (view ((k + 1) mod 4) r)) ->
  view 0 (exec (R f x (arg 4) (arg 5) (arg 6) (arg 7) kk s t :: stmts) r)
  = fold_left (rfc_step x) (i :: js) (view k r).
Proof.
  intros Hlen Hk <- <- <- <- arg Hrest. cbn [fold_left].
  rewrite <- (R_step x k i r Hlen Hk).
  apply (Hrest (R (rfc_f i) x (arg 4) (arg 5) (arg 6) (arg 7) (rfc_k i) (rfc_s i) (T i) r)).
  by rewrite R_length.
Qed.

Ltac md5_step k :=
  intros ? ?; eapply (R_run _ k); [done|lia|reflexivity|reflexivity|reflexivity|by vm_compute|].

Lemma rounds_rfc x r :
  length r = 4%nat ->
  view 0 (exec (round1 x ++ round2 x ++ round3 x ++ round4 x) r)
  = fold_left (rfc_step x) (seqZ 0 64) (view 0 r).
Proof.
  intros Hlen. let l := eval vm_compute in (seqZ 0 64) in change (seqZ 0 64) with l.
  unfold round1, round2, round3, round4. cbn [app]. revert r Hlen.
  do 16 (md5_step 0; md5_step 1; md5_step 2; md5_step 3). done.
Qed.

Lemma calc_rfc hv b : length hv = 4%nat -> calc hv b = rfc_calc hv b.
Proof.
  intros Hlen. pose proof (rounds_rfc (words b) hv Hlen) as E.
  unfold calc, rfc_calc. unfold view in E at 2.
  change (fold_left (rfc_step (words b)) (seqZ 0 64)
    (rd hv 0, rd hv 1, rd hv 2, rd hv 3)) with
    (fold_left (rfc_step (words b)) (seqZ 0 64)
      (rd hv ((4 - 0) mod 4), rd hv ((5 - 0) mod 4), rd hv ((6 - 0) mod 4), rd hv ((7 - 0) mod 4))).
  rewrite <- E. reflexivity.
Qed.

(** ** The context as a streaming state *)

Definition wf (c : md5ctx) : Prop :=
  0 <= cur c < 64 /\ length (buf c) = 64%nat /\ length (abcd c) = 4%nat.

Definition abs (c : md5ctx) : list Z * list Z :=
  (abcd c, take (Z.to_nat (cur c)) (buf c)).

Lemma md5_abs_length c : wf c -> length (abs c).2 = Z.to_nat (cur c).
Proof. intros (Hi & Hb & _). cbn. rewrite length_take. lia. Qed.

Lemma length_calc hv b : length (calc hv b) = 4%nat.
Proof. done. Qed.

#[local] Opaque calc.

(** One iteration consumes a non-empty prefix of the data and absorbs it. *)
Lemma update_step_absorb c data :
  wf c -> 0 < zlen data ->
  let '(c', data') := update_step c data in
  wf c' /\ absorb calc (abs c') data' = absorb calc (abs c) data /\
  zlen data' < zlen data /\ u32 (size c' + zlen data') = u32 (size c + zlen data).
Proof.
  intros Hwf Hd. pose proof (md5_abs_length c Hwf) as Hal. destruct Hwf as (Hc & Hb & Ha).
  cbn [abs snd] in Hal. unfold update_step.
  set (n := if zlen data <? 64 - cur c then zlen data else 64 - cur c).
  assert (Hn : 0 < n <= zlen data /\ n <= 64 - cur c)
    by (unfold n; destruct (Z.ltb_spec (zlen data) (64 - cur c)); lia).
  assert (Htl : length (take (Z.to_nat n) data) = Z.to_nat n)
    by (rewrite length_take; unfold zlen in *; lia).
  assert (Hdl : zlen (drop (Z.to_nat n) data) = zlen data - n)
    by (unfold zlen in *; rewrite length_drop; lia).
  assert (Hbl : length (splice (buf c) (cur c) (take (Z.to_nat n) data)) = 64%nat)
    by (rewrite length_splice; unfold zlen in *; lia).
  assert (Hsz : u32 (u32 (size c + n) + (zlen data - n)) = u32 (size c + zlen data))
    by (unfold u32; rewrite Zplus_mod_idemp_l; f_equal; lia).
  assert (Htake : forall m, m = Z.to_nat (cur c + n) ->
    take m (splice (buf c) (cur c) (take (Z.to_nat n) data))
    = take (Z.to_nat (cur c)) (buf c) ++ take (Z.to_nat n) data)
    by (intros m ->; apply take_splice; unfold zlen in *; lia).
  cbn [cur]. destruct (Z.eqb_spec (cur c + n) 64) as [E|E].
  - split; [unfold wf; cbn [md5_calc cur buf abcd]; rewrite length_calc; lia|].
    split; [|split; [lia|cbn [md5_calc size]; by rewrite Hdl]].
    transitivity (absorb calc (abs c) (take (Z.to_nat n) data ++ drop (Z.to_nat n) data));
      [|by rewrite take_drop].
    rewrite absorb_app. f_equal.
    unfold abs at 2. rewrite absorb_block by lia.
    unfold abs. cbn [md5_calc cur buf abcd].
    apply (f_equal (fun b => (calc (abcd c) b, []))).
    rewrite <- (take_ge (splice _ _ _) (Z.to_nat (cur c + n))) by lia. by apply Htake.
  - split; [unfold wf; cbn [cur buf abcd]; lia|].
    split; [|split; [lia|cbn [size]; by rewrite Hdl]].
    transitivity (absorb calc (abs c) (take (Z.to_nat n) data ++ drop (Z.to_nat n) data));
      [|by rewrite take_drop].
    rewrite absorb_app. f_equal.
    unfold abs at 2. rewrite absorb_short by lia.
    unfold abs. cbn [cur buf abcd]. f_equal. by apply Htake.
Qed.

(** The loop reaches the end of the data: the length of the data is enough fuel. *)
Lemma update_loop_absorb fuel c data :
  wf c -> (length data <= fuel)%nat ->
  wf (update_loop fuel c data) /\
  abs (update_loop fuel c data) = absorb calc (abs c) data /\
  u32 (size (update_loop fuel c data)) = u32 (size c + zlen data).
Proof.
  revert c data. induction fuel as [|fuel IH]; intros c data Hwf Hf; cbn [update_loop].
  - destruct data; [|cbn in Hf; lia]. split; [done|]. split; [done|]. f_equal. unfold zlen. cbn. lia.
  - destruct (Z.ltb_spec 0 (zlen data)) as [Hd|Hd].
    + pose proof (update_step_absorb c data Hwf Hd) as S.
      destruct (update_step c data) as [c' data']. destruct S as (S1 & S2 & S3 & S4).
      destruct (IH c' data' S1) as (I1 & I2 & I3); [unfold zlen in S3; lia|].
      split; [done|]. split; [by rewrite I2|by rewrite I3].
    + destruct data; [|unfold zlen in Hd; cbn in Hd; lia].
      split; [done|]. split; [done|]. f_equal. unfold zlen. cbn. lia.
Qed.

(** ** Padding *)

Lemma splice_56 b e : length b = 64%nat -> length e = 8%nat -> splice b 56 e = take 56 b ++ e.
Proof.
  intros Hb He. unfold splice. rewrite He. change (Z.to_nat 56) with 56%nat.
  by rewrite (drop_ge b (56 + 8)), app_nil_r by lia.
Qed.

(** The buffer once the pad byte and the zeros are stored. *)
Lemma pad_buffer b i :
  length b = 64%nat -> 0 <= i < 64 ->
  splice (wr b i 0x80) (i + 1) (replicate (Z.to_nat (64 - (i + 1))) 0)
  = take (Z.to_nat i) b ++ 0x80 :: replicate (63 - Z.to_nat i) 0.
Proof.
  intros Hb Hi. unfold splice. rewrite length_replicate, drop_ge, app_nil_r
    by (rewrite length_wr; lia).
  replace (Z.to_nat (i + 1)) with (S (Z.to_nat i)) by lia. unfold wr.
  rewrite (take_S_r _ _ 0x80) by (apply list_lookup_insert_eq; lia).
  rewrite take_insert_ge by lia. rewrite <- app_assoc. cbn [app]. do 3 f_equal. lia.
Qed.

Lemma md5_pad_finish c :
  wf c ->
  calc (abcd (md5_pad c)) (buf (md5_pad c))
  = finish calc (abcd c) (abs c).2 (le_bytes 8 (u32 (size c * 8))).
Proof.
  intros Hwf. pose proof (md5_abs_length c Hwf) as Hal. destruct Hwf as (Hc & Hb & Ha).
  unfold md5_pad, finish. cbn [cur buf abcd size]. rewrite Hal, pad_buffer by done.
  set (e := le_bytes 8 (u32 (size c * 8))).
  assert (He : length e = 8%nat) by apply length_le_bytes.
  destruct (Z.ltb_spec 56 (cur c + 1)) as [Hge|Hlt].
  - rewrite (proj2 (Nat.leb_le _ _)) by lia. cbn [md5_calc cur buf abcd size].
    by rewrite splice_56.
  - rewrite (proj2 (Nat.leb_gt _ _)) by lia. cbn [cur buf abcd size].
    assert (Hr : replicate (63 - Z.to_nat (cur c)) 0
      = replicate (55 - Z.to_nat (cur c)) 0 ++ replicate 8 0)
      by (rewrite <- replicate_add; f_equal; lia).
    assert (Hl : length (take (Z.to_nat (cur c)) (buf c)) = Z.to_nat (cur c))
      by (rewrite length_take; lia).
    rewrite splice_56 by (done || (rewrite length_app; cbn [length]; rewrite length_replicate; lia)).
    rewrite Hr, app_comm_cons, app_assoc, take_app_length'.
    + by rewrite <- app_assoc.
    + rewrite length_app. cbn [length]. rewrite length_replicate. lia.
Qed.

(** The digest the code computes, its length field in 32 bits, and RFC 1321. *)
Definition md5_digest_with (len_field : Z) (msg : list Z) : list Z :=
  flat_map (le_bytes 4) (absorb calc (md5_H0, []) (pad (le_bytes 8 len_field) msg)).1.
Definition md5_code (msg : list Z) : list Z := md5_digest_with (u32 (8 * zlen msg)) msg.
Definition md5_rfc (msg : list Z) : list Z :=
  flat_map (le_bytes 4)
    (absorb rfc_calc (md5_H0, []) (pad (le_bytes 8 (u64 (8 * zlen msg))) msg)).1.

Lemma absorb_calc_rfc s m :
  length s.1 = 4%nat -> absorb calc s m = absorb rfc_calc s m.
Proof.
  revert s. induction m as [|b m IH]; intros [hv rest] Hs; [done|]. rewrite !absorb_cons.
  assert (E : absorb1 calc (hv, rest) b = absorb1 rfc_calc (hv, rest) b).
  { unfold absorb1. cbn [fst snd]. by rewrite calc_rfc. }
  rewrite <- E. apply IH. unfold absorb1. destruct (_ =? _)%nat; [apply length_calc|done].
Qed.

Lemma md5_code_rfc msg : zlen msg < 2 ^ 29 -> md5_code msg = md5_rfc msg.
Proof.
  intros Hlen. unfold md5_code, md5_rfc, md5_digest_with.
  rewrite absorb_calc_rfc by done. assert (0 <= zlen msg) by (unfold zlen; lia).
  by rewrite u32_id, u64_id by (unfold fits; lia).
Qed.

(** The interface, for the digest as coded; every initial context serves. *)
#[export] Program Instance md5_stream ctx0 (Hbuf : length (buf ctx0) = 64%nat) :
  StreamHash (md5_init ctx0) md5_update (fun c => fst (md5_final c)) md5_code := {
  repr c m := wf c /\ abs c = absorb calc (md5_H0, []) m /\ u32 (size c) = u32 (zlen m);
  chunk_max := 2 ^ 31;
  msg_max := 2 ^ 64;
}.
Next Obligation. intros ctx0 Hbuf. split; [by repeat split|]. split; reflexivity. Qed.
Next Obligation.
  intros ctx0 Hbuf c m chunk (Hwf & Ha & Hs) _ _. unfold md5_update.
  destruct (update_loop_absorb (length chunk) c chunk Hwf) as (U1 & U2 & U3); [done|].
  split; [done|]. split; [by rewrite U2, Ha, absorb_app|].
  rewrite U3. unfold zlen. rewrite length_app, Nat2Z.inj_add.
  unfold u32, zlen in *. rewrite <- Zplus_mod_idemp_l, Hs. by rewrite Zplus_mod_idemp_l.
Qed.
Next Obligation.
  intros ctx0 Hbuf c m (Hwf & Ha & Hs) _. unfold md5_final. cbn [fst md5_calc abcd].
  rewrite md5_pad_finish by done.
  unfold md5_code, md5_digest_with. rewrite absorb_pad by apply length_le_bytes.
  replace (u32 (8 * zlen m)) with (u32 (size c * 8)).
  { by rewrite <- Ha. }
  rewrite Z.mul_comm. unfold u32 in *. rewrite <- Zmult_mod_idemp_r, Hs.
  by rewrite Zmult_mod_idemp_r.
Qed.

(** ** Results *)

Definition stack_ctx : md5ctx :=
  {| abcd := []; buf := replicate 64 0xa5; cur := 17; size := 99 |}.
Definition abc : list Z := [97; 98; 99].
Definition abc_digest : list Z :=
  [0x90; 0x01; 0x50; 0x98; 0x3c; 0xd2; 0x4f; 0xb0; 0xd6; 0x96; 0x3f; 0x7d; 0x28; 0xe1; 0x7f; 0x72].

(** The block function, 64 statements written out with rotating registers, is
    the loop of RFC 1321: step i uses the function, the word, the shift and the
    constant floor(2^32 |sin(i+1)|) of the RFC, the sine being computed by its
    Taylor series. *)
Theorem md5_block_rfc (hv b : list Z) :
  length hv = 4%nat -> calc hv b = rfc_calc hv b.
Proof. apply calc_rfc. Qed.

Lemma md5_block_rfc_witness :
  calc md5_H0 (seqZ 0 64) = rfc_calc md5_H0 (seqZ 0 64) /\ T 0 = 0xd76aa478.
Proof. split; [by apply (md5_block_rfc md5_H0 (seqZ 0 64))|by vm_compute]. Defined.

(** C16: However a message is cut into md5_update calls, and whatever the context
    held before md5_init, md5_final computes the digest of the message with the
    length field taken modulo 2^32 bits; below 2^29 bytes this is the digest of
    RFC 1321, from there on the length field is that of the message length
    reduced modulo 2^29 bytes. *)
Theorem md5_streaming (ctx0 : md5ctx) (chunks : list (list Z)) :
  length (buf ctx0) = 64%nat ->
  Forall (Forall is_byte) chunks -> Forall (fun c => zlen c < 2 ^ 31) chunks ->
  zlen (concat chunks) < 2 ^ 64 ->
  let msg := concat chunks in
  let digest := fst (md5_final (fold_left md5_update chunks (md5_init ctx0))) in
  digest = md5_code msg /\
  (zlen msg < 2 ^ 29 -> digest = md5_rfc msg) /\
  digest = md5_digest_with (8 * (zlen msg mod 2 ^ 29)) msg.
Proof.
  intros Hbuf Hb Hl Hm msg digest.
  assert (E : digest = md5_code msg)
    by exact (stream_chunks (HS := md5_stream ctx0 Hbuf) chunks Hb Hl Hm).
  rewrite E. split; [done|]. split; [apply md5_code_rfc|].
  unfold md5_code, u32. change (2 ^ 32) with (8 * 2 ^ 29).
  by rewrite Z.mul_mod_distr_l by lia.
Qed.

Lemma md5_streaming_witness :
  md5 stack_ctx abc = abc_digest /\
  fst (md5_final (fold_left md5_update [[97]; [98; 99]] (md5_init stack_ctx))) = md5_rfc abc.
Proof.
  split; [by vm_compute|].
  refine (proj1 (proj2 (md5_streaming stack_ctx [[97]; [98; 99]] _ _ _ _)) _).
  - reflexivity.
  - repeat apply Forall_cons_2; try apply Forall_nil_2; unfold fits; lia.
  - repeat apply Forall_cons_2; try apply Forall_nil_2; reflexivity.
  - reflexivity.
  - reflexivity.
Defined.

(** The chunks a read loop consumes, and whether it ends in an error. *)
Fixpoint read_chunks (reads : list read_result) : list (list Z) * bool :=
  match reads with
  | Data chunk :: reads =>
      if 0 <? zlen chunk then
        let '(cs, e) := read_chunks reads in (chunk :: cs, e)
      else ([], false)
  | ReadError :: _ => ([], true)
  | _ => ([], false)
  end.

Lemma read_loop_chunks reads c :
  read_loop reads c =
    (fold_left md5_update (read_chunks reads).1 c, if (read_chunks reads).2 then -1 else 0).
Proof.
  revert c. induction reads as [|[chunk| |] reads IH]; intros c; cbn; try done.
  destruct (0 <? zlen chunk); [|done]. rewrite IH. by destruct (read_chunks reads).
Qed.

(** md5sum of a file: when the file cannot be opened the result is -1 and no
    hash is written; otherwise the hash is the digest of the bytes read before
    end of file or error, the result is 0 at end of file and -1 (with errno EIO
    in _md5sum) after a read error, and in every case no descriptor stays open. *)
Theorem md5sum_correct (ctx0 : md5ctx) (reads : list read_result) :
  let '(chunks, failed) := read_chunks reads in
  length (buf ctx0) = 64%nat ->
  Forall (Forall is_byte) chunks -> Forall (fun c => zlen c <= 64 * 1024) chunks ->
  zlen (concat chunks) < 2 ^ 29 ->
  let rc := if failed then -1 else 0 in
  md5sum ctx0 None = (-1, None, 0) /\
  md5sum ctx0 (Some reads) = (rc, Some (md5_rfc (concat chunks)), 0) /\
  _md5sum ctx0 reads =
    (rc, (if failed then Some EIO else None), md5_rfc (concat chunks)).
Proof.
  destruct (read_chunks reads) as [chunks failed] eqn:E. intros Hbuf Hb Hl Hm rc.
  assert (S : fst (md5_final (fold_left md5_update chunks (md5_init ctx0)))
    = md5_rfc (concat chunks)).
  { rewrite <- md5_code_rfc by done.
    apply (stream_chunks (HS := md5_stream ctx0 Hbuf)); [done| |cbn; lia].
    eapply Forall_impl; [exact Hl|]. cbn. lia. }
  assert (Sum : _md5sum ctx0 reads =
    (rc, (if failed then Some EIO else None), md5_rfc (concat chunks))).
  { unfold _md5sum. rewrite read_loop_chunks, E. cbn [fst snd]. rewrite S.
    unfold rc. by destruct failed. }
  split; [done|]. split; [|done]. unfold md5sum. by rewrite Sum.
Qed.

Lemma md5sum_correct_witness :
  md5sum stack_ctx (Some [Data [97]; Data [98; 99]; Eof]) = (0, Some abc_digest, 0) /\
  md5sum stack_ctx (Some [Data [97]; Data [98; 99]; ReadError]) = (-1, Some (md5_rfc abc), 0).
Proof.
  split; [by vm_compute|].
  refine (proj1 (proj2 (md5sum_correct stack_ctx [Data [97]; Data [98; 99]; ReadError] _ _ _ _))).
  - reflexivity.
  - repeat apply Forall_cons_2; try apply Forall_nil_2; unfold fits; lia.
  - repeat apply Forall_cons_2; try apply Forall_nil_2; unfold zlen; cbn; lia.
  - reflexivity.
Defined.

(** md5str and sha256str write two hexadecimal digits per byte and a NUL, and
    the digits read back as the digest. *)
Theorem digest_str_roundtrip (hash : list Z) :
  Forall is_byte hash ->
  zlen (md5str hash) = 2 * zlen hash + 1 /\ unhex_str (md5str hash) = hash /\
  List.last (md5str hash) 1 = 0.
Proof.
  intros Hh. unfold md5str. split; [apply hex_str_length|].
  split; [by apply unhex_hex_str|]. apply last_last.
Qed.

Lemma digest_str_roundtrip_witness :
  unhex_str (md5str abc_digest) = abc_digest /\ take 4 (md5str abc_digest) = [57; 48; 48; 49].
Proof.
  split; [|by vm_compute].
  apply (digest_str_roundtrip abc_digest). unfold abc_digest.
  repeat apply Forall_cons_2; try apply Forall_nil_2; unfold fits; lia.
Defined.

End Md5.
