(* ===== verification/Tea.v ===== *)
(** The Tiny Encryption Algorithm (tea.c): encryption in place of a buffer, a
    partial last block being padded with zeros, decryption, and the size of the
    encrypted data.  Decryption inverts encryption for every key. *)

From S2P Require Import Prelude.

Module Tea.

Definition TEA_BAG_SIZE : Z := 8.
Definition TEA_CONSTANT : Z := 0x9e3779b9.

(** ** Encryption *)

(** The three loop variables [sum], [v0] and [v1]. *)
Definition tea_state : Type := Z * Z * Z.

Definition encrypt_round (k : list Z) (st : tea_state) : tea_state :=
  let '(sum, v0, v1) := st in
  let sum := u32 (sum + TEA_CONSTANT) in
  let v0 := u32 (v0 + (u32 ((v1 .<< 4) + rd k 0) .^ u32 (v1 + sum) .^ u32 ((v1 .>> 5) + rd k 1))) in
  let v1 := u32 (v1 + (u32 ((v0 .<< 4) + rd k 2) .^ u32 (v0 + sum) .^ u32 ((v0 .>> 5) + rd k 3))) in
  (sum, v0, v1).

Definition encrypt_block (k : list Z) (v : Z * Z) : Z * Z :=
  let '(v0, v1) := v in
  let '(_, v0, v1) := Nat.iter 32 (encrypt_round k) (0, v0, v1) in
  (v0, v1).

(** The two words at the front of a buffer, and the bytes of two words. *)
Definition load (data : list Z) : Z * Z := (le_word data 0, le_word data 1).
Definition store (v : Z * Z) : list Z := le_bytes 4 v.1 ++ le_bytes 4 v.2.

(** The buffer after the call; [fuel] bounds the number of whole blocks. *)
Fixpoint tea_encrypt_loop (fuel : nat) (key data : list Z) (len : Z) : list Z :=
  match fuel with
  | O => data
  | S fuel =>
      if TEA_BAG_SIZE <=? len then
        store (encrypt_block key (load data))
          ++ tea_encrypt_loop fuel key (drop 8 data) (len - TEA_BAG_SIZE)
      else if 0 <? len then
        let v := take (Z.to_nat len) data ++ replicate (Z.to_nat (8 - len)) 0 in
        store (encrypt_block key (load v)) ++ drop 8 data
      else data
  end.

Definition tea_encrypt (key data : list Z) (len : Z) : list Z :=
  tea_encrypt_loop (Z.to_nat (len / 8) + 1) key data len.

Definition tea_bag_size (len : Z) : Z :=
  let mod_ := len .& (TEA_BAG_SIZE - 1) in
  if negb (mod_ =? 0) then s32 (len + (TEA_BAG_SIZE - mod_)) else len.

(** ** Decryption *)

Definition decrypt_round (k : list Z) (st : tea_state) : tea_state :=
  let '(sum, v0, v1) := st in
  let v1 := u32 (v1 - (u32 ((v0 .<< 4) + rd k 2) .^ u32 (v0 + sum) .^ u32 ((v0 .>> 5) + rd k 3))) in
  let v0 := u32 (v0 - (u32 ((v1 .<< 4) + rd k 0) .^ u32 (v1 + sum) .^ u32 ((v1 .>> 5) + rd k 1))) in
  let sum := u32 (sum - TEA_CONSTANT) in
  (sum, v0, v1).

Definition decrypt_block (k : list Z) (v : Z * Z) : Z * Z :=
  let '(v0, v1) := v in
  let '(_, v0, v1) := Nat.iter 32 (decrypt_round k) (0xC6EF3720, v0, v1) in
  (v0, v1).

Fixpoint tea_decrypt_loop (fuel : nat) (key v : list Z) (len : Z) : list Z :=
  match fuel with
  | O => v
  | S fuel =>
      if TEA_BAG_SIZE <=? len then
        store (decrypt_block key (load v))
          ++ tea_decrypt_loop fuel key (drop 8 v) (len - TEA_BAG_SIZE)
      else v
  end.

Definition tea_decrypt (key data : list Z) (len : Z) : list Z :=
  tea_decrypt_loop (Z.to_nat (len / 8) + 1) key data len.

(** ** Blocks *)

Definition st_words (st : tea_state) : Prop :=
  let '(sum, v0, v1) := st in is_u32 sum /\ is_u32 v0 /\ is_u32 v1.

Lemma u32_add_sub v x : is_u32 v -> u32 (u32 (v + x) - x) = v.
Proof.
  intros Hv. unfold u32. rewrite Zminus_mod_idemp_l.
  replace (v + x - x) with v by lia. by apply u32_id.
Qed.

Lemma encrypt_round_words k st : st_words st -> st_words (encrypt_round k st).
Proof. destruct st as [[sum v0] v1]. intros _. cbn. auto using fits_u32. Qed.

(** A round of decryption undoes a round of encryption. *)
Lemma decrypt_encrypt_round k st :
  st_words st -> decrypt_round k (encrypt_round k st) = st.
Proof.
  destruct st as [[sum v0] v1]. intros (Hs & H0 & H1).
  unfold encrypt_round, decrypt_round. by rewrite !u32_add_sub.
Qed.

Lemma encrypt_iter_words k n st : st_words st -> st_words (Nat.iter n (encrypt_round k) st).
Proof. intros Hst. induction n as [|n IH]; [done|]. by apply encrypt_round_words. Qed.

Lemma decrypt_encrypt_iter k n st :
  st_words st -> Nat.iter n (decrypt_round k) (Nat.iter n (encrypt_round k) st) = st.
Proof.
  intros Hst. induction n as [|n IH]; [done|].
  rewrite Nat.iter_succ_r, Nat.iter_succ, decrypt_encrypt_round; [done|].
  by apply encrypt_iter_words.
Qed.

(** The sum runs through the multiples of the constant, whatever the data. *)
Lemma encrypt_sum k n sum v0 v1 :
  is_u32 sum ->
  (Nat.iter n (encrypt_round k) (sum, v0, v1)).1.1 = u32 (sum + Z.of_nat n * TEA_CONSTANT).
Proof.
  intros Hs. induction n as [|n IH].
  - cbn. rewrite Z.add_0_r. by rewrite u32_id.
  - rewrite Nat.iter_succ.
    destruct (Nat.iter n (encrypt_round k) (sum, v0, v1)) as [[s a] b]. cbn in IH |- *.
    rewrite IH. unfold u32. rewrite Zplus_mod_idemp_l. f_equal. lia.
Qed.

Lemma decrypt_encrypt_block k v :
  is_u32 v.1 -> is_u32 v.2 -> decrypt_block k (encrypt_block k v) = v.
Proof.
  destruct v as [v0 v1]. cbn [fst snd]. intros H0 H1. unfold encrypt_block, decrypt_block.
  assert (Hst : st_words (0, v0, v1)) by (split; [by apply fits_0|done]).
  pose proof (decrypt_encrypt_iter k 32 _ Hst) as E.
  pose proof (encrypt_sum k 32 0 v0 v1 (fits_0 32 ltac:(lia))) as S.
  destruct (Nat.iter 32 (encrypt_round k) (0, v0, v1)) as [[s a] b].
  cbn [fst] in S. rewrite S in E.
  change (u32 (0 + Z.of_nat 32 * TEA_CONSTANT)) with 0xC6EF3720 in E. by rewrite E.
Qed.

Lemma encrypt_block_words k v : is_u32 (encrypt_block k v).1 /\ is_u32 (encrypt_block k v).2.
Proof.
  destruct v as [v0 v1]. unfold encrypt_block.
  rewrite Nat.iter_succ.
  destruct (Nat.iter 31 _ _) as [[s a] b]. cbn. auto using fits_u32.
Qed.

(** ** Buffers *)

Lemma length_store v : length (store v) = 8%nat.
Proof. unfold store. by rewrite length_app, !length_le_bytes. Qed.

Lemma load_store_words v rest : is_u32 v.1 -> is_u32 v.2 -> load (store v ++ rest) = v.
Proof.
  intros H1 H2. destruct v as [v1 v2]. cbn [fst snd] in *. unfold load.
  rewrite <- (le_word_bytes v1) at 3 by done. rewrite <- (le_word_bytes v2) at 3 by done. done.
Qed.

Lemma store_load_words b : Forall is_byte b -> length b = 8%nat -> store (load b) = b.
Proof.
  intros Hb Hlen. unfold store, load. cbn [fst snd].
  rewrite <- (take_drop 4 b) at 3.
  rewrite <- (le_bytes_word (take 4 b)), <- (le_bytes_word (drop 4 b))
    by (auto using Forall_take, Forall_drop; rewrite ?length_take, ?length_drop; lia).
  by do 9 (destruct b as [|? b]; try done).
Qed.

Lemma load_take data : load data = load (take 8 data).
Proof. by do 8 (destruct data as [|? data]; [done|]). Qed.

Lemma load_words b : Forall is_byte b -> is_u32 (load b).1 /\ is_u32 (load b).2.
Proof. intros Hb. split; by apply le_word_u32. Qed.

(** The buffer after encryption and decryption: the data padded with zeros. *)
Lemma tea_loops_inverse fuel k data len :
  Forall is_byte data -> 0 <= len -> (Z.to_nat (len / 8) < fuel)%nat ->
  8 * ((len + 7) / 8) <= zlen data ->
  tea_decrypt_loop (S fuel) k (tea_encrypt_loop fuel k data len) (8 * ((len + 7) / 8))
  = take (Z.to_nat len) data
    ++ replicate (Z.to_nat (8 * ((len + 7) / 8) - len)) 0
    ++ drop (Z.to_nat (8 * ((len + 7) / 8))) data.
Proof.
  revert data len. induction fuel as [|fuel IH]; intros data len Hb Hl Hf Hd; [lia|].
  assert (Hblock : forall b rest len', Forall is_byte b -> length b = 8%nat -> 8 <= len' ->
    tea_decrypt_loop (S (S fuel)) k (store (encrypt_block k (load b)) ++ rest) len'
    = b ++ tea_decrypt_loop (S fuel) k rest (len' - 8)).
  { intros b rest len' Hbb Hbl Hl'. cbn [tea_decrypt_loop]. unfold TEA_BAG_SIZE at 1 2.
    rewrite (proj2 (Z.leb_le _ _)) by lia.
    destruct (encrypt_block_words k (load b)) as [E1 E2].
    destruct (load_words b Hbb) as [L1 L2].
    rewrite load_store_words, decrypt_encrypt_block, store_load_words by done.
    rewrite drop_app_length' by by rewrite length_store. done. }
  cbn [tea_encrypt_loop]. unfold TEA_BAG_SIZE at 1 2.
  destruct (Z.leb_spec 8 len) as [Hge|Hlt]; [|destruct (Z.ltb_spec 0 len) as [Hpos|Hz]].
  - assert (E8 : (len - 8 + 7) / 8 = (len + 7) / 8 - 1)
      by (replace (len - 8 + 7) with (len + 7 + (-1) * 8) by lia; rewrite Z.div_add by lia; lia).
    assert (E8' : (len - 8) / 8 = len / 8 - 1)
      by (replace (len - 8) with (len + (-1) * 8) by lia; rewrite Z.div_add by lia; lia).
    assert (Hq : len <= 8 * ((len + 7) / 8))
      by (pose proof (Z.div_mod (len + 7) 8 ltac:(lia)); pose proof (Z.mod_pos_bound (len + 7) 8); lia).
    unfold zlen in Hd. assert (0 < len / 8) by (apply Z.div_str_pos; lia).
    rewrite (load_take data), Hblock
      by (auto using Forall_take; rewrite ?length_take; lia).
    replace (8 * ((len + 7) / 8) - 8) with (8 * ((len - 8 + 7) / 8)) by lia.
    rewrite IH by (auto using Forall_drop; unfold zlen; rewrite ?length_drop; lia).
    rewrite drop_drop, app_assoc. f_equal; [|f_equal; [f_equal; lia|f_equal; lia]].
    rewrite <- (take_drop 8 (take (Z.to_nat len) data)), take_take, skipn_firstn_comm.
    f_equal; [f_equal; lia|f_equal; lia].
  - assert (E : (len + 7) / 8 = 1) by (symmetry; apply (Z.div_unique _ _ _ (len - 1)); lia).
    rewrite E in *. unfold zlen in Hd.
    rewrite Hblock; [|apply Forall_app; split; [by apply Forall_take|
      apply Forall_replicate; by apply fits_0]|
      rewrite length_app, length_take, length_replicate; lia|lia].
    rewrite <- app_assoc. reflexivity.
  - assert (len = 0) by lia. subst len. reflexivity.
Qed.

Lemma tea_bag_size_ceil len :
  - 2 ^ 31 <= len <= 2 ^ 31 - 8 -> tea_bag_size len = 8 * ((len + 7) / 8).
Proof.
  intros Hl. unfold tea_bag_size, TEA_BAG_SIZE.
  change (8 - 1) with (Z.ones 3). rewrite Z.land_ones by lia. change (2 ^ 3) with 8.
  pose proof (Z.div_mod len 8 ltac:(lia)) as E. pose proof (Z.mod_pos_bound len 8 ltac:(lia)) as B.
  destruct (Z.eqb_spec (len mod 8) 0) as [E0|E0]; cbn [negb].
  - replace ((len + 7) / 8) with (len / 8); [lia|].
    apply (Z.div_unique _ _ _ 7); lia.
  - unfold s32. rewrite Z.mod_small by lia.
    replace ((len + 7) / 8) with (len / 8 + 1); [lia|].
    apply (Z.div_unique _ _ _ (len mod 8 - 1)); lia.
Qed.

(** More fuel than blocks changes nothing. *)
Lemma tea_decrypt_fuel f1 f2 k v len :
  (Z.to_nat (len / 8) < f1)%nat -> (Z.to_nat (len / 8) < f2)%nat ->
  tea_decrypt_loop f1 k v len = tea_decrypt_loop f2 k v len.
Proof.
  revert f2 v len. induction f1 as [|f1 IH]; intros [|f2] v len H1 H2; try lia.
  cbn [tea_decrypt_loop]. unfold TEA_BAG_SIZE.
  destruct (Z.leb_spec 8 len) as [Hge|]; [|done]. f_equal.
  assert ((len - 8) / 8 = len / 8 - 1)
    by (replace (len - 8) with (len + (-1) * 8) by lia; rewrite Z.div_add by lia; lia).
  assert (0 < len / 8) by (apply Z.div_str_pos; lia). apply IH; lia.
Qed.

(** ** Results *)

(** Decrypting, over the size given by tea_bag_size, a buffer encrypted by
    tea_encrypt gives back the data, the rest of its last 8-byte block cleared and
    everything after it untouched, for every key and length; in particular a
    length that is a multiple of 8 gives back the data exactly. *)
Theorem tea_roundtrip (key data : list Z) (len : Z) :
  Forall is_byte data -> 0 <= len -> tea_bag_size len <= zlen data -> len < 2 ^ 31 - 8 ->
  tea_decrypt key (tea_encrypt key data len) (tea_bag_size len)
  = take (Z.to_nat len) data ++ replicate (Z.to_nat (tea_bag_size len - len)) 0
    ++ drop (Z.to_nat (tea_bag_size len)) data.
Proof.
  intros Hb Hl Hd Hmax. rewrite tea_bag_size_ceil in * by lia.
  unfold tea_encrypt, tea_decrypt.
  pose proof (tea_loops_inverse (Z.to_nat (len / 8) + 1) key data len Hb Hl ltac:(lia) Hd) as E.
  rewrite <- E. apply tea_decrypt_fuel.
  - rewrite Z.mul_comm, Z.div_mul by lia. lia.
  - rewrite Z.mul_comm, Z.div_mul by lia.
    assert ((len + 7) / 8 < len / 8 + 2) by (apply Z.div_lt_upper_bound;
      pose proof (Z.div_mod len 8 ltac:(lia)); pose proof (Z.mod_pos_bound len 8); lia).
    assert (0 <= len / 8) by (apply Z.div_pos; lia). lia.
Qed.

Lemma tea_roundtrip_witness :
  let key := [1; 2; 3; 4] in
  let data := seqZ 10 20 in
  tea_decrypt key (tea_encrypt key data 11) 16
  = [10; 11; 12; 13; 14; 15; 16; 17; 18; 19; 20; 0; 0; 0; 0; 0; 26; 27; 28; 29] /\
  bool_decide (tea_encrypt key data 11 = data) = false.
Proof.
  intros key data. split; [|by vm_compute].
  refine (tea_roundtrip key data 11 _ _ _ _); [|lia|by vm_compute|lia].
  apply List.Forall_forall. intros x Hx. apply list_elem_of_In, elem_of_seqZ in Hx.
  unfold fits. lia.
Defined.

(** tea_bag_size rounds up to the next multiple of 8: for every int that does
    not overflow, negative ones included, the result is the least multiple of 8
    that is not below the length. *)
Theorem tea_bag_size_correct (len : Z) :
  - 2 ^ 31 <= len <= 2 ^ 31 - 8 ->
  tea_bag_size len mod 8 = 0 /\ len <= tea_bag_size len < len + 8.
Proof.
  intros Hl. rewrite tea_bag_size_ceil by lia. split.
  - rewrite Z.mul_comm. by apply Z.mod_mul.
  - pose proof (Z.div_mod (len + 7) 8 ltac:(lia)). pose proof (Z.mod_pos_bound (len + 7) 8). lia.
Qed.

Lemma tea_bag_size_correct_witness :
  tea_bag_size 13 = 16 /\ tea_bag_size 13 mod 8 = 0.
Proof. split; [done|]. apply (tea_bag_size_correct 13). lia. Defined.

End Tea.
