(* ===== verification/Base64.v ===== *)
(** Base64 (base64.c): the encoder for the standard and URL-safe alphabets, the
    decoder that accepts both, and the two length functions.  Buffers are lists
    of byte values; a call returns its result and the bytes it wrote. *)

From S2P Require Import Prelude.

Module Base64.

(** ** Tables *)

(** The first 62 letters are fixed; base64_encode sets the last two. *)
Definition alphabet (base64url_safe : bool) : list Z :=
  [65; 66; 67; 68; 69; 70; 71; 72; 73; 74; 75; 76; 77; 78; 79; 80;
   81; 82; 83; 84; 85; 86; 87; 88; 89; 90; 97; 98; 99; 100; 101; 102;
   103; 104; 105; 106; 107; 108; 109; 110; 111; 112; 113; 114; 115; 116; 117; 118;
   119; 120; 121; 122; 48; 49; 50; 51; 52; 53; 54; 55; 56; 57]
  ++ if base64url_safe then [45; 95] else [43; 47].

Definition reverse : list Z :=
  [0xff; 0xff; 0xff; 0xff; 0xff; 0xff; 0xff; 0xff;
   0xff; 0xff; 0xff; 0xff; 0xff; 0xff; 0xff; 0xff;
   0xff; 0xff; 0xff; 0xff; 0xff; 0xff; 0xff; 0xff;
   0xff; 0xff; 0xff; 0xff; 0xff; 0xff; 0xff; 0xff;
   0xff; 0xff; 0xff; 0xff; 0xff; 0xff; 0xff; 0xff;
   0xff; 0xff; 0xff; 0x3e; 0xff; 0x3e; 0xff; 0x3f;
   0x34; 0x35; 0x36; 0x37; 0x38; 0x39; 0x3a; 0x3b;
   0x3c; 0x3d; 0xff; 0xff; 0xff; 0xff; 0xff; 0xff;
   0xff; 0x00; 0x01; 0x02; 0x03; 0x04; 0x05; 0x06;
   0x07; 0x08; 0x09; 0x0a; 0x0b; 0x0c; 0x0d; 0x0e;
   0x0f; 0x10; 0x11; 0x12; 0x13; 0x14; 0x15; 0x16;
   0x17; 0x18; 0x19; 0xff; 0xff; 0xff; 0xff; 0x3f;
   0xff; 0x1a; 0x1b; 0x1c; 0x1d; 0x1e; 0x1f; 0x20;
   0x21; 0x22; 0x23; 0x24; 0x25; 0x26; 0x27; 0x28;
   0x29; 0x2a; 0x2b; 0x2c; 0x2d; 0x2e; 0x2f; 0x30;
   0x31; 0x32; 0x33; 0xff; 0xff; 0xff; 0xff; 0xff].

Definition pad : Z := 61.

(** ** Encoding *)

(** Encode 3 bytes into 4 characters. *)
Definition encode_block (url : bool) (s0 s1 s2 : Z) : list Z :=
  [rd (alphabet url) (s0 .>> 2);
   rd (alphabet url) (((s0 .<< 4) .& 0x30) .| (s1 .>> 4));
   rd (alphabet url) (((s1 .<< 2) .& 0x3c) .| (s2 .>> 6));
   rd (alphabet url) (s2 .& 0x3f)].

Definition base64_encoded_len (len : Z) : Z := s32 (Z.quot (s32 (len + 2)) 3 * 4).

(** The characters written before the NUL. *)
Fixpoint encode_loop (url : bool) (src : list Z) : list Z :=
  match src with
  | s0 :: s1 :: s2 :: src => encode_block url s0 s1 s2 ++ encode_loop url src
  | [s0] => wr (wr (encode_block url s0 0 0) 3 pad) 2 pad
  | [s0; s1] => wr (encode_block url s0 s1 0) 3 pad
  | [] => []
  end.

(** The count of characters and the bytes written to [dst]. *)
Definition base64_encode (base64url_safe : bool) (dlen : Z) (src : list Z) : Z * list Z :=
  if dlen <=? base64_encoded_len (zlen src) then (-1, [])
  else
    let dst := encode_loop base64url_safe src in
    (zlen dst, dst ++ [0]).

(** ** Decoding *)

(** The loop over the four characters: [i] and the values stored in [block],
    or [None] for an illegal character. *)
Fixpoint decode_chars (src : list Z) (i : Z) (block : list Z) : option (Z * list Z) :=
  match src with
  | [] => Some (i, block)
  | c :: src =>
      if c =? pad then Some (i, block)
      else
        let v := rd reverse (c .& 0x7f) in
        if v =? 0xff then None else decode_chars src (i + 1) (wr block i v)
  end.

(** Decode 4 characters into at most 3 bytes: the result and the bytes stored.
    [junk] is the uninitialised local array [block]. *)
Definition decode_block (junk src : list Z) : Z * list Z :=
  match decode_chars src 0 junk with
  | None => (-1, [])
  | Some (i, block) =>
      (i - 1,
       [((rd block 0 .<< 2) .& 0xfc) .| ((rd block 1 .>> 4) .& 3)]
       ++ (if 2 <? i then [((rd block 1 .<< 4) .& 0xf0) .| ((rd block 2 .>> 2) .& 0xf)] else [])
       ++ (if 3 <? i then [((rd block 2 .<< 6) .& 0xc0) .| (rd block 3 .& 0x3f)] else []))
  end.

Definition base64_decoded_len (len : Z) : Z := Z.quot len 4 * 3.

(** The loop over the blocks: the result and the bytes below the final [dst]. *)
Fixpoint decode_loop (fuel : nat) (junk src : list Z) : Z * list Z :=
  match fuel with
  | O => (0, [])
  | S fuel =>
      if 4 <=? zlen src then
        let '(n, out) := decode_block junk (take 4 src) in
        if n =? -1 then (-1, [])
        else
          let '(cnt, rest) := decode_loop fuel junk (drop 4 src) in
          if cnt =? -1 then (-1, []) else (n + cnt, take (Z.to_nat n) out ++ rest)
      else (0, [])
  end.

(** The result and the decoded bytes; 0 on invalid input. *)
Definition base64_decode (junk : list Z) (dlen : Z) (src : list Z) : Z * list Z :=
  if dlen <? base64_decoded_len (zlen src) then (-1, [])
  else
    let '(cnt, out) := decode_loop (length src) junk src in
    if cnt =? -1 then (0, []) else (cnt, out).

(** ** Letters *)

Lemma decode_letter url i :
  0 <= i < 64 ->
  rd reverse (rd (alphabet url) i .& 0x7f) = i /\ rd (alphabet url) i <> pad.
Proof.
  intros Hi.
  assert (E : forallb (fun i => bool_decide (rd reverse (rd (alphabet url) i .& 0x7f) = i /\
    rd (alphabet url) i <> pad)) (seqZ 0 64) = true) by by destruct url; vm_compute.
  rewrite forallb_forall in E.
  apply (bool_decide_eq_true_1 (_ = i /\ _)), E, list_elem_of_In, elem_of_seqZ. lia.
Qed.

(** The sextets of three bytes. *)
Definition sextet1 (s0 s1 : Z) : Z := ((s0 .<< 4) .& 0x30) .| (s1 .>> 4).
Definition sextet2 (s1 s2 : Z) : Z := ((s1 .<< 2) .& 0x3c) .| (s2 .>> 6).



Lemma sextet1_range s0 s1 : is_byte s0 -> is_byte s1 -> 0 <= sextet1 s0 s1 < 64.
Proof.
  apply (@byte_forall2 (fun s0 s1 => 0 <= sextet1 s0 s1 < 64) (fun _ _ => and_dec _ _)).
  by vm_compute.
Qed.

Lemma sextet2_range s1 s2 : is_byte s1 -> is_byte s2 -> 0 <= sextet2 s1 s2 < 64.
Proof.
  apply (@byte_forall2 (fun s0 s1 => 0 <= sextet2 s0 s1 < 64) (fun _ _ => and_dec _ _)).
  by vm_compute.
Qed.

Lemma decode_byte0 s0 s1 :
  is_byte s0 -> is_byte s1 ->
  (((s0 .>> 2) .<< 2) .& 0xfc) .| ((sextet1 s0 s1 .>> 4) .& 3) = s0.
Proof.
  apply (@byte_forall2 (fun s0 s1 =>
    (((s0 .>> 2) .<< 2) .& 0xfc) .| ((sextet1 s0 s1 .>> 4) .& 3) = s0) (fun _ _ => Z.eq_dec _ _)).
  by vm_compute.
Qed.

Lemma decode_byte1_high s0 s1 :
  is_byte s0 -> is_byte s1 -> (sextet1 s0 s1 .<< 4) .& 0xf0 = s1 .& 0xf0.
Proof.
  apply (@byte_forall2 (fun s0 s1 => (sextet1 s0 s1 .<< 4) .& 0xf0 = s1 .& 0xf0)
    (fun _ _ => Z.eq_dec _ _)).
  by vm_compute.
Qed.

Lemma decode_byte1_low s1 s2 :
  is_byte s1 -> is_byte s2 -> (sextet2 s1 s2 .>> 2) .& 0xf = s1 .& 0xf.
Proof.
  apply (@byte_forall2 (fun s1 s2 => (sextet2 s1 s2 .>> 2) .& 0xf = s1 .& 0xf)
    (fun _ _ => Z.eq_dec _ _)).
  by vm_compute.
Qed.

Lemma decode_byte1 s0 s1 s2 :
  is_byte s0 -> is_byte s1 -> is_byte s2 ->
  ((sextet1 s0 s1 .<< 4) .& 0xf0) .| ((sextet2 s1 s2 .>> 2) .& 0xf) = s1.
Proof.
  intros H0 H1 H2. rewrite decode_byte1_high, decode_byte1_low by done.
  revert H1. by apply (byte_forall (fun s1 => (s1 .& 0xf0) .| (s1 .& 0xf) = s1)).
Qed.

Lemma decode_byte2 s1 s2 :
  is_byte s1 -> is_byte s2 ->
  ((sextet2 s1 s2 .<< 6) .& 0xc0) .| ((s2 .& 0x3f) .& 0x3f) = s2.
Proof.
  apply (@byte_forall2 (fun s1 s2 =>
    ((sextet2 s1 s2 .<< 6) .& 0xc0) .| ((s2 .& 0x3f) .& 0x3f) = s2) (fun _ _ => Z.eq_dec _ _)).
  by vm_compute.
Qed.

(** ** Blocks *)

Lemma decode_letter_step url i src k block :
  0 <= i < 64 ->
  decode_chars (rd (alphabet url) i :: src) k block = decode_chars src (k + 1) (wr block k i).
Proof.
  intros Hi. destruct (decode_letter url i Hi) as [E1 E2]. cbn [decode_chars].
  rewrite (proj2 (Z.eqb_neq _ _) E2), E1. by rewrite (proj2 (Z.eqb_neq i 0xff)) by lia.
Qed.

Lemma byte_sextets s : is_byte s -> 0 <= s .>> 2 < 64 /\ 0 <= s .& 0x3f < 64.
Proof.
  by apply (byte_forall (fun s => 0 <= s .>> 2 < 64 /\ 0 <= s .& 0x3f < 64)).
Qed.

Ltac decode_letters :=
  rewrite !decode_letter_step
    by first [by apply byte_sextets | apply sextet1_range; fits_auto
             | apply sextet2_range; fits_auto].

(** Lists taken three at a time. *)
Lemma list_ind3 (P : list Z -> Prop) :
  P [] -> (forall a, P [a]) -> (forall a b, P [a; b]) ->
  (forall a b c l, P l -> P (a :: b :: c :: l)) -> forall l, P l.
Proof.
  intros H0 H1 H2 H3.
  assert (H : forall n l, (length l < n)%nat -> P l).
  { induction n as [|n IH]; intros [|a [|b [|c l]]] Hl; try done; cbn in Hl; try lia.
    apply H3, IH. lia. }
  intros l. by apply (H (S (length l))); lia.
Qed.

Lemma encode_loop_length url src : zlen (encode_loop url src) = (zlen src + 2) / 3 * 4.
Proof.
  unfold zlen. induction src as [|a|a b|a b c src IH] using list_ind3; try reflexivity.
  cbn [encode_loop encode_block app length]. cbn [length] in IH.
  replace (Z.of_nat (S (S (S (length src)))) + 2) with (Z.of_nat (length src) + 2 + 1 * 3) by lia.
  rewrite Z.div_add by lia. lia.
Qed.

Section Blocks.
Context (url : bool) (junk : list Z) (Hjunk : length junk = 4%nat).

Lemma decode_encode_3 s0 s1 s2 :
  is_byte s0 -> is_byte s1 -> is_byte s2 ->
  decode_block junk (encode_block url s0 s1 s2) = (3, [s0; s1; s2]).
Proof using Hjunk.
  intros H0 H1 H2. destruct junk as [|j0 [|j1 [|j2 [|j3 [|]]]]]; try done.
  unfold decode_block, encode_block. fold (sextet1 s0 s1) (sextet2 s1 s2). decode_letters.
  transitivity (3, [(((s0 .>> 2) .<< 2) .& 0xfc) .| ((sextet1 s0 s1 .>> 4) .& 3);
                    ((sextet1 s0 s1 .<< 4) .& 0xf0) .| ((sextet2 s1 s2 .>> 2) .& 0xf);
                    ((sextet2 s1 s2 .<< 6) .& 0xc0) .| ((s2 .& 0x3f) .& 0x3f)]);
    [reflexivity|]. by rewrite decode_byte0, decode_byte1, decode_byte2.
Qed.

Lemma decode_encode_2 s0 s1 :
  is_byte s0 -> is_byte s1 ->
  decode_block junk (wr (encode_block url s0 s1 0) 3 pad) = (2, [s0; s1]).
Proof using Hjunk.
  intros H0 H1. destruct junk as [|j0 [|j1 [|j2 [|j3 [|]]]]]; try done.
  unfold decode_block, encode_block. fold (sextet1 s0 s1) (sextet2 s1 0).
  change (wr [?a; ?b; ?c; ?d] 3 pad) with [a; b; c; pad]. decode_letters.
  transitivity (2, [(((s0 .>> 2) .<< 2) .& 0xfc) .| ((sextet1 s0 s1 .>> 4) .& 3);
                    ((sextet1 s0 s1 .<< 4) .& 0xf0) .| ((sextet2 s1 0 .>> 2) .& 0xf)]);
    [reflexivity|]. by rewrite decode_byte0, decode_byte1 by fits_auto.
Qed.

Lemma decode_encode_1 s0 :
  is_byte s0 -> decode_block junk (wr (wr (encode_block url s0 0 0) 3 pad) 2 pad) = (1, [s0]).
Proof using Hjunk.
  intros H0. destruct junk as [|j0 [|j1 [|j2 [|j3 [|]]]]]; try done.
  unfold decode_block, encode_block. fold (sextet1 s0 0).
  change (wr (wr [?a; ?b; ?c; ?d] 3 pad) 2 pad) with [a; b; pad; pad]. decode_letters.
  transitivity (1, [(((s0 .>> 2) .<< 2) .& 0xfc) .| ((sextet1 s0 0 .>> 4) .& 3)]);
    [reflexivity|]. by rewrite decode_byte0 by fits_auto.
Qed.

Lemma decode_encode_loop src fuel :
  Forall is_byte src -> (length src < fuel)%nat ->
  decode_loop fuel junk (encode_loop url src) = (zlen src, src).
Proof using Hjunk.
  revert fuel. induction src as [|a|a b|a b c src IH] using list_ind3;
    intros fuel Hb Hf; rewrite ?Forall_cons in Hb; destruct_and?.
  - by destruct fuel.
  - destruct fuel as [|[|fuel]]; cbn in Hf; try lia. cbn [encode_loop decode_loop].
    rewrite take_ge by (rewrite !length_wr; cbn; lia).
    rewrite decode_encode_1 by done. reflexivity.
  - destruct fuel as [|[|fuel]]; cbn in Hf; try lia. cbn [encode_loop decode_loop].
    rewrite take_ge by (rewrite !length_wr; cbn; lia).
    rewrite decode_encode_2 by done. reflexivity.
  - destruct fuel as [|fuel]; cbn in Hf; try lia. cbn [encode_loop decode_loop].
    assert (Hl : length (encode_block url a b c) = 4%nat) by done.
    rewrite (proj2 (Z.leb_le _ _)) by (unfold zlen; rewrite length_app; lia).
    rewrite take_app_length', drop_app_length' by done.
    rewrite decode_encode_3 by done. cbn [Z.eqb Pos.eqb]. rewrite IH by (done || lia).
    unfold zlen. rewrite (proj2 (Z.eqb_neq _ _)) by lia.
    cbn [length take Z.to_nat Pos.to_nat Pos.iter_op Nat.add app]. f_equal. lia.
Qed.
End Blocks.

(** The number of bytes of a block is at most three. *)
Lemma decode_chars_count src i block :
  match decode_chars src i block with Some (j, _) => i <= j <= i + zlen src | None => True end.
Proof.
  unfold zlen. revert i block. induction src as [|c src IH]; intros i block; cbn [decode_chars length].
  - lia.
  - destruct (c =? pad); [lia|]. destruct (_ =? 0xff); [done|].
    specialize (IH (i + 1) (wr block i (rd reverse (c .& 0x7f)))).
    destruct (decode_chars _ _ _) as [[j b]|]; [lia|done].
Qed.

Lemma decode_loop_bound fuel junk src : (decode_loop fuel junk src).1 <= 3 * (zlen src / 4).
Proof.
  assert (P : forall l : list Z, 0 <= zlen l / 4) by (intros; apply Z.div_pos; unfold zlen; lia).
  revert src. induction fuel as [|fuel IH]; intros src; cbn [decode_loop].
  { specialize (P src). cbn [fst]. lia. }
  destruct (Z.leb_spec 4 (zlen src)) as [H4|]; [|specialize (P src); cbn [fst]; lia].
  assert (E : zlen (drop 4 src) / 4 = zlen src / 4 - 1).
  { unfold zlen in *. rewrite length_drop.
    replace (Z.of_nat (length src - 4)) with (Z.of_nat (length src) + (-1) * 4) by lia.
    rewrite Z.div_add by lia. lia. }
  assert (B : (decode_block junk (take 4 src)).1 <= 3).
  { unfold decode_block. pose proof (decode_chars_count (take 4 src) 0 junk) as C.
    destruct (decode_chars _ _ _) as [[j b]|]; cbn [fst]; [|lia].
    unfold zlen in C. rewrite length_take in C. lia. }
  destruct (decode_block junk (take 4 src)) as [n out]. cbn [fst] in B.
  destruct (n =? -1); [specialize (P src); cbn [fst]; lia|].
  specialize (IH (drop 4 src)). rewrite E in IH.
  destruct (decode_loop fuel junk (drop 4 src)) as [cnt rest]. cbn [fst] in IH.
  destruct (cnt =? -1); cbn [fst]; specialize (P src); lia.
Qed.

(** The sextets as digits in base 64. *)
Lemma sextet1_arith s0 s1 : is_byte s0 -> is_byte s1 -> sextet1 s0 s1 = s0 mod 4 * 16 + s1 / 16.
Proof.
  apply (@byte_forall2 (fun s0 s1 => sextet1 s0 s1 = s0 mod 4 * 16 + s1 / 16)
    (fun _ _ => Z.eq_dec _ _)).
  by vm_compute.
Qed.

Lemma sextet2_arith s1 s2 : is_byte s1 -> is_byte s2 -> sextet2 s1 s2 = s1 mod 16 * 4 + s2 / 64.
Proof.
  apply (@byte_forall2 (fun s1 s2 => sextet2 s1 s2 = s1 mod 16 * 4 + s2 / 64)
    (fun _ _ => Z.eq_dec _ _)).
  by vm_compute.
Qed.

Lemma sextets_arith s0 s1 s2 :
  is_byte s0 -> is_byte s1 -> is_byte s2 ->
  let n := s0 * 2 ^ 16 + s1 * 2 ^ 8 + s2 in
  s0 .>> 2 = n / 2 ^ 18 mod 64 /\ sextet1 s0 s1 = n / 2 ^ 12 mod 64 /\
  sextet2 s1 s2 = n / 2 ^ 6 mod 64 /\ s2 .& 0x3f = n / 2 ^ 0 mod 64.
Proof.
  intros H0 H1 H2 n. rewrite sextet1_arith, sextet2_arith, Z.shiftr_div_pow2 by (done || lia).
  change 0x3f with (Z.ones 6). rewrite Z.land_ones by lia. unfold fits in *.
  change (2 ^ 2) with 4. change (2 ^ 6) with 64. change (2 ^ 8) with 256 in *.
  change (2 ^ 12) with 4096. change (2 ^ 18) with 262144. change (2 ^ 0) with 1.
  unfold n. change (2 ^ 16) with 65536. Z.to_euclidean_division_equations. lia.
Qed.

(** ** Results *)

(** C27: Base64 round trip: with room for the text and its NUL, base64_encode writes
    4 characters for every started group of 3 bytes, with either alphabet, and
    stays within dlen; base64_decode of those characters returns the length of
    the source and its bytes, whatever its uninitialised local array holds. *)
Theorem base64_roundtrip (url : bool) (junk src : list Z) (dlen dlen' : Z) :
  length junk = 4%nat -> Forall is_byte src -> zlen src < 2 ^ 30 ->
  base64_encoded_len (zlen src) < dlen ->
  let '(cnt, dst) := base64_encode url dlen src in
  cnt = base64_encoded_len (zlen src) /\ cnt = (zlen src + 2) / 3 * 4 /\
  zlen dst = cnt + 1 /\ zlen dst <= dlen /\
  (base64_decoded_len cnt <= dlen' ->
     base64_decode junk dlen' (take (Z.to_nat cnt) dst) = (zlen src, src)).
Proof.
  intros Hj Hb Hlen Hd. unfold base64_encode.
  rewrite (proj2 (Z.leb_gt _ _)) by done.
  pose proof (encode_loop_length url src) as El.
  assert (H0 : 0 <= zlen src) by (unfold zlen; lia).
  assert (Ee : base64_encoded_len (zlen src) = (zlen src + 2) / 3 * 4).
  { unfold base64_encoded_len. assert (E : s32 (zlen src + 2) = zlen src + 2)
      by (unfold s32; rewrite Z.mod_small; lia).
    rewrite E, Z.quot_div_nonneg by lia.
    assert ((zlen src + 2) / 3 < 2 ^ 29) by (apply Z.div_lt_upper_bound; lia).
    assert (0 <= (zlen src + 2) / 3) by (apply Z.div_pos; lia).
    unfold s32. rewrite Z.mod_small; lia. }
  split; [by rewrite Ee|]. split; [done|].
  assert (Ez : zlen (encode_loop url src ++ [0]) = zlen (encode_loop url src) + 1)
    by (unfold zlen; rewrite length_app; cbn; lia).
  split; [done|]. split; [lia|]. intros Hd'.
  rewrite take_app_length' by (unfold zlen; lia). unfold base64_decode.
  rewrite (proj2 (Z.ltb_ge _ _)) by done.
  destruct (decide (src = [])) as [->|Hne]; [done|].
  rewrite decode_encode_loop; [|done..|].
  - by rewrite (proj2 (Z.eqb_neq (zlen src) (-1))) by lia.
  - destruct src; [done|]. apply Nat2Z.inj_lt. fold (zlen (encode_loop url (z :: src))).
    rewrite El. unfold zlen in *. cbn [length] in *.
    assert (Z.of_nat (S (length src)) + 2 <= (Z.of_nat (S (length src)) + 2) / 3 * 3 + 2)
      by (pose proof (Z.div_mod (Z.of_nat (S (length src)) + 2) 3 ltac:(lia));
          pose proof (Z.mod_pos_bound (Z.of_nat (S (length src)) + 2) 3); lia).
    lia.
Qed.

Lemma base64_roundtrip_witness :
  base64_encode false 9 [102; 111; 111; 98] = (8, [90; 109; 57; 118; 89; 103; 61; 61; 0]) /\
  base64_decode [7; 7; 7; 7] 6 [90; 109; 57; 118; 89; 103; 61; 61] = (4, [102; 111; 111; 98]).
Proof.
  split; [reflexivity|].
  refine (proj2 (proj2 (proj2 (proj2
    (base64_roundtrip false [7; 7; 7; 7] [102; 111; 111; 98] 9 6 _ _ _ _)))) _).
  - reflexivity.
  - repeat apply Forall_cons_2; try apply Forall_nil_2; unfold fits; lia.
  - reflexivity.
  - reflexivity.
  - by vm_compute.
Defined.

(** encode_block is the RFC 4648 encoding: the four letters are those of the
    four 6-bit groups, most significant first, of the 24-bit number made of the
    three bytes. *)
Theorem encode_block_rfc (url : bool) (s0 s1 s2 : Z) :
  is_byte s0 -> is_byte s1 -> is_byte s2 ->
  let n := s0 * 2 ^ 16 + s1 * 2 ^ 8 + s2 in
  encode_block url s0 s1 s2 =
    map (fun i => rd (alphabet url) (n / 2 ^ (6 * (3 - i)) mod 64)) [0; 1; 2; 3].
Proof.
  intros H0 H1 H2 n. destruct (sextets_arith s0 s1 s2 H0 H1 H2) as (E0 & E1 & E2 & E3).
  unfold encode_block. rewrite E0, E3. fold (sextet1 s0 s1) (sextet2 s1 s2). by rewrite E1, E2.
Qed.

Lemma encode_block_rfc_witness :
  encode_block true 0xfb 0xff 0xfe = [45; 95; 95; 45] /\
  encode_block true 0xfb 0xff 0xfe =
    map (fun i => rd (alphabet true) (0xfbfffe / 2 ^ (6 * (3 - i)) mod 64)) [0; 1; 2; 3].
Proof. split; [reflexivity|]. apply (encode_block_rfc true 0xfb 0xff 0xfe); unfold fits; lia. Defined.

(** Errors: base64_encode writes nothing and returns -1 unless the text and its
    NUL fit; base64_decode returns -1 when the bytes of whole groups may not fit,
    0 on an illegal character in the first group, and never a count above the
    decoded length it announces. *)
Theorem base64_errors (url : bool) (junk src : list Z) (dlen : Z) :
  (dlen <= base64_encoded_len (zlen src) -> base64_encode url dlen src = (-1, [])) /\
  (dlen < base64_decoded_len (zlen src) -> base64_decode junk dlen src = (-1, [])) /\
  (4 <= zlen src -> base64_decoded_len (zlen src) <= dlen ->
     decode_chars (take 4 src) 0 junk = None -> base64_decode junk dlen src = (0, [])) /\
  (base64_decode junk dlen src).1 <= base64_decoded_len (zlen src).
Proof.
  split; [|split; [|split]].
  - intros H. unfold base64_encode. by rewrite (proj2 (Z.leb_le _ _)).
  - intros H. unfold base64_decode. by rewrite (proj2 (Z.ltb_lt _ _)).
  - intros H4 Hd Hn. unfold base64_decode. rewrite (proj2 (Z.ltb_ge _ _)) by done.
    destruct src as [|c src]; [done|]. cbn [length decode_loop].
    rewrite (proj2 (Z.leb_le _ _)) by done. unfold decode_block. by rewrite Hn.
  - unfold base64_decode, base64_decoded_len. rewrite Z.quot_div_nonneg by (unfold zlen; lia).
    destruct (_ <? _); [cbn; assert (0 <= zlen src / 4)
      by (apply Z.div_pos; unfold zlen; lia); lia|].
    pose proof (decode_loop_bound (length src) junk src) as B.
    destruct (decode_loop _ _ _) as [cnt out]. cbn [fst] in B.
    assert (0 <= zlen src / 4) by (apply Z.div_pos; unfold zlen; lia).
    destruct (cnt =? -1); cbn; lia.
Qed.

Lemma base64_errors_witness :
  base64_decode [0; 0; 0; 0] 3 [65; 33; 65; 65] = (0, []) /\
  base64_encode false 4 [1; 2; 3] = (-1, []).
Proof.
  split.
  - by apply (base64_errors false [0; 0; 0; 0] [65; 33; 65; 65] 3).
  - by apply (base64_errors false [0; 0; 0; 0] [1; 2; 3] 4).
Defined.

End Base64.
