(* ===== verification/Binary.v ===== *)
(** The dump of a buffer (binary.c): lines of sixteen bytes, each with its address, the bytes in
    hexadecimal and the bytes as characters.  The dump is read back. *)

From S2P Require Import Prelude Hash.

Module Binary.

(** ** printf, as far as it is used here *)

Definition hexit (d : Z) : Z := if d <? 10 then 48 + d else 87 + d.

(** An unsigned int in hexadecimal: eight digits at most. *)
Fixpoint digits (fuel : nat) (n : Z) : list Z :=
  match fuel with
  | O => []
  | S fuel => (if n <? 16 then [] else digits fuel (n / 16)) ++ [hexit (n mod 16)]
  end.

(** %*x, and %02x with a padding of zeroes. *)
Definition printf_x (padding width n : Z) : list Z :=
  let d := digits 8 n in replicate (Z.to_nat (width - zlen d)) padding ++ d.

(** ** The code *)

(** In the C locale. *)
Definition isprint (c : Z) : bool := (32 <=? c) && (c <=? 126).

Definition bin_char (c : Z) : list Z := [if isprint c then c else 46].

(** [for (i = 0; i < n; ++i)] over the bytes, from [i] on. *)
Fixpoint for_bytes (buf : list Z) (body : Z -> list Z) (i n : nat) : outcome (list Z) :=
  match n with
  | O => Ret []
  | S n => b ← checked (buf !! i); rest ← for_bytes buf body (S i) n; Ret (body b ++ rest)
  end.

(** One line with [n] bytes. *)
Definition dump_line (buf : list Z) (n : nat) (format addr : Z) : outcome (list Z) :=
  hex ← for_bytes buf (fun b => printf_x 48 2 b ++ [32]) 0 n;
  text ← for_bytes buf bin_char 0 n;
  Ret (printf_x 32 format addr ++ [58; 32] ++ hex ++ replicate (3 * (16 - n)) 32 ++ [32] ++ text ++ [10]).

(** The loop, and the last line. *)
Fixpoint dump_loop (fuel : nat) (buf : list Z) (len addr format : Z) : outcome (list Z) :=
  match fuel with
  | O => Fault
  | S fuel =>
      if 16 <? len then
        line ← dump_line buf 16 format addr;
        rest ← dump_loop fuel (drop 16 buf) (len - 16) (addr + 16) format;
        Ret (line ++ rest)
      else if len =? 0 then Ret []
      else dump_line buf (Z.to_nat len) format addr
  end.

Definition format_of (len : Z) : Z := if len <=? 0x10000 then 4 else 8.

(** What is written. *)
Definition binary_dump (buf : list Z) (len : Z) : outcome (list Z) :=
  dump_loop (S (Z.to_nat len)) buf len 0 (format_of len).

(** ** Reading a dump *)

(** A number with blanks before it. *)
Definition address (field : list Z) : Z :=
  fold_left (fun a c => if c =? 32 then a else 16 * a + unhex c) field 0.

(** The bytes of the hexadecimal columns, up to a blank one. *)
Fixpoint columns (n : nat) (l : list Z) : list Z :=
  match n, l with
  | S n, hi :: lo :: _ :: l => if hi =? 32 then [] else 16 * unhex hi + unhex lo :: columns n l
  | _, _ => []
  end.

(** The lines: address, bytes, characters. *)
Fixpoint undump (fuel format : nat) (out : list Z) : list (Z * list Z * list Z) :=
  match fuel, out with
  | S fuel, _ :: _ =>
      let bytes := columns 16 (drop (format + 2) out) in
      let text := drop (format + 51) out in
      (address (take format out), bytes, take (length bytes) text) :: undump fuel format (drop (length bytes + 1) text)
  | _, _ => []
  end.

(** The lines there should be. *)
Fixpoint rows (fuel : nat) (addr : Z) (buf : list Z) : list (Z * list Z) :=
  match fuel, buf with
  | S fuel, _ :: _ => (addr, take 16 buf) :: rows fuel (addr + 16) (drop 16 buf)
  | _, _ => []
  end.

(** ** Numbers *)

Lemma hexit_unhex d : 0 <= d < 16 -> unhex (hexit d) = d /\ hexit d <> 32.
Proof. intros H. unfold hexit, unhex. destruct (Z.ltb_spec d 10), (Z.leb_spec (if d <? 10 then 48 + d else 87 + d) 57); repeat case_match; lia. Qed.

Lemma hex_digits_length fuel : forall n k, 0 <= n < 16 ^ Z.of_nat k -> (0 < k)%nat -> (0 < fuel)%nat -> (1 <= length (digits fuel n) <= k)%nat.
Proof.
  induction fuel as [|fuel IH]; intros n k Hn Hk Hf; [lia|]. cbn [digits]. rewrite length_app. cbn [length].
  destruct (Z.ltb_spec n 16) as [H|H]; [cbn; lia|]. destruct k as [|[|k]]; [lia|cbn in Hn; lia|].
  rewrite (Nat2Z.inj_succ (S k)), Z.pow_succ_r in Hn by lia. destruct fuel as [|fuel]; [cbn; lia|].
  pose proof (IH (n / 16) (S k)) as IH'. assert (0 <= n / 16 < 16 ^ Z.of_nat (S k)); [|lia].
  split; [apply Z.div_pos; lia|apply Z.div_lt_upper_bound; lia].
Qed.

Lemma address_digits fuel : forall n, 0 <= n < 16 ^ Z.of_nat fuel -> address (digits fuel n) = n.
Proof.
  unfold address. induction fuel as [|fuel IH]; intros n Hn; [cbn in *; lia|]. cbn [digits]. rewrite fold_left_app. cbn [fold_left].
  rewrite Nat2Z.inj_succ, Z.pow_succ_r in Hn by lia. pose proof (Z.mod_pos_bound n 16 ltac:(lia)) as Hm.
  destruct (hexit_unhex (n mod 16) Hm) as [-> Hne]. rewrite (proj2 (Z.eqb_neq _ _) Hne). pose proof (Z.div_mod n 16 ltac:(lia)).
  destruct (Z.ltb_spec n 16) as [H16|H16]; [cbn [fold_left]; rewrite Z.mod_small by lia; lia|].
  rewrite IH; [lia|]. split; [apply Z.div_pos; lia|apply Z.div_lt_upper_bound; lia].
Qed.

(** An address is in its field. *)
Lemma field_spec w n : 0 <= n < 16 ^ Z.of_nat w -> (0 < w <= 8)%nat ->
  length (printf_x 32 (Z.of_nat w) n) = w /\ address (printf_x 32 (Z.of_nat w) n) = n.
Proof.
  intros Hn Hw. destruct (hex_digits_length 8 n w Hn ltac:(lia) ltac:(lia)) as [L1 L2]. unfold printf_x. split.
  - rewrite length_app, length_replicate. unfold zlen. lia.
  - rewrite <- (address_digits 8 n) at 3 by (split; [lia|]; eapply Z.lt_le_trans; [apply Hn|]; apply Z.pow_le_mono_r; lia).
    unfold address. rewrite fold_left_app. f_equal. generalize (Z.to_nat (Z.of_nat w - zlen (digits 8 n))).
    intros m. induction m as [|m IH]; [done|]. exact IH.
Qed.

(** A byte has two digits. *)
Lemma byte_hex b : is_byte b -> exists hi lo, printf_x 48 2 b = [hi; lo] /\ 16 * unhex hi + unhex lo = b /\ hi <> 32.
Proof.
  intros Hb. assert (H : (match printf_x 48 2 b with [hi; lo] => (16 * unhex hi + unhex lo =? b) && negb (hi =? 32) | _ => false end) = true).
  { by apply (byte_forall (fun b => match printf_x 48 2 b with [hi; lo] => (16 * unhex hi + unhex lo =? b) && negb (hi =? 32) | _ => false end = true)). }
  destruct (printf_x 48 2 b) as [|hi [|lo [|? ?]]]; try done. exists hi, lo. apply andb_true_iff in H as [H1 H2].
  apply Z.eqb_eq in H1. apply negb_true_iff, Z.eqb_neq in H2. done.
Qed.

(** ** Lines *)

Definition hex (r : list Z) : list Z := flat_map (fun b => printf_x 48 2 b ++ [32]) r.

(** A line, as a function of its address and its bytes. *)
Definition line (format : Z) (x : Z * list Z) : list Z :=
  printf_x 32 format (fst x) ++ [58; 32] ++ hex (snd x) ++ replicate (3 * (16 - length (snd x))) 32 ++ [32] ++
  flat_map bin_char (snd x) ++ [10].

Lemma for_bytes_spec body r : forall pre post, for_bytes (pre ++ r ++ post) body (length pre) (length r) = Ret (flat_map body r).
Proof.
  induction r as [|b r IH]; intros pre post; [done|]. cbn [length for_bytes app]. rewrite list_lookup_middle by done. cbn [checked mbind outcome_bind].
  specialize (IH (pre ++ [b]) post). rewrite <- app_assoc, length_app, Nat.add_1_r in IH. cbn [app] in IH. by rewrite IH.
Qed.

Lemma dump_line_spec r post format addr : dump_line (r ++ post) (length r) format addr = Ret (line format (addr, r)).
Proof.
  unfold dump_line. pose proof (for_bytes_spec (fun b => printf_x 48 2 b ++ [32]) r [] post) as H1.
  pose proof (for_bytes_spec bin_char r [] post) as H2. cbn [app length] in *. by rewrite H1, H2.
Qed.

Lemma dump_loop_spec fuel : forall buf addr format, zlen buf < Z.of_nat fuel ->
  dump_loop fuel buf (zlen buf) addr format = Ret (flat_map (line format) (rows fuel addr buf)).
Proof.
  induction fuel as [|fuel IH]; intros buf addr format Hf; [pose proof (zlen_nonneg buf); lia|]. cbn [dump_loop rows].
  destruct (Z.ltb_spec 16 (zlen buf)) as [H|H].
  - assert (Hl : length (take 16 buf) = 16%nat) by (unfold zlen in H; rewrite length_take; lia).
    assert (Hd : zlen (drop 16 buf) = zlen buf - 16) by (unfold zlen in *; rewrite length_drop; lia).
    pose proof (dump_line_spec (take 16 buf) (drop 16 buf) format addr) as Hline. rewrite Hl, take_drop in Hline. rewrite Hline.
    cbn [mbind outcome_bind]. rewrite <- Hd, (IH (drop 16 buf)) by lia. destruct buf as [|b buf]; [done|]. done.
  - destruct buf as [|b buf]; [done|]. assert (Ht : take 16 (b :: buf) = b :: buf) by (apply take_ge; unfold zlen in H; lia).
    rewrite (proj2 (Z.eqb_neq _ _)) by (rewrite zlen_cons; pose proof (zlen_nonneg buf); lia).
    pose proof (dump_line_spec (b :: buf) [] format addr) as Hline. rewrite app_nil_r in Hline. unfold zlen. rewrite Nat2Z.id, Hline, Ht.
    replace (drop 16 (b :: buf)) with (@nil Z) by (symmetry; apply drop_ge; unfold zlen in H; lia).
    cbn [flat_map]. destruct fuel; cbn [rows flat_map]; by rewrite app_nil_r.
Qed.

(** ** Reading back *)

Lemma columns_hex r : forall n rest, Forall is_byte r -> (length r <= n)%nat ->
  columns n (hex r ++ replicate (3 * (n - length r)) 32 ++ rest) = r.
Proof.
  induction r as [|b r IH]; intros n rest Hr Hn.
  - cbn [hex flat_map app length]. rewrite Nat.sub_0_r. destruct n as [|n]; [done|]. replace (3 * S n)%nat with (S (S (S (3 * n)))) by lia. done.
  - apply Forall_cons in Hr as [Hb Hr]. destruct n as [|n]; [cbn in Hn; lia|]. destruct (byte_hex b Hb) as (hi & lo & E & Ev & Hne).
    unfold hex. cbn [flat_map]. rewrite E. cbn [app columns length]. rewrite (proj2 (Z.eqb_neq _ _) Hne), Ev. f_equal.
    replace (S n - S (length r))%nat with (n - length r)%nat by lia. apply IH; [done|cbn in Hn; lia].
Qed.

Lemma hex_length r : Forall is_byte r -> length (hex r) = (3 * length r)%nat.
Proof.
  induction 1 as [|b r Hb _ IH]; [done|]. unfold hex in *. cbn [flat_map]. destruct (byte_hex b Hb) as (hi & lo & -> & _). cbn [app length]. lia.
Qed.

Lemma chars_length r : length (flat_map bin_char r) = length r.
Proof. induction r as [|b r IH]; [done|]. cbn. by rewrite IH. Qed.

Lemma undump_line fuel w addr r rest :
  0 <= addr < 16 ^ Z.of_nat w -> (0 < w <= 8)%nat -> Forall is_byte r -> (length r <= 16)%nat ->
  undump (S fuel) w (line (Z.of_nat w) (addr, r) ++ rest) = (addr, r, flat_map bin_char r) :: undump fuel w rest.
Proof.
  intros Ha Hw Hr Hl. destruct (field_spec w addr Ha Hw) as [F1 F2]. unfold line. cbn [fst snd]. rewrite <- !app_assoc.
  set (field := printf_x 32 (Z.of_nat w) addr) in *. set (blanks := replicate _ 32). set (text := flat_map bin_char r).
  assert (Hb : length blanks = (48 - 3 * length r)%nat) by (unfold blanks; rewrite length_replicate; lia).
  assert (Ht : length text = length r) by apply chars_length. pose proof (hex_length r Hr) as Hh.
  assert (D1 : drop (w + 2) (field ++ [58; 32] ++ hex r ++ blanks ++ [32] ++ text ++ [10] ++ rest) = hex r ++ blanks ++ [32] ++ text ++ [10] ++ rest).
  { rewrite (app_assoc field). apply drop_app_length'. rewrite length_app, F1. done. }
  assert (D2 : drop (w + 51) (field ++ [58; 32] ++ hex r ++ blanks ++ [32] ++ text ++ [10] ++ rest) = text ++ [10] ++ rest).
  { rewrite (app_assoc field), (app_assoc (field ++ _)), (app_assoc ((field ++ _) ++ _)), (app_assoc (((field ++ _) ++ _) ++ _)).
    apply drop_app_length'. rewrite !length_app, F1, Hh, Hb. cbn [length]. lia. }
  assert (D3 : take w (field ++ [58; 32] ++ hex r ++ blanks ++ [32] ++ text ++ [10] ++ rest) = field) by (by apply take_app_length').
  set (out := field ++ _) in *. assert (Hne : exists z out', out = z :: out').
  { unfold out. destruct field as [|z f]; [cbn in F1; lia|]. by eexists _, _. }
  destruct Hne as (z & out' & Eo). rewrite Eo in *. cbn [undump]. rewrite D1, D2, D3, F2.
  pose proof (columns_hex r 16 ([32] ++ text ++ [10] ++ rest) Hr Hl) as Hc. fold blanks in Hc. rewrite Hc.
  f_equal; [f_equal; by apply take_app_length'|]. f_equal. rewrite (app_assoc text). apply drop_app_length'. rewrite length_app, Ht. done.
Qed.

(** The rows hold the buffer. *)
Lemma rows_spec fuel : forall addr buf, zlen buf < Z.of_nat fuel ->
  concat (map snd (rows fuel addr buf)) = buf /\
  (forall i x, rows fuel addr buf !! i = Some x -> fst x = addr + 16 * Z.of_nat i /\ fst x < addr + zlen buf /\ (length (snd x) <= 16)%nat).
Proof.
  induction fuel as [|fuel IH]; intros addr buf Hf; [pose proof (zlen_nonneg buf); lia|]. cbn [rows]. destruct buf as [|b buf]; [done|].
  assert (Hd : zlen (drop 16 (b :: buf)) < Z.of_nat fuel) by (unfold zlen in *; rewrite length_drop; cbn [length] in *; lia).
  destruct (IH (addr + 16) (drop 16 (b :: buf)) Hd) as [H1 H2]. cbn [map concat snd]. rewrite H1, take_drop. split; [done|].
  intros [|i] x Hx.
  - injection Hx as <-. cbn [fst snd length]. rewrite length_take, zlen_cons. pose proof (zlen_nonneg buf). lia.
  - destruct (H2 i x Hx) as (E1 & E2 & E3). unfold zlen in *. rewrite length_drop in E2. lia.
Qed.

Lemma undump_lines w xs : (0 < w <= 8)%nat -> forall fuel, (length xs <= fuel)%nat ->
  Forall (fun x => 0 <= fst x < 16 ^ Z.of_nat w /\ Forall is_byte (snd x) /\ (length (snd x) <= 16)%nat) xs ->
  undump fuel w (flat_map (line (Z.of_nat w)) xs) = map (fun x => (fst x, snd x, flat_map bin_char (snd x))) xs.
Proof.
  intros Hw. induction xs as [|[addr r] xs IH]; intros fuel Hf Hx; [by destruct fuel|]. apply Forall_cons in Hx as [(H1 & H2 & H3) Hx].
  destruct fuel as [|fuel]; [cbn in Hf; lia|]. cbn [flat_map fst snd] in *. rewrite undump_line by done. cbn [map fst snd]. f_equal.
  apply IH; [cbn in Hf; lia|done].
Qed.

(** The dump of a buffer of a length, read again: addresses, bytes and characters. *)
Definition read_dump (len : Z) (out : list Z) : list (Z * list Z * list Z) :=
  undump (S (Z.to_nat len)) (Z.to_nat (format_of len)) out.

Lemma rows_length fuel : forall addr buf, (length (rows fuel addr buf) <= fuel)%nat.
Proof. induction fuel as [|fuel IH]; intros addr [|b buf]; cbn [rows length]; [lia..|]. specialize (IH (addr + 16) (drop 16 (b :: buf))). lia. Qed.

Lemma read_dump_spec buf : Forall is_byte buf -> zlen buf < 2 ^ 31 ->
  exists out, binary_dump buf (zlen buf) = Ret out /\
    read_dump (zlen buf) out = map (fun x => (fst x, snd x, flat_map bin_char (snd x))) (rows (S (length buf)) 0 buf).
Proof.
  intros Hb Hl. assert (Hf : zlen buf < Z.of_nat (S (length buf))) by (unfold zlen; lia).
  assert (En : Z.to_nat (zlen buf) = length buf) by apply Nat2Z.id. unfold binary_dump, read_dump. rewrite En, dump_loop_spec by done.
  eexists. split; [reflexivity|]. destruct (rows_spec _ 0 buf Hf) as [Hc Hr]. set (xs := rows _ 0 buf) in *.
  assert (Hw : exists w, format_of (zlen buf) = Z.of_nat w /\ (0 < w <= 8)%nat /\ zlen buf <= 16 ^ Z.of_nat w).
  { unfold format_of. destruct (Z.leb_spec (zlen buf) 0x10000); [exists 4%nat|exists 8%nat]; cbn; lia. }
  destruct Hw as (w & Ew & Hw & Hz). rewrite Ew, Nat2Z.id. apply undump_lines; [done|apply rows_length|].
  rewrite <- Hc in Hb. apply List.Forall_concat in Hb. rewrite List.Forall_map in Hb. rewrite Forall_lookup in *. intros i x Hx.
  destruct (Hr i x Hx) as (E1 & E2 & E3). split; [lia|]. split; [by apply (Hb i)|done].
Qed.

(** ** Properties *)

(** C28: The dump of a buffer is read back: line by line from its columns, the bytes of all lines are the
    buffer; the line of number i has the address 16 i, at most sixteen bytes, and behind them the same bytes
    as characters, with a dot for each that cannot be printed. *)
Theorem binary_dump_correct buf :
  Forall is_byte buf -> zlen buf < 2 ^ 31 ->
  exists out, binary_dump buf (zlen buf) = Ret out /\
    concat (map (fun x => snd (fst x)) (read_dump (zlen buf) out)) = buf /\
    forall i addr bytes text, read_dump (zlen buf) out !! i = Some (addr, bytes, text) ->
      addr = 16 * Z.of_nat i /\ (length bytes <= 16)%nat /\ text = map (fun c => if isprint c then c else 46) bytes.
Proof.
  intros Hb Hl. destruct (read_dump_spec buf Hb Hl) as (out & E & Er). exists out. split; [done|]. rewrite Er, map_map.
  destruct (rows_spec (S (length buf)) 0 buf ltac:(unfold zlen; lia)) as [Hc Hr]. split; [exact Hc|].
  intros i addr bytes text Hi. apply list_lookup_fmap_Some in Hi as ([a r] & [= -> -> ->] & Hx).
  destruct (Hr i _ Hx) as (E1 & _ & E3). cbn [fst snd] in *. split; [lia|]. split; [done|].
  clear. induction r as [|c r IH]; [done|]. cbn in *. by rewrite IH.
Qed.

Lemma binary_dump_correct_witness :
  let buf := seqZ 60 17 in
  exists out, binary_dump buf 17 = Ret out /\ concat (map (fun x => snd (fst x)) (read_dump 17 out)) = buf /\
    forall i addr bytes text, read_dump 17 out !! i = Some (addr, bytes, text) ->
      addr = 16 * Z.of_nat i /\ (length bytes <= 16)%nat /\ text = map (fun c => if isprint c then c else 46) bytes.
Proof.
  intros buf. apply (binary_dump_correct buf); [|done]. apply Forall_forall. intros z Hz%elem_of_seqZ. unfold fits. lia.
Defined.

(** No byte at all writes nothing; a negative length writes a line without bytes. *)
Lemma binary_dump_empty buf : binary_dump buf 0 = Ret [].
Proof. done. Qed.

Lemma binary_dump_negative : binary_dump [] (-1) = Ret ([32; 32; 32; 48; 58; 32] ++ replicate 49 32 ++ [10]).
Proof. reflexivity. Qed.

Lemma for_bytes_past body n : forall buf i, (length buf < i + n)%nat -> (0 < n)%nat -> for_bytes buf body i n = Fault.
Proof.
  induction n as [|n IH]; intros buf i Hl Hn; [lia|]. cbn [for_bytes]. destruct (buf !! i) as [b|] eqn:E; [|done].
  apply lookup_lt_Some in E. cbn [checked mbind outcome_bind]. rewrite IH by lia. done.
Qed.

(** A length past the end of the last line reads past the buffer. *)
Lemma binary_dump_past buf len : zlen buf < len <= 16 -> binary_dump buf len = Fault.
Proof.
  intros H. pose proof (zlen_nonneg buf). unfold binary_dump. cbn [dump_loop]. rewrite (proj2 (Z.ltb_ge 16 len)) by lia.
  rewrite (proj2 (Z.eqb_neq len 0)) by lia. unfold dump_line. by rewrite !for_bytes_past by (unfold zlen in H; lia).
Qed.
End Binary.
