(* ===== verification/Strings.v ===== *)
(** The bounded string copies (safecpy.c, strlcpy.c) on a memory of bytes whose
    writes are checked: a write outside the memory is a fault, [None].  The
    lengths the code keeps in an [int] are cut to 32 bits.  For strings an [int]
    can measure, each function is shown to stay within the size it is given and
    to leave the longest prefix that fits, terminated; for longer ones strlcpy
    and strlcat are shown to write past it. *)

From S2P Require Import Prelude.

Module Strings.

(** ** Memory *)

(** Checked writes: of one byte, and of a run of bytes ([memcpy]). *)
Definition mwr (m : list Z) (i v : Z) : option (list Z) :=
  if (0 <=? i) && (i <? zlen m) then Some (wr m i v) else None.

Definition mwrs (m : list Z) (i : Z) (l : list Z) : option (list Z) :=
  if (0 <=? i) && (i + zlen l <=? zlen m) then Some (splice m i l) else None.

(** [strlen] of the string at an offset; a missing NUL is a fault. *)
Fixpoint strlen_from (l : list Z) : option Z :=
  match l with
  | [] => None
  | c :: l => if c =? 0 then Some 0 else n ← strlen_from l; Some (n + 1)
  end.
Definition strlen (m : list Z) (off : Z) : option Z := strlen_from (drop (Z.to_nat off) m).

(** The C library's copies of a string [src], given without its NUL. *)
Definition strcpy (m : list Z) (dst : Z) (src : list Z) : option (list Z) :=
  mwrs m dst (src ++ [0]).
Definition strncpy (m : list Z) (dst : Z) (src : list Z) (n : Z) : option (list Z) :=
  mwrs m dst (take (Z.to_nat n) src ++ replicate (Z.to_nat n - length src) 0).

(** ** safecpy.c *)

(** The loop: the memory, the final [dst] and the count. *)
Fixpoint copy_loop (m : list Z) (dst : Z) (src : list Z) (i dstsize : Z)
  : option (list Z * Z * Z) :=
  match src with
  | [] => Some (m, dst, i)
  | c :: src =>
      if i <? dstsize then
        m ← mwr m dst c; copy_loop m (dst + 1) src (i + 1) dstsize
      else Some (m, dst, i)
  end.

Definition __copy (m : list Z) (dst : Z) (src : list Z) (dstsize : Z) : option (list Z * Z) :=
  if 0 <? dstsize then
    '(m, dst, i) ← copy_loop m dst src 0 (dstsize - 1);
    m ← mwr m dst 0;
    Some (m, i)
  else Some (m, 0).

Definition safecpy (m : list Z) (dst : Z) (src : list Z) (dstsize : Z) : option (list Z * Z) :=
  __copy m dst src dstsize.

Definition safecat (m : list Z) (dst : Z) (src : list Z) (dstsize : Z) : option (list Z * Z) :=
  if dstsize <=? 0 then Some (m, 0)
  else
    len ← strlen m dst;
    let len := s32 len in
    let dst := dst + len in
    let dstsize := s32 (dstsize - len) in
    __copy m dst src dstsize.

(** ** strlcpy.c *)

(** [dstlen] is a [size_t]: the comparison converts [srclen] to 64 bits. *)
Definition strlcpy (m : list Z) (dst : Z) (src : list Z) (dstlen : Z) : option (list Z * Z) :=
  let srclen := s32 (zlen src) in
  if 0 <? dstlen then
    if u64 srclen <? dstlen then m ← strcpy m dst src; Some (m, u64 srclen)
    else
      m ← strncpy m dst src (dstlen - 1);
      m ← mwr m (dst + (dstlen - 1)) 0;
      Some (m, u64 srclen)
  else Some (m, u64 srclen).

Definition strlcat (m : list Z) (dst : Z) (src : list Z) (dstsize : Z) : option (list Z * Z) :=
  dstlen ← strlen m dst;
  let dstlen := s32 dstlen in
  let srclen := s32 (zlen src) in
  let left := s32 (u64 (dstsize - u64 dstlen)) in
  if 0 <? left then
    if srclen <? left then m ← strcpy m (dst + dstlen) src; Some (m, u64 (s32 (dstlen + srclen)))
    else
      m ← strncpy m (dst + dstlen) src (left - 1);
      m ← mwr m (dst + (dstsize - 1)) 0;
      Some (m, u64 (s32 (dstlen + srclen)))
  else Some (m, u64 (s32 (dstlen + srclen))).

(** The loop over the arguments: the memory, the final [len] and [total]. *)
Fixpoint strconcat_loop (m : list Z) (str len total : Z) (args : list (list Z))
  : option (list Z * Z * Z) :=
  match args with
  | [] => Some (m, len, total)
  | arg :: args =>
      if 0 <? len then
        '(m, n) ← strlcpy m str arg len;
        let n := s32 n in
        strconcat_loop m (str + n) (s32 (len - n)) (s32 (total + n)) args
      else Some (m, len, total)
  end.

Definition strconcat (m : list Z) (str len : Z) (args : list (list Z)) : option (list Z * Z) :=
  if len =? 0 then Some (m, 0)
  else
    '(m, len, total) ← strconcat_loop m str len 0 args;
    let total := if len <=? 0 then s32 (total + (len - 1)) else total in
    Some (m, total).

(** ** Splices *)

Lemma mwrs_some m i l :
  0 <= i -> i + zlen l <= zlen m -> mwrs m i l = Some (splice m i l).
Proof.
  intros H1 H2. unfold mwrs.
  by rewrite (proj2 (Z.leb_le _ _) H1), (proj2 (Z.leb_le _ _) H2).
Qed.

Lemma mwr_some m i v : 0 <= i < zlen m -> mwr m i v = Some (splice m i [v]).
Proof.
  intros [H1 H2]. unfold mwr.
  rewrite (proj2 (Z.leb_le _ _) H1), (proj2 (Z.ltb_lt _ _) H2). cbn [andb]. f_equal.
  unfold wr, splice. rewrite insert_take_drop by (unfold zlen in H2; lia).
  cbn [length app]. do 3 f_equal. lia.
Qed.

Lemma zlen_splice m i l : 0 <= i -> i + zlen l <= zlen m -> zlen (splice m i l) = zlen m.
Proof. intros. unfold zlen. f_equal. by apply length_splice. Qed.

(** Adjacent writes are one write. *)
Lemma splice_splice m i l1 l2 :
  0 <= i -> i + zlen l1 + zlen l2 <= zlen m ->
  splice (splice m i l1) (i + zlen l1) l2 = splice m i (l1 ++ l2).
Proof.
  intros Hi Hl. unfold zlen in *.
  assert (E : take (Z.to_nat (i + Z.of_nat (length l1))) (splice m i l1)
    = take (Z.to_nat i) m ++ l1) by (apply take_splice; unfold zlen; lia).
  assert (D : drop (Z.to_nat (i + Z.of_nat (length l1)) + length l2) (splice m i l1)
    = drop (Z.to_nat i + length (l1 ++ l2)) m).
  { unfold splice. rewrite app_assoc, drop_app_ge
      by (rewrite length_app, length_take; lia).
    rewrite !length_app, length_take, drop_drop. f_equal. lia. }
  transitivity (take (Z.to_nat (i + Z.of_nat (length l1))) (splice m i l1) ++ l2
    ++ drop (Z.to_nat (i + Z.of_nat (length l1)) + length l2) (splice m i l1)); [done|].
  rewrite E, D. unfold splice. by rewrite <- !app_assoc.
Qed.

Lemma splice_before m i l1 l2 :
  0 <= i -> i + zlen l1 + zlen l2 <= zlen m ->
  splice (splice m (i + zlen l1) l2) i l1 = splice m i (l1 ++ l2).
Proof.
  intros Hi Hl. unfold zlen in *. unfold splice at 1.
  assert (T : take (Z.to_nat i) (splice m (i + Z.of_nat (length l1)) l2) = take (Z.to_nat i) m).
  { unfold splice. rewrite take_app_le by (rewrite length_take; lia).
    rewrite take_take. f_equal. lia. }
  assert (D : drop (Z.to_nat i + length l1) (splice m (i + Z.of_nat (length l1)) l2)
    = l2 ++ drop (Z.to_nat i + length (l1 ++ l2)) m).
  { unfold splice. rewrite drop_app_length' by (rewrite length_take; lia).
    do 2 f_equal. rewrite length_app. lia. }
  rewrite T, D. unfold splice. by rewrite <- app_assoc.
Qed.

(** Writing downwards from [p]. *)
Lemma splice_down m p q r l1 l2 :
  q = p - zlen l2 -> r = q - zlen l1 -> 0 <= r -> p <= zlen m ->
  splice (splice m q l2) r l1 = splice m (p - zlen (l1 ++ l2)) (l1 ++ l2).
Proof.
  intros -> -> Hr Hp. assert (E : zlen (l1 ++ l2) = zlen l1 + zlen l2)
    by (unfold zlen; rewrite length_app; lia).
  rewrite E, <- (splice_before m _ l1 l2) by lia. f_equal; [f_equal|]; lia.
Qed.

Lemma splice_nil m i : 0 <= i <= zlen m -> splice m i [] = m.
Proof.
  intros Hi. unfold splice. cbn [app length]. rewrite Nat.add_0_r. apply take_drop.
Qed.

(** ** The specification of a bounded copy *)

(** The string [s] is stored at [i], and a write that keeps everything else. *)
Definition cstr_at (m : list Z) (i : Z) (s : list Z) : Prop :=
  0 <= i /\ Forall (fun c => c <> 0) s /\
  take (length s + 1) (drop (Z.to_nat i) m) = s ++ [0].

(** What fits in [n] bytes with the NUL. *)
Definition fit (s : list Z) (n : Z) : list Z := take (Z.to_nat (n - 1)) s.

Lemma fit_bound s n : 0 < n -> zlen (fit s n ++ [0]) <= n.
Proof. intros. unfold fit, zlen. rewrite length_app, length_take. cbn. lia. Qed.

Lemma strlen_cstr m i s : cstr_at m i s -> strlen m i = Some (zlen s).
Proof.
  intros (Hi & Hs & E). unfold strlen. revert E. generalize (drop (Z.to_nat i) m).
  induction Hs as [|c s Hc _ IH]; intros l E; destruct l as [|x l]; try done; cbn in E.
  - injection E as ->. done.
  - injection E as -> E. cbn. rewrite (proj2 (Z.eqb_neq _ _) Hc), (IH l E).
    cbn. f_equal. unfold zlen. cbn [length]. lia.
Qed.

Lemma cstr_at_bound m i s : cstr_at m i s -> i + zlen s < zlen m.
Proof.
  intros (Hi & _ & E). apply (f_equal length) in E.
  rewrite length_take, length_drop, length_app in E. cbn in E. unfold zlen. lia.
Qed.

Lemma copy_loop_spec m dst src i dstsize :
  0 <= dst -> 0 <= i <= dstsize -> dst + (dstsize - i) <= zlen m ->
  let s := take (Z.to_nat (dstsize - i)) src in
  copy_loop m dst src i dstsize = Some (splice m dst s, dst + zlen s, i + zlen s).
Proof.
  revert m dst i. induction src as [|c src IH]; intros m dst i Hd Hi Hm.
  - rewrite take_nil. cbn. rewrite splice_nil by lia. unfold zlen. cbn. do 2 f_equal; [f_equal|]; lia.
  - cbn [copy_loop]. destruct (Z.ltb_spec i dstsize) as [Hlt|Hge].
    + rewrite mwr_some by lia. cbn [mbind option_bind].
      assert (Hz : zlen (splice m dst [c]) = zlen m)
        by (apply zlen_splice; [lia|change (zlen [c]) with 1; lia]).
      rewrite IH by lia.
      replace (Z.to_nat (dstsize - i)) with (S (Z.to_nat (dstsize - (i + 1)))) by lia.
      cbn [take]. set (s := take (Z.to_nat (dstsize - (i + 1))) src).
      assert (Hs : zlen s <= dstsize - (i + 1))
        by (unfold zlen, s; rewrite length_take; lia).
      replace (dst + 1) with (dst + zlen [c]) at 1 by done.
      rewrite splice_splice by (unfold zlen in *; cbn [length]; lia).
      change ([c] ++ s) with (c :: s). unfold zlen. cbn [length]. do 2 f_equal; [f_equal|]; lia.
    + replace (dstsize - i) with 0 by lia. change (Z.to_nat 0) with 0%nat.
      cbn [take]. rewrite splice_nil by lia.
      unfold zlen. cbn. do 2 f_equal; [f_equal|]; lia.
Qed.

(** The common contract: the memory afterwards and the count of [__copy]. *)
Lemma copy_spec m dst src dstsize :
  0 <= dst -> 0 < dstsize -> dst + dstsize <= zlen m ->
  __copy m dst src dstsize =
    Some (splice m dst (fit src dstsize ++ [0]), zlen (fit src dstsize)).
Proof.
  intros Hd Hs Hm. unfold __copy. rewrite (proj2 (Z.ltb_lt _ _)) by done.
  rewrite copy_loop_spec by lia. cbn [mbind option_bind]. rewrite Z.sub_0_r.
  fold (fit src dstsize). pose proof (fit_bound src dstsize Hs) as B.
  unfold zlen at 1 in B. rewrite length_app in B. cbn [length] in B.
  assert (Hz : zlen (splice m dst (fit src dstsize)) = zlen m)
    by (apply zlen_splice; unfold zlen in *; lia).
  rewrite mwr_some by (unfold zlen in *; lia). cbn [mbind option_bind].
  rewrite splice_splice by (unfold zlen in *; cbn [length]; lia). do 2 f_equal.
Qed.

Lemma fit_all s n : zlen s < n -> fit s n = s.
Proof. intros. unfold fit. apply take_ge. unfold zlen in *. lia. Qed.

Lemma zlen_fit s n : 0 < n -> zlen (fit s n) = Z.min (zlen s) (n - 1).
Proof. intros. unfold fit, zlen. rewrite length_take. lia. Qed.

(** A copy with the C library that keeps the last byte for the NUL. *)
Lemma strncpy_spec m dst src n :
  0 <= dst -> 0 < n -> n <= zlen src -> dst + n <= zlen m ->
  (m ← strncpy m dst src (n - 1); mwr m (dst + (n - 1)) 0)
  = Some (splice m dst (fit src n ++ [0])).
Proof.
  intros Hd Hn Hl Hm. unfold strncpy.
  assert (E : replicate (Z.to_nat (n - 1) - length src) 0 = [])
    by (replace (Z.to_nat (n - 1) - length src)%nat with 0%nat by (unfold zlen in *; lia); done).
  rewrite E, app_nil_r. fold (fit src n).
  pose proof (zlen_fit src n Hn) as Hf. rewrite mwrs_some by lia. cbn [mbind option_bind].
  rewrite mwr_some by (rewrite zlen_splice; lia).
  replace (n - 1) with (zlen (fit src n)) by lia.
  by rewrite splice_splice by (unfold zlen in *; cbn [length]; lia).
Qed.

(** The whole of [strlcpy] in one equation. *)
Lemma strlcpy_spec m dst src dstlen :
  0 <= dst -> 0 < dstlen -> dst + dstlen <= zlen m -> zlen src < 2 ^ 31 ->
  strlcpy m dst src dstlen = Some (splice m dst (fit src dstlen ++ [0]), zlen src).
Proof.
  intros Hd Hl Hm Hs. unfold strlcpy. rewrite (proj2 (Z.ltb_lt _ _)) by done.
  pose proof (zlen_nonneg src). rewrite s32_id, u64_id by (unfold fits; lia).
  destruct (Z.ltb_spec (zlen src) dstlen) as [Hlt|Hge].
  - unfold strcpy. rewrite fit_all by done.
    by rewrite mwrs_some by (unfold zlen in *; rewrite ?length_app; cbn [length]; lia).
  - pose proof (strncpy_spec m dst src dstlen Hd Hl Hge Hm) as E.
    destruct (strncpy m dst src (dstlen - 1)) as [m'|]; cbn [mbind option_bind] in *; [|done].
    by rewrite E.
Qed.

(** And of [strlcat], which copies at the end of the string there. *)
Lemma strlcat_spec m dst s src dstsize :
  cstr_at m dst s -> 0 <= dstsize < 2 ^ 31 -> dst + dstsize <= zlen m ->
  zlen s + zlen src < 2 ^ 31 ->
  strlcat m dst src dstsize =
    Some (if 0 <? dstsize - zlen s then splice m (dst + zlen s) (fit src (dstsize - zlen s) ++ [0])
          else m, zlen s + zlen src).
Proof.
  intros Hc Hd Hm Hb. pose proof (proj1 Hc) as Hdst.
  pose proof (zlen_nonneg s) as H0. pose proof (zlen_nonneg src) as H1.
  unfold strlcat. rewrite (strlen_cstr m dst s Hc). cbn [mbind option_bind].
  rewrite (s32_id (zlen s)), (s32_id (zlen src)) by lia. cbv zeta.
  rewrite (s32_id (zlen s + zlen src)) by lia.
  rewrite (u64_id (zlen s)), (u64_id (zlen s + zlen src)) by (unfold fits; lia).
  assert (El : s32 (u64 (dstsize - zlen s)) = dstsize - zlen s).
  { destruct (Z.lt_ge_cases dstsize (zlen s)).
    - unfold u64. rewrite <- (Z.mod_add _ 1), (Z.mod_small (_ + 1 * 2 ^ 64)) by lia.
      unfold s32. change (2 ^ 64) with (2 ^ 32 * 2 ^ 32).
      replace (dstsize - zlen s + 1 * (2 ^ 32 * 2 ^ 32) + 2 ^ 31)
        with (dstsize - zlen s + 2 ^ 31 + 2 ^ 32 * 2 ^ 32) by lia.
      rewrite Z.mod_add, Z.mod_small by lia. lia.
    - rewrite u64_id by (unfold fits; lia). apply s32_id. lia. }
  rewrite El. destruct (Z.ltb_spec 0 (dstsize - zlen s)) as [Hr|Hr]; [|done].
  pose proof (strlcpy_spec m (dst + zlen s) src (dstsize - zlen s)
    ltac:(lia) ltac:(lia) ltac:(lia) ltac:(lia)) as E.
  unfold strlcpy in E. rewrite (s32_id (zlen src)), (u64_id (zlen src)) in E by (unfold fits; lia).
  rewrite (proj2 (Z.ltb_lt _ _)) in E by lia.
  destruct (zlen src <? dstsize - zlen s).
  - destruct (strcpy _ _ _); cbn in *; congruence.
  - replace (dst + zlen s + (dstsize - zlen s - 1)) with (dst + (dstsize - 1)) in E by lia.
    destruct (strncpy _ _ _ _) as [m1|]; cbn in *; [|done].
    destruct (mwr m1 _ _); cbn in *; congruence.
Qed.

(** Appending at the end of a string: the string that results. *)
Lemma cstr_at_append m i s t :
  cstr_at m i s -> Forall (fun c => c <> 0) t -> i + zlen s + zlen t < zlen m ->
  cstr_at (splice m (i + zlen s) (t ++ [0])) i (s ++ t).
Proof.
  intros (Hi & Hs & E) Ht Hm. split; [done|]. split; [by apply Forall_app|].
  unfold splice, zlen in *.
  assert (Es : take (length s) (drop (Z.to_nat i) m) = s).
  { apply (f_equal (take (length s))) in E. rewrite take_take, take_app_length in E.
    by replace (length s `min` (length s + 1))%nat with (length s) in E by lia. }
  replace (Z.to_nat (i + Z.of_nat (length s))) with (Z.to_nat i + length s)%nat by lia.
  rewrite drop_app_le by (rewrite length_take; lia).
  rewrite skipn_firstn_comm. replace (Z.to_nat i + length s - Z.to_nat i)%nat with (length s) by lia.
  rewrite Es, !app_assoc. rewrite take_app_length' by (rewrite !length_app; cbn; lia). done.
Qed.

(** A write that starts inside an earlier one and covers its end. *)
Lemma splice_overwrite m i l1 l2 l3 :
  0 <= i -> (length l2 <= length l3)%nat -> i + zlen l1 + zlen l3 <= zlen m ->
  splice (splice m i (l1 ++ l2)) (i + zlen l1) l3 = splice m i (l1 ++ l3).
Proof.
  intros Hi Hl Hm. rewrite <- (splice_splice m i l1 l2), <- (splice_splice m i l1 l3)
    by (unfold zlen in *; lia).
  set (m1 := splice m i l1). assert (Hm1 : zlen m1 = zlen m)
    by (apply zlen_splice; unfold zlen in *; lia).
  unfold splice at 1 3. f_equal; [|f_equal].
  - unfold splice. rewrite take_app_length'; [done|]. rewrite length_take. unfold zlen in *. lia.
  - unfold splice. rewrite app_assoc, drop_app_ge
      by (rewrite length_app, length_take; unfold zlen in *; lia).
    rewrite length_app, length_take, drop_drop. f_equal. unfold zlen in *. lia.
Qed.

(** Nothing outside the write changes. *)
Lemma splice_frame m i l j :
  0 <= i -> i + zlen l <= zlen m -> 0 <= j -> j < i \/ i + zlen l <= j ->
  rd (splice m i l) j = rd m j.
Proof.
  intros Hi Hm Hj0 Hj. unfold rd, splice, zlen in *. rewrite !nth_lookup. f_equal.
  destruct Hj as [Hj|Hj].
  - rewrite lookup_app_l by (rewrite length_take; lia). apply lookup_take_lt. lia.
  - rewrite !lookup_app_r by (rewrite ?length_take; lia). rewrite length_take, lookup_drop.
    f_equal. lia.
Qed.

Lemma cstr_at_splice m i s :
  0 <= i -> Forall (fun c => c <> 0) s -> i + zlen s < zlen m ->
  cstr_at (splice m i (s ++ [0])) i s.
Proof.
  intros Hi Hs Hm. split; [done|]. split; [done|]. unfold splice, zlen in *.
  rewrite drop_app_ge by (rewrite length_take; lia).
  rewrite length_take. replace (Z.to_nat i - _)%nat with 0%nat by lia. rewrite drop_0.
  rewrite take_app_length'; [done|]. rewrite length_app. done.
Qed.

Lemma fit_nonzero s n : Forall (fun c => c <> 0) s -> Forall (fun c => c <> 0) (fit s n).
Proof. apply Forall_take. Qed.

Lemma fit_app a x n : zlen a < n -> fit (a ++ x) n = a ++ fit x (n - zlen a).
Proof.
  intros Hn. unfold fit, zlen in *. rewrite take_app_ge by lia. do 2 f_equal. lia.
Qed.

Lemma fit_app_full a x n : 0 < n -> n <= zlen a -> fit (a ++ x) n = fit a n.
Proof. intros Hn Ha. unfold fit, zlen in *. by rewrite take_app_le by lia. Qed.

Lemma strconcat_loop_spec args m str len total :
  args <> [] -> 0 <= str -> 0 < len < 2 ^ 31 -> str + len <= zlen m ->
  0 <= total -> total + zlen (concat args) < 2 ^ 31 ->
  exists len' total',
    strconcat_loop m str len total args =
      Some (splice m str (fit (concat args) len ++ [0]), len', total') /\
    (if zlen (concat args) <? len then len' = len - zlen (concat args) /\ total' = total + zlen (concat args)
     else len' <= 0 /\ total' = total + (len - len')).
Proof.
  revert m str len total. induction args as [|a args IH]; [done|].
  intros m str len total _ Hs Hl Hm Ht Hb. cbn [strconcat_loop concat] in *.
  rewrite (proj2 (Z.ltb_lt _ _)) by lia.
  assert (Hc : zlen (a ++ concat args) = zlen a + zlen (concat args)) by apply zlen_app.
  assert (H0 : 0 <= zlen a /\ 0 <= zlen (concat args)) by (unfold zlen; lia).
  rewrite strlcpy_spec by lia. cbn [mbind option_bind]. rewrite !(s32_id (zlen a)) by lia.
  cbv zeta. rewrite (s32_id (len - zlen a)), (s32_id (total + zlen a)) by lia.
  destruct (decide (len <= zlen a)) as [Hge|Hlt].
  - (* no room left: the loop stops *)
    rewrite fit_app_full by lia.
    exists (len - zlen a), (total + zlen a).
    rewrite (proj2 (Z.ltb_ge _ _)) by lia. split; [|lia].
    destruct args as [|b args]; [done|]. cbn [strconcat_loop].
    by rewrite (proj2 (Z.ltb_ge _ _)) by lia.
  - rewrite fit_app, (fit_all a) by lia. destruct args as [|b args].
    + exists (len - zlen a), (total + zlen a). cbn [concat app] in *.
      unfold fit. rewrite take_nil, app_nil_r. split; [done|].
      unfold zlen in *. cbn [length] in *. rewrite (proj2 (Z.ltb_lt _ _)) by lia. lia.
    + assert (Hz : zlen (splice m str (a ++ [0])) = zlen m)
        by (apply zlen_splice; unfold zlen in *; rewrite ?length_app; cbn [length]; lia).
      destruct (IH (splice m str (a ++ [0])) (str + zlen a) (len - zlen a) (total + zlen a))
        as (len' & total' & E & R); [done|lia..|].
      exists len', total'. rewrite E. split.
      * f_equal. f_equal. f_equal. pose proof (fit_bound (concat (b :: args)) (len - zlen a)) as B.
        rewrite splice_overwrite by (rewrite ?length_app; cbn [length]; lia).
        by rewrite <- app_assoc.
      * destruct (Z.ltb_spec (zlen (concat (b :: args))) (len - zlen a));
          [rewrite (proj2 (Z.ltb_lt _ _)) by lia|rewrite (proj2 (Z.ltb_ge _ _)) by lia]; lia.
Qed.

Lemma strconcat_spec m dst args size :
  0 <= dst -> 0 < size < 2 ^ 31 -> dst + size <= zlen m -> args <> [] ->
  zlen (concat args) < 2 ^ 31 ->
  strconcat m dst size args =
    Some (splice m dst (fit (concat args) size ++ [0]), zlen (fit (concat args) size)).
Proof.
  intros Hd Hs Hm Ha Hb. unfold strconcat. rewrite (proj2 (Z.eqb_neq _ _)) by lia.
  destruct (strconcat_loop_spec args m dst size 0 Ha Hd Hs Hm) as (len' & total' & E & R); [lia..|].
  rewrite E. cbn [mbind option_bind]. do 2 f_equal. rewrite zlen_fit by lia.
  destruct (Z.ltb_spec (zlen (concat args)) size).
  - rewrite (proj2 (Z.leb_gt _ _)) by lia. lia.
  - rewrite (proj2 (Z.leb_le _ _)) by lia. rewrite s32_id by lia. lia.
Qed.

(** Arguments after the one that fills the buffer are not looked at. *)
Lemma strconcat_full args rest m dst size :
  0 <= dst -> 0 < size < 2 ^ 31 -> dst + size <= zlen m -> args <> [] ->
  size <= zlen (concat args) < 2 ^ 31 ->
  strconcat m dst size (args ++ rest) = strconcat m dst size args.
Proof.
  intros Hd Hs Hm Ha Hb. unfold strconcat. destruct (size =? 0); [done|].
  enough (forall m dst len total, 0 <= dst -> len < 2 ^ 31 -> dst + len <= zlen m ->
    0 <= total -> len <= zlen (concat args) -> total + zlen (concat args) < 2 ^ 31 ->
    strconcat_loop m dst len total (args ++ rest) = strconcat_loop m dst len total args) as ->
    by (done || lia).
  clear m dst size Hd Hs Hm Ha Hb. induction args as [|a args IH]; intros m dst len total Hd Hl Hm Ht Hc Hb.
  - change (zlen (concat [])) with 0 in Hc. destruct rest; [done|]. cbn.
    by rewrite (proj2 (Z.ltb_ge _ _)) by lia.
  - cbn [app strconcat_loop concat] in *. rewrite zlen_app in *.
    destruct (Z.ltb_spec 0 len); [|done]. pose proof (zlen_nonneg a).
    pose proof (zlen_nonneg (concat args)). rewrite strlcpy_spec by lia. cbn [mbind option_bind].
    rewrite (s32_id (zlen a)), (s32_id (len - _)), (s32_id (total + _)) by lia. cbv zeta.
    destruct (decide (len <= zlen a)) as [Hle|Hgt].
    + destruct args as [|b args]; [destruct rest as [|b rest]; [done|]|]; cbn [app strconcat_loop];
        by rewrite (proj2 (Z.ltb_ge _ _)) by lia.
    + pose proof (fit_bound a len). apply IH; try lia. rewrite zlen_splice; lia.
Qed.

(** ** Results *)

(** safecpy never writes outside the dstsize bytes at dst: with room, it leaves
    at dst the longest prefix of src that fits with its NUL, returns its length,
    and changes no other byte; a size of 0 or less writes nothing and returns 0. *)
Theorem safecpy_correct (m : list Z) (dst : Z) (src : list Z) (dstsize : Z) :
  Forall (fun c => c <> 0) src -> 0 <= dst ->
  (dstsize <= 0 -> safecpy m dst src dstsize = Some (m, 0)) /\
  (0 < dstsize -> dst + dstsize <= zlen m ->
   exists m', safecpy m dst src dstsize = Some (m', Z.min (zlen src) (dstsize - 1)) /\
     cstr_at m' dst (fit src dstsize) /\ zlen m' = zlen m /\
     forall j, 0 <= j -> j < dst \/ dst + dstsize <= j -> rd m' j = rd m j).
Proof.
  intros Hs Hd. split.
  - intros H. unfold safecpy, __copy. by rewrite (proj2 (Z.ltb_ge _ _)).
  - intros H Hm. pose proof (fit_bound src dstsize H) as B.
    exists (splice m dst (fit src dstsize ++ [0])). unfold safecpy.
    rewrite copy_spec, zlen_fit by done. split; [done|]. split; [|split].
    + apply cstr_at_splice; [done|by apply fit_nonzero|].
      unfold zlen in *. rewrite length_app in B. cbn [length] in B. lia.
    + apply zlen_splice; lia.
    + intros j Hj0 Hj. apply splice_frame; lia.
Qed.

Definition hello : list Z := [104; 101; 108; 108; 111].

Lemma safecpy_correct_witness :
  safecpy (replicate 6 9) 1 hello 4 = Some ([9; 104; 101; 108; 0; 9], 3) /\
  safecpy (replicate 6 9) 1 hello 0 = Some (replicate 6 9, 0).
Proof.
  split; [reflexivity|]. apply (safecpy_correct (replicate 6 9) 1 hello 0); [|lia..].
  unfold hello. repeat apply Forall_cons_2; try apply Forall_nil_2; lia.
Defined.

(** C29: safecat and strlcat append: to a buffer of dstsize bytes holding the string
    s, both leave s followed by the longest prefix of src that fits, terminated
    inside the buffer, or the buffer unchanged when s already fills it; safecat
    returns the number of bytes appended, strlcat the length it tried to make.
    The lengths are ints in the code, so safecat asks that s, and strlcat that s
    and src together, be shorter than 2^31. *)
Theorem append_correct (m : list Z) (dst : Z) (s src : list Z) (dstsize : Z) :
  cstr_at m dst s -> Forall (fun c => c <> 0) src ->
  0 <= dstsize < 2 ^ 31 -> zlen s < 2 ^ 31 -> dst + dstsize <= zlen m ->
  let room := dstsize - zlen s in
  let m' := if 0 <? room then splice m (dst + zlen s) (fit src room ++ [0]) else m in
  let appended := if 0 <? room then fit src room else [] in
  safecat m dst src dstsize = Some (m', zlen appended) /\
  (zlen s + zlen src < 2 ^ 31 -> strlcat m dst src dstsize = Some (m', zlen s + zlen src)) /\
  cstr_at m' dst (s ++ appended).
Proof.
  intros Hc Hs Hd Hsl Hm room m' appended. pose proof (proj1 Hc) as Hdst.
  pose proof (cstr_at_bound m dst s Hc) as Hb.
  pose proof (zlen_nonneg s) as H0. pose proof (zlen_nonneg src) as H1.
  unfold safecat. rewrite (strlen_cstr m dst s Hc). cbn [mbind option_bind].
  rewrite (s32_id (zlen s)) by lia. cbv zeta. rewrite (s32_id (dstsize - zlen s)) by lia.
  split; [|split].
  - subst m' appended. destruct (Z.ltb_spec 0 room) as [Hr|Hr]; unfold room in *.
    + rewrite (proj2 (Z.leb_gt _ _)) by lia. apply copy_spec; lia.
    + destruct (Z.leb_spec dstsize 0); [done|].
      unfold __copy. by rewrite (proj2 (Z.ltb_ge _ _)) by lia.
  - intros Hb2. rewrite (strlcat_spec m dst s src dstsize) by done. done.
  - subst m' appended. destruct (Z.ltb_spec 0 room) as [Hr|Hr]; unfold room in *.
    + pose proof (fit_bound src (dstsize - zlen s) Hr) as B.
      apply cstr_at_append; [done|by apply fit_nonzero|].
      rewrite zlen_app in B. change (zlen [0]) with 1 in B. lia.
    + by rewrite app_nil_r.
Qed.

Lemma append_correct_witness :
  safecat [104; 105; 0; 9; 9; 9] 0 hello 5 = Some ([104; 105; 104; 101; 0; 9], 2) /\
  strlcat [104; 105; 0; 9; 9; 9] 0 hello 5 = Some ([104; 105; 104; 101; 0; 9], 7).
Proof.
  split; [reflexivity|].
  refine (proj1 (proj2 (append_correct [104; 105; 0; 9; 9; 9] 0 [104; 105] hello 5 _ _ _ _ _)) _).
  - split; [lia|]. split; [|reflexivity].
    repeat apply Forall_cons_2; try apply Forall_nil_2; lia.
  - unfold hello. repeat apply Forall_cons_2; try apply Forall_nil_2; lia.
  - lia.
  - reflexivity.
  - unfold zlen. cbn. lia.
  - reflexivity.
Defined.

(** A source too long for an int is written past the end of the buffer: strlcat
    takes one of 2^31 to 2^32 - 1 bytes for a negative length, which always fits,
    and strlcpy one of 2^32 bytes or a little more for a short one. *)
Theorem long_source_overflows (m : list Z) (dst : Z) (s src : list Z) (dstsize : Z) :
  cstr_at m dst s -> 0 < dstsize < 2 ^ 31 -> zlen m <= dst + zlen src ->
  (zlen s < dstsize -> 2 ^ 31 <= zlen src < 2 ^ 32 -> strlcat m dst src dstsize = None) /\
  (2 ^ 32 <= zlen src < 2 ^ 32 + dstsize -> strlcpy m dst src dstsize = None).
Proof.
  intros Hc Hd Hm. pose proof (zlen_nonneg s) as H0.
  assert (Hf : forall i, dst <= i -> strcpy m i src = None).
  { intros i Hi. unfold strcpy, mwrs. rewrite zlen_app. change (zlen [0]) with 1.
    by rewrite (proj2 (Z.leb_gt (i + (zlen src + 1)) (zlen m))), andb_false_r by lia. }
  split.
  - intros Hs Hl. unfold strlcat. rewrite (strlen_cstr m dst s Hc). cbn [mbind option_bind].
    rewrite (s32_id (zlen s)) by lia. cbv zeta. rewrite (u64_id (zlen s)) by (unfold fits; lia).
    rewrite (u64_id (dstsize - zlen s)) by (unfold fits; lia).
    rewrite (s32_id (dstsize - zlen s)) by lia.
    assert (E : s32 (zlen src) = zlen src - 2 ^ 32).
    { unfold s32. rewrite <- (Z.mod_add _ (-1)), Z.mod_small by lia. lia. }
    rewrite E, !(proj2 (Z.ltb_lt _ _)) by lia. by rewrite Hf by lia.
  - intros Hl. unfold strlcpy.
    assert (E : s32 (zlen src) = zlen src - 2 ^ 32).
    { unfold s32. rewrite <- (Z.mod_add _ (-1)), Z.mod_small by lia. lia. }
    rewrite E, u64_id by (unfold fits; lia). rewrite !(proj2 (Z.ltb_lt _ _)) by lia.
    by rewrite Hf by lia.
Qed.

(** strlcpy and strconcat leave at the destination the longest prefix of the
    source, or of the concatenation of the arguments, that fits with its NUL in
    the given size, and write nothing outside it; strlcpy returns the length of
    the source, strconcat the length actually stored. *)
Theorem copy_correct (m : list Z) (dst : Z) (src : list Z) (args : list (list Z)) (size : Z) :
  0 <= dst -> 0 < size < 2 ^ 31 -> dst + size <= zlen m -> args <> [] ->
  Forall (fun c => c <> 0) src -> zlen src < 2 ^ 31 -> zlen (concat args) < 2 ^ 31 ->
  strlcpy m dst src size = Some (splice m dst (fit src size ++ [0]), zlen src) /\
  cstr_at (splice m dst (fit src size ++ [0])) dst (fit src size) /\
  strconcat m dst size args =
    Some (splice m dst (fit (concat args) size ++ [0]), zlen (fit (concat args) size)).
Proof.
  intros Hd [Hs Hs'] Hm Ha Hn Hl Hc. split; [by apply strlcpy_spec|]. split.
  - pose proof (fit_bound src size Hs) as B. apply cstr_at_splice; [done|by apply fit_nonzero|].
    unfold zlen in *. rewrite length_app in B. cbn [length] in B. lia.
  - by apply strconcat_spec.
Qed.

Lemma copy_correct_witness :
  strconcat (replicate 9 7) 1 7 [hello; [44]; hello]
    = Some ([7; 104; 101; 108; 108; 111; 44; 0; 7], 6) /\
  strlcpy (replicate 9 7) 1 hello 7 = Some ([7; 104; 101; 108; 108; 111; 0; 7; 7], 5).
Proof.
  split; [reflexivity|].
  refine (proj1 (copy_correct (replicate 9 7) 1 hello [[44]] 7 _ _ _ _ _ _ _)).
  - lia.
  - lia.
  - unfold zlen. cbn. lia.
  - done.
  - unfold hello. repeat apply Forall_cons_2; try apply Forall_nil_2; lia.
  - reflexivity.
  - reflexivity.
Defined.

End Strings.
