(* ===== verification/Strfmt.v ===== *)
(** The formatter and the number conversions (strfmt.c).  Numbers are written
    digit by digit and reversed in place, as the code does; the formatter writes
    through an output buffer with checked memory, and counts in ints.  The output
    is shown to be the prefix that fits of a reference rendering, and the result
    its full length, when an int can hold that length. *)

From S2P Require Import Prelude.
From S2P Require Import Strings.

Module Strfmt.
Import Strings.

Definition WIDTH_MASK : Z := 0x0fffff.
Definition SAW_NEG : Z := 0x100000.
Definition SAW_ZERO : Z := 0x200000.
Definition SAW_LONG : Z := 0x400000.

(** ** Numbers to strings *)

(** One exchange of the loop of reverse_string. *)
Definition swap (s : list Z) (i j : Z) : list Z :=
  let temp := rd s j in wr (wr s j (rd s i)) i temp.

(** Reverse the [len] characters of [s]: half as many exchanges. *)
Definition reverse_string (s : list Z) : list Z :=
  let len := zlen s / 2 in
  fold_left (fun s i => swap s i (zlen s - 1 - i)) (seqZ 0 len) s.

(** [while (val > 0) { *p++ = digit; val = next; }]; 64 steps are enough. *)
Fixpoint digits_loop (digit next : Z -> Z) (fuel : nat) (val : Z) : list Z :=
  match fuel with
  | O => []
  | S fuel => if 0 <? val then digit val :: digits_loop digit next fuel (next val) else []
  end.

Definition _octal2str (val : Z) : list Z :=
  if val =? 0 then [48]
  else reverse_string (digits_loop (fun v => (v .& 0x7) + 48) (fun v => v .>> 3) 64 val).

(** [val] is a long; the negation of the smallest long is itself. *)
Definition _int2str (val : Z) : list Z :=
  if val =? 0 then [48]
  else
    let neg := val <? 0 in
    let val := if neg then s64 (- val) else val in
    let p := digits_loop (fun v => Z.rem v 10 + 48) (fun v => Z.quot v 10) 64 val in
    let p := if neg then p ++ [45] else p in
    reverse_string p.

Definition _uint2str (val : Z) : list Z :=
  if val =? 0 then [48]
  else reverse_string (digits_loop (fun v => v mod 10 + 48) (fun v => v / 10) 64 val).

Definition _hex2str (val : Z) : list Z :=
  if val =? 0 then [48]
  else reverse_string (digits_loop (fun v => rd tohex (v .& 0xf)) (fun v => v .>> 4) 64 val).

(** ** The output buffer *)

(** The memory, the write position [str], the bytes left and the total count;
    the last two are ints, cut to 32 bits after every operation. *)
Record outbuff := {
  mem : list Z;
  str : Z;
  len : Z;
  n : Z;
}.

Definition outmemset (out : outbuff) (c size : Z) : option outbuff :=
  if 0 <? size then
    let n := s32 (n out + size) in
    let size := if len out <? size then len out else size in
    if 0 <? size then
      m ← mwrs (mem out) (str out) (replicate (Z.to_nat size) c);
      Some {| mem := m; str := str out + size; len := s32 (len out - size); n := n |}
    else Some {| mem := mem out; str := str out; len := len out; n := n |}
  else Some out.

Definition outmemcpy (out : outbuff) (s : list Z) (size : Z) : option outbuff :=
  if 0 <? size then
    let n := s32 (n out + size) in
    let size := if len out <? size then len out else size in
    if 0 <? size then
      m ← mwrs (mem out) (str out) (take (Z.to_nat size) s);
      Some {| mem := m; str := str out + size; len := s32 (len out - size); n := n |}
    else Some {| mem := mem out; str := str out; len := len out; n := n |}
  else Some out.

Definition outchar (out : outbuff) (ch : Z) : option outbuff :=
  let n := s32 (n out + 1) in
  if 0 <? len out then
    m ← mwr (mem out) (str out) (u8 ch);
    Some {| mem := m; str := str out + 1; len := s32 (len out - 1); n := n |}
  else Some {| mem := mem out; str := str out; len := len out; n := n |}.

Definition outstr (out : outbuff) (s : list Z) (flags : Z) : option outbuff :=
  let slen := s32 (zlen s) in
  let len := flags .& WIDTH_MASK in
  let pad := s32 (len - slen) in
  if flags .& SAW_NEG =? 0 then
    out ← outmemset out 32 pad;
    out ← outmemcpy out s slen;
    outmemset out 32 0
  else
    out ← outmemcpy out s slen;
    outmemset out 32 pad.

Definition outnum (out : outbuff) (s : list Z) (flags : Z) : option outbuff :=
  let slen := s32 (zlen s) in
  let len := flags .& WIDTH_MASK in
  out ← (if negb (len =? 0) then
           outmemset out (if negb (flags .& SAW_ZERO =? 0) then 48 else 32) (s32 (len - slen))
         else Some out);
  outmemcpy out s slen.

(** ** Conversions *)

Definition isdigit (c : Z) : bool := (48 <=? c) && (c <=? 57).

(** The digits of a width, in an unsigned, and what follows them. *)
Fixpoint parse_width (fmt : list Z) (width : Z) : Z * list Z :=
  match fmt with
  | c :: rest => if isdigit c then parse_width rest (u32 (width * 10 + c - 48)) else (width, fmt)
  | [] => (width, [])
  end.

(** The flags of the conversion after a percent sign, and what follows them. *)
Definition parse_flags (fmt : list Z) : Z * list Z :=
  let '(flags, fmt) :=
    match fmt with
    | c :: rest => if c =? 45 then (SAW_NEG, rest) else (0, fmt)
    | [] => (0, fmt)
    end in
  let flags :=
    match fmt with
    | c :: _ => if c =? 48 then flags .| SAW_ZERO else flags
    | [] => flags
    end in
  let '(width, fmt) := parse_width fmt 0 in
  let flags := flags .| (width .& WIDTH_MASK) in
  match fmt with
  | c :: rest => if c =? 108 then (flags .| SAW_LONG, rest) else (flags, fmt)
  | [] => (flags, fmt)
  end.

(** A variable argument: a string or the bits of an integer. *)
Inductive arg : Type := AStr (s : list Z) | AInt (v : Z).

(** A conversion: what is written and how it is justified. *)
Inductive item : Type := IStr (s : list Z) (flags : Z) | INum (s : list Z) (flags : Z) | IChar (c : Z).

(** The text of an integer conversion; the long flag selects the argument's width. *)
Definition num_text (c flags v : Z) : option (list Z) :=
  let long := negb (flags .& SAW_LONG =? 0) in
  if c =? 100 then Some (_int2str (if long then s64 v else s32 v))
  else if c =? 111 then Some (_octal2str (if long then s64 v else s32 v))
  else if c =? 117 then Some (_uint2str (if long then u64 v else u32 v))
  else if c =? 120 then Some (_hex2str (if long then u64 v else u32 v))
  else None.

(** The next item of a non-empty format, the rest of the format and of the
    arguments.  [None]: an argument is missing or of the wrong kind.  After an
    unknown conversion the percent sign is printed and the format resumes just
    after it. *)
Definition next_item (fmt : list Z) (ap : list arg) : option (item * list Z * list arg) :=
  match fmt with
  | [] => None
  | c :: save =>
      if c =? 37 then
        let '(flags, fmt) := parse_flags save in
        match fmt with
        | [] => Some (IChar 37, save, ap)
        | c :: fmt =>
            if c =? 115 then
              match ap with AStr s :: ap => Some (IStr s flags, fmt, ap) | _ => None end
            else if c =? 99 then
              match ap with AInt v :: ap => Some (IChar v, fmt, ap) | _ => None end
            else if (c =? 100) || (c =? 111) || (c =? 117) || (c =? 120) then
              match ap with
              | AInt v :: ap => s ← num_text c flags v; Some (INum s flags, fmt, ap)
              | _ => None
              end
            else Some (IChar 37, save, ap)
        end
      else Some (IChar c, save, ap)
  end.

Definition put_item (out : outbuff) (i : item) : option outbuff :=
  match i with
  | IStr s flags => outstr out s flags
  | INum s flags => outnum out s flags
  | IChar c => outchar out c
  end.

Fixpoint __strfmt (fuel : nat) (out : outbuff) (fmt : list Z) (ap : list arg) : option outbuff :=
  match fmt with
  | [] =>
      m ← mwr (mem out) (str out) 0;
      Some {| mem := m; str := str out; len := len out; n := n out |}
  | _ =>
      match fuel with
      | O => None
      | S fuel =>
          '(i, fmt, ap) ← next_item fmt ap;
          out ← put_item out i;
          __strfmt fuel out fmt ap
      end
  end.

(** The memory and the result. *)
Definition strfmt_ap (m : list Z) (str len : Z) (fmt : list Z) (ap : list arg)
  : option (list Z * Z) :=
  if len <? 1 then Some (m, 0)
  else
    out ← __strfmt (length fmt) {| mem := m; str := str; len := s32 (len - 1); n := 0 |} fmt ap;
    Some (mem out, n out).

Definition strfmt (m : list Z) (str len : Z) (fmt : list Z) (args : list arg)
  : option (list Z * Z) := strfmt_ap m str len fmt args.

(** ** The reference rendering *)

Definition spaces (k : Z) : list Z := replicate (Z.to_nat k) 32.

Definition render_item (i : item) : list Z :=
  match i with
  | IStr s flags =>
      let pad := (flags .& WIDTH_MASK) - zlen s in
      if flags .& SAW_NEG =? 0 then spaces pad ++ s else s ++ spaces pad
  | INum s flags =>
      let pad := (flags .& WIDTH_MASK) - zlen s in
      (if flags .& SAW_ZERO =? 0 then spaces pad else replicate (Z.to_nat pad) 48) ++ s
  | IChar c => [u8 c]
  end.

(** The whole output, without any bound. *)
Fixpoint render (fuel : nat) (fmt : list Z) (ap : list arg) : option (list Z) :=
  match fmt with
  | [] => Some []
  | _ =>
      match fuel with
      | O => None
      | S fuel =>
          '(i, fmt, ap) ← next_item fmt ap;
          rest ← render fuel fmt ap;
          Some (render_item i ++ rest)
      end
  end.

(** ** Reversing in place *)

Lemma length_swap s i j : length (swap s i j) = length s.
Proof. unfold swap. by rewrite !length_wr. Qed.

Lemma swap_lookup s i j k :
  (i < length s)%nat -> (j < length s)%nat ->
  swap s (Z.of_nat i) (Z.of_nat j) !! k =
    if decide (k = i) then s !! j else if decide (k = j) then s !! i else s !! k.
Proof.
  intros Hi Hj. unfold swap, wr, rd. rewrite !Nat2Z.id.
  assert (E : forall x, (x < length s)%nat -> Some (nth x s 0) = s !! x)
    by (intros x Hx; destruct (lookup_lt_is_Some_2 s x Hx) as [y Hy];
        rewrite Hy; by rewrite (nth_lookup_Some _ _ _ _ Hy)).
  destruct (decide (k = i)) as [->|Hki].
  - rewrite list_lookup_insert_eq by (rewrite length_insert; lia). by apply E.
  - rewrite list_lookup_insert_ne by done. destruct (decide (k = j)) as [->|Hkj].
    + rewrite list_lookup_insert_eq by lia. by apply E.
    + by rewrite list_lookup_insert_ne by done.
Qed.

(** After [k] exchanges the two ends are reversed, the middle is not. *)
Lemma swaps_lookup s k j :
  (2 * k <= length s)%nat -> (j < length s)%nat ->
  let s' := fold_left (fun t i => swap t i (zlen t - 1 - i)) (seqZ 0 (Z.of_nat k)) s in
  length s' = length s /\
  s' !! j = if decide (j < k \/ length s - k <= j)%nat then s !! (length s - 1 - j)%nat else s !! j.
Proof.
  intros Hk. revert j. induction k as [|k IH]; intros j Hj.
  - cbn. split; [done|]. destruct (decide _) as [D|]; [lia|done].
  - replace (Z.of_nat (S k)) with (Z.of_nat k + 1) by lia.
    rewrite seqZ_snoc, List.fold_left_app by lia. cbn [fold_left].
    set (t := fold_left _ (seqZ 0 (Z.of_nat k)) s) in *.
    assert (IH' : forall j, (j < length s)%nat -> length t = length s /\ t !! j =
      if decide (j < k \/ length s - k <= j)%nat then s !! (length s - 1 - j)%nat else s !! j)
      by (intros; apply IH; lia).
    destruct (IH' j Hj) as [Hlen _]. cbn zeta. split; [by rewrite length_swap|].
    rewrite Z.add_0_l. unfold zlen. rewrite Hlen.
    replace (Z.of_nat (length s) - 1 - Z.of_nat k) with (Z.of_nat (length s - 1 - k)) by lia.
    rewrite swap_lookup by lia.
    destruct (decide (j = k)) as [->|Hjk]; [|destruct (decide (j = length s - 1 - k)%nat) as [->|Hjk']].
    + destruct (IH' (length s - 1 - k)%nat) as [_ ->]; [lia|].
      destruct (decide _) as [D|]; [lia|]. by destruct (decide _) as [D|]; [|lia].
    + destruct (IH' k) as [_ ->]; [lia|].
      destruct (decide (k < k \/ _)%nat) as [D|]; [lia|].
      destruct (decide _) as [D|]; [f_equal; lia|lia].
    + destruct (IH' j Hj) as [_ ->].
      destruct (decide _) as [D|D], (decide _) as [D'|D']; (done || lia).
Qed.

Lemma reverse_string_rev s : reverse_string s = rev s.
Proof.
  unfold reverse_string.
  cbv zeta.
  replace (zlen s / 2) with (Z.of_nat (length s / 2)) by (unfold zlen; by rewrite Nat2Z.inj_div).
  set (k := (length s / 2)%nat).
  assert (Hk : (2 * k <= length s < 2 * k + 2)%nat)
    by (unfold k;
        pose proof (Nat.Div0.div_mod (length s) 2); pose proof (Nat.mod_upper_bound (length s) 2); lia).
  apply list_eq_same_length with (length s).
  - by rewrite length_rev.
  - destruct (decide (length s = 0%nat)) as [E|E].
    + destruct s; [|done]. done.
    + by apply (swaps_lookup s k 0); lia.
  - intros i x y Hi. destruct (swaps_lookup s k i) as [_ ->]; [lia|done|].
    rewrite rev_alt. change (rev_append s []) with (reverse s). rewrite reverse_lookup by done.
    replace (length s - S i)%nat with (length s - 1 - i)%nat by lia.
    destruct (decide _) as [D|D]; [congruence|].
    replace (length s - 1 - i)%nat with i by lia. congruence.
Qed.

(** ** Reading numbers back *)

(** The value of a digit string in a base, most significant digit first. *)
Definition read_num (base : Z) (value : Z -> Z) (s : list Z) : Z :=
  fold_left (fun acc c => acc * base + value c) s 0.

Definition digit_value (c : Z) : Z := if c <=? 57 then c - 48 else c - 87.

Definition read_int (s : list Z) : Z :=
  match s with
  | 45 :: s => - read_num 10 digit_value s
  | _ => read_num 10 digit_value s
  end.

Section Digits.
Context (base : Z) (digit next : Z -> Z).
Context (Hbase : 2 <= base).
Context (Hnext : forall v, 0 < v -> next v = v / base).
Context (Hdigit : forall v, 0 < v -> digit_value (digit v) = v mod base).

Lemma digits_length fuel v k :
  0 <= v < base ^ Z.of_nat k -> (length (digits_loop digit next fuel v) <= k)%nat.
Proof using Hbase Hnext.
  revert fuel v. induction k as [|k IH]; intros [|fuel] v Hv; cbn [digits_loop length]; try lia.
  - change (base ^ Z.of_nat 0) with 1 in Hv. rewrite (proj2 (Z.ltb_ge _ _)) by lia. cbn. lia.
  - destruct (Z.ltb_spec 0 v); [|cbn; lia]. cbn [length].
    rewrite Hnext by done. apply le_n_S, IH.
    rewrite Nat2Z.inj_succ, Z.pow_succ_r in Hv by lia.
    split; [apply Z.div_pos; lia|apply Z.div_lt_upper_bound; lia].
Qed.

Lemma digits_value fuel v :
  0 <= v < base ^ Z.of_nat fuel ->
  read_num base digit_value (rev (digits_loop digit next fuel v)) = v.
Proof using Hbase Hnext Hdigit.
  revert v. induction fuel as [|fuel IH]; intros v Hv; cbn [digits_loop].
  - change (base ^ Z.of_nat 0) with 1 in Hv. cbn. lia.
  - destruct (Z.ltb_spec 0 v); [|cbn; lia]. cbn [rev]. unfold read_num in *.
    rewrite List.fold_left_app. cbn [fold_left].
    rewrite Nat2Z.inj_succ, Z.pow_succ_r in Hv by lia.
    rewrite Hnext, Hdigit, IH by (done || (split; [apply Z.div_pos; lia|
      apply Z.div_lt_upper_bound; lia])).
    pose proof (Z.div_mod v base ltac:(lia)). lia.
Qed.

(** The first character is a digit, not a sign. *)
Lemma digits_nonempty fuel v :
  0 < v -> (0 < fuel)%nat -> digits_loop digit next fuel v <> [].
Proof using Type. intros Hv Hf. destruct fuel; [lia|]. cbn. by rewrite (proj2 (Z.ltb_lt _ _)). Qed.
End Digits.

Lemma dec_digit v : 0 < v -> digit_value (v mod 10 + 48) = v mod 10.
Proof.
  intros Hv. pose proof (Z.mod_pos_bound v 10 ltac:(lia)). unfold digit_value.
  rewrite (proj2 (Z.leb_le _ _)) by lia. lia.
Qed.

Lemma oct_digit v : 0 < v -> digit_value ((v .& 7) + 48) = v mod 8.
Proof.
  intros Hv. change 7 with (Z.ones 3). rewrite Z.land_ones by lia. change (2 ^ 3) with 8.
  pose proof (Z.mod_pos_bound v 8 ltac:(lia)). unfold digit_value.
  rewrite (proj2 (Z.leb_le _ _)) by lia. lia.
Qed.

Lemma hex_digit v : 0 < v -> digit_value (rd tohex (v .& 0xf)) = v mod 16.
Proof.
  intros Hv. change 15 with (Z.ones 4). rewrite Z.land_ones by lia. change (2 ^ 4) with 16.
  pose proof (Z.mod_pos_bound v 16 ltac:(lia)) as B. revert B. generalize (v mod 16). clear.
  intros x B. assert (H : forallb (fun x => digit_value (rd tohex x) =? x) (seqZ 0 16) = true)
    by by vm_compute.
  rewrite forallb_forall in H. apply Z.eqb_eq, H, list_elem_of_In, elem_of_seqZ. lia.
Qed.

Lemma shiftr_div k v : 0 <= k -> 0 < v -> v .>> k = v / 2 ^ k.
Proof. intros. by rewrite Z.shiftr_div_pow2. Qed.

Lemma uint2str_value v : 0 <= v < 2 ^ 64 -> read_num 10 digit_value (_uint2str v) = v.
Proof.
  intros Hv. unfold _uint2str. destruct (Z.eqb_spec v 0) as [->|]; [done|].
  rewrite reverse_string_rev. apply digits_value; [lia|done|apply dec_digit|].
  split; [lia|]. eapply Z.lt_le_trans; [apply Hv|by vm_compute].
Qed.

Lemma hex2str_value v : 0 <= v < 2 ^ 64 -> read_num 16 digit_value (_hex2str v) = v.
Proof.
  intros Hv. unfold _hex2str. destruct (Z.eqb_spec v 0) as [->|]; [done|].
  rewrite reverse_string_rev. apply digits_value; [lia| |apply hex_digit|].
  - intros. by rewrite shiftr_div.
  - split; [lia|]. eapply Z.lt_le_trans; [apply Hv|by vm_compute].
Qed.

Lemma octal2str_value v : 0 <= v < 2 ^ 63 -> read_num 8 digit_value (_octal2str v) = v.
Proof.
  intros Hv. unfold _octal2str. destruct (Z.eqb_spec v 0) as [->|]; [done|].
  rewrite reverse_string_rev. apply digits_value; [lia| |apply oct_digit|].
  - intros. by rewrite shiftr_div.
  - split; [lia|]. eapply Z.lt_le_trans; [apply Hv|by vm_compute].
Qed.

(** The digits of a positive long: the quotient and remainder of C agree with
    those of the integers. *)
Lemma int_digits fuel v :
  0 <= v -> digits_loop (fun v => Z.rem v 10 + 48) (fun v => Z.quot v 10) fuel v
  = digits_loop (fun v => v mod 10 + 48) (fun v => v / 10) fuel v.
Proof.
  revert v. induction fuel as [|fuel IH]; intros v Hv; [done|]. cbn [digits_loop].
  destruct (Z.ltb_spec 0 v); [|done].
  rewrite Z.rem_mod_nonneg, Z.quot_div_nonneg by lia. f_equal. apply IH.
  apply Z.div_pos; lia.
Qed.

Lemma dec_digit_range fuel v c :
  c ∈ digits_loop (fun v => v mod 10 + 48) (fun v => v / 10) fuel v -> 48 <= c <= 57.
Proof.
  revert v. induction fuel as [|fuel IH]; intros v; cbn [digits_loop]; [by rewrite elem_of_nil|].
  destruct (0 <? v); [|by rewrite elem_of_nil]. rewrite elem_of_cons. intros [->|H].
  - pose proof (Z.mod_pos_bound v 10 ltac:(lia)). lia.
  - by apply (IH (v / 10)).
Qed.

(** A digit string is not mistaken for a negative number. *)
Lemma read_int_digits fuel v :
  read_int (rev (digits_loop (fun v => v mod 10 + 48) (fun v => v / 10) fuel v))
  = read_num 10 digit_value (rev (digits_loop (fun v => v mod 10 + 48) (fun v => v / 10) fuel v)).
Proof.
  destruct (rev _) as [|c l] eqn:E; [done|].
  assert (Hc : 48 <= c <= 57).
  { apply (dec_digit_range fuel v). apply list_elem_of_In, in_rev. rewrite E. by left. }
  assert (E' : c = 48 \/ c = 49 \/ c = 50 \/ c = 51 \/ c = 52 \/ c = 53 \/ c = 54 \/ c = 55
    \/ c = 56 \/ c = 57) by lia. clear E Hc.
  by repeat (destruct E' as [->|E']; [done|]); subst.
Qed.

Lemma int2str_value v : - 2 ^ 63 < v < 2 ^ 63 -> read_int (_int2str v) = v.
Proof.
  intros Hv. unfold _int2str. destruct (Z.eqb_spec v 0) as [->|H0]; [done|].
  assert (V : forall x, 0 < x < 2 ^ 63 -> read_num 10 digit_value (rev
    (digits_loop (fun v => v mod 10 + 48) (fun v => v / 10) 64 x)) = x).
  { intros x Hx. apply digits_value; [lia|done|apply dec_digit|].
    split; [lia|]. eapply Z.lt_le_trans; [apply Hx|by vm_compute]. }
  destruct (Z.ltb_spec v 0).
  - assert (E : s64 (- v) = - v) by (unfold s64; rewrite Z.mod_small; lia).
    rewrite E, int_digits, reverse_string_rev, rev_app_distr by lia. cbn [rev app].
    unfold read_int. rewrite V by lia. lia.
  - rewrite int_digits, reverse_string_rev by lia. rewrite read_int_digits. apply V. lia.
Qed.

(** The longest strings: with the NUL they fit in the 22 bytes of [tmp]. *)
Lemma reverse_length s k : (length s <= k)%nat -> (length (reverse_string s) <= k)%nat.
Proof. by rewrite reverse_string_rev, length_rev. Qed.

Lemma digits_length_neg digit next fuel v k :
  v <= 0 -> (length (digits_loop digit next fuel v) <= k)%nat.
Proof.
  intros Hv. destruct fuel; cbn [digits_loop length]; [lia|].
  rewrite (proj2 (Z.ltb_ge _ _)) by lia. cbn. lia.
Qed.

Lemma uint2str_length v : 0 <= v < 2 ^ 64 -> (length (_uint2str v) <= 21)%nat.
Proof.
  intros Hv. unfold _uint2str. destruct (v =? 0); [cbn; lia|]. apply reverse_length.
  apply (digits_length 10); [lia|done|]. split; [lia|].
  eapply Z.lt_le_trans; [apply Hv|by vm_compute].
Qed.

Lemma hex2str_length v : 0 <= v < 2 ^ 64 -> (length (_hex2str v) <= 21)%nat.
Proof.
  intros Hv. unfold _hex2str. destruct (v =? 0); [cbn; lia|]. apply reverse_length.
  apply (digits_length 16); [lia|intros; by rewrite shiftr_div|]. split; [lia|].
  eapply Z.lt_le_trans; [apply Hv|by vm_compute].
Qed.

Lemma octal2str_length v : v < 2 ^ 63 -> (length (_octal2str v) <= 21)%nat.
Proof.
  intros Hv. unfold _octal2str. destruct (v =? 0); [cbn; lia|]. apply reverse_length.
  destruct (Z.le_gt_cases v 0); [by apply digits_length_neg|].
  apply (digits_length 8); [lia|intros; by rewrite shiftr_div|]. split; [lia|].
  eapply Z.lt_le_trans; [apply Hv|by vm_compute].
Qed.

Lemma int2str_length v : v < 2 ^ 63 -> (length (_int2str v) <= 21)%nat.
Proof.
  intros Hv. unfold _int2str. destruct (v =? 0); [cbn; lia|]. apply reverse_length.
  assert (D : forall y, y < 2 ^ 63 -> (length (digits_loop (fun v => Z.rem v 10 + 48)%Z
    (fun v => Z.quot v 10) 64 y) <= 19)%nat).
  { intros y Hy. destruct (Z.le_gt_cases y 0); [by apply digits_length_neg|].
    rewrite int_digits by lia. apply (digits_length 10); [lia|done|]. split; [lia|].
    eapply Z.lt_le_trans; [apply Hy|by vm_compute]. }
  assert (Hs : s64 (- v) < 2 ^ 63)
    by (unfold s64; pose proof (Z.mod_pos_bound (- v + 2 ^ 63) (2 ^ 64)); lia).
  destruct (v <? 0); rewrite ?length_app; cbn [length].
  - pose proof (D (s64 (- v)) Hs). lia.
  - pose proof (D v Hv). lia.
Qed.

Lemma num_text_length c flags v s : num_text c flags v = Some s -> (length s <= 21)%nat.
Proof.
  assert (B : s64 v < 2 ^ 63 /\ s32 v < 2 ^ 63).
  { unfold s64, s32. pose proof (Z.mod_pos_bound (v + 2 ^ 63) (2 ^ 64) ltac:(lia)).
    pose proof (Z.mod_pos_bound (v + 2 ^ 31) (2 ^ 32) ltac:(lia)). lia. }
  pose proof (fits_u64 v) as F64. pose proof (fits_u32 v) as F32. unfold fits in F64, F32.
  unfold num_text. intros E.
  repeat match type of E with context [if ?b then _ else _] => destruct b end;
    try discriminate E; injection E as <-;
    first [apply int2str_length; lia | apply octal2str_length; lia
          | apply uint2str_length; lia | apply hex2str_length; lia].
Qed.

(** ** The output buffer as a bounded sink *)

(** Room for the rest of the output and the NUL, and a length that is an int. *)
Definition room (o : outbuff) : Prop :=
  0 <= str o /\ 0 <= len o < 2 ^ 31 /\ str o + len o < zlen (mem o).

(** The count stays an int when [k] more bytes are put out. *)
Definition counts (o : outbuff) (k : Z) : Prop := 0 <= n o /\ n o + k < 2 ^ 31.

(** What any sequence of output operations amounts to. *)
Definition emit (o : outbuff) (l : list Z) : outbuff :=
  let size := Z.min (zlen l) (len o) in
  {| mem := splice (mem o) (str o) (take (Z.to_nat size) l);
     str := str o + size; len := len o - size; n := n o + zlen l |}.

Lemma emit_fields o l :
  room o -> zlen (take (Z.to_nat (Z.min (zlen l) (len o))) l) = Z.min (zlen l) (len o) /\
  zlen (mem (emit o l)) = zlen (mem o) /\ room (emit o l).
Proof.
  intros (H1 & H2 & H3).
  assert (E : zlen (take (Z.to_nat (Z.min (zlen l) (len o))) l) = Z.min (zlen l) (len o))
    by (unfold zlen; rewrite length_take; lia).
  assert (E2 : zlen (mem (emit o l)) = zlen (mem o)) by (cbn; rewrite zlen_splice; lia).
  split; [done|]. split; [done|]. unfold room. rewrite E2. cbn.
  assert (0 <= zlen l) by (unfold zlen; lia). lia.
Qed.

Lemma emit_room o l : room o -> room (emit o l).
Proof. intros H. by apply emit_fields. Qed.

Lemma emit_counts o l1 l2 :
  counts o (zlen (l1 ++ l2)) -> counts o (zlen l1) /\ counts (emit o l1) (zlen l2).
Proof.
  unfold counts. rewrite zlen_app. cbn [emit n].
  pose proof (zlen_nonneg l1). pose proof (zlen_nonneg l2). lia.
Qed.

Lemma emit_nil o : room o -> emit o [] = o.
Proof.
  intros (H1 & H2 & H3). destruct o as [m s k c]. unfold emit. cbn in *.
  change (zlen []) with 0. rewrite Z.min_l by lia. cbn [Z.to_nat take].
  rewrite splice_nil by lia. f_equal; lia.
Qed.

(** Output is sequential. *)
Lemma emit_app o l1 l2 : room o -> emit (emit o l1) l2 = emit o (l1 ++ l2).
Proof.
  intros Ho. destruct (emit_fields o l1 Ho) as (E1 & _ & _). destruct Ho as (H1 & H2 & H3).
  assert (Ez : zlen (l1 ++ l2) = zlen l1 + zlen l2) by (unfold zlen; rewrite length_app; lia).
  assert (P1 : 0 <= zlen l1) by (unfold zlen; lia). assert (P2 : 0 <= zlen l2) by (unfold zlen; lia).
  unfold emit. cbn [mem str len n]. rewrite Ez.
  assert (S : splice (splice (mem o) (str o) (take (Z.to_nat (Z.min (zlen l1) (len o))) l1))
      (str o + Z.min (zlen l1) (len o))
      (take (Z.to_nat (Z.min (zlen l2) (len o - Z.min (zlen l1) (len o)))) l2)
    = splice (mem o) (str o) (take (Z.to_nat (Z.min (zlen l1 + zlen l2) (len o))) (l1 ++ l2))).
  { rewrite <- E1 at 2. rewrite splice_splice.
    - f_equal. destruct (Z.le_gt_cases (zlen l1) (len o)) as [Hle|Hgt].
      + rewrite (take_ge l1) by (unfold zlen in *; lia).
        rewrite take_app_ge by (unfold zlen in *; lia). do 2 f_equal. unfold zlen in *. lia.
      + rewrite take_app_le by (unfold zlen in *; lia).
        replace (Z.min (zlen l2) (len o - Z.min (zlen l1) (len o))) with 0 by lia.
        change (take (Z.to_nat 0) l2) with (@nil Z). rewrite app_nil_r. f_equal. lia.
    - lia.
    - rewrite E1. unfold zlen at 2. rewrite length_take. unfold zlen in *. lia. }
  rewrite S. f_equal; lia.
Qed.

Lemma take_replicate_min (c size k : Z) :
  0 <= k -> 0 < size ->
  take (Z.to_nat (Z.min size k)) (replicate (Z.to_nat size) c) = replicate (Z.to_nat (Z.min size k)) c.
Proof. intros. rewrite take_replicate. f_equal. lia. Qed.

Lemma zlen_replicate (k c : Z) : 0 <= k -> zlen (replicate (Z.to_nat k) c) = k.
Proof. unfold zlen. rewrite length_replicate. lia. Qed.

(** The three primitives write [emit]; none of them faults. *)
Lemma outmemset_emit o c size :
  room o -> counts o (zlen (replicate (Z.to_nat size) c)) -> outmemset o c size = Some (emit o (replicate (Z.to_nat size) c)).
Proof.
  intros Ho Hc. pose proof Ho as (H1 & H2 & H3). unfold outmemset.
  destruct (Z.ltb_spec 0 size) as [Hs|Hs].
  - pose proof (zlen_replicate size c ltac:(lia)) as El. rewrite El in Hc.
    destruct Hc as [Hn Hc]. rewrite (s32_id (n o + size)) by lia.
    unfold emit. rewrite El, take_replicate_min by lia.
    replace (if len o <? size then len o else size) with (Z.min size (len o))
      by (destruct (Z.ltb_spec (len o) size); lia).
    destruct (Z.ltb_spec 0 (Z.min size (len o))) as [Hm|Hm].
    + rewrite mwrs_some by (rewrite ?zlen_replicate; lia). cbn [mbind option_bind].
      by rewrite s32_id by lia.
    + replace (Z.min size (len o)) with 0 by lia.
      change (replicate (Z.to_nat 0) c) with (@nil Z). rewrite splice_nil by lia.
      do 2 f_equal; lia.
  - replace (Z.to_nat size) with 0%nat by lia. cbn [replicate]. by rewrite emit_nil.
Qed.

Lemma outmemcpy_emit o s :
  room o -> counts o (zlen s) -> outmemcpy o s (zlen s) = Some (emit o s).
Proof.
  intros Ho [Hn Hc]. pose proof Ho as (H1 & H2 & H3). unfold outmemcpy.
  destruct (Z.ltb_spec 0 (zlen s)) as [Hs|Hs].
  - replace (if len o <? zlen s then len o else zlen s) with (Z.min (zlen s) (len o))
      by (destruct (Z.ltb_spec (len o) (zlen s)); lia).
    rewrite (s32_id (n o + zlen s)) by lia.
    unfold emit. destruct (Z.ltb_spec 0 (Z.min (zlen s) (len o))) as [Hm|Hm].
    + rewrite mwrs_some by (unfold zlen; rewrite ?length_take; unfold zlen in *; lia).
      cbn [mbind option_bind]. by rewrite s32_id by lia.
    + replace (Z.min (zlen s) (len o)) with 0 by lia.
      change (take (Z.to_nat 0) s) with (@nil Z). rewrite splice_nil by lia. do 2 f_equal; lia.
  - destruct s; [|unfold zlen in Hs; cbn in Hs; lia]. by rewrite emit_nil.
Qed.

Lemma outchar_emit o c : room o -> counts o 1 -> outchar o c = Some (emit o [u8 c]).
Proof.
  intros Ho [Hn Hc]. pose proof Ho as (H1 & H2 & H3). unfold outchar, emit. change (zlen [u8 c]) with 1.
  rewrite (s32_id (n o + 1)) by lia.
  destruct (Z.ltb_spec 0 (len o)) as [Hl|Hl].
  - rewrite mwr_some by lia. cbn [mbind option_bind]. rewrite s32_id by lia. by rewrite Z.min_l by lia.
  - rewrite Z.min_r by lia. replace (len o) with 0 by lia.
    change (take (Z.to_nat 0) [u8 c]) with (@nil Z). rewrite splice_nil by lia.
    do 2 f_equal; lia.
Qed.

(** A conversion writes its rendering. *)
Lemma width_range flags : 0 <= flags .& WIDTH_MASK < 2 ^ 20.
Proof. change WIDTH_MASK with (Z.ones 20). rewrite Z.land_ones by lia. by apply Z.mod_pos_bound. Qed.

Lemma outstr_emit o s flags :
  room o -> counts o (zlen (render_item (IStr s flags))) ->
  outstr o s flags = Some (emit o (render_item (IStr s flags))).
Proof.
  intros Ho Hc. unfold outstr, render_item, spaces in *. pose proof (width_range flags) as Hw.
  set (pad := (flags .& WIDTH_MASK) - zlen s) in *.
  assert (Hs : zlen s < 2 ^ 31 /\ 0 <= zlen s).
  { pose proof (zlen_nonneg (replicate (Z.to_nat pad) 32)). pose proof (zlen_nonneg s).
    destruct Hc as [H1 H2]. destruct (_ =? 0); rewrite zlen_app in H2; lia. }
  rewrite (s32_id (zlen s)) by lia. fold pad. rewrite (s32_id pad) by (unfold pad; lia).
  destruct (flags .& SAW_NEG =? 0); destruct (emit_counts _ _ _ Hc) as [C1 C2].
  - rewrite outmemset_emit by done. cbn [mbind option_bind].
    rewrite outmemcpy_emit by (done || by apply emit_room). cbn [mbind option_bind].
    rewrite emit_app by done. by unfold outmemset.
  - rewrite outmemcpy_emit by done. cbn [mbind option_bind].
    rewrite outmemset_emit by (done || by apply emit_room). by rewrite emit_app.
Qed.

Lemma outnum_emit o s flags :
  room o -> counts o (zlen (render_item (INum s flags))) ->
  outnum o s flags = Some (emit o (render_item (INum s flags))).
Proof.
  intros Ho Hc. unfold outnum, render_item, spaces in *. pose proof (width_range flags) as Hw.
  set (pad := (flags .& WIDTH_MASK) - zlen s) in *.
  assert (E : (if flags .& SAW_ZERO =? 0 then replicate (Z.to_nat pad) 32
    else replicate (Z.to_nat pad) 48)
    = replicate (Z.to_nat pad) (if negb (flags .& SAW_ZERO =? 0) then 48 else 32))
    by by destruct (_ =? 0).
  rewrite E in *. set (c := if negb (flags .& SAW_ZERO =? 0) then 48 else 32) in *.
  destruct (emit_counts _ _ _ Hc) as [C1 C2].
  assert (Hs : zlen s < 2 ^ 31 /\ 0 <= zlen s).
  { pose proof (zlen_nonneg (replicate (Z.to_nat pad) c)). pose proof (zlen_nonneg s).
    destruct Hc as [H1 H2]. rewrite zlen_app in H2. lia. }
  rewrite (s32_id (zlen s)) by lia. fold pad. rewrite (s32_id pad) by (unfold pad; lia).
  destruct (Z.eqb_spec (flags .& WIDTH_MASK) 0) as [E0|E0]; cbn [negb mbind option_bind].
  - replace (Z.to_nat pad) with 0%nat in * by (unfold pad; lia). cbn [replicate app] in *.
    by rewrite outmemcpy_emit.
  - rewrite outmemset_emit by done. cbn [mbind option_bind].
    rewrite outmemcpy_emit by (done || by apply emit_room). by rewrite emit_app by done.
Qed.

Lemma put_item_emit o i :
  room o -> counts o (zlen (render_item i)) -> put_item o i = Some (emit o (render_item i)).
Proof.
  intros Ho Hc. destruct i; cbn [put_item];
    [by apply outstr_emit|by apply outnum_emit|by apply outchar_emit].
Qed.

(** ** The format loop *)

Lemma parse_width_shrinks fmt w : (length (parse_width fmt w).2 <= length fmt)%nat.
Proof.
  revert w. induction fmt as [|c fmt IH]; intros w; cbn [parse_width]; [done|].
  destruct (isdigit c); [|done]. specialize (IH (u32 (w * 10 + c - 48))). cbn. lia.
Qed.

Lemma parse_flags_shrinks fmt : (length (parse_flags fmt).2 <= length fmt)%nat.
Proof.
  unfold parse_flags. destruct fmt as [|c f]; [cbn; lia|].
  destruct (c =? 45);
    [pose proof (parse_width_shrinks f 0) as H|pose proof (parse_width_shrinks (c :: f) 0) as H];
    destruct (parse_width _ 0) as [w r]; cbn [snd length] in H;
    (destruct r as [|d r]; [cbn; lia|]); destruct (d =? 108); cbn [snd length] in *; lia.
Qed.

(** Every item consumes some of the format: the loop terminates. *)
Lemma next_item_shrinks fmt ap i fmt' ap' :
  next_item fmt ap = Some (i, fmt', ap') -> (length fmt' < length fmt)%nat.
Proof.
  unfold next_item. destruct fmt as [|c save]; [done|]. cbn [length].
  destruct (c =? 37); [|intros [= _ <- _]; lia].
  pose proof (parse_flags_shrinks save) as Hs. destruct (parse_flags save) as [flags f].
  cbn [snd] in Hs. destruct f as [|d f]; [intros [= _ <- _]; lia|]. cbn [length] in Hs.
  destruct (d =? 115); [destruct ap as [|[]]; intros [= _ <- _]; lia|].
  destruct (d =? 99); [destruct ap as [|[]]; intros [= _ <- _]; lia|].
  destruct (_ || _); [|intros [= _ <- _]; lia].
  destruct ap as [|[|v] ap]; try done. destruct (num_text d flags v); [|done].
  intros [= _ <- _]. lia.
Qed.

(** The length of the format is enough fuel. *)
Lemma render_fuel f1 f2 fmt ap :
  (length fmt <= f1)%nat -> (length fmt <= f2)%nat -> render f1 fmt ap = render f2 fmt ap.
Proof.
  revert f2 fmt ap. induction f1 as [|f1 IH]; intros [|f2] [|c fmt] ap H1 H2;
    cbn [length] in *; try done; try lia.
  cbn [render]. destruct (next_item (c :: fmt) ap) as [[[i fmt'] ap']|] eqn:E; [|done].
  apply next_item_shrinks in E. cbn [length mbind option_bind] in *.
  by rewrite (IH f2) by lia.
Qed.

(** The loop emits the rendering and terminates the string. *)
Lemma strfmt_loop fuel out fmt ap l :
  room out -> render fuel fmt ap = Some l -> counts out (zlen l) ->
  __strfmt fuel out fmt ap =
    let o := emit out l in
    Some {| mem := splice (mem o) (str o) [0]; str := str o; len := len o; n := n o |}.
Proof.
  revert out fmt ap l. induction fuel as [|fuel IH]; intros out fmt ap l Ho E Hc.
  - destruct fmt; [|done]. injection E as <-. cbn [__strfmt]. rewrite emit_nil by done.
    destruct Ho as (H1 & H2 & H3). by rewrite mwr_some by lia.
  - destruct fmt as [|c fmt].
    + injection E as <-. cbn [__strfmt]. rewrite emit_nil by done.
      destruct Ho as (H1 & H2 & H3). by rewrite mwr_some by lia.
    + cbn [__strfmt render] in *.
      destruct (next_item (c :: fmt) ap) as [[[i fmt'] ap']|]; [|done].
      cbn [mbind option_bind] in *. destruct (render fuel fmt' ap') as [r|] eqn:Er; [|done].
      injection E as <-. destruct (emit_counts _ _ _ Hc) as [C1 C2].
      rewrite put_item_emit by done. cbn [mbind option_bind].
      rewrite (IH _ _ _ r) by (done || by apply emit_room). by rewrite emit_app.
Qed.

(** Whatever was written before, an argument that is missing is a fault. *)
Lemma strfmt_loop_fault fuel out fmt ap :
  render fuel fmt ap = None -> __strfmt fuel out fmt ap = None.
Proof.
  revert out fmt ap. induction fuel as [|fuel IH]; intros out [|c fmt] ap E; try done.
  cbn [__strfmt render] in *. destruct (next_item (c :: fmt) ap) as [[[i fmt'] ap']|]; [|done].
  cbn [mbind option_bind] in *. destruct (render fuel fmt' ap') eqn:Er; [done|].
  destruct (put_item out i) as [out'|]; [|done]. by apply IH.
Qed.

(** The whole of [strfmt], with room for a byte. *)
Lemma strfmt_spec m str len fmt args l :
  1 <= len < 2 ^ 31 -> 0 <= str -> str + len <= zlen m ->
  render (length fmt) fmt args = Some l -> zlen l < 2 ^ 31 ->
  strfmt m str len fmt args = Some (splice m str (fit l len ++ [0]), zlen l).
Proof.
  intros Hl Hs Hm Hr Hn. unfold strfmt, strfmt_ap. rewrite (proj2 (Z.ltb_ge _ _)) by lia.
  rewrite s32_id by lia.
  set (out := {| mem := m; str := str; len := len - 1; n := 0 |}).
  assert (Ho : room out) by (unfold room, out; cbn; lia).
  rewrite (strfmt_loop _ _ _ _ l) by (done || (unfold counts, out; cbn; lia)).
  cbn [mbind option_bind]. do 2 f_equal.
  destruct (emit_fields out l Ho) as (E & _ & _). cbn [Strfmt.len out] in E.
  unfold emit. cbn [mem Strfmt.str Strfmt.len n out].
  rewrite <- E at 2. rewrite splice_splice by (rewrite ?E; change (zlen [0]) with 1; lia).
  f_equal. f_equal. unfold fit. destruct (Z.le_gt_cases (zlen l) (len - 1)).
  - rewrite !take_ge by (unfold zlen in *; lia). done.
  - f_equal. lia.
Qed.

Lemma strfmt_fault m str len fmt args :
  1 <= len -> render (length fmt) fmt args = None -> strfmt m str len fmt args = None.
Proof.
  intros Hl E. unfold strfmt, strfmt_ap. rewrite (proj2 (Z.ltb_ge _ _)) by lia.
  by rewrite strfmt_loop_fault.
Qed.

(** ** Results *)

(** C15: strfmt writes, in the len bytes at str, the longest prefix of the complete
    output that fits with its NUL, changes nothing else and returns the length of
    the complete output, when that length is below 2^31 (the code counts in an
    int); it faults when an argument is missing or of the wrong kind, and a len
    below 1 writes nothing and returns 0. *)
Theorem strfmt_correct (m : list Z) (str len : Z) (fmt : list Z) (args : list arg) :
  len < 2 ^ 31 ->
  (len < 1 -> strfmt m str len fmt args = Some (m, 0)) /\
  (1 <= len -> 0 <= str -> str + len <= zlen m ->
   match render (length fmt) fmt args with
   | Some l => zlen l < 2 ^ 31 ->
       strfmt m str len fmt args = Some (splice m str (fit l len ++ [0]), zlen l)
   | None => strfmt m str len fmt args = None
   end).
Proof.
  intros Hi. split.
  - intros H. unfold strfmt, strfmt_ap. by rewrite (proj2 (Z.ltb_lt _ _)).
  - intros H1 Hs Hm. destruct (render (length fmt) fmt args) as [l|] eqn:E.
    + intros Hl. by apply strfmt_spec.
    + by apply strfmt_fault.
Qed.

Definition fmt_ex : list Z := [97; 37; 48; 53; 100; 37; 45; 51; 115; 124; 37; 120].
Definition args_ex : list arg := [AInt (-42); AStr [104]; AInt 255].

Lemma strfmt_correct_witness :
  strfmt (replicate 9 7) 1 7 fmt_ex args_ex = Some ([7; 97; 48; 48; 45; 52; 50; 0; 7], 12) /\
  strfmt (replicate 9 7) 1 0 fmt_ex args_ex = Some (replicate 9 7, 0) /\
  strfmt (replicate 9 7) 1 7 fmt_ex [] = None.
Proof.
  split; [|split].
  - refine (proj2 (strfmt_correct (replicate 9 7) 1 7 fmt_ex args_ex _) _ _ _ _);
      (reflexivity || (unfold zlen; cbn; lia)).
  - apply (strfmt_correct (replicate 9 7) 1 0 fmt_ex args_ex); lia.
  - refine (proj2 (strfmt_correct (replicate 9 7) 1 7 fmt_ex [] _) _ _ _);
      (reflexivity || (unfold zlen; cbn; lia)).
Defined.

(** A string whose length an int cannot hold is not printed: for one of more than
    2^31 and fewer than 2^32 bytes, slen is negative, the copy is skipped and
    blanks are written for a width that was not asked for. *)
Theorem strfmt_long_string (m : list Z) (str len : Z) (s : list Z) :
  1 <= len < 2 ^ 31 -> 0 <= str -> str + len <= zlen m -> 2 ^ 31 < zlen s < 2 ^ 32 ->
  strfmt m str len [37; 115] [AStr s] =
    Some (splice m str (fit (spaces (2 ^ 32 - zlen s)) len ++ [0]), 2 ^ 32 - zlen s).
Proof.
  intros Hl Hp Hm Hs.
  set (k := 2 ^ 32 - zlen s).
  assert (Hk : zlen (spaces k) = k) by (apply zlen_replicate; unfold k; lia).
  assert (E : forall out, outstr out s 0 = outstr out (spaces k) 0).
  { intros out. unfold outstr. rewrite Hk. change (0 .& WIDTH_MASK) with 0. change (0 .& SAW_NEG =? 0) with true.
    assert (Es : s32 (zlen s) = - k).
    { unfold s32. rewrite <- (Z.mod_add _ (-1)), Z.mod_small by lia. unfold k. lia. }
    rewrite Es, (s32_id k), (s32_id (0 - - k)), (s32_id (0 - k)) by (unfold k; lia). cbv iota zeta.
    assert (En : forall o c, outmemset o c (0 - k) = Some o).
    { intros o c. unfold outmemset. by rewrite (proj2 (Z.ltb_ge 0 (0 - k))) by (unfold k; lia). }
    rewrite En. cbn [mbind option_bind].
    assert (Em : outmemset out 32 (0 - - k) = outmemcpy out (spaces k) k).
    { unfold outmemset, outmemcpy. replace (0 - - k) with k by lia. destruct (0 <? k); [|done].
      set (z := if Strfmt.len out <? k then Strfmt.len out else k). destruct (0 <? z) eqn:Ez; [|done].
      unfold spaces. rewrite take_replicate.
      by replace (Z.to_nat z `min` Z.to_nat k)%nat with (Z.to_nat z)
        by (unfold z; destruct (Z.ltb_spec (Strfmt.len out) k); lia). }
    rewrite Em. destruct (outmemcpy out (spaces k) k) as [out1|]; [|done]. cbn [mbind option_bind].
    unfold outmemcpy. by rewrite (proj2 (Z.ltb_ge 0 (- k))) by (unfold k; lia). }
  transitivity (strfmt m str len [37; 115] [AStr (spaces k)]).
  - unfold strfmt, strfmt_ap. destruct (len <? 1); [done|]. cbn [length __strfmt].
    change (next_item [37; 115] [AStr s]) with (Some (IStr s 0, @nil Z, @nil arg)).
    change (next_item [37; 115] [AStr (spaces k)]) with (Some (IStr (spaces k) 0, @nil Z, @nil arg)).
    cbn [mbind option_bind put_item]. by rewrite E.
  - rewrite <- Hk at 3. apply strfmt_spec; [done..| |lia]. cbn [length render].
    change (next_item [37; 115] [AStr (spaces k)]) with (Some (IStr (spaces k) 0, @nil Z, @nil arg)).
    cbn [mbind option_bind render_item]. change (0 .& WIDTH_MASK) with 0.
    change (0 .& SAW_NEG =? 0) with true. cbv iota. rewrite Hk, app_nil_r.
    unfold spaces at 1. by replace (Z.to_nat (0 - k)) with 0%nat by (unfold k; lia).
Qed.

(** Number conversions round trip: the digits written by int2str, uint2str,
    hex2str and octal2str read back as the number, for every long but the
    smallest, every unsigned long, and every non-negative long in octal. *)
Theorem num2str_roundtrip (v : Z) :
  (- 2 ^ 63 < v < 2 ^ 63 -> read_int (_int2str v) = v) /\
  (0 <= v < 2 ^ 64 -> read_num 10 digit_value (_uint2str v) = v /\
                      read_num 16 digit_value (_hex2str v) = v) /\
  (0 <= v < 2 ^ 63 -> read_num 8 digit_value (_octal2str v) = v).
Proof.
  split; [apply int2str_value|]. split; [|apply octal2str_value].
  split; [by apply uint2str_value|by apply hex2str_value].
Qed.

Lemma num2str_roundtrip_witness :
  _int2str (-123) = [45; 49; 50; 51] /\ read_int (_int2str (-123)) = -123 /\
  _hex2str 0xbeef = [98; 101; 101; 102].
Proof.
  split; [reflexivity|]. split; [|reflexivity]. apply (num2str_roundtrip (-123)). lia.
Defined.

(** The text of every integer conversion, with its NUL, fits in the 22 bytes
    of the formatter's local array, whatever the argument and the flags. *)
Theorem num_text_fits (c flags v : Z) (s : list Z) :
  num_text c flags v = Some s -> zlen (s ++ [0]) <= 22.
Proof.
  intros E. apply num_text_length in E. unfold zlen. rewrite length_app. cbn. lia.
Qed.

Lemma num_text_fits_witness :
  num_text 111 SAW_LONG (2 ^ 63 - 1) = Some (replicate 21 55) /\
  zlen (replicate 21 55 ++ [0]) <= 22.
Proof.
  assert (E : num_text 111 SAW_LONG (2 ^ 63 - 1) = Some (replicate 21 55)) by reflexivity.
  split; [exact E|]. exact (num_text_fits 111 SAW_LONG (2 ^ 63 - 1) _ E).
Defined.

(** The two conversions that lose the number: the smallest long prints as a
    lone minus sign and every negative long prints as the empty string in octal. *)
Theorem num2str_edges (v : Z) :
  _int2str (- 2 ^ 63) = [45] /\ (v < 0 -> _octal2str v = []).
Proof.
  split; [reflexivity|]. intros Hv. unfold _octal2str.
  rewrite (proj2 (Z.eqb_neq _ _)) by lia. cbn [digits_loop].
  by rewrite (proj2 (Z.ltb_ge _ _)) by lia.
Qed.

Lemma num2str_edges_witness : _octal2str (-8) = [].
Proof. apply (num2str_edges (-8)). lia. Defined.

End Strfmt.
