(* ===== verification/LinuxList.v ===== *)
(** The intrusive doubly linked lists (linux-list.h) on a heap of [next] and
    [prev] fields.  A read or write of a field of an address outside the heap is
    a fault.  [ring h head l] says that the entries [l], in order, hang off
    [head]; every operation is shown to implement its list counterpart on [l],
    without a fault, and to leave other rings alone. *)

From stdpp Require Import gmap.
From S2P Require Import Prelude.

Module LinuxList.

(** ** The heap *)

(** [struct list_head], field by field, for every allocated address. *)
Record heap := {
  nx : gmap Z Z;
  pv : gmap Z Z;
}.

Definition upd_next (h : heap) (p v : Z) : heap := {| nx := <[p := v]> (nx h); pv := pv h |}.
Definition upd_prev (h : heap) (p v : Z) : heap := {| nx := nx h; pv := <[p := v]> (pv h) |}.

(** [p->next], [p->prev], [p->next = v] and [p->prev = v]. *)
Definition get_next (h : heap) (p : Z) : option Z := nx h !! p.
Definition get_prev (h : heap) (p : Z) : option Z := pv h !! p.
Definition set_next (h : heap) (p v : Z) : option heap :=
  if decide (is_Some (nx h !! p)) then Some (upd_next h p v) else None.
Definition set_prev (h : heap) (p v : Z) : option heap :=
  if decide (is_Some (pv h !! p)) then Some (upd_prev h p v) else None.

Definition LIST_POISON1 : Z := 0x100 + 0xdead000000000000.
Definition LIST_POISON2 : Z := 0x200 + 0xdead000000000000.

(** ** Operations *)

Definition INIT_LIST_HEAD (h : heap) (list : Z) : option heap :=
  h ← set_next h list list;
  set_prev h list list.

Definition __list_add (h : heap) (new prev next : Z) : option heap :=
  h ← set_prev h next new;
  h ← set_next h new next;
  h ← set_prev h new prev;
  set_next h prev new.

Definition list_add (h : heap) (new head : Z) : option heap :=
  n ← get_next h head; __list_add h new head n.

Definition list_add_tail (h : heap) (new head : Z) : option heap :=
  p ← get_prev h head; __list_add h new p head.

Definition __list_del (h : heap) (prev next : Z) : option heap :=
  h ← set_prev h next prev;
  set_next h prev next.

Definition __list_del_entry (h : heap) (entry : Z) : option heap :=
  p ← get_prev h entry; n ← get_next h entry; __list_del h p n.

Definition list_del (h : heap) (entry : Z) : option heap :=
  h ← __list_del_entry h entry;
  h ← set_next h entry LIST_POISON1;
  set_prev h entry LIST_POISON2.

Definition list_replace (h : heap) (old new : Z) : option heap :=
  n ← get_next h old;
  h ← set_next h new n;
  n ← get_next h new;
  h ← set_prev h n new;
  p ← get_prev h old;
  h ← set_prev h new p;
  p ← get_prev h new;
  set_next h p new.

Definition list_replace_init (h : heap) (old new : Z) : option heap :=
  h ← list_replace h old new; INIT_LIST_HEAD h old.

Definition list_del_init (h : heap) (entry : Z) : option heap :=
  h ← __list_del_entry h entry; INIT_LIST_HEAD h entry.

Definition list_move (h : heap) (list head : Z) : option heap :=
  h ← __list_del_entry h list; list_add h list head.

Definition list_move_tail (h : heap) (list head : Z) : option heap :=
  h ← __list_del_entry h list; list_add_tail h list head.

Definition list_is_last (h : heap) (list head : Z) : option bool :=
  n ← get_next h list; Some (n =? head).

Definition list_empty (h : heap) (head : Z) : option bool :=
  n ← get_next h head; Some (n =? head).

Definition list_empty_careful (h : heap) (head : Z) : option bool :=
  next ← get_next h head; p ← get_prev h head; Some ((next =? head) && (next =? p)).

Definition list_rotate_left (h : heap) (head : Z) : option heap :=
  e ← list_empty h head;
  if e : bool then Some h else first ← get_next h head; list_move_tail h first head.

Definition list_is_singular (h : heap) (head : Z) : option bool :=
  e ← list_empty h head; n ← get_next h head; p ← get_prev h head;
  Some (negb e && (n =? p)).

Definition __list_cut_position (h : heap) (list head entry : Z) : option heap :=
  new_first ← get_next h entry;
  n ← get_next h head;
  h ← set_next h list n;
  n ← get_next h list;
  h ← set_prev h n list;
  h ← set_prev h list entry;
  h ← set_next h entry list;
  h ← set_next h head new_first;
  set_prev h new_first head.

Definition list_cut_position (h : heap) (list head entry : Z) : option heap :=
  e ← list_empty h head;
  if e : bool then Some h
  else
    s ← list_is_singular h head;
    n ← get_next h head;
    if s && (negb (n =? entry) && negb (head =? entry)) then Some h
    else if entry =? head then INIT_LIST_HEAD h list
    else __list_cut_position h list head entry.

Definition __list_splice (h : heap) (list prev next : Z) : option heap :=
  first ← get_next h list;
  last ← get_prev h list;
  h ← set_prev h first prev;
  h ← set_next h prev first;
  h ← set_next h last next;
  set_prev h next last.

Definition list_splice (h : heap) (list head : Z) : option heap :=
  e ← list_empty h list;
  if e : bool then Some h else n ← get_next h head; __list_splice h list head n.

Definition list_splice_tail (h : heap) (list head : Z) : option heap :=
  e ← list_empty h list;
  if e : bool then Some h else p ← get_prev h head; __list_splice h list p head.

Definition list_splice_init (h : heap) (list head : Z) : option heap :=
  e ← list_empty h list;
  if e : bool then Some h
  else n ← get_next h head; h ← __list_splice h list head n; INIT_LIST_HEAD h list.

Definition list_splice_tail_init (h : heap) (list head : Z) : option heap :=
  e ← list_empty h list;
  if e : bool then Some h
  else p ← get_prev h head; h ← __list_splice h list p head; INIT_LIST_HEAD h list.

(** The traversals: the entries visited, for at most [fuel] of them. *)
Fixpoint walk (step : Z -> option Z) (fuel : nat) (pos head : Z) : option (list Z) :=
  if pos =? head then Some []
  else
    match fuel with
    | O => None
    | S fuel => n ← step pos; rest ← walk step fuel n head; Some (pos :: rest)
    end.

Definition list_for_each (h : heap) (fuel : nat) (head : Z) : option (list Z) :=
  pos ← get_next h head; walk (get_next h) fuel pos head.

Definition list_for_each_prev (h : heap) (fuel : nat) (head : Z) : option (list Z) :=
  pos ← get_prev h head; walk (get_prev h) fuel pos head.

(** The traversal that is safe against removal: [n] is read before the body. *)
Fixpoint walk_safe (body : heap -> Z -> option heap) (fuel : nat) (h : heap) (pos n head : Z)
  : option (heap * list Z) :=
  if pos =? head then Some (h, [])
  else
    match fuel with
    | O => None
    | S fuel =>
        h ← body h pos;
        let pos' := n in
        n ← get_next h pos';
        '(h, rest) ← walk_safe body fuel h pos' n head;
        Some (h, pos :: rest)
    end.

Definition list_for_each_safe (body : heap -> Z -> option heap) (h : heap) (fuel : nat) (head : Z)
  : option (heap * list Z) :=
  pos ← get_next h head; n ← get_next h pos; walk_safe body fuel h pos n head.

(** ** Rings *)

(** [a->next] is [b] and [b->prev] is [a]. *)
Definition link (h : heap) (a b : Z) : Prop := nx h !! a = Some b /\ pv h !! b = Some a.

Fixpoint links (h : heap) (xs : list Z) : Prop :=
  match xs with
  | a :: ((b :: _) as t) => link h a b /\ links h t
  | _ => True
  end.

Definition ring (h : heap) (head : Z) (l : list Z) : Prop :=
  NoDup (head :: l) /\ links h (head :: l ++ [head]).

(** An allocated list head, linked or not. *)
Definition alloc (h : heap) (p : Z) : Prop := is_Some (nx h !! p) /\ is_Some (pv h !! p).

Lemma set_next_ok h p v : is_Some (nx h !! p) -> set_next h p v = Some (upd_next h p v).
Proof. intros H. unfold set_next. by rewrite decide_True. Qed.

Lemma set_prev_ok h p v : is_Some (pv h !! p) -> set_prev h p v = Some (upd_prev h p v).
Proof. intros H. unfold set_prev. by rewrite decide_True. Qed.

Lemma upd_alive (m : gmap Z Z) p v q : is_Some (m !! q) -> is_Some (<[p := v]> m !! q).
Proof. intros H. destruct (decide (p = q)) as [->|]; by simplify_map_eq. Qed.

Lemma link_next h a b : link h a b -> is_Some (nx h !! a).
Proof. intros [-> _]. by eexists. Qed.
Lemma link_prev h a b : link h a b -> is_Some (pv h !! b).
Proof. intros [_ ->]. by eexists. Qed.
Lemma alloc_next h p : alloc h p -> is_Some (nx h !! p).
Proof. by intros []. Qed.
Lemma alloc_prev h p : alloc h p -> is_Some (pv h !! p).
Proof. by intros []. Qed.

(** Run the next write of an operation. *)
Ltac alive :=
  cbn [nx pv upd_next upd_prev];
  repeat apply upd_alive;
  first [done | eassumption | eapply link_next; eassumption | eapply link_prev; eassumption
        | eapply alloc_next; eassumption | eapply alloc_prev; eassumption].
Ltac run :=
  repeat (rewrite ?set_next_ok, ?set_prev_ok by alive; cbn [mbind option_bind]).

(** ** Decomposition *)

Lemma links_app h l1 a l2 :
  links h (l1 ++ a :: l2) <-> links h (l1 ++ [a]) /\ links h (a :: l2).
Proof.
  induction l1 as [|x l1 IH]; cbn [app].
  - split; [intros; split; [done|done]|by intros []].
  - destruct l1 as [|y l1]; cbn [app] in *.
    + cbn [links]. tauto.
    + change (links h (x :: y :: l1 ++ a :: l2)) with
        (link h x y /\ links h (y :: l1 ++ a :: l2)).
      change (links h (x :: y :: l1 ++ [a])) with (link h x y /\ links h (y :: l1 ++ [a])).
      rewrite IH. tauto.
Qed.

(** Only the [next] fields of all but the last node and the [prev] fields of
    all but the first one matter. *)
Lemma links_frame h h' xs :
  (forall p, p ∈ removelast xs -> nx h' !! p = nx h !! p) ->
  (forall p, p ∈ tail xs -> pv h' !! p = pv h !! p) ->
  links h xs -> links h' xs.
Proof.
  induction xs as [|a [|b xs] IH]; intros Hn Hp Hl; try done.
  destruct Hl as [[L1 L2] Hl]. split.
  - split; [rewrite Hn by (by left); done|rewrite Hp by (by left); done].
  - apply IH; [|intros; apply Hp; by right|done].
    intros p Hin. apply Hn. by right.
Qed.

(** [a] and [b] are the nodes around the position between [l1] and [l2]. *)
Definition cut (head : Z) (l1 l2 : list Z) (a b : Z) : Prop :=
  exists xs ys, head :: l1 = xs ++ [a] /\ l2 ++ [head] = b :: ys.

Lemma cut_exists head l1 l2 : exists a b, cut head l1 l2 a b.
Proof.
  destruct (exists_last (l := head :: l1)) as (xs & a & E); [done|].
  destruct (l2 ++ [head]) as [|b ys] eqn:E2; [by destruct l2|].
  by exists a, b, xs, ys.
Qed.

Lemma cut_nil_l head l2 a b : cut head [] l2 a b -> a = head.
Proof. intros (xs & ys & E & _). by destruct xs as [|? []]; injection E. Qed.

Lemma cut_nil_r head l1 a b : cut head l1 [] a b -> b = head.
Proof. intros (xs & ys & _ & E). by injection E. Qed.

Lemma cut_cons_r head l1 x l2 a b : cut head l1 (x :: l2) a b -> b = x.
Proof. intros (xs & ys & _ & E). by injection E. Qed.

Lemma cut_snoc_l head l1 x l2 a b : cut head (l1 ++ [x]) l2 a b -> a = x.
Proof.
  intros (xs & ys & E & _). rewrite app_comm_cons in E. by apply app_inj_tail in E as [_ ->].
Qed.

Lemma cut_in head l1 l2 a b :
  cut head l1 l2 a b -> a ∈ head :: l1 /\ (b ∈ l2 \/ b = head).
Proof.
  intros (xs & ys & E1 & E2). split.
  - rewrite E1. apply elem_of_app. right. by left.
  - assert (H : b ∈ l2 ++ [head]) by (rewrite E2; by left).
    rewrite elem_of_app, list_elem_of_singleton in H. done.
Qed.

(** What a ring says around a stretch [mid] of its entries. *)
Lemma ring_links h head l1 mid l2 a b :
  ring h head (l1 ++ mid ++ l2) -> cut head l1 l2 a b -> links h (a :: mid ++ [b]).
Proof.
  intros [_ Hl] (xs & ys & E1 & E2).
  assert (E : head :: (l1 ++ mid ++ l2) ++ [head] = xs ++ a :: (mid ++ b :: ys)).
  { rewrite <- E2, !app_comm_cons, E1, <- !app_assoc. done. }
  rewrite E in Hl. apply links_app in Hl as [_ Hl].
  change (a :: mid ++ b :: ys) with ((a :: mid) ++ b :: ys) in Hl.
  by apply links_app in Hl as [Hl _].
Qed.

Lemma removelast_in (xs : list Z) a p : NoDup (xs ++ [a]) -> p ∈ removelast (xs ++ [a]) -> p <> a /\ p ∈ xs.
Proof.
  rewrite removelast_last. intros Hnd Hp. split; [|done]. intros ->.
  apply NoDup_app in Hnd as (_ & Hd & _). apply (Hd a Hp). by left.
Qed.

(** Replacing a stretch of a ring: the other entries keep their fields, the two
    ends and the new stretch are linked. *)
Lemma relink h h' head l1 old mid l2 a b :
  ring h head (l1 ++ old ++ l2) -> cut head l1 l2 a b ->
  NoDup (head :: l1 ++ mid ++ l2) ->
  (forall p, p ∈ head :: l1 ++ l2 -> p <> a -> nx h' !! p = nx h !! p) ->
  (forall p, p ∈ head :: l1 ++ l2 -> p <> b -> pv h' !! p = pv h !! p) ->
  links h' (a :: mid ++ [b]) ->
  ring h' head (l1 ++ mid ++ l2).
Proof.
  intros [Hnd Hl] (xs & ys & E1 & E2) Hnd' Hn Hp Hm. split; [done|].
  assert (E : forall m, head :: (l1 ++ m ++ l2) ++ [head] = xs ++ a :: (m ++ b :: ys))
    by (intros; rewrite <- E2, !app_comm_cons, E1, <- !app_assoc; done).
  rewrite E in Hl |- *. apply links_app in Hl as [Hl1 Hl]. apply links_app.
  change (a :: old ++ b :: ys) with ((a :: old) ++ b :: ys) in Hl.
  apply links_app in Hl as [_ Hl2].
  assert (Hnd1 : NoDup (xs ++ [a])).
  { rewrite <- E1. rewrite app_comm_cons in Hnd'. by apply NoDup_app in Hnd' as [? _]. }
  assert (Hnd2 : NoDup (l2 ++ [head])).
  { apply NoDup_app. rewrite NoDup_cons, !NoDup_app in Hnd'. destruct Hnd' as (Hh & _ & _ & _ & _ & H2).
    split; [done|]. split; [|apply NoDup_singleton].
    intros x Hx. rewrite list_elem_of_singleton. intros ->. apply Hh. rewrite !elem_of_app. auto. }
  assert (Hin1 : forall p, p ∈ xs ++ [a] -> p ∈ head :: l1 ++ l2)
    by (intros p; rewrite <- E1, !elem_of_cons, elem_of_app; tauto).
  assert (Hin2 : forall p, p ∈ b :: ys -> p ∈ head :: l1 ++ l2)
    by (intros p; rewrite <- E2, elem_of_cons, !elem_of_app, list_elem_of_singleton; tauto).
  split.
  - eapply links_frame; [| |exact Hl1].
    + intros p Hpi. apply removelast_in in Hpi as [? ?]; [|done].
      apply Hn; [|done]. apply Hin1, elem_of_app. by left.
    + intros p Hpi. apply Hp.
      * apply Hin1. destruct xs; cbn in *; [by apply elem_of_nil in Hpi|by right].
      * intros ->. assert (Hb : b ∈ l1).
        { destruct xs; cbn in E1; injection E1 as -> ->; [by apply elem_of_nil in Hpi|done]. }
        assert (Hb2 : b ∈ l2 ++ [head]) by (rewrite E2; by left).
        rewrite elem_of_app, list_elem_of_singleton in Hb2.
        rewrite NoDup_cons, !NoDup_app in Hnd'. destruct Hnd' as (Hh & _ & Hd & _).
        destruct Hb2 as [Hb2| ->]; [apply (Hd b Hb)|apply Hh]; rewrite !elem_of_app; auto.
  - change (a :: mid ++ b :: ys) with ((a :: mid) ++ b :: ys). apply links_app. split; [done|].
    eapply links_frame; [| |exact Hl2].
    + intros p Hpi. apply Hn.
      * apply Hin2. rewrite <- E2 in Hpi |- *. rewrite removelast_last in Hpi.
        apply elem_of_app. by left.
      * intros ->. rewrite <- E2, removelast_last in Hpi.
        assert (Ha : a ∈ head :: l1) by (rewrite E1; apply elem_of_app; right; by left).
        rewrite NoDup_cons, !NoDup_app in Hnd'. destruct Hnd' as (Hh & _ & Hd & _).
        rewrite elem_of_cons in Ha. destruct Ha as [->|Ha]; [apply Hh|apply (Hd a Ha)];
          rewrite !elem_of_app; auto.
    + intros p Hpi. cbn in Hpi. apply Hp; [apply Hin2; by right|].
      intros ->. rewrite E2, NoDup_cons in Hnd2. by destruct Hnd2.
Qed.

(** ** Adding *)

(** [h'] differs from [h] only on the addresses of [S]. *)
Definition footprint (h h' : heap) (S : list Z) : Prop :=
  forall p, p ∉ S -> nx h' !! p = nx h !! p /\ pv h' !! p = pv h !! p.

Lemma ring_frame h h' S head l :
  footprint h h' S -> (forall p, p ∈ head :: l -> p ∉ S) -> ring h head l -> ring h' head l.
Proof.
  intros Hf Hd [Hnd Hl]. split; [done|].
  assert (Hin : forall p, p ∈ head :: l ++ [head] -> p ∈ head :: l)
    by (intros p; rewrite !elem_of_cons, elem_of_app, list_elem_of_singleton; tauto).
  eapply links_frame; [| |exact Hl]; intros p Hp; apply Hf, Hd, Hin.
  - rewrite app_comm_cons, removelast_last in Hp. rewrite app_comm_cons. apply elem_of_app. by left.
  - by right.
Qed.

Lemma footprint_weaken h h' S T :
  footprint h h' S -> (forall p, p ∈ S -> p ∈ T) -> footprint h h' T.
Proof. intros Hf Hi p Hp. apply Hf. intros Hs. by apply Hp, Hi. Qed.

(** Membership in explicit lists. *)
Ltac inlist :=
  rewrite ?elem_of_app, ?elem_of_cons, ?elem_of_app, ?elem_of_cons, ?elem_of_nil in *; tauto.

(** Lookups in updated fields. *)
Ltac look :=
  cbn [nx pv upd_next upd_prev];
  repeat first [rewrite lookup_insert_eq | rewrite lookup_insert_ne by congruence]; try done.

Lemma add_between h head l1 l2 a b new :
  ring h head (l1 ++ l2) -> cut head l1 l2 a b ->
  new ∉ head :: l1 ++ l2 -> alloc h new ->
  exists h', __list_add h new a b = Some h' /\ ring h' head (l1 ++ new :: l2) /\
    footprint h h' (new :: head :: l1 ++ l2).
Proof.
  intros Hr Hc Hnew Ha.
  pose proof (ring_links h head l1 [] l2 a b Hr Hc) as [Hab _].
  destruct (cut_in _ _ _ _ _ Hc) as [Hina Hinb].
  assert (new <> a) by (intros ->; apply Hnew; inlist).
  assert (new <> b) by (intros ->; apply Hnew; inlist).
  unfold __list_add. run. eexists. split; [done|]. split.
  - apply (relink h _ head l1 [] [new] l2 a b); [done..| | | |].
    + change (head :: l1 ++ [new] ++ l2) with ((head :: l1) ++ new :: l2).
      rewrite <- Permutation_middle. apply NoDup_cons. split; [done|apply Hr].
    + intros p Hp Hpa. assert (p <> new) by (intros ->; done). look.
    + intros p Hp Hpb. assert (p <> new) by (intros ->; done). look.
    + repeat split; look.
  - intros p Hp. assert (p <> a) by (intros ->; apply Hp; inlist).
    assert (p <> b) by (intros ->; apply Hp; inlist).
    assert (p <> new) by (intros ->; apply Hp; inlist). split; look.
Qed.

(** The two public insertions. *)
Lemma list_add_ring h head l new :
  ring h head l -> new ∉ head :: l -> alloc h new ->
  exists h', list_add h new head = Some h' /\ ring h' head (new :: l) /\
    footprint h h' (new :: head :: l).
Proof.
  intros Hr Hnew Ha. destruct (cut_exists head [] l) as (a & b & Hc).
  pose proof (cut_nil_l _ _ _ _ Hc) as ->.
  pose proof (ring_links h head [] [] l head b Hr Hc) as [[Hn _] _].
  unfold list_add, get_next. rewrite Hn. cbn [mbind option_bind].
  by apply (add_between h head [] l head b new).
Qed.

Lemma list_add_tail_ring h head l new :
  ring h head l -> new ∉ head :: l -> alloc h new ->
  exists h', list_add_tail h new head = Some h' /\ ring h' head (l ++ [new]) /\
    footprint h h' (new :: head :: l).
Proof.
  intros Hr Hnew Ha. destruct (cut_exists head l []) as (a & b & Hc).
  pose proof (cut_nil_r _ _ _ _ Hc) as ->. rewrite <- (app_nil_r l) in Hr, Hnew.
  pose proof (ring_links h head l [] [] a head Hr Hc) as [[_ Hp] _].
  unfold list_add_tail, get_prev. rewrite Hp. cbn [mbind option_bind].
  destruct (add_between h head l [] a head new) as (h' & E & R & F); [done..|].
  exists h'. rewrite app_nil_r in F. done.
Qed.

Lemma init_ring h list : alloc h list ->
  exists h', INIT_LIST_HEAD h list = Some h' /\ ring h' list [] /\ footprint h h' [list].
Proof.
  intros Ha. unfold INIT_LIST_HEAD. run. eexists. split; [done|]. split.
  - split; [apply NoDup_singleton|]. repeat split; look.
  - intros p Hp. assert (p <> list) by (intros ->; apply Hp; inlist). split; look.
Qed.

(** ** Removing *)

Lemma del_between h head l1 e l2 a b :
  ring h head (l1 ++ e :: l2) -> cut head l1 l2 a b ->
  exists h', __list_del_entry h e = Some h' /\ ring h' head (l1 ++ l2) /\
    footprint h h' (head :: l1 ++ l2) /\ alloc h' e /\ e ∉ head :: l1 ++ l2.
Proof.
  intros Hr Hc.
  pose proof (ring_links h head l1 [e] l2 a b Hr Hc) as (Hae & Heb & _).
  destruct (cut_in _ _ _ _ _ Hc) as [Hina Hinb].
  assert (He : e ∉ head :: l1 ++ l2).
  { destruct Hr as [Hnd _]. rewrite app_comm_cons, <- Permutation_middle, NoDup_cons in Hnd.
    by destruct Hnd. }
  assert (e <> a) by (intros ->; apply He; inlist).
  assert (e <> b) by (intros ->; apply He; inlist).
  unfold __list_del_entry, __list_del, get_prev, get_next.
  rewrite (proj2 Hae), (proj1 Heb). cbn [mbind option_bind]. run.
  eexists. split; [done|]. split; [|split; [|split; [|done]]].
  - apply (relink h _ head l1 [e] [] l2 a b); [done..| | | |].
    + destruct Hr as [Hnd _]. rewrite app_comm_cons, <- Permutation_middle, NoDup_cons in Hnd.
      by destruct Hnd.
    + intros p Hp Hpa. look.
    + intros p Hp Hpb. look.
    + repeat split; look.
  - intros p Hp. assert (p <> a) by (intros ->; apply Hp; inlist).
    assert (p <> b) by (intros ->; apply Hp; inlist). split; look.
  - split; cbn [nx pv upd_next upd_prev]; apply upd_alive.
    + eapply link_next; exact Heb.
    + eapply link_prev; exact Hae.
Qed.

Lemma del_entry_ring h head l1 e l2 :
  ring h head (l1 ++ e :: l2) ->
  exists h', __list_del_entry h e = Some h' /\ ring h' head (l1 ++ l2) /\
    footprint h h' (head :: l1 ++ l2) /\ alloc h' e /\ e ∉ head :: l1 ++ l2.
Proof.
  intros Hr. destruct (cut_exists head l1 l2) as (a & b & Hc). by apply (del_between h head l1 e l2 a b).
Qed.

Lemma footprint_trans h1 h2 h3 S T :
  footprint h1 h2 S -> footprint h2 h3 T -> footprint h1 h3 (S ++ T).
Proof.
  intros F1 F2 p Hp. rewrite elem_of_app in Hp.
  destruct (F1 p) as [E1 E2]; [tauto|]. destruct (F2 p) as [E3 E4]; [tauto|]. split; congruence.
Qed.

Lemma list_del_ring h head l1 e l2 :
  ring h head (l1 ++ e :: l2) ->
  exists h', list_del h e = Some h' /\ ring h' head (l1 ++ l2) /\
    nx h' !! e = Some LIST_POISON1 /\ pv h' !! e = Some LIST_POISON2 /\
    footprint h h' (e :: head :: l1 ++ l2).
Proof.
  intros Hr. destruct (del_entry_ring h head l1 e l2 Hr) as (h1 & E & R & F & A & He).
  unfold list_del. rewrite E. cbn [mbind option_bind]. run. eexists. split; [done|].
  assert (F2 : footprint h1 (upd_prev (upd_next h1 e LIST_POISON1) e LIST_POISON2) [e]).
  { intros p Hp. assert (p <> e) by (intros ->; apply Hp; inlist). split; look. }
  split; [|split; [look|split; [look|]]].
  - eapply ring_frame; [exact F2| |exact R]. intros p Hp. rewrite list_elem_of_singleton.
    by intros ->.
  - eapply footprint_weaken; [eapply footprint_trans; [exact F|exact F2]|].
    intros p. inlist.
Qed.

Lemma list_del_init_ring h head l1 e l2 :
  ring h head (l1 ++ e :: l2) ->
  exists h', list_del_init h e = Some h' /\ ring h' head (l1 ++ l2) /\ ring h' e [] /\
    footprint h h' (e :: head :: l1 ++ l2).
Proof.
  intros Hr. destruct (del_entry_ring h head l1 e l2 Hr) as (h1 & E & R & F & A & He).
  destruct (init_ring h1 e A) as (h2 & E2 & R2 & F2).
  unfold list_del_init. rewrite E. cbn [mbind option_bind]. exists h2. split; [done|].
  split; [|split; [done|]].
  - eapply ring_frame; [exact F2| |exact R]. intros p Hp. rewrite list_elem_of_singleton.
    by intros ->.
  - eapply footprint_weaken; [eapply footprint_trans; [exact F|exact F2]|].
    intros p. inlist.
Qed.

(** ** Moving *)

(** Within one list: the entry goes to the front, or to the back. *)
Lemma list_move_ring h head l1 e l2 :
  ring h head (l1 ++ e :: l2) ->
  exists h', list_move h e head = Some h' /\ ring h' head (e :: l1 ++ l2).
Proof.
  intros Hr. destruct (del_entry_ring h head l1 e l2 Hr) as (h1 & E & R & _ & A & He).
  unfold list_move. rewrite E. cbn [mbind option_bind].
  destruct (list_add_ring h1 head (l1 ++ l2) e) as (h2 & E2 & R2 & _); [done..|]. by exists h2.
Qed.

Lemma list_move_tail_ring h head l1 e l2 :
  ring h head (l1 ++ e :: l2) ->
  exists h', list_move_tail h e head = Some h' /\ ring h' head (l1 ++ l2 ++ [e]).
Proof.
  intros Hr. destruct (del_entry_ring h head l1 e l2 Hr) as (h1 & E & R & _ & A & He).
  unfold list_move_tail. rewrite E. cbn [mbind option_bind].
  destruct (list_add_tail_ring h1 head (l1 ++ l2) e) as (h2 & E2 & R2 & _); [done..|].
  exists h2. by rewrite app_assoc.
Qed.

(** From one list to another one. *)
Definition disjoint (l1 l2 : list Z) : Prop := forall p, p ∈ l1 -> p ∉ l2.

Lemma list_move_other h head l1 e l2 head' l' :
  ring h head (l1 ++ e :: l2) -> ring h head' l' ->
  disjoint (head' :: l') (head :: l1 ++ e :: l2) ->
  exists h', list_move h e head' = Some h' /\ ring h' head (l1 ++ l2) /\ ring h' head' (e :: l').
Proof.
  intros Hr Hr' Hd. destruct (del_entry_ring h head l1 e l2 Hr) as (h1 & E & R & F & A & He).
  assert (R1 : ring h1 head' l').
  { eapply ring_frame; [exact F| |exact Hr']. intros p Hp Hp'. apply (Hd p Hp). inlist. }
  assert (He' : e ∉ head' :: l') by (intros Hin; apply (Hd e Hin); inlist).
  unfold list_move. rewrite E. cbn [mbind option_bind].
  destruct (list_add_ring h1 head' l' e) as (h2 & E2 & R2 & F2); [done..|].
  exists h2. split; [done|]. split; [|done].
  eapply ring_frame; [exact F2| |exact R]. intros p Hp Hp'. rewrite elem_of_cons in Hp'.
  destruct Hp' as [->|Hp']; [done|]. apply (Hd p Hp'). inlist.
Qed.

(** ** Replacing *)

Lemma list_replace_ring h head l1 old l2 new :
  ring h head (l1 ++ old :: l2) -> new ∉ head :: l1 ++ old :: l2 -> alloc h new ->
  exists h', list_replace h old new = Some h' /\ ring h' head (l1 ++ new :: l2) /\
    footprint h h' (new :: head :: l1 ++ l2) /\ alloc h' old /\ old ∉ head :: l1 ++ new :: l2.
Proof.
  intros Hr Hnew Ha. destruct (cut_exists head l1 l2) as (a & b & Hc).
  pose proof (ring_links h head l1 [old] l2 a b Hr Hc) as (Hao & Hob & _).
  destruct (cut_in _ _ _ _ _ Hc) as [Hina Hinb].
  assert (Ho : old ∉ head :: l1 ++ l2).
  { destruct Hr as [Hnd _]. rewrite app_comm_cons, <- Permutation_middle, NoDup_cons in Hnd.
    by destruct Hnd. }
  assert (old <> a) by (intros ->; apply Ho; inlist).
  assert (old <> b) by (intros ->; apply Ho; inlist).
  assert (new <> a) by (intros ->; apply Hnew; inlist).
  assert (new <> b) by (intros ->; apply Hnew; inlist).
  assert (new <> old) by (intros ->; apply Hnew; inlist).
  unfold list_replace, get_next, get_prev. rewrite (proj1 Hob). cbn [mbind option_bind]. run.
  cbn [nx pv upd_next upd_prev]. rewrite lookup_insert_eq. cbn [mbind option_bind]. run.
  cbn [nx pv upd_next upd_prev]. rewrite lookup_insert_ne by done.
  rewrite (proj2 Hao). cbn [mbind option_bind]. run.
  cbn [nx pv upd_next upd_prev]. rewrite lookup_insert_eq. cbn [mbind option_bind]. run.
  assert (Hnew' : new ∉ head :: l1 ++ l2) by (intros Hin; apply Hnew; inlist).
  eexists. split; [done|]. split; [|split; [|split]].
  - apply (relink h _ head l1 [old] [new] l2 a b); [done..| | | |].
    + change (head :: l1 ++ [new] ++ l2) with ((head :: l1) ++ new :: l2).
      rewrite <- Permutation_middle. apply NoDup_cons. split; [done|].
      destruct Hr as [Hnd _]. rewrite app_comm_cons, <- Permutation_middle, NoDup_cons in Hnd.
      by destruct Hnd.
    + intros p Hp Hpa. assert (p <> new) by (intros ->; done). look.
    + intros p Hp Hpb. assert (p <> new) by (intros ->; done). look.
    + repeat split; look.
  - intros p Hp. assert (p <> a) by (intros ->; apply Hp; inlist).
    assert (p <> b) by (intros ->; apply Hp; inlist).
    assert (p <> new) by (intros ->; apply Hp; inlist). split; look.
  - split; alive.
  - intros Hin. apply Ho. rewrite elem_of_cons, elem_of_app, elem_of_cons in Hin.
    rewrite elem_of_cons, elem_of_app. destruct Hin as [?|[?|[?|?]]]; auto. congruence.
Qed.

(** ** Tests *)

Lemma list_empty_ring h head l : ring h head l -> list_empty h head = Some (bool_decide (l = [])).
Proof.
  intros [Hnd Hl]. unfold list_empty, get_next. destruct l as [|x l].
  - destruct Hl as [[-> _] _]. cbn. by rewrite Z.eqb_refl.
  - destruct Hl as [[-> _] _]. cbn. rewrite (proj2 (Z.eqb_neq _ _)); [done|].
    intros ->. rewrite NoDup_cons in Hnd. destruct Hnd as [Hn _]. apply Hn. by left.
Qed.

(** The ends of a ring. *)
Lemma ring_ends h head l :
  ring h head l ->
  exists a b, nx h !! head = Some b /\ pv h !! head = Some a /\ cut head l [] a head /\ cut head [] l head b.
Proof.
  intros Hr. destruct (cut_exists head l []) as (a & b & Hc).
  pose proof (cut_nil_r _ _ _ _ Hc) as ->.
  destruct (cut_exists head [] l) as (a' & b & Hc').
  pose proof (cut_nil_l _ _ _ _ Hc') as ->. exists a, b.
  rewrite <- (app_nil_r l) in Hr. pose proof (ring_links h head l [] [] a head Hr Hc) as [[_ H1] _].
  rewrite app_nil_r in Hr. pose proof (ring_links h head [] [] l head b Hr Hc') as [[H2 _] _]. done.
Qed.

Lemma list_is_singular_ring h head l :
  ring h head l -> list_is_singular h head = Some (bool_decide (length l = 1%nat)).
Proof.
  intros Hr. unfold list_is_singular. rewrite (list_empty_ring h head l Hr).
  destruct (ring_ends h head l Hr) as (a & b & Hb & Ha & Hc & Hc'). unfold get_next, get_prev.
  cbn [mbind option_bind]. rewrite Hb, Ha. cbn [mbind option_bind]. f_equal.
  destruct l as [|x l]; [done|]. pose proof (cut_cons_r _ _ _ _ _ _ Hc') as ->.
  destruct l as [|y l].
  - pose proof (cut_snoc_l head [] x [] a head Hc) as ->. cbn. by rewrite Z.eqb_refl.
  - destruct (exists_last (l := y :: l)) as (l' & z & E); [done|].
    assert (Ea : a = z).
    { rewrite E in Hc. apply (cut_snoc_l head (x :: l') z [] a head). exact Hc. }
    subst a. rewrite (proj2 (Z.eqb_neq x z)); [done|]. intros ->.
    destruct Hr as [Hnd _]. rewrite E, !NoDup_cons in Hnd. destruct Hnd as (_ & Hn & _).
    apply Hn, elem_of_app. right. by left.
Qed.

Lemma list_is_last_ring h head l1 e l2 :
  ring h head (l1 ++ e :: l2) -> list_is_last h e head = Some (bool_decide (l2 = [])).
Proof.
  intros Hr. destruct (cut_exists head l1 l2) as (a & b & Hc).
  pose proof (ring_links h head l1 [e] l2 a b Hr Hc) as (_ & [Hn _] & _).
  unfold list_is_last, get_next. rewrite Hn. cbn [mbind option_bind]. f_equal.
  destruct l2 as [|x l2].
  - pose proof (cut_nil_r _ _ _ _ Hc) as ->. by rewrite Z.eqb_refl.
  - pose proof (cut_cons_r _ _ _ _ _ _ Hc) as ->. rewrite (proj2 (Z.eqb_neq _ _)); [done|].
    intros ->. destruct Hr as [Hnd _]. rewrite NoDup_cons in Hnd. destruct Hnd as [Hn' _].
    apply Hn'. inlist.
Qed.

Lemma list_empty_careful_ring h head l :
  ring h head l -> list_empty_careful h head = Some (bool_decide (l = [])).
Proof.
  intros Hr. pose proof (list_empty_ring h head l Hr) as E.
  destruct (ring_ends h head l Hr) as (a & b & Hb & Ha & Hc & Hc').
  unfold list_empty, list_empty_careful, get_next, get_prev in *. rewrite Hb in *. rewrite Ha.
  cbn [mbind option_bind] in *. injection E as E. rewrite E. f_equal.
  destruct l as [|x l]; [|done]. pose proof (cut_nil_r _ _ _ _ Hc') as ->.
  pose proof (cut_nil_l _ _ _ _ Hc) as ->. cbn. by rewrite Z.eqb_refl.
Qed.

(** ** Cutting and splicing *)

(** A stretch between new ends: its inner fields are kept, its ends linked anew. *)
Lemma links_reends h h' l l0 e f t x y a b :
  l = l0 ++ [e] -> l = f :: t -> links h (x :: l ++ [y]) ->
  link h' a f -> link h' e b ->
  (forall p, p ∈ l0 -> nx h' !! p = nx h !! p) ->
  (forall p, p ∈ t -> pv h' !! p = pv h !! p) ->
  links h' (a :: l ++ [b]).
Proof.
  intros El Ef Hl Haf Heb Hn Hp.
  assert (Hin : links h l).
  { change (x :: l ++ [y]) with ((x :: l) ++ [y]) in Hl. rewrite El in Hl.
    rewrite app_comm_cons, <- app_assoc in Hl. cbn [app] in Hl.
    rewrite app_comm_cons in Hl. apply links_app in Hl as [Hl _].
    cbn [app] in Hl. rewrite <- El, Ef in Hl. rewrite Ef. by destruct Hl. }
  assert (Hin' : links h' l).
  { eapply links_frame; [| |exact Hin].
    - intros p. rewrite El, removelast_last. apply Hn.
    - intros p. rewrite Ef. apply Hp. }
  change (a :: l ++ [b]) with ((a :: l) ++ [b]). rewrite El, app_comm_cons, <- app_assoc.
  cbn [app]. rewrite app_comm_cons. apply links_app. split; [|split; [done|done]].
  cbn [app]. rewrite <- El, Ef. split; [done|]. by rewrite <- Ef.
Qed.

(** A non-empty stretch seen from both sides. *)
Lemma stretch_ends (l : list Z) :
  l <> [] -> exists f t l0 e, l = f :: t /\ l = l0 ++ [e].
Proof.
  intros Hl. destruct (exists_last Hl) as (l0 & e & E). destruct l as [|f t]; [done|].
  by exists f, t, l0, e.
Qed.

Lemma NoDup_tail (f : Z) t p : NoDup (f :: t) -> p ∈ t -> p <> f.
Proof. rewrite NoDup_cons. intros [Hn _] Hp ->. done. Qed.

Lemma NoDup_init (l0 : list Z) e p : NoDup (l0 ++ [e]) -> p ∈ l0 -> p <> e.
Proof. rewrite NoDup_app. intros (_ & Hd & _) Hp ->. apply (Hd e Hp). by left. Qed.

Lemma splice_between h list head l1 l2 l' a b :
  ring h head (l1 ++ l2) -> cut head l1 l2 a b -> ring h list l' -> l' <> [] ->
  disjoint (list :: l') (head :: l1 ++ l2) ->
  exists h', __list_splice h list a b = Some h' /\ ring h' head (l1 ++ l' ++ l2) /\
    footprint h h' (head :: l1 ++ l2 ++ l').
Proof.
  intros Hr Hc Hr' Hne Hd. destruct (stretch_ends l' Hne) as (f & t & l0 & e & Ef & Ee).
  pose proof (ring_links h head l1 [] l2 a b Hr Hc) as [Hab _].
  destruct (cut_in _ _ _ _ _ Hc) as [Hina Hinb].
  destruct (ring_ends h list l' Hr') as (e' & f' & Hnf & Hpe & Hce & Hcf).
  rewrite Ef in Hcf. pose proof (cut_cons_r _ _ _ _ _ _ Hcf) as ->.
  rewrite Ee in Hce. pose proof (cut_snoc_l _ _ _ _ _ _ Hce) as ->.
  assert (Hinf : f ∈ l') by (rewrite Ef; by left).
  assert (Hine : e ∈ l') by (rewrite Ee; apply elem_of_app; right; by left).
  destruct Hr' as [Hnd' Hl']. pose proof Hnd' as Hnd''. apply NoDup_cons in Hnd'' as [Hlist Hnl'].
  assert (Hsep : forall p q, p ∈ l' -> q ∈ head :: l1 ++ l2 -> p <> q)
    by (intros p q Hp Hq ->; apply (Hd q); [by right|done]).
  assert (Ha' : a ∈ head :: l1 ++ l2) by inlist.
  assert (Hb' : b ∈ head :: l1 ++ l2) by inlist.
  (* the inner links of the spliced list give the fields of its ends *)
  pose proof (Hl') as Hl''. rewrite Ef in Hl''. destruct Hl'' as [[_ Hpf] _].
  assert (Hne' : is_Some (nx h !! e)).
  { rewrite Ee, <- app_assoc in Hl'. cbn [app] in Hl'. rewrite app_comm_cons in Hl'.
    apply links_app in Hl' as [_ [[Hx _] _]]. by eexists. }
  unfold __list_splice, get_next, get_prev. rewrite Hnf, Hpe. cbn [mbind option_bind]. run.
  eexists. split; [done|]. split.
  - apply (relink h _ head l1 [] l' l2 a b); [done..| | | |].
    + destruct Hr as [Hnd _]. rewrite app_comm_cons in Hnd |- *.
      rewrite (Permutation_app_comm l' l2), app_assoc. apply NoDup_app.
      split; [done|]. split; [|done]. intros p Hp Hp'. by apply (Hsep p p).
    + intros p Hp Hpa. assert (p <> e) by (intros ->; by apply (Hsep e e)). look.
    + intros p Hp Hpb. assert (p <> f) by (intros ->; by apply (Hsep f f)). look.
    + assert (e <> a) by by apply Hsep. assert (f <> b) by by apply Hsep.
      eapply (links_reends h _ l' l0 e f t list list a b Ee Ef Hl').
      * split; look.
      * split; look.
      * intros p Hp. assert (p ∈ l') by (rewrite Ee; apply elem_of_app; by left).
        assert (p <> a) by by apply Hsep.
        assert (p <> e) by (apply (NoDup_init l0); [by rewrite <- Ee|done]). look.
      * intros p Hp. assert (p ∈ l') by (rewrite Ef; by right).
        assert (p <> b) by by apply Hsep.
        assert (p <> f) by (apply (NoDup_tail f t); [by rewrite <- Ef|done]). look.
  - intros p Hp. assert (p <> a) by (intros ->; apply Hp; inlist).
    assert (p <> b) by (intros ->; apply Hp; inlist).
    assert (p <> e) by (intros ->; apply Hp; inlist).
    assert (p <> f) by (intros ->; apply Hp; inlist). split; look.
Qed.

(** Splicing at the front; an empty list changes nothing. *)
Lemma list_splice_ring h list head l l' :
  ring h head l -> ring h list l' -> disjoint (list :: l') (head :: l) ->
  exists h', list_splice h list head = Some h' /\ ring h' head (l' ++ l).
Proof.
  intros Hr Hr' Hd. unfold list_splice. rewrite (list_empty_ring h list l' Hr').
  cbn [mbind option_bind]. destruct (bool_decide_reflect (l' = [])) as [->|Hne]; [by exists h|].
  destruct (ring_ends h head l Hr) as (a & b & Hb & _ & _ & Hc). unfold get_next. rewrite Hb.
  cbn [mbind option_bind].
  destruct (splice_between h list head [] l l' head b) as (h' & E & R & _); [done..|].
  by exists h'.
Qed.

Lemma list_splice_tail_ring h list head l l' :
  ring h head l -> ring h list l' -> disjoint (list :: l') (head :: l) ->
  exists h', list_splice_tail h list head = Some h' /\ ring h' head (l ++ l').
Proof.
  intros Hr Hr' Hd. unfold list_splice_tail. rewrite (list_empty_ring h list l' Hr').
  cbn [mbind option_bind]. destruct (bool_decide_reflect (l' = [])) as [->|Hne];
    [rewrite app_nil_r; by exists h|].
  destruct (ring_ends h head l Hr) as (a & b & _ & Ha & Hc & _). unfold get_prev. rewrite Ha.
  cbn [mbind option_bind]. rewrite <- (app_nil_r l) in Hr, Hd.
  destruct (splice_between h list head l [] l' a head) as (h' & E & R & _); [done..|].
  exists h'. rewrite app_nil_r in R. done.
Qed.

(** With the spliced head reinitialised, it can be used again. *)
Lemma splice_init_frame h list head l l' h1 :
  ring h list l' -> disjoint (list :: l') (head :: l) ->
  footprint h h1 (head :: l ++ l') -> ring h1 head (l' ++ l) \/ ring h1 head (l ++ l') ->
  exists h', INIT_LIST_HEAD h1 list = Some h' /\ ring h' list [] /\
    (ring h1 head (l' ++ l) -> ring h' head (l' ++ l)) /\
    (ring h1 head (l ++ l') -> ring h' head (l ++ l')).
Proof.
  intros Hr' Hd F _. assert (Hl : list ∉ head :: l ++ l').
  { destruct Hr' as [Hnd _]. rewrite NoDup_cons in Hnd. destruct Hnd as [Hn _].
    intros Hin. apply (Hd list); [by left|]. inlist. }
  destruct (ring_ends h list l' Hr') as (a & b & Hb & Ha & _).
  destruct (F list Hl) as [F1 F2].
  destruct (init_ring h1 list) as (h' & E & R & F'); [split; [rewrite F1, Hb|rewrite F2, Ha]; by eexists|].
  exists h'. split; [done|]. split; [done|].
  split; intros R1; (eapply ring_frame; [exact F'| |exact R1]); intros p Hp;
    rewrite list_elem_of_singleton; intros ->; apply Hl; inlist.
Qed.

Lemma list_splice_init_ring h list head l l' :
  ring h head l -> ring h list l' -> disjoint (list :: l') (head :: l) ->
  exists h', list_splice_init h list head = Some h' /\ ring h' head (l' ++ l) /\ ring h' list [].
Proof.
  intros Hr Hr' Hd. unfold list_splice_init. rewrite (list_empty_ring h list l' Hr').
  cbn [mbind option_bind]. destruct (bool_decide_reflect (l' = [])) as [->|Hne]; [by exists h|].
  destruct (ring_ends h head l Hr) as (a & b & Hb & _ & _ & Hc). unfold get_next. rewrite Hb.
  cbn [mbind option_bind].
  destruct (splice_between h list head [] l l' head b) as (h1 & E & R & F); [done..|].
  rewrite E. cbn [mbind option_bind].
  destruct (splice_init_frame h list head l l' h1) as (h' & E' & R1 & R2 & _); [done..|by left|].
  exists h'. auto.
Qed.

Lemma list_splice_tail_init_ring h list head l l' :
  ring h head l -> ring h list l' -> disjoint (list :: l') (head :: l) ->
  exists h', list_splice_tail_init h list head = Some h' /\ ring h' head (l ++ l') /\ ring h' list [].
Proof.
  intros Hr Hr' Hd. unfold list_splice_tail_init. rewrite (list_empty_ring h list l' Hr').
  cbn [mbind option_bind]. destruct (bool_decide_reflect (l' = [])) as [->|Hne];
    [rewrite app_nil_r; by exists h|].
  destruct (ring_ends h head l Hr) as (a & b & _ & Ha & Hc & _). unfold get_prev. rewrite Ha.
  cbn [mbind option_bind]. pose proof Hd as Hd0. pose proof Hr as Hr0.
  rewrite <- (app_nil_r l) in Hr, Hd.
  destruct (splice_between h list head l [] l' a head) as (h1 & E & R & F); [done..|].
  rewrite app_nil_r in R. cbn [app] in F. rewrite E. cbn [mbind option_bind].
  destruct (splice_init_frame h list head l l' h1) as (h' & E' & R1 & _ & R2); [done..|by right|].
  exists h'. auto.
Qed.

(** A stretch at the front of a ring is apart from the rest and from a fresh node. *)
Lemma stretch_apart (lst head : Z) (seg l2 : list Z) (b : Z) :
  NoDup (head :: seg ++ l2) -> lst ∉ head :: seg ++ l2 -> b ∈ l2 \/ b = head ->
  (forall p, p ∈ seg -> p <> head /\ p <> lst /\ p <> b /\ p ∉ l2) /\
  (forall p, p ∈ l2 -> p <> head /\ p <> lst /\ p ∉ seg) /\
  head <> lst /\ b <> lst /\ NoDup seg /\ NoDup (head :: l2) /\ NoDup (lst :: seg).
Proof.
  intros Hnd Hlist Hb. rewrite NoDup_cons, NoDup_app in Hnd. destruct Hnd as (Hh & Hs & Hd & H2).
  rewrite !elem_of_cons, !elem_of_app in *. split; [|split; [|split; [|split; [|split; [|split]]]]].
  - intros p Hp. repeat split; [by intros ->; tauto|by intros ->; tauto| |by apply Hd].
    intros ->. destruct Hb as [Hb| ->]; [by apply (Hd b)|tauto].
  - intros p Hp. repeat split; [by intros ->; tauto|by intros ->; tauto|].
    intros Hp'. by apply (Hd p).
  - intros ->. tauto.
  - intros ->. destruct Hb as [Hb| ->]; tauto.
  - done.
  - apply NoDup_cons. split; [tauto|done].
  - apply NoDup_cons. split; [tauto|done].
Qed.

Lemma cut_core h list head seg l2 f t l0 e :
  seg = f :: t -> seg = l0 ++ [e] ->
  ring h head (seg ++ l2) -> alloc h list -> list ∉ head :: seg ++ l2 ->
  exists h', __list_cut_position h list head e = Some h' /\
    ring h' list seg /\ ring h' head l2.
Proof.
  intros Ef Ee Hr Ha Hlist.
  destruct (cut_exists head [] l2) as (a & b & Hc). pose proof (cut_nil_l _ _ _ _ Hc) as ->.
  destruct (cut_in _ _ _ _ _ Hc) as [_ Hinb].
  pose proof (ring_links h head [] seg l2 head b Hr Hc) as Hl.
  pose proof Hl as Hl1. rewrite Ef in Hl1. destruct Hl1 as [Hhf _].
  pose proof Hl as Hl2. rewrite Ee, <- app_assoc in Hl2. cbn [app] in Hl2.
  rewrite app_comm_cons in Hl2. apply links_app in Hl2 as [_ [Heb _]].
  destruct (stretch_apart list head seg l2 b (proj1 Hr) Hlist Hinb)
    as (As & A2 & Ahl & Abl & Ns & N2 & Nl).
  destruct (As f) as (F1 & F2 & F3 & F4); [rewrite Ef; by left|].
  destruct (As e) as (E1 & E2 & E3 & E4); [rewrite Ee; apply elem_of_app; right; by left|].
  unfold __list_cut_position, get_next. rewrite (proj1 Heb), (proj1 Hhf). cbn [mbind option_bind].
  run. cbn [nx pv upd_next upd_prev]. rewrite lookup_insert_eq. cbn [mbind option_bind]. run.
  eexists. split; [done|]. split.
  - split; [done|].
    apply (links_reends h _ seg l0 e f t head b list list Ee Ef Hl); [split; look..| |].
    + intros p Hp. destruct (As p) as (P1 & P2 & P3 & P4); [rewrite Ee; apply elem_of_app; by left|].
      assert (p <> e) by (apply (NoDup_init l0); [by rewrite <- Ee|done]). look.
    + intros p Hp. destruct (As p) as (P1 & P2 & P3 & P4); [rewrite Ef; by right|].
      assert (p <> f) by (apply (NoDup_tail f t); [by rewrite <- Ef|done]). look.
  - apply (relink h _ head [] seg [] l2 head b); [done..| | |repeat split; look].
    + cbn [app]. intros p Hp Hpa. rewrite elem_of_cons in Hp. destruct Hp as [->|Hp]; [done|].
      destruct (A2 p Hp) as (P1 & P2 & P3). assert (p <> e) by (intros ->; done). look.
    + cbn [app]. intros p Hp Hpb. rewrite elem_of_cons in Hp.
      assert (p <> list) by (destruct Hp as [->|Hp]; [done|by apply A2]).
      assert (p <> f) by (intros ->; by destruct Hp). look.
Qed.

(** Cutting after [entry]: the entries up to it move to the fresh [list]. *)
Lemma list_cut_position_ring h list head l0 entry l2 :
  ring h head (l0 ++ entry :: l2) -> alloc h list -> list ∉ head :: l0 ++ entry :: l2 ->
  exists h', list_cut_position h list head entry = Some h' /\
    ring h' list (l0 ++ [entry]) /\ ring h' head l2.
Proof.
  intros Hr Ha Hlist. assert (El : l0 ++ entry :: l2 = (l0 ++ [entry]) ++ l2) by by rewrite <- app_assoc.
  destruct (stretch_ends (l0 ++ [entry])) as (f & t & l0' & e' & Ef & Ee); [by destruct l0|].
  apply app_inj_tail in Ee as [<- <-].
  destruct (cut_core h list head (l0 ++ [entry]) l2 f t l0 entry) as (h' & E & R1 & R2);
    [done|done|by rewrite <- El|done|by rewrite <- El|].
  exists h'. split; [|done]. unfold list_cut_position.
  rewrite (list_empty_ring h head _ Hr), (list_is_singular_ring h head _ Hr).
  assert (Hne : bool_decide (l0 ++ entry :: l2 = []) = false)
    by (apply bool_decide_eq_false; by destruct l0).
  rewrite Hne. cbn [mbind option_bind].
  destruct (ring_ends h head _ Hr) as (a & b & Hb & _ & _ & Hc). unfold get_next at 1. rewrite Hb.
  rewrite El, Ef in Hc. pose proof (cut_cons_r _ _ _ _ _ _ Hc) as ->. cbn [mbind option_bind].
  assert (Hs : bool_decide (length (l0 ++ entry :: l2) = 1%nat)
    && (negb (f =? entry) && negb (head =? entry)) = false).
  { destruct (bool_decide_reflect (length (l0 ++ entry :: l2) = 1%nat)) as [E1|]; [|done].
    rewrite length_app in E1. cbn in E1. destruct l0; [|cbn in E1; lia].
    cbn in Ef. injection Ef as <- _. by rewrite Z.eqb_refl. }
  rewrite Hs. rewrite (proj2 (Z.eqb_neq entry head)); [done|]. intros ->.
  destruct Hr as [Hnd _]. rewrite NoDup_cons in Hnd. destruct Hnd as [Hn _]. apply Hn. inlist.
Qed.

(** ** Traversals *)

Lemma walk_next h head l xs fuel :
  NoDup (head :: xs ++ l) -> links h (l ++ [head]) -> (length l <= fuel)%nat ->
  walk (get_next h) fuel (hd head l) head = Some l.
Proof.
  revert xs fuel. induction l as [|x l IH]; intros xs fuel Hnd Hl Hf; cbn [hd].
  - destruct fuel; cbn; by rewrite Z.eqb_refl.
  - assert (x <> head) by (intros ->; rewrite NoDup_cons in Hnd; destruct Hnd as [Hn _]; apply Hn; inlist).
    destruct fuel as [|fuel]; [cbn in Hf; lia|]. cbn [walk]. rewrite (proj2 (Z.eqb_neq _ _)) by done.
    assert (E : get_next h x = Some (hd head l) /\ links h (l ++ [head]))
      by (destruct l; cbn [app] in Hl; destruct Hl as [[Hn _] Hl]; by split).
    destruct E as [-> Hl']. cbn [mbind option_bind].
    rewrite (IH (xs ++ [x])); [done| |done|cbn in Hf; lia].
    by rewrite <- app_assoc.
Qed.

Lemma list_for_each_ring h head l fuel :
  ring h head l -> (length l <= fuel)%nat -> list_for_each h fuel head = Some l.
Proof.
  intros [Hnd Hl] Hf. unfold list_for_each.
  assert (E : get_next h head = Some (hd head l) /\ links h (l ++ [head]))
    by (destruct l; cbn [app] in Hl; destruct Hl as [[Hn _] Hl]; by split).
  destruct E as [-> Hl']. cbn [mbind option_bind]. by apply (walk_next h head l []).
Qed.

(** Backwards, the same entries in the opposite order. *)
Lemma walk_prev h head l fuel :
  ring h head l -> (length l <= fuel)%nat ->
  forall l1 l2, l = l1 ++ l2 ->
  walk (get_prev h) fuel (List.last l1 head) head = Some (rev l1).
Proof.
  intros Hr Hf l1 l2 ->. rewrite length_app in Hf.
  assert (Hf' : (length l1 <= fuel)%nat) by lia. clear Hf.
  revert l2 fuel Hf' Hr. induction l1 as [|x l1 IH] using rev_ind; intros l2 fuel Hf Hr.
  - destruct fuel; cbn; by rewrite Z.eqb_refl.
  - rewrite last_last, rev_app_distr. cbn [rev app]. rewrite length_app in Hf. cbn in Hf.
    destruct fuel as [|fuel]; [lia|]. cbn [walk].
    rewrite <- app_assoc in Hr. cbn [app] in Hr.
    rewrite (proj2 (Z.eqb_neq _ _))
      by (intros ->; destruct Hr as [Hnd _]; rewrite NoDup_cons in Hnd; destruct Hnd as [Hn _]; apply Hn; inlist).
    destruct (cut_exists head l1 l2) as (a & b & Hc).
    pose proof (ring_links h head l1 [x] l2 a b Hr Hc) as ([_ Hp] & _).
    change (pv h !! x) with (get_prev h x) in Hp. rewrite Hp. cbn [mbind option_bind].
    assert (Ea : a = List.last l1 head).
    { destruct (decide (l1 = [])) as [->|Hne]; [by pose proof (cut_nil_l _ _ _ _ Hc)|].
      destruct (exists_last Hne) as (l0 & z & ->). rewrite last_last.
      by apply (cut_snoc_l head l0 z l2 a b). }
    rewrite Ea. rewrite (IH (x :: l2)) by (done || lia). done.
Qed.

Lemma list_for_each_prev_ring h head l fuel :
  ring h head l -> (length l <= fuel)%nat -> list_for_each_prev h fuel head = Some (rev l).
Proof.
  intros Hr Hf. destruct (ring_ends h head l Hr) as (a & b & _ & Ha & Hc & _).
  unfold list_for_each_prev. change (pv h !! head) with (get_prev h head) in Ha.
  rewrite Ha. cbn [mbind option_bind].
  assert (Ea : a = List.last l head).
  { destruct (decide (l = [])) as [->|Hne]; [by pose proof (cut_nil_l _ _ _ _ Hc)|].
    destruct (exists_last Hne) as (l0 & z & ->). rewrite last_last.
    by apply (cut_snoc_l head l0 z [] a head). }
  rewrite Ea. apply (walk_prev h head l fuel Hr Hf l []). by rewrite app_nil_r.
Qed.

(** Deleting every entry during the safe traversal visits them all. *)
Lemma walk_safe_del h head l fuel :
  ring h head l -> (length l <= fuel)%nat -> forall n, nx h !! hd head l = Some n ->
  exists h', walk_safe list_del fuel h (hd head l) n head = Some (h', l) /\ ring h' head [].
Proof.
  revert h fuel. induction l as [|x l IH]; intros h fuel Hr Hf n Hn; cbn [hd] in *.
  - exists h. destruct fuel; cbn; by rewrite Z.eqb_refl.
  - destruct fuel as [|fuel]; [cbn in Hf; lia|].
    assert (Hx : x <> head) by (intros ->; destruct Hr as [Hnd _]; rewrite NoDup_cons in Hnd;
      destruct Hnd as [Hn' _]; apply Hn'; by left).
    cbn [walk_safe]. rewrite (proj2 (Z.eqb_neq _ _)) by done.
    destruct (list_del_ring h head [] x l Hr) as (h1 & E & R & _). rewrite E.
    cbn [mbind option_bind].
    assert (En : n = hd head l).
    { destruct Hr as [_ Hl]. cbn [app] in Hl. destruct Hl as [_ Hl].
      destruct l; cbn [app] in Hl; destruct Hl as [[Hn' _] _]; rewrite Hn' in Hn; by injection Hn. }
    subst n. cbn [app] in R.
    assert (Hn1 : exists n1, nx h1 !! hd head l = Some n1).
    { destruct R as [_ Rl]. destruct l as [|y l]; cbn [app] in Rl.
      - destruct Rl as [[R1 _] _]. by eexists.
      - destruct Rl as [_ Rl]. destruct l; cbn [app] in Rl; destruct Rl as [[R1 _] _]; by eexists. }
    destruct Hn1 as [n1 Hn1]. unfold get_next at 1. rewrite Hn1. cbn [mbind option_bind].
    destruct (IH h1 fuel R ltac:(cbn in Hf; lia) n1 Hn1) as (h' & W & R').
    rewrite W. cbn [mbind option_bind]. by exists h'.
Qed.

Lemma list_for_each_safe_del h head l fuel :
  ring h head l -> (length l <= fuel)%nat ->
  exists h', list_for_each_safe list_del h fuel head = Some (h', l) /\ ring h' head [].
Proof.
  intros Hr Hf. pose proof Hr as [_ Hl]. unfold list_for_each_safe, get_next.
  assert (E : nx h !! head = Some (hd head l))
    by (destruct l; cbn [app] in Hl; by destruct Hl as [[? _] _]).
  rewrite E. cbn [mbind option_bind].
  assert (Hn : exists n, nx h !! hd head l = Some n).
  { destruct l as [|x l]; [by eexists|]. cbn [app hd] in *. destruct Hl as [_ Hl].
    destruct l; cbn [app] in Hl; destruct Hl as [[? _] _]; by eexists. }
  destruct Hn as [n Hn]. rewrite Hn. cbn [mbind option_bind]. by apply walk_safe_del.
Qed.

(** ** Results *)

(** A heap with four unlinked heads, for the witnesses. *)
Definition heap0 : heap :=
  {| nx := list_to_map [(1, 1); (2, 0); (3, 0); (4, 4)];
     pv := list_to_map [(1, 1); (2, 0); (3, 0); (4, 4)] |}.

Lemma heap0_ring : ring heap0 1 [] /\ alloc heap0 2 /\ alloc heap0 3.
Proof.
  split; [|split; split; by eexists]. split; [apply NoDup_singleton|]. by repeat split.
Qed.

(** C31: Insertion and removal: list_add puts a new entry first and list_add_tail
    last; list_del and list_del_init remove an entry wherever it is, the first
    leaving its fields poisoned and the second leaving it an empty list; no
    operation faults. *)
Theorem list_add_del (h : heap) (head new e : Z) (l l1 l2 : list Z) :
  (ring h head l -> new ∉ head :: l -> alloc h new ->
     (exists h', list_add h new head = Some h' /\ ring h' head (new :: l)) /\
     (exists h', list_add_tail h new head = Some h' /\ ring h' head (l ++ [new]))) /\
  (ring h head (l1 ++ e :: l2) ->
     (exists h', list_del h e = Some h' /\ ring h' head (l1 ++ l2) /\
        nx h' !! e = Some LIST_POISON1 /\ pv h' !! e = Some LIST_POISON2) /\
     (exists h', list_del_init h e = Some h' /\ ring h' head (l1 ++ l2) /\ ring h' e [])).
Proof.
  split.
  - intros Hr Hn Ha. split.
    + destruct (list_add_ring h head l new) as (h' & ? & ? & _); eauto.
    + destruct (list_add_tail_ring h head l new) as (h' & ? & ? & _); eauto.
  - intros Hr. split.
    + destruct (list_del_ring h head l1 e l2 Hr) as (h' & ? & ? & ? & ? & _); eauto 6.
    + destruct (list_del_init_ring h head l1 e l2 Hr) as (h' & ? & ? & ? & _); eauto 6.
Qed.

Lemma list_add_del_witness :
  exists h', list_add_tail heap0 2 1 = Some h' /\ ring h' 1 ([] ++ [2]).
Proof.
  refine (proj2 (proj1 (list_add_del heap0 1 2 0 [] [] []) _ _ _)).
  - apply heap0_ring.
  - rewrite list_elem_of_singleton. discriminate.
  - apply heap0_ring.
Defined.

(** Moving and replacing: list_move and list_move_tail take an entry to the
    front or the back of its list, list_move also to another list, list_rotate_left
    sends the first entry last and leaves an empty list alone, and list_replace
    puts a new entry in the place of an old one. *)
Theorem list_move_replace (h : heap) (head e new head' : Z) (l1 l2 l' : list Z) :
  ring h head (l1 ++ e :: l2) ->
  (exists h', list_move h e head = Some h' /\ ring h' head (e :: l1 ++ l2)) /\
  (exists h', list_move_tail h e head = Some h' /\ ring h' head (l1 ++ l2 ++ [e])) /\
  (l1 = [] -> exists h', list_rotate_left h head = Some h' /\ ring h' head (l2 ++ [e])) /\
  (ring h head' l' -> disjoint (head' :: l') (head :: l1 ++ e :: l2) ->
     exists h', list_move h e head' = Some h' /\ ring h' head (l1 ++ l2) /\ ring h' head' (e :: l')) /\
  (new ∉ head :: l1 ++ e :: l2 -> alloc h new ->
     (exists h', list_replace h e new = Some h' /\ ring h' head (l1 ++ new :: l2)) /\
     (exists h', list_replace_init h e new = Some h' /\ ring h' head (l1 ++ new :: l2) /\ ring h' e [])).
Proof.
  intros Hr. split; [by apply list_move_ring|]. split; [by apply list_move_tail_ring|].
  split; [|split; [by apply list_move_other|]].
  - intros ->. cbn [app] in Hr. unfold list_rotate_left.
    rewrite (list_empty_ring h head _ Hr). cbn [mbind option_bind].
    assert (E : get_next h head = Some e) by (destruct Hr as [_ [[? _] _]]; done).
    cbn. rewrite E. cbn [mbind option_bind]. apply (list_move_tail_ring h head [] e l2 Hr).
  - intros Hn Ha.
    destruct (list_replace_ring h head l1 e l2 new Hr Hn Ha) as (h1 & E & R & _ & A & Ho).
    split; [by exists h1|]. unfold list_replace_init. rewrite E. cbn [mbind option_bind].
    destruct (init_ring h1 e A) as (h2 & E2 & R2 & F2). exists h2. split; [done|]. split; [|done].
    eapply ring_frame; [exact F2| |exact R]. intros p Hp. rewrite list_elem_of_singleton. by intros ->.
Qed.

(** A list with the entries 2 and 3, for the witnesses. *)
Definition heap1 : heap :=
  {| nx := list_to_map [(1, 2); (2, 3); (3, 1); (4, 4)];
     pv := list_to_map [(1, 3); (2, 1); (3, 2); (4, 4)] |}.

Lemma heap1_ring : ring heap1 1 [2; 3] /\ ring heap1 4 [] /\ alloc heap1 4 /\ 4 ∉ [1; 2; 3].
Proof.
  split; [|split; [|split]].
  - split; [|by repeat split]. by apply (bool_decide_eq_true_1 (NoDup [1; 2; 3])).
  - split; [apply NoDup_singleton|by repeat split].
  - split; by eexists.
  - by apply (bool_decide_eq_true_1 (4 ∉ [1; 2; 3])).
Qed.

Lemma list_move_replace_witness :
  exists h', list_rotate_left heap1 1 = Some h' /\ ring h' 1 [3; 2].
Proof.
  exact (proj1 (proj2 (proj2 (list_move_replace heap1 1 2 4 4 [] [3] [] (proj1 heap1_ring)))) eq_refl).
Defined.

(** Joining and cutting: the four splices put all the entries of one list at
    the front or the back of another one, the init variants leaving the first
    list empty and usable; list_cut_position moves the entries up to and
    including the given one to a fresh list. *)
Theorem list_splice_cut (h : heap) (lst head entry : Z) (l l' l0 l2 : list Z) :
  (ring h head l -> ring h lst l' -> disjoint (lst :: l') (head :: l) ->
     (exists h', list_splice h lst head = Some h' /\ ring h' head (l' ++ l)) /\
     (exists h', list_splice_tail h lst head = Some h' /\ ring h' head (l ++ l')) /\
     (exists h', list_splice_init h lst head = Some h' /\ ring h' head (l' ++ l) /\ ring h' lst []) /\
     (exists h', list_splice_tail_init h lst head = Some h' /\ ring h' head (l ++ l') /\ ring h' lst [])) /\
  (ring h head (l0 ++ entry :: l2) -> alloc h lst -> lst ∉ head :: l0 ++ entry :: l2 ->
     exists h', list_cut_position h lst head entry = Some h' /\
       ring h' lst (l0 ++ [entry]) /\ ring h' head l2).
Proof.
  split.
  - intros Hr Hr' Hd. split; [by apply list_splice_ring|]. split; [by apply list_splice_tail_ring|].
    split; [by apply list_splice_init_ring|by apply list_splice_tail_init_ring].
  - apply list_cut_position_ring.
Qed.

Lemma list_splice_cut_witness :
  (exists h', list_cut_position heap1 4 1 2 = Some h' /\ ring h' 4 [2] /\ ring h' 1 [3]) /\
  (exists h', list_splice heap1 1 4 = Some h' /\ ring h' 4 ([2; 3] ++ [])).
Proof.
  destruct heap1_ring as (H1 & H2 & H3 & H4). split.
  - exact (proj2 (list_splice_cut heap1 4 1 2 [] [] [] [3]) H1 H3 H4).
  - refine (proj1 (proj1 (list_splice_cut heap1 1 4 0 [] [2; 3] [] []) H2 H1 _)).
    intros p Hp. rewrite list_elem_of_singleton. intros ->. by apply H4.
Defined.

(** Traversals and tests: list_for_each visits the entries in order and
    list_for_each_prev in the opposite order, the length of the list being enough
    steps; list_for_each_safe with list_del as its body visits them all and empties
    the list; list_empty, list_empty_careful, list_is_singular and list_is_last
    decide what they say. *)
Theorem list_traversal (h : heap) (head : Z) (l : list Z) (fuel : nat) :
  ring h head l -> (length l <= fuel)%nat ->
  list_for_each h fuel head = Some l /\
  list_for_each_prev h fuel head = Some (rev l) /\
  (exists h', list_for_each_safe list_del h fuel head = Some (h', l) /\ ring h' head []) /\
  list_empty h head = Some (bool_decide (l = [])) /\
  list_empty_careful h head = Some (bool_decide (l = [])) /\
  list_is_singular h head = Some (bool_decide (length l = 1%nat)) /\
  (forall l1 e l2, l = l1 ++ e :: l2 -> list_is_last h e head = Some (bool_decide (l2 = []))).
Proof.
  intros Hr Hf. split; [by apply list_for_each_ring|]. split; [by apply list_for_each_prev_ring|].
  split; [by apply list_for_each_safe_del|]. split; [by apply list_empty_ring|].
  split; [by apply list_empty_careful_ring|]. split; [by apply list_is_singular_ring|].
  intros l1 e l2 ->. by apply (list_is_last_ring h head l1).
Qed.

Lemma list_traversal_witness :
  list_for_each heap1 2 1 = Some [2; 3] /\ list_for_each_prev heap1 2 1 = Some [3; 2].
Proof.
  pose proof (list_traversal heap1 1 [2; 3] 2 (proj1 heap1_ring) (le_n 2)) as (H1 & H2 & _).
  exact (conj H1 H2).
Defined.

End LinuxList.
