(* ===== verification/ListEntry.v ===== *)
(** The entries of a list (linux-list.h): the structures that hold the list heads, and the
    loops over them.  A loop with a body that keeps the list visits every entry; one of
    the safe loops does so with a body that takes the current entry off the list. *)

From stdpp Require Import gmap.
From S2P Require Import Prelude LinuxList.
Import LinuxList.

Module ListEntry.

(** ** The code *)

(** [for (; at pos != head; pos = step(pos)) body]: the heap at the end, and the positions
    for which the body was run; [None] for a fault, or when the fuel is out. *)
Fixpoint for_loop (at_ : Z -> Z) (step : heap -> Z -> option Z) (body : heap -> Z -> option heap) (fuel : nat)
    (h : heap) (pos head : Z) : option (heap * list Z) :=
  if at_ pos =? head then Some (h, [])
  else
    match fuel with
    | O => None
    | S fuel =>
        h ← body h pos; next ← step h pos;
        '(h, rest) ← for_loop at_ step body fuel h next head;
        Some (h, pos :: rest)
    end.

(** [for (; at pos != head; pos = n, n = step(n)) body]: [n] is read before the body. *)
Fixpoint for_safe (at_ : Z -> Z) (step : heap -> Z -> option Z) (body : heap -> Z -> option heap) (fuel : nat)
    (h : heap) (pos n head : Z) : option (heap * list Z) :=
  if at_ pos =? head then Some (h, [])
  else
    match fuel with
    | O => None
    | S fuel =>
        h ← body h pos; n' ← step h n;
        '(h, rest) ← for_safe at_ step body fuel h n n' head;
        Some (h, pos :: rest)
    end.

Definition list_for_each_prev_safe (body : heap -> Z -> option heap) (h : heap) (fuel : nat) (head : Z) :=
  pos ← get_prev h head; n ← get_prev h pos; for_safe id get_prev body fuel h pos n head.

Section member.
Context (offset : Z).

Definition container_of (ptr : Z) : Z := ptr - offset.
(** [&pos->member] *)
Definition member (pos : Z) : Z := pos + offset.

Definition list_first_entry (h : heap) (ptr : Z) : option Z := container_of <$> get_next h ptr.
Definition list_last_entry (h : heap) (ptr : Z) : option Z := container_of <$> get_prev h ptr.
Definition list_first_entry_or_null (h : heap) (ptr : Z) : option Z :=
  empty ← list_empty h ptr; if negb empty then list_first_entry h ptr else Some 0.
Definition list_next_entry (h : heap) (pos : Z) : option Z := container_of <$> get_next h (member pos).
Definition list_prev_entry (h : heap) (pos : Z) : option Z := container_of <$> get_prev h (member pos).
Definition list_prepare_entry (pos head : Z) : Z := if pos =? 0 then container_of head else pos.
Definition list_safe_reset_next (h : heap) (pos : Z) : option Z := list_next_entry h pos.

Section loops.
Context (body : heap -> Z -> option heap) (h : heap) (fuel : nat).

Definition list_for_each_entry (head : Z) :=
  pos ← list_first_entry h head; for_loop member list_next_entry body fuel h pos head.
Definition list_for_each_entry_reverse (head : Z) :=
  pos ← list_last_entry h head; for_loop member list_prev_entry body fuel h pos head.
Definition list_for_each_entry_continue (pos head : Z) :=
  pos ← list_next_entry h pos; for_loop member list_next_entry body fuel h pos head.
Definition list_for_each_entry_continue_reverse (pos head : Z) :=
  pos ← list_prev_entry h pos; for_loop member list_prev_entry body fuel h pos head.
Definition list_for_each_entry_from (pos head : Z) := for_loop member list_next_entry body fuel h pos head.
Definition list_for_each_entry_safe (head : Z) :=
  pos ← list_first_entry h head; n ← list_next_entry h pos; for_safe member list_next_entry body fuel h pos n head.
Definition list_for_each_entry_safe_continue (pos head : Z) :=
  pos ← list_next_entry h pos; n ← list_next_entry h pos; for_safe member list_next_entry body fuel h pos n head.
Definition list_for_each_entry_safe_from (pos head : Z) :=
  n ← list_next_entry h pos; for_safe member list_next_entry body fuel h pos n head.
Definition list_for_each_entry_safe_reverse (head : Z) :=
  pos ← list_last_entry h head; n ← list_prev_entry h pos; for_safe member list_prev_entry body fuel h pos n head.
End loops.

End member.

(** ** Directions *)

(** A step from the position [of_] an address to that of the next one of a list, which
    ends where it began, at the head. *)
Class Walk (head : Z) (at_ of_ : Z -> Z) (step : heap -> Z -> option Z) (R : heap -> list Z -> Prop) := {
  walk_at : forall x, at_ (of_ x) = x;
  walk_head : forall h l, R h l -> head ∉ l;
  walk_first : forall h l, R h l -> step h (of_ head) = Some (of_ (hd head l));
  walk_on : forall h l1 x l2, R h (l1 ++ x :: l2) -> step h (of_ x) = Some (of_ (hd head l2));
}.

Section generic.
Context {head : Z} {at_ of_ : Z -> Z} {step : heap -> Z -> option Z} {R : heap -> list Z -> Prop} {W : Walk head at_ of_ step R}.
Context (body : heap -> Z -> option heap).

Lemma not_at_head h l1 x l2 : R h (l1 ++ x :: l2) -> (at_ (of_ x) =? head) = false.
Proof using W. intros Hr. rewrite (walk_at x). apply Z.eqb_neq. intros ->. apply (walk_head _ _ Hr). rewrite elem_of_app. right. by left. Qed.

Lemma at_head : (at_ (of_ head) =? head) = true.
Proof using W. rewrite (walk_at head). apply Z.eqb_refl. Qed.

(** A body that keeps the list. *)
Definition keeps_list (l : list Z) : Prop := forall h x, R h l -> x ∈ l -> exists h', body h (of_ x) = Some h' /\ R h' l.

Lemma for_loop_visits l : keeps_list l -> forall l2 l1 h fuel, l = l1 ++ l2 -> R h l -> (length l2 <= fuel)%nat ->
  exists h', for_loop at_ step body fuel h (of_ (hd head l2)) head = Some (h', map of_ l2) /\ R h' l.
Proof using W.
  intros Hb. induction l2 as [|x l2 IH]; intros l1 h fuel El Hr Hf.
  - exists h. cbn [hd map]. destruct fuel; cbn [for_loop]; by rewrite at_head.
  - destruct fuel as [|fuel]; [cbn in Hf; lia|]. cbn [for_loop hd]. rewrite (not_at_head h l1 x l2) by by rewrite <- El.
    destruct (Hb h x Hr) as (h1 & -> & Hr1); [rewrite El, elem_of_app; right; by left|]. cbn [mbind option_bind].
    rewrite (walk_on h1 l1 x l2) by by rewrite <- El. cbn [mbind option_bind].
    destruct (IH (l1 ++ [x]) h1 fuel) as (h2 & -> & Hr2); [by rewrite <- app_assoc|done|cbn in Hf; lia|]. by exists h2.
Qed.

(** A body that takes some of the entries off the list, each when it is its turn. *)
Definition takes_off (keep : Z -> bool) : Prop := forall h l1 x l2, R h (l1 ++ x :: l2) ->
  exists h', body h (of_ x) = Some h' /\ R h' (l1 ++ (if keep x then [x] else []) ++ l2).

Lemma walk_any h l1 l2 : R h (l1 ++ l2) -> exists n, step h (of_ (hd head l2)) = Some (of_ n) /\ (forall x l3, l2 = x :: l3 -> n = hd head l3).
Proof using W.
  destruct l2 as [|x l2]; intros Hr.
  - rewrite app_nil_r in Hr. exists (hd head l1). split; [exact (walk_first h l1 Hr)|done].
  - exists (hd head l2). split; [exact (walk_on h l1 x l2 Hr)|]. by intros ? ? [= -> ->].
Qed.

Lemma for_safe_visits keep : takes_off keep -> forall l2 l1 h n fuel, R h (l1 ++ l2) -> (length l2 <= fuel)%nat ->
  step h (of_ (hd head l2)) = Some (of_ n) ->
  exists h', for_safe at_ step body fuel h (of_ (hd head l2)) (of_ n) head = Some (h', map of_ l2) /\ R h' (l1 ++ List.filter keep l2).
Proof using W.
  intros Hb. induction l2 as [|x l2 IH]; intros l1 h n fuel Hr Hf Hn.
  - exists h. cbn [hd map List.filter]. split; [|done]. destruct fuel; cbn [for_safe]; by rewrite at_head.
  - destruct fuel as [|fuel]; [cbn in Hf; lia|]. cbn [for_safe hd] in *. rewrite (not_at_head h l1 x l2 Hr).
    rewrite (walk_on h l1 x l2 Hr) in Hn. apply (f_equal (fun o => default 0 (at_ <$> o))) in Hn. cbn in Hn. rewrite !walk_at in Hn. subst n.
    destruct (Hb h l1 x l2 Hr) as (h1 & -> & Hr1). cbn [mbind option_bind]. rewrite app_assoc in Hr1.
    destruct (walk_any h1 _ l2 Hr1) as (n' & E & _). rewrite E. cbn [mbind option_bind].
    destruct (IH _ h1 n' fuel Hr1 ltac:(cbn in Hf; lia) E) as (h2 & -> & Hr2). exists h2. split; [done|].
    rewrite <- app_assoc in Hr2. cbn [List.filter]. by destruct (keep x).
Qed.
End generic.

(** *** Forwards and backwards *)

Lemma ring_next h head l1 x l2 : ring h head (l1 ++ x :: l2) ->
  get_next h x = Some (hd head l2) /\ get_prev h x = Some (List.last l1 head).
Proof.
  intros Hr. destruct (cut_exists head l1 l2) as (a & b & Hc). destruct (ring_links h head l1 [x] l2 a b Hr Hc) as ([_ Hp] & [Hn _] & _).
  unfold get_next, get_prev. rewrite Hn, Hp. split; f_equal.
  - destruct l2 as [|y l2]; [exact (cut_nil_r _ _ _ _ Hc)|exact (cut_cons_r _ _ _ _ _ _ Hc)].
  - destruct (decide (l1 = [])) as [->|Hne]; [exact (cut_nil_l _ _ _ _ Hc)|]. destruct (exists_last Hne) as (l0 & z & ->).
    rewrite last_last. exact (cut_snoc_l _ _ _ _ _ _ Hc).
Qed.

Lemma ring_first h head l : ring h head l -> get_next h head = Some (hd head l) /\ get_prev h head = Some (List.last l head).
Proof.
  intros Hr. destruct (ring_ends h head l Hr) as (a & b & Hb & Ha & Hc & Hc'). unfold get_next, get_prev. rewrite Hb, Ha. split; f_equal.
  - destruct l as [|y l]; [exact (cut_nil_r _ _ _ _ Hc')|exact (cut_cons_r _ _ _ _ _ _ Hc')].
  - destruct (decide (l = [])) as [->|Hne]; [exact (cut_nil_l _ _ _ _ Hc)|]. destruct (exists_last Hne) as (l0 & z & ->).
    rewrite last_last. exact (cut_snoc_l _ _ _ _ _ _ Hc).
Qed.

Lemma ring_head h head l : ring h head l -> head ∉ l.
Proof. intros [Hnd _]. by apply NoDup_cons in Hnd as [? _]. Qed.

Lemma last_rev (l : list Z) head : List.last (rev l) head = hd head l.
Proof. destruct l as [|x l]; [done|]. cbn. apply last_last. Qed.

Section directions.
Context (offset head : Z).

Lemma member_of x : member offset (container_of offset x) = x.
Proof. unfold member, container_of. lia. Qed.

#[export] Instance forwards : Walk head (member offset) (container_of offset) (list_next_entry offset) (fun h => ring h head).
Proof.
  split; [apply member_of|intros h l; apply ring_head|..]; intros h l; intros; unfold list_next_entry; rewrite member_of.
  - by rewrite (proj1 (ring_first h head l H)).
  - by rewrite (proj1 (ring_next h head l x l2 H)).
Qed.

#[export] Instance backwards : Walk head (member offset) (container_of offset) (list_prev_entry offset) (fun h l => ring h head (rev l)).
Proof.
  split; [apply member_of|intros h l Hr; apply ring_head in Hr; by rewrite list_elem_of_In, in_rev, <- list_elem_of_In|..]; intros h l; intros;
    unfold list_prev_entry; rewrite member_of.
  - by rewrite (proj2 (ring_first h head (rev l) H)), last_rev.
  - rewrite rev_app_distr in H. cbn [rev] in H. rewrite <- app_assoc in H. by rewrite (proj2 (ring_next h head (rev l2) x (rev l) H)), last_rev.
Qed.


#[export] Instance backwards_plain : Walk head id id get_prev (fun h l => ring h head (rev l)).
Proof.
  split; [done|intros h l Hr; apply ring_head in Hr; by rewrite list_elem_of_In, in_rev, <- list_elem_of_In|..]; unfold id; intros h l; intros.
  - by rewrite (proj2 (ring_first h head (rev l) H)), last_rev.
  - rewrite rev_app_distr in H. cbn [rev] in H. rewrite <- app_assoc in H. by rewrite (proj2 (ring_next h head (rev l2) x (rev l) H)), last_rev.
Qed.

(** *** Entries *)

Lemma first_last_entries h l : ring h head l ->
  list_first_entry offset h head = Some (container_of offset (hd head l)) /\
  list_last_entry offset h head = Some (container_of offset (List.last l head)) /\
  list_first_entry_or_null offset h head = Some (if bool_decide (l = []) then 0 else container_of offset (hd head l)).
Proof.
  intros Hr. destruct (ring_first h head l Hr) as [H1 H2]. unfold list_first_entry_or_null, list_first_entry, list_last_entry.
  rewrite H1, H2, (list_empty_ring h head l Hr). split; [done|]. split; [done|]. cbn. by destruct (bool_decide (l = [])).
Qed.

Lemma next_prev_entries h l1 x l2 : ring h head (l1 ++ x :: l2) ->
  list_next_entry offset h (container_of offset x) = Some (container_of offset (hd head l2)) /\
  list_prev_entry offset h (container_of offset x) = Some (container_of offset (List.last l1 head)).
Proof.
  intros Hr. destruct (ring_next h head l1 x l2 Hr) as [H1 H2]. unfold list_next_entry, list_prev_entry. by rewrite member_of, H1, H2.
Qed.

(** What a loop does: the entries it visits, the list it leaves. *)
Definition visits (run : option (heap * list Z)) (xs l : list Z) : Prop :=
  exists h', run = Some (h', map (container_of offset) xs) /\ ring h' head l.

Lemma keeps_rev body l : keeps_list (of_ := container_of offset) (R := fun h => ring h head) body l ->
  keeps_list (of_ := container_of offset) (R := fun h l => ring h head (rev l)) body (rev l).
Proof. intros Hb h x. rewrite rev_involutive, list_elem_of_In, <- in_rev, <- list_elem_of_In. apply Hb. Qed.

Lemma takes_off_rev (of_ : Z -> Z) body keep : takes_off (of_ := of_) (R := fun h => ring h head) body keep ->
  takes_off (of_ := of_) (R := fun h l => ring h head (rev l)) body keep.
Proof.
  intros Hb h l1 x l2. rewrite !rev_app_distr. cbn [rev]. rewrite <- app_assoc. intros Hr. destruct (Hb h _ _ _ Hr) as (h' & E & Hr').
  exists h'. split; [done|]. rewrite <- app_assoc. by destruct (keep x).
Qed.

Lemma entry_loops_spec h l body fuel :
  ring h head l -> keeps_list (of_ := container_of offset) (R := fun h => ring h head) body l -> (length l <= fuel)%nat ->
  visits (list_for_each_entry offset body h fuel head) l l /\
  visits (list_for_each_entry_reverse offset body h fuel head) (rev l) l /\
  (forall l1 x l2, l = l1 ++ x :: l2 ->
   visits (list_for_each_entry_continue offset body h fuel (container_of offset x) head) l2 l /\
   visits (list_for_each_entry_continue_reverse offset body h fuel (container_of offset x) head) (rev l1) l /\
   visits (list_for_each_entry_from offset body h fuel (container_of offset x) head) (x :: l2) l).
Proof.
  intros Hr Hb Hf. pose proof (for_loop_visits body l Hb) as Hnext. pose proof (for_loop_visits body (rev l) (keeps_rev body l Hb)) as Hprev.
  destruct (first_last_entries h l Hr) as (E1 & E2 & _). assert (Hr' : ring h head (rev (rev l))) by by rewrite rev_involutive.
  assert (Hl : length (rev l) = length l) by apply length_rev.
  split; [|split].
  - unfold list_for_each_entry. rewrite E1. by apply (Hnext l []).
  - unfold list_for_each_entry_reverse. rewrite E2, <- (rev_involutive l), last_rev at 1.
    destruct (Hprev (rev l) [] h fuel eq_refl Hr' ltac:(lia)) as (h' & E & Hh). exists h'. rewrite rev_involutive in *. done.
  - intros l1 x l2 El. rewrite El in Hr. destruct (next_prev_entries h l1 x l2 Hr) as [N1 N2]. rewrite <- El in Hr.
    assert (Hll : (length l1 + S (length l2) <= fuel)%nat) by (rewrite El, length_app in Hf; cbn in Hf; lia).
    split; [|split].
    + unfold list_for_each_entry_continue. rewrite N1. apply (Hnext l2 (l1 ++ [x])); [by rewrite <- app_assoc|done|lia].
    + unfold list_for_each_entry_continue_reverse. rewrite N2, <- (rev_involutive l1), last_rev, rev_involutive.
      destruct (Hprev (rev l1) (rev l2 ++ [x]) h fuel) as (h' & E & Hh); [by rewrite El, rev_app_distr|done|rewrite length_rev; lia|].
      exists h'. by rewrite rev_involutive in Hh.
    + unfold list_for_each_entry_from. apply (Hnext (x :: l2) l1); [done|done|cbn; lia].
Qed.

Lemma safe_loops_spec h l body keep fuel :
  ring h head l -> takes_off (of_ := container_of offset) (R := fun h => ring h head) body keep -> (length l <= fuel)%nat ->
  visits (list_for_each_entry_safe offset body h fuel head) l (List.filter keep l) /\
  visits (list_for_each_entry_safe_reverse offset body h fuel head) (rev l) (List.filter keep l) /\
  (forall l1 x l2, l = l1 ++ x :: l2 ->
   visits (list_for_each_entry_safe_continue offset body h fuel (container_of offset x) head) l2 (l1 ++ x :: List.filter keep l2) /\
   visits (list_for_each_entry_safe_from offset body h fuel (container_of offset x) head) (x :: l2) (l1 ++ List.filter keep (x :: l2))).
Proof.
  intros Hr Hb Hf. pose proof (for_safe_visits body keep Hb) as Hnext. pose proof (for_safe_visits body keep (takes_off_rev _ body keep Hb)) as Hprev.
  destruct (first_last_entries h l Hr) as (E1 & E2 & _). split; [|split].
  - unfold list_for_each_entry_safe. rewrite E1. cbn [mbind option_bind]. destruct (walk_any h [] l Hr) as (n & E & _). rewrite E.
    by apply (Hnext l []).
  - unfold list_for_each_entry_safe_reverse. rewrite E2. cbn [mbind option_bind].
    assert (Hr' : ring h head (rev ([] ++ rev l))) by (cbn [app]; by rewrite rev_involutive).
    destruct (walk_any (step := list_prev_entry offset) (R := fun h l => ring h head (rev l)) h [] (rev l) Hr') as (n & E & _).
    rewrite <- (rev_involutive l), last_rev, rev_involutive, E. destruct (Hprev (rev l) [] h n fuel Hr' ltac:(rewrite length_rev; lia) E) as (h' & E' & Hh').
    exists h'. split; [done|]. cbn [app] in Hh'. rewrite filter_rev, rev_involutive in Hh'. by rewrite ?rev_involutive.
  - intros l1 x l2 ->. rewrite length_app in Hf. cbn in Hf. destruct (next_prev_entries h l1 x l2 Hr) as [N1 _]. split.
    + unfold list_for_each_entry_safe_continue. rewrite N1. cbn [mbind option_bind].
      assert (Hr' : ring h head ((l1 ++ [x]) ++ l2)) by by rewrite <- app_assoc.
      destruct (walk_any h (l1 ++ [x]) l2 Hr') as (n & E & _). rewrite E. cbn [mbind option_bind].
      destruct (Hnext l2 (l1 ++ [x]) h n fuel Hr' ltac:(lia) E) as (h' & E' & Hh'). exists h'. by rewrite <- app_assoc in Hh'.
    + unfold list_for_each_entry_safe_from. rewrite N1. cbn [mbind option_bind]. apply (Hnext (x :: l2) l1); [done|cbn; lia|exact N1].
Qed.

Lemma prev_safe_spec h l body keep fuel :
  ring h head l -> takes_off (of_ := id) (R := fun h => ring h head) body keep -> (length l <= fuel)%nat ->
  exists h', list_for_each_prev_safe body h fuel head = Some (h', rev l) /\ ring h' head (List.filter keep l).
Proof.
  intros Hr Hb Hf. pose proof (for_safe_visits body keep (takes_off_rev _ body keep Hb)) as Hprev.
  unfold list_for_each_prev_safe. rewrite (proj2 (ring_first h head l Hr)). cbn [mbind option_bind].
  assert (Hr' : ring h head (rev ([] ++ rev l))) by (cbn [app]; by rewrite rev_involutive).
  destruct (walk_any (step := get_prev) (R := fun h l => ring h head (rev l)) h [] (rev l) Hr') as (n & E & _). pose proof E as E0. change (get_prev h (hd head (rev l)) = Some n) in E0.
  rewrite <- (rev_involutive l), last_rev, rev_involutive, E0. destruct (Hprev (rev l) [] h n fuel Hr' ltac:(rewrite length_rev; lia) E) as (h' & E' & Hh').
  exists h'. rewrite map_id in E'. split; [done|]. cbn [app] in Hh'. rewrite filter_rev, rev_involutive in Hh'. by rewrite ?rev_involutive.
Qed.
End directions.

(** A body that takes the entries off that are not to be kept. *)
Definition delete_others (offset : Z) (keep : Z -> bool) (h : heap) (pos : Z) : option heap :=
  if keep (member offset pos) then Some h else list_del h (member offset pos).

Lemma delete_others_takes offset head keep :
  takes_off (of_ := container_of offset) (R := fun h => ring h head) (delete_others offset keep) keep.
Proof.
  intros h l1 x l2 Hr. unfold delete_others. rewrite member_of. destruct (keep x); [by exists h|].
  destruct (list_del_ring h head l1 x l2 Hr) as (h' & E & Hr' & _). by exists h'.
Qed.

Lemma ring_alloc h head l x : ring h head l -> x ∈ head :: l -> is_Some (nx h !! x).
Proof.
  intros Hr [->|Hx]%elem_of_cons.
  - destruct (ring_first h head l Hr) as [E _]. by eexists.
  - apply list_elem_of_split in Hx as (l1 & l2 & ->). destruct (ring_next h head l1 x l2 Hr) as [E _]. by eexists.
Qed.

Lemma delete_step offset h x : delete_others offset (fun _ => false) h (container_of offset x) = list_del h x.
Proof. unfold delete_others. by rewrite member_of. Qed.

(** The loop that is not safe follows the poison of the entry that is gone. *)
Lemma list_for_each_entry_del_faults offset h head x l fuel :
  ring h head (x :: l) -> nx h !! LIST_POISON1 = None -> pv h !! LIST_POISON1 = None ->
  list_for_each_entry offset (delete_others offset (fun _ => false)) h fuel head = None.
Proof.
  intros Hr Hn Hp. destruct (first_last_entries offset head h (x :: l) Hr) as (E1 & _). unfold list_for_each_entry. rewrite E1. cbn [mbind option_bind hd].
  assert (Hx : x <> head) by (intros ->; apply (ring_head h head _ Hr); by left).
  assert (Hf : LIST_POISON1 ∉ head :: x :: l) by (intros Hin; destruct (ring_alloc h head _ _ Hr Hin) as [v Hv]; congruence).
  destruct fuel as [|fuel]; cbn [for_loop]; rewrite member_of, (proj2 (Z.eqb_neq _ _) Hx); [done|].
  rewrite delete_step. destruct (list_del_ring h head [] x l Hr) as (h1 & -> & _ & Hnx & _ & F). cbn [mbind option_bind].
  assert (En : list_next_entry offset h1 (container_of offset x) = Some (container_of offset LIST_POISON1)).
  { unfold list_next_entry, get_next. by rewrite member_of, Hnx. }
  rewrite En. cbn [mbind option_bind]. rewrite !elem_of_cons in Hf.
  assert (Hh : LIST_POISON1 <> head) by tauto. destruct fuel as [|fuel]; cbn [for_loop]; rewrite member_of, (proj2 (Z.eqb_neq _ _) Hh); [done|].
  rewrite delete_step. destruct (F LIST_POISON1) as [_ Fp]; [rewrite !elem_of_cons; tauto|].
  unfold list_del, __list_del_entry, get_prev. by rewrite Fp, Hp.
Qed.

(** ** Properties *)

(** A loop with a body that leaves the list as it is visits the entries in order, or in the
    opposite order, from the beginning, from an entry on, or after it. *)
Theorem entry_loops offset h head l body fuel :
  ring h head l -> keeps_list (of_ := container_of offset) (R := fun h => ring h head) body l -> (length l <= fuel)%nat ->
  visits offset head (list_for_each_entry offset body h fuel head) l l /\
  visits offset head (list_for_each_entry_reverse offset body h fuel head) (rev l) l /\
  (forall l1 x l2, l = l1 ++ x :: l2 ->
   visits offset head (list_for_each_entry_continue offset body h fuel (container_of offset x) head) l2 l /\
   visits offset head (list_for_each_entry_continue_reverse offset body h fuel (container_of offset x) head) (rev l1) l /\
   visits offset head (list_for_each_entry_from offset body h fuel (container_of offset x) head) (x :: l2) l).
Proof. apply entry_loops_spec. Qed.

Lemma entry_loops_witness :
  visits 8 1 (list_for_each_entry_reverse 8 (fun h _ => Some h) heap1 2 1) [3; 2] [2; 3].
Proof.
  apply (entry_loops 8 heap1 1 [2; 3] (fun h _ => Some h) 2 (proj1 heap1_ring)); [|done]. intros h x Hr _. by exists h.
Defined.

(** C30: The safe loops over entries allow a body that takes the current entry off the list: whichever entries
    it takes off, every one of the list, or from an entry on, is visited, in order or in the opposite order,
    and the list is left with the others. *)
Theorem entry_loops_safe offset h head l body keep fuel :
  ring h head l -> takes_off (of_ := container_of offset) (R := fun h => ring h head) body keep -> (length l <= fuel)%nat ->
  visits offset head (list_for_each_entry_safe offset body h fuel head) l (List.filter keep l) /\
  visits offset head (list_for_each_entry_safe_reverse offset body h fuel head) (rev l) (List.filter keep l) /\
  (forall l1 x l2, l = l1 ++ x :: l2 ->
   visits offset head (list_for_each_entry_safe_continue offset body h fuel (container_of offset x) head) l2 (l1 ++ x :: List.filter keep l2) /\
   visits offset head (list_for_each_entry_safe_from offset body h fuel (container_of offset x) head) (x :: l2) (l1 ++ List.filter keep (x :: l2))).
Proof. apply safe_loops_spec. Qed.

Lemma entry_loops_safe_witness :
  visits 8 1 (list_for_each_entry_safe 8 (delete_others 8 (Z.eqb 3)) heap1 2 1) [2; 3] [3] /\
  visits 8 1 (list_for_each_entry_safe_reverse 8 (delete_others 8 (Z.eqb 3)) heap1 2 1) [3; 2] [3].
Proof.
  pose proof (entry_loops_safe 8 heap1 1 [2; 3] _ (Z.eqb 3) 2 (proj1 heap1_ring) (delete_others_takes 8 1 (Z.eqb 3)) (le_n 2)) as (H1 & H2 & _).
  exact (conj H1 H2).
Defined.
End ListEntry.
