(* ===== verification/Locks.v ===== *)
(** The locks (samthread.h, mutex.c) as interleavings of the atomic accesses of
    their functions, by any number of threads.  An abstract lock says who owns
    it; the class [LockMachine] is what a lock implementation promises, and the
    spin lock keeps the promise in every execution, the futex mutex in those
    where no unlock takes its slow path.  [spin_sched] runs the spin lock under a
    scheduler: when each thread has its turns, some thread gets the lock.  The
    interleavings are sequentially consistent. *)

From S2P Require Import Prelude.

Module Locks.

(** ** The abstract lock *)

Inductive event := Acquire (t : nat) | Release (t : nat).

#[export] Instance event_eq_dec : EqDecision event.
Proof. solve_decision. Defined.

(** The owner after an event; only a free lock can be acquired, and only its
    owner can release it. *)
Definition abs_event (o : option nat) (e : event) : option (option nat) :=
  match e, o with
  | Acquire t, None => Some (Some t)
  | Release t, Some u => if decide (t = u) then Some None else None
  | _, _ => None
  end.

Definition abs_label (o : option nat) (l : option event) : option (option nat) :=
  match l with None => Some o | Some e => abs_event o e end.

Fixpoint abs_run (o : option nat) (tr : list event) : option (option nat) :=
  match tr with
  | [] => Some o
  | e :: tr => o ← abs_event o e; abs_run o tr
  end.

(** Executions of a labelled step relation, with their events. *)
Inductive execution {S} (step : S -> option event -> S -> Prop) : S -> list event -> S -> Prop :=
  | exec_nil s : execution step s [] s
  | exec_snoc s tr s1 l s2 :
      execution step s tr s1 -> step s1 l s2 ->
      execution step s (tr ++ option_list l) s2.

(** What a lock promises: its steps are steps of the abstract lock. *)
Class LockMachine {S} (init : S -> Prop) (step : S -> option event -> S -> Prop)
    (owned : S -> option nat -> Prop) := {
  init_free s : init s -> owned s None;
  step_simulates s o l s' :
    owned s o -> step s l s' -> exists o', abs_label o l = Some o' /\ owned s' o';
}.

Lemma abs_run_app o tr1 tr2 :
  abs_run o (tr1 ++ tr2) = o' ← abs_run o tr1; abs_run o' tr2.
Proof.
  revert o. induction tr1 as [|e tr1 IH]; intros o; [done|]. cbn.
  destruct (abs_event o e); [apply IH|done].
Qed.

Lemma machine_refines {S} init step owned `{!@LockMachine S init step owned} s tr s' :
  init s -> execution step s tr s' -> exists o, abs_run None tr = Some o /\ owned s' o.
Proof.
  intros Hi. induction 1 as [s|s tr s1 l s2 _ IH Hs].
  - exists None. split; [done|]. by apply init_free.
  - destruct (IH Hi) as (o & E & Ho). destruct (step_simulates _ _ _ _ Ho Hs) as (o' & El & Ho').
    exists o'. split; [|done]. rewrite abs_run_app, E. cbn. destruct l; cbn in *; [by rewrite El|done].
Qed.

(** ** Pools of threads *)

(** How many threads are at a place. *)
Fixpoint cnt {A} (f : A -> bool) (pool : list A) : Z :=
  match pool with
  | [] => 0
  | p :: pool => Z.b2z (f p) + cnt f pool
  end.

Lemma cnt_insert {A} (f : A -> bool) pool t p p' :
  pool !! t = Some p -> cnt f (<[t := p']> pool) = cnt f pool - Z.b2z (f p) + Z.b2z (f p').
Proof.
  revert t. induction pool as [|q pool IH]; intros [|t] E; try done; simpl in *.
  - injection E as ->. lia.
  - rewrite (IH t E). lia.
Qed.

Lemma cnt_range {A} (f : A -> bool) pool : 0 <= cnt f pool <= zlen pool.
Proof.
  unfold zlen. induction pool as [|p pool IH]; cbn [cnt length]; [lia|].
  destruct (f p); cbn [Z.b2z]; lia.
Qed.

Lemma cnt_lookup {A} (f : A -> bool) pool t p : pool !! t = Some p -> Z.b2z (f p) <= cnt f pool.
Proof.
  revert t. induction pool as [|q pool IH]; intros [|t] E; try done; cbn in *.
  - injection E as ->. pose proof (cnt_range f pool). lia.
  - specialize (IH t E). destruct (f q); cbn; lia.
Qed.

Lemma cnt_pos {A} (f : A -> bool) pool : 0 < cnt f pool -> exists t p, pool !! t = Some p /\ f p = true.
Proof.
  induction pool as [|p pool IH]; cbn; [lia|]. destruct (f p) eqn:E; cbn.
  - intros _. by exists 0%nat, p.
  - intros H. destruct (IH H) as (t & q & ? & ?). by exists (S t), q.
Qed.

Lemma cnt_unique {A} (f : A -> bool) pool t u p q :
  cnt f pool <= 1 -> pool !! t = Some p -> f p = true -> pool !! u = Some q -> f q = true -> t = u.
Proof.
  revert t u. induction pool as [|r pool IH]; intros [|t] [|u] Hc Et Ef Eu Eg; try done; cbn in *.
  - injection Et as ->. pose proof (cnt_lookup f _ _ _ Eu) as H.
    rewrite Eg in H. rewrite Ef in Hc. cbn in *. lia.
  - injection Eu as ->. pose proof (cnt_lookup f _ _ _ Et) as H.
    rewrite Ef in H. rewrite Eg in Hc. cbn in *. lia.
  - f_equal. apply (IH t u); try done. destruct (f r); cbn in *; lia.
Qed.

Lemma cnt_replicate {A} (f : A -> bool) n p : f p = false -> cnt f (replicate n p) = 0.
Proof. intros E. induction n; cbn; [done|]. by rewrite E. Qed.

(** The word is the number of owners in the pool, and the owner is that one. *)
Definition holds {A} (own : A -> bool) (ps : list A) (word : Z) (o : option nat) : Prop :=
  word = cnt own ps /\
  match o with
  | None => word = 0
  | Some t => word = 1 /\ exists p, ps !! t = Some p /\ own p = true
  end.

Section holds.
Context {A : Type} (own : A -> bool).
Implicit Types (ps : list A) (word : Z) (o : option nat) (p : A).

Lemma holds_replicate n p : own p = false -> holds own (replicate n p) 0 None.
Proof. intros E. split; [|done]. by rewrite cnt_replicate. Qed.

Lemma holds_same ps word o t p p' :
  holds own ps word o -> ps !! t = Some p -> own p' = own p -> holds own (<[t := p']> ps) word o.
Proof.
  intros [Hc Ho] E Ep. split.
  - rewrite (cnt_insert _ _ _ _ _ E), Ep. lia.
  - destruct o as [u|]; [|done]. destruct Ho as (H1 & q & Eq & Hq). split; [done|].
    destruct (decide (t = u)) as [->|Hn].
    + exists p'. rewrite list_lookup_insert_eq by (by eapply lookup_lt_Some). split; [done|].
      rewrite E in Eq. injection Eq as ->. by rewrite Ep.
    + exists q. by rewrite list_lookup_insert_ne.
Qed.

Lemma holds_acquire ps word o t p p' :
  holds own ps word o -> word = 0 -> ps !! t = Some p -> own p = false -> own p' = true ->
  abs_event o (Acquire t) = Some (Some t) /\ holds own (<[t := p']> ps) 1 (Some t).
Proof.
  intros [Hc Ho] H0 E Ep Ep'. destruct o as [u|]; [lia|]. split; [done|]. split.
  - rewrite (cnt_insert _ _ _ _ _ E), Ep, Ep'. cbn. lia.
  - split; [done|]. exists p'. by rewrite list_lookup_insert_eq by (by eapply lookup_lt_Some).
Qed.

Lemma holds_release ps word o t p p' :
  holds own ps word o -> ps !! t = Some p -> own p = true -> own p' = false ->
  word = 1 /\ abs_event o (Release t) = Some None /\ holds own (<[t := p']> ps) 0 None.
Proof.
  intros [Hc Ho] E Ep Ep'. pose proof (cnt_lookup own _ _ _ E) as H1. rewrite Ep in H1. cbn in H1.
  destruct o as [u|]; [|lia]. destruct Ho as (H2 & q & Eq & Hq).
  assert (t = u) as -> by (eapply (cnt_unique own); eauto; lia).
  split; [done|]. split; [cbn; by rewrite decide_True|]. split; [|done].
  rewrite (cnt_insert _ _ _ _ _ E), Ep, Ep'. cbn. lia.
Qed.

End holds.

(** ** The spin lock (samthread.h) *)

(** Where a thread is: outside, before the compare-and-swap of [spin_lock], in
    its [sched_yield], with the lock, in [spin_unlock]. *)
Inductive spin_pc := SOut | SCas | SYield | SHeld | SStore.

Record spin := { lock : Z; spool : list spin_pc }.

(** [__sync_bool_compare_and_swap]: the result and the word. *)
Definition bool_cas (word old new : Z) : bool * Z :=
  if word =? old then (true, new) else (false, word).

(** The next atomic access of a thread, with its event. *)
Definition spin_access (t : nat) (word : Z) (p : spin_pc) : Z * spin_pc * option event :=
  match p with
  | SOut => (word, SCas, None)
  | SCas =>
      match bool_cas word 0 1 with
      | (true, word) => (word, SHeld, Some (Acquire t))
      | (false, word) => (word, SYield, None)
      end
  | SYield => (word, SCas, None)
  | SHeld => (word, SStore, None)
  | SStore => (0, SOut, Some (Release t))
  end.

Definition spinlock_init (n : nat) : spin := {| lock := 0; spool := replicate n SOut |}.

Inductive spin_step : spin -> option event -> spin -> Prop :=
  | spin_run s t p word p' l :
      spool s !! t = Some p ->
      spin_access t (lock s) p = (word, p', l) ->
      spin_step s l {| lock := word; spool := <[t := p']> (spool s) |}.

Definition spin_owner (p : spin_pc) : bool :=
  match p with SHeld | SStore => true | _ => false end.

(** The lock word is 1 exactly when one thread has the lock. *)
Definition spin_owned (s : spin) (o : option nat) : Prop := holds spin_owner (spool s) (lock s) o.

(** A schedule: the threads whose accesses come next, in order. *)
Definition spin_turn (s : spin) (t : nat) : spin * option event :=
  match spool s !! t with
  | None => (s, None)
  | Some p =>
      let '(word, p', l) := spin_access t (lock s) p in
      ({| lock := word; spool := <[t := p']> (spool s) |}, l)
  end.

Fixpoint spin_sched (s : spin) (ts : list nat) : spin * list event :=
  match ts with
  | [] => (s, [])
  | t :: ts =>
      let '(s1, l) := spin_turn s t in
      let '(s2, tr) := spin_sched s1 ts in
      (s2, option_list l ++ tr)
  end.

(** A round of a fair scheduler: each of the [n] threads has a turn. *)
Definition fair (n : nat) (ts : list nat) : Prop := forall t, t ∈ ts <-> (t < n)%nat.

Definition acquires (tr : list event) : Prop := exists u, Acquire u ∈ tr.

(** Thread [t] is in [spin_lock]. *)
Definition waits (t : nat) (s : spin) : Prop :=
  spool s !! t = Some SCas \/ spool s !! t = Some SYield.

(** Thread [t] waits, and [k] turns of the threads [r] in charge, at most, until
    some thread takes the lock. *)
Inductive stage (t : nat) (s : spin) : nat -> nat -> Prop :=
  | stage_held u : spin_owned s (Some u) -> spool s !! u = Some SHeld -> waits t s -> stage t s 4 u
  | stage_store u : spin_owned s (Some u) -> spool s !! u = Some SStore -> waits t s -> stage t s 3 u
  | stage_yield : spin_owned s None -> spool s !! t = Some SYield -> stage t s 2 t
  | stage_cas : spin_owned s None -> spool s !! t = Some SCas -> stage t s 1 t.

(** ** The mutex (mutex.c) *)

(** [mutex_lock] is called for itself or by [mutex_destroy]. *)
Inductive goal := GLock | GDestroy.

Inductive pc :=
  | Out
  | Fast (g : goal)      (* the first compare-and-swap of mutex_lock *)
  | Inc (g : goal)       (* its atomic_inc *)
  | Retry (g : goal)     (* the compare-and-swap of the loop *)
  | Dec (g : goal)       (* the atomic_dec after it *)
  | Wait (g : goal)      (* the FUTEX_WAIT *)
  | Asleep (g : goal)    (* blocked in it *)
  | Held                 (* after mutex_lock *)
  | UnCas                (* the compare-and-swap of mutex_unlock *)
  | UnTest (r : Z)       (* its test, with the result *)
  | UnStore              (* state = 0 *)
  | UnWake               (* the FUTEX_WAKE *)
  | DsTest               (* the test of the loop of mutex_destroy *)
  | DsStore              (* its state = 0 *)
  | DsWake.              (* its FUTEX_WAKE *)

(** The mutex, until it is freed, and the threads. *)
Record mutex := {
  state : Z;
  count : Z;
  freed : bool;
  pool : list pc;
}.

Definition atomic_inc (v : Z) : Z := s32 (v + 1).
Definition atomic_dec (v : Z) : Z := s32 (v - 1).

(** The old value and the new one. *)
Definition atomic_exchange (word old new : Z) : Z * Z :=
  (word, if word =? old then new else word).

(** What the kernel documents of the futex system call: a wait blocks only on
    the expected value, and a wake of one picks a sleeper when there is one. *)
Class Futex (futex_wait : Z -> Z -> bool) (futex_wake : list nat -> option nat) := {
  futex_wait_value v val : futex_wait v val = true -> v = val;
  futex_wake_some ts t : futex_wake ts = Some t -> t ∈ ts;
  futex_wake_none ts : futex_wake ts = None -> ts = [];
}.

Section mutex_threads.
Context (futex_wait : Z -> Z -> bool) (futex_wake : list nat -> option nat).

(** [mutex_lock] returns to its caller. *)
Definition lock_returns (g : goal) : pc :=
  match g with GLock => Held | GDestroy => DsTest end.

(** The next access of a thread to the mutex: the state, the count, whether it
    was freed, the place it continues at, and the event.  The two wakes are not
    here: they move another thread. *)
Definition access (t : nat) (st n : Z) (p : pc) : option (Z * Z * bool * pc * option event) :=
  match p with
  | Fast g =>
      let '(r, st') := atomic_exchange st 0 1 in
      if r =? 0 then Some (st', n, false, lock_returns g, Some (Acquire t))
      else Some (st', n, false, Inc g, None)
  | Inc g => Some (st, atomic_inc n, false, Retry g, None)
  | Retry g =>
      let '(r, st') := atomic_exchange st 0 1 in
      if r =? 0 then Some (st', n, false, Dec g, Some (Acquire t))
      else Some (st', n, false, Wait g, None)
  | Dec g => Some (st, atomic_dec n, false, lock_returns g, None)
  | Wait g => Some (st, n, false, (if futex_wait st 1 then Asleep g else Retry g), None)
  | UnCas =>
      let '(r, st') := atomic_exchange st 1 0 in
      Some (st', n, false, UnTest r, Some (Release t))
  | UnTest r =>
      if negb (r =? 1) || negb (n =? 0) then Some (st, n, false, UnStore, None)
      else Some (st, n, false, Out, None)
  | UnStore => Some (0, n, false, UnWake, None)
  | DsTest =>
      if 0 <? n then Some (st, n, false, DsStore, None)
      else Some (st, n, true, Out, None)
  | DsStore => Some (0, n, false, DsWake, None)
  | Out | Asleep _ | Held | UnWake | DsWake => None
  end.

Definition asleep (p : pc) : bool := match p with Asleep _ => true | _ => false end.

(** The goal of a sleeper, awake again. *)
Definition awake (p : pc) : pc := match p with Asleep g => Retry g | p => p end.

(** The threads blocked in the futex. *)
Fixpoint sleepers_from (t : nat) (ps : list pc) : list nat :=
  match ps with
  | [] => []
  | p :: ps => if asleep p then t :: sleepers_from (S t) ps else sleepers_from (S t) ps
  end.
Definition sleepers (ps : list pc) : list nat := sleepers_from 0 ps.

(** The calls a thread can make: a lock or a destroy outside, an unlock with the
    lock. *)
Inductive call : pc -> pc -> Prop :=
  | call_lock : call Out (Fast GLock)
  | call_destroy : call Out (Fast GDestroy)
  | call_unlock : call Held UnCas.

Definition after_wake (p : pc) : option pc :=
  match p with UnWake => Some Out | DsWake => Some DsTest | _ => None end.

Definition wake_one (ps : list pc) : list pc :=
  match futex_wake (sleepers ps) with Some w => alter awake w ps | None => ps end.

Inductive mutex_step : mutex -> option event -> mutex -> Prop :=
  | step_access m t p st n fr p' l :
      freed m = false -> pool m !! t = Some p ->
      access t (state m) (count m) p = Some (st, n, fr, p', l) ->
      mutex_step m l {| state := st; count := n; freed := fr; pool := <[t := p']> (pool m) |}
  | step_call m t p p' :
      freed m = false -> pool m !! t = Some p -> call p p' ->
      mutex_step m None
        {| state := state m; count := count m; freed := false; pool := <[t := p']> (pool m) |}
  | step_wake m t p p' :
      freed m = false -> pool m !! t = Some p -> after_wake p = Some p' ->
      mutex_step m None
        {| state := state m; count := count m; freed := false;
           pool := wake_one (<[t := p']> (pool m)) |}
  | step_spurious m t g :
      freed m = false -> pool m !! t = Some (Asleep g) ->
      mutex_step m None
        {| state := state m; count := count m; freed := false; pool := <[t := Retry g]> (pool m) |}.

(** The threads between taking the state word and giving it back. *)
Definition owner (p : pc) : bool :=
  match p with Held | UnCas | Dec _ | DsTest | DsStore => true | _ => false end.

(** The slow paths, which write 0 to a state they do not own. *)
Definition slow (p : pc) : bool :=
  match p with UnStore | UnWake | DsStore | DsWake => true | _ => false end.

Definition calm (m : mutex) : Prop := cnt slow (pool m) = 0.

Definition calm_step (m : mutex) (l : option event) (m' : mutex) : Prop :=
  mutex_step m l m' /\ calm m'.

Definition mutex_owned (m : mutex) (o : option nat) : Prop :=
  freed m = true \/ (calm m /\ holds owner (pool m) (state m) o).

End mutex_threads.

(** [mutex_create], for [n] threads. *)
Definition mutex_create (n : nat) : mutex :=
  {| state := 0; count := 0; freed := false; pool := replicate n Out |}.

(** Runs the listed threads, in turn: a call (to lock outside, to unlock with the
    lock) when no access is pending, otherwise the access or the wake. *)
Definition mutex_move (futex_wait : Z -> Z -> bool) (futex_wake : list nat -> option nat)
    (t : nat) (m : mutex) : option mutex :=
  if freed m then None
  else
    p ← pool m !! t;
    match p with
    | Out | Held =>
        Some {| state := state m; count := count m; freed := false;
                pool := <[t := (match p with Held => UnCas | _ => Fast GLock end)]> (pool m) |}
    | UnWake | DsWake =>
        p' ← after_wake p;
        Some {| state := state m; count := count m; freed := false;
                pool := wake_one futex_wake (<[t := p']> (pool m)) |}
    | Asleep g =>
        Some {| state := state m; count := count m; freed := false; pool := <[t := Retry g]> (pool m) |}
    | _ =>
        '(st, n, fr, p', _) ← access futex_wait t (state m) (count m) p;
        Some {| state := st; count := n; freed := fr; pool := <[t := p']> (pool m) |}
    end.

Definition mutex_run (futex_wait : Z -> Z -> bool) (futex_wake : list nat -> option nat)
    (ts : list nat) (m : mutex) : option mutex :=
  fold_left (fun m t => m ← m; mutex_move futex_wait futex_wake t m) ts (Some m).

(** ** The spin lock keeps its promise *)

Lemma spin_simulates s o l s' :
  spin_owned s o -> spin_step s l s' -> exists o', abs_label o l = Some o' /\ spin_owned s' o'.
Proof.
  unfold spin_owned. intros Ho Hs. destruct Hs as [s t p word p' l E Ea].
  destruct p; cbn in Ea; try (injection Ea as <- <- <-; exists o;
    by split; [|eapply holds_same]).
  - unfold bool_cas in Ea. destruct (Z.eqb_spec (lock s) 0) as [E0|E0]; injection Ea as <- <- <-.
    + eexists. by eapply holds_acquire.
    + exists o. by split; [|eapply holds_same].
  - injection Ea as <- <- <-. eexists.
    by destruct (holds_release _ _ _ _ _ _ SOut Ho E) as (_ & ? & ?).
Qed.

#[export] Instance spin_machine n :
  LockMachine (fun s => s = spinlock_init n) spin_step spin_owned.
Proof. split; [|apply spin_simulates]. intros s ->. by apply holds_replicate. Qed.

(** ** The spin lock makes progress under a fair scheduler *)

Lemma spin_turn_step s t : (t < length (spool s))%nat -> spin_step s (snd (spin_turn s t)) (fst (spin_turn s t)).
Proof.
  intros Ht. destruct (lookup_lt_is_Some_2 _ _ Ht) as [p E]. unfold spin_turn. rewrite E.
  destruct (spin_access t (lock s) p) as [[word p'] l] eqn:Ea. by eapply spin_run.
Qed.

Lemma spin_turn_length s t : length (spool (fst (spin_turn s t))) = length (spool s).
Proof.
  unfold spin_turn. destruct (spool s !! t) as [p|]; [|done].
  destruct (spin_access t (lock s) p) as [[word p'] l]. cbn. apply length_insert.
Qed.

Lemma spin_execution_length n tr s :
  execution spin_step (spinlock_init n) tr s -> length (spool s) = n.
Proof.
  intros He. remember (spinlock_init n) as s0 eqn:E0. induction He as [|s0 tr s1 l s2 _ IH Hs]; subst.
  - apply length_replicate.
  - destruct Hs. cbn. rewrite length_insert. by apply IH.
Qed.

Lemma spin_turn_owned s u o :
  spin_owned s o ->
  exists o', abs_label o (snd (spin_turn s u)) = Some o' /\ spin_owned (fst (spin_turn s u)) o'.
Proof.
  intros Ho. destruct (decide (u < length (spool s))%nat) as [Hu|Hu].
  - eapply spin_simulates; [done|]. by apply spin_turn_step.
  - exists o. unfold spin_turn. by rewrite (proj2 (lookup_ge_None _ _)) by lia.
Qed.

(** The place of another thread is not changed by a turn. *)
Lemma spin_turn_other s u t : u <> t -> spool (fst (spin_turn s u)) !! t = spool s !! t.
Proof.
  intros Hn. unfold spin_turn. destruct (spool s !! u) as [p|]; [|done].
  destruct (spin_access u (lock s) p) as [[word p'] l]. cbn. by apply list_lookup_insert_ne.
Qed.

Lemma spin_turn_self s u p :
  spool s !! u = Some p ->
  spool (fst (spin_turn s u)) !! u = Some (snd (fst (spin_access u (lock s) p))) /\
  snd (spin_turn s u) = snd (spin_access u (lock s) p).
Proof.
  intros E. unfold spin_turn. rewrite E.
  destruct (spin_access u (lock s) p) as [[word p'] l]. cbn. split; [|done].
  apply list_lookup_insert_eq. by eapply lookup_lt_Some.
Qed.

Lemma spin_owned_word s o : spin_owned s o -> lock s = match o with None => 0 | Some _ => 1 end.
Proof. destruct o; intros [_ Ho]; [by destruct Ho|done]. Qed.

Lemma spin_turn_self_owned s u p o :
  spool s !! u = Some p -> spin_owned s o ->
  spool (fst (spin_turn s u)) !! u = Some (snd (fst (spin_access u (lock s) p))) /\
  snd (spin_turn s u) = snd (spin_access u (lock s) p) /\
  exists o', abs_label o (snd (spin_access u (lock s) p)) = Some o' /\
    spin_owned (fst (spin_turn s u)) o'.
Proof.
  intros E Ho. destruct (spin_turn_self s u p E) as [E' El].
  split; [done|]. split; [done|]. rewrite <- El. by apply spin_turn_owned.
Qed.

(** A turn of a thread without the lock acquires it or has no event. *)
Lemma spin_silent s u o :
  spin_owned s o -> o <> Some u -> snd (spin_turn s u) = None \/ snd (spin_turn s u) = Some (Acquire u).
Proof.
  intros Ho Hn. destruct (spin_turn_owned s u o Ho) as (o' & E & _).
  destruct (spool s !! u) as [p|] eqn:Ep; [|left; unfold spin_turn; by rewrite Ep].
  destruct (spin_turn_self s u p Ep) as [_ El]. rewrite El in *.
  destruct p; cbn in *; try by left.
  - destruct (bool_cas (lock s) 0 1) as [[] w]; cbn; [by right|by left].
  - destruct o as [v|]; cbn in E; [|done]. case_decide; [by subst|done].
Qed.

Lemma spin_turn_waits t s u :
  waits t s -> acquires (option_list (snd (spin_turn s u))) \/ waits t (fst (spin_turn s u)).
Proof.
  intros Hw. destruct (decide (u = t)) as [->|Hn].
  - unfold waits. destruct Hw as [E|E]; destruct (spin_turn_self s t _ E) as [E' El];
      rewrite E', El; cbn.
    + destruct (bool_cas (lock s) 0 1) as [[] w]; cbn; [left|by right; right].
      exists t. by apply list_elem_of_singleton.
    + by right; left.
  - right. unfold waits. by rewrite spin_turn_other.
Qed.

Lemma stage_other t s k r u :
  stage t s k r -> u <> r ->
  acquires (option_list (snd (spin_turn s u))) \/ stage t (fst (spin_turn s u)) k r.
Proof.
  intros Hs Hu.
  assert (Hsil : forall o, spin_owned s o -> o <> Some u ->
    acquires (option_list (snd (spin_turn s u))) \/ spin_owned (fst (spin_turn s u)) o).
  { intros o Ho Hn. destruct (spin_turn_owned s u o Ho) as (o' & El & Ho').
    destruct (spin_silent s u o Ho Hn) as [E|E]; rewrite E in *.
    - right. by injection El as <-.
    - left. exists u. by apply list_elem_of_singleton. }
  destruct Hs as [r Ho E Hw|r Ho E Hw|Ho E|Ho E];
    (destruct (Hsil _ Ho) as [|Ho']; [congruence|by left|]);
    try (destruct (spin_turn_waits t s u Hw) as [|Hw']; [by left|]);
    right; constructor; (done || by rewrite spin_turn_other).
Qed.

Lemma stage_self t s k r :
  stage t s k r ->
  acquires (option_list (snd (spin_turn s r))) \/
  exists k' r', (k' < k)%nat /\ stage t (fst (spin_turn s r)) k' r'.
Proof.
  intros [u Ho E Hw|u Ho E Hw|Ho E|Ho E];
    destruct (spin_turn_self_owned s _ _ _ E Ho) as (E' & El & o' & Eo & Ho');
    cbn in E', Eo.
  - destruct (spin_turn_waits t s u Hw) as [|Hw']; [by left|].
    injection Eo as <-. right. exists 3%nat, u. split; [lia|]. by constructor.
  - destruct (spin_turn_waits t s u Hw) as [|Hw']; [by left|].
    rewrite decide_True in Eo by done. injection Eo as <-. right. destruct Hw'.
    + exists 1%nat, t. split; [lia|]. by constructor.
    + exists 2%nat, t. split; [lia|]. by constructor.
  - injection Eo as <-. right. exists 1%nat, t. split; [lia|]. by constructor.
  - left. rewrite El. cbn. rewrite (spin_owned_word _ _ Ho). exists t. by apply list_elem_of_singleton.
Qed.

Lemma acquires_app tr1 tr2 : acquires (tr1 ++ tr2) <-> acquires tr1 \/ acquires tr2.
Proof.
  unfold acquires. setoid_rewrite elem_of_app. split.
  - intros (u & [H|H]); eauto.
  - intros [[u H]|[u H]]; eauto.
Qed.

Lemma spin_sched_cons s t ts :
  spin_sched s (t :: ts) =
    (fst (spin_sched (fst (spin_turn s t)) ts),
     option_list (snd (spin_turn s t)) ++ snd (spin_sched (fst (spin_turn s t)) ts)).
Proof. cbn. destruct (spin_turn s t) as [s1 l]. cbn. by destruct (spin_sched s1 ts). Qed.

Lemma spin_sched_app s ts1 ts2 :
  spin_sched s (ts1 ++ ts2) =
    (fst (spin_sched (fst (spin_sched s ts1)) ts2),
     snd (spin_sched s ts1) ++ snd (spin_sched (fst (spin_sched s ts1)) ts2)).
Proof.
  revert s. induction ts1 as [|t ts1 IH]; intros s; [cbn; by destruct (spin_sched s ts2)|].
  rewrite <- app_comm_cons, !spin_sched_cons, IH. cbn. by rewrite app_assoc.
Qed.

(** Turns do not raise the stage, and a turn of the thread in charge lowers it. *)
Lemma stage_sched t s k r ts :
  stage t s k r ->
  acquires (snd (spin_sched s ts)) \/
  exists k' r', (k' <= k)%nat /\ stage t (fst (spin_sched s ts)) k' r' /\
    (r ∈ ts -> (k' < k)%nat).
Proof.
  revert s k r. induction ts as [|u ts IH]; intros s k r Hs.
  { right. exists k, r. split; [lia|]. split; [done|]. by intros ?%elem_of_nil. }
  rewrite spin_sched_cons. cbn [fst snd]. rewrite acquires_app.
  destruct (decide (u = r)) as [->|Hu].
  - destruct (stage_self t s k r Hs) as [|(k1 & r1 & Hk & H1)]; [by left; left|].
    destruct (IH _ _ _ H1) as [|(k2 & r2 & Hk2 & H2 & _)]; [by left; right|].
    right. exists k2, r2. split; [lia|]. split; [done|]. lia.
  - destruct (stage_other t s k r u Hs Hu) as [|H1]; [by left; left|].
    destruct (IH _ _ _ H1) as [|(k2 & r2 & Hk2 & H2 & Hlt)]; [by left; right|].
    right. exists k2, r2. split; [done|]. split; [done|].
    intros [?|?]%elem_of_cons; [congruence|auto].
Qed.

Lemma stage_pool t s k r : stage t s k r -> (0 < k)%nat /\ (r < length (spool s))%nat.
Proof. intros [? ? E|? ? E|? E|? E]; (split; [lia|by eapply lookup_lt_Some]). Qed.

Lemma spin_sched_length s ts : length (spool (fst (spin_sched s ts))) = length (spool s).
Proof.
  revert s. induction ts as [|t ts IH]; intros s; [done|].
  rewrite spin_sched_cons. cbn [fst]. by rewrite IH, spin_turn_length.
Qed.

Lemma stage_rounds t s k r rounds :
  stage t s k r -> Forall (fair (length (spool s))) rounds -> (k <= length rounds)%nat ->
  acquires (snd (spin_sched s (concat rounds))).
Proof.
  revert s k r. induction rounds as [|ts rounds IH]; intros s k r Hs Hf Hk.
  { cbn in Hk. destruct (stage_pool _ _ _ _ Hs). lia. }
  apply Forall_cons in Hf as [Hts Hf]. cbn [concat length] in *.
  rewrite spin_sched_app. cbn [fst snd]. rewrite acquires_app.
  destruct (stage_sched t s k r ts Hs) as [|(k1 & r1 & _ & H1 & Hlt)]; [by left|]. right.
  eapply IH; [exact H1|by rewrite spin_sched_length|].
  assert (k1 < k)%nat by (apply Hlt, Hts; by destruct (stage_pool _ _ _ _ Hs)). lia.
Qed.

(** A thread waits in a state that some execution reaches: its stage. *)
Lemma stage_start n tr s t :
  execution spin_step (spinlock_init n) tr s -> waits t s -> exists k r, (k <= 4)%nat /\ stage t s k r.
Proof.
  intros He Hw. destruct (machine_refines (H := spin_machine n) _ _ _ _ _ _ eq_refl He) as (o & _ & Ho).
  destruct o as [u|].
  - pose proof Ho as (_ & _ & p & Ep & Hp). destruct p; try done.
    + exists 4%nat, u. split; [lia|]. by constructor.
    + exists 3%nat, u. split; [lia|]. by constructor.
  - destruct Hw as [E|E].
    + exists 1%nat, t. split; [lia|]. by constructor.
    + exists 2%nat, t. split; [lia|]. by constructor.
Qed.

Lemma spin_sched_execution s0 tr s ts :
  execution spin_step s0 tr s -> Forall (fun t => (t < length (spool s))%nat) ts ->
  execution spin_step s0 (tr ++ snd (spin_sched s ts)) (fst (spin_sched s ts)).
Proof.
  revert tr s. induction ts as [|t ts IH]; intros tr s He Hts; [by rewrite app_nil_r|].
  apply Forall_cons in Hts as [Ht Hts]. rewrite spin_sched_cons. cbn [fst snd].
  rewrite app_assoc. apply IH; [|by rewrite spin_turn_length].
  eapply exec_snoc; [exact He|by apply spin_turn_step].
Qed.

(** ** The mutex: invariants of every execution *)

Definition waiting (p : pc) : bool :=
  match p with Retry _ | Dec _ | Wait _ | Asleep _ => true | _ => false end.

(** The threads that have still to release, to wake, or to look at the state. *)
Definition active (p : pc) : bool :=
  match p with UnTest _ | UnStore | UnWake | DsWake | Retry _ | Wait _ => true | _ => owner p end.

(** The mutex while it is not freed: the state is 0 or 1, the count is the number
    of threads in the loop of [mutex_lock], a state of 1 has an owner, and a
    sleeper has some other thread to rely on. *)
Record mutex_inv (m : mutex) : Prop := {
  inv_state : state m = 0 \/ state m = 1;
  inv_count : count m = cnt waiting (pool m);
  inv_owner : state m = 1 -> 0 < cnt owner (pool m);
  inv_sleep : 0 < cnt asleep (pool m) -> 0 < cnt active (pool m);
}.

Lemma mutex_inv_create n : mutex_inv (mutex_create n).
Proof. split; cbn; rewrite ?cnt_replicate by done; lia. Qed.

Lemma s32_small x : - 2 ^ 31 <= x < 2 ^ 31 -> s32 x = x.
Proof. intros H. unfold s32. rewrite Z.mod_small; lia. Qed.

(** The change of a thread's place, in the counts. *)
Ltac pool_counts E :=
  cbn [state count freed pool];
  repeat (rewrite (cnt_insert _ _ _ _ _ E));
  pose proof (cnt_lookup asleep _ _ _ E);
  pose proof (cnt_lookup owner _ _ _ E);
  pose proof (cnt_lookup waiting _ _ _ E);
  cbn [asleep owner waiting active awake Z.b2z lock_returns] in *.

Lemma cnt_asleep_waiting ps : cnt asleep ps <= cnt waiting ps.
Proof. induction ps as [|p ps IH]; [done|]. cbn. destruct p; cbn; lia. Qed.

Lemma cnt_owner_active ps : cnt owner ps <= cnt active ps.
Proof. induction ps as [|p ps IH]; [done|]. cbn. destruct p; cbn; lia. Qed.

Lemma cnt_other {A} (f : A -> bool) ps t p :
  ps !! t = Some p -> f p = false -> cnt f ps < zlen ps.
Proof.
  revert t. induction ps as [|q ps IH]; intros [|t] E Ef; try done; simpl in E.
  - injection E as ->. pose proof (cnt_range f ps). unfold zlen in *. cbn [cnt length].
    rewrite Ef. cbn. lia.
  - specialize (IH t E Ef). unfold zlen in *. cbn [cnt length]. destruct (f q); cbn; lia.
Qed.

Section mutex_proofs.
Context `{HF : Futex futex_wait futex_wake}.

(** The threads are fewer than an int can count. *)
Definition few (m : mutex) : Prop := zlen (pool m) < 2 ^ 31.

Lemma access_inv t m p st n fr p' l :
  few m -> mutex_inv m -> pool m !! t = Some p ->
  access futex_wait t (state m) (count m) p = Some (st, n, fr, p', l) ->
  fr = false ->
  mutex_inv {| state := st; count := n; freed := fr; pool := <[t := p']> (pool m) |}.
Proof using HF.
  intros Hf [Is Ic Io Ia] E Ea ->. unfold few in Hf.
  pose proof (cnt_asleep_waiting (pool m)) as A1. pose proof (cnt_owner_active (pool m)) as A2.
  pose proof (cnt_range waiting (pool m)) as A3.
  pose proof (cnt_other waiting _ _ _ E) as A4.
  destruct p; cbn in Ea; unfold atomic_exchange, atomic_inc, atomic_dec in Ea; try discriminate;
    repeat (case_match; try discriminate); simplify_eq;
    rewrite ?Z.eqb_eq, ?Z.eqb_neq, ?orb_true_iff, ?orb_false_iff, ?negb_true_iff, ?negb_false_iff, ?Z.ltb_lt, ?Z.ltb_ge in *;
   split; pool_counts E; rewrite ?s32_small by lia; try destruct g; cbn; try lia.
  all: match goal with H : futex_wait _ _ = true |- _ => apply futex_wait_value in H; specialize (Io H) end.
  all: match type of E with _ = Some (Wait ?g) => 
    pose proof (cnt_owner_active (<[t := Asleep g]> (pool m))) as A5 end.
  all: rewrite !(cnt_insert _ _ _ _ _ E) in A5; cbn in A5; lia.
Qed.

Lemma sleepers_from_spec ps k t :
  t ∈ sleepers_from k ps <-> exists i p, ps !! i = Some p /\ asleep p = true /\ t = (k + i)%nat.
Proof.
  revert k. induction ps as [|p ps IH]; intros k; cbn.
  - rewrite elem_of_nil. split; [done|]. intros (i & p & E & _). by rewrite lookup_nil in E.
  - assert (H : t ∈ sleepers_from (S k) ps <->
      exists i q, (p :: ps) !! S i = Some q /\ asleep q = true /\ t = (k + S i)%nat).
    { rewrite IH. split; intros (i & q & ? & ? & ?); exists i, q; repeat split; try done; lia. }
    destruct (asleep p) eqn:Ea; [rewrite elem_of_cons|]; rewrite H; split.
    + intros [->|(i & q & ?)]; [exists 0%nat, p|by exists (S i), q]. repeat split; [done|lia].
    + intros ([|i] & q & E & Eq & ->); [left; lia|right; by exists i, q].
    + intros (i & q & ?). by exists (S i), q.
    + intros ([|i] & q & E & Eq & ->); [simpl in E; congruence|by exists i, q].
Qed.

Lemma sleepers_spec ps t : t ∈ sleepers ps <-> exists p, ps !! t = Some p /\ asleep p = true.
Proof.
  unfold sleepers. rewrite sleepers_from_spec. split.
  - intros (i & p & ? & ? & ->). by exists p.
  - intros (p & ? & ?). by exists t, p.
Qed.

(** A wake with no sleeper does nothing; with one, some sleeper retries. *)
Lemma wake_one_spec ps :
  (cnt asleep ps = 0 /\ wake_one futex_wake ps = ps) \/
  (exists w g, ps !! w = Some (Asleep g) /\ wake_one futex_wake ps = <[w := Retry g]> ps).
Proof using HF.
  unfold wake_one. destruct (futex_wake (sleepers ps)) as [w|] eqn:Ew.
  - right. apply futex_wake_some, sleepers_spec in Ew. destruct Ew as (p & E & Ep).
    destruct p; try discriminate. exists w, g. split; [done|].
    apply list_eq. intros i. destruct (decide (i = w)) as [->|Hn].
    + rewrite list_lookup_alter_eq, E, list_lookup_insert_eq by (by eapply lookup_lt_Some). done.
    + by rewrite list_lookup_alter_ne, list_lookup_insert_ne.
  - left. split; [|done]. apply futex_wake_none in Ew.
    pose proof (cnt_range asleep ps). destruct (decide (0 < cnt asleep ps)) as [Hp|]; [|lia].
    destruct (cnt_pos _ _ Hp) as (t & p & E & Ep).
    assert (t ∈ sleepers ps) as Hin by (apply sleepers_spec; by exists p).
    rewrite Ew in Hin. by apply elem_of_nil in Hin.
Qed.

Lemma mutex_step_inv m l m' :
  few m -> mutex_inv m -> mutex_step futex_wait futex_wake m l m' ->
  freed m' = false -> mutex_inv m'.
Proof using HF.
  intros Hf Hi Hs Hr. destruct Hs as [m t p st n fr p' l Hr0 E Ea|m t p p' Hr0 E Ec|m t p p' Hr0 E Ew|m t g Hr0 E].
  - by eapply access_inv.
  - destruct Hi as [Is Ic Io Ia]. destruct Ec; split; pool_counts E; lia.
  - destruct Hi as [Is Ic Io Ia].
    assert (Hb : waiting p = waiting p' /\ (owner p = true -> owner p' = true) /\
      asleep p = false /\ asleep p' = false) by by destruct p; simplify_eq/=.
    destruct Hb as (Hw & Ho & Hs1 & Hs2).
    pose proof (cnt_lookup owner _ _ _ E) as A1.
    destruct (wake_one_spec (<[t := p']> (pool m))) as [[E0 ->]|(w & g & E2 & ->)];
      split; cbn [state count freed pool]; try done;
      rewrite ?(cnt_insert _ _ _ _ _ E2), ?(cnt_insert _ _ _ _ _ E) in *; cbn [waiting owner active asleep Z.b2z];
      rewrite ?Hw; try lia.
    all: try (intros H1; specialize (Io H1); destruct (owner p) eqn:Eo; [rewrite Ho by done|]; destruct (owner p'); cbn in *; lia).
    rewrite Hs1, Hs2. pose proof (cnt_range active (pool m)). destruct (active p), (active p'); cbn; lia.
  - destruct Hi as [Is Ic Io Ia]. split; pool_counts E; lia.
Qed.

(** The same along an execution. *)
Lemma mutex_execution_inv n tr m :
  Z.of_nat n < 2 ^ 31 ->
  execution (mutex_step futex_wait futex_wake) (mutex_create n) tr m ->
  few m /\ (freed m = false -> mutex_inv m).
Proof using HF.
  intros Hn He. remember (mutex_create n) as m0 eqn:E0.
  induction He as [m|m tr m1 l m2 _ IH Hs]; subst.
  - split; [|intros _; apply mutex_inv_create]. unfold few, zlen. cbn. by rewrite length_replicate.
  - destruct (IH eq_refl) as [Hf Hi]. clear IH.
    assert (Hz : zlen (pool m2) = zlen (pool m1)).
    { unfold zlen. f_equal. destruct Hs; cbn; unfold wake_one;
        try destruct (futex_wake _); by rewrite ?length_alter, ?length_insert. }
    split; [unfold few in *; lia|]. intros Hr. eapply mutex_step_inv; eauto.
    apply Hi. by destruct Hs.
Qed.

(** ** The mutex when no unlock takes its slow path *)

Lemma calm_lookup m t p : calm m -> pool m !! t = Some p -> slow p = false.
Proof.
  unfold calm. intros Hc E. pose proof (cnt_lookup slow _ _ _ E).
  destruct (slow p); cbn in *; [lia|done].
Qed.

Lemma mutex_simulates m o l m' :
  mutex_owned m o -> calm_step futex_wait futex_wake m l m' -> exists o', abs_label o l = Some o' /\ mutex_owned m' o'.
Proof.
  unfold mutex_owned. intros Ho [Hs Hm'].
  destruct Ho as [Hr|[Hm Ho]]; [destruct Hs; congruence|].
  destruct Hs as [m t p st n fr p' l Hr0 E Ea|m t p p' Hr0 E Ec|m t p p' Hr0 E Ew|m t g Hr0 E];
    pose proof (calm_lookup _ _ _ Hm E) as Hsl.
  - cbn [freed pool state].
    destruct p; cbn in Ea; unfold atomic_exchange in Ea; try discriminate;
      repeat (case_match; try discriminate); simplify_eq;
      rewrite ?Z.eqb_eq, ?Z.eqb_neq in *;
      try (exists o; split; [done|]; first [by left|right; split; [done|by eapply holds_same]]).
    + destruct (holds_acquire owner _ _ o t _ (lock_returns g) Ho H E) as [? ?]; [done|by destruct g|].
      eauto 6.
    + destruct (holds_acquire owner _ _ o t _ (Dec g) Ho H E) as [? ?]; [done..|]. eauto 6.
    + exists o. split; [done|]. right. split; [done|]. eapply holds_same; [done..|]. by destruct g.
    + destruct (holds_release owner _ _ o t _ (UnTest (state m)) Ho E) as (? & ? & ?); [done..|].
      eauto 6.
    + destruct (holds_release owner _ _ o t _ (UnTest (state m)) Ho E) as (? & ? & ?); [done..|].
      by destruct (Z.eqb_neq (state m) 1); exfalso; auto.
  - exists o. split; [done|]. right. split; [done|]. destruct Ec; by eapply holds_same.
  - by destruct p.
  - exists o. split; [done|]. right. split; [done|]. by eapply holds_same.
Qed.

#[export] Instance mutex_machine n :
  LockMachine (fun m => m = mutex_create n) (calm_step futex_wait futex_wake) mutex_owned.
Proof.
  split; [|apply mutex_simulates]. intros m ->. right. split; [|by apply holds_replicate].
  unfold calm. cbn. by rewrite cnt_replicate.
Qed.

(** A run of listed moves is an execution. *)
Lemma mutex_move_step t m m' :
  mutex_move futex_wait futex_wake t m = Some m' ->
  exists l, mutex_step futex_wait futex_wake m l m'.
Proof.
  unfold mutex_move. destruct (freed m) eqn:Hr; [done|].
  destruct (pool m !! t) as [p|] eqn:E; [|done]. cbn [mbind option_bind].
  assert (Hgen : forall k, match access futex_wait t (state m) (count m) p with
      | Some (st, n, fr, p', _) =>
          Some {| state := st; count := n; freed := fr; pool := <[t := p']> (pool m) |}
      | None => None end = Some k -> exists l, mutex_step futex_wait futex_wake m l k).
  { intros k. destruct (access _ _ _ _ _) as [[[[[st n] fr] p'] l]|] eqn:Ea; [|done].
    intros [= <-]. exists l. by eapply step_access. }
  destruct p; cbn [after_wake mbind option_bind]; try (exact (Hgen m')); intros [= <-]; exists None;
    first [by eapply step_call; [..|constructor]|by eapply step_wake|by eapply step_spurious].
Qed.

Lemma mutex_run_execution ts m m' :
  mutex_run futex_wait futex_wake ts m = Some m' ->
  exists tr, execution (mutex_step futex_wait futex_wake) m tr m'.
Proof.
  unfold mutex_run. revert m'. induction ts as [|t ts IH] using rev_ind; intros m'.
  - intros [= <-]. exists []. constructor.
  - rewrite fold_left_app. cbn [fold_left].
    destruct (fold_left _ ts (Some m)) as [m1|] eqn:E1; [|done]. cbn [mbind option_bind].
    intros Hm. destruct (IH m1 eq_refl) as [tr Ht]. destruct (mutex_move_step _ _ _ Hm) as [l Hl].
    eexists. by eapply exec_snoc.
Qed.

End mutex_proofs.

(** ** Properties *)

(** The spin lock is a lock: the acquisitions and releases of every execution
    of any number of threads are those of the abstract lock, so at most one
    thread has it; the word is 1 exactly when a thread has it; and when it is 0
    the compare-and-swap of any waiting thread takes it. *)
Theorem spin_lock_correct (n : nat) (tr : list event) (s : spin) :
  execution spin_step (spinlock_init n) tr s ->
  (exists o, abs_run None tr = Some o /\ spin_owned s o) /\
  lock s = cnt spin_owner (spool s) /\ cnt spin_owner (spool s) <= 1 /\
  (forall t, lock s = 0 -> spool s !! t = Some SCas ->
     exists s', spin_step s (Some (Acquire t)) s' /\ spool s' !! t = Some SHeld).
Proof.
  intros He. destruct (machine_refines (H := spin_machine n) _ _ _ _ _ _ eq_refl He) as (o & Hr & Ho).
  split; [by exists o|]. pose proof Ho as [Hc Hw].
  split; [done|]. split; [destruct o; lia|].
  intros t H0 Et. eexists. split.
  - eapply spin_run; [exact Et|]. cbn. by rewrite H0.
  - cbn. by rewrite list_lookup_insert_eq by (by eapply lookup_lt_Some).
Qed.

Lemma spin_lock_correct_witness :
  exists s, lock s = 1 /\ cnt spin_owner (spool s) <= 1.
Proof.
  assert (He : execution spin_step (spinlock_init 2)
    ([] ++ option_list None ++ option_list (Some (Acquire 1%nat)))
    {| lock := 1; spool := [SOut; SHeld] |}).
  { rewrite app_assoc. eapply exec_snoc.
    - eapply exec_snoc; [apply exec_nil|]. by eapply (spin_run _ 1%nat).
    - by eapply (spin_run {| lock := 0; spool := [SOut; SCas] |} 1%nat). }
  exists {| lock := 1; spool := [SOut; SHeld] |}. split; [done|].
  exact (proj1 (proj2 (proj2 (spin_lock_correct 2 _ _ He)))).
Defined.

(** Two threads, of which thread 1 takes the lock again at each of its turns. *)
Definition starving : spin := {| lock := 1; spool := [SCas; SHeld] |}.

Definition starving_round : list nat := [0; 0; 1; 1; 1; 1]%nat.

Lemma starving_execution : execution spin_step (spinlock_init 2) ([] ++ [Acquire 1%nat]) starving.
Proof.
  apply (exec_snoc _ _ _ {| lock := 0; spool := [SCas; SCas] |} (Some (Acquire 1%nat)));
    [|by eapply (spin_run {| lock := 0; spool := [SCas; SCas] |} 1%nat)].
  apply (exec_snoc _ _ [] {| lock := 0; spool := [SOut; SCas] |} None);
    [|by eapply (spin_run {| lock := 0; spool := [SOut; SCas] |} 0%nat)].
  apply (exec_snoc _ _ [] (spinlock_init 2) None); [apply exec_nil|].
  by eapply (spin_run (spinlock_init 2) 1%nat).
Qed.

Lemma starving_rounds k :
  spin_sched starving (concat (replicate k starving_round)) =
    (starving, concat (replicate k [Release 1%nat; Acquire 1%nat])).
Proof.
  induction k as [|k IH]; [done|]. cbn [replicate concat]. rewrite spin_sched_app.
  change (spin_sched starving starving_round) with (starving, [Release 1%nat; Acquire 1%nat]).
  cbn [fst snd]. by rewrite IH.
Qed.

(** C36: The spin lock makes progress: from every state that an execution of any
    number of threads reaches, when some thread is in spin_lock, four rounds of
    any scheduler that gives each thread a turn in each round continue the
    execution to an acquisition, whoever has the lock (holders release at their
    turns).  The promise is to the threads together: a single thread can starve
    for any number of such rounds. *)
Theorem spin_lock_progress :
  (forall (n : nat) (tr : list event) (s : spin) (t : nat) (rounds : list (list nat)),
     execution spin_step (spinlock_init n) tr s -> waits t s ->
     Forall (fair n) rounds -> (4 <= length rounds)%nat ->
     let '(s', tr') := spin_sched s (concat rounds) in
     execution spin_step (spinlock_init n) (tr ++ tr') s' /\ acquires tr') /\
  (exists tr s, execution spin_step (spinlock_init 2) tr s /\ waits 0 s /\
     forall k, exists rounds, length rounds = k /\ Forall (fair 2) rounds /\
       Acquire 0 ∉ snd (spin_sched s (concat rounds))).
Proof.
  split.
  - intros n tr s t rounds He Hw Hf Hk. rewrite (surjective_pairing (spin_sched s (concat rounds))).
    pose proof (spin_execution_length _ _ _ He) as Hn. split.
    + apply spin_sched_execution; [done|]. rewrite Hn. apply Forall_concat.
      eapply Forall_impl; [exact Hf|]. intros ts Hts. by apply Forall_forall, Hts.
    + destruct (stage_start _ _ _ _ He Hw) as (k & r & Hk4 & Hs).
      eapply stage_rounds; [exact Hs|by rewrite Hn|lia].
  - exists ([] ++ [Acquire 1%nat]), starving. split; [apply starving_execution|].
    split; [by left|]. intros k. exists (replicate k starving_round).
    split; [apply length_replicate|]. split.
    + apply Forall_replicate. intros t. unfold starving_round. rewrite !elem_of_cons, elem_of_nil. lia.
    + rewrite starving_rounds. cbn [snd]. induction k as [|k IH]; cbn [replicate concat].
      * by intros ?%elem_of_nil.
      * rewrite elem_of_app, !elem_of_cons, elem_of_nil. by intros [[?|[?|?]]|?].
Qed.

Lemma spin_lock_progress_witness :
  acquires (snd (spin_sched starving (concat (replicate 4 [1; 0]%nat)))).
Proof.
  refine (proj2 (proj1 spin_lock_progress 2%nat _ starving 0%nat (replicate 4 [1; 0]%nat)
    starving_execution _ _ _)).
  - by left.
  - apply Forall_replicate. intros t. rewrite !elem_of_cons, elem_of_nil. lia.
  - cbn. lia.
Defined.

(** The Linux futex: a wait blocks on the value it expects, a wake takes the
    first sleeper. *)
#[export] Instance linux_futex : Futex Z.eqb head.
Proof.
  split.
  - intros v val. apply Z.eqb_eq.
  - intros [|t0 ts] t; [done|]. intros [= ->]. apply list_elem_of_here.
  - by intros [|t0 ts].
Qed.

(** C26: No wake-up is lost, in any execution of the mutex functions: as long as
    the mutex is not freed, a thread that sleeps in mutex_lock has another one to
    rely on, which has the lock, or is in an unlock that has yet to look at the
    count or to wake, or is about to look at the state again; and the count is
    the number of threads in the loop of mutex_lock. *)
Theorem mutex_no_lost_wakeup futex_wait futex_wake (n : nat) (tr : list event) (m : mutex) :
  Futex futex_wait futex_wake -> Z.of_nat n < 2 ^ 31 ->
  execution (mutex_step futex_wait futex_wake) (mutex_create n) tr m -> freed m = false ->
  (forall t g, pool m !! t = Some (Asleep g) ->
     exists u p, u <> t /\ pool m !! u = Some p /\ active p = true) /\
  count m = cnt waiting (pool m) /\ (state m = 0 \/ state m = 1) /\
  (state m = 1 -> exists u p, pool m !! u = Some p /\ owner p = true).
Proof.
  intros HF Hn He Hr. destruct (mutex_execution_inv n tr m Hn He) as [_ Hi].
  destruct (Hi Hr) as [Is Ic Io Ia]. split; [|split; [done|split; [done|]]].
  - intros t g E. pose proof (cnt_lookup asleep _ _ _ E) as H. cbn in H.
    destruct (cnt_pos active (pool m)) as (u & p & Eu & Hu); [lia|].
    exists u, p. split; [|done]. intros ->. rewrite E in Eu. by injection Eu as <-.
  - intros H1. destruct (cnt_pos owner (pool m)) as (u & p & ?); [auto|]. by exists u, p.
Qed.

(** Thread 0 has the mutex and thread 1 sleeps. *)
Lemma mutex_no_lost_wakeup_witness :
  exists m, pool m !! 1%nat = Some (Asleep GLock) /\
    exists u p, u <> 1%nat /\ pool m !! u = Some p /\ active p = true.
Proof.
  set (m := {| state := 1; count := 1; freed := false; pool := [Held; Asleep GLock] |}).
  assert (E : mutex_run Z.eqb head [0; 0; 1; 1; 1; 1; 1]%nat (mutex_create 2) = Some m)
    by reflexivity.
  destruct (mutex_run_execution _ _ _ E) as [tr He]. exists m. split; [done|].
  exact (proj1 (mutex_no_lost_wakeup _ _ 2 tr m linux_futex (ltac:(done) : Z.of_nat 2 < 2 ^ 31) He eq_refl)
    1%nat GLock eq_refl).
Defined.

(** The mutex is a lock as long as no unlock takes its slow path (and no
    destroy waits): the acquisitions and releases of every such execution are
    those of the abstract lock, at most one thread has it, and the state is 1
    exactly when one has. *)
Theorem mutex_uncontended_correct futex_wait futex_wake (n : nat) (tr : list event) (m : mutex) :
  Futex futex_wait futex_wake ->
  execution (calm_step futex_wait futex_wake) (mutex_create n) tr m ->
  (exists o, abs_run None tr = Some o) /\
  (freed m = false -> state m = cnt owner (pool m) /\ cnt owner (pool m) <= 1).
Proof.
  intros HF He.
  destruct (machine_refines (H := mutex_machine n) _ _ _ _ _ _ eq_refl He) as (o & Hr & Ho).
  split; [by exists o|]. intros Hf. destruct Ho as [Ho|[_ [Hc Ho]]]; [congruence|].
  split; [done|]. destruct o; lia.
Qed.

(** Thread 1 locks and is about to unlock. *)
Lemma mutex_uncontended_correct_witness :
  exists tr m, execution (calm_step Z.eqb head) (mutex_create 2) tr m /\
    state m = 1 /\ cnt owner (pool m) <= 1.
Proof.
  set (m1 := {| state := 0; count := 0; freed := false; pool := [Out; Fast GLock] |}).
  set (m2 := {| state := 1; count := 0; freed := false; pool := [Out; Held] |}).
  assert (S1 : mutex_step Z.eqb head (mutex_create 2) None m1).
  { exact (step_call Z.eqb head (mutex_create 2) 1%nat Out (Fast GLock) eq_refl eq_refl call_lock). }
  assert (S2 : mutex_step Z.eqb head m1 (Some (Acquire 1%nat)) m2).
  { exact (step_access Z.eqb head m1 1%nat (Fast GLock) 1 0 false Held _ eq_refl eq_refl eq_refl). }
  pose proof (exec_snoc _ _ _ _ _ _
    (exec_snoc _ _ _ _ _ _ (exec_nil (calm_step Z.eqb head) (mutex_create 2)) (conj S1 eq_refl))
    (conj S2 eq_refl)) as He.
  eexists _, _. split; [exact He|]. split; [done|].
  exact (proj2 (proj2 (mutex_uncontended_correct _ _ 2 _ _ linux_futex He) eq_refl)).
Defined.

(** C37: With two threads the mutex can be held twice: thread 0 releases the state
    with the compare-and-swap of its unlock and sees the count of thread 1, thread
    1 acquires the mutex, thread 0 writes the state to 0 and can lock again. *)
Theorem mutex_unlock_race :
  exists tr m, execution (mutex_step Z.eqb head) (mutex_create 2) tr m /\
    pool m = [Held; Held].
Proof.
  set (m := {| state := 1; count := 0; freed := false; pool := [Held; Held] |}).
  assert (E : mutex_run Z.eqb head
    ([0; 0; 1; 1; 1] ++ [0; 0; 0] ++ [1; 1] ++ [0; 0; 0; 0])%nat (mutex_create 2) = Some m)
    by by vm_compute.
  destruct (mutex_run_execution _ _ _ E) as [tr He]. exact (ex_intro _ tr (ex_intro _ m (conj He eq_refl))).
Qed.

End Locks.
