(* ===== verification/Walkfiles.v ===== *)
(** The directory walker (walkfiles.c) over a file system given by its [lstat]
    and [opendir], with the C library's matchers as parameters.  The callback is
    a function of the path and the stat; the calls are logged.  The paths are
    built in the buffer of 1024 bytes by [strconcat]. *)

From S2P Require Import Prelude Strings.
Import Strings.

Module Walkfiles.

(** ** Data *)

(** The fields of [struct stat] the walker reads. *)
Record stat := { st_mode : Z; st_dev : Z }.

Definition S_IFMT : Z := 0xf000.
Definition S_IFREG : Z := 0x8000.
Definition S_IFDIR : Z := 0x4000.
Definition S_IFLNK : Z := 0xa000.

Definition WALK_LINKS : Z := S_IFLNK.
Definition WALK_VERBOSE : Z := 1.
Definition WALK_XDEV : Z := 2.
Definition WALK_NO_SUBDIRS : Z := 4.
Definition WALK_DOTFILES : Z := 8.
Definition WALK_ONE_DIR : Z := 0x10.
Definition WALK_INCLUDE_DIRS : Z := 0x20.

(** [a & b] as a condition. *)
Definition has (a b : Z) : bool := negb (a .& b =? 0).

Section walk.
(** The regular expressions and globs of the C library, and the file system: a
    failed call has no result. *)
Context {regex : Type} (regcomp : list Z -> option regex) (regexec : regex -> list Z -> bool)
  (fnmatch : list Z -> list Z -> bool).
Context (lstat : list Z -> option stat) (opendir : list Z -> option (list (list Z))).

(** [struct filter]: a glob, or no glob and a regular expression. *)
Record filter := { pat : option (list Z); fregex : option regex }.

(** The lists are the linked lists, the last added first. *)
Record walkfile_struct := {
  file_func : option (list Z -> stat -> Z);
  ignores : list regex;
  filters : list filter;
  flags : Z;
}.

(** The global struct, and the one of the caller, if any. *)
Definition walk_state : Type := walkfile_struct * option walkfile_struct.

Definition sel (w : walk_state) : walkfile_struct :=
  match w with (_, Some walk) => walk | (global, None) => global end.
Definition put_walk (w : walk_state) (v : walkfile_struct) : walk_state :=
  match w with (global, Some _) => (global, Some v) | (_, None) => (v, None) end.

Definition set_ignores (v : walkfile_struct) (l : list regex) : walkfile_struct :=
  {| file_func := file_func v; ignores := l; filters := filters v; flags := flags v |}.
Definition set_filters (v : walkfile_struct) (l : list filter) : walkfile_struct :=
  {| file_func := file_func v; ignores := ignores v; filters := l; flags := flags v |}.

(** ** Ignores and filters *)

Definition add_ignore (w : walk_state) (str : list Z) : outcome walk_state :=
  match regcomp str with
  | None => Exit 1
  | Some re => Ret (put_walk w (set_ignores (sel w) (re :: ignores (sel w))))
  end.

Fixpoint ignore_loop (l : list regex) (path : list Z) : Z :=
  match l with
  | [] => 0
  | re :: l => if regexec re path then 1 else ignore_loop l path
  end.

Definition check_ignores (v : walkfile_struct) (path : list Z) : Z := ignore_loop (ignores v) path.

(** The search for a glob already there: the [strcmp] of a filter with no glob is
    a fault. *)
Fixpoint find_pat (l : list filter) (p : list Z) : outcome bool :=
  match l with
  | [] => Ret false
  | f :: l =>
      match pat f with
      | None => Fault
      | Some q => if decide (q = p) then Ret true else find_pat l p
      end
  end.

Definition add_filter (w : walk_state) (p : list Z) : outcome walk_state :=
  match find_pat (filters (sel w)) p with
  | Ret true => Ret w
  | Ret false => Ret (put_walk w (set_filters (sel w) ({| pat := Some p; fregex := None |} :: filters (sel w))))
  | Exit c => Exit c
  | Fault => Fault
  end.

Definition add_filter_re (w : walk_state) (str : list Z) : outcome walk_state :=
  match regcomp str with
  | None => Exit 1
  | Some re =>
      Ret (put_walk w (set_filters (sel w) ({| pat := None; fregex := Some re |} :: filters (sel w))))
  end.

Definition filter_match (f : filter) (fname : list Z) : bool :=
  match pat f with
  | Some p => fnmatch p fname
  | None => match fregex f with Some re => regexec re fname | None => false end
  end.

Fixpoint filter_loop (l : list filter) (fname : list Z) : Z :=
  match l with
  | [] => 0
  | f :: l => if filter_match f fname then 1 else filter_loop l fname
  end.

Definition check_filters (v : walkfile_struct) (fname : list Z) : Z :=
  match filters v with [] => 1 | l => filter_loop l fname end.

(** ** The walk *)

Definition PATH_SIZE : Z := 1024.

(** A call of the file function. *)
Definition visit : Type := list Z * stat.

Definition call_func (v : walkfile_struct) (path : list Z) (st : stat) : Z :=
  match file_func v with Some f => f path st | None => 0 end.

(** The string at the start of a buffer. *)
Definition cstring (m : list Z) : option (list Z) :=
  n ← strlen m 0; Some (take (Z.to_nat n) m).

(** The entries skipped for their dots. *)
Definition dot_skipped (v : walkfile_struct) (name : list Z) : bool :=
  match name with
  | 46 :: rest =>
      if has (flags v) WALK_DOTFILES then bool_decide (rest = []) || bool_decide (rest = [46])
      else true
  | _ => false
  end.

(** [match], after WALK_ONE_DIR. *)
Definition file_type (v : walkfile_struct) (st : stat) : Z :=
  let t := st_mode st .& S_IFMT in
  if has (flags v) WALK_ONE_DIR && (t =? S_IFDIR) then S_IFREG else t.

(** The body of the switch for a file that is no directory: the visits and the
    bits added to the error. *)
Definition do_file (v : walkfile_struct) (name path : list Z) (st : stat) (t : Z) : list visit * Z :=
  if (t =? S_IFREG) || (t .& flags v .& S_IFMT =? t) then
    if check_filters v name =? 0 then ([], 0) else ([(path, st)], call_func v path st)
  else ([], 0).

(** One entry: the buffer, the visits and the bits added to the error.  [rec] is
    the recursive call. *)
Definition do_entry (rec : list Z -> stat -> option (list visit * Z)) (v : walkfile_struct)
    (dname : list Z) (dbuf : stat) (buf : list Z) (name : list Z)
    : option (list Z * list visit * Z) :=
  if dot_skipped v name then Some (buf, [], 0)
  else
    '(buf, n) ← (if decide (dname = [47]) then strconcat buf 0 PATH_SIZE [[47]; name]
                 else strconcat buf 0 PATH_SIZE [dname; [47]; name]);
    if PATH_SIZE <=? n then Some (buf, [], 1)
    else
      path ← cstring buf;
      if negb (check_ignores v path =? 0) then Some (buf, [], 0)
      else
        match lstat path with
        | None => Some (buf, [], 1)
        | Some st =>
            let t := file_type v st in
            if t =? S_IFDIR then
              if has (flags v) WALK_NO_SUBDIRS then Some (buf, [], 0)
              else if has (flags v) WALK_XDEV && negb (st_dev dbuf =? st_dev st) then Some (buf, [], 0)
              else
                let '(here, e) :=
                  if has (flags v) WALK_INCLUDE_DIRS then ([(path, st)], call_func v path st)
                  else ([], 0) in
                '(below, e') ← rec path st;
                Some (buf, here ++ below, e .| e')
            else
              let '(here, e) := do_file v name path st t in
              Some (buf, here, e)
        end.

(** The loop over the entries. *)
Fixpoint do_entries (rec : list Z -> stat -> option (list visit * Z)) (v : walkfile_struct)
    (dname : list Z) (dbuf : stat) (buf : list Z) (ents : list (list Z)) (error : Z)
    : option (list visit * Z) :=
  match ents with
  | [] => Some ([], error)
  | name :: ents =>
      '(buf, here, e) ← do_entry rec v dname dbuf buf name;
      '(rest, error) ← do_entries rec v dname dbuf buf ents (error .| e);
      Some (here ++ rest, error)
  end.

(** [buf] is what the stack holds where the buffer is; [fuel] bounds the depth of
    the recursion. *)
Fixpoint do_dir (buf : list Z) (fuel : nat) (v : walkfile_struct) (dname : list Z) (dbuf : stat)
    : option (list visit * Z) :=
  match fuel with
  | O => None
  | S fuel =>
      match opendir dname with
      | None => Some ([], 1)
      | Some ents => do_entries (do_dir buf fuel v) v dname dbuf buf ents 0
      end
  end.

Definition out_files (path : list Z) (st : stat) : Z := 0.

(** The struct with the file function and the flags of a call. *)
Definition settings (v : walkfile_struct) (func : option (list Z -> stat -> Z)) (fl : Z)
    : walkfile_struct := {|
  file_func :=
    match func, file_func v with
    | Some f, _ => Some f
    | None, Some f => Some f
    | None, None => Some out_files
    end;
  ignores := ignores v;
  filters := filters v;
  flags := flags v .| fl
|}.

(** [walkfiles]: the state afterwards, the visits and the result. *)
Definition walkfiles (buf : list Z) (fuel : nat) (w : walk_state) (path : list Z)
    (func : option (list Z -> stat -> Z)) (fl : Z) : option (walk_state * list visit * Z) :=
  match lstat path with
  | None => Some (w, [], -1)
  | Some st =>
      let v := settings (sel w) func fl in
      let w := put_walk w v in
      if st_mode st .& S_IFMT =? S_IFDIR then
        '(visits, e) ← do_dir buf fuel v path st; Some (w, visits, e)
      else Some (w, [(path, st)], call_func v path st)
  end.

(** ** What a walk should do *)

Definition join (dname name : list Z) : list Z :=
  if decide (dname = [47]) then 47 :: name else dname ++ 47 :: name.

(** An entry of the directory that is looked at. *)
Definition listed (v : walkfile_struct) (dname name : list Z) : Prop :=
  exists ents, opendir dname = Some ents /\ name ∈ ents /\ dot_skipped v name = false.

Definition ignored (v : walkfile_struct) (path : list Z) : Prop :=
  exists re, re ∈ ignores v /\ regexec re path = true.

Definition passes (v : walkfile_struct) (name : list Z) : Prop :=
  filters v = [] \/ exists f, f ∈ filters v /\ filter_match f name = true.

(** An entry that is not ignored. *)
Definition entry (v : walkfile_struct) (dname name path : list Z) : Prop :=
  listed v dname name /\ path = join dname name /\ ~ ignored v path.

Definition descends (v : walkfile_struct) (dbuf st : stat) : Prop :=
  file_type v st = S_IFDIR /\ has (flags v) WALK_NO_SUBDIRS = false /\
  (has (flags v) WALK_XDEV = true -> st_dev dbuf = st_dev st).

Definition wanted (v : walkfile_struct) (name : list Z) (st : stat) : Prop :=
  let t := file_type v st in
  t <> S_IFDIR /\ (t = S_IFREG \/ t .& flags v .& S_IFMT = t) /\ passes v name.

(** The files a walk of a directory reports. *)
Inductive found (v : walkfile_struct) : list Z -> stat -> list Z -> stat -> Prop :=
  | found_file dname dbuf name path st :
      entry v dname name path -> lstat path = Some st -> wanted v name st ->
      found v dname dbuf path st
  | found_dir dname dbuf name path st :
      entry v dname name path -> lstat path = Some st -> descends v dbuf st ->
      has (flags v) WALK_INCLUDE_DIRS = true ->
      found v dname dbuf path st
  | found_below dname dbuf name path st q sq :
      entry v dname name path -> lstat path = Some st -> descends v dbuf st ->
      found v path st q sq ->
      found v dname dbuf q sq.

(** A directory that cannot be opened or a file without a stat, on the way. *)
Inductive failed (v : walkfile_struct) : list Z -> stat -> Prop :=
  | failed_open dname dbuf : opendir dname = None -> failed v dname dbuf
  | failed_stat dname dbuf name path :
      entry v dname name path -> lstat path = None -> failed v dname dbuf
  | failed_below dname dbuf name path st :
      entry v dname name path -> lstat path = Some st -> descends v dbuf st ->
      failed v path st -> failed v dname dbuf.

(** The paths fit in the buffer and the directories are at most [n] deep. *)
Fixpoint shallow (v : walkfile_struct) (n : nat) (dname : list Z) (dbuf : stat) : Prop :=
  match n with
  | O => False
  | S n =>
      (forall name, listed v dname name ->
         Forall (fun c => c <> 0) (join dname name) /\ zlen (join dname name) < PATH_SIZE) /\
      (forall name path st, entry v dname name path -> lstat path = Some st ->
         descends v dbuf st -> shallow v n path st)
  end.

Lemma shallow_mono v n m dname dbuf :
  (n <= m)%nat -> shallow v n dname dbuf -> shallow v m dname dbuf.
Proof.
  revert m dname dbuf. induction n as [|n IH]; intros [|m] dname dbuf Hm; [done|done|lia|].
  intros [H1 H2]. split; [done|]. intros. apply IH; [lia|]. eapply H2; eauto.
Qed.

(** ** Correctness of the walk *)

Lemma check_ignores_spec v path : check_ignores v path = 0 <-> ~ ignored v path.
Proof.
  unfold check_ignores, ignored. induction (ignores v) as [|re l IH]; cbn.
  - split; [|done]. intros _ (re & Hin & _). by apply elem_of_nil in Hin.
  - destruct (regexec re path) eqn:E.
    + split; [done|]. intros H. exfalso. apply H. exists re. split; [left|done].
    + rewrite IH. split; intros H (r & Hin & Hr); apply H.
      * apply elem_of_cons in Hin as [->|Hin]; [congruence|by exists r].
      * exists r. split; [by right|done].
Qed.

Lemma check_filters_spec v name : check_filters v name <> 0 <-> passes v name.
Proof.
  unfold check_filters, passes. destruct (filters v) as [|f l]; [by split; [left|]|].
  transitivity (exists g, g ∈ f :: l /\ filter_match g name = true).
  - induction (f :: l) as [|g k IH]; cbn.
    + split; [done|]. intros (g & Hin & _). by apply elem_of_nil in Hin.
    + destruct (filter_match g name) eqn:E.
      * split; [|done]. intros _. exists g. split; [left|done].
      * rewrite IH. split; intros (h & Hin & Hh); exists h; (split; [|done]); [by right|].
        apply elem_of_cons in Hin as [->|]; [congruence|done].
  - split; [by right|]. by intros [|].
Qed.

Lemma cstring_splice buf p :
  Forall (fun c => c <> 0) p -> zlen p < zlen buf -> cstring (splice buf 0 (p ++ [0])) = Some p.
Proof.
  intros Hn Hl. pose proof (cstr_at_splice buf 0 p ltac:(lia) Hn ltac:(lia)) as C.
  unfold cstring. rewrite (strlen_cstr _ _ _ C). cbn [mbind option_bind]. f_equal.
  destruct C as (_ & _ & C). rewrite drop_0 in C. apply (f_equal (take (length p))) in C.
  rewrite take_take, take_app_length in C. unfold zlen. rewrite Nat2Z.id.
  by replace (length p `min` (length p + 1))%nat with (length p) in C by lia.
Qed.

(** The path of an entry that fits is built in full. *)
Lemma path_built buf dname name :
  zlen buf = PATH_SIZE -> Forall (fun c => c <> 0) (join dname name) ->
  zlen (join dname name) < PATH_SIZE ->
  exists buf', (if decide (dname = [47]) then strconcat buf 0 PATH_SIZE [[47]; name]
     else strconcat buf 0 PATH_SIZE [dname; [47]; name]) = Some (buf', zlen (join dname name)) /\
    cstring buf' = Some (join dname name) /\ zlen buf' = PATH_SIZE.
Proof.
  intros Hb Hn Hl.
  assert (E : (if decide (dname = [47]) then strconcat buf 0 PATH_SIZE [[47]; name]
     else strconcat buf 0 PATH_SIZE [dname; [47]; name])
    = Some (splice buf 0 (join dname name ++ [0]), zlen (join dname name))).
  { unfold join in *. destruct (decide (dname = [47])).
    - rewrite strconcat_spec by (done || (cbn [concat app] in *; rewrite ?app_nil_r; unfold PATH_SIZE in *; lia)).
      cbn [concat app] in *. rewrite app_nil_r in *. by rewrite fit_all.
    - rewrite strconcat_spec by (done || (cbn [concat app] in *; rewrite ?app_nil_r; unfold PATH_SIZE in *; lia)).
      cbn [concat app] in *. rewrite app_nil_r in *. by rewrite fit_all. }
  assert (Hz : zlen (join dname name ++ [0]) <= PATH_SIZE).
  { unfold zlen in *. rewrite length_app. cbn [length]. lia. }
  eexists. split; [exact E|]. split; [|rewrite zlen_splice; lia].
  apply cstring_splice; [done|lia].
Qed.

(** What one entry contributes to a walk. *)
Definition found_via (v : walkfile_struct) (dname : list Z) (dbuf : stat) (name q : list Z) (sq : stat) : Prop :=
  dot_skipped v name = false /\ ~ ignored v (join dname name) /\
  exists st, lstat (join dname name) = Some st /\
    ((wanted v name st \/ (descends v dbuf st /\ has (flags v) WALK_INCLUDE_DIRS = true)) /\
       q = join dname name /\ sq = st \/
     descends v dbuf st /\ found v (join dname name) st q sq).

Definition failed_via (v : walkfile_struct) (dname : list Z) (dbuf : stat) (name : list Z) : Prop :=
  dot_skipped v name = false /\ ~ ignored v (join dname name) /\
  (lstat (join dname name) = None \/
   exists st, lstat (join dname name) = Some st /\ descends v dbuf st /\ failed v (join dname name) st).

Lemma found_entries v dname dbuf ents q sq :
  opendir dname = Some ents ->
  found v dname dbuf q sq <-> exists name, name ∈ ents /\ found_via v dname dbuf name q sq.
Proof.
  intros Eo. split.
  - intros H.
    assert (Hn : exists name, listed v dname name /\ found_via v dname dbuf name q sq).
    { destruct H as [dname dbuf name path st (L & -> & I) E W|dname dbuf name path st (L & -> & I) E D W
        |dname dbuf name path st q sq (L & -> & I) E D F]; exists name; (split; [done|]);
        destruct L as (? & _ & _ & L); split; try done; split; try done; exists st; eauto 12. }
    destruct Hn as (name & (ents' & E & Hin & _) & Hv). rewrite Eo in E. injection E as <-. by exists name.
  - intros (name & Hin & Hd & Hi & st & E & [([W|[D W]] & -> & ->)|[D F]]);
      assert (He : entry v dname name (join dname name)) by (split; [by exists ents|done]).
    + by eapply found_file.
    + by eapply found_dir.
    + by eapply found_below.
Qed.

Lemma failed_entries v dname dbuf ents :
  opendir dname = Some ents ->
  failed v dname dbuf <-> exists name, name ∈ ents /\ failed_via v dname dbuf name.
Proof.
  intros Eo. split.
  - intros H. destruct H as [dname dbuf E|dname dbuf name path (L & -> & I) E
      |dname dbuf name path st (L & -> & I) E D F]; [congruence|..];
      destruct L as (ents' & E' & Hin & Hd); rewrite Eo in E'; injection E' as <-; exists name;
      (split; [done|]); split; try done; split; try done; eauto 6.
  - intros (name & Hin & Hd & Hi & H).
    assert (He : entry v dname name (join dname name)) by (split; [by exists ents|done]).
    destruct H as [E|(st & E & D & F)]; [by eapply failed_stat|by eapply failed_below].
Qed.

(** The contract of a walk, or of a part of one: the visits are the files found,
    and the error is 0 when nothing failed and the file function returned 0. *)
Definition reports (v : walkfile_struct) (F : list Z -> stat -> Prop) (bad : Prop) (log : list visit) (e : Z) : Prop :=
  (forall q sq, (q, sq) ∈ log <-> F q sq) /\
  (e = 0 <-> ~ bad /\ forall q sq, F q sq -> call_func v q sq = 0).

Lemma descends_dec v dbuf st : file_type v st = S_IFDIR ->
  (if has (flags v) WALK_NO_SUBDIRS then false
   else negb (has (flags v) WALK_XDEV && negb (st_dev dbuf =? st_dev st))) = true <-> descends v dbuf st.
Proof.
  intros Et. unfold descends. destruct (has (flags v) WALK_NO_SUBDIRS); [by split; [|intros (_ & ? & _)]|].
  destruct (has (flags v) WALK_XDEV); destruct (Z.eqb_spec (st_dev dbuf) (st_dev st)) as [E|E];
    cbn; split; try done; intros (_ & _ & H); by specialize (H eq_refl).
Qed.

Lemma reports_nil v F (bad : Prop) : ~ bad -> (forall q sq, ~ F q sq) -> reports v F bad [] 0.
Proof.
  intros Hb HF. split.
  - intros q sq. rewrite elem_of_nil. split; [done|]. apply HF.
  - split; [|done]. intros _. split; [done|]. intros q sq H. by destruct (HF q sq).
Qed.

Lemma do_file_reports v name path st :
  file_type v st <> S_IFDIR ->
  reports v (fun q sq => wanted v name st /\ q = path /\ sq = st) False
    (do_file v name path st (file_type v st)).1 (do_file v name path st (file_type v st)).2.
Proof.
  intros Hd. unfold do_file.
  destruct ((file_type v st =? S_IFREG) || (file_type v st .& flags v .& S_IFMT =? file_type v st)) eqn:Et.
  - rewrite orb_true_iff, !Z.eqb_eq in Et. destruct (Z.eqb_spec (check_filters v name) 0) as [E|E].
    + apply reports_nil; [by intros []|]. intros q sq [(_ & _ & W) _]. by apply check_filters_spec in W.
    + apply check_filters_spec in E. split; cbn.
      * intros q sq. rewrite list_elem_of_singleton. split; [by intros [= -> ->]|].
        by intros (_ & -> & ->).
      * split; [|intros [_ H]; by apply H]. intros H. split; [by intros []|]. by intros q sq (_ & -> & ->).
  - rewrite orb_false_iff, !Z.eqb_neq in Et. apply reports_nil; [by intros []|].
    intros q sq [(_ & [W|W] & _) _]; by destruct Et.
Qed.

Lemma reports_iff v (F F' : list Z -> stat -> Prop) bad bad' log e :
  (forall q sq, F q sq <-> F' q sq) -> (bad <-> bad') -> reports v F bad log e -> reports v F' bad' log e.
Proof.
  intros HF Hbad [H1 H2]. split; [intros q sq; by rewrite H1|].
  rewrite H2, Hbad. split; intros [? H]; (split; [done|]); intros q sq Hq; apply H; by apply HF.
Qed.

(** An entry that is looked at. *)
Section entry_stat.
Context (v : walkfile_struct) (dname : list Z) (dbuf : stat) (name : list Z) (st : stat).
Context (Hdot : dot_skipped v name = false) (Hi : ~ ignored v (join dname name)) (El : lstat (join dname name) = Some st).

Lemma stat_found q sq :
  ((wanted v name st \/ (descends v dbuf st /\ has (flags v) WALK_INCLUDE_DIRS = true)) /\ q = join dname name /\ sq = st \/
   descends v dbuf st /\ found v (join dname name) st q sq) <-> found_via v dname dbuf name q sq.
Proof.
  split.
  - intros H. split; [done|]. split; [done|]. by exists st.
  - intros (_ & _ & st' & E & H). rewrite El in E. by injection E as <-.
Qed.

Lemma stat_failed : descends v dbuf st /\ failed v (join dname name) st <-> failed_via v dname dbuf name.
Proof.
  split.
  - intros [D F]. split; [done|]. split; [done|]. right. by exists st.
  - intros (_ & _ & [?|(st' & E & D & F)]); [congruence|]. rewrite El in E. by injection E as <-.
Qed.

(** A directory that is not gone into. *)
Lemma skip_reports : file_type v st = S_IFDIR -> ~ descends v dbuf st ->
  reports v (found_via v dname dbuf name) (failed_via v dname dbuf name) [] 0.
Proof.
  intros Et Hnd. apply reports_nil.
  - rewrite <- stat_failed. by intros [? _].
  - intros q sq. rewrite <- stat_found. intros [([[? _]|[? _]] & _)|[? _]]; done.
Qed.

Lemma file_reports : file_type v st <> S_IFDIR -> let r := do_file v name (join dname name) st (file_type v st) in
  reports v (found_via v dname dbuf name) (failed_via v dname dbuf name) r.1 r.2.
Proof.
  intros Et r. eapply reports_iff; [| |exact (do_file_reports v name (join dname name) st Et)].
  - intros q sq. rewrite <- stat_found. split; [intros (? & ? & ?); left; eauto|].
    intros [([?|[[? _] _]] & ? & ?)|[[? _] _]]; done.
  - rewrite <- stat_failed. split; [done|]. by intros [[? _] _].
Qed.

(** A directory that is gone into: its own call, and what is reported below it. *)
Lemma dir_reports log e : file_type v st = S_IFDIR -> descends v dbuf st ->
  reports v (found v (join dname name) st) (failed v (join dname name) st) log e ->
  let here := if has (flags v) WALK_INCLUDE_DIRS then ([(join dname name, st)], call_func v (join dname name) st) else ([], 0) in
  reports v (found_via v dname dbuf name) (failed_via v dname dbuf name) (here.1 ++ log) (here.2 .| e).
Proof.
  intros Et Hd [R1 R2]. eapply reports_iff; [exact stat_found|exact stat_failed|].
  destruct (has (flags v) WALK_INCLUDE_DIRS) eqn:Hinc; cbn [fst snd app]; (split; [|rewrite Z.lor_eq_0_iff, R2]).
  - intros q sq. rewrite elem_of_cons, R1. split.
    + intros [[= -> ->]|]; [left; auto|by right].
    + intros [(_ & -> & ->)|[_ ?]]; [by left|by right].
  - split.
    + intros (E & Hnb & Hff). split; [by intros [_ ?]|]. intros q sq [(_ & -> & ->)|[_ ?]]; auto.
    + intros [Hnb H]. split; [apply H; left; auto|]. split; [|intros; apply H; by right]. intros Hx. by apply Hnb.
  - intros q sq. rewrite R1. split; [by right|]. intros [([[? _]|[_ ?]] & _)|[_ ?]]; done.
  - split.
    + intros (_ & Hnb & Hff). split; [by intros [_ ?]|]. intros q sq [([[? _]|[_ ?]] & _)|[_ ?]]; try done. auto.
    + intros [Hnb H]. split; [done|]. split; [|intros; apply H; by right]. intros Hx. by apply Hnb.
Qed.
End entry_stat.

Lemma do_entry_reports rec v dname dbuf buf name :
  zlen buf = PATH_SIZE ->
  (dot_skipped v name = false -> Forall (fun c => c <> 0) (join dname name) /\
     zlen (join dname name) < PATH_SIZE) ->
  (forall st, dot_skipped v name = false -> ~ ignored v (join dname name) ->
     lstat (join dname name) = Some st -> descends v dbuf st ->
     exists log e, rec (join dname name) st = Some (log, e) /\
       reports v (found v (join dname name) st) (failed v (join dname name) st) log e) ->
  exists buf' log e, do_entry rec v dname dbuf buf name = Some (buf', log, e) /\
    zlen buf' = PATH_SIZE /\
    reports v (found_via v dname dbuf name) (failed_via v dname dbuf name) log e.
Proof.
  intros Hb Hfit Hrec. unfold do_entry.
  destruct (dot_skipped v name) eqn:Hdot.
  { exists buf, [], 0. split; [done|]. split; [done|].
    apply reports_nil; [intros (? & _); congruence|]. intros q sq (? & _). congruence. }
  destruct (Hfit eq_refl) as [Hn Hl].
  destruct (path_built buf dname name Hb Hn Hl) as (buf' & -> & Hc & Hb'). cbn [mbind option_bind].
  rewrite (proj2 (Z.leb_gt _ _)) by done. rewrite Hc. cbn [mbind option_bind].
  destruct (Z.eqb_spec (check_ignores v (join dname name)) 0) as [Ei|Ei]; cbn [negb].
  2: { exists buf', [], 0. split; [done|]. split; [done|].
       assert (H : ~ ~ ignored v (join dname name)) by (by rewrite <- check_ignores_spec).
       apply reports_nil; [by intros (_ & ? & _)|by intros q sq (_ & ? & _)]. }
  apply check_ignores_spec in Ei. specialize (Hrec) with (2 := Ei).
  destruct (lstat (join dname name)) as [st|] eqn:El.
  2: { exists buf', [], 1. split; [done|]. split; [done|]. split.
       - intros q sq. rewrite elem_of_nil. split; [done|].
         intros (_ & _ & st & ? & _). congruence.
       - split; [done|]. intros [H _]. destruct H. split; [done|]. split; [done|]. by left. }
  specialize (Hrec st eq_refl eq_refl). cbv zeta. destruct (Z.eqb_spec (file_type v st) S_IFDIR) as [Et|Et].
  2: { pose proof (file_reports v dname dbuf name st Hdot Ei El Et) as R.
       destruct (do_file v name (join dname name) st (file_type v st)) as [here e]. by exists buf', here, e. }
  pose proof (descends_dec v dbuf st Et) as D. pose proof (skip_reports v dname dbuf name st Hdot Ei El Et) as Hskip.
  destruct (has (flags v) WALK_NO_SUBDIRS).
  { exists buf', [], 0. split; [done|]. split; [done|]. apply Hskip. by rewrite <- D. }
  destruct (has (flags v) WALK_XDEV && negb (st_dev dbuf =? st_dev st)).
  { exists buf', [], 0. split; [done|]. split; [done|]. apply Hskip. by rewrite <- D. }
  assert (Hd : descends v dbuf st) by by apply D. destruct (Hrec Hd) as (log & e & E & R).
  pose proof (dir_reports v dname dbuf name st Hdot Ei El log e Et Hd R) as Hdir.
  destruct (if has (flags v) WALK_INCLUDE_DIRS then _ else _) as [here e0]. rewrite E. cbn [mbind option_bind]. by exists buf', (here ++ log), (e0 .| e).
Qed.

Lemma do_entries_reports rec v dname dbuf ents buf error :
  zlen buf = PATH_SIZE ->
  (forall name, name ∈ ents -> dot_skipped v name = false ->
     Forall (fun c => c <> 0) (join dname name) /\ zlen (join dname name) < PATH_SIZE) ->
  (forall name st, name ∈ ents -> dot_skipped v name = false -> ~ ignored v (join dname name) ->
     lstat (join dname name) = Some st -> descends v dbuf st ->
     exists log e, rec (join dname name) st = Some (log, e) /\
       reports v (found v (join dname name) st) (failed v (join dname name) st) log e) ->
  exists log e, do_entries rec v dname dbuf buf ents error = Some (log, error .| e) /\
    reports v (fun q sq => exists name, name ∈ ents /\ found_via v dname dbuf name q sq)
      (exists name, name ∈ ents /\ failed_via v dname dbuf name) log e.
Proof.
  revert buf error. induction ents as [|name ents IH]; intros buf error Hb Hfit Hrec.
  - exists [], 0. rewrite Z.lor_0_r. split; [done|].
    apply reports_nil; [|intros q sq]; intros (n & Hin & _); by apply elem_of_nil in Hin.
  - cbn [do_entries].
    destruct (do_entry_reports rec v dname dbuf buf name Hb) as (buf' & here & e1 & -> & Hb' & R1 & R2).
    { apply Hfit. left. }
    { intros st. apply Hrec. left. }
    cbn [mbind option_bind].
    destruct (IH buf' (error .| e1) Hb') as (rest & e2 & -> & R3 & R4).
    { intros n Hn. apply Hfit. by right. }
    { intros n st Hn. apply Hrec. by right. }
    cbn [mbind option_bind]. exists (here ++ rest), (e1 .| e2). rewrite Z.lor_assoc. split; [done|].
    split.
    + intros q sq. rewrite elem_of_app, R1, R3. split.
      * intros [H|(n & Hn & H)]; [exists name; split; [left|done]|exists n; split; [by right|done]].
      * intros (n & Hn & H). apply elem_of_cons in Hn as [->|Hn]; [by left|right; by exists n].
    + rewrite Z.lor_eq_0_iff, R2, R4. split.
      * intros [[H1 H2] [H3 H4]]. split.
        -- intros (n & Hn & H). apply elem_of_cons in Hn as [->|Hn]; [done|]. apply H3. by exists n.
        -- intros q sq (n & Hn & H). apply elem_of_cons in Hn as [->|Hn]; [auto|]. apply H4. by exists n.
      * intros [H1 H2]. split; split.
        -- intros H. apply H1. exists name. split; [left|done].
        -- intros q sq H. apply H2. exists name. split; [left|done].
        -- intros (n & Hn & H). apply H1. exists n. split; [by right|done].
        -- intros q sq (n & Hn & H). apply H2. exists n. split; [by right|done].
Qed.

Lemma do_dir_reports buf v n dname dbuf :
  zlen buf = PATH_SIZE -> shallow v n dname dbuf ->
  exists log e, do_dir buf n v dname dbuf = Some (log, e) /\
    reports v (found v dname dbuf) (failed v dname dbuf) log e.
Proof.
  intros Hb. revert dname dbuf. induction n as [|n IH]; intros dname dbuf; [done|].
  intros [Hfit Hdeep]. cbn [do_dir]. destruct (opendir dname) as [ents|] eqn:Eo.
  2: { exists [], 1. split; [done|]. split.
       - intros q sq. rewrite elem_of_nil. split; [done|]. intros H.
         assert (exists name, listed v dname name) as (? & ? & ? & _); [|congruence].
         destruct H as [? ? ? ? ? [? _]|? ? ? ? ? [? _]|? ? ? ? ? ? ? [? _]]; eauto.
       - split; [done|]. intros [H _]. by destruct H; constructor. }
  destruct (do_entries_reports (do_dir buf n v) v dname dbuf ents buf 0 Hb) as (log & e & E & R1 & R2).
  { intros name Hn Hd. apply Hfit. by exists ents. }
  { intros name st Hn Hd Hi El D. apply IH. eapply Hdeep; [|exact El|exact D].
    split; [by exists ents|done]. }
  exists log, e. rewrite E, Z.lor_0_l. split; [done|]. split.
  - intros q sq. rewrite R1. by rewrite found_entries.
  - rewrite R2, failed_entries by done. split; intros [H1 H2]; (split; [done|]); intros q sq H;
      apply H2; [by rewrite <- found_entries|by rewrite found_entries].
Qed.

(** A path that does not fit is cut, and the test for it never holds. *)
Lemma path_cut buf dname name :
  zlen buf = PATH_SIZE -> Forall (fun c => c <> 0) dname -> zlen dname = PATH_SIZE - 1 ->
  exists buf', (if decide (dname = [47]) then strconcat buf 0 PATH_SIZE [[47]; name]
     else strconcat buf 0 PATH_SIZE [dname; [47]; name]) = Some (buf', PATH_SIZE - 1) /\
    cstring buf' = Some dname /\ zlen buf' = PATH_SIZE.
Proof.
  intros Hb Hn Hl. rewrite decide_False by by intros ->.
  assert (Hc : zlen (concat [dname; [47]]) = PATH_SIZE)
    by (cbn [concat app]; rewrite zlen_app, Hl; change (zlen [47]) with 1; lia).
  change [dname; [47]; name] with ([dname; [47]] ++ [name]).
  rewrite strconcat_full by (done || (rewrite ?Hc; unfold PATH_SIZE in *; lia)).
  rewrite strconcat_spec by (done || (rewrite ?Hc; unfold PATH_SIZE in *; lia)). cbn [concat].
  assert (Ef : fit (dname ++ [47] ++ []) PATH_SIZE = dname).
  { rewrite fit_app by lia. rewrite Hl. unfold fit. change (Z.to_nat _) with 0%nat. apply app_nil_r. }
  rewrite Ef, Hl. eexists. split; [done|].
  assert (Hz : zlen (dname ++ [0]) = PATH_SIZE).
  { unfold zlen in *. rewrite length_app. cbn [length]. lia. }
  split; [|rewrite zlen_splice; lia]. apply cstring_splice; [done|lia].
Qed.

Lemma do_entries_cut rec v dname dbuf st ents buf error :
  zlen buf = PATH_SIZE -> Forall (fun c => c <> 0) dname -> zlen dname = PATH_SIZE - 1 ->
  ~ ignored v dname -> lstat dname = Some st -> descends v dbuf st -> rec dname st = None ->
  (exists name, name ∈ ents /\ dot_skipped v name = false) ->
  do_entries rec v dname dbuf buf ents error = None.
Proof.
  intros Hb Hn Hl Hi Hs Hd Hr. induction ents as [|name ents IH]; intros (x & Hx & Hdot).
  - by apply elem_of_nil in Hx.
  - cbn [do_entries]. unfold do_entry. destruct (dot_skipped v name) eqn:E.
    + cbn [mbind option_bind]. rewrite Z.lor_0_r. rewrite IH; [done|].
      apply elem_of_cons in Hx as [->|Hx]; [congruence|by exists x].
    + destruct (path_cut buf dname name Hb Hn Hl) as (buf' & -> & Hc & _).
      cbn [mbind option_bind]. change (PATH_SIZE <=? PATH_SIZE - 1) with false. cbv iota.
      rewrite Hc. cbn [mbind option_bind].
      rewrite (proj2 (Z.eqb_eq _ _) (proj2 (check_ignores_spec v dname) Hi)). cbn [negb].
      rewrite Hs. cbv zeta. pose proof (proj2 (descends_dec v dbuf st (proj1 Hd)) Hd) as D.
      rewrite (proj2 (Z.eqb_eq _ _) (proj1 Hd)).
      destruct (has (flags v) WALK_NO_SUBDIRS); [done|].
      destruct (has (flags v) WALK_XDEV && _); [done|].
      destruct (has (flags v) WALK_INCLUDE_DIRS); by rewrite Hr.
Qed.

Lemma find_pat_spec l p :
  Forall (fun f => is_Some (pat f)) l ->
  exists b, find_pat l p = Ret b /\ (b = true <-> exists f, f ∈ l /\ pat f = Some p).
Proof.
  induction 1 as [|f l [q Hq] _ (b & E & Hb)]; cbn.
  - exists false. split; [done|]. split; [done|]. intros (f & Hin & _). by apply elem_of_nil in Hin.
  - rewrite Hq. destruct (decide (q = p)) as [->|Hn].
    + exists true. split; [done|]. split; [|done]. intros _. exists f. split; [left|done].
    + exists b. split; [done|]. rewrite Hb. split; intros (g & Hin & Hg); exists g; (split; [|done]).
      * by right.
      * apply elem_of_cons in Hin as [->|]; [congruence|done].
Qed.

Lemma sel_put_walk w v : sel (put_walk w v) = v.
Proof. by destruct w as [g [u|]]. Qed.

(** Adding a filter in front. *)
Lemma passes_cons v f name :
  (filters v <> [] /\ passes v name \/ filter_match f name = true) <->
  passes (set_filters v (f :: filters v)) name.
Proof.
  unfold passes. cbn. split.
  - intros [[Hn [H|(g & Hin & Hg)]]|H]; [done|right; exists g; split; [by right|done]|].
    right. exists f. split; [left|done].
  - intros [|(g & Hin & Hg)]; [done|]. apply elem_of_cons in Hin as [->|Hin]; [by right|].
    left. split; [|right; by exists g]. intros E. rewrite E in Hin. by apply elem_of_nil in Hin.
Qed.

(** ** Properties *)

(** C24: Walking a path: a path without a stat gives -1; a file that is no directory
    is passed to the file function; a directory whose paths fit in the buffer and
    which is at most [n] deep is walked to the end, with any fuel from [n] on, the
    file function is called for the files found and no other, and the result is 0
    exactly when every directory on the way could be opened, every entry had a
    stat and every call returned 0. *)
Theorem walkfiles_correct (buf : list Z) (fuel n : nat) (w : walk_state) (path : list Z)
    (func : option (list Z -> stat -> Z)) (fl : Z) :
  let v := settings (sel w) func fl in
  zlen buf = PATH_SIZE ->
  (lstat path = None -> walkfiles buf fuel w path func fl = Some (w, [], -1)) /\
  (forall st, lstat path = Some st -> st_mode st .& S_IFMT <> S_IFDIR ->
     walkfiles buf fuel w path func fl = Some (put_walk w v, [(path, st)], call_func v path st)) /\
  (forall st, lstat path = Some st -> st_mode st .& S_IFMT = S_IFDIR ->
     shallow v n path st -> (n <= fuel)%nat ->
     exists log e, walkfiles buf fuel w path func fl = Some (put_walk w v, log, e) /\
       (forall q sq, (q, sq) ∈ log <-> found v path st q sq) /\
       (e = 0 <-> ~ failed v path st /\ forall q sq, found v path st q sq -> call_func v q sq = 0)).
Proof.
  intros v Hb. unfold walkfiles. split; [by intros ->|]. split; intros st -> Hd.
  - by rewrite (proj2 (Z.eqb_neq _ _) Hd).
  - intros Hs Hf. rewrite (proj2 (Z.eqb_eq _ _) Hd).
    destruct (do_dir_reports buf v fuel path st Hb (shallow_mono _ _ _ _ _ Hf Hs)) as (log & e & E & R).
    exists log, e. fold v. by rewrite E.
Qed.

(** Filters and ignores: with globs only, add_filter makes the filters accept
    what they accepted and what the new glob matches, and adds it once; a regular
    expression is added in the same way, and an ignore likewise; an invalid
    expression exits; add_filter after add_filter_re dereferences the glob that
    the regular expression does not have. *)
Theorem filters_correct (w : walk_state) (p str name : list Z) :
  let accepts w name := filters (sel w) <> [] /\ check_filters (sel w) name <> 0 in
  (Forall (fun f => is_Some (pat f)) (filters (sel w)) ->
     exists w', add_filter w p = Ret w' /\ add_filter w' p = Ret w' /\
       (accepts w' name <-> accepts w name \/ fnmatch p name = true)) /\
  (regcomp str = None -> add_filter_re w str = Exit 1 /\ add_ignore w str = Exit 1) /\
  (forall re, regcomp str = Some re ->
     (exists w', add_filter_re w str = Ret w' /\ add_filter w' p = Fault /\
       (accepts w' name <-> accepts w name \/ regexec re name = true)) /\
     (exists w', add_ignore w str = Ret w' /\
       (ignored (sel w') name <-> ignored (sel w) name \/ regexec re name = true))).
Proof.
  intros accepts. subst accepts. cbv beta.
  assert (Hadd : forall f, (filters (sel (put_walk w (set_filters (sel w) (f :: filters (sel w))))) <> [] /\
      check_filters (sel (put_walk w (set_filters (sel w) (f :: filters (sel w))))) name <> 0 <->
      (filters (sel w) <> [] /\ check_filters (sel w) name <> 0) \/ filter_match f name = true)).
  { intros f. rewrite sel_put_walk, !check_filters_spec, passes_cons. cbn. by split; [intros []|split]. }
  split; [|split].
  - intros Hp. destruct (find_pat_spec _ p Hp) as (b & E & Hb). unfold add_filter at 1. rewrite E.
    destruct b.
    + exists w. split; [done|]. unfold add_filter. rewrite E. split; [done|].
      destruct Hb as [(f & Hin & Hf) _]; [done|]. rewrite check_filters_spec. split; [by left|].
      intros [|Hm]; [done|]. split; [by intros E0; rewrite E0 in Hin; apply elem_of_nil in Hin|].
      right. exists f. split; [done|]. unfold filter_match. by rewrite Hf.
    + eexists. split; [done|]. split; [|apply (Hadd {| pat := Some p; fregex := None |})].
      unfold add_filter. rewrite sel_put_walk. cbn. by rewrite decide_True.
  - intros E. unfold add_filter_re, add_ignore. by rewrite E.
  - intros re E. unfold add_filter_re, add_ignore. rewrite E. split.
    + eexists. split; [done|]. split; [|apply (Hadd {| pat := None; fregex := Some re |})].
      unfold add_filter. by rewrite sel_put_walk.
    + eexists. split; [done|]. rewrite sel_put_walk. unfold ignored. cbn. split.
      * intros (r & Hin & Hr). apply elem_of_cons in Hin as [->|Hin]; [by right|left; by exists r].
      * intros [(r & Hin & Hr)|Hr]; [exists r; split; [by right|done]|exists re; split; [left|done]].
Qed.

(** A path that does not fit is not detected: from a directory whose path has
    1023 bytes, an entry that is looked at leads back to the directory itself, and
    no fuel is enough for the walk. *)
Theorem walk_truncation_loops (buf : list Z) (fuel : nat) (v : walkfile_struct)
    (dname name : list Z) (st : stat) :
  zlen buf = PATH_SIZE -> Forall (fun c => c <> 0) dname -> zlen dname = PATH_SIZE - 1 ->
  lstat dname = Some st -> descends v st st -> ~ ignored v dname -> listed v dname name ->
  do_dir buf fuel v dname st = None.
Proof.
  intros Hb Hn Hl Hs Hd Hi (ents & Eo & Hin & Hdot).
  induction fuel as [|fuel IH]; [done|]. cbn [do_dir]. rewrite Eo.
  eapply do_entries_cut; eauto.
Qed.

End walk.

(** ** Witnesses *)

(** A small file system: the directory d holds ., a and the directory s, which
    holds b; and a directory whose path has 1023 bytes. *)
Definition long_dir : list Z := replicate 1023 97.

Definition lstat0 (p : list Z) : option stat :=
  if bool_decide (p ∈ [[100]; [100; 47; 115]; long_dir]) then Some {| st_mode := 0x41ed; st_dev := 1 |}
  else if bool_decide (p ∈ [[100; 47; 97]; [100; 47; 115; 47; 98]])
  then Some {| st_mode := 0x81a4; st_dev := 1 |} else None.

Definition opendir0 (p : list Z) : option (list (list Z)) :=
  if bool_decide (p = [100]) then Some [[46]; [97]; [115]]
  else if bool_decide (p = [100; 47; 115]) then Some [[98]]
  else if bool_decide (p = long_dir) then Some [[46]; [98]] else None.

(** Expressions and globs that match themselves only. *)
Definition match0 (p s : list Z) : bool := bool_decide (p = s).

Definition empty_walk : walkfile_struct (regex := list Z) :=
  {| file_func := None; ignores := []; filters := []; flags := 0 |}.

Lemma shallow0 : shallow match0 lstat0 opendir0 (settings empty_walk None 0) 2 [100]
  {| st_mode := 0x41ed; st_dev := 1 |}.
Proof.
  split.
  - intros name (ents & [= <-] & Hin & Hd). repeat (apply elem_of_cons in Hin as [->|Hin]);
      [discriminate|..|by apply elem_of_nil in Hin]; (split; [repeat constructor; lia|done]).
  - intros name path st ((ents & [= <-] & Hin & Hd) & -> & _) El (Ht & _).
    repeat (apply elem_of_cons in Hin as [->|Hin]); [discriminate|..|by apply elem_of_nil in Hin].
    + vm_compute in El. injection El as <-. discriminate Ht.
    + split.
      * intros name (ents & [= <-] & Hin & Hd'). repeat (apply elem_of_cons in Hin as [->|Hin]);
          [|by apply elem_of_nil in Hin]. split; [repeat constructor; lia|done].
      * intros name path st' ((ents & [= <-] & Hin & Hd') & -> & _) El' (Ht' & _).
        repeat (apply elem_of_cons in Hin as [->|Hin]); [|by apply elem_of_nil in Hin].
        vm_compute in El'. injection El' as <-. discriminate Ht'.
Qed.

(** The walk of d visits d/a and d/s/b. *)
Lemma walkfiles_correct_witness :
  exists log, walkfiles match0 match0 lstat0 opendir0 (replicate 1024 7) 5 (empty_walk, None) [100] None 0
      = Some (settings empty_walk None 0, None, log, 0) /\
    map fst log = [[100; 47; 97]; [100; 47; 115; 47; 98]] /\
    forall q sq, (q, sq) ∈ log <->
      found match0 match0 lstat0 opendir0 (settings empty_walk None 0) [100]
        {| st_mode := 0x41ed; st_dev := 1 |} q sq.
Proof.
  set (log := [([100; 47; 97], {| st_mode := 0x81a4; st_dev := 1 |});
               ([100; 47; 115; 47; 98], {| st_mode := 0x81a4; st_dev := 1 |})]).
  assert (E : walkfiles match0 match0 lstat0 opendir0 (replicate 1024 7) 5 (empty_walk, None) [100] None 0
    = Some (settings empty_walk None 0, None, log, 0)) by by vm_compute.
  exists log. split; [exact E|]. split; [done|].
  destruct (walkfiles_correct match0 match0 lstat0 opendir0 (replicate 1024 7) 5 2 (empty_walk, None)
    [100] None 0 eq_refl) as (_ & _ & H).
  destruct (H {| st_mode := 0x41ed; st_dev := 1 |} eq_refl eq_refl shallow0 ltac:(lia)) as (l & e & El & Hl & _).
  rewrite E in El. injection El as <- _. exact Hl.
Defined.

(** The glob a, then the expression b. *)
Lemma filters_correct_witness :
  exists w', add_filter_re Some (empty_walk, None) [98] = Ret w' /\ add_filter w' [97] = Fault.
Proof.
  destruct (filters_correct Some match0 match0 (empty_walk, None) [97] [98] [98]) as (_ & _ & H).
  destruct (proj1 (H [98] eq_refl)) as (w' & E & F & _). by exists w'.
Defined.

Lemma walk_truncation_loops_witness :
  do_dir match0 match0 lstat0 opendir0 (replicate 1024 0) 50 empty_walk long_dir
    {| st_mode := 0x41ed; st_dev := 1 |} = None.
Proof.
  apply (walk_truncation_loops match0 match0 lstat0 opendir0 (replicate 1024 0) 50 empty_walk long_dir [98]).
  - reflexivity.
  - by apply Forall_replicate.
  - reflexivity.
  - vm_compute. reflexivity.
  - by repeat split.
  - intros (re & Hin & _). by apply elem_of_nil in Hin.
  - exists [[46]; [98]]. split; [by vm_compute|]. split; [right; left|done].
Defined.

End Walkfiles.
