(* ===== verification/Args.v ===== *)
(** The argument helpers (arg-helpers.c): memory lengths in both directions,
    numbers with commas and durations as text. *)

From S2P Require Import Prelude Strings Strfmt.
Import Strings Strfmt.

Module Args.

(** ** strtoul, with base 0 *)

Definition isspace (c : Z) : bool := (c =? 32) || ((9 <=? c) && (c <=? 13)).

Fixpoint skip_spaces (s : list Z) : list Z :=
  match s with
  | c :: t => if isspace c then skip_spaces t else s
  | [] => []
  end.

(** The value of a character as a digit of base 16 at most. *)
Definition digit_of (c : Z) : option Z :=
  if (48 <=? c) && (c <=? 57) then Some (c - 48)
  else if (97 <=? c) && (c <=? 102) then Some (c - 87)
  else if (65 <=? c) && (c <=? 70) then Some (c - 55) else None.

Definition digit_in (base c : Z) : option Z :=
  d ← digit_of c; if d <? base then Some d else None.
Definition is_digit_in (base c : Z) : bool :=
  match digit_in base c with Some _ => true | None => false end.

(** The digits at the start, and what follows them. *)
Fixpoint scan_digits (base : Z) (s : list Z) (value : Z) : Z * list Z :=
  match s with
  | c :: t =>
      match digit_in base c with
      | Some d => scan_digits base t (value * base + d)
      | None => (value, s)
      end
  | [] => (value, [])
  end.

Definition ULONG_MAX : Z := 2 ^ 64 - 1.

(** The base of a number and its digits; [None]: no number. *)
Definition strtoul_base (s : list Z) : option (Z * list Z) :=
  match s with
  | 48 :: 120 :: c :: t => if is_digit_in 16 c then Some (16, c :: t) else Some (8, s)
  | 48 :: 88 :: c :: t => if is_digit_in 16 c then Some (16, c :: t) else Some (8, s)
  | 48 :: _ => Some (8, s)
  | c :: _ => if is_digit_in 10 c then Some (10, s) else None
  | [] => None
  end.

(** The value and the rest of the string: all of it when there is no number. *)
Definition strtoul (s : list Z) : Z * list Z :=
  let '(neg, t) :=
    match skip_spaces s with
    | 45 :: t => (true, t)
    | 43 :: t => (false, t)
    | t => (false, t)
    end in
  match strtoul_base t with
  | None => (0, s)
  | Some (base, t) =>
      let '(v, e) := scan_digits base t 0 in
      (if ULONG_MAX <? v then ULONG_MAX else if neg : bool then u64 (- v) else v, e)
  end.

(** ** Memory lengths *)

(** The fall-through of the switch: how many factors of 1024 a suffix stands for. *)
Definition suffix_factors (c : Z) : option nat :=
  if (c =? 116) || (c =? 84) then Some 4%nat
  else if (c =? 103) || (c =? 71) then Some 3%nat
  else if (c =? 109) || (c =? 77) then Some 2%nat
  else if (c =? 107) || (c =? 75) then Some 1%nat
  else if (c =? 98) || (c =? 66) || (c =? 0) then Some 0%nat
  else None.

Definition get_mem_len (str : list Z) : outcome Z :=
  let '(len, e) := strtoul str in
  match suffix_factors (hd 0 e) with
  | Some k => Ret (Nat.iter k (fun len => u64 (len * 1024)) len)
  | None => Exit 1
  end.

(** The result is an unsigned; the character says the unit. *)
Definition nice_mem_len (size : Z) : Z * Z :=
  if negb (size =? 0) then
    if size .& (u64 (1 .<< 40) - 1) =? 0 then (u32 (size .>> 40), 84)
    else if size .& (u64 (1 .<< 30) - 1) =? 0 then (u32 (size .>> 30), 71)
    else if size .& (u64 (1 .<< 20) - 1) =? 0 then (u32 (size .>> 20), 77)
    else if size .& (u64 (1 .<< 10) - 1) =? 0 then (u32 (size .>> 10), 75)
    else (u32 size, 32)
  else (u32 size, 32).

(** ** Numbers with commas *)

(** The loop that writes the digits backwards: the buffer and the pointer.  64
    iterations are more than a long has digits. *)
Fixpoint comma_loop (fuel : nat) (str : list Z) (p i number : Z) : option (list Z * Z) :=
  if number =? 0 then Some (str, p)
  else
    match fuel with
    | O => None
    | S fuel =>
        '(str, p, i) ← (if (i .& 3 =? 3)%Z then
                          str ← mwr str (p - 1) 44; Some (str, p - 1, i + 1)
                        else Some (str, p, i));
        str ← mwr str (p - 1) (u8 (Z.rem number 10 + 48));
        comma_loop fuel str (p - 1) (i + 1) (Z.quot number 10)
    end.

(** [str] is the static array; the result is the array and the pointer. *)
Definition nice_number (str : list Z) (number : Z) : option (list Z * Z) :=
  if number =? 0 then str ← strcpy str 0 [48]; Some (str, 0)
  else
    let neg := number <? 0 in
    let number := if neg then s64 (- number) else number in
    let p := 31 in
    str ← mwr str p 0;
    '(str, p) ← comma_loop 64 str p 0 number;
    if neg then str ← mwr str (p - 1) 45; Some (str, p - 1) else Some (str, p).

(** ** Durations *)

Definition ONE_MINUTE : Z := 60.
Definition ONE_HOUR : Z := ONE_MINUTE * 60.
Definition ONE_DAY : Z := ONE_HOUR * 24.

Definition fmt_unit : list Z := [37; 100; 37; 99].
Definition fmt_seconds : list Z := [37; 108; 117; 115].

(** One iteration of the loop over the units: the buffer, the length so far and
    the rest of the duration. *)
Definition duration_step (len : Z) (s : list Z * Z * Z) (unit : Z * Z) : option (list Z * Z * Z) :=
  let '(str, n, duration) := s in
  let '(check, fmt) := unit in
  if check <=? duration then
    let d := s32 (duration / check) in
    let duration := u64 (duration - u64 (d * check)) in
    '(str, k) ← strfmt str n (s32 (len - n)) fmt_unit [AInt d; AInt fmt];
    Some (str, s32 (n + k), duration)
  else Some (str, n, duration).

(** [str] is the caller's buffer; [malloc] what an allocation returns. *)
Definition nice_duration (malloc : Z -> option (list Z)) (duration : Z) (str : option (list Z)) (len : Z)
  : option (option (list Z)) :=
  let '(str, len) :=
    match str with
    | Some str => (Some str, len)
    | None => let len := if len =? 0 then 32 else len in (malloc len, len)
    end in
  match str with
  | None => Some None
  | Some str =>
      s ← duration_step len (str, 0, duration) (ONE_DAY, 100);
      s ← duration_step len s (ONE_HOUR, 104);
      '(str, n, duration) ← duration_step len s (ONE_MINUTE, 109);
      if negb (duration =? 0) || (n =? 0) then
        '(str, _) ← strfmt str n (s32 (len - n)) fmt_seconds [AInt duration];
        Some (Some str)
      else Some (Some str)
  end.

Example get_mem_len_ex : get_mem_len [49; 54; 107] = Ret 16384.
Proof. reflexivity. Qed.
Example nice_number_ex : nice_number (replicate 32 0) (-1234567) =
  Some (replicate 21 0 ++ [45; 49; 44; 50; 51; 52; 44; 53; 54; 55; 0], 21).
Proof. reflexivity. Qed.
Example nice_duration_ex : nice_duration (fun n => None) 90061 (Some (replicate 12 7)) 12 =
  Some (Some [49; 100; 49; 104; 49; 109; 49; 115; 0; 7; 7; 7]).
Proof. reflexivity. Qed.

(** ** Reading decimal numbers *)

Abbreviation dec_digits := (digits_loop (fun v => v mod 10 + 48) (fun v => v / 10)).

Lemma digit_in_dec c : 48 <= c <= 57 -> digit_in 10 c = Some (c - 48).
Proof.
  intros Hc. unfold digit_in, digit_of.
  rewrite (proj2 (Z.leb_le 48 c)), (proj2 (Z.leb_le c 57)) by lia. cbn.
  by rewrite (proj2 (Z.ltb_lt _ _)) by lia.
Qed.

Lemma scan_dec l rest a :
  Forall (fun c => 48 <= c <= 57) l -> digit_in 10 (hd 0 rest) = None ->
  scan_digits 10 (l ++ rest) a = (fold_left (fun acc c => acc * 10 + digit_value c) l a, rest).
Proof.
  intros Hl Hr. revert a. induction Hl as [|c l Hc _ IH]; intros a; cbn.
  - destruct rest as [|c rest]; [done|]. cbn in *. by rewrite Hr.
  - rewrite digit_in_dec by done. rewrite IH. unfold digit_value.
    by rewrite (proj2 (Z.leb_le c 57)) by lia.
Qed.

(** The number has no leading zero. *)
Lemma dec_digits_last fuel v :
  0 < v < 10 ^ Z.of_nat fuel ->
  exists l d, dec_digits fuel v = l ++ [d] /\ 49 <= d <= 57 /\ Forall (fun c => 48 <= c <= 57) l.
Proof.
  revert v. induction fuel as [|fuel IH]; intros v Hv; [change (10 ^ Z.of_nat 0) with 1 in Hv; lia|].
  rewrite Nat2Z.inj_succ, Z.pow_succ_r in Hv by lia.
  cbn [digits_loop]. rewrite (proj2 (Z.ltb_lt 0 v)) by lia.
  destruct (Z.lt_ge_cases v 10) as [Hs|Hs].
  - exists [], (v + 48). rewrite Z.div_small, Z.mod_small by lia.
    split; [by destruct fuel|]. split; [lia|done].
  - destruct (IH (v / 10)) as (l & d & E & Hd & Hl).
    { split; [apply Z.div_str_pos; lia|apply Z.div_lt_upper_bound; lia]. }
    exists (v mod 10 + 48 :: l), d. rewrite E. split; [done|]. split; [done|].
    constructor; [|done]. pose proof (Z.mod_pos_bound v 10 ltac:(lia)). lia.
Qed.

Lemma uint2str_digits v : 0 < v < 2 ^ 64 ->
  exists d l, _uint2str v = d :: l /\ 49 <= d <= 57 /\ Forall (fun c => 48 <= c <= 57) l.
Proof.
  intros Hv. unfold _uint2str. rewrite (proj2 (Z.eqb_neq v 0)) by lia. rewrite reverse_string_rev.
  destruct (dec_digits_last 64 v) as (l & d & E & Hd & Hl).
  { split; [lia|]. eapply Z.lt_le_trans; [apply Hv|by vm_compute]. }
  exists d, (rev l). rewrite E, rev_app_distr. split; [done|]. split; [done|]. by apply Forall_rev.
Qed.

Lemma strtoul_uint2str v rest :
  0 < v < 2 ^ 64 -> digit_in 10 (hd 0 rest) = None -> strtoul (_uint2str v ++ rest) = (v, rest).
Proof.
  intros Hv Hr. pose proof (uint2str_value v ltac:(lia)) as V.
  destruct (uint2str_digits v Hv) as (d & l & E & Hd & Hl). rewrite E in V |- *.
  unfold strtoul. cbn [app skip_spaces]. unfold isspace.
  rewrite (proj2 (Z.eqb_neq d 32)), (proj2 (Z.leb_gt d 13)) by lia. rewrite andb_false_r. cbn [orb].
  assert (B : strtoul_base (d :: l ++ rest) = Some (10, d :: l ++ rest)).
  { assert (Hd' : d = 49 \/ d = 50 \/ d = 51 \/ d = 52 \/ d = 53 \/ d = 54 \/ d = 55 \/ d = 56 \/ d = 57)
      by lia. by repeat (destruct Hd' as [->|Hd']; [done|]); subst. }
  assert (S : match d :: l ++ rest with
    | 45 :: t => (true, t) | 43 :: t => (false, t) | t => (false, t) end = (false, d :: l ++ rest)).
  { clear -Hd. assert (Hd' : d = 49 \/ d = 50 \/ d = 51 \/ d = 52 \/ d = 53 \/ d = 54 \/ d = 55 \/ d = 56 \/ d = 57)
      by lia. by repeat (destruct Hd' as [->|Hd']; [done|]); subst. }
  rewrite S, B. change (d :: l ++ rest) with ((d :: l) ++ rest).
  rewrite scan_dec; [|constructor; [lia|done]|done].
  unfold read_num in V. rewrite V. unfold ULONG_MAX. by rewrite (proj2 (Z.ltb_ge _ _)) by lia.
Qed.

(** ** Memory lengths *)

Lemma low_bits size k : 0 <= k -> size .& (2 ^ k - 1) = 0 -> (size .>> k) * 2 ^ k = size.
Proof.
  intros Hk E. rewrite Z.shiftr_div_pow2 by done.
  replace (2 ^ k - 1) with (Z.ones k) in E by (rewrite Z.ones_equiv; lia).
  rewrite Z.land_ones in E by done. pose proof (Z.div_mod size (2 ^ k)). lia.
Qed.

Lemma iter_1024 k n :
  0 <= n -> n * 1024 ^ Z.of_nat k < 2 ^ 64 ->
  Nat.iter k (fun len => u64 (len * 1024)) n = n * 1024 ^ Z.of_nat k.
Proof.
  intros Hn. induction k as [|k IH]; intros H; [cbn; lia|].
  rewrite Nat2Z.inj_succ, Z.pow_succ_r in * by lia. rewrite Nat.iter_succ.
  assert (0 < 1024 ^ Z.of_nat k) by lia.
  rewrite IH by nia. rewrite u64_id by (unfold fits; nia). lia.
Qed.

(** The text of a memory length: no character for bytes. *)
Definition mem_text (r : Z * Z) : list Z :=
  _uint2str r.1 ++ (if r.2 =? 32 then [] else [r.2]).

(** What nice_mem_len promises of its two results. *)
Lemma nice_mem_len_spec size :
  0 <= size < 2 ^ 64 ->
  exists k c, nice_mem_len size = (u32 (size .>> (10 * Z.of_nat k)), c) /\
    (size .>> (10 * Z.of_nat k)) * 1024 ^ Z.of_nat k = size /\
    suffix_factors (if c =? 32 then 0 else c) = Some k /\ digit_in 10 c = None /\
    (size <> 0 -> 0 < size .>> (10 * Z.of_nat k)) /\ (size = 0 -> c = 32).
Proof.
  intros Hs. unfold nice_mem_len.
  assert (P : forall k : nat, (size .>> (10 * Z.of_nat k)) * 1024 ^ Z.of_nat k = size ->
    size <> 0 -> 0 < size .>> (10 * Z.of_nat k)).
  { intros k E Hn. pose proof (Z.shiftr_nonneg size (10 * Z.of_nat k)).
    destruct (Z.eqb_spec (size .>> (10 * Z.of_nat k)) 0) as [E0|]; [rewrite E0 in E|]; lia. }
  assert (L : forall k : nat, size .& (2 ^ (10 * Z.of_nat k) - 1) = 0 ->
    (size .>> (10 * Z.of_nat k)) * 1024 ^ Z.of_nat k = size).
  { intros k E. change 1024 with (2 ^ 10). rewrite <- Z.pow_mul_r by lia. apply low_bits; [lia|done]. }
  destruct (Z.eqb_spec size 0) as [->|H0]; cbn [negb]; [by exists 0%nat, 32|].
  change (u64 (1 .<< 40) - 1) with (2 ^ (10 * Z.of_nat 4) - 1).
  change (u64 (1 .<< 30) - 1) with (2 ^ (10 * Z.of_nat 3) - 1).
  change (u64 (1 .<< 20) - 1) with (2 ^ (10 * Z.of_nat 2) - 1).
  change (u64 (1 .<< 10) - 1) with (2 ^ (10 * Z.of_nat 1) - 1).
  repeat match goal with |- context [size .& ?m =? 0] => destruct (Z.eqb_spec (size .& m) 0) end.
  - exists 4%nat, 84. split; [done|]. split; [by apply L|]. do 2 (split; [done|]). split; [|done]. by apply P, L.
  - exists 3%nat, 71. split; [done|]. split; [by apply L|]. do 2 (split; [done|]). split; [|done]. by apply P, L.
  - exists 2%nat, 77. split; [done|]. split; [by apply L|]. do 2 (split; [done|]). split; [|done]. by apply P, L.
  - exists 1%nat, 75. split; [done|]. split; [by apply L|]. do 2 (split; [done|]). split; [|done]. by apply P, L.
  - exists 0%nat, 32. rewrite Z.shiftr_0_r. split; [done|]. split; [cbn; lia|].
    split; [done|]. split; [done|]. split; [lia|done].
Qed.

(** The factors of 1024 that the character of nice_mem_len stands for. *)
Definition unit_factors (c : Z) : nat := default 0%nat (suffix_factors (if c =? 32 then 0 else c)).

(** A memory length survives the trip through text: get_mem_len reads what
    nice_mem_len chose to print, for every length whose number fits in the unsigned
    result; when it does not fit the number printed is not the length. *)
Theorem mem_len_roundtrip (size : Z) :
  0 <= size < 2 ^ 64 ->
  let k := unit_factors (nice_mem_len size).2 in
  (size .>> (10 * Z.of_nat k) < 2 ^ 32 -> get_mem_len (mem_text (nice_mem_len size)) = Ret size) /\
  (2 ^ 32 <= size .>> (10 * Z.of_nat k) -> (nice_mem_len size).1 * 1024 ^ Z.of_nat k < size).
Proof.
  intros Hs. destruct (nice_mem_len_spec size Hs) as (k & c & E & V & F & D & P & C).
  assert (U : unit_factors c = k) by (unfold unit_factors; by rewrite F).
  rewrite E. cbn [fst snd]. rewrite U. cbv zeta.
  pose proof (Z.shiftr_nonneg size (10 * Z.of_nat k)) as Hn.
  assert (0 < 1024 ^ Z.of_nat k) by lia. split.
  - intros Hf. rewrite u32_id by (unfold fits; lia). unfold get_mem_len, mem_text. cbn [fst snd].
    destruct (Z.eqb_spec size 0) as [->|H0].
    + rewrite Z.shiftr_0_l, (C eq_refl). reflexivity.
    + rewrite strtoul_uint2str.
      * assert (Hh : hd 0 (if c =? 32 then [] else [c]) = (if c =? 32 then 0 else c)) by by destruct (c =? 32).
        rewrite Hh, F. rewrite iter_1024; [by rewrite V|lia|lia].
      * specialize (P H0). lia.
      * by destruct (c =? 32).
  - intros Hb. unfold u32. rewrite Z.mod_eq by lia. 
    assert (1 <= (size .>> (10 * Z.of_nat k)) / 2 ^ 32) by (apply Z.div_le_lower_bound; lia). nia.
Qed.
(** 5G, and a length of 2^32 + 1, printed as 1. *)
Lemma mem_len_roundtrip_witness :
  get_mem_len (mem_text (nice_mem_len (5 * 2 ^ 30))) = Ret (5 * 2 ^ 30) /\
  nice_mem_len (2 ^ 32 + 1) = (1, 32).
Proof. split; [|reflexivity]. by apply (mem_len_roundtrip (5 * 2 ^ 30)). Defined.

(** ** Numbers with commas *)

(** The characters in the order the loop writes them; [i] counts them. *)
Fixpoint grouped (ds : list Z) (i : Z) : list Z :=
  match ds with
  | [] => []
  | d :: ds => if i mod 4 =? 3 then 44 :: d :: grouped ds (i + 2) else d :: grouped ds (i + 1)
  end.

Lemma grouped_length ds i : 0 <= i -> 3 * zlen (grouped ds i) <= 4 * zlen ds + i mod 4.
Proof.
  unfold zlen. revert i. induction ds as [|d ds IH]; intros i Hi; cbn [grouped length].
  - pose proof (Z.mod_pos_bound i 4 ltac:(lia)). lia.
  - destruct (Z.eqb_spec (i mod 4) 3) as [E|E]; cbn [length].
    + specialize (IH (i + 2) ltac:(lia)). Z.to_euclidean_division_equations. lia.
    + specialize (IH (i + 1) ltac:(lia)). Z.to_euclidean_division_equations. lia.
Qed.

Lemma grouped_digits ds i :
  Forall (fun c => 48 <= c <= 57) ds -> filter (fun c => c <> 44) (grouped ds i) = ds.
Proof.
  intros H. revert i. induction H as [|d ds Hd _ IH]; intros i; [done|]. cbn [grouped].
  destruct (i mod 4 =? 3); rewrite !filter_cons.
  - rewrite decide_False by (intros E; by apply E). rewrite decide_True by (intros ->; lia). by rewrite IH.
  - rewrite decide_True by (intros ->; lia). by rewrite IH.
Qed.

Lemma grouped_commas ds i j c :
  Forall (fun c => 48 <= c <= 57) ds -> 0 <= i -> grouped ds i !! j = Some c ->
  c <> 45 /\ c <> 0 /\ (c = 44 <-> (i + Z.of_nat j) mod 4 = 3).
Proof.
  intros H. revert i j. induction H as [|d ds Hd _ IH]; intros i j Hi; [done|]. cbn [grouped].
  destruct (Z.eqb_spec (i mod 4) 3) as [E|E].
  - destruct j as [|[|j]]; cbn.
    + intros [= <-]. Z.to_euclidean_division_equations. lia.
    + intros [= <-]. Z.to_euclidean_division_equations. lia.
    + intros Hj. destruct (IH (i + 2) j ltac:(lia) Hj) as (? & ? & ->).
      split; [done|]. split; [done|]. by replace (i + 2 + Z.of_nat j) with (i + Z.of_nat (S (S j))) by lia.
  - destruct j as [|j]; cbn.
    + intros [= <-]. Z.to_euclidean_division_equations. lia.
    + intros Hj. destruct (IH (i + 1) j ltac:(lia) Hj) as (? & ? & ->).
      split; [done|]. split; [done|]. by replace (i + 1 + Z.of_nat j) with (i + Z.of_nat (S j)) by lia.
Qed.

(** The loop writes the grouped digits just below the pointer. *)
Lemma comma_loop_spec fuel number str p i :
  0 <= number < 10 ^ Z.of_nat fuel -> 0 <= i -> p <= zlen str ->
  zlen (grouped (dec_digits fuel number) i) <= p ->
  let w := rev (grouped (dec_digits fuel number) i) in
  comma_loop fuel str p i number = Some (splice str (p - zlen w) w, p - zlen w).
Proof.
  revert number str p i. induction fuel as [|fuel IH]; intros number str p i Hn Hi Hp Hl w; subst w.
  - change (10 ^ Z.of_nat 0) with 1 in Hn. assert (number = 0) as -> by lia. cbn.
    rewrite splice_nil by (unfold zlen in *; cbn in *; lia). do 2 f_equal. unfold zlen. cbn. lia.
  - rewrite Nat2Z.inj_succ, Z.pow_succ_r in Hn by lia. cbn [comma_loop digits_loop] in *.
    destruct (Z.eqb_spec number 0) as [->|H0].
    { cbn. rewrite splice_nil by (unfold zlen in *; cbn in *; lia). do 2 f_equal. unfold zlen. cbn. lia. }
    rewrite (proj2 (Z.ltb_lt 0 number)) in * by lia. cbn [grouped] in *.
    rewrite Z.quot_div_nonneg, Z.rem_mod_nonneg by lia.
    pose proof (Z.mod_pos_bound number 10 ltac:(lia)) as Hm.
    rewrite (u8_id (number mod 10 + 48)) by (unfold fits; lia).
    assert (Hq : 0 <= number / 10 < 10 ^ Z.of_nat fuel)
      by (split; [apply Z.div_pos; lia|apply Z.div_lt_upper_bound; lia]).
    change 3 with (Z.ones 2) at 1. rewrite Z.land_ones by lia. change (2 ^ 2) with 4.
    change (Z.ones 2) with 3.
    set (d := number mod 10 + 48) in *.
    assert (Z2 : forall a b (l : list Z), zlen (a :: b :: l) = zlen l + 2) by (intros; unfold zlen; cbn [length]; lia).
    assert (Z1 : forall a (l : list Z), zlen (a :: l) = zlen l + 1) by (intros; unfold zlen; cbn [length]; lia).
    assert (ZR : forall l : list Z, zlen (rev l) = zlen l) by (intros; unfold zlen; by rewrite length_rev).
    assert (ZA : forall l1 l2 : list Z, zlen (l1 ++ l2) = zlen l1 + zlen l2) by (intros; unfold zlen; rewrite length_app; lia).
    assert (N0 : forall l : list Z, 0 <= zlen l) by (intros; unfold zlen; lia).
    destruct (i mod 4 =? 3); cbn [rev].
    + set (g := grouped (dec_digits fuel (number / 10)) (i + 2)) in *. rewrite Z2 in Hl.
      pose proof (N0 g).
      rewrite mwr_some by lia. cbn [mbind option_bind].
      rewrite mwr_some by (rewrite zlen_splice by (change (zlen [44]) with 1; lia); lia). cbn [mbind option_bind].
      rewrite (splice_down str p (p - 1) (p - 1 - 1) [d] [44]) by (done || lia).
      replace (i + 1 + 1) with (i + 2) by lia. change ([d] ++ [44]) with [d; 44].
      change (zlen [d; 44]) with 2.
      rewrite IH; fold g; [|done|lia|rewrite zlen_splice by (change (zlen [d; 44]) with 2; lia); lia|lia].
      rewrite (splice_down str p (p - 2) (p - 1 - 1 - zlen (rev g)) (rev g) [d; 44])
        by (done || rewrite ?ZR; lia).
      rewrite <- app_assoc. cbn [app]. do 2 f_equal. unfold zlen. rewrite !length_app, !length_rev. cbn [length]. lia.
    + set (g := grouped (dec_digits fuel (number / 10)) (i + 1)) in *. rewrite Z1 in Hl.
      pose proof (N0 g). cbn [mbind option_bind].
      rewrite mwr_some by lia. cbn [mbind option_bind].
      rewrite IH; fold g; [|done|lia|rewrite zlen_splice by (change (zlen [d]) with 1; lia); lia|lia].
      rewrite (splice_down str p (p - 1) (p - 1 - zlen (rev g)) (rev g) [d])
        by (done || rewrite ?ZR; lia).
      do 2 f_equal. unfold zlen. rewrite !length_app, !length_rev. cbn [length]. lia.
Qed.

Lemma filter_rev (P : Z -> Prop) `{!forall c, Decision (P c)} l :
  filter P (rev l) = rev (filter P l).
Proof.
  induction l as [|c l IH]; [done|]. cbn [rev]. rewrite filter_app, IH, !filter_cons.
  destruct (decide (P c)); [done|]. by rewrite filter_nil, app_nil_r.
Qed.

(** The digits of a positive long. *)
Lemma dec_digits_long v :
  0 < v < 2 ^ 63 -> 0 <= v < 10 ^ Z.of_nat 64 /\ zlen (grouped (dec_digits 64 v) 0) <= 25.
Proof.
  intros Hv. split; [split; [lia|]; eapply Z.lt_le_trans; [apply Hv|by vm_compute]|].
  pose proof (grouped_length (dec_digits 64 v) 0 ltac:(lia)) as G.
  assert (L : (length (dec_digits 64 v) <= 19)%nat).
  { apply (digits_length 10); [lia|done|]. split; [lia|]. eapply Z.lt_le_trans; [apply Hv|by vm_compute]. }
  change (0 mod 4) with 0 in G. unfold zlen in *. lia.
Qed.

Lemma dec_digits_range fuel v : Forall (fun c => 48 <= c <= 57) (dec_digits fuel v).
Proof. apply Forall_forall. intros c. apply dec_digit_range. Qed.

(** The text of a number with commas. *)
Definition comma_text (number : Z) : list Z :=
  if number =? 0 then [48]
  else (if number <? 0 then [45] else []) ++ rev (grouped (dec_digits 64 (Z.abs number)) 0).

Lemma comma_text_correct number :
  - 2 ^ 63 < number < 2 ^ 63 ->
  filter (fun c => c <> 44) (comma_text number) = _int2str number /\
  (forall j c, rev (comma_text number) !! j = Some c -> c <> 0 /\
     (c = 44 <-> Z.of_nat j mod 4 = 3 /\ c <> 45)).
Proof.
  intros Hn. unfold comma_text, _int2str. destruct (Z.eqb_spec number 0) as [->|H0].
  { split; [done|]. intros [|j] c; [intros [= <-]; change (Z.of_nat 0 mod 4) with 0; lia|done]. }
  set (g := grouped (dec_digits 64 (Z.abs number)) 0).
  assert (Hg : filter (fun c => c <> 44) (rev g) = rev (dec_digits 64 (Z.abs number))).
  { rewrite filter_rev. f_equal. apply grouped_digits, dec_digits_range. }
  assert (Hc : forall j c, g !! j = Some c -> c <> 45 /\ c <> 0 /\ (c = 44 <-> Z.of_nat j mod 4 = 3)).
  { intros j c. apply (grouped_commas _ 0); [apply dec_digits_range|lia]. }
  destruct (Z.ltb_spec number 0) as [Hs|Hs]; cbn [app].
  - assert (E : s64 (- number) = Z.abs number) by (unfold s64; rewrite Z.mod_small; lia).
    rewrite E, int_digits, reverse_string_rev, rev_app_distr by lia. split.
    + rewrite filter_cons, Hg. by rewrite decide_True by lia.
    + intros j c. cbn [rev]. rewrite rev_involutive. intros Hj.
      apply lookup_app_Some in Hj as [Hj|[_ Hj]].
      * destruct (Hc j c Hj) as (? & ? & ->). tauto.
      * destruct (j - length g)%nat; [|done]. injection Hj as <-. lia.
  - replace (Z.abs number) with number in * by lia.
    rewrite int_digits, reverse_string_rev by lia. split; [done|].
    intros j c. rewrite rev_involutive. intros Hj. destruct (Hc j c Hj) as (? & ? & ->). tauto.
Qed.

(** Numbers with commas: for every long but the smallest, nice_number stays in
    its array of 32 bytes and returns a terminated string which, without its
    commas, is the decimal number, and whose commas are every fourth character
    from the right. *)
Theorem nice_number_correct (str : list Z) (number : Z) :
  length str = 32%nat -> - 2 ^ 63 < number < 2 ^ 63 ->
  exists str' p, nice_number str number = Some (str', p) /\
    cstr_at str' p (comma_text number) /\
    filter (fun c => c <> 44) (comma_text number) = _int2str number /\
    (forall j c, rev (comma_text number) !! j = Some c ->
       (c = 44 <-> Z.of_nat j mod 4 = 3 /\ c <> 45)).
Proof.
  intros Hstr Hn. assert (Hz : zlen str = 32) by (unfold zlen; lia).
  destruct (comma_text_correct number Hn) as [Hf Hc].
  assert (Hnz : Forall (fun c => c <> 0) (comma_text number)).
  { rewrite <- (rev_involutive (comma_text number)). apply Forall_rev, Forall_forall.
    intros c Hin. apply list_elem_of_lookup in Hin as [j Hj]. by apply (Hc j c). }
  assert (Hstore : exists str' p, nice_number str number = Some (str', p) /\
    0 <= p /\ p + zlen (comma_text number) < 32 /\ str' = splice str p (comma_text number ++ [0])).
  { clear Hf Hc Hnz. unfold nice_number, comma_text. destruct (Z.eqb_spec number 0) as [->|H0].
    { exists (splice str 0 [48; 0]), 0. unfold strcpy. rewrite mwrs_some by (cbn; unfold zlen in *; cbn; lia).
      cbn. split; [done|]. split; [lia|]. split; [unfold zlen; cbn; lia|done]. }
    set (g := grouped (dec_digits 64 (Z.abs number)) 0).
    assert (E : (if number <? 0 then s64 (- number) else number) = Z.abs number).
    { destruct (Z.ltb_spec number 0); [unfold s64; rewrite Z.mod_small|]; lia. }
    cbv zeta. rewrite E, mwr_some by lia. cbn [mbind option_bind].
    destruct (dec_digits_long (Z.abs number)) as [D G]; [lia|]. fold g in G.
    assert (Hr : zlen (rev g) = zlen g) by (unfold zlen; by rewrite length_rev).
    assert (Hg0 : 0 <= zlen g) by (unfold zlen; lia).
    rewrite comma_loop_spec; fold g; [|done|lia|rewrite zlen_splice by (change (zlen [0]) with 1; lia); lia|lia].
    cbn [mbind option_bind].
    rewrite (splice_down str 32 31 (31 - zlen (rev g)) (rev g) [0]) by (done || lia).
    assert (Ha : zlen (rev g ++ [0]) = zlen g + 1) by (unfold zlen; rewrite length_app, length_rev; cbn; lia).
    rewrite Ha, Hr. destruct (number <? 0); cbn [app].
    - rewrite mwr_some by (rewrite ?zlen_splice, ?Ha; lia). cbn [mbind option_bind].
      eexists _, _. split; [done|].
      rewrite (splice_down str 32 (32 - (zlen g + 1)) _ [45] (rev g ++ [0])) by (rewrite ?Ha; change (zlen [45]) with 1; lia).
      assert (Hb : zlen ([45] ++ rev g ++ [0]) = zlen g + 2) by (unfold zlen in *; cbn [app length]; lia).
      rewrite Hb. assert (Hd : zlen (45 :: rev g) = zlen g + 1) by (unfold zlen in *; cbn [length]; lia).
      rewrite Hd. split; [lia|]. split; [lia|]. cbn [app]. f_equal. lia.
    - eexists _, _. split; [done|]. rewrite Hr. split; [lia|]. split; [lia|]. f_equal. lia. }
  destruct Hstore as (str' & p & E & Hp & Hl & ->). eexists _, _. split; [exact E|].
  split; [apply cstr_at_splice; [done|done|lia]|]. split; [done|]. intros j c Hj. by apply Hc.
Qed.

Lemma nice_number_correct_witness :
  comma_text (-1234567) = [45; 49; 44; 50; 51; 52; 44; 53; 54; 55] /\
  exists str' p, nice_number (replicate 32 0) (-1234567) = Some (str', p) /\
    cstr_at str' p (comma_text (-1234567)).
Proof.
  split; [reflexivity|].
  destruct (nice_number_correct (replicate 32 0) (-1234567) eq_refl ltac:(lia)) as (str' & p & E & C & _).
  by exists str', p.
Defined.

(** ** Durations *)

(** What the calls of strfmt so far have left in the buffer. *)
Definition wrote (buf t str : list Z) (n : Z) : Prop :=
  n = zlen t /\ str = match t with [] => buf | _ => splice buf 0 (t ++ [0]) end.

Lemma wrote_strfmt buf t str n len fmt args l :
  wrote buf t str n -> render (length fmt) fmt args = Some l -> l <> [] ->
  zlen t + zlen l < len < 2 ^ 31 -> len <= zlen buf ->
  exists str', strfmt str n (s32 (len - n)) fmt args = Some (str', zlen l) /\
    s32 (n + zlen l) = n + zlen l /\ wrote buf (t ++ l) str' (n + zlen l).
Proof.
  intros [-> ->] R Hl Hlen Hb.
  assert (N : forall x : list Z, 0 <= zlen x) by (intros; unfold zlen; lia).
  assert (A : forall x y : list Z, zlen (x ++ y) = zlen x + zlen y) by (intros; unfold zlen; rewrite length_app; lia).
  pose proof (N t). pose proof (N l).
  assert (Hz : zlen match t with [] => buf | _ => splice buf 0 (t ++ [0]) end = zlen buf).
  { destruct t; [done|]. apply zlen_splice; [lia|]. rewrite A. change (zlen [0]) with 1. lia. }
  rewrite (s32_id (len - zlen t)), (s32_id (zlen t + zlen l)) by lia.
  rewrite (strfmt_spec _ _ _ _ _ l) by (done || lia).
  rewrite fit_all by lia. eexists. split; [done|]. split; [done|]. split; [by rewrite A|].
  assert (E : t ++ l <> []) by (intros E; by apply app_eq_nil in E as [_ ?]).
  assert (M : forall X (a b : X) (k : list Z), k <> [] -> match k with [] => a | _ => b end = b) by by intros ? ? ? [].
  rewrite (M _ _ _ (t ++ l) E). destruct t as [|c t]; [done|].
  replace (zlen (c :: t)) with (0 + zlen (c :: t)) by lia.
  rewrite splice_overwrite; [by rewrite app_assoc|lia|rewrite length_app; cbn [length]; lia|].
  rewrite A. change (zlen [0]) with 1. lia.
Qed.

(** A unit of a duration, when there is some of it. *)
Definition unit_text (d c : Z) : list Z := if 0 <? d then _int2str d ++ [c] else [].

Lemma no_spaces (s : list Z) : spaces (0 - zlen s) = [].
Proof. unfold spaces. by replace (Z.to_nat (0 - zlen s)) with 0%nat by (unfold zlen; lia). Qed.

Lemma render_unit d c : 0 <= d < 2 ^ 31 -> is_byte c ->
  render (length fmt_unit) fmt_unit [AInt d; AInt c] = Some (_int2str d ++ [c]).
Proof.
  intros Hd Hc. assert (E : s32 d = d) by (unfold s32; rewrite Z.mod_small; lia).
  unfold fmt_unit. cbn -[_int2str s32 u8 zlen Z.land Z.lor spaces].
  rewrite Z.land_0_l, Z.lor_0_l, !Z.land_0_l. cbn [Z.eqb negb].
  rewrite E, (u8_id c Hc), no_spaces. done.
Qed.

Lemma render_seconds d : 0 <= d < 2 ^ 64 ->
  render (length fmt_seconds) fmt_seconds [AInt d] = Some (_uint2str d ++ [115]).
Proof.
  intros Hd. unfold fmt_seconds. cbn -[_uint2str u64 u8 zlen Z.land Z.lor spaces].
  change (0 .| (0 .& WIDTH_MASK) .| SAW_LONG) with SAW_LONG.
  change (SAW_LONG .& SAW_ZERO) with 0. change (SAW_LONG .& WIDTH_MASK) with 0.
  change (SAW_LONG .& SAW_LONG =? 0) with false. cbn [Z.eqb negb].
  rewrite (u64_id d Hd), no_spaces. done.
Qed.

Lemma duration_step_spec buf t str n len duration check c :
  wrote buf t str n -> 0 < check -> 0 <= duration < 2 ^ 63 -> duration / check < 2 ^ 31 ->
  is_byte c -> zlen t + zlen (unit_text (duration / check) c) < len < 2 ^ 31 -> len <= zlen buf ->
  exists str', duration_step len (str, n, duration) (check, c) =
      Some (str', n + zlen (unit_text (duration / check) c), duration mod check) /\
    wrote buf (t ++ unit_text (duration / check) c) str' (n + zlen (unit_text (duration / check) c)).
Proof.
  intros W Hk Hd Hq Hc Hlen Hb. unfold duration_step. cbv zeta. unfold unit_text in *.
  assert (Hq0 : 0 <= duration / check) by (apply Z.div_pos; lia).
  pose proof (Z.div_mod duration check ltac:(lia)) as Hdm.
  pose proof (Z.mod_pos_bound duration check Hk) as Hm.
  destruct (Z.leb_spec check duration) as [Hle|Hgt].
  - assert (1 <= duration / check) by (apply Z.div_le_lower_bound; lia).
    rewrite (proj2 (Z.ltb_lt 0 _)) in * by lia.
    assert (E : s32 (duration / check) = duration / check) by (unfold s32; rewrite Z.mod_small; lia).
    rewrite E. destruct (wrote_strfmt buf t str n len _ _ _ W (render_unit (duration / check) c (conj Hq0 Hq) Hc)) as (str' & S & Es & W');
      [by destruct (_int2str _)|done|done|].
    rewrite S. cbn [mbind option_bind]. rewrite Es. exists str'. split; [|done]. do 2 f_equal.
    rewrite (u64_id (duration / check * check)) by (unfold fits; nia).
    rewrite u64_id by (unfold fits; nia). lia.
  - rewrite Z.div_small in * by lia. cbn [Z.ltb Z.compare] in *. rewrite Z.mod_small by lia.
    rewrite app_nil_r, Z.add_0_r. by exists str.
Qed.
(** The text of [d] days, [h] hours, [m] minutes and [sec] seconds. *)
Definition duration_text (d h m sec : Z) : list Z :=
  let units := unit_text d 100 ++ unit_text h 104 ++ unit_text m 109 in
  if bool_decide (sec <> 0 \/ units = []) then units ++ _uint2str sec ++ [115] else units.

Lemma int2str_digits d : 0 < d < 2 ^ 63 -> Forall (fun c => 48 <= c <= 57) (_int2str d).
Proof.
  intros Hd. unfold _int2str. rewrite (proj2 (Z.eqb_neq d 0)), (proj2 (Z.ltb_ge d 0)) by lia.
  rewrite int_digits, reverse_string_rev by lia. apply Forall_rev, dec_digits_range.
Qed.

Lemma unit_text_nonzero d c : d < 2 ^ 63 -> c <> 0 -> Forall (fun c => c <> 0) (unit_text d c).
Proof.
  intros Hd Hc. unfold unit_text. destruct (Z.ltb_spec 0 d); [|done]. apply Forall_app. split.
  - eapply Forall_impl; [apply int2str_digits; lia|]. cbn. lia.
  - by constructor.
Qed.

Lemma unit_text_length d c : d < 2 ^ 63 -> zlen (unit_text d c) <= 22.
Proof.
  intros Hd. unfold unit_text. destruct (0 <? d); [|unfold zlen; cbn; lia].
  pose proof (int2str_length d Hd). unfold zlen. rewrite length_app. cbn [length]. lia.
Qed.

(** Below 60 two digits are enough. *)
Lemma short_texts d c : 0 <= d < 60 -> zlen (unit_text d c) <= 3 /\ zlen (_uint2str d ++ [115]) <= 3 /\
  Forall (fun c => c <> 0) (_uint2str d ++ [115]).
Proof.
  intros Hd.
  assert (H : forallb (fun x => (length (_int2str x) <=? 2)%nat && (length (_uint2str x) <=? 2)%nat &&
    forallb (fun c => negb (c =? 0)) (_uint2str x)) (seqZ 0 60) = true) by by vm_compute.
  rewrite forallb_forall in H. specialize (H d ltac:(apply list_elem_of_In, elem_of_seqZ; lia)).
  rewrite !andb_true_iff, !Nat.leb_le, forallb_forall in H. destruct H as [[H1 H2] H3].
  split; [|split].
  - unfold unit_text. destruct (0 <? d); [|unfold zlen; cbn; lia].
    unfold zlen. rewrite length_app. cbn [length]. lia.
  - unfold zlen. rewrite length_app. cbn [length]. lia.
  - apply Forall_app. split; [|by constructor]. apply Forall_forall. intros x Hx.
    apply list_elem_of_In, H3 in Hx. rewrite negb_true_iff in Hx. by apply Z.eqb_neq.
Qed.

Lemma zlen_nil_iff (l : list Z) : zlen l = 0 <-> l = [].
Proof. unfold zlen. destruct l; cbn; split; (done || lia). Qed.

(** The parts of a duration. *)
Lemma duration_parts duration : 0 <= duration < 2 ^ 31 * ONE_DAY ->
  let d := duration / ONE_DAY in let r1 := duration mod ONE_DAY in
  let h := r1 / ONE_HOUR in let r2 := r1 mod ONE_HOUR in
  let m := r2 / ONE_MINUTE in let sec := r2 mod ONE_MINUTE in
  duration = d * ONE_DAY + h * ONE_HOUR + m * ONE_MINUTE + sec /\
  0 <= d < 2 ^ 31 /\ 0 <= h < 24 /\ 0 <= m < 60 /\ 0 <= sec < 60 /\ 0 <= r1 < 86400 /\ 0 <= r2 < 3600.
Proof. intros Hd. cbv zeta. unfold ONE_DAY, ONE_HOUR, ONE_MINUTE in *. Z.to_euclidean_division_equations. lia. Qed.

(** The three units, one after the other. *)
Lemma duration_units b len duration : 0 <= duration < 2 ^ 31 * ONE_DAY -> 32 <= len < 2 ^ 31 -> len <= zlen b ->
  exists b' d h m sec units, duration = d * ONE_DAY + h * ONE_HOUR + m * ONE_MINUTE + sec /\
    0 <= d < 2 ^ 31 /\ 0 <= h < 24 /\ 0 <= m < 60 /\ 0 <= sec < 60 /\ units = unit_text d 100 ++ unit_text h 104 ++ unit_text m 109 /\
    (s ← duration_step len (b, 0, duration) (ONE_DAY, 100); s ← duration_step len s (ONE_HOUR, 104); duration_step len s (ONE_MINUTE, 109))
      = Some (b', zlen units, sec) /\ wrote b units b' (zlen units) /\ zlen units <= 28.
Proof.
  intros Hd Hl Hb. destruct (duration_parts duration Hd) as (R & Rd & Rh & Rm & Rs & Rr1 & Rr2).
  set (d := duration / ONE_DAY) in *. set (r1 := duration mod ONE_DAY) in *. set (h := r1 / ONE_HOUR) in *.
  set (r2 := r1 mod ONE_HOUR) in *. set (m := r2 / ONE_MINUTE) in *. set (sec := r2 mod ONE_MINUTE) in *.
  pose proof (unit_text_length d 100 ltac:(lia)) as L1. change (ONE_DAY) with 86400 in Hd.
  destruct (short_texts h 104 ltac:(lia)) as [L2 _]. destruct (short_texts m 109 ltac:(lia)) as [L3 _].
  assert (W0 : wrote b [] b 0) by done.
  destruct (duration_step_spec b [] b 0 len duration ONE_DAY 100 W0) as (b1 & -> & W1);
    [done|lia|fold d; lia|unfold fits; lia|fold d; change (zlen []) with 0; lia|done|].
  fold d r1 in W1 |- *. cbn [mbind option_bind app] in *.
  destruct (duration_step_spec _ _ _ _ len r1 ONE_HOUR 104 W1) as (b2 & -> & W2);
    [done|lia|fold h; change ONE_HOUR with 3600 in h; lia|unfold fits; lia|fold h; lia|done|].
  fold h r2 in W2 |- *. cbn [mbind option_bind].
  destruct (duration_step_spec _ _ _ _ len r2 ONE_MINUTE 109 W2) as (b3 & -> & W3);
    [done|lia|fold m; change ONE_MINUTE with 60 in m; lia|unfold fits; lia|fold m; rewrite zlen_app; lia|done|].
  fold m sec in W3 |- *. rewrite <- app_assoc in W3.
  exists b3, d, h, m, sec, (unit_text d 100 ++ unit_text h 104 ++ unit_text m 109). do 6 (split; [done|]).
  assert (Zu : zlen (unit_text d 100 ++ unit_text h 104 ++ unit_text m 109) = 0 + zlen (unit_text d 100) + zlen (unit_text h 104) + zlen (unit_text m 109))
    by (rewrite !zlen_app; lia).
  split; [by rewrite Zu|]. split; [by rewrite Zu|lia].
Qed.

(** A duration as text: for durations of less than 2^31 days and a buffer of at
    least 32 bytes, nice_duration leaves in the buffer the days, hours, minutes and
    seconds that add up to the duration, each within its range, leaving out the
    units there is none of; without a buffer it allocates one, of 32 bytes when
    the length is 0, or returns NULL. *)
Theorem nice_duration_correct (malloc : Z -> option (list Z)) (duration len : Z)
    (str : option (list Z)) :
  0 <= duration < 2 ^ 31 * ONE_DAY -> len < 2 ^ 31 ->
  let len' := match str with None => if len =? 0 then 32 else len | Some _ => len end in
  let buf := match str with None => malloc len' | Some _ => str end in
  (buf = None -> nice_duration malloc duration str len = Some None) /\
  (forall b, buf = Some b -> 32 <= len' <= zlen b ->
     exists b' d h m sec, nice_duration malloc duration str len = Some (Some b') /\
       duration = d * ONE_DAY + h * ONE_HOUR + m * ONE_MINUTE + sec /\
       0 <= d /\ 0 <= h < 24 /\ 0 <= m < 60 /\ 0 <= sec < 60 /\
       cstr_at b' 0 (duration_text d h m sec)).
Proof.
  intros Hd Hi len' buf. unfold nice_duration.
  assert (E : match str with Some str => (Some str, len)
    | None => (malloc (if len =? 0 then 32 else len), if len =? 0 then 32 else len) end = (buf, len'))
    by by destruct str.
  rewrite E. clear E. assert (Hi' : len' < 2 ^ 31) by (unfold len'; destruct str, (len =? 0); lia).
  clearbody len' buf. split; [by intros ->|]. intros b -> [Hl Hb].
  destruct (duration_units b len' duration Hd (conj Hl Hi') Hb) as (b3 & d & h & m & sec & units & R & Rd & Rh & Rm & Rs & Eu & Es & W3 & Zu).
  apply bind_Some in Es as (s1 & E1 & (s2 & E2 & E3)%bind_Some). rewrite E1. cbn [mbind option_bind]. rewrite E2. cbn [mbind option_bind].
  rewrite E3. cbn [mbind option_bind]. destruct (short_texts sec 115 ltac:(lia)) as (_ & L4 & N4).
  assert (Nu : Forall (fun c => c <> 0) units) by (rewrite Eu; repeat apply Forall_app_2; apply unit_text_nonzero; lia).
  assert (Hdec : negb (sec =? 0) || (zlen units =? 0) = bool_decide (sec <> 0 \/ units = [])).
  { destruct (Z.eqb_spec sec 0), (Z.eqb_spec (zlen units) 0) as [e1|e1]; cbn; symmetry;
      rewrite zlen_nil_iff in e1; (apply bool_decide_eq_true_2 || apply bool_decide_eq_false_2); tauto. }
  assert (ET : duration_text d h m sec =
    if bool_decide (sec <> 0 \/ units = []) then units ++ _uint2str sec ++ [115] else units) by (unfold duration_text; by rewrite <- Eu).
  rewrite Hdec. clear Eu E1 E2 E3. case_bool_decide as Hs.
  - destruct (wrote_strfmt _ _ _ _ len' _ _ _ W3 (render_seconds sec ltac:(lia))) as (b4 & -> & _ & W4);
      [by destruct (_uint2str sec)|lia|done|]. cbn [mbind option_bind].
    exists b4, d, h, m, sec. do 6 (split; [done || lia|]). rewrite ET. destruct W4 as [_ ->].
    destruct (units ++ _uint2str sec ++ [115]) as [|c t] eqn:Et; [by apply app_eq_nil in Et as [_ Et]; apply app_eq_nil in Et as [_ Et]|].
    rewrite <- Et. apply cstr_at_splice; [lia|by apply Forall_app|rewrite zlen_app; lia].
  - exists b3, d, h, m, sec. do 6 (split; [done || lia|]). rewrite ET. destruct W3 as [_ ->].
    destruct units as [|c t] eqn:Et; [by destruct Hs; right|]. apply cstr_at_splice; [lia|done|lia].
Qed.

(** 90061 seconds in the caller's buffer, and no memory. *)
Lemma nice_duration_correct_witness :
  nice_duration (fun n => None) 90061 None 0 = Some None /\
  exists b' d h m sec, nice_duration (fun n => None) 90061 (Some (replicate 32 7)) 32 = Some (Some b') /\
    90061 = d * ONE_DAY + h * ONE_HOUR + m * ONE_MINUTE + sec.
Proof.
  split.
  - refine (proj1 (nice_duration_correct (fun n => None) 90061 0 None _ _) eq_refl); done.
  - assert (Hd : 0 <= 90061 < 2 ^ 31 * ONE_DAY) by done.
    destruct (proj2 (nice_duration_correct (fun n => None) 90061 32 (Some (replicate 32 7)) Hd eq_refl)
      (replicate 32 7) eq_refl) as (b' & d & h & m & sec & E & D & _); [done|].
    exact (ex_intro _ b' (ex_intro _ d (ex_intro _ h (ex_intro _ m (ex_intro _ sec (conj E D)))))).
Defined.

End Args.
