(* ===== verification/Memlen.v ===== *)
(** nicer_mem_len (arg-helpers.c): a length of memory with one digit after the point.  The code
    computes with doubles; what it computes is given here by integers: the nearest double of
    the size, divided by a power of two, which is exact, and printed to the nearest tenth. *)

From S2P Require Import Prelude Strings Strfmt Args.
Import Strings Strfmt Args.

Module Memlen.

(** ** Doubles *)

(** [n / d] rounded to the nearest integer, to the even one of two. *)
Definition round_even (n d : Z) : Z :=
  let q := n / d in
  let r := 2 * (n mod d) in
  if r <? d then q else if d <? r then q + 1 else q + q mod 2.

(** [(double)n] for an unsigned number: 53 bits of it. *)
Definition double_of (n : Z) : Z :=
  let e := Z.log2 n - 52 in
  if e <=? 0 then n else round_even n (2 ^ e) * 2 ^ e.

(** ** The code *)

Definition lu (n : Z) : list Z := _uint2str n.

(** [%.1f] of [(double)size / (double)(1ul << k)]. *)
Definition tenths (size k : Z) : Z := round_even (10 * double_of size) (2 ^ k).
Definition fixed1 (size k : Z) : list Z :=
  let t := tenths size k in lu (t / 10) ++ [46; 48 + t mod 10].

(** [snprintf(str, len, ...)] for the complete text. *)
Definition snprintf (str : list Z) (len : Z) (text : list Z) : option (list Z) :=
  let n := u64 len in
  if n =? 0 then Some str
  else
    let out := take (Z.to_nat (n - 1)) text ++ [0] in
    if zlen out <=? zlen str then Some (splice str 0 out) else None.

Definition with_unit (size k unit : Z) : list Z :=
  (if size .& ((1 .<< k) - 1) =? 0 then lu (size .>> k) else fixed1 size k) ++ [unit].

Definition nicer_text (size : Z) : list Z :=
  if 1 .<< 30 <=? size then with_unit size 30 71
  else if 1 .<< 20 <=? size then with_unit size 20 77
  else if 1 .<< 10 <=? size then with_unit size 10 75
  else lu size.

Definition nicer_mem_len (size : Z) (str : list Z) (len : Z) : option (list Z) := snprintf str len (nicer_text size).

Example nicer_ex : nicer_mem_len 1610612736 (replicate 8 7) 8 = Some [49; 46; 53; 71; 0; 7; 7; 7].
Proof. reflexivity. Qed.

(** ** Rounding *)

Lemma round_even_near n d : 0 < d -> 2 * Z.abs (round_even n d * d - n) <= d.
Proof.
  intros Hd. unfold round_even. pose proof (Z.div_mod n d ltac:(lia)) as E. pose proof (Z.mod_pos_bound n d Hd) as Hm.
  set (q := n / d) in *. set (r := n mod d) in *. replace (q * d) with (n - r) by nia.
  destruct (Z.ltb_spec (2 * r) d) as [H|H]; [replace (q * d - n) with (- r) by lia; lia|].
  destruct (Z.ltb_spec d (2 * r)) as [H'|H']; [replace ((q + 1) * d - n) with (d - r) by nia; lia|].
  pose proof (Z.mod_pos_bound q 2 ltac:(lia)). assert (Hq : q mod 2 = 0 \/ q mod 2 = 1) by lia.
  destruct Hq as [-> | ->]; [replace ((q + 0) * d - n) with (- r) by nia|replace ((q + 1) * d - n) with (d - r) by nia]; lia.
Qed.

(** The double of a size is within 2^10 of it, and is the size up to 2^53. *)
Lemma double_of_near n : 0 <= n < 2 ^ 64 -> Z.abs (double_of n - n) <= 2 ^ 10 /\ (n < 2 ^ 53 -> double_of n = n).
Proof.
  intros Hn. unfold double_of. destruct (Z.leb_spec (Z.log2 n - 52) 0) as [H|H]; [split; [lia|done]|].
  assert (Hn0 : 0 < n) by (destruct (Z.eq_dec n 0) as [->|]; [cbn in H; lia|lia]).
  pose proof (Z.log2_lt_pow2 n 64 Hn0) as L. pose proof (Z.log2_le_pow2 n 53 Hn0) as L'. split; [|lia].
  assert (He : 2 ^ (Z.log2 n - 52) <= 2 ^ 11) by (apply Z.pow_le_mono_r; lia).
  pose proof (round_even_near n (2 ^ (Z.log2 n - 52)) ltac:(apply Z.pow_pos_nonneg; lia)). change (2 ^ 11) with 2048 in He. change (2 ^ 10) with 1024. lia.
Qed.

Lemma tenths_near size k : 0 <= size < 2 ^ 64 -> 0 < k ->
  2 * Z.abs (tenths size k * 2 ^ k - 10 * size) <= 2 ^ k + 20 * 2 ^ 10 /\
  (size < 2 ^ 53 -> 2 * Z.abs (tenths size k * 2 ^ k - 10 * size) <= 2 ^ k).
Proof.
  intros Hs Hk. destruct (double_of_near size Hs) as [H1 H2]. unfold tenths.
  pose proof (round_even_near (10 * double_of size) (2 ^ k) ltac:(apply Z.pow_pos_nonneg; lia)) as Hr.
  change (2 ^ 10) with 1024 in *. split; [|intros Hlt; rewrite (H2 Hlt) in Hr; by rewrite (H2 Hlt)].
  generalize dependent (round_even (10 * double_of size) (2 ^ k) * 2 ^ k). generalize (2 ^ k). lia.
Qed.

(** ** The text *)

(** What a text says of a size: the size itself with its unit, or a number of tenths of
    the unit nearest to it. *)
Definition unit_of (k unit : Z) : Prop := (k, unit) ∈ [(10, 75); (20, 77); (30, 71)].
Definition says (text : list Z) (size : Z) : Prop :=
  text = lu size \/
  exists k unit, unit_of k unit /\ 2 ^ k <= size /\
    ((exists n, text = lu n ++ [unit] /\ n * 2 ^ k = size) \/
     exists t, text = lu (t / 10) ++ [46; 48 + t mod 10; unit] /\ 2 * Z.abs (t * 2 ^ k - 10 * size) <= 2 ^ k + 20 * 2 ^ 10 /\
       (size < 2 ^ 53 -> 2 * Z.abs (t * 2 ^ k - 10 * size) <= 2 ^ k)).

Lemma with_unit_says size k unit : unit_of k unit -> 0 < k -> 2 ^ k <= size < 2 ^ 64 -> says (with_unit size k unit) size.
Proof.
  intros Hu Hk Hs. assert (H0 : 0 <= size) by (pose proof (Z.pow_pos_nonneg 2 k); lia). right. exists k, unit. split; [done|]. split; [lia|].
  unfold with_unit. rewrite Z.shiftl_1_l. destruct (Z.eqb_spec (size .& (2 ^ k - 1)) 0) as [E|E].
  - left. exists (size .>> k). split; [done|]. by apply low_bits; [lia|].
  - right. exists (tenths size k). unfold fixed1. cbv zeta. rewrite <- app_assoc. split; [reflexivity|]. by apply tenths_near; [lia|].
Qed.

(** ** Properties *)

(** The text of a size: the size itself below 1K or for a whole number of units; otherwise a number of
    tenths of the unit that is the nearest one as long as the size is a double (2^53) and off by at most ten
    times its rounding beyond.  The text is cut to the length that is given, with its end. *)
Theorem nicer_mem_len_correct size str len :
  0 <= size < 2 ^ 64 -> 0 < len < 2 ^ 31 -> len <= zlen str ->
  exists text, says text size /\
    nicer_mem_len size str len = Some (splice str 0 (take (Z.to_nat (len - 1)) text ++ [0])).
Proof.
  intros Hs Hl Hlen. exists (nicer_text size). split.
  - unfold nicer_text. rewrite !Z.shiftl_1_l.
    repeat (match goal with |- context [?x <=? size] => destruct (Z.leb_spec x size) end;
      [apply with_unit_says; [unfold unit_of; rewrite !elem_of_cons; auto|done|lia]|]). by left.
  - unfold nicer_mem_len, snprintf. rewrite (u64_id len) by (unfold fits; lia).
    rewrite (proj2 (Z.eqb_neq _ _)) by lia. rewrite (proj2 (Z.leb_le _ _)); [done|].
    unfold zlen in *. rewrite length_app, length_take. cbn [length]. lia.
Qed.

Lemma nicer_mem_len_correct_witness :
  exists text, says text 1610612736 /\ nicer_mem_len 1610612736 (replicate 8 7) 8 = Some (splice (replicate 8 7) 0 (take 7 text ++ [0])).
Proof. apply (nicer_mem_len_correct 1610612736 (replicate 8 7) 8); [done|done|by vm_compute]. Defined.

(** Just below a unit the tenths round to 1024 of the one below it. *)
Lemma nicer_mem_len_1024K : nicer_text (2 ^ 20 - 1) = [49; 48; 50; 52; 46; 48; 75].
Proof. reflexivity. Qed.
End Memlen.
