(* ===== verification/AesX86.v ===== *)
(** The AES code for x86 processors (aes-x86.c), which aes-cbc.c and aes128.c
    use when the processor has the AES instructions.  The instructions are
    parameters with their documented behaviour; the key schedules, the equivalent
    inverse schedule and the CBC loops are shown to compute what the software
    path computes. *)

From S2P Require Import Prelude Aes128 AesCbc.
Import Aes128 AesCbc.

Module AesX86.

(** ** Vectors *)

(** [__m128i] as its 16 bytes in memory order. *)
Definition m128 : Type := list Z.

Definition _mm_loadu_si128 (p : list Z) (off : Z) : m128 := take 16 (drop (Z.to_nat off) p).
Definition _mm_xor_si128 (a b : m128) : m128 := zip_with Z.lxor a b.

(** A shift of the whole vector to the left, by bytes. *)
Definition _mm_slli_si128 (a : m128) (n : nat) : m128 := replicate n 0 ++ take (16 - n) a.

(** The doublewords selected by two bits of the immediate each. *)
Definition dword (a : m128) (i : Z) : list Z := take 4 (drop (Z.to_nat (4 * i)) a).
Definition _mm_shuffle_epi32 (a : m128) (imm : Z) : m128 :=
  dword a (imm .& 3) ++ dword a ((imm .>> 2) .& 3) ++ dword a ((imm .>> 4) .& 3)
  ++ dword a ((imm .>> 6) .& 3).

(** A byte through the substitution box, and the rotation of a doubleword. *)
Definition sub_dword (d : list Z) : list Z := map (fun x => rd sbox x) d.
Definition rot_dword (d : list Z) : list Z := drop 1 d ++ take 1 d.

(** A state of the cipher as a vector. *)
Definition on_state (f : matrix -> matrix) (a : m128) : m128 := store_state (f (load_state a)).

(** The AES instructions, as the processor's manual documents them on vectors of
    16 bytes. *)
Class AesInstructions
    (_mm_aesenc_si128 _mm_aesenclast_si128 _mm_aesdec_si128 _mm_aesdeclast_si128 : m128 -> m128 -> m128)
    (_mm_aesimc_si128 : m128 -> m128) (_mm_aeskeygenassist_si128 : m128 -> Z -> m128) : Prop := {
  aesenc_doc a k : Forall is_byte a -> length a = 16%nat ->
    _mm_aesenc_si128 a k = _mm_xor_si128 (on_state (fun s => MixColumns (SubBytes (ShiftRows s))) a) k;
  aesenclast_doc a k : Forall is_byte a -> length a = 16%nat ->
    _mm_aesenclast_si128 a k = _mm_xor_si128 (on_state (fun s => SubBytes (ShiftRows s)) a) k;
  aesdec_doc a k : Forall is_byte a -> length a = 16%nat ->
    _mm_aesdec_si128 a k = _mm_xor_si128 (on_state (fun s => InvMixColumns (InvSubBytes (InvShiftRows s))) a) k;
  aesdeclast_doc a k : Forall is_byte a -> length a = 16%nat ->
    _mm_aesdeclast_si128 a k = _mm_xor_si128 (on_state (fun s => InvSubBytes (InvShiftRows s)) a) k;
  aesimc_doc a : Forall is_byte a -> length a = 16%nat -> _mm_aesimc_si128 a = on_state InvMixColumns a;
  aeskeygenassist_doc a rcon : Forall is_byte a -> length a = 16%nat -> is_byte rcon ->
    _mm_aeskeygenassist_si128 a rcon =
      sub_dword (dword a 1)
      ++ zip_with Z.lxor (rot_dword (sub_dword (dword a 1))) [rcon; 0; 0; 0]
      ++ sub_dword (dword a 3)
      ++ zip_with Z.lxor (rot_dword (sub_dword (dword a 3))) [rcon; 0; 0; 0];
}.

Section x86.
Context (_mm_aesenc_si128 _mm_aesenclast_si128 _mm_aesdec_si128 _mm_aesdeclast_si128 : m128 -> m128 -> m128)
  (_mm_aesimc_si128 : m128 -> m128) (_mm_aeskeygenassist_si128 : m128 -> Z -> m128).

(** ** Support *)

(** The static flag [hw_aes_support] and the third register of [cpuid(1)]: the
    answer, and the flag afterwards. *)
Definition cpu_supports_aes (ecx hw_aes_support : Z) : Z :=
  if hw_aes_support =? -1 then (if ecx .& (1 .<< 25) =? 0 then 0 else 1) else hw_aes_support.

(** The result and the flag. *)
Definition aes_set_hw (ecx hw_aes_support hw : Z) : Z * Z :=
  if (hw =? 0) || (hw =? -1) then (0, hw)
  else if hw =? 1 then
    let hw_aes_support := cpu_supports_aes ecx (-1) in
    ((if hw_aes_support =? 1 then 0 else ENOSYS), hw_aes_support)
  else (EINVAL, hw_aes_support).

(** ** Key expansion *)

(** [Key_Schedule[i]], in a buffer of bytes. *)
Definition ks_get (key : list Z) (i : Z) : m128 := _mm_loadu_si128 key (16 * i).
Definition ks_set (key : list Z) (i : Z) (v : m128) : list Z := splice key (16 * i) v.

Definition AES_128_ASSIST (temp1 temp2 : m128) : m128 :=
  let temp2 := _mm_shuffle_epi32 temp2 0xff in
  let temp3 := _mm_slli_si128 temp1 0x4 in
  let temp1 := _mm_xor_si128 temp1 temp3 in
  let temp3 := _mm_slli_si128 temp3 0x4 in
  let temp1 := _mm_xor_si128 temp1 temp3 in
  let temp3 := _mm_slli_si128 temp3 0x4 in
  let temp1 := _mm_xor_si128 temp1 temp3 in
  let temp1 := _mm_xor_si128 temp1 temp2 in
  temp1.

(** The three statements that the code repeats for each round constant. *)
Definition expand_128_step (s : m128 * list Z) (ir : Z * Z) : m128 * list Z :=
  let '(temp1, key) := s in
  let '(i, rcon) := ir in
  let temp2 := _mm_aeskeygenassist_si128 temp1 rcon in
  let temp1 := AES_128_ASSIST temp1 temp2 in
  (temp1, ks_set key i temp1).

Definition AES_128_Key_Expansion (userkey key : list Z) : list Z :=
  let temp1 := _mm_loadu_si128 userkey 0 in
  let key := ks_set key 0 temp1 in
  snd (fold_left expand_128_step
    [(1, 0x1); (2, 0x2); (3, 0x4); (4, 0x8); (5, 0x10); (6, 0x20); (7, 0x40); (8, 0x80);
     (9, 0x1b); (10, 0x36)] (temp1, key)).

Definition KEY_256_ASSIST_1 (temp1 temp2 : m128) : m128 * m128 :=
  let temp2 := _mm_shuffle_epi32 temp2 0xff in
  let temp4 := _mm_slli_si128 temp1 0x4 in
  let temp1 := _mm_xor_si128 temp1 temp4 in
  let temp4 := _mm_slli_si128 temp4 0x4 in
  let temp1 := _mm_xor_si128 temp1 temp4 in
  let temp4 := _mm_slli_si128 temp4 0x4 in
  let temp1 := _mm_xor_si128 temp1 temp4 in
  let temp1 := _mm_xor_si128 temp1 temp2 in
  (temp1, temp2).

Definition KEY_256_ASSIST_2 (temp1 temp3 : m128) : m128 :=
  let temp4 := _mm_aeskeygenassist_si128 temp1 0x0 in
  let temp2 := _mm_shuffle_epi32 temp4 0xaa in
  let temp4 := _mm_slli_si128 temp3 0x4 in
  let temp3 := _mm_xor_si128 temp3 temp4 in
  let temp4 := _mm_slli_si128 temp4 0x4 in
  let temp3 := _mm_xor_si128 temp3 temp4 in
  let temp4 := _mm_slli_si128 temp4 0x4 in
  let temp3 := _mm_xor_si128 temp3 temp4 in
  let temp3 := _mm_xor_si128 temp3 temp2 in
  temp3.

(** The first half of the statements repeated for each round constant. *)
Definition expand_256_first (i rcon : Z) (s : m128 * m128 * list Z) : m128 * m128 * list Z :=
  let '(temp1, temp3, key) := s in
  let temp2 := _mm_aeskeygenassist_si128 temp3 rcon in
  let '(temp1, temp2) := KEY_256_ASSIST_1 temp1 temp2 in
  (temp1, temp3, ks_set key i temp1).

Definition expand_256_step (s : m128 * m128 * list Z) (ir : Z * Z) : m128 * m128 * list Z :=
  let '(i, rcon) := ir in
  let '(temp1, temp3, key) := expand_256_first i rcon s in
  let temp3 := KEY_256_ASSIST_2 temp1 temp3 in
  (temp1, temp3, ks_set key (i + 1) temp3).

Definition AES_256_Key_Expansion (userkey key : list Z) : list Z :=
  let temp1 := _mm_loadu_si128 userkey 0 in
  let temp3 := _mm_loadu_si128 userkey 16 in
  let key := ks_set key 0 temp1 in
  let key := ks_set key 1 temp3 in
  let s := fold_left expand_256_step
    [(2, 0x01); (4, 0x02); (6, 0x04); (8, 0x08); (10, 0x10); (12, 0x20)] (temp1, temp3, key) in
  snd (expand_256_first 14 0x40 s).

(** The schedule of the equivalent inverse cipher: the round keys backwards, all
    but the first and the last through InvMixColumns.  The copy reads 240 bytes,
    of which an aes128_ctx has 176; what it reads beyond them is not used. *)
Definition AES128_expand_key (key : list Z) (nr : Z) : list Z :=
  let temp_key := take 240 key in
  let key := ks_set key nr (ks_get temp_key 0) in
  let imc key i := ks_set key (nr - i) (_mm_aesimc_si128 (ks_get temp_key i)) in
  let key := fold_left imc [1; 2; 3; 4; 5; 6; 7; 8; 9] key in
  let key := if 10 <? nr then fold_left imc [10; 11; 12; 13] key else key in
  ks_set key 0 (ks_get temp_key nr).

(** The result and the schedule. *)
Definition AES_expand_key (userkey key : list Z) (bits : Z) (encrypt : bool) : Z * list Z :=
  let run nr key := (0, if encrypt then key else AES128_expand_key key nr) in
  if bits =? 256 then run 14 (AES_256_Key_Expansion userkey key)
  else if bits =? 128 then run 10 (AES_128_Key_Expansion userkey key)
  else (EINVAL, key).

(** ** ECB blocks *)

Definition AES128_ECB_encrypt_block (input key : list Z) : list Z :=
  let tmp := _mm_loadu_si128 input 0 in
  let tmp := _mm_xor_si128 tmp (ks_get key 0) in
  let tmp := fold_left (fun tmp i => _mm_aesenc_si128 tmp (ks_get key i)) [1; 2; 3; 4; 5; 6; 7; 8; 9] tmp in
  _mm_aesenclast_si128 tmp (ks_get key 10).

Definition AES128_ECB_decrypt_block (input key : list Z) : list Z :=
  let tmp := _mm_loadu_si128 input 0 in
  let tmp := _mm_xor_si128 tmp (ks_get key 0) in
  let tmp := fold_left (fun tmp i => _mm_aesdec_si128 tmp (ks_get key i)) [1; 2; 3; 4; 5; 6; 7; 8; 9] tmp in
  _mm_aesdeclast_si128 tmp (ks_get key 10).

(** ** CBC *)

(** The loop over the blocks: the feedback and the bytes written. *)
Fixpoint cbc_encrypt_blocks (key : list Z) (Nr : Z) (blocks : nat) (feedback input : list Z)
    : list Z * list Z :=
  match blocks with
  | O => (feedback, [])
  | S blocks =>
      let data := _mm_loadu_si128 input 0 in
      let feedback := _mm_xor_si128 data feedback in
      let feedback := _mm_xor_si128 feedback (ks_get key 0) in
      let feedback := fold_left (fun f j => _mm_aesenc_si128 f (ks_get key j)) (seqZ 1 (Nr - 1)) feedback in
      let feedback := _mm_aesenclast_si128 feedback (ks_get key Nr) in
      let '(last, rest) := cbc_encrypt_blocks key Nr blocks feedback (drop 16 input) in
      (last, feedback ++ rest)
  end.

(** The input block is loaded before the output block is stored, so that the two
    buffers may be the same. *)
Fixpoint cbc_decrypt_blocks (key : list Z) (Nr : Z) (blocks : nat) (feedback input : list Z)
    : list Z * list Z :=
  match blocks with
  | O => (feedback, [])
  | S blocks =>
      let last_in := _mm_loadu_si128 input 0 in
      let data := _mm_xor_si128 last_in (ks_get key 0) in
      let data := fold_left (fun d j => _mm_aesdec_si128 d (ks_get key j)) (seqZ 1 (Nr - 1)) data in
      let data := _mm_aesdeclast_si128 data (ks_get key Nr) in
      let data := _mm_xor_si128 data feedback in
      let '(last, rest) := cbc_decrypt_blocks key Nr blocks last_in (drop 16 input) in
      (last, data ++ rest)
  end.

Definition x86_CBC_encrypt_blocks (ctx : aes_cbc_ctx) (input : list Z) (blocks : Z)
    : aes_cbc_ctx * list Z :=
  let '(iv, out) := cbc_encrypt_blocks (cbc_roundkey ctx) (Nr ctx) (Z.to_nat blocks)
    (_mm_loadu_si128 (ivec ctx) 0) input in
  (set_ivec ctx iv, out).

Definition x86_CBC_decrypt_blocks (ctx : aes_cbc_ctx) (input : list Z) (blocks : Z)
    : aes_cbc_ctx * list Z :=
  let '(iv, out) := cbc_decrypt_blocks (cbc_roundkey ctx) (Nr ctx) (Z.to_nat blocks)
    (_mm_loadu_si128 (ivec ctx) 0) input in
  (set_ivec ctx iv, out).

(** What aes-cbc.c calls: the round keys of a fresh context are zero. *)
Definition x86_cbc (ecx hw_aes_support : Z) : AesCbcHw := {|
  cbc_cpu_supports_aes := negb (cpu_supports_aes ecx hw_aes_support =? 0);
  cbc_AES_expand_key := fun key bits encrypt =>
    snd (AES_expand_key key (replicate 240 0) bits encrypt);
  AES_CBC_encrypt_blocks := x86_CBC_encrypt_blocks;
  AES_CBC_decrypt_blocks := x86_CBC_decrypt_blocks;
|}.

End x86.


(** ** Words as vectors *)

(** A key word as the four bytes the code takes from it, and four words as a vector. *)
Definition wbytes (w : Z) : list Z := [u8 (w .>> 24); u8 (w .>> 16); u8 (w .>> 8); u8 w].
Definition quad (w : list Z) (i : Z) : m128 :=
  wbytes (rd w i) ++ wbytes (rd w (i + 1)) ++ wbytes (rd w (i + 2)) ++ wbytes (rd w (i + 3)).

Lemma u8_lxor x y : u8 (x .^ y) = u8 x .^ u8 y.
Proof.
  apply Z.bits_inj'. intros i Hi. rewrite Z.lxor_spec, !u8_spec, Z.lxor_spec by done. btauto.
Qed.

Lemma wbytes_lxor x y : wbytes (x .^ y) = zip_with Z.lxor (wbytes x) (wbytes y).
Proof. unfold wbytes. by rewrite !Z.shiftr_lxor, !u8_lxor. Qed.

Lemma wbytes_bytes w : Forall is_byte (wbytes w).
Proof. unfold wbytes. repeat constructor; apply fits_u8. Qed.

Lemma quad_bytes w i : Forall is_byte (quad w i).
Proof. unfold quad. rewrite !Forall_app. auto using wbytes_bytes. Qed.

Lemma length_quad w i : length (quad w i) = 16%nat.
Proof. done. Qed.

(** The nibbles by which SubWord indexes the box are those of the bytes. *)
Lemma SubWord_byte w k j :
  0 <= k -> j = k + 4 -> rd2 aes_sbox ((w .>> j) .& 0x0F) ((w .>> k) .& 0x0F) = rd sbox (u8 (w .>> k)).
Proof.
  intros Hk ->. rewrite <- nibbles_sbox by apply fits_u8. f_equal;
    apply Z.bits_inj'; intros i Hi; rewrite !Z.land_spec; change 0x0F with (Z.ones 4).
  - rewrite !Z.shiftr_spec, u8_spec, Z.shiftr_spec by lia.
    rewrite Z.testbit_ones_nonneg by lia. replace (i + 4 + k) with (i + (k + 4)) by lia.
    destruct (Z.ltb_spec i 4), (Z.ltb_spec (i + 4) 8); try lia; btauto.
  - rewrite u8_spec, Z.testbit_ones_nonneg by lia.
    destruct (Z.ltb_spec i 4), (Z.ltb_spec i 8); try lia; btauto.
Qed.

(** Four bytes put together by additions, as SubWord does. *)
Lemma wbytes_sum a b c d :
  is_byte a -> is_byte b -> is_byte c -> is_byte d ->
  wbytes (u32 (u32 (u32 (d + (c .<< 8)) + (b .<< 16)) + (a .<< 24))) = [a; b; c; d].
Proof.
  unfold fits, wbytes, u8, u32. intros. rewrite !Z.shiftl_mul_pow2, !Z.shiftr_div_pow2 by lia.
  change (2 ^ 8) with 256 in *. change (2 ^ 16) with 65536. change (2 ^ 24) with 16777216.
  change (2 ^ 32) with 4294967296.
  rewrite (Z.mod_small (d + c * 256)), (Z.mod_small (d + c * 256 + b * 65536)), (Z.mod_small _ 4294967296) by lia.
  repeat (apply (f_equal2 cons)); try done; Z.to_euclidean_division_equations; lia.
Qed.

Lemma wbytes_SubWord w : wbytes (SubWord w) = sub_dword (wbytes w).
Proof.
  unfold SubWord.
  rewrite (SubWord_byte w 8), (SubWord_byte w 16), (SubWord_byte w 24) by done.
  pose proof (SubWord_byte w 0 4) as E. rewrite Z.shiftr_0_r in E. rewrite E by done.
  rewrite wbytes_sum by auto with samlib. done.
Qed.

Lemma wbytes_ROTWORD w : is_u32 w -> wbytes (KE_ROTWORD w) = rot_dword (wbytes w).
Proof.
  intros Hw. unfold KE_ROTWORD, wbytes, rot_dword. cbn [drop take app].
  assert (E : forall i, 32 <= i -> Z.testbit w i = false)
    by (intros; apply (testbit_high 32); [done|lia]).
  repeat (apply (f_equal2 cons)); try done; apply Z.bits_inj'; intros i Hi;
    rewrite ?u8_spec, ?Z.shiftr_spec, ?Z.lor_spec, ?u32_spec, ?Z.shiftl_spec, ?Z.shiftr_spec by lia;
    destruct (Z.ltb_spec i 8); [|done| |done| |done| |done]; cbn [andb];
    repeat match goal with |- context [?a <? 32] => destruct (Z.ltb_spec a 32); try lia end;
    cbn [andb]; rewrite ?(Z.testbit_neg_r w) by lia;
    rewrite ?(E (_ + 24)) by lia; rewrite ?orb_false_r, ?orb_false_l; f_equal; lia.
Qed.

Lemma wbytes_rcon r : is_byte r -> wbytes (r .<< 24) = [r; 0; 0; 0].
Proof.
  unfold fits, wbytes, u8. intros. rewrite !Z.shiftl_mul_pow2, !Z.shiftr_div_pow2 by lia.
  change (2 ^ 8) with 256 in *. change (2 ^ 16) with 65536. change (2 ^ 24) with 16777216.
  repeat (apply (f_equal2 cons)); try done; Z.to_euclidean_division_equations; lia.
Qed.

(** The chain of exclusive-ors: each word of the new vector is the word of the old
    one with the new word before it. *)
Lemma assist_words a b c d x y z t :
  AES_128_ASSIST (wbytes a ++ wbytes b ++ wbytes c ++ wbytes d)
      (wbytes x ++ wbytes y ++ wbytes z ++ wbytes t)
  = wbytes (a .^ t) ++ wbytes (b .^ (a .^ t)) ++ wbytes (c .^ (b .^ (a .^ t)))
    ++ wbytes (d .^ (c .^ (b .^ (a .^ t)))).
Proof.
  rewrite !wbytes_lxor.
  cbv [AES_128_ASSIST _mm_xor_si128 _mm_shuffle_epi32 _mm_slli_si128 dword wbytes].
  cbn -[Z.lxor u8 Z.shiftr].
  repeat (apply (f_equal2 cons)); try done; xor_ring.
Qed.

(** ** The software key schedule, as equations *)

(** What the step adds to the word [Nk] back. *)
Definition setup_temp (Nk idx temp : Z) : Z :=
  if idx mod Nk =? 0 then SubWord (KE_ROTWORD temp) .^ rd Rcon32 ((idx - 1) / Nk)
  else if (6 <? Nk) && (idx mod Nk =? 4) then SubWord temp
  else temp.

Lemma key_setup_fold Nk n w :
  0 < Nk -> 0 <= n -> Nk + n <= zlen w ->
  let w' := fold_left (key_setup_step Nk) (seqZ Nk n) w in
  length w' = length w /\
  (forall i, 0 <= i < Nk -> rd w' i = rd w i) /\
  (forall i, Nk <= i < Nk + n -> rd w' i = rd w' (i - Nk) .^ setup_temp Nk i (rd w' (i - 1))).
Proof.
  intros HNk Hn. revert n Hn. refine (natlike_ind _ _ _).
  - intros _. split; [done|]. split; [done|]. intros i Hi. lia.
  - intros n Hn IH Hlen. rewrite <- Z.add_1_r, seqZ_snoc by done. rewrite fold_left_app. cbn [fold_left].
    destruct IH as (Hl & Hlow & Heq); [lia|]. set (w1 := fold_left _ _ _) in *.
    unfold key_setup_step. fold (setup_temp Nk (Nk + n) (rd w1 (Nk + n - 1))).
    set (v := rd w1 (Nk + n - Nk) .^ _).
    assert (Hz : zlen w1 = zlen w) by (unfold zlen; lia).
    split; [by rewrite length_wr|]. split; intros i Hi.
    + rewrite rd_wr_ne by lia. by apply Hlow.
    + rewrite !(rd_wr_ne _ _ (i - _)) by lia.
      destruct (decide (i = Nk + n)) as [-> | Hne].
      * by rewrite rd_wr_eq by lia.
      * rewrite rd_wr_ne by lia. apply Heq. lia.
Qed.

(** The first loop, and the length of the schedule. *)
Lemma key_words_fold key n w :
  0 <= n <= zlen w ->
  let w' := fold_left (fun w idx => wr w idx (key_word key idx)) (seqZ 0 n) w in
  length w' = length w /\ (forall i, 0 <= i < n -> rd w' i = key_word key i).
Proof.
  intros [Hn Hlen]. revert n Hn Hlen. refine (natlike_ind _ _ _).
  - intros _. split; [done|]. intros i Hi. lia.
  - intros n Hn IH Hlen. rewrite <- Z.add_1_r, seqZ_snoc by done. rewrite fold_left_app. cbn [fold_left].
    destruct IH as (Hl & Heq); [lia|]. set (w1 := fold_left _ _ _) in *.
    split; [by rewrite length_wr|]. intros i Hi.
    destruct (decide (i = 0 + n)) as [-> | Hne].
    + apply rd_wr_eq. unfold zlen in *. lia.
    + rewrite rd_wr_ne by lia. apply Heq. lia.
Qed.

Lemma aes_key_setup_eq key ks Nk Nr :
  (ks = 128 /\ Nk = 4 /\ Nr = 10) \/ (ks = 256 /\ Nk = 8 /\ Nr = 14) ->
  let w := aes_key_setup key (replicate 60 0) ks in
  (forall i, 0 <= i < Nk -> rd w i = key_word key i) /\
  (forall i, Nk <= i < 4 * (Nr + 1) -> rd w i = rd w (i - Nk) .^ setup_temp Nk i (rd w (i - 1))).
Proof.
  intros Hc.
  assert (E : aes_key_setup key (replicate 60 0) ks =
    fold_left (key_setup_step Nk) (seqZ Nk (4 * (Nr + 1) - Nk))
      (fold_left (fun w idx => wr w idx (key_word key idx)) (seqZ 0 Nk) (replicate 60 0)))
    by by destruct Hc as [(-> & -> & ->)|(-> & -> & ->)].
  intros w. unfold w. rewrite E. clear w E. set (z := replicate 60 0). assert (Hz : length z = 60%nat) by done.
  clearbody z.
  destruct (key_words_fold key Nk z) as (Hl & H1); [unfold zlen; lia|].
  set (w1 := fold_left _ (seqZ 0 Nk) z) in *. clearbody w1.
  destruct (key_setup_fold Nk (4 * (Nr + 1) - Nk) w1) as (_ & H2 & H3); [unfold zlen; lia..|].
  split; intros i Hi.
  - rewrite H2 by done. by apply H1.
  - apply H3. lia.
Qed.

Lemma setup_temp_u32 Nk idx t : is_u32 t -> is_u32 (setup_temp Nk idx t).
Proof.
  intros Ht. unfold setup_temp, SubWord.
  assert (Hr : is_u32 (rd Rcon32 ((idx - 1) / Nk))).
  { apply rd_Forall; [by apply fits_0|]. repeat constructor; unfold fits; lia. }
  destruct (_ =? 0); [auto with samlib|]. destruct (_ && _); auto with samlib.
Qed.

Lemma aes_key_setup_u32 key ks Nk Nr :
  (ks = 128 /\ Nk = 4 /\ Nr = 10) \/ (ks = 256 /\ Nk = 8 /\ Nr = 14) ->
  forall i, 0 <= i < 4 * (Nr + 1) -> is_u32 (rd (aes_key_setup key (replicate 60 0) ks) i).
Proof.
  intros Hc i. destruct (aes_key_setup_eq key ks Nk Nr Hc) as [H1 H2]. revert H1 H2.
  generalize (aes_key_setup key (replicate 60 0) ks). intros w H1 H2.
  induction i as [i IH] using (well_founded_induction (Z.lt_wf 0)). intros Hi.
  destruct (Z.lt_ge_cases i Nk).
  - rewrite H1 by lia. apply fits_u32.
  - rewrite H2 by lia. assert (0 < Nk) by lia.
    apply fits_lxor; [done|apply IH; lia|]. apply setup_temp_u32, IH; lia.
Qed.

(** A vector of key bytes as the words the software takes from them. *)
Lemma wbytes_key_word key i :
  Forall is_byte key -> wbytes (key_word key i) =
    [rd key (4 * i); rd key (4 * i + 1); rd key (4 * i + 2); rd key (4 * i + 3)].
Proof.
  intros Hk. unfold key_word, wbytes.
  assert (G : forall j, is_byte (rd key j)) by (intros; by apply rd_byte).
  generalize (G (4 * i)), (G (4 * i + 1)), (G (4 * i + 2)), (G (4 * i + 3)).
  generalize (rd key (4 * i)), (rd key (4 * i + 1)), (rd key (4 * i + 2)), (rd key (4 * i + 3)).
  clear G. intros a b c d Ha Hb Hc Hd.
  assert (Out : forall x j, is_byte x -> j < 0 \/ 8 <= j -> Z.testbit x j = false).
  { intros x j Hx [Hj|Hj]; [by apply Z.testbit_neg_r|by apply (testbit_high 8)]. }
  assert (E : forall k x, 0 <= k <= 24 -> is_byte x ->
    (forall j, 0 <= j < 8 -> Z.testbit ((a .<< 24) .| (b .<< 16) .| (c .<< 8) .| d) (j + k)
      = Z.testbit x j) ->
    u8 (u32 ((a .<< 24) .| (b .<< 16) .| (c .<< 8) .| d) .>> k) = x).
  { intros k x Hk' Hx Hbits. apply Z.bits_inj'. intros j Hj. rewrite u8_spec by lia.
    destruct (Z.ltb_spec j 8); cbn [andb].
    - rewrite Z.shiftr_spec, u32_spec by lia. destruct (Z.ltb_spec (j + k) 32); [|lia].
      by apply Hbits.
    - symmetry. by apply (testbit_high 8). }
  rewrite <- (Z.shiftr_0_r (u32 _)) at 4.
  repeat (apply (f_equal2 cons)); try done; apply E; try done; intros j Hj;
    rewrite !Z.lor_spec, !Z.shiftl_spec by lia.
  - rewrite (Out b), (Out c), (Out d) by (done || lia). rewrite !orb_false_r. f_equal. lia.
  - rewrite (Out a), (Out c), (Out d) by (done || lia). rewrite !orb_false_r. cbn. f_equal. lia.
  - rewrite (Out a), (Out b), (Out d) by (done || lia). rewrite !orb_false_r. cbn. f_equal. lia.
  - rewrite (Out a), (Out b), (Out c) by (done || lia). cbn. f_equal. lia.
Qed.

Lemma loadu_words key w i :
  Forall is_byte key -> 0 <= i -> 16 * i + 16 <= zlen key ->
  (forall j, 4 * i <= j < 4 * i + 4 -> rd w j = key_word key j) ->
  _mm_loadu_si128 key (16 * i) = quad w (4 * i).
Proof.
  intros Hk Hi Hlen Hw. unfold quad. rewrite !Hw, !wbytes_key_word by (done || lia).
  unfold _mm_loadu_si128, rd, zlen in *. cbn [app].
  apply (list_eq_same_length _ _ 16); [done|rewrite length_take, length_drop; lia|].
  intros n x y Hn. rewrite lookup_take_lt, lookup_drop by done. intros Hx.
  apply (nth_lookup_Some _ _ 0) in Hx. subst x.
  do 16 (destruct n as [|n]; [intros [= <-]; f_equal; lia|]). lia.
Qed.

(** ** The hardware key schedule *)

Section instructions.
Context {_mm_aesenc_si128 _mm_aesenclast_si128 _mm_aesdec_si128 _mm_aesdeclast_si128 : m128 -> m128 -> m128}
  {_mm_aesimc_si128 : m128 -> m128} {_mm_aeskeygenassist_si128 : m128 -> Z -> m128}.
Context `{instr : !AesInstructions _mm_aesenc_si128 _mm_aesenclast_si128 _mm_aesdec_si128
  _mm_aesdeclast_si128 _mm_aesimc_si128 _mm_aeskeygenassist_si128}.

#[local] Abbreviation expand_128 := (expand_128_step _mm_aeskeygenassist_si128).
#[local] Abbreviation expand_256 := (expand_256_step _mm_aeskeygenassist_si128).
#[local] Abbreviation keygenassist := _mm_aeskeygenassist_si128.

Lemma length_ks_set key i v :
  0 <= i -> 16 * i + 16 <= zlen key -> length v = 16%nat -> length (ks_set key i v) = length key.
Proof. intros. apply length_splice; unfold zlen in *; lia. Qed.

Lemma ks_get_set_eq key i v :
  0 <= i -> 16 * i + 16 <= zlen key -> length v = 16%nat -> ks_get (ks_set key i v) i = v.
Proof.
  intros Hi Hk Hv. unfold ks_get, ks_set, _mm_loadu_si128, splice, zlen in *.
  rewrite drop_app_length' by (rewrite length_take; lia). by apply take_app_length'.
Qed.

Lemma ks_get_set_ne key i j v :
  0 <= i -> 0 <= j -> i <> j -> 16 * i + 16 <= zlen key -> length v = 16%nat ->
  ks_get (ks_set key i v) j = ks_get key j.
Proof.
  intros Hi Hj Hne Hk Hv. unfold ks_get, ks_set, _mm_loadu_si128, splice, zlen in *.
  destruct (Z.lt_ge_cases j i).
  - rewrite drop_app_le by (rewrite length_take; lia).
    rewrite take_app_le by (rewrite length_drop, length_take; lia).
    replace (Z.to_nat (16 * i)) with (Z.to_nat (16 * j) + Z.to_nat (16 * (i - j)))%nat by lia.
    rewrite <- take_drop_commute, take_take. f_equal. lia.
  - rewrite drop_app_ge by (rewrite length_take; lia).
    rewrite drop_app_ge by (rewrite length_take; lia).
    rewrite drop_drop, length_take. do 2 f_equal. lia.
Qed.

(** The instruction on words. *)
Lemma keygenassist_quad w i rcon :
  is_u32 (rd w (i + 1)) -> is_u32 (rd w (i + 3)) -> is_byte rcon ->
  keygenassist (quad w i) rcon =
    wbytes (SubWord (rd w (i + 1))) ++ wbytes (SubWord (KE_ROTWORD (rd w (i + 1))) .^ (rcon .<< 24))
    ++ wbytes (SubWord (rd w (i + 3))) ++ wbytes (SubWord (KE_ROTWORD (rd w (i + 3))) .^ (rcon .<< 24)).
Proof using instr.
  intros H1 H3 Hr. rewrite (aeskeygenassist_doc (quad w i)) by auto using quad_bytes.
  by rewrite !wbytes_lxor, !wbytes_SubWord, !wbytes_ROTWORD, wbytes_rcon by done.
Qed.

Lemma shuffle_aa x y z t :
  _mm_shuffle_epi32 (wbytes x ++ wbytes y ++ wbytes z ++ wbytes t) 0xaa
  = wbytes z ++ wbytes z ++ wbytes z ++ wbytes z.
Proof. reflexivity. Qed.

Lemma shuffle_ff x y z t :
  _mm_shuffle_epi32 (wbytes x ++ wbytes y ++ wbytes z ++ wbytes t) 0xff
  = wbytes t ++ wbytes t ++ wbytes t ++ wbytes t.
Proof. reflexivity. Qed.

(** Four equations of the software schedule make one assist. *)
Lemma assist_quad w p q t v :
  rd w p = rd w q .^ t -> rd w (p + 1) = rd w (q + 1) .^ rd w p ->
  rd w (p + 2) = rd w (q + 2) .^ rd w (p + 1) -> rd w (p + 3) = rd w (q + 3) .^ rd w (p + 2) ->
  (exists x y z, v = wbytes x ++ wbytes y ++ wbytes z ++ wbytes t) ->
  AES_128_ASSIST (quad w q) v = quad w p.
Proof.
  intros E0 E1 E2 E3 (x & y & z & ->). unfold quad.
  rewrite assist_words, E3, E2, E1, E0. done.
Qed.

Definition rcon_byte (i : Z) : Z := rd [0x1; 0x2; 0x4; 0x8; 0x10; 0x20; 0x40; 0x80; 0x1b; 0x36] (i - 1).

Lemma rcon_byte_Rcon32 i : 1 <= i <= 10 -> rd Rcon32 (i - 1) = rcon_byte i .<< 24 /\ is_byte (rcon_byte i).
Proof.
  intros Hi. assert (E : i = 1 \/ i = 2 \/ i = 3 \/ i = 4 \/ i = 5 \/ i = 6 \/ i = 7 \/ i = 8 \/ i = 9 \/ i = 10) by lia.
  repeat (destruct E as [-> | E]; [by split|]). subst i. by split.
Qed.

Section schedule.
Context (key w : list Z) (Nk Nr : Z).
Context (HNk : (Nk = 4 /\ Nr = 10) \/ (Nk = 8 /\ Nr = 14)).
Context (Hkey : Forall is_byte key) (Hlen : zlen key = 4 * Nk).
Context (Hw : forall i, 0 <= i < 4 * (Nr + 1) -> is_u32 (rd w i)).
Context (Hw0 : forall i, 0 <= i < Nk -> rd w i = key_word key i).
Context (Hwi : forall i, Nk <= i < 4 * (Nr + 1) ->
  rd w i = rd w (i - Nk) .^ setup_temp Nk i (rd w (i - 1))).

(** The words that are not the first of a vector. *)
Lemma setup_plain g k : 0 < k < 4 -> Nk <= 4 * g -> g <= Nr ->
  rd w (4 * g + k) = rd w (4 * g - Nk + k) .^ rd w (4 * g + k - 1).
Proof using All.
  intros Hk Hg HNr. rewrite Hwi by lia. f_equal; [f_equal; lia|].
  unfold setup_temp.
  destruct (Z.eqb_spec ((4 * g + k) mod Nk) 0) as [E|_].
  { exfalso. destruct HNk as [[-> ->]|[-> ->]]; Z.to_euclidean_division_equations; lia. }
  destruct (Z.eqb_spec ((4 * g + k) mod Nk) 4) as [E|_]; [|by rewrite andb_false_r].
  exfalso. destruct HNk as [[-> ->]|[-> ->]]; Z.to_euclidean_division_equations; lia.
Qed.

Lemma assist_schedule g v :
  Nk <= 4 * g -> g <= Nr ->
  (exists x y z, v = wbytes x ++ wbytes y ++ wbytes z ++ wbytes (setup_temp Nk (4 * g) (rd w (4 * g - 1)))) ->
  AES_128_ASSIST (quad w (4 * g - Nk)) v = quad w (4 * g).
Proof using All.
  intros Hg HNr Hv. eapply assist_quad; [|..|exact Hv].
  - apply Hwi. lia.
  - rewrite setup_plain by lia. do 2 f_equal. lia.
  - rewrite setup_plain by lia. do 2 f_equal. lia.
  - rewrite setup_plain by lia. do 2 f_equal. lia.
Qed.

(** Vectors whose first word takes a rotation and a round constant. *)
Lemma assist_rot g i :
  Nk <= 4 * g -> g <= Nr -> 4 * g = Nk * i -> 1 <= i <= 10 ->
  AES_128_ASSIST (quad w (4 * g - Nk)) (keygenassist (quad w (4 * (g - 1))) (rcon_byte i)) = quad w (4 * g).
Proof using All.
  intros Hg HNr Hgi Hi. destruct (rcon_byte_Rcon32 i Hi) as [E Hb].
  apply assist_schedule; [done..|].
  rewrite keygenassist_quad by (done || (apply Hw; lia)).
  eexists _, _, _. do 4 f_equal.
  unfold setup_temp. replace (4 * g) with (i * Nk) by lia. rewrite Z_mod_mult.
  replace (4 * (g - 1) + 3) with (i * Nk - 1) by lia. cbn [Z.eqb].
  replace ((i * Nk - 1) / Nk) with (i - 1).
  - by rewrite E.
  - destruct HNk as [[-> ->]|[-> ->]]; Z.to_euclidean_division_equations; lia.
Qed.

(** The other vectors of the 256-bit schedule. *)
Lemma assist_sub g :
  Nk = 8 -> 2 <= g <= Nr -> g mod 2 = 1 ->
  KEY_256_ASSIST_2 keygenassist (quad w (4 * (g - 1))) (quad w (4 * g - Nk)) = quad w (4 * g).
Proof using All.
  intros H8 Hg Hodd.
  transitivity (AES_128_ASSIST (quad w (4 * g - Nk))
    (_mm_shuffle_epi32 (keygenassist (quad w (4 * (g - 1))) 0) 0xaa)).
  - unfold KEY_256_ASSIST_2, AES_128_ASSIST.
    rewrite keygenassist_quad by ((by apply fits_0) || (apply Hw; lia)).
    by rewrite shuffle_aa, shuffle_ff.
  - apply assist_schedule; [lia..|].
    rewrite keygenassist_quad by ((by apply fits_0) || (apply Hw; lia)).
    rewrite shuffle_aa. eexists _, _, _. do 4 f_equal.
    unfold setup_temp. subst Nk.
    replace ((4 * g) mod 8) with 4 by (Z.to_euclidean_division_equations; lia).
    cbn. by replace (4 * (g - 1) + 3) with (4 * g - 1) by lia.
Qed.

(** A buffer that holds the first [n] vectors of the schedule. *)
Definition holds (buf ks : list Z) (n : Z) : Prop :=
  length ks = length buf /\ forall g, 0 <= g < n -> ks_get ks g = quad w (4 * g).

Lemma holds_set buf ks n :
  0 <= n -> 16 * (n + 1) <= zlen buf -> holds buf ks n ->
  holds buf (ks_set ks n (quad w (4 * n))) (n + 1).
Proof using All.
  intros Hn Hb [Hl H]. assert (Hz : zlen ks = zlen buf) by (unfold zlen; lia). split.
  - by rewrite length_ks_set by (done || lia).
  - intros g Hg. destruct (decide (g = n)) as [-> | Hne].
    + by rewrite ks_get_set_eq by (done || lia).
    + rewrite ks_get_set_ne by (done || lia). apply H. lia.
Qed.

Lemma expand_128_fold buf n :
  Nk = 4 -> 176 <= zlen buf -> 0 <= n -> n <= 10 ->
  let s := fold_left expand_128 (map (fun i => (i, rcon_byte i)) (seqZ 1 n))
    (quad w 0, ks_set buf 0 (quad w 0)) in
  fst s = quad w (4 * n) /\ holds buf (snd s) (n + 1).
Proof using All.
  intros H4 Hb Hn. revert n Hn. refine (natlike_ind _ _ _).
  - intros _. split; [done|]. apply (holds_set buf buf 0); [lia..|]. split; [done|]. intros g Hg. lia.
  - intros n Hn IH Hle. rewrite <- !Z.add_1_r, seqZ_snoc, map_app, fold_left_app by done.
    cbn [map fold_left]. destruct IH as [H1 H2]; [lia|].
    destruct (fold_left _ _ _) as [t1 ks]. cbn [fst snd] in *. subst t1.
    unfold expand_128_step. replace (1 + n) with (n + 1) by lia.
    pose proof (assist_rot (n + 1) (n + 1)) as E.
    replace (4 * (n + 1 - 1)) with (4 * n) in E by lia.
    replace (4 * (n + 1) - Nk) with (4 * n) in E by lia.
    rewrite E by lia. cbn [fst snd]. split; [done|].
    apply (holds_set buf ks (n + 1)); [destruct H2; lia..|done].
Qed.

Lemma expand_256_first_quad buf ks i :
  Nk = 8 -> 240 <= zlen buf -> 1 <= i <= 7 -> holds buf ks (2 * i) ->
  exists ks', expand_256_first keygenassist (2 * i) (rcon_byte i)
      (quad w (4 * (2 * i - 2)), quad w (4 * (2 * i - 1)), ks)
    = (quad w (4 * (2 * i)), quad w (4 * (2 * i - 1)), ks') /\ holds buf ks' (2 * i + 1).
Proof using All.
  intros H8 Hb Hi Hks. pose proof (assist_rot (2 * i) i) as E.
  replace (4 * (2 * i) - Nk) with (4 * (2 * i - 2)) in E by lia.
  unfold expand_256_first, KEY_256_ASSIST_1. cbv zeta.
  change (AES_128_ASSIST ?a ?b) with (AES_128_ASSIST a b) in E.
  unfold AES_128_ASSIST in E. rewrite E by lia.
  eexists. split; [done|]. apply (holds_set buf ks (2 * i)); [lia..|done].
Qed.

Lemma expand_256_fold buf n :
  Nk = 8 -> 240 <= zlen buf -> 0 <= n -> n <= 6 ->
  let s := fold_left expand_256 (map (fun i => (2 * i, rcon_byte i)) (seqZ 1 n))
    (quad w 0, quad w 4, ks_set (ks_set buf 0 (quad w 0)) 1 (quad w 4)) in
  exists ks, s = (quad w (4 * (2 * n)), quad w (4 * (2 * n + 1)), ks) /\ holds buf ks (2 * n + 2).
Proof using All.
  intros H8 Hb Hn. revert n Hn. refine (natlike_ind _ _ _).
  - intros _. eexists. split; [done|]. apply (holds_set buf _ 1); [lia..|].
    apply (holds_set buf buf 0); [lia..|]. split; [done|]. intros g Hg. lia.
  - intros n Hn IH Hle. rewrite <- !Z.add_1_r, seqZ_snoc, map_app, fold_left_app by done.
    cbn [map fold_left]. destruct IH as (ks & -> & Hks); [lia|].
    unfold expand_256_step. replace (1 + n) with (n + 1) by lia.
    destruct (expand_256_first_quad buf ks (n + 1)) as (ks' & E & Hks'); [lia..|
      by replace (2 * (n + 1)) with (2 * n + 2) by lia|].
    replace (2 * (n + 1) - 2) with (2 * n) in E by lia.
    replace (2 * (n + 1) - 1) with (2 * n + 1) in E by lia. rewrite E. clear E.
    pose proof (assist_sub (2 * (n + 1) + 1)) as E.
    replace (4 * (2 * (n + 1) + 1) - Nk) with (4 * (2 * n + 1)) in E by lia.
    replace (4 * (2 * (n + 1) + 1 - 1)) with (4 * (2 * (n + 1))) in E by lia.
    rewrite E by (lia || (Z.to_euclidean_division_equations; lia)).
    eexists. split; [done|]. replace (2 * (n + 1) + 2) with (2 * (n + 1) + 1 + 1) by lia.
    by apply (holds_set buf ks'); [lia..|].
Qed.

Lemma load_quad o p i :
  o = 16 * i -> p = 4 * i -> 0 <= i -> 16 * (i + 1) <= zlen key ->
  _mm_loadu_si128 key o = quad w p.
Proof using All.
  intros -> -> Hi Hl. apply loadu_words; [done|done|lia|]. intros j Hj. apply Hw0. lia.
Qed.

Lemma AES_128_Key_Expansion_quads buf :
  Nk = 4 -> 176 <= zlen buf -> holds buf (AES_128_Key_Expansion keygenassist key buf) 11.
Proof using All.
  intros H4 Hb. unfold AES_128_Key_Expansion. rewrite (load_quad 0 0 0) by lia.
  apply (expand_128_fold buf 10); lia.
Qed.

Lemma AES_256_Key_Expansion_quads buf :
  Nk = 8 -> 240 <= zlen buf -> holds buf (AES_256_Key_Expansion keygenassist key buf) 15.
Proof using All.
  intros H8 Hb. unfold AES_256_Key_Expansion. rewrite (load_quad 0 0 0), (load_quad 16 4 1) by lia.
  destruct (expand_256_fold buf 6) as (ks & E & Hks); [lia..|].
  change [(2, 0x01); (4, 0x02); (6, 0x04); (8, 0x08); (10, 0x10); (12, 0x20)] with
    (map (fun i => (2 * i, rcon_byte i)) (seqZ 1 6)).
  rewrite E.
  destruct (expand_256_first_quad buf ks 7) as (ks' & E' & Hks'); [lia..|done|].
  rewrite (E' : expand_256_first keygenassist 14 0x40
    (quad w (4 * (2 * 6)), quad w (4 * (2 * 6 + 1)), ks) = _). done.
Qed.
End schedule.

(** ** Rounds *)

Lemma AddRoundKey_quad st w i :
  _mm_xor_si128 (store_state st) (quad w i) = store_state (AddRoundKey st w i).
Proof.
  destruct st. unfold AddRoundKey, quad, wbytes, subkey. rewrite Z.add_0_r. reflexivity.
Qed.

Lemma store_state_bytes st : mat_Forall is_byte st -> Forall is_byte (store_state st).
Proof. by destruct st. Qed.

Lemma SubBytes_ShiftRows st : SubBytes (ShiftRows st) = ShiftRows (SubBytes st).
Proof. by destruct st. Qed.

Lemma aesenc_round st w i :
  mat_Forall is_byte st ->
  _mm_aesenc_si128 (store_state st) (quad w i) = store_state (enc_round w st i).
Proof using instr.
  intros Hst. rewrite aesenc_doc by (by apply store_state_bytes || apply length_store_state).
  unfold on_state. by rewrite load_store_state, AddRoundKey_quad, SubBytes_ShiftRows.
Qed.

(** InvMixColumns is linear. *)
Lemma gf_mul_lxor x y j :
  is_byte x -> is_byte y -> 0 <= j < 6 -> rd2 gf_mul (x .^ y) j = rd2 gf_mul x j .^ rd2 gf_mul y j.
Proof.
  intros Hx Hy Hj. rewrite !gf_mul_entry by fits_auto.
  assert (E : j = 0 \/ j = 1 \/ j = 2 \/ j = 3 \/ j = 4 \/ j = 5) by lia.
  repeat (destruct E as [-> | E]); try subst j;
    cbv [rd Z.to_nat Pos.to_nat Pos.iter_op Nat.add nth];
    rewrite ?galois_mul2_lxor by fits_auto; rewrite ?galois_mul2_lxor by fits_auto;
    rewrite ?galois_mul2_lxor by fits_auto; xor_ring.
Qed.

Lemma InvMixColumn_lxor a b c d e f g h :
  col_Forall is_byte (a, b, c, d) -> col_Forall is_byte (e, f, g, h) ->
  InvMixColumn (a .^ e) (b .^ f) (c .^ g) (d .^ h) =
    let '(x0, x1, x2, x3) := InvMixColumn a b c d in
    let '(y0, y1, y2, y3) := InvMixColumn e f g h in
    (x0 .^ y0, x1 .^ y1, x2 .^ y2, x3 .^ y3).
Proof.
  intros (?&?&?&?) (?&?&?&?). cbv [InvMixColumn]. rewrite !gf_mul_lxor by (done || lia).
  repeat apply (f_equal2 pair); xor_ring.
Qed.

Lemma InvMixColumns_AddRoundKey st w i :
  mat_Forall is_byte st ->
  _mm_xor_si128 (store_state (InvMixColumns st)) (on_state InvMixColumns (quad w i))
  = store_state (InvMixColumns (AddRoundKey st w i)).
Proof.
  intros Hst. unfold on_state.
  pose proof (load_state_bytes (quad w i) (quad_bytes w i)) as Hq.
  rewrite <- (load_store_state (AddRoundKey st w i)), <- AddRoundKey_quad.
  rewrite <- (store_load_state (quad w i)) at 2 by done.
  generalize dependent (load_state (quad w i)). intros k Hk.
  destruct_mat st Hst. destruct_mat k Hk.
  cbv [store_state _mm_xor_si128 zip_with load_state rd Z.to_nat Pos.to_nat Pos.iter_op Nat.add nth].
  unfold InvMixColumns. rewrite !InvMixColumn_lxor by (repeat split_and; done).
  by repeat destruct (InvMixColumn _ _ _ _) as [[[? ?] ?] ?].
Qed.

Lemma InvShiftRows_bytes st : mat_Forall is_byte st -> mat_Forall is_byte (InvShiftRows st).
Proof. intros Hst. destruct_mat st Hst. cbv [InvShiftRows]. mat_bytes. Qed.

Lemma InvSubBytes_bytes st : mat_Forall is_byte st -> mat_Forall is_byte (InvSubBytes st).
Proof.
  intros Hst. destruct_mat st Hst. cbv [InvSubBytes].
  rewrite !nibbles_invsbox by done. mat_bytes.
Qed.

Lemma dec_round_bytes w st i : mat_Forall is_byte st -> mat_Forall is_byte (dec_round w st i).
Proof.
  intros Hst. unfold dec_round.
  auto using InvMixColumns_bytes, AddRoundKey_bytes, InvSubBytes_bytes, InvShiftRows_bytes.
Qed.

Lemma aesdec_round st w i :
  mat_Forall is_byte st ->
  _mm_aesdec_si128 (store_state st) (_mm_aesimc_si128 (quad w i)) = store_state (dec_round w st i).
Proof using instr.
  intros Hst. rewrite aesdec_doc by (by apply store_state_bytes || apply length_store_state).
  rewrite (aesimc_doc (quad w i)) by (apply quad_bytes || done).
  unfold on_state at 1. rewrite load_store_state.
  apply InvMixColumns_AddRoundKey. auto using InvSubBytes_bytes, InvShiftRows_bytes.
Qed.

(** ** Blocks *)

Definition hw_encrypt_block (key : list Z) (Nr : Z) (p : m128) : m128 :=
  _mm_aesenclast_si128
    (fold_left (fun f j => _mm_aesenc_si128 f (ks_get key j)) (seqZ 1 (Nr - 1))
      (_mm_xor_si128 p (ks_get key 0))) (ks_get key Nr).

Definition hw_decrypt_block (key : list Z) (Nr : Z) (c : m128) : m128 :=
  _mm_aesdeclast_si128
    (fold_left (fun d j => _mm_aesdec_si128 d (ks_get key j)) (seqZ 1 (Nr - 1))
      (_mm_xor_si128 c (ks_get key 0))) (ks_get key Nr).

(** The two schedules the instructions work with, from the words of the software. *)
Definition enc_schedule (ks : list Z) (Nr : Z) (w : list Z) : Prop :=
  forall g, 0 <= g <= Nr -> ks_get ks g = quad w (4 * g).
Definition dec_schedule (ks : list Z) (Nr : Z) (w : list Z) : Prop :=
  ks_get ks 0 = quad w (4 * Nr) /\ ks_get ks Nr = quad w 0 /\
  forall g, 0 < g < Nr -> ks_get ks g = _mm_aesimc_si128 (quad w (4 * (Nr - g))).

Definition valid_size (bits Nr : Z) : Prop := (bits = 128 /\ Nr = 10) \/ (bits = 256 /\ Nr = 14).

Lemma fold_store {A} (f : m128 -> A -> m128) (g : matrix -> A -> matrix) l st :
  (forall st a, a ∈ l -> mat_Forall is_byte st ->
     f (store_state st) a = store_state (g st a) /\ mat_Forall is_byte (g st a)) ->
  mat_Forall is_byte st ->
  fold_left f l (store_state st) = store_state (fold_left g l st)
  /\ mat_Forall is_byte (fold_left g l st).
Proof.
  revert st. induction l as [|a l IH]; intros st H Hst; [done|]. cbn.
  destruct (H st a) as [-> Hb]; [apply list_elem_of_here|done|].
  apply IH; [|done]. intros. apply H; [by apply list_elem_of_further|done].
Qed.

(** The software ciphers as loops over the round numbers. *)
Lemma fold_left_map_mul (f : matrix -> Z -> matrix) (g : Z -> Z) l st :
  fold_left (fun st j => f st (g j)) l st = fold_left f (map g l) st.
Proof. revert st. induction l as [|j l IH]; intros st; cbn; [done|apply IH]. Qed.

Lemma aes_encrypt_rounds bits Nr w p :
  valid_size bits Nr ->
  aes_encrypt p w bits =
    store_state (AddRoundKey (ShiftRows (SubBytes
      (fold_left (fun st j => enc_round w st (4 * j)) (seqZ 1 (Nr - 1))
        (AddRoundKey (load_state p) w 0)))) w (4 * Nr)).
Proof.
  intros [[-> ->]|[-> ->]]; unfold aes_encrypt; cbv zeta; cbn [Z.eqb Pos.eqb negb];
    rewrite (fold_left_map_mul (enc_round w) (fun j => 4 * j)).
  - change (map (fun j => 4 * j) (seqZ 1 (10 - 1))) with [4; 8; 12; 16; 20; 24; 28; 32; 36].
    change (4 * 10) with 40. reflexivity.
  - rewrite <- fold_left_app.
    change (map (fun j => 4 * j) (seqZ 1 (14 - 1))) with
      ([4; 8; 12; 16; 20; 24; 28; 32; 36] ++ [40; 44; 48; 52]).
    change (4 * 14) with 56. reflexivity.
Qed.

Lemma aes_decrypt_rounds bits Nr w c :
  valid_size bits Nr ->
  aes_decrypt c w bits =
    store_state (AddRoundKey (InvSubBytes (InvShiftRows
      (fold_left (fun st j => dec_round w st (4 * (Nr - j))) (seqZ 1 (Nr - 1))
        (AddRoundKey (load_state c) w (4 * Nr))))) w 0).
Proof.
  intros [[-> ->]|[-> ->]]; unfold aes_decrypt; cbv zeta; cbn [Z.eqb Pos.eqb negb];
    rewrite (fold_left_map_mul (dec_round w) (fun j => 4 * (_ - j))).
  - change (map (fun j => 4 * (10 - j)) (seqZ 1 (10 - 1))) with [36; 32; 28; 24; 20; 16; 12; 8; 4].
    change (4 * 10) with 40. reflexivity.
  - rewrite <- fold_left_app.
    change (map (fun j => 4 * (14 - j)) (seqZ 1 (14 - 1))) with
      ([52; 48; 44; 40] ++ [36; 32; 28; 24; 20; 16; 12; 8; 4]).
    change (4 * 14) with 56. reflexivity.
Qed.

Lemma hw_encrypt_block_eq ks bits Nr w p :
  valid_size bits Nr -> enc_schedule ks Nr w -> Forall is_byte p -> length p = 16%nat ->
  hw_encrypt_block ks Nr p = aes_encrypt p w bits.
Proof using instr.
  intros Hv Hks Hp Hl. unfold hw_encrypt_block.
  rewrite (Hks 0), (Hks Nr) by (destruct Hv; lia).
  rewrite <- (store_load_state p) at 1 by done. rewrite AddRoundKey_quad.
  pose proof (load_state_bytes p Hp) as Hst.
  destruct (fold_store (fun f j => _mm_aesenc_si128 f (ks_get ks j))
    (fun st j => enc_round w st (4 * j)) (seqZ 1 (Nr - 1)) (AddRoundKey (load_state p) w (4 * 0)))
    as [E Hb]; [|by apply AddRoundKey_bytes|].
  { intros st j Hj%elem_of_seqZ Hst'. rewrite Hks by lia.
    split; [by apply aesenc_round|by apply enc_round_bytes]. }
  rewrite E. rewrite aesenclast_doc by (by apply store_state_bytes || apply length_store_state).
  unfold on_state. rewrite load_store_state, AddRoundKey_quad, SubBytes_ShiftRows.
  symmetry. by apply aes_encrypt_rounds.
Qed.

Lemma hw_decrypt_block_eq ks bits Nr w c :
  valid_size bits Nr -> dec_schedule ks Nr w -> Forall is_byte c -> length c = 16%nat ->
  hw_decrypt_block ks Nr c = aes_decrypt c w bits.
Proof using instr.
  intros Hv (H0 & HN & Hks) Hp Hl. unfold hw_decrypt_block. rewrite H0, HN.
  rewrite <- (store_load_state c) at 1 by done. rewrite AddRoundKey_quad.
  pose proof (load_state_bytes c Hp) as Hst.
  destruct (fold_store (fun d j => _mm_aesdec_si128 d (ks_get ks j))
    (fun st j => dec_round w st (4 * (Nr - j))) (seqZ 1 (Nr - 1))
    (AddRoundKey (load_state c) w (4 * Nr))) as [E Hb]; [|by apply AddRoundKey_bytes|].
  { intros st j Hj%elem_of_seqZ Hst'. rewrite Hks by lia.
    split; [by apply aesdec_round|by apply dec_round_bytes]. }
  rewrite E. rewrite aesdeclast_doc by (by apply store_state_bytes || apply length_store_state).
  unfold on_state. rewrite load_store_state, AddRoundKey_quad.
  symmetry. by apply aes_decrypt_rounds.
Qed.

(** ** The schedules *)

(** A loop that stores [f i] in the vector [nr - i]. *)
Lemma ks_fold_sets (f : Z -> m128) nr n key :
  0 <= n -> n <= nr -> 16 * (nr + 1) <= zlen key ->
  (forall i, 1 <= i <= n -> length (f i) = 16%nat) ->
  let ks := fold_left (fun key i => ks_set key (nr - i) (f i)) (seqZ 1 n) key in
  length ks = length key /\
  (forall j, nr - n <= j < nr -> ks_get ks j = f (nr - j)) /\
  (forall j, 0 <= j < nr - n \/ nr <= j -> ks_get ks j = ks_get key j).
Proof.
  intros Hn. revert n Hn. refine (natlike_ind _ _ _).
  - intros _ _ _. split; [done|]. split; [|done]. intros j Hj. lia.
  - intros n Hn IH Hle Hk Hf. rewrite <- !Z.add_1_r, seqZ_snoc, fold_left_app by done.
    cbn [fold_left]. destruct IH as (Hl & H1 & H2); [lia|lia|intros; apply Hf; lia|].
    set (ks := fold_left _ _ _) in *. clearbody ks.
    assert (Hz : zlen ks = zlen key) by (unfold zlen; lia).
    assert (Hfn : length (f (1 + n)) = 16%nat) by (apply Hf; lia).
    split; [by rewrite length_ks_set by (done || lia)|]. split; intros j Hj.
    + destruct (decide (j = nr - (1 + n))) as [-> | Hne].
      * rewrite ks_get_set_eq by (done || lia). f_equal. lia.
      * rewrite ks_get_set_ne by (done || lia). apply H1. lia.
    + rewrite ks_get_set_ne by (done || lia). apply H2. lia.
Qed.

Lemma AES128_expand_key_schedule ks bits Nr w :
  valid_size bits Nr -> 16 * (Nr + 1) <= zlen ks -> enc_schedule ks Nr w ->
  dec_schedule (AES128_expand_key _mm_aesimc_si128 ks Nr) Nr w.
Proof using instr.
  intros Hv Hlen Hks.
  assert (Ht : forall i, 0 <= i <= Nr -> ks_get (take 240 ks) i = quad w (4 * i)).
  { intros i Hi. rewrite <- Hks by done. unfold ks_get, _mm_loadu_si128.
    replace 240%nat with (Z.to_nat (16 * i) + (240 - Z.to_nat (16 * i)))%nat
      by (destruct Hv; lia).
    rewrite <- take_drop_commute, take_take. f_equal. destruct Hv; lia. }
  assert (Himc : forall i, length (_mm_aesimc_si128 (quad w i)) = 16%nat).
  { intros i. rewrite (aesimc_doc (quad w i)) by (apply quad_bytes || done). apply length_store_state. }
  set (imc key i := ks_set key (Nr - i) (_mm_aesimc_si128 (ks_get (take 240 ks) i))).
  assert (E : AES128_expand_key _mm_aesimc_si128 ks Nr =
    ks_set (fold_left imc (seqZ 1 (Nr - 1)) (ks_set ks Nr (quad w 0))) 0 (quad w (4 * Nr))).
  { unfold AES128_expand_key. rewrite (Ht 0), (Ht Nr) by (destruct Hv; lia).
    by destruct Hv as [[_ ->]|[_ ->]]. }
  rewrite E. clear E.
  assert (HN : 10 <= Nr <= 14) by (destruct Hv; lia). clear Hv.
  assert (Hz : zlen (ks_set ks Nr (quad w 0)) = zlen ks)
    by (unfold zlen; rewrite length_ks_set by (done || lia); done).
  destruct (ks_fold_sets (fun i => _mm_aesimc_si128 (ks_get (take 240 ks) i)) Nr (Nr - 1)
    (ks_set ks Nr (quad w 0))) as (Hl & H1 & H2); [lia..|intros i Hi; rewrite Ht by lia; apply Himc|].
  fold imc in Hl, H1, H2. set (kd := fold_left _ _ _) in *. clearbody kd.
  assert (Hzk : zlen kd = zlen ks) by (unfold zlen in *; lia).
  split; [|split].
  - apply ks_get_set_eq; [done|lia|done].
  - rewrite ks_get_set_ne by (done || lia). rewrite H2 by lia. by rewrite ks_get_set_eq by (done || lia).
  - intros g Hg. rewrite ks_get_set_ne by (done || lia). rewrite H1 by lia. by rewrite Ht by lia.
Qed.

Lemma AES_expand_key_schedule key buf bits Nr (encrypt : bool) :
  valid_size bits Nr -> Forall is_byte key -> zlen key * 8 = bits -> 16 * (Nr + 1) <= zlen buf ->
  let w := aes_key_setup key (replicate 60 0) bits in
  let '(rc, ks) := AES_expand_key _mm_aesimc_si128 keygenassist key buf bits encrypt in
  rc = 0 /\ if encrypt then enc_schedule ks Nr w else dec_schedule ks Nr w.
Proof using instr.
  intros Hv Hk Hl Hb w. set (Nk := bits / 32).
  assert (Hc : (bits = 128 /\ Nk = 4 /\ Nr = 10) \/ (bits = 256 /\ Nk = 8 /\ Nr = 14))
    by (unfold Nk; destruct Hv as [[-> ->]|[-> ->]]; auto).
  destruct (aes_key_setup_eq key bits Nk Nr Hc) as [Hw0 Hwi].
  pose proof (aes_key_setup_u32 key bits Nk Nr Hc) as Hw. fold w in Hw0, Hwi, Hw.
  clearbody w Nk.
  assert (HNk : (Nk = 4 /\ Nr = 10) \/ (Nk = 8 /\ Nr = 14)) by lia.
  assert (Hlen : zlen key = 4 * Nk) by lia.
  assert (Hdone : forall ks, holds w buf ks (Nr + 1) -> enc_schedule ks Nr w /\
    dec_schedule (AES128_expand_key _mm_aesimc_si128 ks Nr) Nr w).
  { intros ks [Hz Hks]. assert (He : enc_schedule ks Nr w) by (intros g Hg; apply Hks; lia).
    split; [done|]. apply (AES128_expand_key_schedule ks bits); [done|unfold zlen in *; lia|done]. }
  unfold AES_expand_key. destruct Hc as [(-> & -> & ->)|(-> & -> & ->)]; cbn [Z.eqb Pos.eqb].
  - destruct (Hdone (AES_128_Key_Expansion keygenassist key buf)) as [He Hd];
      [by apply (AES_128_Key_Expansion_quads key w 4 10)|]. by destruct encrypt.
  - destruct (Hdone (AES_256_Key_Expansion keygenassist key buf)) as [He Hd];
      [by apply (AES_256_Key_Expansion_quads key w 8 14)|]. by destruct encrypt.
Qed.

(** ** CBC *)

#[local] Abbreviation hw_cbc := (x86_cbc _mm_aesenc_si128 _mm_aesenclast_si128 _mm_aesdec_si128
  _mm_aesdeclast_si128 _mm_aesimc_si128 keygenassist).

Lemma cbc_encrypt_blocks_eq ks bits Nr w n fb input :
  valid_size bits Nr -> enc_schedule ks Nr w -> Forall is_byte input -> Forall is_byte fb ->
  length fb = 16%nat -> length input = (16 * n)%nat ->
  cbc_encrypt_blocks _mm_aesenc_si128 _mm_aesenclast_si128 ks Nr n fb input
  = encrypt_loop (fun p => aes_encrypt p w bits) n fb input.
Proof using instr.
  intros Hv Hks. revert fb input. induction n as [|n IH]; intros fb input Hin Hfb Hfl Hl; [done|].
  cbn [cbc_encrypt_blocks encrypt_loop].
  change (_mm_loadu_si128 input 0) with (take 16 input).
  change (_mm_xor_si128 (take 16 input) fb) with (xor_buf fb (take 16 input)).
  set (p := xor_buf fb (take 16 input)).
  assert (Hp : Forall is_byte p) by (apply xor_buf_bytes; auto using Forall_take).
  assert (Hpl : length p = 16%nat) by (unfold p; rewrite xor_buf_length, length_take; lia).
  fold (hw_encrypt_block ks Nr p). rewrite (hw_encrypt_block_eq ks bits Nr w) by done.
  rewrite IH; [done|by apply Forall_drop|by apply aes_encrypt_bytes|by apply length_aes_encrypt|].
  rewrite length_drop. lia.
Qed.

Lemma cbc_decrypt_blocks_eq ks bits Nr w n fb input :
  valid_size bits Nr -> dec_schedule ks Nr w -> Forall is_byte input ->
  length fb = 16%nat -> length input = (16 * n)%nat ->
  cbc_decrypt_blocks _mm_aesdec_si128 _mm_aesdeclast_si128 ks Nr n fb input
  = decrypt_loop false (fun c => aes_decrypt c w bits) n fb input.
Proof using instr.
  intros Hv Hks. revert fb input. induction n as [|n IH]; intros fb input Hin Hfl Hl; [done|].
  cbn [cbc_decrypt_blocks decrypt_loop].
  change (_mm_loadu_si128 input 0) with (take 16 input).
  fold (hw_decrypt_block ks Nr (take 16 input)).
  assert (Hcl : length (take 16 input) = 16%nat) by (rewrite length_take; lia).
  rewrite (hw_decrypt_block_eq ks bits Nr w) by (done || by apply Forall_take).
  rewrite IH; [done|by apply Forall_drop|done|]. rewrite length_drop. lia.
Qed.

(** What the context functions leave in a context, in both paths. *)
Lemma hw_init_ctx ctx key iv bits Nr ecx hw encrypt :
  @cbc_cpu_supports_aes (hw_cbc ecx hw) = true -> valid_size bits Nr -> length iv = 16%nat ->
  @AES_CBC_init_ctx (hw_cbc ecx hw) ctx (Some key) (Some iv) bits encrypt =
    (0, {| ivec := iv;
           cbc_roundkey := snd (AES_expand_key _mm_aesimc_si128 keygenassist key (replicate 240 0) bits encrypt);
           AesCbc.Nr := Nr; keysize := bits; cbc_have_hw := if encrypt then 3 else 2 |}).
Proof.
  intros Hhw Hv Hiv. unfold AES_CBC_init_ctx. rewrite Hhw, take_ge by lia.
  destruct Hv as [[-> ->]|[-> ->]]; cbn [Z.eqb Pos.eqb]; by destruct encrypt.
Qed.

Lemma sw_init_ctx ctx key iv bits Nr :
  valid_size bits Nr -> length iv = 16%nat ->
  @AES_CBC_init_ctx no_cbc_hw ctx (Some key) (Some iv) bits true =
    (0, {| ivec := iv; cbc_roundkey := aes_key_setup key (replicate 60 0) bits;
           AesCbc.Nr := Nr; keysize := bits; cbc_have_hw := 0 |}).
Proof.
  intros Hv Hiv. unfold AES_CBC_init_ctx. cbn [cbc_cpu_supports_aes no_cbc_hw].
  rewrite take_ge by lia. by destruct Hv as [[-> ->]|[-> ->]].
Qed.

(** C1: The x86 path of the CBC functions computes what the software path
    computes.  On a processor that has the AES instructions, with their
    documented behaviour, contexts made for encryption and for decryption give
    for every key of 128 or 256 bits and every input of whole blocks the result,
    the output and the chaining value of the software path; and the decryption
    does so in place as well. *)
Theorem x86_cbc_correct (ctx : aes_cbc_ctx) (key iv input : list Z) (bits ecx hw : Z) :
  cpu_supports_aes ecx hw = 1 -> (bits = 128 \/ bits = 256) ->
  Forall is_byte key -> zlen key * 8 = bits -> Forall is_byte iv -> length iv = 16%nat ->
  Forall is_byte input -> zlen input mod 16 = 0 -> zlen input < 2 ^ 31 ->
  let '(rc1, e) := @AES_CBC_init_ctx (hw_cbc ecx hw) ctx (Some key) (Some iv) bits true in
  let '(rc2, d) := @AES_CBC_init_ctx (hw_cbc ecx hw) ctx (Some key) (Some iv) bits false in
  let '(rc3, s) := @AES_CBC_init_ctx no_cbc_hw ctx (Some key) (Some iv) bits true in
  rc1 = 0 /\ rc2 = 0 /\ rc3 = 0 /\
  (let '(rc, e', out) := @AES_CBC_encrypt (hw_cbc ecx hw) e input in
   let '(rc', s', out') := @AES_CBC_encrypt no_cbc_hw s input in
   rc = rc' /\ out = out' /\ ivec e' = ivec s') /\
  forall in_place,
    let '(rc, d', out) := @AES_CBC_decrypt (hw_cbc ecx hw) in_place d input in
    let '(rc', s', out') := @AES_CBC_decrypt no_cbc_hw false s input in
    rc = rc' /\ out = out' /\ ivec d' = ivec s'.
Proof using instr.
  intros Hcpu Hbits Hk Hkl Hiv Hivl Hin Hmod Hlen.
  assert (Hhw : @cbc_cpu_supports_aes (hw_cbc ecx hw) = true) by (cbn; by rewrite Hcpu).
  assert (exists Nr, valid_size bits Nr) as [Nr Hv]
    by (destruct Hbits; [exists 10; by left|exists 14; by right]).
  rewrite !(hw_init_ctx ctx key iv bits Nr), (sw_init_ctx ctx key iv bits Nr) by done.
  pose proof (AES_expand_key_schedule key (replicate 240 0) bits Nr true Hv Hk Hkl) as He.
  pose proof (AES_expand_key_schedule key (replicate 240 0) bits Nr false Hv Hk Hkl) as Hd.
  cbv zeta in He, Hd.
  set (w := aes_key_setup _ _ _) in *.
  destruct (AES_expand_key _ _ _ _ _ true) as [r1 k1]. destruct (AES_expand_key _ _ _ _ _ false) as [r2 k2].
  destruct He as [_ He]; [change (zlen (replicate 240 0)) with 240; destruct Hv; lia|].
  destruct Hd as [_ Hd]; [change (zlen (replicate 240 0)) with 240; destruct Hv; lia|].
  cbn [snd]. do 3 (split; [done|]).
  assert (Hs : s32 (zlen input / 16) = zlen input / 16).
  { unfold s32, zlen in *. rewrite Z.mod_small by (Z.to_euclidean_division_equations; lia). lia. }
  assert (Hn : length input = (16 * Z.to_nat (zlen input / 16))%nat)
    by (unfold zlen in *; Z.to_euclidean_division_equations; lia).
  assert (Hm : ((zlen input .& 15) =? 0) = true)
    by (change 15 with (Z.ones 4); rewrite Z.land_ones by lia; by apply Z.eqb_eq).
  assert (Hl : _mm_loadu_si128 iv 0 = iv) by (apply take_ge; cbn; lia).
  split; [|intros in_place].
  - unfold AES_CBC_encrypt. rewrite Hm, Hs. cbn -[Z.div Z.to_nat].
    unfold x86_CBC_encrypt_blocks. cbn [cbc_roundkey AesCbc.Nr ivec]. rewrite Hl.
    rewrite (cbc_encrypt_blocks_eq k1 bits Nr w) by done.
    by destruct (encrypt_loop _ _ _ _).
  - unfold AES_CBC_decrypt. rewrite Hs. cbn -[Z.div Z.to_nat].
    unfold x86_CBC_decrypt_blocks. cbn [cbc_roundkey AesCbc.Nr ivec]. rewrite Hl.
    rewrite (cbc_decrypt_blocks_eq k2 bits Nr w) by done.
    by destruct (decrypt_loop _ _ _ _ _).
Qed.

End instructions.

(** ** The instructions as functions *)

(** The documented behaviour, as definitions. *)
Definition doc_aesenc (a k : m128) : m128 :=
  _mm_xor_si128 (on_state (fun s => MixColumns (SubBytes (ShiftRows s))) a) k.
Definition doc_aesenclast (a k : m128) : m128 :=
  _mm_xor_si128 (on_state (fun s => SubBytes (ShiftRows s)) a) k.
Definition doc_aesdec (a k : m128) : m128 :=
  _mm_xor_si128 (on_state (fun s => InvMixColumns (InvSubBytes (InvShiftRows s))) a) k.
Definition doc_aesdeclast (a k : m128) : m128 :=
  _mm_xor_si128 (on_state (fun s => InvSubBytes (InvShiftRows s)) a) k.
Definition doc_aeskeygenassist (a : m128) (rcon : Z) : m128 :=
  sub_dword (dword a 1)
  ++ zip_with Z.lxor (rot_dword (sub_dword (dword a 1))) [rcon; 0; 0; 0]
  ++ sub_dword (dword a 3)
  ++ zip_with Z.lxor (rot_dword (sub_dword (dword a 3))) [rcon; 0; 0; 0].

#[export] Instance doc_instructions :
  AesInstructions doc_aesenc doc_aesenclast doc_aesdec doc_aesdeclast (on_state InvMixColumns)
    doc_aeskeygenassist.
Proof. by split. Qed.

Definition doc_cbc : AesCbcHw := x86_cbc doc_aesenc doc_aesenclast doc_aesdec doc_aesdeclast
  (on_state InvMixColumns) doc_aeskeygenassist (2 ^ 25) (-1).

Lemma x86_cbc_correct_witness :
  let e := snd (@AES_CBC_init_ctx doc_cbc ctx0 (Some sp800_key256) (Some sp800_iv) 256 true) in
  snd (@AES_CBC_encrypt doc_cbc e sp800_plain) = sp800_cipher256.
Proof.
  intros e.
  pose proof (x86_cbc_correct (instr := doc_instructions) ctx0 sp800_key256 sp800_iv sp800_plain
    256 (2 ^ 25) (-1)) as H.
  specialize (H ltac:(reflexivity) ltac:(by right) ltac:(apply bytes_check; by vm_compute)
    ltac:(reflexivity) ltac:(apply bytes_check; by vm_compute) ltac:(reflexivity)
    ltac:(apply bytes_check; by vm_compute) ltac:(reflexivity) ltac:(reflexivity)).
  assert (Ee : @AES_CBC_init_ctx doc_cbc ctx0 (Some sp800_key256) (Some sp800_iv) 256 true
    = (0, e)) by by vm_compute.
  set (s := snd (@AES_CBC_init_ctx no_cbc_hw ctx0 (Some sp800_key256) (Some sp800_iv) 256 true)).
  assert (Es : @AES_CBC_init_ctx no_cbc_hw ctx0 (Some sp800_key256) (Some sp800_iv) 256 true
    = (0, s)) by by vm_compute.
  assert (Eo : @AES_CBC_encrypt no_cbc_hw s sp800_plain
    = (0, set_ivec s (drop 16 sp800_cipher256), sp800_cipher256)) by by vm_compute.
  clearbody e s. fold doc_cbc in H. rewrite Ee, Es in H.
  destruct (@AES_CBC_init_ctx doc_cbc _ _ _ _ false) as [rc2 d].
  destruct H as (_ & _ & _ & H & _).
  destruct (@AES_CBC_encrypt doc_cbc e sp800_plain) as [[rc e'] out]. rewrite Eo in H.
  exact (proj1 (proj2 H)).
Defined.

End AesX86.
