(* ===== verification/AesEquiv.v ===== *)
(** The two AES-128 implementations of the library and the x86 one agree: the
    key schedule of aes128.c holds the words of that of aes-cbc.c, the
    unrolled rounds of aes128.c are the rounds of aes-cbc.c, and the ECB
    functions give the same blocks with and without the AES instructions. *)

From S2P Require Import Prelude Aes128 AesCbc AesX86.
Import Aes128 AesCbc AesX86.

Module AesEquiv.

(** ** The key schedule of aes128.c *)

(** The bytes [ek] are those of the words [w], up to the vector [n]. *)
Definition ek_words (ek w : list Z) (n : Z) : Prop :=
  forall g k, 0 <= g < n -> 0 <= k < 16 -> rd ek (16 * g + k) = rd (quad w (4 * g)) k.

(** A loop body given as a list of statements: an invariant indexed by the
    statements done. *)
Lemma exec_indexed {S} (P : Z -> S -> Prop) (l : list (S -> S)) k s :
  (forall i f, l !! i = Some f -> forall s, P (k + Z.of_nat i) s -> P (k + Z.of_nat i + 1) (f s)) ->
  P k s -> P (k + zlen l) (exec l s).
Proof.
  revert k s. induction l as [|f l IH]; intros k s Hl Hs.
  - change (zlen []) with 0. by rewrite Z.add_0_r.
  - replace (k + zlen (f :: l)) with (k + 1 + zlen l) by (unfold zlen; cbn [length]; lia).
    apply (IH (k + 1) (f s)).
    + intros i g Hi s' Hs'.
      replace (k + 1 + Z.of_nat i) with (k + Z.of_nat (Datatypes.S i)) in * by lia.
      by apply (Hl (Datatypes.S i)).
    + specialize (Hl 0%nat f eq_refl s). cbn in Hl. rewrite Z.add_0_r in Hl. by apply Hl.
Qed.

(** The bytes of a vector from its words. *)
Lemma rd_quad w i j k :
  0 <= j < 4 -> 0 <= k < 4 -> rd (quad w i) (4 * j + k) = rd (wbytes (rd w (i + j))) k.
Proof.
  intros Hj Hk.
  assert (Ej : j = 0 \/ j = 1 \/ j = 2 \/ j = 3) by lia.
  assert (Ek : k = 0 \/ k = 1 \/ k = 2 \/ k = 3) by lia.
  destruct Ej as [->|[->|[->| ->]]]; rewrite ?Z.add_0_r; destruct Ek as [->|[->|[->| ->]]];
    unfold quad; rewrite ?Z.add_0_r; reflexivity.
Qed.

Lemma rd_wbytes_lxor x y k : 0 <= k < 4 -> rd (wbytes (x .^ y)) k = rd (wbytes x) k .^ rd (wbytes y) k.
Proof.
  intros Hk. assert (Ek : k = 0 \/ k = 1 \/ k = 2 \/ k = 3) by lia. rewrite wbytes_lxor.
  by destruct Ek as [->|[->|[->| ->]]].
Qed.

Lemma rd_sub_rot x k :
  0 <= k < 4 ->
  rd (sub_dword (rot_dword (wbytes x))) k = rd sbox (rd (wbytes x) ((k + 1) mod 4)).
Proof.
  intros Hk. assert (Ek : k = 0 \/ k = 1 \/ k = 2 \/ k = 3) by lia.
  by destruct Ek as [->|[->|[->| ->]]].
Qed.

Lemma rd_rcon r k : 0 <= k < 4 -> rd [r; 0; 0; 0] k = if k =? 0 then r else 0.
Proof.
  intros Hk. assert (Ek : k = 0 \/ k = 1 \/ k = 2 \/ k = 3) by lia.
  by destruct Ek as [->|[->|[->| ->]]].
Qed.

Section schedule.
Context (key : list Z) (Hkey : Forall is_byte key) (Hlen : length key = 16%nat).
#[local] Abbreviation w := (aes_key_setup key (replicate 60 0) 128).

Lemma w_word i : 0 <= i < 4 -> rd w i = key_word key i.
Proof using All. intros. apply (aes_key_setup_eq key 128 4 10); [by left|lia]. Qed.

Lemma w_step i : 4 <= i < 44 -> rd w i = rd w (i - 4) .^ setup_temp 4 i (rd w (i - 1)).
Proof using All. intros. apply (aes_key_setup_eq key 128 4 10); [by left|lia]. Qed.

Lemma w_u32 i : 0 <= i < 44 -> is_u32 (rd w i).
Proof using All. intros. apply (aes_key_setup_u32 key 128 4 10); [by left|lia]. Qed.

(** The first word of a vector: the rotated and substituted word before, and the
    round constant in its first byte. *)
Lemma first_word_byte g k :
  1 <= g <= 10 -> 0 <= k < 4 ->
  rd (quad w (4 * g)) k
  = rd sbox (rd (quad w (4 * (g - 1))) (12 + (k + 1) mod 4)) .^ rd (quad w (4 * (g - 1))) k
    .^ (if k =? 0 then rd Rcon g else 0).
Proof using All.
  intros Hg Hk. replace k with (4 * 0 + k) at 1 3 by lia.
  replace (12 + (k + 1) mod 4) with (4 * 3 + (k + 1) mod 4) by lia.
  rewrite !rd_quad by (done || lia || (Z.to_euclidean_division_equations; lia)).
  rewrite !Z.add_0_r, w_step, rd_wbytes_lxor by lia.
  replace (4 * g - 4) with (4 * (g - 1)) by lia.
  replace (4 * g - 1) with (4 * (g - 1) + 3) by lia.
  unfold setup_temp.
  replace ((4 * g) mod 4) with 0 by (Z.to_euclidean_division_equations; lia). cbn [Z.eqb].
  replace ((4 * g - 1) / 4) with (g - 1) by (Z.to_euclidean_division_equations; lia).
  destruct (rcon_byte_Rcon32 g) as [-> Hr]; [lia|].
  rewrite rd_wbytes_lxor, wbytes_SubWord, wbytes_ROTWORD, wbytes_rcon by (done || apply w_u32; lia).
  replace (rd Rcon g) with (rcon_byte g).
  2:{ assert (E : g = 1 \/ g = 2 \/ g = 3 \/ g = 4 \/ g = 5 \/ g = 6 \/ g = 7 \/ g = 8 \/ g = 9 \/ g = 10) by lia.
      repeat (destruct E as [-> | E]; [done|]). by subst g. }
  rewrite rd_sub_rot by done. rewrite rd_rcon by done. xor_ring.
Qed.

(** The other words: the word before and the word four back. *)
Lemma next_word_byte g k :
  1 <= g <= 10 -> 4 <= k < 16 ->
  rd (quad w (4 * g)) k = rd (quad w (4 * (g - 1))) k .^ rd (quad w (4 * g)) (k - 4).
Proof using All.
  intros Hg Hk.
  assert (E : k = 4 * (k / 4) + k mod 4) by (apply Z.div_mod; done).
  assert (Hr : 0 <= k mod 4 < 4) by (by apply Z.mod_pos_bound).
  assert (Hq : 1 <= k / 4 < 4) by lia.
  replace (k - 4) with (4 * (k / 4 - 1) + k mod 4) by lia. rewrite E at 1 2.
  rewrite !rd_quad by lia. rewrite w_step, rd_wbytes_lxor by lia.
  replace (4 * g + k / 4 - 4) with (4 * (g - 1) + k / 4) by lia.
  replace (4 * g + (k / 4 - 1)) with (4 * g + k / 4 - 1) by lia.
  unfold setup_temp. rewrite andb_false_l.
  replace ((4 * g + k / 4) mod 4) with (k / 4)
    by (rewrite Z.add_comm, Z.mul_comm, Z_mod_plus_full, Z.mod_small; lia).
  by destruct (Z.eqb_spec (k / 4) 0); [lia|].
Qed.

(** One iteration of the expansion extends the schedule by a vector. *)
Lemma expandKey_round_words ek ii :
  1 <= ii <= 10 -> length ek = 176%nat -> ek_words ek w ii ->
  length (expandKey_round ek ii) = 176%nat /\ ek_words (expandKey_round ek ii) w (ii + 1).
Proof using All.
  intros Hii Hl Hw.
  set (P k s := length s = 176%nat /\ ek_words s w ii /\
    forall m, 0 <= m < k -> rd s (16 * ii + m) = rd (quad w (4 * ii)) m).
  assert (Hwr : forall k s i v, 0 <= k < 16 -> i = 16 * ii + k -> P k s -> v = rd (quad w (4 * ii)) k ->
    P (k + 1) (wr s i v)).
  { intros k s i v Hk -> (Hs & Hg & Hm) ->. split; [by rewrite length_wr|]. split.
    - intros g m Hg' Hm'. rewrite rd_wr_ne by lia. by apply Hg.
    - intros m Hm'. destruct (decide (m = k)) as [-> | Hne].
      + apply rd_wr_eq. unfold zlen. lia.
      + rewrite rd_wr_ne by lia. apply Hm. lia. }
  assert (Hprev : forall k s i m, P k s -> i = 16 * (ii - 1) + m -> 0 <= m < 16 ->
    rd s i = rd (quad w (4 * (ii - 1))) m).
  { intros k s i m (_ & Hg & _) -> Hm. apply Hg; lia. }
  assert (Hcur : forall k s i m, P k s -> i = 16 * ii + m -> 0 <= m < k ->
    rd s i = rd (quad w (4 * ii)) m).
  { intros k s i m (_ & _ & Hm) -> Hm'. by apply Hm. }
  assert (Hfin : P 16 (expandKey_round ek ii)).
  2:{ destruct Hfin as (H1 & H2 & H3). split; [done|]. intros g k Hg Hk.
      destruct (decide (g = ii)) as [-> | Hne]; [by apply H3|apply H2; lia]. }
  assert (H0 : P 0 ek) by (split; [done|]; split; [done|]; intros m Hm; lia).
  assert (Hbuf : rd ek (ii * 16 - 4) = rd (quad w (4 * (ii - 1))) 12) by (apply (Hprev 0); [done|lia..]).
  unfold expandKey_round. rewrite Hbuf.
  match goal with |- P 16 (exec ?l ek) => apply (exec_indexed P l 0 ek); [|exact H0] end.
  intros i f Hf s Hs.
  do 4 (destruct i as [|i]; [injection Hf as <-; refine (Hwr _ _ _ _ _ _ Hs _); [lia|lia|];
    rewrite (first_word_byte ii) by lia;
    match goal with |- context [?a mod 4] =>
      let v := eval vm_compute in (a mod 4) in change (a mod 4) with v end;
    cbn [Z.of_nat Pos.of_succ_nat Pos.succ Z.add Z.eqb]; rewrite ?Z.lxor_0_r;
    repeat apply (f_equal2 Z.lxor); try apply f_equal; try reflexivity;
    (eapply Hprev; [exact Hs|lia|lia])|]).
  do 12 (destruct i as [|i]; [injection Hf as <-; refine (Hwr _ _ _ _ _ _ Hs _); [lia|lia|];
    rewrite (next_word_byte ii) by lia;
    f_equal; [eapply Hprev|eapply Hcur]; [exact Hs|lia|lia|exact Hs|lia|lia]|]).
  done.
Qed.

Lemma expandKey_words : ek_words (expandKey (replicate 176 0) key) w 11.
Proof using All.
  unfold expandKey. rewrite take_ge by lia.
  set (ek0 := key ++ drop 16 (replicate 176 0)).
  assert (H0 : length ek0 = 176%nat /\ ek_words ek0 w (0 + 1)).
  { split; [unfold ek0; rewrite length_app, Hlen; done|]. intros g k Hg Hk.
    replace g with 0 by lia. rewrite <- (loadu_words key w 0) by (done || (unfold zlen; lia) ||
      (intros j Hj; apply w_word; lia)).
    change (_mm_loadu_si128 key (16 * 0)) with (take 16 key). rewrite take_ge by lia.
    unfold rd, ek0. rewrite app_nth1 by lia. done. }
  assert (H : forall n, 0 <= n -> n <= 10 ->
    let ek := fold_left expandKey_round (seqZ 1 n) ek0 in
    length ek = 176%nat /\ ek_words ek w (n + 1)).
  { refine (natlike_ind _ _ _); [intros; exact H0|]. intros n Hn IH Hle.
    rewrite <- !Z.add_1_r, seqZ_snoc, fold_left_app by done. cbn [fold_left].
    destruct IH as [Hl Hw]; [lia|]. rewrite (Z.add_comm 1 n).
    apply expandKey_round_words; [lia|done..]. }
  apply (H 10); lia.
Qed.
End schedule.

(** ** The rounds of aes128.c *)

Section rounds.
Context (ek w : list Z) (Hw : ek_words ek w 11).

Lemma rd_ek g m k : 0 <= g <= 10 -> 0 <= k < 16 -> m = 16 * g + k -> rd ek m = rd (quad w (4 * g)) k.
Proof using All. intros Hg Hk ->. apply Hw; lia. Qed.

Lemma sub_shift_round g st :
  0 <= g <= 10 -> mat_Forall is_byte st ->
  sub_shift ek g (to_block st) = to_block (ShiftRows (SubBytes (AddRoundKey st w (4 * g)))).
Proof using All.
  intros Hg Hst. rewrite <- (load_store_state (AddRoundKey st w (4 * g))), <- AddRoundKey_quad.
  pose proof (quad_bytes w (4 * g)) as Hq.
  assert (E : forall k, 0 <= k < 16 -> rd ek (g * 16 + k) = rd (quad w (4 * g)) k)
    by (intros; apply (rd_ek g); lia).
  destruct_mat st Hst. unfold to_block, sub_shift. rewrite !E by lia. clear E.
  rewrite <- (store_load_state (quad w (4 * g))) in * by done.
  generalize dependent (load_state (quad w (4 * g))). intros k Hk.
  destruct k. cbn [store_state] in Hk. rewrite !Forall_cons in Hk. destruct_and?.
  cbv [store_state _mm_xor_si128 zip_with load_state rd Z.to_nat Pos.to_nat Pos.iter_op Nat.add nth
    SubBytes ShiftRows].
  rewrite !nibbles_sbox by (by apply fits_lxor). done.
Qed.

Lemma last_addroundkey_round st :
  last_addroundkey ek (to_block st) = to_block (AddRoundKey st w 40).
Proof using All.
  rewrite <- (load_store_state (AddRoundKey st w 40)), <- AddRoundKey_quad.
  destruct st. unfold to_block, last_addroundkey.
  rewrite (rd_ek 10 160 0), (rd_ek 10 161 1), (rd_ek 10 162 2), (rd_ek 10 163 3), (rd_ek 10 164 4),
    (rd_ek 10 165 5), (rd_ek 10 166 6), (rd_ek 10 167 7), (rd_ek 10 168 8), (rd_ek 10 169 9),
    (rd_ek 10 170 10), (rd_ek 10 171 11), (rd_ek 10 172 12), (rd_ek 10 173 13),
    (rd_ek 10 174 14), (rd_ek 10 175 15) by lia.
  done.
Qed.

(** The two loops, seen before the round key of the next round is added. *)
Lemma encr_rounds n st :
  0 <= n -> n <= 9 -> mat_Forall is_byte st ->
  exists st', fold_left (encr_round ek) (seqZ 0 n) (to_block st) = to_block st'
    /\ mat_Forall is_byte st'
    /\ AddRoundKey st' w (4 * n)
       = fold_left (fun st j => enc_round w st (4 * j)) (seqZ 1 n) (AddRoundKey st w 0).
Proof using All.
  intros Hn. revert n Hn. refine (natlike_ind _ _ _); [by eauto|].
  intros n Hn IH Hle Hst. destruct IH as (s & E & Hs & Es); [lia|done|].
  rewrite <- !Z.add_1_r, !seqZ_snoc, !fold_left_app by done. cbn [fold_left].
  rewrite E, <- Es. unfold encr_round.
  replace (0 + n) with n by lia. replace (1 + n) with (n + 1) by lia.
  rewrite sub_shift_round by (done || lia).
  rewrite <- to_block_MixColumns by auto with samlib.
  eexists. split; [done|]. split; [auto with samlib|done].
Qed.

Lemma store_to_block st : store (to_block st) = store_state st.
Proof. by destruct st. Qed.

Lemma aes_encr_eq p :
  Forall is_byte p -> length p = 16%nat -> store (aes_encr (load p) ek) = aes_encrypt p w 128.
Proof using All.
  intros Hp Hl. unfold aes_encr.
  destruct (encr_rounds 9 (load_state p)) as (s & E & Hs & Es);
    [lia..|by apply load_state_bytes|].
  change (load p) with (to_block (load_state p)). rewrite E.
  pose proof (sub_shift_round 9 s ltac:(lia) Hs) as Ess.
  rewrite Ess.
  pose proof (aes_encrypt_rounds 128 10 w p (or_introl (conj eq_refl eq_refl))) as Ep.
  change (10 - 1) with 9 in Ep. change (4 * 10) with 40 in Ep. rewrite Ep, <- Es.
  rewrite last_addroundkey_round. apply store_to_block.
Qed.

Lemma aes_decr_bytes st :
  Forall is_byte ek -> block_Forall is_byte st -> block_Forall is_byte (aes_decr st ek).
Proof.
  intros Hek Hst. unfold aes_decr.
  apply decr_rounds_bytes, inv_sub_shift_bytes, last_addroundkey_bytes; done.
Qed.

Lemma aes_decr_eq c :
  Forall is_byte ek -> Forall is_byte c -> length c = 16%nat ->
  store (aes_decr (load c) ek) = aes_decrypt c w 128.
Proof using All.
  intros Hek Hc Hl.
  assert (Hb : block_Forall is_byte (aes_decr (load c) ek)) by (apply aes_decr_bytes; auto using load_bytes).
  assert (Hs : length (store (aes_decr (load c) ek)) = 16%nat) by by destruct (aes_decr _ _).
  rewrite <- (aes_decrypt_encrypt (store (aes_decr (load c) ek)) w 128) by done.
  f_equal. rewrite <- aes_encr_eq by done.
  rewrite load_store, aes_encr_decr by auto using load_bytes. by apply store_load.
Qed.
End rounds.

(** ** The ECB functions *)

Section instructions.
Context {_mm_aesenc_si128 _mm_aesenclast_si128 _mm_aesdec_si128 _mm_aesdeclast_si128 : m128 -> m128 -> m128}
  {_mm_aesimc_si128 : m128 -> m128} {_mm_aeskeygenassist_si128 : m128 -> Z -> m128}.
Context `{instr : !AesInstructions _mm_aesenc_si128 _mm_aesenclast_si128 _mm_aesdec_si128
  _mm_aesdeclast_si128 _mm_aesimc_si128 _mm_aeskeygenassist_si128}.

(** What aes128.c calls on x86. *)
Definition x86_ecb (ecx hw_aes_support : Z) : AesHw := {|
  Aes128.cpu_supports_aes := negb (AesX86.cpu_supports_aes ecx hw_aes_support =? 0);
  Aes128.AES_expand_key := fun userkey key bits encrypt =>
    snd (AesX86.AES_expand_key _mm_aesimc_si128 _mm_aeskeygenassist_si128 userkey key bits encrypt);
  Aes128.AES128_ECB_encrypt_block :=
    AesX86.AES128_ECB_encrypt_block _mm_aesenc_si128 _mm_aesenclast_si128;
  Aes128.AES128_ECB_decrypt_block :=
    AesX86.AES128_ECB_decrypt_block _mm_aesdec_si128 _mm_aesdeclast_si128;
|}.

Lemma ecb_encrypt_block input ks :
  length input = 16%nat ->
  AesX86.AES128_ECB_encrypt_block _mm_aesenc_si128 _mm_aesenclast_si128 input ks
  = hw_encrypt_block (_mm_aesenc_si128 := _mm_aesenc_si128)
      (_mm_aesenclast_si128 := _mm_aesenclast_si128) ks 10 input.
Proof.
  intros Hl. unfold AesX86.AES128_ECB_encrypt_block.
  replace (_mm_loadu_si128 input 0) with input by (symmetry; apply take_ge; cbn; lia). reflexivity.
Qed.

Lemma ecb_decrypt_block input ks :
  length input = 16%nat ->
  AesX86.AES128_ECB_decrypt_block _mm_aesdec_si128 _mm_aesdeclast_si128 input ks
  = hw_decrypt_block (_mm_aesdec_si128 := _mm_aesdec_si128)
      (_mm_aesdeclast_si128 := _mm_aesdeclast_si128) ks 10 input.
Proof.
  intros Hl. unfold AesX86.AES128_ECB_decrypt_block.
  replace (_mm_loadu_si128 input 0) with input by (symmetry; apply take_ge; cbn; lia). reflexivity.
Qed.

Lemma hw_init_ecb ctx key ecx hw encrypt :
  AesX86.cpu_supports_aes ecx hw = 1 ->
  @AES128_init_ctx (x86_ecb ecx hw) ctx (Some key) encrypt =
    (0, {| roundkey := snd (AesX86.AES_expand_key _mm_aesimc_si128 _mm_aeskeygenassist_si128 key
             (replicate 176 0) 128 encrypt);
           have_hw := if encrypt then 3 else 2 |}).
Proof.
  intros Hcpu. unfold AES128_init_ctx, x86_ecb. cbn [Aes128.cpu_supports_aes Aes128.AES_expand_key].
  rewrite Hcpu. by destruct encrypt.
Qed.

(** C17: The three implementations of AES-128 agree: for every key and block of
    bytes, a context made by AES128_init_ctx encrypts and decrypts in the same way
    on a processor with the AES instructions (by a context made for that
    direction) and without them (the flag is 0), and both are the block functions of aes-cbc.c
    under its own key schedule. *)
Theorem ecb_paths_agree (ctx : aes128_ctx) (key input : list Z) (ecx hw : Z) (encrypt : bool) :
  AesX86.cpu_supports_aes ecx hw = 1 ->
  Forall is_byte key -> length key = 16%nat -> Forall is_byte input -> length input = 16%nat ->
  let w := aes_key_setup key (replicate 60 0) 128 in
  let '(rc, e) := @AES128_init_ctx (x86_ecb ecx hw) ctx (Some key) true in
  let '(rc', d) := @AES128_init_ctx (x86_ecb ecx hw) ctx (Some key) false in
  let '(rc'', s) := @AES128_init_ctx (x86_ecb 0 0) ctx (Some key) encrypt in
  rc = 0 /\ rc' = 0 /\ rc'' = 0 /\
  @AES128_ECB_encrypt (x86_ecb ecx hw) e input = aes_encrypt input w 128 /\
  @AES128_ECB_encrypt (x86_ecb 0 0) s input = aes_encrypt input w 128 /\
  @AES128_ECB_decrypt (x86_ecb ecx hw) d input = aes_decrypt input w 128 /\
  @AES128_ECB_decrypt (x86_ecb 0 0) s input = aes_decrypt input w 128.
Proof using instr.
  intros Hcpu Hk Hkl Hin Hl w.
  assert (Hz : zlen key * 8 = 128) by (unfold zlen; lia).
  pose proof (AES_expand_key_schedule key (replicate 176 0) 128 10 true ltac:(by left) Hk Hz ltac:(done)) as He.
  pose proof (AES_expand_key_schedule key (replicate 176 0) 128 10 false ltac:(by left) Hk Hz ltac:(done)) as Hd.
  pose proof (expandKey_words key Hk Hkl) as Hw.
  pose proof (expandKey_bytes (replicate 176 0) key (replicate_bytes _) Hk) as Hb.
  cbv zeta in He, Hd. fold w in He, Hd, Hw. clearbody w.
  rewrite !hw_init_ecb by done.
  destruct (AesX86.AES_expand_key _ _ _ _ _ true) as [r1 k1]. destruct He as [_ He].
  destruct (AesX86.AES_expand_key _ _ _ _ _ false) as [r2 k2]. destruct Hd as [_ Hd].
  change (@AES128_init_ctx (x86_ecb 0 0) ctx (Some key) encrypt) with
    (0, {| roundkey := expandKey (replicate 176 0) key; have_hw := 0 |}).
  generalize dependent (expandKey (replicate 176 0) key). intros ek Hw Hb.
  unfold AES128_ECB_encrypt, AES128_ECB_decrypt. cbn [have_hw roundkey Z.eqb negb snd].
  unfold x86_ecb. cbn [Aes128.AES128_ECB_encrypt_block Aes128.AES128_ECB_decrypt_block].
  rewrite ecb_encrypt_block, ecb_decrypt_block by done.
  rewrite (hw_encrypt_block_eq k1 128 10 w), (hw_decrypt_block_eq k2 128 10 w) by (done || by left).
  rewrite (aes_encr_eq ek w Hw), (aes_decr_eq ek w Hw) by done.
  by repeat split_and.
Qed.
End instructions.

Lemma ecb_paths_agree_witness :
  let doc := x86_ecb (_mm_aesenc_si128 := doc_aesenc) (_mm_aesenclast_si128 := doc_aesenclast)
    (_mm_aesdec_si128 := doc_aesdec) (_mm_aesdeclast_si128 := doc_aesdeclast)
    (_mm_aesimc_si128 := on_state InvMixColumns)
    (_mm_aeskeygenassist_si128 := doc_aeskeygenassist) (2 ^ 25) (-1) in
  let e := snd (@AES128_init_ctx doc (Build_aes128_ctx [] 0) (Some fips_key) true) in
  @AES128_ECB_encrypt doc e fips_plain = fips_cipher.
Proof.
  intros doc e.
  pose proof (ecb_paths_agree (instr := doc_instructions) (Build_aes128_ctx [] 0) fips_key fips_plain
    (2 ^ 25) (-1) true) as H.
  specialize (H ltac:(reflexivity) ltac:(apply bytes_check; by vm_compute)
    ltac:(reflexivity) ltac:(apply bytes_check; by vm_compute) ltac:(reflexivity)).
  assert (Ee : @AES128_init_ctx doc (Build_aes128_ctx [] 0) (Some fips_key) true = (0, e))
    by by vm_compute.
  assert (Ef : aes_encrypt fips_plain (aes_key_setup fips_key (replicate 60 0) 128) 128 = fips_cipher)
    by by vm_compute.
  cbv zeta in H. fold doc in H. clearbody e. rewrite Ee in H.
  destruct (@AES128_init_ctx doc _ _ false) as [rc' d].
  destruct (@AES128_init_ctx _ _ _ true) as [rc'' s].
  rewrite Ef in H. exact (proj1 (proj2 (proj2 (proj2 H)))).
Defined.

End AesEquiv.
