(* ===== verification/Samdb.v ===== *)
(** The database functions (samdb.c): strings and records in a database that is known by
    a handle, with a global one.  A database is a structure of functions, as
    struct __db is; what a client may rely on is the class [Btree], which BtSamdb.v proves of the
    btree of db.1.85. *)

From S2P Require Import Prelude Strings.
From stdpp Require Import gmap.
Import Strings.
#[local] Open Scope Z_scope.

Module Samdb.

Definition R_FIRST : Z := 3.
Definition R_NEXT : Z := 7.
Definition R_NOOVERWRITE : Z := 8.

(** ** The access methods *)

(** Keys are ordered as strings of bytes. *)
Fixpoint bytes_lt (a b : list Z) : bool :=
  match a, b with
  | _, [] => false
  | [], _ :: _ => true
  | x :: a, y :: b => (x <? y) || ((x =? y) && bytes_lt a b)
  end.

(** The records of a btree without duplicate keys, in order. *)
Abbreviation records := (list (list Z * list Z)).

Fixpoint kv_get (k : list Z) (l : records) : option (list Z) :=
  match l with
  | [] => None
  | (k', d) :: l => if decide (k = k') then Some d else kv_get k l
  end.

Fixpoint kv_insert (k d : list Z) (l : records) : records :=
  match l with
  | [] => [(k, d)]
  | (k', d') :: l' =>
      if decide (k = k') then (k, d) :: l'
      else if bytes_lt k k' then (k, d) :: l
      else (k', d') :: kv_insert k d l'
  end.

Fixpoint kv_delete (k : list Z) (l : records) : records :=
  match l with
  | [] => []
  | (k', d) :: l => if decide (k = k') then kv_delete k l else (k', d) :: kv_delete k l
  end.

(** struct __db of db.h, on the state of a database.  The functions give the
    result and the state after the call; what they do may be undefined.  [close] gives the state of a
    database that is still open, [get] does not fetch data for a NULL, and [get] and [seq] give
    the key and the data where they set them. *)
Record DB {T : Type} := {
  close : T -> outcome (Z * option T);
  del : T -> list Z -> Z -> outcome (Z * T);
  get : T -> list Z -> bool -> Z -> outcome (Z * option (list Z) * T);
  put : T -> list Z -> list Z -> Z -> outcome (Z * T);
  seq : T -> list Z -> Z -> outcome (Z * option (list Z) * option (list Z) * T);
}.
Arguments DB : clear implicits.

Section samdb.
Context {T : Type} (acc : DB T).

(** ** Handles *)

(** The open databases by their pointers, [global_db], where 0 is NULL, and how often
    db_close_global is registered with atexit. *)
Record store := { dbs : gmap Z T; global_db : Z; registered : nat }.

Definition set_db (st : store) (db : Z) (t : T) : store :=
  {| dbs := <[db := t]> (dbs st); global_db := global_db st; registered := registered st |}.
Definition set_global (st : store) (db : Z) : store :=
  {| dbs := dbs st; global_db := db; registered := registered st |}.

(** The result of [db->close] is dropped.  A pointer to what is not open is undefined. *)
Definition dbclose (st : store) (db : Z) : outcome store :=
  if db =? 0 then Ret st
  else
    t ← checked (dbs st !! db);
    '(_, open) ← close acc t;
    Ret {| dbs := match open with Some t => <[db := t]> (dbs st) | None => delete db (dbs st) end;
           global_db := global_db st; registered := registered st |}.

Definition db_close_global (st : store) : outcome store :=
  if global_db st =? 0 then Ret st
  else st ← dbclose st (global_db st); Ret (set_global st 0).

(** [dbopen] gives the errno where it gives NULL, or the pointer and its database.
    [to_handle] says that [dbh] is not NULL; the second result is what is stored through it. *)
Definition db_open (dbopen : list Z -> Z -> outcome (Z + Z * T)) (st : store) (dbname : list Z) (flags : Z)
    (to_handle : bool) : outcome (Z * option Z * store) :=
  if negb to_handle && negb (global_db st =? 0) then Ret (- EBUSY, None, st)
  else
    r ← dbopen dbname (s32 flags);
    match r with
    | inl errno => Ret (errno, None, st)
    | inr (db, t) =>
        let st := set_db st db t in
        if to_handle then Ret (0, Some db, st)
        else Ret (0, None, {| dbs := dbs st; global_db := db; registered := S (registered st) |})
    end.

(** [exit] calls what is registered. *)
Fixpoint at_exit (n : nat) (st : store) : outcome store :=
  match n with O => Ret st | S n => st ← db_close_global st; at_exit n st end.
Definition do_exit (st : store) : outcome store := at_exit (registered st) st.

Definition GET_DB (st : store) (dbh : Z) : Z := if dbh =? 0 then global_db st else dbh.

(** The functions that start with GET_DB and call the database. *)
Definition with_db {A} (st : store) (dbh : Z) (failed : A) (f : T -> outcome (A * T)) : outcome (A * store) :=
  let db := GET_DB st dbh in
  if db =? 0 then Ret (failed, st)
  else t ← checked (dbs st !! db); '(a, t) ← f t; Ret (a, set_db st db t).

Definition db_close (st : store) (dbh : Z) : outcome (Z * store) :=
  let db := GET_DB st dbh in
  if db =? 0 then Ret (- EINVAL, st)
  else
    st ← (if db =? global_db st then db_close_global st else dbclose st db);
    Ret (0, st).

(** ** Records *)

(** What a DBT of a pointer and a size describes; a size beyond the memory is undefined. *)
Definition dbt (data : list Z) (size : Z) : outcome (list Z) :=
  if size <=? zlen data then Ret (take (Z.to_nat size) data) else Fault.

(** The int lengths become size_t.  [val] is not looked at for a length of 0. *)
Definition db_put_raw (st : store) (dbh : Z) (key : list Z) (klen : Z) (val : list Z) (len flags : Z) :
    outcome (Z * store) :=
  with_db st dbh (- EINVAL) (fun t =>
    k ← dbt key (u64 klen);
    d ← (if len =? 0 then Ret [] else dbt val (u64 len));
    put acc t k d flags).

(** Strings are given without their NUL; the length with it is an int. *)
Definition size_str (s : list Z) : Z := s32 (u64 (zlen s + 1)).

Definition db_put (st : store) (dbh : Z) (keystr val : list Z) (len : Z) : outcome (Z * store) :=
  db_put_raw st dbh (keystr ++ [0]) (size_str keystr) val len 0.

Definition db_put_str (st : store) (dbh : Z) (keystr : list Z) (valstr : option (list Z)) : outcome (Z * store) :=
  match valstr with
  | Some valstr => db_put_raw st dbh (keystr ++ [0]) (size_str keystr) (valstr ++ [0]) (size_str valstr) 0
  | None => db_put_raw st dbh (keystr ++ [0]) (size_str keystr) [] 0 0
  end.

(** The result and the buffer [val]. *)
Definition db_get_raw (st : store) (dbh : Z) (key : list Z) (klen : Z) (val : list Z) (len : Z) :
    outcome (Z * list Z * store) :=
  with_db st dbh (- EINVAL, val) (fun t =>
    k ← dbt key (u64 klen);
    '(rc, d, t) ← get acc t k true 0;
    if negb (rc =? 0) then Ret ((if rc <? 0 then rc else - rc), val, t)
    else
      d ← checked d;
      let len := if zlen d <? u64 len then s32 (zlen d) else len in
      if len <? 0 then Fault
      else val ← checked (mwrs val 0 (take (Z.to_nat len) d)); Ret (len, val, t)).

Definition db_get (st : store) (dbh : Z) (keystr val : list Z) (len : Z) : outcome (Z * list Z * store) :=
  db_get_raw st dbh (keystr ++ [0]) (size_str keystr) val len.

Definition db_get_str (st : store) (dbh : Z) (keystr valstr : list Z) (len : Z) : outcome (Z * list Z * store) :=
  '(rc, valstr, st) ← db_get st dbh keystr valstr len;
  if rc <=? 0 then Ret (rc, valstr, st)
  else if rd valstr (rc - 1) =? 0 then Ret (rc - 1, valstr, st)
  else if rc =? len then valstr ← checked (mwr valstr (len - 1) 0); Ret (rc, valstr, st)
  else valstr ← checked (mwr valstr rc 0); Ret (rc, valstr, st).

Definition db_peek (st : store) (dbh : Z) (keystr : list Z) : outcome (Z * store) :=
  with_db st dbh (- EINVAL) (fun t =>
    k ← dbt (keystr ++ [0]) (u64 (zlen keystr + 1));
    '(rc, _, t) ← get acc t k false 0;
    Ret (rc, t)).

Definition db_del (st : store) (dbh : Z) (keystr : list Z) : outcome (Z * store) :=
  with_db st dbh (- EINVAL) (fun t =>
    k ← dbt (keystr ++ [0]) (u64 (zlen keystr + 1));
    del acc t k 0).

(** A callback of the walk, with a state of its own: the key, the data and its size as an int.  It
    does not call the functions of the database. *)
Definition walker (A : Type) : Type := A -> list Z -> list Z -> Z -> Z * A.

(** The loop of the walk; the key of a record is passed on to the next call.  [fuel] bounds the
    records; running out of it is [None]. *)
Fixpoint walk_loop {A} (walk_func : walker A) (fuel : nat) (t : T) (a : A) (key : list Z) (flag rc : Z) :
    outcome (option (Z * A) * T) :=
  match fuel with
  | O => Ret (None, t)
  | S fuel =>
      '(status, k, d, t) ← seq acc t key flag;
      if status =? 0 then
        key ← checked k; data ← checked d;
        let '(rc, a) := walk_func a key data (s32 (zlen data)) in
        if negb (rc =? 0) then Ret (Some (rc, a), t)
        else walk_loop walk_func fuel t a key R_NEXT rc
      else Ret (Some (rc, a), t)
  end.

Definition db_walk {A} (fuel : nat) (st : store) (dbh : Z) (walk_func : option (walker A)) (a : A) :
    outcome (option (Z * A) * store) :=
  if GET_DB st dbh =? 0 then Ret (Some (- EINVAL, a), st)
  else
    match walk_func with
    | None => Ret (Some (- EINVAL, a), st)
    | Some walk_func =>
        with_db st dbh (Some (- EINVAL, a)) (fun t => walk_loop walk_func fuel t a [] R_FIRST 0)
    end.

End samdb.

(** ** The interface *)

(** The result for what is there or is not. *)
Definition found {A} (o : option A) : Z := match o with Some _ => 0 | None => 1 end.

(** What is there after a record was put in that may not take the place of another. *)
Definition kv_add (k d : list Z) (l : records) : records :=
  match kv_get k l with Some _ => l | None => kv_insert k d l end.

(** What a client relies on in a database without duplicate keys: the records it
    represents, the keys that can be looked up, when there is room for a record more, and where the scan
    is.  The flags are those that samdb.c uses itself, and R_NOOVERWRITE of db_put_raw. *)
Class Btree {T} (acc : DB T) (repr : T -> records -> Prop) (key_ok : list Z -> Prop)
    (room : T -> records -> list Z -> list Z -> Prop) (at_record : T -> records -> nat -> Prop) : Prop := {
  put_law t l k d : room t l k d ->
    (exists t', put acc t k d 0 = Ret (0, t') /\ repr t' (kv_insert k d l)) /\
    (exists t', put acc t k d R_NOOVERWRITE = Ret (1 - found (kv_get k l), t') /\ repr t' (kv_add k d l));
  get_law t l k want : repr t l -> key_ok k ->
    exists t', get acc t k want 0 = Ret (found (kv_get k l), if want : bool then kv_get k l else None, t') /\ repr t' l;
  del_law t l k : repr t l -> key_ok k ->
    exists t', del acc t k 0 = Ret (found (kv_get k l), t') /\ repr t' (kv_delete k l);
  first_law t l key : repr t l ->
    exists t', seq acc t key R_FIRST = Ret (found (head l), fst <$> head l, snd <$> head l, t') /\ repr t' l /\
      (l <> [] -> at_record t' l O);
  next_law t l i key : at_record t l i ->
    exists t', seq acc t key R_NEXT = Ret (found (l !! S i), fst <$> l !! S i, snd <$> l !! S i, t') /\ repr t' l /\
      (is_Some (l !! S i) -> at_record t' l (S i));
  room_law t l k d : room t l k d -> repr t l /\ key_ok k /\ zlen d < 2 ^ 31;
  key_law k : key_ok k -> zlen k < 2 ^ 31;
  data_law t l : repr t l -> Forall (fun r => zlen (snd r) < 2 ^ 31) l;
}.

(** ** Records *)

Lemma lookup_rd l i : 0 <= i < zlen l -> l !! Z.to_nat i = Some (rd l i).
Proof.
  unfold zlen, rd. intros Hi. destruct (lookup_lt_is_Some_2 l (Z.to_nat i)) as [x Hx]; [lia|].
  rewrite Hx. f_equal. symmetry. by apply nth_lookup_Some.
Qed.

Lemma rd_splice_last m s v : rd (splice m 0 (s ++ [v])) (zlen s) = v.
Proof.
  unfold rd, splice, zlen. rewrite Nat2Z.id. change (take (Z.to_nat 0) m) with (@nil Z).
  rewrite app_nil_l, <- app_assoc. apply nth_middle.
Qed.

Lemma kv_get_insert k d q l : kv_get q (kv_insert k d l) = if decide (q = k) then Some d else kv_get q l.
Proof.
  induction l as [|[k' d'] l IH]; cbn; [done|].
  destruct (decide (k = k')) as [<-|Hne]; cbn; [by destruct (decide (q = k))|].
  destruct (bytes_lt k k'); cbn; [done|]. rewrite IH.
  destruct (decide (q = k')) as [->|]; [|done]. by rewrite decide_False.
Qed.

Lemma kv_get_delete k q l : kv_get q (kv_delete k l) = if decide (q = k) then None else kv_get q l.
Proof.
  induction l as [|[k' d'] l IH]; cbn; [by destruct (decide (q = k))|].
  destruct (decide (k = k')) as [<-|Hne]; cbn; rewrite IH; [by destruct (decide (q = k))|].
  destruct (decide (q = k')) as [->|]; [|done]. by rewrite decide_False.
Qed.

Lemma kv_delete_absent k l : kv_get k l = None -> kv_delete k l = l.
Proof.
  induction l as [|[k' d] l IH]; cbn; [done|]. destruct (decide (k = k')); [done|]. intros H. by rewrite IH.
Qed.

Lemma kv_get_in k d l : kv_get k l = Some d -> (k, d) ∈ l.
Proof.
  induction l as [|[k' d'] l IH]; cbn; [done|]. destruct (decide (k = k')) as [->|_]; [intros [= ->]; by left|]. intros H. right. auto.
Qed.

Lemma kv_delete_insert k d l : kv_delete k (kv_insert k d l) = kv_delete k l.
Proof.
  induction l as [|[k' d'] l IH]; cbn; [by rewrite decide_True|]. destruct (decide (k = k')) as [<-|Hne]; cbn; [by rewrite decide_True|].
  destruct (bytes_lt k k'); cbn; [rewrite decide_True by done; by rewrite decide_False|]. rewrite decide_False by done. by rewrite IH.
Qed.

Lemma dbt_all s n : n = zlen s -> dbt s n = Ret s.
Proof. intros ->. unfold dbt. rewrite Z.leb_refl. unfold zlen. by rewrite Nat2Z.id, firstn_all. Qed.

Lemma size_str_id s : zlen s + 1 < 2 ^ 31 -> size_str s = zlen (s ++ [0]).
Proof.
  intros H. rewrite zlen_app. change (zlen [0]) with 1. pose proof (zlen_nonneg s).
  unfold size_str. rewrite u64_id by (unfold fits; lia). apply s32_id. lia.
Qed.

Lemma key_ends (q k : list Z) : q <> k -> q ++ [0] <> k ++ [0].
Proof. intros H E. apply H. by apply (app_inv_tail [0]). Qed.

(** ** Calls on an open database *)

(** What is read into a buffer, and the result. *)
Definition read_into (o : option (list Z)) (val : list Z) (len : Z) : Z * list Z :=
  match o with Some d => (Z.min len (zlen d), splice val 0 (take (Z.to_nat len) d)) | None => (-1, val) end.

(** What a string that is stored with its NUL is read as. *)
Definition read_str (o : option (list Z)) (val : list Z) (len : Z) : Z * list Z :=
  match o with Some s => (Z.min len (zlen s), splice val 0 (fit s len ++ [0])) | None => (-1, val) end.

(** The calls of the callback on the records, until it gives something else than 0. *)
Fixpoint walk_records {A} (walk_func : walker A) (l : records) (a : A) : Z * A :=
  match l with
  | [] => (0, a)
  | (k, d) :: l =>
      let '(rc, a) := walk_func a k d (zlen d) in if rc =? 0 then walk_records walk_func l a else (rc, a)
  end.

Section client.
Context {T : Type} {acc : DB T} {repr : T -> records -> Prop} {key_ok : list Z -> Prop} {room : T -> records -> list Z -> list Z -> Prop}
  {at_record : T -> records -> nat -> Prop} `{HB : !Btree acc repr key_ok room at_record}.

(** The database of the handle is open and has the records. *)
Definition holds (st : store (T := T)) (dbh : Z) (l : records) : Prop :=
  GET_DB st dbh <> 0 /\ exists t, dbs st !! GET_DB st dbh = Some t /\ repr t l.

(** It has room for a record, too. *)
Definition has_room (st : store (T := T)) (dbh : Z) (l : records) (k d : list Z) : Prop :=
  GET_DB st dbh <> 0 /\ exists t, dbs st !! GET_DB st dbh = Some t /\ room t l k d.

(** A call returns, and changes nothing but the database of its handle, which then has the records. *)
Definition gives {A} (run : outcome (A * store (T := T))) (a : A) (st : store) (dbh : Z) (l : records) : Prop :=
  exists t, run = Ret (a, set_db st (GET_DB st dbh) t) /\ repr t l.

Lemma gives_holds {A} run (a : A) st dbh l : gives run a st dbh l -> GET_DB st dbh <> 0 ->
  exists t, run = Ret (a, set_db st (GET_DB st dbh) t) /\ holds (set_db st (GET_DB st dbh) t) dbh l.
Proof. intros (t & E & Ht) H. exists t. split; [done|]. split; [done|]. exists t. split; [apply lookup_insert_eq|done]. Qed.

Lemma with_db_gives {A} st dbh (failed : A) f a l l' :
  holds st dbh l ->
  (forall t, dbs st !! GET_DB st dbh = Some t -> repr t l -> exists t', f t = Ret (a, t') /\ repr t' l') ->
  gives (with_db st dbh failed f) a st dbh l'.
Proof using.
  intros (H0 & t & Ht & Hr) Hf. destruct (Hf t Ht Hr) as (t' & E & Hr'). exists t'. split; [|done].
  unfold with_db. rewrite (proj2 (Z.eqb_neq _ _) H0), Ht. cbn [checked mbind outcome_bind]. by rewrite E.
Qed.

(** The sizes of what is in memory. *)
Lemma dbt_key k : key_ok k -> dbt k (u64 (zlen k)) = Ret k.
Proof using HB. intros H%key_law. apply dbt_all, u64_id. pose proof (zlen_nonneg k). unfold fits. lia. Qed.

Lemma put_raw_spec st dbh l key val : has_room st dbh l key val ->
  gives (db_put_raw acc st dbh key (zlen key) val (zlen val) 0) 0 st dbh (kv_insert key val l) /\
  gives (db_put_raw acc st dbh key (zlen key) val (zlen val) R_NOOVERWRITE) (1 - found (kv_get key l)) st dbh (kv_add key val l).
Proof using HB.
  intros (H0 & t & Ht & Hroom). destruct (room_law _ _ _ _ Hroom) as (_ & Hk & Hv).
  assert (E : (if zlen val =? 0 then Ret [] else dbt val (u64 (zlen val))) = Ret val).
  { pose proof (zlen_nonneg val). destruct (Z.eqb_spec (zlen val) 0) as [E|_]; [by rewrite (zlen_nil_inv _ E)|].
    apply dbt_all, u64_id. unfold fits. lia. }
  unfold db_put_raw, with_db. rewrite (proj2 (Z.eqb_neq _ _) H0), Ht. cbn [checked mbind outcome_bind].
  rewrite (dbt_key key Hk), E. cbn [mbind outcome_bind]. destruct (put_law t l key val Hroom) as [(t1 & -> & H1) (t2 & -> & H2)].
  split; [exists t1|exists t2]; by split.
Qed.

Lemma put_str_spec st dbh l k s : has_room st dbh l (k ++ [0]) (s ++ [0]) ->
  gives (db_put_str acc st dbh k (Some s)) 0 st dbh (kv_insert (k ++ [0]) (s ++ [0]) l).
Proof using HB.
  intros H. pose proof H as (_ & t & Ht & Hroom). destruct (room_law _ _ _ _ Hroom) as (_ & Hk%key_law & Hv).
  rewrite zlen_app in Hk, Hv. change (zlen [0]) with 1 in Hk, Hv.
  unfold db_put_str. rewrite !size_str_id by done. by apply put_raw_spec.
Qed.

Lemma room_holds st dbh l k d : has_room st dbh l k d -> holds st dbh l /\ key_ok k.
Proof using HB.
  intros (H0 & t & Ht & Hroom). destruct (room_law _ _ _ _ Hroom) as (Hr & Hk & _). split; [|done]. split; [done|by exists t].
Qed.

Lemma get_raw_spec st dbh l key val len :
  holds st dbh l -> key_ok key -> 0 <= len <= zlen val -> len < 2 ^ 31 ->
  gives (db_get_raw acc st dbh key (zlen key) val len) (read_into (kv_get key l) val len) st dbh l.
Proof using HB.
  intros H Hk Hl Hl'. unfold db_get_raw. apply (with_db_gives _ _ _ _ _ l); [done|]. intros t _ Hr.
  rewrite dbt_key by done. cbn [mbind outcome_bind]. destruct (get_law t l key true Hr Hk) as (t' & -> & Hr'). cbn [mbind outcome_bind].
  exists t'. split; [|done]. destruct (kv_get key l) as [d|] eqn:Ed; [|done]. cbn [negb Z.eqb checked mbind outcome_bind read_into].
  pose proof (proj1 (Forall_forall _ _) (data_law t l Hr) _ (kv_get_in _ _ _ Ed)) as Hd. cbn [snd] in Hd. pose proof (zlen_nonneg d) as H0d. rewrite u64_id by (unfold fits; lia).
  replace (if zlen d <? len then s32 (zlen d) else len) with (Z.min len (zlen d))
    by (rewrite s32_id by lia; destruct (Z.ltb_spec (zlen d) len); lia).
  rewrite (proj2 (Z.ltb_ge (Z.min len (zlen d)) 0)) by lia.
  replace (take (Z.to_nat (Z.min len (zlen d))) d) with (take (Z.to_nat len) d).
  2:{ destruct (Z.le_ge_cases len (zlen d)); [by rewrite Z.min_l by done|]. rewrite Z.min_r by done. unfold zlen in *. by rewrite !take_ge by lia. }
  rewrite mwrs_some; [done|lia|]. unfold zlen in *. rewrite length_take. lia.
Qed.

Lemma peek_spec st dbh l k :
  holds st dbh l -> key_ok (k ++ [0]) ->
  gives (db_peek acc st dbh k) (found (kv_get (k ++ [0]) l)) st dbh l.
Proof using HB.
  intros H Hk. unfold db_peek. apply (with_db_gives _ _ _ _ _ l); [done|]. intros t _ Hr.
  replace (zlen k + 1) with (zlen (k ++ [0])) by by rewrite zlen_app. rewrite dbt_key by done. cbn [mbind outcome_bind].
  destruct (get_law t l (k ++ [0]) false Hr Hk) as (t' & -> & Hr'). by exists t'.
Qed.

Lemma del_spec st dbh l k :
  holds st dbh l -> key_ok (k ++ [0]) ->
  gives (db_del acc st dbh k) (found (kv_get (k ++ [0]) l)) st dbh (kv_delete (k ++ [0]) l).
Proof using HB.
  intros H Hk. unfold db_del. apply (with_db_gives _ _ _ _ _ l); [done|]. intros t _ Hr.
  replace (zlen k + 1) with (zlen (k ++ [0])) by by rewrite zlen_app. rewrite dbt_key by done. cbn [mbind outcome_bind].
  by apply del_law.
Qed.

(** A stored string comes back, cut to the buffer and terminated. *)
Lemma get_str_spec st dbh l k val len (o : option (list Z)) :
  holds st dbh l -> key_ok (k ++ [0]) -> kv_get (k ++ [0]) l = (fun s => s ++ [0]) <$> o -> from_option (Forall (fun c => c <> 0)) True o ->
  0 < len <= zlen val -> len < 2 ^ 31 ->
  gives (db_get_str acc st dbh k val len) (read_str o val len) st dbh l.
Proof using HB.
  intros H Hk Eo Ho Hl Hl'. pose proof (key_law _ Hk) as Hk'. rewrite zlen_app in Hk'. change (zlen [0]) with 1 in Hk'.
  destruct (get_raw_spec st dbh l (k ++ [0]) val len H Hk ltac:(lia) Hl') as (t' & E & Hr'). exists t'. split; [|done].
  unfold db_get_str, db_get. rewrite size_str_id, E, Eo by lia. clear E. destruct o as [s|]; [|done].
  cbn [fmap option_fmap option_map read_into mbind outcome_bind read_str from_option] in *.
  rewrite zlen_app. change (zlen [0]) with 1. pose proof (zlen_nonneg s). rewrite (proj2 (Z.leb_gt _ _)) by lia.
  destruct (Z.lt_ge_cases (zlen s) len) as [Hlt|Hge].
  - rewrite !Z.min_r by lia. rewrite take_ge by (rewrite length_app; unfold zlen in *; cbn; lia). rewrite fit_all by done.
    replace (zlen s + 1 - 1) with (zlen s) by lia. by rewrite rd_splice_last.
  - rewrite !Z.min_l by lia. rewrite take_app_le by (unfold zlen in *; lia).
    assert (Et : take (Z.to_nat len) s = fit s len ++ [rd s (len - 1)]).
    { unfold fit. replace (Z.to_nat len) with (S (Z.to_nat (len - 1))) by lia. apply take_S_r, lookup_rd; lia. }
    rewrite Et. assert (Hf : zlen (fit s len) = len - 1) by (rewrite zlen_fit; lia).
    replace (rd (splice val 0 (fit s len ++ [rd s (len - 1)])) (len - 1)) with (rd s (len - 1)).
    2:{ symmetry. pose proof (rd_splice_last val (fit s len) (rd s (len - 1))) as E. by rewrite Hf in E. }
    destruct (Z.eqb_spec (rd s (len - 1)) 0) as [E|_].
    { exfalso. assert (Hlk : s !! Z.to_nat (len - 1) = Some (rd s (len - 1))) by (apply lookup_rd; lia).
      by apply (Forall_lookup_1 _ _ _ _ Ho) in Hlk. }
    rewrite Z.eqb_refl, mwr_some.
    2:{ rewrite zlen_splice; [lia|lia|]. unfold zlen in *. rewrite length_app. cbn. lia. }
    cbn [checked mbind outcome_bind]. do 3 f_equal.
    pose proof (splice_overwrite val 0 (fit s len) [rd s (len - 1)] [0]) as E.
    rewrite Hf, Z.add_0_l in E. apply E; [done..|]. change (zlen [0]) with 1. lia.
Qed.

(** ** The walk *)

Lemma walk_loop_next {A} (walk_func : walker A) l rest : forall t i a key fuel,
  at_record t l i -> drop (S i) l = rest -> Forall (fun r => zlen (snd r) < 2 ^ 31) l -> (length rest < fuel)%nat ->
  exists t', walk_loop acc walk_func fuel t a key R_NEXT 0 = Ret (Some (walk_records walk_func rest a), t') /\ repr t' l.
Proof using HB.
  induction rest as [|[k d] rest IH]; intros t i a key [|fuel] Ht Hd Hs Hf; try (cbn in Hf; lia); cbn [walk_loop walk_records];
    destruct (next_law t l i key Ht) as (t' & -> & Hr & Ha); cbn [mbind outcome_bind].
  - apply (f_equal length) in Hd. rewrite length_drop in Hd. cbn [length] in Hd. rewrite (lookup_ge_None_2 l (S i)) by lia. by exists t'.
  - assert (Hi : l !! S i = Some (k, d)) by (rewrite <- (Nat.add_0_r (S i)), <- lookup_drop, Hd; done).
    rewrite Hi in *. cbn. pose proof (Forall_lookup_1 _ _ _ _ Hs Hi) as Hz. cbn in Hz. pose proof (zlen_nonneg d).
    rewrite s32_id by lia. destruct (walk_func a k d (zlen d)) as [rc a']. destruct (Z.eqb_spec rc 0) as [->|Hrc]; cbn [negb].
    + apply (IH t' (S i)); [by apply Ha|by apply drop_S in Hi; rewrite Hd in Hi; injection Hi|done|cbn in Hf; lia].
    + by exists t'.
Qed.

Lemma walk_spec {A} st dbh l (walk_func : walker A) a fuel :
  holds st dbh l -> (length l < fuel)%nat ->
  gives (db_walk acc fuel st dbh (Some walk_func) a) (Some (walk_records walk_func l a)) st dbh l.
Proof using HB.
  intros H Hf. unfold db_walk. rewrite (proj2 (Z.eqb_neq _ _) (proj1 H)).
  apply (with_db_gives _ _ _ _ _ l); [done|]. intros t _ Hr. destruct fuel as [|fuel]; [lia|]. cbn [walk_loop].
  pose proof (data_law t l Hr) as Hs. destruct (first_law t l [] Hr) as (t' & -> & Hr' & Ha). cbn [mbind outcome_bind].
  destruct l as [|[k d] l]; cbn; [by exists t'|]. pose proof (Forall_inv Hs) as Hz. cbn in Hz. pose proof (zlen_nonneg d).
  rewrite s32_id by lia. destruct (walk_func a k d (zlen d)) as [rc a']. destruct (Z.eqb_spec rc 0) as [->|Hrc]; cbn [negb].
  - apply (walk_loop_next walk_func ((k, d) :: l) l t' 0); [by apply Ha|done|done|cbn in Hf; lia].
  - by exists t'.
Qed.

(** A scan that fails ends the walk as the end of the records does: with the result of the last callback. *)
Lemma walk_error {A} st dbh t k d t' status (walk_func : walker A) a fuel :
  GET_DB st dbh <> 0 -> dbs st !! GET_DB st dbh = Some t -> seq acc t [] R_FIRST = Ret (status, k, d, t') -> status <> 0 ->
  db_walk acc (S fuel) st dbh (Some walk_func) a = Ret (Some (0, a), set_db st (GET_DB st dbh) t').
Proof using.
  intros H0 Ht E Hs. unfold db_walk, with_db. rewrite !(proj2 (Z.eqb_neq _ _) H0), Ht. cbn [checked mbind outcome_bind walk_loop].
  rewrite E. cbn [mbind outcome_bind]. by rewrite (proj2 (Z.eqb_neq _ _) Hs).
Qed.
End client.

(** ** Handles *)

Section handles.
Context {T A : Type} (acc : DB T).

(** The calls of a program. *)
Inductive call :=
  | Open (dbopen : list Z -> Z -> outcome (Z + Z * T)) (dbname : list Z) (flags : Z) (to_handle : bool)
  | Close (dbh : Z)
  | PutRaw (dbh : Z) (key : list Z) (klen : Z) (val : list Z) (len flags : Z)
  | Put (dbh : Z) (keystr val : list Z) (len : Z)
  | PutStr (dbh : Z) (keystr : list Z) (valstr : option (list Z))
  | GetRaw (dbh : Z) (key : list Z) (klen : Z) (val : list Z) (len : Z)
  | Get (dbh : Z) (keystr val : list Z) (len : Z)
  | GetStr (dbh : Z) (keystr valstr : list Z) (len : Z)
  | Peek (dbh : Z) (keystr : list Z)
  | Del (dbh : Z) (keystr : list Z)
  | Walk (fuel : nat) (dbh : Z) (walk_func : option (walker A)) (a : A).

(** The store after a call. *)
Definition the_store {R} (x : outcome (R * store (T := T))) : outcome store := '(_, st) ← x; Ret st.

Definition run (c : call) (st : store) : outcome store :=
  match c with
  | Open dbopen dbname flags to_handle => the_store (db_open dbopen st dbname flags to_handle)
  | Close dbh => the_store (db_close acc st dbh)
  | PutRaw dbh key klen val len flags => the_store (db_put_raw acc st dbh key klen val len flags)
  | Put dbh keystr val len => the_store (db_put acc st dbh keystr val len)
  | PutStr dbh keystr valstr => the_store (db_put_str acc st dbh keystr valstr)
  | GetRaw dbh key klen val len => the_store (db_get_raw acc st dbh key klen val len)
  | Get dbh keystr val len => the_store (db_get acc st dbh keystr val len)
  | GetStr dbh keystr valstr len => the_store (db_get_str acc st dbh keystr valstr len)
  | Peek dbh keystr => the_store (db_peek acc st dbh keystr)
  | Del dbh keystr => the_store (db_del acc st dbh keystr)
  | Walk fuel dbh walk_func a => the_store (db_walk acc fuel st dbh walk_func a)
  end.

(** The handle a call is given. *)
Definition handle_of (c : call) : option Z :=
  match c with
  | Open _ _ _ _ => None
  | Close dbh | PutRaw dbh _ _ _ _ _ | Put dbh _ _ _ | PutStr dbh _ _ | GetRaw dbh _ _ _ _ | Get dbh _ _ _
  | GetStr dbh _ _ _ | Peek dbh _ | Del dbh _ | Walk _ dbh _ _ => Some dbh
  end.

(** What dbopen gives is allocated: its pointer is not NULL and not in use.  It may be that of
    a database that was closed. *)
Definition allocated (c : call) (st : store (T := T)) : Prop :=
  match c with
  | Open dbopen dbname flags _ => forall db t, dbopen dbname (s32 flags) = Ret (inr (db, t)) -> db <> 0 /\ dbs st !! db = None
  | _ => True
  end.

Definition start : store (T := T) := {| dbs := ∅; global_db := 0; registered := 0 |}.

(** What a program can get to, with the handles it likes. *)
Inductive reaches : store (T := T) -> Prop :=
  | reaches_start : reaches start
  | reaches_call st c st' : reaches st -> allocated c st -> run c st = Ret st' -> reaches st'.

(** The global handle is NULL, or open and to be closed at exit. *)
Record wf (st : store (T := T)) : Prop := {
  wf_global : global_db st = 0 \/ is_Some (dbs st !! global_db st) /\ registered st <> O;
  wf_null : dbs st !! 0 = None;
}.

(** A call on a handle changes the database of the handle only, or it closes it. *)
Inductive touches (st : store (T := T)) (db : Z) : store -> Prop :=
  | touches_none : touches st db st
  | touches_db t : dbs st !! db <> None -> touches st db (set_db st db t)
  | touches_close open : db <> 0 -> touches st db
      {| dbs := match open with Some t => <[db := t]> (dbs st) | None => delete db (dbs st) end;
         global_db := if db =? global_db st then 0 else global_db st; registered := registered st |}.

Lemma with_db_touches {R} st dbh (failed : R) f a st' : with_db st dbh failed f = Ret (a, st') -> touches st (GET_DB st dbh) st'.
Proof.
  unfold with_db. destruct (_ =? 0); [intros [= _ <-]; constructor|]. destruct (dbs st !! GET_DB st dbh) as [t|] eqn:E; [|done].
  cbn. destruct (f t) as [[r t']| |]; [|done..]. intros [= _ <-]. constructor. by rewrite E.
Qed.

Lemma the_store_ret {R} (x : outcome (R * store (T := T))) st : the_store x = Ret st -> exists a, x = Ret (a, st).
Proof. destruct x as [[a st']| |]; [|done..]. intros [= <-]. by exists a. Qed.

(** db_close_global and dbclose, together. *)
Lemma db_close_spec st dbh t : dbs st !! GET_DB st dbh = Some t -> GET_DB st dbh <> 0 ->
  db_close acc st dbh = '(_, open) ← close acc t;
    Ret (0, {| dbs := match open with Some t => <[GET_DB st dbh := t]> (dbs st) | None => delete (GET_DB st dbh) (dbs st) end;
               global_db := if GET_DB st dbh =? global_db st then 0 else global_db st; registered := registered st |}).
Proof.
  intros Ht H0. unfold db_close. rewrite (proj2 (Z.eqb_neq _ _) H0).
  destruct (Z.eqb_spec (GET_DB st dbh) (global_db st)) as [E|_]; unfold db_close_global, dbclose; rewrite <- ?E;
    rewrite ?(proj2 (Z.eqb_neq _ _) H0), Ht; cbn [checked mbind outcome_bind]; by destruct (close acc t) as [[rc open]| |].
Qed.

Lemma run_touches c st st' dbh : handle_of c = Some dbh -> run c st = Ret st' -> touches st (GET_DB st dbh) st'.
Proof.
  assert (Hget : forall s v len a, db_get_str acc st dbh s v len = Ret (a, st') -> touches st (GET_DB st dbh) st').
  { intros s v len a. unfold db_get_str, db_get. destruct (db_get_raw acc st dbh (s ++ [0]) _ v len) as [[[rc v'] st1]| |] eqn:E; [|done..].
    apply with_db_touches in E. cbn. destruct (rc <=? 0); [by intros [= _ <-]|]. destruct (_ =? 0); [by intros [= _ <-]|].
    destruct (rc =? len); (destruct (mwr _ _ _); [|done]); by intros [= _ <-]. }
  destruct c; cbn [handle_of run]; [done|..]; intros [= ->] [r E]%the_store_ret; try (by apply with_db_touches in E).
  - destruct (Z.eqb_spec (GET_DB st dbh) 0) as [E0|H0]; [unfold db_close in E; cbv zeta in E; rewrite E0 in E; injection E as _ <-; constructor|].
    destruct (dbs st !! GET_DB st dbh) as [t|] eqn:Et.
    + rewrite (db_close_spec st dbh t Et H0) in E. destruct (close acc t) as [[rc open]| |]; [|done..]. injection E as _ <-. by constructor.
    + unfold db_close, db_close_global, dbclose in E. cbv zeta in E. rewrite (proj2 (Z.eqb_neq _ _) H0) in E.
      destruct (Z.eqb_spec (GET_DB st dbh) (global_db st)) as [Eg|_]; rewrite <- ?Eg, ?(proj2 (Z.eqb_neq _ _) H0), Et in E; done.
  - unfold db_put_str in E. destruct valstr; by apply with_db_touches in E.
  - by apply Hget in E.
  - unfold db_walk in E. destruct (_ =? 0); [injection E as _ <-; constructor|].
    destruct walk_func; [by apply with_db_touches in E|injection E as _ <-; constructor].
Qed.

Lemma db_open_spec (dbopen : list Z -> Z -> outcome (Z + Z * T)) (st : store (T := T)) dbname flags (to_handle : bool) :
  (to_handle = false -> global_db st <> 0 -> db_open dbopen st dbname flags to_handle = Ret (- EBUSY, None, st)) /\
  (to_handle = true \/ global_db st = 0 -> db_open dbopen st dbname flags to_handle =
     r ← dbopen dbname (s32 flags);
     match r with
     | inl errno => Ret (errno, None, st)
     | inr (db, t) =>
         Ret (if to_handle then (0, Some db, set_db st db t)
              else (0, None, {| dbs := <[db := t]> (dbs st); global_db := db; registered := S (registered st) |}))
     end).
Proof.
  unfold db_open. split.
  - intros -> H. by rewrite (proj2 (Z.eqb_neq _ _) H).
  - intros H. replace (negb to_handle && negb (global_db st =? 0)) with false by (destruct H as [-> | ->]; [done|by destruct to_handle]).
    apply bind_ext. intros [e|[db t]] _; [done|]. by destruct to_handle.
Qed.

Lemma wf_touches st db st' : wf st -> touches st db st' -> wf st'.
Proof.
  intros [Hg Hn] [|t Hdb|open Hdb]; [done|..]; split; cbn.
  - destruct Hg as [Hg|[Hg Hr]]; [by left|right]. split; [|done]. apply lookup_insert_is_Some'. by right.
  - rewrite lookup_insert_ne; [done|]. intros E. by rewrite E in Hdb.
  - destruct (Z.eqb_spec db (global_db st)) as [_|Hne]; [by left|]. destruct Hg as [Hg|[Hg Hr]]; [by left|right]. split; [|done].
    destruct open; [by rewrite lookup_insert_ne|by rewrite lookup_delete_ne].
  - destruct open; [by rewrite lookup_insert_ne|by rewrite lookup_delete_ne].
Qed.

Lemma wf_open dbopen dbname flags to_handle st st' :
  wf st -> allocated (Open dbopen dbname flags to_handle) st -> run (Open dbopen dbname flags to_handle) st = Ret st' -> wf st'.
Proof.
  intros [Hg Hn] Ha [[rc h] E]%the_store_ret. cbn in Ha. destruct (db_open_spec dbopen st dbname flags to_handle) as [Hb Ho].
  destruct (decide (to_handle = false /\ global_db st <> 0)) as [[H1 H2]|H].
  { rewrite (Hb H1 H2) in E. by injection E as _ _ <-. }
  rewrite Ho in E by (destruct to_handle; [by left|right; destruct (decide (global_db st = 0)); [done|by destruct H]]).
  destruct (dbopen dbname (s32 flags)) as [[e|[db t]]| |]; [by injection E as _ _ <-| |done..].
  destruct (Ha db t eq_refl) as [H0 Hf]. destruct to_handle; injection E as _ _ <-; split; cbn; rewrite ?lookup_insert_ne by done; try done.
  - destruct Hg as [Hg|[Hg Hr]]; [by left|right]. split; [|done]. apply lookup_insert_is_Some'. by right.
  - right. split; [by rewrite lookup_insert_eq|done].
Qed.

Lemma reaches_wf st : reaches st -> wf st.
Proof.
  induction 1 as [|st c st' _ IH Ha E]; [split; [by left|done]|].
  destruct (handle_of c) as [dbh|] eqn:Eh; [exact (wf_touches _ _ _ IH (run_touches c st st' dbh Eh E))|].
  destruct c; try done. by eapply wf_open.
Qed.

Lemma touches_others st db st' x : touches st db st' -> x <> db -> dbs st' !! x = dbs st !! x.
Proof.
  intros [|t Hdb|open Hdb] Hne; cbn; [done|by rewrite lookup_insert_ne|]. destruct open; [by rewrite lookup_insert_ne|by rewrite lookup_delete_ne].
Qed.

(** What is registered again and again closes the global database once. *)
Lemma at_exit_null n st : global_db st = 0 -> at_exit acc n st = Ret st.
Proof. intros H. induction n as [|n IH]; [done|]. cbn. unfold db_close_global. rewrite H. exact IH. Qed.

Lemma do_exit_spec st t : wf st -> global_db st <> 0 -> dbs st !! global_db st = Some t ->
  do_exit acc st = '(_, open) ← close acc t;
    Ret {| dbs := match open with Some t => <[global_db st := t]> (dbs st) | None => delete (global_db st) (dbs st) end;
           global_db := 0; registered := registered st |}.
Proof.
  intros [Hg _] H0 Ht. destruct Hg as [Hg|[_ Hr]]; [done|]. unfold do_exit. destruct (registered st) as [|n] eqn:En; [done|]. cbn.
  unfold db_close_global, dbclose. rewrite !(proj2 (Z.eqb_neq _ _) H0), Ht. cbn [checked mbind outcome_bind].
  destruct (close acc t) as [[rc open]| |]; [|done..]. cbn. rewrite at_exit_null by done. unfold set_global. cbn. by rewrite En.
Qed.

Lemma run_others c st st' db t : allocated c st -> run c st = Ret st' -> dbs st !! db = Some t ->
  (forall dbh, handle_of c = Some dbh -> GET_DB st dbh <> db) -> dbs st' !! db = Some t.
Proof.
  intros Ha E Ht Hne. rewrite <- Ht. destruct (handle_of c) as [dbh|] eqn:Eh.
  { apply (touches_others st (GET_DB st dbh)); [by apply (run_touches c)|]. intros ->. by apply (Hne dbh). }
  destruct c as [dbopen name flags to_handle| | | | | | | | | |]; try done. apply the_store_ret in E as [[rc h] E]. cbn in Ha.
  unfold db_open in E. destruct (_ && _); [by injection E as _ _ <-|].
  destruct (dbopen name (s32 flags)) as [[e|[p t']]| |]; [by injection E as _ _ <-| |done..]. destruct (Ha p t' eq_refl) as [_ Hp].
  destruct to_handle; injection E as _ _ <-; cbn; apply lookup_insert_ne; congruence.
Qed.

(** C33: Whatever calls a program makes, with whatever handles, the global handle is NULL or a database
    that is open and will be closed at exit, and a call leaves the databases of other handles
    as they are.  Opening the global database while it is open gives -EBUSY; a dbopen that fails
    gives its errno and changes nothing, one that works gives a handle, or sets the global one, for
    the database it gave.  db_close returns 0 and closes the database it is given, which stays as
    the close function leaves it where that fails; the global handle is NULL then, also when the
    database was given by its own pointer, and at exit the global database is closed once.  Without a
    global database NULL gives -EINVAL everywhere. *)
Theorem samdb_handles (st : store (T := T)) (dbopen : list Z -> Z -> outcome (Z + Z * T)) (name : list Z) (flags : Z)
    (to_handle : bool) (dbh : Z) (key val buf : list Z) (klen len : Z) (fuel : nat) (walk_func : option (walker A)) (a : A) :
  reaches st ->
  wf st /\
  (forall c st' db t, allocated c st -> run c st = Ret st' -> dbs st !! db = Some t ->
     (forall dbh, handle_of c = Some dbh -> GET_DB st dbh <> db) -> dbs st' !! db = Some t) /\
  (if negb to_handle && negb (global_db st =? 0) then db_open dbopen st name flags to_handle = Ret (- EBUSY, None, st)
   else match dbopen name (s32 flags) with
        | Ret (inl errno) => db_open dbopen st name flags to_handle = Ret (errno, None, st)
        | Ret (inr (db, t)) => db <> 0 -> exists st', dbs st' = <[db := t]> (dbs st) /\
            db_open dbopen st name flags to_handle = Ret (0, if to_handle then Some db else None, st') /\
            GET_DB st' (if to_handle then db else 0) = db /\ (to_handle = true -> global_db st' = global_db st)
        | _ => True
        end) /\
  (forall t, dbs st !! GET_DB st dbh = Some t ->
     match close acc t with
     | Ret (_, open) => exists st', db_close acc st dbh = Ret (0, st') /\
         dbs st' = match open with Some t => <[GET_DB st dbh := t]> (dbs st) | None => delete (GET_DB st dbh) (dbs st) end /\
         global_db st' = if GET_DB st dbh =? global_db st then 0 else global_db st
     | _ => True
     end) /\
  (if global_db st =? 0 then do_exit acc st = Ret st
   else exists t, dbs st !! global_db st = Some t /\
     match close acc t with
     | Ret (_, open) => exists st', do_exit acc st = Ret st' /\ global_db st' = 0 /\
         dbs st' = match open with Some t => <[global_db st := t]> (dbs st) | None => delete (global_db st) (dbs st) end
     | _ => True
     end) /\
  (global_db st = 0 ->
     db_close acc st 0 = Ret (- EINVAL, st) /\ db_put_raw acc st 0 key klen val len flags = Ret (- EINVAL, st) /\
     db_get_raw acc st 0 key klen buf len = Ret (- EINVAL, buf, st) /\ db_get_str acc st 0 key buf len = Ret (- EINVAL, buf, st) /\
     db_peek acc st 0 key = Ret (- EINVAL, st) /\ db_del acc st 0 key = Ret (- EINVAL, st) /\
     db_walk acc fuel st 0 walk_func a = Ret (Some (- EINVAL, a), st)).
Proof.
  intros Hr. pose proof (reaches_wf st Hr) as Hw. pose proof (wf_null _ Hw) as H0.
  split; [done|split; [intros c st1 db t; apply run_others|split; [|split; [|split]]]].
  - destruct (db_open_spec dbopen st name flags to_handle) as [Hb Ho]. destruct (negb to_handle && negb (global_db st =? 0)) eqn:Eb.
    { apply andb_true_iff in Eb as [E1%negb_true_iff E2%negb_true_iff%Z.eqb_neq]. by apply Hb. }
    rewrite Ho. 2:{ destruct to_handle; [by left|right]. destruct (Z.eqb_spec (global_db st) 0); [done|discriminate]. }
    destruct (dbopen name (s32 flags)) as [[e|[db t]]| |]; cbn; [done| |done..]. intros Hdb.
    destruct to_handle; eexists; (split; [|split; [reflexivity|]]); unfold GET_DB; cbn; try done.
    by rewrite (proj2 (Z.eqb_neq _ _) Hdb).
  - intros t Ht. destruct (close acc t) as [[rc open]| |] eqn:Ec; [|done..].
    rewrite (db_close_spec st dbh t Ht) by (intros E; by rewrite E, H0 in Ht). rewrite Ec. by eexists.
  - destruct (Z.eqb_spec (global_db st) 0) as [E|Hg]; [by apply at_exit_null|].
    destruct (wf_global _ Hw) as [|[[t Ht] _]]; [done|]. exists t. split; [done|]. rewrite (do_exit_spec st t) by done.
    destruct (close acc t) as [[rc open]| |]; [|done..]. by eexists.
  - intros Hg. unfold db_get_str, db_get, db_close, db_put_raw, db_get_raw, db_peek, db_del, db_walk, with_db, GET_DB.
    change (0 =? 0) with true. cbv iota zeta. by rewrite Hg.
Qed.
End handles.
Arguments call : clear implicits.

(** One record, in a database that cannot be closed the first time. *)
Definition one : Type := bool * list Z.
Definition stubborn : DB one :=
  {| close := fun t : one => Ret (if fst t then (-1, Some (false, snd t)) else (0, None));
     del := fun (t : one) _ _ => Ret (0, (fst t, []));
     get := fun (t : one) _ want _ => Ret (0, if want then Some (snd t) else None, t);
     put := fun (t : one) _ d _ => Ret (0, (fst t, d));
     seq := fun (t : one) _ flag => Ret (if flag =? R_FIRST then (0, Some [], Some (snd t), t) else (1, None, None, t)) |}.
Definition opens (db : Z) (name : list Z) (flags : Z) : outcome (Z + Z * one) := Ret (inr (db, (true, []))).

Lemma samdb_handles_witness :
  let st := {| dbs := {[ 1 := (true, [7]) : one ]}; global_db := 1; registered := 1 |} in
  db_open (opens 2) st [] 0 false = Ret (- EBUSY, None, st) /\
  exists st', db_close stubborn st 1 = Ret (0, st') /\ dbs st' = <[1 := (false, [7])]> (dbs st) /\ global_db st' = 0.
Proof.
  intros st. assert (Hr : reaches (A := unit) stubborn st).
  { assert (E : Ret st = run (A := unit) stubborn (PutRaw 0 [1] 1 [7] 1 0) {| dbs := {[ 1 := (true, []) : one ]}; global_db := 1; registered := 1 |}) by reflexivity.

    refine (reaches_call stubborn _ _ _ _ _ (eq_sym E)); [|exact I].
    eapply (reaches_call stubborn start (Open (opens 1) [] 0 false)); [constructor| |reflexivity]. intros db t [= <- <-]. done. }
  pose proof (samdb_handles stubborn st (opens 2) [] 0 false 1 [] [] [] 0 0 0 None tt Hr) as (_ & _ & Ho & Hc & _).
  split; [exact Ho|]. exact (Hc (true, [7]) (lookup_singleton_eq _ _)).
Defined.
End Samdb.
