(* ===== verification/Mpool.v ===== *)
(** The buffer pool of the database (db.1.85/mpool.c): pages of a file cached in
    buckets, which are threaded on a queue in the order of their use and on hash
    chains.  A pool with its file represents the list of the pages that the
    clients have stored; every operation keeps that list, whichever buckets it
    takes for other pages and whatever calls of the system fail. *)

From S2P Require Import Prelude.

Module Mpool.

(** ** Data (mpool.h, db.h) *)

Definition HASHSIZE : Z := 128.
Definition HASHKEY (pgno : Z) : Z := u32 (pgno - 1) mod HASHSIZE.
Definition MPOOL_DIRTY : Z := 1.
Definition MPOOL_PINNED : Z := 2.
Definition MAX_PAGE_NUMBER : Z := 4294967295.
Definition RET_ERROR : Z := -1.
Definition RET_SUCCESS : Z := 0.
Definition EFTYPE : Z := EINVAL.
Definition ESPIPE : Z := 29.

Record BKT := { page : list Z; pgno : Z; flags : Z }.

(** A conversion routine, with its cookie. *)
Definition filter_fn : Type := Z -> list Z -> list Z.

(** The queues hold pointers to buckets: indices in [memory], the buckets that
    were allocated.  A page pointer is the index of the bucket it is in. *)
Record MPOOL := {
  lqh : list nat;
  hqh : list (list nat);
  curcache : Z;
  maxcache : Z;
  npages : Z;
  pagesize : Z;
  pgin : option filter_fn;
  pgout : option filter_fn;
  memory : list BKT;
}.

Definition put_lqh (mp : MPOOL) (q : list nat) : MPOOL :=
  {| lqh := q; hqh := hqh mp; curcache := curcache mp; maxcache := maxcache mp; npages := npages mp;
     pagesize := pagesize mp; pgin := pgin mp; pgout := pgout mp; memory := memory mp |}.

Definition put_hqh (mp : MPOOL) (q : list (list nat)) : MPOOL :=
  {| lqh := lqh mp; hqh := q; curcache := curcache mp; maxcache := maxcache mp; npages := npages mp;
     pagesize := pagesize mp; pgin := pgin mp; pgout := pgout mp; memory := memory mp |}.

Definition put_npages (mp : MPOOL) (n : Z) : MPOOL :=
  {| lqh := lqh mp; hqh := hqh mp; curcache := curcache mp; maxcache := maxcache mp; npages := n;
     pagesize := pagesize mp; pgin := pgin mp; pgout := pgout mp; memory := memory mp |}.

Definition put_memory (mp : MPOOL) (m : list BKT) : MPOOL :=
  {| lqh := lqh mp; hqh := hqh mp; curcache := curcache mp; maxcache := maxcache mp; npages := npages mp;
     pagesize := pagesize mp; pgin := pgin mp; pgout := pgout mp; memory := m |}.

Definition no_bkt : BKT := {| page := []; pgno := 0; flags := 0 |}.

(** The bucket behind a pointer, and a change of it. *)
Definition bkt (mp : MPOOL) (bp : nat) : BKT := default no_bkt (memory mp !! bp).
Definition put_bkt (mp : MPOOL) (bp : nat) (b : BKT) : MPOOL := put_memory mp (<[bp := b]> (memory mp)).

Definition set_page (b : BKT) (p : list Z) : BKT := {| page := p; pgno := pgno b; flags := flags b |}.
Definition set_pgno (b : BKT) (n : Z) : BKT := {| page := page b; pgno := n; flags := flags b |}.
Definition set_flags (b : BKT) (f : Z) : BKT := {| page := page b; pgno := pgno b; flags := f |}.

Definition is_set (b : BKT) (flag : Z) : bool := negb (Z.land (flags b) flag =? 0).

(** ** Queues (queue.h) *)

Definition circleq_insert_head (bp : nat) (q : list nat) : list nat := bp :: q.
Definition circleq_insert_tail (bp : nat) (q : list nat) : list nat := q ++ [bp].
Definition circleq_remove (bp : nat) (q : list nat) : list nat := filter (fun x => x <> bp) q.

(** The chain that a page number belongs to. *)
Definition chain (mp : MPOOL) (n : Z) : list nat := default [] (hqh mp !! Z.to_nat (HASHKEY n)).

Definition on_chain (mp : MPOOL) (n : Z) (f : list nat -> list nat) : MPOOL :=
  put_hqh mp (<[Z.to_nat (HASHKEY n) := f (chain mp n)]> (hqh mp)).

(** Off the hash chain and the lru queue; onto the head of the chain and the tail
    of the queue. *)
Definition take_out (mp : MPOOL) (bp : nat) : MPOOL :=
  let mp := on_chain mp (pgno (bkt mp bp)) (circleq_remove bp) in
  put_lqh mp (circleq_remove bp (lqh mp)).

Definition put_in (mp : MPOOL) (bp : nat) : MPOOL :=
  let mp := on_chain mp (pgno (bkt mp bp)) (circleq_insert_head bp) in
  put_lqh mp (circleq_insert_tail bp (lqh mp)).

(** ** The system *)

(** How a call of the system ends: as asked, with an error number, or (read and
    write) after some bytes. *)
Inductive reply := Works | Errs (e : Z) | Short (n : nat).

(** The file, the replies of the next calls (after those, calls work), errno. *)
Record sys := { file : list Z; replies : list reply; errno : Z }.

Definition put_errno (s : sys) (e : Z) : sys := {| file := file s; replies := replies s; errno := e |}.
Definition put_file (s : sys) (f : list Z) : sys := {| file := f; replies := replies s; errno := errno s |}.

Definition next_reply (s : sys) : reply * sys :=
  match replies s with
  | [] => (Works, s)
  | r :: rs =>
      (r, {| file := file s; replies := rs; errno := match r with Errs e => e | _ => errno s end |})
  end.

(** Calls without a count: whether they work. *)
Definition call (s : sys) : bool * sys :=
  let '(r, s) := next_reply s in (match r with Errs _ => false | _ => true end, s).

Definition lseek (s : sys) (off : Z) : bool * sys :=
  if off <? 0 then (false, put_errno s EINVAL) else call s.

(** [length data] bytes over a file at an offset; a gap is filled with zeros. *)
Definition pwrite (f : list Z) (off : nat) (data : list Z) : list Z :=
  take off (f ++ replicate (off - length f) 0) ++ data ++ drop (off + length data) f.

Definition pread (f : list Z) (off n : nat) : list Z := take n (drop off f).

Definition write (s : sys) (off : Z) (data : list Z) : Z * sys :=
  let '(r, s) := next_reply s in
  match r with
  | Errs _ => (-1, s)
  | Works => (zlen data, put_file s (pwrite (file s) (Z.to_nat off) data))
  | Short n => let data := take n data in (zlen data, put_file s (pwrite (file s) (Z.to_nat off) data))
  end.

(** The count and the bytes. *)
Definition read (s : sys) (off n : Z) : Z * list Z * sys :=
  let '(r, s) := next_reply s in
  let data := pread (file s) (Z.to_nat off) (Z.to_nat n) in
  match r with
  | Errs _ => (-1, [], s)
  | Works => (zlen data, data, s)
  | Short k => (zlen (take k data), take k data, s)
  end.

(** ** Operations (mpool.c) *)

Definition run_filter (f : option filter_fn) (n : Z) (p : list Z) : list Z :=
  match f with Some f => f n p | None => p end.

Definition file_offset (mp : MPOOL) (n : Z) : Z := s64 (pagesize mp * n).

Definition mpool_open (fstat : option (bool * Z)) (s : sys) (pagesize maxcache : Z) : option MPOOL * sys :=
  match fstat with
  | None => (None, s)
  | Some (false, _) => (None, put_errno s ESPIPE)
  | Some (true, st_size) =>
      match call s with
      | (false, s) => (None, s)
      | (true, s) =>
          (Some {| lqh := []; hqh := replicate (Z.to_nat HASHSIZE) []; curcache := 0;
                   maxcache := maxcache; npages := u32 (st_size / pagesize); pagesize := pagesize;
                   pgin := None; pgout := None; memory := [] |}, s)
      end
  end.

Definition mpool_filter (mp : MPOOL) (pin pout : option filter_fn) : MPOOL :=
  {| lqh := lqh mp; hqh := hqh mp; curcache := curcache mp; maxcache := maxcache mp; npages := npages mp;
     pagesize := pagesize mp; pgin := pin; pgout := pout; memory := memory mp |}.

Definition mpool_write (mp : MPOOL) (s : sys) (bp : nat) : Z * MPOOL * sys :=
  let n := pgno (bkt mp bp) in
  let mp := put_bkt mp bp (set_page (bkt mp bp) (run_filter (pgout mp) n (page (bkt mp bp)))) in
  let off := file_offset mp n in
  match lseek s off with
  | (false, s) => (RET_ERROR, mp, s)
  | (true, s) =>
      let '(nr, s) := write s off (page (bkt mp bp)) in
      if nr =? pagesize mp
      then (RET_SUCCESS, put_bkt mp bp (set_flags (bkt mp bp) (Z.ldiff (flags (bkt mp bp)) MPOOL_DIRTY)), s)
      else (RET_ERROR, mp, s)
  end.

Definition new_bkt (mp : MPOOL) (s : sys) : option nat * MPOOL * sys :=
  match call s with
  | (false, s) => (None, mp, s)
  | (true, s) =>
      let b := {| page := replicate (Z.to_nat (pagesize mp)) 0; pgno := 0; flags := 0 |} in
      (Some (length (memory mp)),
       {| lqh := lqh mp; hqh := hqh mp; curcache := u32 (curcache mp + 1); maxcache := maxcache mp;
          npages := npages mp; pagesize := pagesize mp; pgin := pgin mp; pgout := pgout mp;
          memory := memory mp ++ [b] |}, s)
  end.

Definition find_unpinned (mp : MPOOL) : option nat :=
  head (filter (fun bp => is_set (bkt mp bp) MPOOL_PINNED = false) (lqh mp)).

Definition mpool_bkt (mp : MPOOL) (s : sys) : option nat * MPOOL * sys :=
  if curcache mp <? maxcache mp then new_bkt mp s
  else
    match find_unpinned mp with
    | Some bp =>
        let '(rc, mp, s) :=
          if is_set (bkt mp bp) MPOOL_DIRTY then mpool_write mp s bp else (RET_SUCCESS, mp, s) in
        if rc =? RET_ERROR then (None, mp, s) else (Some bp, take_out mp bp, s)
    | None => new_bkt mp s
    end.

(** The page pointer and [*pgnoaddr]. *)
Definition mpool_new (mp : MPOOL) (s : sys) : option (nat * Z) * MPOOL * sys :=
  if npages mp =? MAX_PAGE_NUMBER then (None, mp, s)
  else
    match mpool_bkt mp s with
    | (None, mp, s) => (None, mp, s)
    | (Some bp, mp, s) =>
        let n := npages mp in
        let mp := put_npages mp (u32 (n + 1)) in
        let mp := put_bkt mp bp (set_flags (set_pgno (bkt mp bp) n) MPOOL_PINNED) in
        (Some (bp, n), put_in mp bp, s)
    end.

Definition mpool_look (mp : MPOOL) (n : Z) : option nat :=
  head (filter (fun bp => pgno (bkt mp bp) = n) (chain mp n)).

(** The page comes from the file into the bucket, which goes into the queues. *)
Definition mpool_get_read (mp : MPOOL) (s : sys) (n : Z) (bp : nat) : option nat * MPOOL * sys :=
  let off := file_offset mp n in
  match lseek s off with
  | (false, s) => (None, mp, s)
  | (true, s) =>
      let '(nr, data, s) := read s off (pagesize mp) in
      let mp := put_bkt mp bp (set_page (bkt mp bp)
                  (data ++ drop (length data) (page (bkt mp bp)))) in
      if nr =? pagesize mp then
        let mp := put_bkt mp bp (set_flags (set_pgno (bkt mp bp) n) MPOOL_PINNED) in
        let mp := put_in mp bp in
        (Some bp, put_bkt mp bp (set_page (bkt mp bp)
                    (run_filter (pgin mp) n (page (bkt mp bp)))), s)
      else (None, mp, if 0 <=? nr then put_errno s EFTYPE else s)
  end.

Definition mpool_get (mp : MPOOL) (s : sys) (n : Z) : option nat * MPOOL * sys :=
  if npages mp <=? n then (None, mp, put_errno s EINVAL)
  else
    match mpool_look mp n with
    | Some bp =>
        let mp := put_in (take_out mp bp) bp in
        (Some bp, put_bkt mp bp (set_flags (bkt mp bp) (Z.lor (flags (bkt mp bp)) MPOOL_PINNED)), s)
    | None =>
        match mpool_bkt mp s with
        | (None, mp, s) => (None, mp, s)
        | (Some bp, mp, s) => mpool_get_read mp s n bp
        end
    end.

Definition mpool_put (mp : MPOOL) (bp : nat) (fl : Z) : Z * MPOOL :=
  let f := Z.ldiff (flags (bkt mp bp)) MPOOL_PINNED in
  (RET_SUCCESS, put_bkt mp bp (set_flags (bkt mp bp) (Z.lor f (Z.land fl MPOOL_DIRTY)))).

Fixpoint sync_loop (q : list nat) (mp : MPOOL) (s : sys) : Z * MPOOL * sys :=
  match q with
  | [] => (RET_SUCCESS, mp, s)
  | bp :: q =>
      if is_set (bkt mp bp) MPOOL_DIRTY then
        let '(rc, mp, s) := mpool_write mp s bp in
        if rc =? RET_ERROR then (RET_ERROR, mp, s) else sync_loop q mp s
      else sync_loop q mp s
  end.

Definition mpool_sync (mp : MPOOL) (s : sys) : Z * MPOOL * sys :=
  let '(rc, mp, s) := sync_loop (lqh mp) mp s in
  if rc =? RET_ERROR then (RET_ERROR, mp, s)
  else match call s with
       | (true, s) => (RET_SUCCESS, mp, s)
       | (false, s) => (RET_ERROR, mp, s)
       end.

(** The buckets that are freed, of those allocated. *)
Definition mpool_close (mp : MPOOL) : Z * list nat := (RET_SUCCESS, lqh mp).

(** A client writes through the page pointer it was given. *)
Definition page_store (mp : MPOOL) (bp : nat) (p : list Z) : MPOOL :=
  put_bkt mp bp (set_page (bkt mp bp) p).

(** ** What a pool represents *)

(** The bytes of a page in the file. *)
Definition disk_page (f : list Z) (size n : Z) : option (list Z) :=
  let d := pread f (Z.to_nat (size * n)) (Z.to_nat size) in
  if zlen d =? size then Some d else None.

(** The file has page [n], which is [p] once converted. *)
Definition on_disk (mp : MPOOL) (s : sys) (n : Z) (p : list Z) : Prop :=
  exists d, disk_page (file s) (pagesize mp) n = Some d /\ run_filter (pgin mp) n d = p.

Definition clean (b : BKT) : Prop := is_set b MPOOL_DIRTY = false.
Definition pinned (b : BKT) : Prop := is_set b MPOOL_PINNED = true.

(** A page size the offsets of which fit, and filters that keep the size and undo
    each other. *)
Record pool_format (mp : MPOOL) : Prop := {
  fmt_size : 0 < pagesize mp < 2 ^ 31;
  fmt_length n p : zlen p = pagesize mp -> zlen (run_filter (pgout mp) n p) = pagesize mp;
  fmt_inverse n p : zlen p = pagesize mp -> run_filter (pgin mp) n (run_filter (pgout mp) n p) = p;
}.

(** A bucket in the queues: its page is the stored one, and the file has it too
    unless the bucket is dirty or in use. *)
Record cached (mp : MPOOL) (s : sys) (st : list (list Z)) (b : BKT) : Prop := {
  cached_pgno : 0 <= pgno b;
  cached_page : st !! Z.to_nat (pgno b) = Some (page b);
  cached_clean : clean b -> ~ pinned b -> on_disk mp s (pgno b) (page b);
}.

(** The queues: a bucket is on its chain exactly when it is on the lru queue, and
    no two are for one page. *)
Record queues (mp : MPOOL) : Prop := {
  q_bkts bp : bp ∈ lqh mp -> is_Some (memory mp !! bp);
  q_chains : length (hqh mp) = Z.to_nat HASHSIZE;
  q_chain n bp : bp ∈ chain mp n <-> bp ∈ lqh mp /\ HASHKEY (pgno (bkt mp bp)) = HASHKEY n;
  q_unique bp bq : bp ∈ lqh mp -> bq ∈ lqh mp -> pgno (bkt mp bp) = pgno (bkt mp bq) -> bp = bq;
}.

(** The pool and its file hold the pages [st]. *)
Record represents (mp : MPOOL) (s : sys) (st : list (list Z)) : Prop := {
  rp_format : pool_format mp;
  rp_queues : queues mp;
  rp_npages : npages mp = zlen st /\ zlen st < 2 ^ 32;
  rp_sizes : Forall (fun p => zlen p = pagesize mp) st;
  rp_cached bp : bp ∈ lqh mp -> cached mp s st (bkt mp bp);
  rp_disk n p : 0 <= n -> st !! Z.to_nat n = Some p ->
    (forall bp, bp ∈ lqh mp -> pgno (bkt mp bp) <> n) -> on_disk mp s n p;
}.

(** ** Flags, queues and the file *)

Lemma is_set_testbit b k : 0 <= k -> is_set b (2 ^ k) = Z.testbit (flags b) k.
Proof.
  intros Hk. unfold is_set. destruct (Z.testbit (flags b) k) eqn:E.
  - apply negb_true_iff, Z.eqb_neq. intros H.
    assert (Hb : Z.testbit (Z.land (flags b) (2 ^ k)) k = false) by (rewrite H; apply Z.bits_0).
    by rewrite Z.land_spec, E, Z.pow2_bits_true in Hb.
  - apply negb_false_iff, Z.eqb_eq. apply Z.bits_inj'. intros i Hi.
    rewrite Z.land_spec, Z.bits_0. destruct (decide (i = k)) as [->|Hn]; [by rewrite E|].
    rewrite Z.pow2_bits_false by lia. apply andb_false_r.
Qed.

Lemma is_set_dirty b : is_set b MPOOL_DIRTY = Z.testbit (flags b) 0.
Proof. by apply (is_set_testbit b 0). Qed.

Lemma is_set_pinned b : is_set b MPOOL_PINNED = Z.testbit (flags b) 1.
Proof. by apply (is_set_testbit b 1). Qed.

Ltac flag_bits :=
  unfold clean, pinned in *; rewrite ?is_set_dirty, ?is_set_pinned in *; cbn [set_flags set_pgno set_page flags] in *;
  rewrite ?Z.lor_spec, ?Z.land_spec, ?Z.ldiff_spec in *; cbn in *.

Lemma elem_of_circleq_remove bp x q : x ∈ circleq_remove bp q <-> x <> bp /\ x ∈ q.
Proof. unfold circleq_remove. by rewrite list_elem_of_filter. Qed.

Lemma HASHKEY_range n : 0 <= HASHKEY n < HASHSIZE.
Proof. apply Z.mod_pos_bound. done. Qed.

Lemma bkt_put_eq mp bp b : (bp < length (memory mp))%nat -> bkt (put_bkt mp bp b) bp = b.
Proof. intros H. unfold bkt. cbn. by rewrite list_lookup_insert_eq. Qed.

Lemma bkt_put_ne mp bp bq b : bp <> bq -> bkt (put_bkt mp bp b) bq = bkt mp bq.
Proof. intros H. unfold bkt. cbn. by rewrite list_lookup_insert_ne. Qed.

Lemma chain_on_chain mp n m f :
  length (hqh mp) = Z.to_nat HASHSIZE ->
  chain (on_chain mp n f) m = if decide (HASHKEY n = HASHKEY m) then f (chain mp n) else chain mp m.
Proof.
  intros Hl. pose proof (HASHKEY_range n) as Hn. pose proof (HASHKEY_range m) as Hm.
  unfold chain at 1. cbn [on_chain hqh put_hqh]. case_decide as E.
  - rewrite E, list_lookup_insert_eq by lia. done.
  - rewrite list_lookup_insert_ne by lia. done.
Qed.

Lemma length_pwrite f off data : length (pwrite f off data) = (length f `max` (off + length data))%nat.
Proof. unfold pwrite. rewrite !length_app, length_take, length_app, length_replicate, length_drop. lia. Qed.

Lemma pread_pwrite_eq f off data : pread (pwrite f off data) off (length data) = data.
Proof.
  unfold pread, pwrite. rewrite drop_app_length', take_app_length'; [done|done|].
  rewrite length_take, length_app, length_replicate. lia.
Qed.

Lemma pread_pwrite_before f off data k n :
  (k + n <= off)%nat -> (k + n <= length f)%nat -> pread (pwrite f off data) k n = pread f k n.
Proof.
  intros H1 H2. unfold pread, pwrite. rewrite !take_drop_commute. f_equal.
  rewrite take_app_le by (rewrite length_take, length_app, length_replicate; lia).
  rewrite take_take, Nat.min_l by lia. by rewrite take_app_le by lia.
Qed.

Lemma pread_pwrite_after f off data k n :
  (off + length data <= k)%nat -> pread (pwrite f off data) k n = pread f k n.
Proof.
  intros H. unfold pread, pwrite. f_equal.
  rewrite app_assoc, drop_app_ge by (rewrite length_app, length_take, length_app, length_replicate; lia).
  rewrite drop_drop. f_equal. rewrite length_app, length_take, length_app, length_replicate. lia.
Qed.

Lemma disk_page_other f size m data n d :
  0 < size -> 0 <= m -> 0 <= n -> n <> m -> zlen data <= size ->
  disk_page f size n = Some d -> disk_page (pwrite f (Z.to_nat (size * m)) data) size n = Some d.
Proof.
  intros Hs Hm Hn Hne Hd E. unfold disk_page in *. cbv zeta in *.
  destruct (_ =? size) eqn:Hl in E; [|done]. pose proof Hl as Hl'. apply Z.eqb_eq in Hl. unfold zlen, pread in Hl. rewrite length_take, length_drop in Hl.
  unfold zlen in Hd. assert (Hp : pread (pwrite f (Z.to_nat (size * m)) data) (Z.to_nat (size * n)) (Z.to_nat size)
    = pread f (Z.to_nat (size * n)) (Z.to_nat size)).
  { destruct (Z.lt_total n m) as [Hlt|[?|Hlt]]; [|congruence|].
    - apply pread_pwrite_before; [nia|lia].
    - apply pread_pwrite_after. nia. }
  by rewrite Hp, Hl'.
Qed.

Lemma disk_page_written f size m data :
  0 < size -> zlen data = size -> disk_page (pwrite f (Z.to_nat (size * m)) data) size m = Some data.
Proof.
  intros Hs Hd. unfold disk_page. replace (Z.to_nat size) with (length data) by (unfold zlen in Hd; lia).
  by rewrite pread_pwrite_eq, Hd, Z.eqb_refl.
Qed.

(** ** The queues *)

Lemma chain_take_out mp bp n :
  length (hqh mp) = Z.to_nat HASHSIZE ->
  chain (take_out mp bp) n =
    if decide (HASHKEY (pgno (bkt mp bp)) = HASHKEY n)
    then circleq_remove bp (chain mp (pgno (bkt mp bp))) else chain mp n.
Proof. apply chain_on_chain. Qed.

Lemma chain_put_in mp bp n :
  length (hqh mp) = Z.to_nat HASHSIZE ->
  chain (put_in mp bp) n =
    if decide (HASHKEY (pgno (bkt mp bp)) = HASHKEY n)
    then bp :: chain mp (pgno (bkt mp bp)) else chain mp n.
Proof. apply chain_on_chain. Qed.

Lemma queues_put_bkt mp bp b :
  queues mp -> pgno b = pgno (bkt mp bp) -> queues (put_bkt mp bp b).
Proof.
  intros [Hb Hl Hc Hu] Hp.
  assert (Hpg : forall bq, bq ∈ lqh mp -> pgno (bkt (put_bkt mp bp b) bq) = pgno (bkt mp bq)).
  { intros bq Hin. destruct (decide (bp = bq)) as [->|Hn]; [|by rewrite bkt_put_ne].
    by rewrite bkt_put_eq by by apply lookup_lt_is_Some_1, Hb. }
  split; cbn [lqh hqh put_bkt put_memory memory].
  - intros bq Hin. apply lookup_lt_is_Some_2. rewrite length_insert. by apply lookup_lt_is_Some_1, Hb.
  - done.
  - intros n bq. change (chain (put_bkt mp bp b) n) with (chain mp n). rewrite Hc. split; intros [Hin ?];
      (split; [done|]); by rewrite ?Hpg in * by done.
  - intros bq br Hq Hr. rewrite !Hpg by done. by apply Hu.
Qed.

Lemma queues_take_out mp bp : queues mp -> queues (take_out mp bp).
Proof.
  intros [Hb Hl Hc Hu]. split; cbn [lqh take_out put_lqh on_chain put_hqh hqh memory].
  - intros bq [_ Hin]%elem_of_circleq_remove. by apply Hb.
  - by rewrite length_insert.
  - intros n bq. change (bkt (take_out mp bp) bq) with (bkt mp bq).
    rewrite chain_take_out, elem_of_circleq_remove by done. case_decide as Hk.
    + rewrite elem_of_circleq_remove, Hc, Hk. tauto.
    + rewrite Hc. split; [|tauto]. intros [Hin Hq]. split; [|done]. split; [|done]. intros ->. congruence.
  - intros bq br [_ Hq]%elem_of_circleq_remove [_ Hr]%elem_of_circleq_remove. by apply Hu.
Qed.

Lemma queues_put_in mp bp :
  queues mp -> is_Some (memory mp !! bp) ->
  (forall bq, bq ∈ lqh mp -> pgno (bkt mp bq) <> pgno (bkt mp bp)) -> queues (put_in mp bp).
Proof.
  intros [Hb Hl Hc Hu] Hs Hne. assert (Hin : forall bq, bq ∈ lqh (put_in mp bp) <-> bq ∈ lqh mp \/ bq = bp).
  { intros bq. cbn. unfold circleq_insert_tail. by rewrite elem_of_app, list_elem_of_singleton. }
  split.
  - intros bq [Hq| ->]%Hin; [by apply Hb|done].
  - cbn. by rewrite length_insert.
  - intros n bq. change (bkt (put_in mp bp) bq) with (bkt mp bq). rewrite chain_put_in, Hin by done.
    case_decide as Hk.
    + rewrite elem_of_cons, Hc, Hk. split; [intros [->|?]; [by auto|tauto]|tauto].
    + rewrite Hc. split; [tauto|]. intros [[Hq| ->] E]; [done|congruence].
  - intros bq br [Hq| ->]%Hin [Hr| ->]%Hin E; change (bkt (put_in mp bp)) with (bkt mp) in E; [by apply Hu| | |done].
    + by apply Hne in E.
    + by symmetry in E; apply Hne in E.
Qed.

Lemma mpool_look_spec mp n :
  queues mp ->
  match mpool_look mp n with
  | Some bp => bp ∈ lqh mp /\ pgno (bkt mp bp) = n
  | None => forall bp, bp ∈ lqh mp -> pgno (bkt mp bp) <> n
  end.
Proof.
  intros Hq. unfold mpool_look. destruct (filter _ _) as [|bp q] eqn:E; cbn [head].
  - intros bp Hin <-. assert (H : bp ∈ filter (fun bq => pgno (bkt mp bq) = pgno (bkt mp bp)) (chain mp (pgno (bkt mp bp)))).
    { apply list_elem_of_filter. split; [done|]. by apply q_chain. }
    rewrite E in H. by apply elem_of_nil in H.
  - assert (H : bp ∈ bp :: q) by apply list_elem_of_here. rewrite <- E in H.
    apply list_elem_of_filter in H as [Hp Hc]. split; [|done]. by apply q_chain in Hc as [? _].
Qed.

(** ** Writing a page *)

Lemma represents_pgno mp s st bp :
  represents mp s st -> bp ∈ lqh mp -> 0 <= pgno (bkt mp bp) < 2 ^ 32.
Proof.
  intros H Hin. destruct (rp_cached _ _ _ H _ Hin) as [H0 Hp _]. pose proof (rp_npages _ _ _ H) as [_ Hn].
  apply lookup_lt_Some in Hp. unfold zlen in Hn. lia.
Qed.

Lemma represents_size mp s st n p :
  represents mp s st -> st !! n = Some p -> zlen p = pagesize mp.
Proof. intros H E. exact (proj1 (Forall_lookup _ _) (rp_sizes _ _ _ H) _ _ E). Qed.

Lemma file_offset_eq mp n :
  pool_format mp -> 0 <= n < 2 ^ 32 -> file_offset mp n = pagesize mp * n /\ 0 <= pagesize mp * n.
Proof.
  intros [Hs _ _] Hn. unfold file_offset, s64. assert (0 <= pagesize mp * n < 2 ^ 63) by nia.
  rewrite Z.mod_small by lia. lia.
Qed.

Lemma call_file s : file (snd (call s)) = file s.
Proof. unfold call, next_reply. destruct (replies s) as [|[] ?]; done. Qed.

Lemma call_works s : replies s = [] -> call s = (true, s).
Proof. intros E. unfold call, next_reply. by rewrite E. Qed.

Lemma lseek_call s off : 0 <= off -> lseek s off = call s.
Proof. intros H. unfold lseek. by rewrite (proj2 (Z.ltb_ge _ _)). Qed.

(** A write of one page, complete or not, is in its own place. *)
Lemma write_spec mp s n p :
  pool_format mp -> 0 <= n < 2 ^ 32 -> zlen p = pagesize mp ->
  let '(nr, s') := write s (pagesize mp * n) p in
  (nr = pagesize mp -> disk_page (file s') (pagesize mp) n = Some p) /\
  (forall m q, 0 <= m -> m <> n -> on_disk mp s m q -> on_disk mp s' m q) /\
  (replies s = [] -> nr = pagesize mp /\ replies s' = []).
Proof.
  intros Hf Hn Hp. pose proof (fmt_size _ Hf) as Hs.
  assert (Hother : forall k m q, 0 <= m -> m <> n -> on_disk mp s m q ->
    on_disk mp (put_file s (pwrite (file s) (Z.to_nat (pagesize mp * n)) (take k p))) m q).
  { intros k m q Hm Hne (d & Hd & Eq). exists d. split; [|done]. cbn. apply disk_page_other; try lia; try done.
    unfold zlen in *. rewrite length_take. lia. }
  unfold write, next_reply. destruct (replies s) as [|[|e|k] rs] eqn:Er; cbn.
  - split; [intros _; apply disk_page_written; [lia|done]|]. split; [|done].
    intros m q Hm Hne Hd. pose proof (Hother (length p) m q Hm Hne Hd) as Ho.
    by rewrite firstn_all in Ho.
  - split; [intros _; apply disk_page_written; [lia|done]|]. split; [|done].
    intros m q Hm Hne Hd. pose proof (Hother (length p) m q Hm Hne Hd) as Ho.
    by rewrite firstn_all in Ho.
  - split; [lia|]. split; [by auto|done].
  - split; [|split; [|done]].
    + intros E. assert (take k p = p) as ->.
      { apply take_ge. unfold zlen in *. rewrite length_take in E. lia. }
      apply disk_page_written; [lia|done].
    + intros m q. apply Hother.
Qed.

(** What a bucket needs to be written. *)
Record writable (mp : MPOOL) (bp : nat) : Prop := {
  wr_format : pool_format mp;
  wr_memory : (bp < length (memory mp))%nat;
  wr_pgno : 0 <= pgno (bkt mp bp) < 2 ^ 32;
  wr_page : zlen (page (bkt mp bp)) = pagesize mp;
}.

Lemma represents_writable mp s st bp : represents mp s st -> bp ∈ lqh mp -> writable mp bp.
Proof.
  intros H Hin. split.
  - apply (rp_format _ _ _ H).
  - apply lookup_lt_is_Some_1. by apply (q_bkts _ (rp_queues _ _ _ H)).
  - by apply (represents_pgno _ _ _ _ H).
  - eapply represents_size; [done|]. by apply (cached_page _ _ _ _ (rp_cached _ _ _ H _ Hin)).
Qed.

Lemma mpool_write_spec mp s bp :
  writable mp bp ->
  let b := bkt mp bp in
  let out := run_filter (pgout mp) (pgno b) (page b) in
  exists rc b' s', mpool_write mp s bp = (rc, put_bkt mp bp b', s') /\
    page b' = out /\ pgno b' = pgno b /\ (pinned b' <-> pinned b) /\
    (rc = RET_SUCCESS /\ clean b' /\ disk_page (file s') (pagesize mp) (pgno b) = Some out \/
     rc = RET_ERROR /\ flags b' = flags b) /\
    (forall m q, 0 <= m -> m <> pgno b -> on_disk mp s m q -> on_disk mp s' m q) /\
    (replies s = [] -> rc = RET_SUCCESS /\ replies s' = []).
Proof.
  intros [Hf Hm Hn Hz] b out. destruct (file_offset_eq mp (pgno b) Hf Hn) as [Ho Ho0].
  assert (Hp : zlen out = pagesize mp) by by apply fmt_length.
  unfold mpool_write. fold b out. set (b1 := set_page b out).
  change (file_offset (put_bkt mp bp b1)) with (file_offset mp).
  rewrite Ho, lseek_call, bkt_put_eq by done.
  pose proof (call_file s) as Hcf. pose proof (call_works s) as Hcw. destruct (call s) as [ok s1]. cbn in Hcf.
  assert (Hd1 : forall m q, on_disk mp s m q -> on_disk mp s1 m q).
  { intros m q (d & Hd & E). exists d. by rewrite Hcf. }
  destruct ok.
  2:{ exists RET_ERROR, b1, s1. split; [done|]. split; [done|]. split; [done|]. split; [done|].
      split; [by right|]. split; [by auto|]. intros E. by specialize (Hcw E). }
  pose proof (write_spec mp s1 (pgno b) out Hf Hn Hp) as Hw. cbn [page b1 set_page].
  destruct (write s1 (pagesize mp * pgno b) out) as [nr s2]. destruct Hw as (Hw1 & Hw2 & Hw3).
  change (pagesize (put_bkt mp bp b1)) with (pagesize mp).
  assert (Hwk : replies s = [] -> nr = pagesize mp /\ replies s2 = []).
  { intros E. apply Hw3. specialize (Hcw E). by injection Hcw as ->. }
  destruct (Z.eqb_spec nr (pagesize mp)) as [E|E].
  - eexists RET_SUCCESS, _, s2. split; [unfold put_bkt, put_memory; cbn; by rewrite list_insert_insert_eq|].
    split; [done|]. split; [done|]. split; [by flag_bits; rewrite andb_true_r|].
    split; [left; split; [done|]; split; [by flag_bits; rewrite andb_false_r|by apply Hw1]|].
    split; [by auto|]. intros E0. by destruct (Hwk E0).
  - exists RET_ERROR, b1, s2. split; [done|]. split; [done|]. split; [done|]. split; [done|].
    split; [by right|]. split; [by auto|]. intros E0. by destruct (Hwk E0).
Qed.

(** ** Steps that keep the pages *)

Lemma put_bkt_same mp bp : put_bkt mp bp (bkt mp bp) = mp.
Proof.
  unfold put_bkt, put_memory, bkt. destruct mp as [q h c m n sz i o mem]. cbn. f_equal.
  destruct (mem !! bp) as [b|] eqn:E; cbn; [by apply list_insert_id|].
  apply list_insert_ge. by apply lookup_ge_None.
Qed.

Lemma pool_format_same mp mp' :
  pool_format mp -> pagesize mp' = pagesize mp -> pgin mp' = pgin mp -> pgout mp' = pgout mp -> pool_format mp'.
Proof. intros [Hs Hl Hi] Es Ei Eo. split; rewrite ?Es, ?Ei, ?Eo; done. Qed.

(** A bucket whose page the file has leaves the queues. *)
Lemma represents_take_out mp s s' st bp b :
  represents mp s st -> bp ∈ lqh mp -> pgno b = pgno (bkt mp bp) ->
  on_disk mp s' (pgno b) (page (bkt mp bp)) ->
  (forall m q, 0 <= m -> m <> pgno b -> on_disk mp s m q -> on_disk mp s' m q) ->
  represents (take_out (put_bkt mp bp b) bp) s' st.
Proof.
  intros H Hin Hp Hd Ho. assert (Hq : queues (put_bkt mp bp b)) by (apply queues_put_bkt; [apply (rp_queues _ _ _ H)|done]).
  assert (Hb : forall bq, bq ∈ lqh (take_out (put_bkt mp bp b) bp) ->
    bq ∈ lqh mp /\ bq <> bp /\ bkt (take_out (put_bkt mp bp b) bp) bq = bkt mp bq).
  { intros bq [Hn Hq']%elem_of_circleq_remove. split; [done|]. split; [done|]. by apply bkt_put_ne. }
  split.
  - by apply (pool_format_same mp); [apply (rp_format _ _ _ H)|..].
  - by apply queues_take_out.
  - apply (rp_npages _ _ _ H).
  - apply (rp_sizes _ _ _ H).
  - intros bq (Hq1 & Hn & E)%Hb. rewrite E. destruct (rp_cached _ _ _ H _ Hq1) as [H0 Hpg Hcl].
    split; [done|done|]. intros Hc Hpin. specialize (Hcl Hc Hpin). apply Ho; [done| |exact Hcl].
    rewrite Hp. intros E'. apply Hn. by apply (q_unique _ (rp_queues _ _ _ H)).
  - intros n p Hn Est Hnot. destruct (decide (n = pgno b)) as [->|Hne].
    + pose proof (cached_page _ _ _ _ (rp_cached _ _ _ H _ Hin)) as Epg. rewrite <- Hp in Epg.
      rewrite Epg in Est. by injection Est as <-.
    + apply Ho; [done|done|]. apply (rp_disk _ _ _ H); [done|done|]. intros bq Hq1 E.
      destruct (decide (bq = bp)) as [->|Hn']; [congruence|].
      apply (Hnot bq); [by apply elem_of_circleq_remove|]. rewrite <- E. f_equal. by apply bkt_put_ne.
Qed.

(** A bucket outside the queues gets a page that no other has, in use. *)
Lemma represents_put_in mp s st st' bp b :
  represents mp s st -> bp ∉ lqh mp -> is_Some (memory mp !! bp) ->
  0 <= pgno b -> pinned b -> zlen (page b) = pagesize mp ->
  (forall bq, bq ∈ lqh mp -> pgno (bkt mp bq) <> pgno b) ->
  st' !! Z.to_nat (pgno b) = Some (page b) ->
  (forall n, n <> Z.to_nat (pgno b) -> st' !! n = st !! n) -> zlen st' < 2 ^ 32 ->
  represents (put_in (put_bkt (put_npages mp (zlen st')) bp b) bp) s st'.
Proof.
  intros H Hnin Hm H0 Hpin Hsz Hfree Hst Hrest Hlen.
  apply lookup_lt_is_Some_1 in Hm.
  set (mp1 := put_bkt (put_npages mp (zlen st')) bp b).
  assert (Hnew : bkt mp1 bp = b) by by apply bkt_put_eq.
  assert (Hold : forall bq, bq ∈ lqh mp -> bkt mp1 bq = bkt mp bq).
  { intros bq Hin. unfold mp1. rewrite bkt_put_ne; [done|]. by intros ->. }
  assert (Hin : forall bq, bq ∈ lqh (put_in mp1 bp) <-> bq ∈ lqh mp \/ bq = bp).
  { intros bq. cbn. unfold circleq_insert_tail. by rewrite elem_of_app, list_elem_of_singleton. }
  assert (Hq1 : queues mp1).
  { destruct (rp_queues _ _ _ H) as [Hb Hl Hc Hu]. split; cbn [lqh hqh mp1 put_bkt put_memory put_npages memory].
    - intros bq Hq. apply lookup_lt_is_Some_2. rewrite length_insert. by apply lookup_lt_is_Some_1, Hb.
    - done.
    - intros n bq. change (chain mp1 n) with (chain mp n). rewrite Hc.
      split; intros [Hq E]; (split; [done|]); by rewrite Hold in * by done.
    - intros bq br Hq Hr. fold mp1. rewrite !Hold by done. by apply Hu. }
  split.
  - by apply (pool_format_same mp); [apply (rp_format _ _ _ H)|..].
  - apply queues_put_in; [done| |].
    + apply lookup_lt_is_Some_2. cbn. by rewrite length_insert.
    + intros bq Hq. rewrite Hnew, Hold by done. by apply Hfree.
  - done.
  - apply Forall_lookup. intros n p Ep. destruct (decide (n = Z.to_nat (pgno b))) as [->|Hn].
    + rewrite Hst in Ep. by injection Ep as <-.
    + rewrite Hrest in Ep by done. exact (represents_size _ _ _ _ _ H Ep).
  - intros bq [Hq| ->]%Hin; change (bkt (put_in mp1 bp)) with (bkt mp1).
    + rewrite Hold by done. destruct (rp_cached _ _ _ H _ Hq) as [Hq0 Hqp Hqc]. split; [done| |done].
      rewrite Hrest; [done|]. intros E. apply (Hfree bq Hq). lia.
    + rewrite Hnew. by split.
  - intros n p Hn Est Hnot. assert (n <> pgno b).
    { intros ->. apply (Hnot bp); [by apply Hin; right|].
      change (bkt (put_in mp1 bp)) with (bkt mp1). by rewrite Hnew. }
    rewrite Hrest in Est by lia. apply (rp_disk _ _ _ H n p Hn Est). intros bq Hq E.
    apply (Hnot bq); [by apply Hin; left|]. change (bkt (put_in mp1 bp)) with (bkt mp1). by rewrite Hold.
Qed.

(** A cached bucket changes without leaving the queues. *)
Lemma represents_put_bkt mp s s' st st' bp b :
  represents mp s st -> bp ∈ lqh mp -> pgno b = pgno (bkt mp bp) ->
  st' = <[Z.to_nat (pgno b) := page b]> st -> zlen (page b) = pagesize mp ->
  (clean b -> ~ pinned b -> on_disk mp s' (pgno b) (page b)) ->
  (forall m q, 0 <= m -> m <> pgno b -> on_disk mp s m q -> on_disk mp s' m q) ->
  represents (put_bkt mp bp b) s' st'.
Proof.
  intros H Hin Hp -> Hsz Hcl Ho. pose proof (rp_cached _ _ _ H _ Hin) as [H0 Hpg _].
  pose proof (q_bkts _ (rp_queues _ _ _ H) _ Hin) as Hm. apply lookup_lt_is_Some_1 in Hm.
  assert (Hold : forall bq, bq ∈ lqh mp -> bq <> bp ->
    bkt (put_bkt mp bp b) bq = bkt mp bq /\ pgno (bkt mp bq) <> pgno b).
  { intros bq Hq Hn. split; [by apply bkt_put_ne|]. rewrite Hp. intros E. apply Hn.
    by apply (q_unique _ (rp_queues _ _ _ H)). }
  split.
  - by apply (pool_format_same mp); [apply (rp_format _ _ _ H)|..].
  - apply queues_put_bkt; [apply (rp_queues _ _ _ H)|done].
  - unfold zlen. rewrite length_insert. apply (rp_npages _ _ _ H).
  - apply Forall_insert; [apply (rp_sizes _ _ _ H)|done].
  - intros bq Hq. cbn [lqh put_bkt put_memory] in Hq. destruct (decide (bq = bp)) as [->|Hn].
    + rewrite bkt_put_eq by done. split; [by rewrite Hp| |done].
      rewrite list_lookup_insert_eq; [done|]. rewrite Hp. by eapply lookup_lt_Some.
    + destruct (Hold bq Hq Hn) as [-> Hne]. destruct (rp_cached _ _ _ H _ Hq) as [Hq0 Hqp Hqc].
      split; [done| |].
      * rewrite list_lookup_insert_ne; [done|]. lia.
      * intros Hc Hpin. apply Ho; [done|done|]. by apply Hqc.
  - intros n p Hn Est Hnot. assert (Hne : n <> pgno b).
    { intros ->. apply (Hnot bp Hin). by rewrite bkt_put_eq. }
    rewrite list_lookup_insert_ne in Est by lia. apply Ho; [done|done|].
    apply (rp_disk _ _ _ H); [done|done|]. intros bq Hq E. destruct (decide (bq = bp)) as [->|Hn'].
    + congruence.
    + apply (Hnot bq Hq). by destruct (Hold bq Hq Hn') as [-> _].
Qed.

(** The file system's state matters only for its file. *)
Lemma represents_file mp s s' st : represents mp s st -> file s' = file s -> represents mp s' st.
Proof.
  intros [Hf Hq Hn Hs Hc Hd] E. assert (Ho : forall n p, on_disk mp s n p -> on_disk mp s' n p).
  { intros n p (d & Ed & Er). exists d. by rewrite E. }
  split; try done.
  - intros bp Hin. destruct (Hc bp Hin) as [H0 Hp Hcl]. split; auto.
  - intros n p H0 Est Hnot. apply Ho. by apply Hd.
Qed.

(** ** A bucket for a page *)

(** The same queues over buckets for the same pages. *)
Lemma queues_ext mp mp' :
  queues mp -> lqh mp' = lqh mp -> hqh mp' = hqh mp ->
  (forall bq, bq ∈ lqh mp -> is_Some (memory mp' !! bq) /\ pgno (bkt mp' bq) = pgno (bkt mp bq)) -> queues mp'.
Proof.
  intros [Hm Hl Hq Hu] El Eh Hb. split; rewrite ?El, ?Eh; [|done| |].
  - intros bq Hin. by apply Hb.
  - intros n bq. unfold chain. rewrite Eh. fold (chain mp n). rewrite Hq.
    split; intros [Hin ?]; (split; [done|]); by rewrite (proj2 (Hb bq Hin)) in *.
  - intros bq br Hin Hin' E. rewrite !(fun b H => proj2 (Hb b H)) in E by done. by apply Hu.
Qed.

(** The same queues over buckets that are the same where the queues reach. *)
Lemma represents_ext mp mp' s s' st :
  represents mp s st -> file s' = file s ->
  lqh mp' = lqh mp -> hqh mp' = hqh mp -> npages mp' = npages mp -> pagesize mp' = pagesize mp ->
  pgin mp' = pgin mp -> pgout mp' = pgout mp ->
  (forall bq, bq ∈ lqh mp -> is_Some (memory mp' !! bq) /\ bkt mp' bq = bkt mp bq) ->
  represents mp' s' st.
Proof.
  intros H Ef El Eh En Es Ei Eo Hb.
  assert (Hd : forall n p, on_disk mp s n p -> on_disk mp' s' n p).
  { intros n p (d & Ed & Er). exists d. by rewrite Ef, Es, Ei. }
  destruct H as [Hf Hq Hn Hs Hca Hdi]. split.
  - by eapply pool_format_same.
  - apply (queues_ext mp); [done|done|done|]. intros bq Hin. destruct (Hb bq Hin) as [? E]. by rewrite E.
  - by rewrite En.
  - by rewrite Es.
  - rewrite El. intros bq Hin. rewrite (proj2 (Hb bq Hin)). destruct (Hca bq Hin) as [H0 Hp Hcl].
    split; auto.
  - rewrite El. intros n p H0 Est Hnot. apply Hd. apply Hdi; [done|done|]. intros bq Hin.
    rewrite <- (proj2 (Hb bq Hin)). by apply Hnot.
Qed.

(** A filter that leaves every page as it is, as the ones of the btree do when the
    file is in the byte order of the machine (bt_conv.c: they return at once
    unless B_NEEDSWAP is set). *)
Definition plain_filter (f : option filter_fn) (size : Z) : Prop :=
  forall n p, zlen p = size -> run_filter f n p = p.

(** What is left when a call fails: the pages as they were, or with one of them,
    not in use, converted for the file, not written and not converted back. *)
Definition after_failure (mp mp' : MPOOL) (s' : sys) (st : list (list Z)) : Prop :=
  represents mp' s' st \/
  exists n p, st !! Z.to_nat n = Some p /\
    represents mp' s' (<[Z.to_nat n := run_filter (pgout mp) n p]> st).

Lemma after_failure_plain mp mp' s s' st :
  represents mp s st -> plain_filter (pgout mp) (pagesize mp) -> after_failure mp mp' s' st ->
  represents mp' s' st.
Proof.
  intros H Hf [?|(n & p & Ep & Hr)]; [done|].
  rewrite Hf in Hr by by eapply represents_size. by rewrite list_insert_id in Hr.
Qed.

(** The pages in use stay where they are. *)
Definition keeps (mp mp' : MPOOL) : Prop :=
  forall bq, bq ∈ lqh mp -> pinned (bkt mp bq) -> bq ∈ lqh mp' /\ bkt mp' bq = bkt mp bq.

(** The settings of the pool. *)
Definition same_setup (mp mp' : MPOOL) : Prop :=
  npages mp' = npages mp /\ pagesize mp' = pagesize mp /\ pgin mp' = pgin mp /\ pgout mp' = pgout mp /\
  maxcache mp' = maxcache mp.

(** The pool got no bucket more than it may: fewer than the maximum were there, or
    all were in use. *)
Definition grows_by_need (mp mp' : MPOOL) : Prop :=
  length (memory mp') = length (memory mp) /\ curcache mp' = curcache mp \/
  length (memory mp') = S (length (memory mp)) /\ curcache mp' = u32 (curcache mp + 1) /\
  (curcache mp < maxcache mp \/ forall bq, bq ∈ lqh mp -> pinned (bkt mp bq)).

(** What [mpool_bkt] gives: a bucket outside the queues of a pool that holds the
    same pages. *)
Record bucket_for (mp mp' : MPOOL) (s' : sys) (st : list (list Z)) (bp : nat) : Prop := {
  bf_represents : represents mp' s' st;
  bf_free : bp ∉ lqh mp';
  bf_memory : is_Some (memory mp' !! bp);
  bf_page : zlen (page (bkt mp' bp)) = pagesize mp;
  bf_others bq : bq ∈ lqh mp' -> bq ∈ lqh mp /\ bkt mp' bq = bkt mp bq;
}.

Lemma new_bkt_spec mp s st :
  represents mp s st ->
  (curcache mp < maxcache mp \/ forall bq, bq ∈ lqh mp -> pinned (bkt mp bq)) ->
  exists r mp' s', new_bkt mp s = (r, mp', s') /\ same_setup mp mp' /\ keeps mp mp' /\
    match r with Some bp => bucket_for mp mp' s' st bp | None => represents mp' s' st end /\
    grows_by_need mp mp' /\ (replies s = [] -> is_Some r /\ replies s' = []).
Proof.
  intros H Hgrow. unfold new_bkt.
  pose proof (call_file s) as Hf. pose proof (call_works s) as Hw. destruct (call s) as [ok s1]. cbn in Hf.
  destruct ok.
  - eexists _, _, s1. split; [done|]. split; [done|].
    assert (Hb : forall bq, bq ∈ lqh mp -> is_Some ((memory mp ++ [{| page := replicate (Z.to_nat (pagesize mp)) 0; pgno := 0; flags := 0 |}]) !! bq) /\
      (memory mp ++ [{| page := replicate (Z.to_nat (pagesize mp)) 0; pgno := 0; flags := 0 |}]) !! bq = memory mp !! bq).
    { intros bq Hin. pose proof (q_bkts _ (rp_queues _ _ _ H) _ Hin) as Hs. pose proof Hs as Hlt.
      apply lookup_lt_is_Some_1 in Hlt. by rewrite lookup_app_l. }
    split; [|split; [|split]].
    + intros bq Hin _. split; [done|]. unfold bkt. cbn. by rewrite (proj2 (Hb bq Hin)).
    + split.
      * apply (represents_ext mp _ s); try done. intros bq Hin. cbn. destruct (Hb bq Hin) as [? E].
        split; [done|]. unfold bkt. cbn. by rewrite E.
      * cbn. intros Hin. pose proof (q_bkts _ (rp_queues _ _ _ H) _ Hin) as Hs.
        apply lookup_lt_is_Some_1 in Hs. lia.
      * cbn. apply lookup_lt_is_Some_2. rewrite length_app. cbn. lia.
      * unfold bkt. cbn. rewrite lookup_app_r, Nat.sub_diag by done. cbn. unfold zlen.
        rewrite length_replicate. pose proof (fmt_size _ (rp_format _ _ _ H)). lia.
      * intros bq Hin. split; [done|]. unfold bkt. cbn. by rewrite (proj2 (Hb bq Hin)).
    + right. cbn. rewrite length_app. cbn. split; [lia|]. by split.
    + intros E. specialize (Hw E). injection Hw as ->. by split.
  - eexists None, mp, s1. split; [done|]. split; [done|]. split; [by intros bq|].
    split; [by apply (represents_file _ s)|]. split; [by left|]. intros E. by specialize (Hw E).
Qed.

Lemma find_unpinned_spec mp :
  match find_unpinned mp with
  | Some bp => bp ∈ lqh mp /\ ~ pinned (bkt mp bp)
  | None => forall bq, bq ∈ lqh mp -> pinned (bkt mp bq)
  end.
Proof.
  unfold find_unpinned. destruct (filter _ _) as [|bp q] eqn:E; cbn [head].
  - intros bq Hin. unfold pinned. destruct (is_set (bkt mp bq) MPOOL_PINNED) eqn:Ep; [done|].
    assert (Hf : bq ∈ filter (fun bp => is_set (bkt mp bp) MPOOL_PINNED = false) (lqh mp)) by by apply list_elem_of_filter.
    rewrite E in Hf. by apply elem_of_nil in Hf.
  - assert (Hf : bp ∈ bp :: q) by apply list_elem_of_here. rewrite <- E in Hf.
    apply list_elem_of_filter in Hf as [Hp Hin]. split; [done|]. unfold pinned. by rewrite Hp.
Qed.

(** The bucket that is taken from the queues, its page written if need be. *)
Lemma evicted mp s s' st bp b :
  represents mp s st -> bp ∈ lqh mp -> ~ pinned (bkt mp bp) -> pgno b = pgno (bkt mp bp) ->
  zlen (page b) = pagesize mp ->
  on_disk mp s' (pgno b) (page (bkt mp bp)) ->
  (forall m q, 0 <= m -> m <> pgno b -> on_disk mp s m q -> on_disk mp s' m q) ->
  let mp' := take_out (put_bkt mp bp b) bp in
  same_setup mp mp' /\ keeps mp mp' /\ bucket_for mp mp' s' st bp /\ grows_by_need mp mp'.
Proof.
  intros H Hin Hpin Hp Hsz Hd Ho mp'. pose proof (q_bkts _ (rp_queues _ _ _ H) _ Hin) as Hm.
  assert (Hq : forall bq, bq ∈ lqh mp' <-> bq <> bp /\ bq ∈ lqh mp) by (intros; apply elem_of_circleq_remove).
  split; [done|]. split; [|split].
  - intros bq Hbq Hpq. assert (bq <> bp) by (intros ->; done). rewrite Hq. split; [done|]. by apply bkt_put_ne.
  - split.
    + by apply (represents_take_out mp s).
    + by intros [? _]%Hq.
    + apply lookup_lt_is_Some_2. cbn. rewrite length_insert. by apply lookup_lt_is_Some_1.
    + subst mp'. change (bkt (take_out (put_bkt mp bp b) bp)) with (bkt (put_bkt mp bp b)).
      rewrite bkt_put_eq; [done|]. by apply lookup_lt_is_Some_1.
    + intros bq [Hn Hbq]%Hq. split; [done|]. by apply bkt_put_ne.
  - left. cbn. by rewrite length_insert.
Qed.

Lemma mpool_bkt_spec mp s st :
  represents mp s st ->
  exists r mp' s', mpool_bkt mp s = (r, mp', s') /\ same_setup mp mp' /\ keeps mp mp' /\
    match r with
    | Some bp => bucket_for mp mp' s' st bp
    | None => after_failure mp mp' s' st
    end /\
    grows_by_need mp mp' /\ (replies s = [] -> is_Some r /\ replies s' = []).
Proof.
  intros H. unfold mpool_bkt.
  assert (Hnew : (curcache mp < maxcache mp \/ forall bq, bq ∈ lqh mp -> pinned (bkt mp bq)) ->
    exists r mp' s', new_bkt mp s = (r, mp', s') /\ same_setup mp mp' /\ keeps mp mp' /\
    match r with
    | Some bp => bucket_for mp mp' s' st bp
    | None => after_failure mp mp' s' st
    end /\ grows_by_need mp mp' /\ (replies s = [] -> is_Some r /\ replies s' = [])).
  { intros Hg. destruct (new_bkt_spec mp s st H Hg) as (r & mp' & s' & E & Hs & Hk & Hr & Hgr & Hw).
    exists r, mp', s'. split; [done|]. split; [done|]. split; [done|]. split; [destruct r; [done|by left]|done]. }
  destruct (Z.ltb_spec (curcache mp) (maxcache mp)) as [Hlt|_]; [by apply Hnew; left|].
  pose proof (find_unpinned_spec mp) as Hf. destruct (find_unpinned mp) as [bp|]; [|by apply Hnew; right].
  destruct Hf as [Hin Hpin]. pose proof (rp_cached _ _ _ H _ Hin) as [H0 Hp Hcl].
  pose proof (represents_size _ _ _ _ _ H Hp) as Hsz.
  destruct (is_set (bkt mp bp) MPOOL_DIRTY) eqn:Ed.
  - destruct (mpool_write_spec mp s bp (represents_writable _ _ _ _ H Hin)) as (rc & b & s' & E & Epg & En & Epin & Hrc & Ho & Hw).
    rewrite E. destruct Hrc as [(-> & _ & Hd)|[-> Hfl]]; cbn [Z.eqb RET_ERROR RET_SUCCESS].
    + assert (Hout : zlen (page b) = pagesize mp) by (rewrite Epg; by apply fmt_length; [apply (rp_format _ _ _ H)|]).
      destruct (evicted mp s s' st bp b) as (Hs & Hk & Hb & Hg); try done; [|by rewrite En|].
      { rewrite En. eexists. split; [exact Hd|]. by apply fmt_inverse; [apply (rp_format _ _ _ H)|]. }
      eexists (Some bp), _, s'. split; [done|]. split; [done|]. split; [done|]. split; [done|]. split; [done|].
      intros E0. split; [done|]. by apply Hw.
    + exists None, (put_bkt mp bp b), s'. split; [done|]. split; [done|]. split; [|split; [|split]].
      * intros bq Hbq Hpq. split; [done|]. apply bkt_put_ne. by intros ->.
      * right. exists (pgno (bkt mp bp)), (page (bkt mp bp)). split; [done|].
        apply (represents_put_bkt mp s s' st); try done.
        -- by rewrite Epg, En.
        -- rewrite Epg. by apply fmt_length; [apply (rp_format _ _ _ H)|].
        -- unfold clean, is_set. rewrite Hfl. unfold is_set in Ed. by rewrite Ed.
        -- by rewrite En.
      * left. cbn. by rewrite length_insert.
      * intros E0. by destruct (Hw E0).
  - cbn [Z.eqb RET_ERROR RET_SUCCESS].
    destruct (evicted mp s s st bp (bkt mp bp)) as (Hs & Hk & Hb & Hg); try done; [by apply Hcl|].
    rewrite put_bkt_same in *. by exists (Some bp), (take_out mp bp), s.
Qed.

(** ** The operations *)

Lemma pinned_lor b : set_flags b (Z.lor (flags b) MPOOL_PINNED) = b \/ ~ pinned b.
Proof.
  destruct (is_set b MPOOL_PINNED) eqn:E; [left|right; unfold pinned; by rewrite E].
  rewrite is_set_pinned in E. destruct b as [p n f]. unfold set_flags. cbn [page pgno flags] in *. f_equal.
  apply Z.bits_inj'. intros i Hi. rewrite Z.lor_spec. change MPOOL_PINNED with (2 ^ 1).
  destruct (decide (i = 1)) as [->|Hn]; [by rewrite E|]. rewrite Z.pow2_bits_false by lia. apply orb_false_r.
Qed.

Lemma set_pinned b : is_set (set_flags b MPOOL_PINNED) MPOOL_PINNED = true.
Proof. done. Qed.

(** [bp] is the page pointer of page [n], which is [p], in use. *)
Definition page_in_use (mp : MPOOL) (bp : nat) (n : Z) (p : list Z) : Prop :=
  bp ∈ lqh mp /\ pgno (bkt mp bp) = n /\ page (bkt mp bp) = p /\ pinned (bkt mp bp).

Lemma keeps_trans mp mp1 mp2 : keeps mp mp1 -> keeps mp1 mp2 -> keeps mp mp2.
Proof.
  intros H1 H2 bq Hin Hp. destruct (H1 bq Hin Hp) as [Hin1 E1]. rewrite <- E1 in Hp |- *. by apply H2.
Qed.

(** The bucket of [mpool_bkt] gets a page and goes into the queues. *)
Lemma bucket_put_in mp mp1 s1 st st' bp b :
  bucket_for mp mp1 s1 st bp ->
  0 <= pgno b -> pinned b -> zlen (page b) = pagesize mp1 ->
  (forall bq, bq ∈ lqh mp1 -> pgno (bkt mp1 bq) <> pgno b) ->
  st' !! Z.to_nat (pgno b) = Some (page b) ->
  (forall n, n <> Z.to_nat (pgno b) -> st' !! n = st !! n) -> zlen st' < 2 ^ 32 ->
  let mp' := put_in (put_bkt (put_npages mp1 (zlen st')) bp b) bp in
  represents mp' s1 st' /\ keeps mp1 mp' /\ page_in_use mp' bp (pgno b) (page b).
Proof.
  intros [Hr Hfree Hm _ _] H0 Hpin Hsz Hun Hst Hrest Hlen mp'.
  assert (Hin : forall bq, bq ∈ lqh mp' <-> bq ∈ lqh mp1 \/ bq = bp).
  { intros bq. cbn. unfold circleq_insert_tail. by rewrite elem_of_app, list_elem_of_singleton. }
  assert (Hb : bkt mp' bp = b).
  { change (bkt mp' bp) with (bkt (put_bkt (put_npages mp1 (zlen st')) bp b) bp). apply bkt_put_eq.
    by apply lookup_lt_is_Some_1. }
  split; [by apply (represents_put_in mp1 s1 st)|]. split.
  - intros bq Hq _. split; [by apply Hin; left|].
    change (bkt mp' bq) with (bkt (put_bkt (put_npages mp1 (zlen st')) bp b) bq).
    rewrite bkt_put_ne; [done|]. by intros ->.
  - split; [by apply Hin; right|]. by rewrite Hb.
Qed.

Lemma mpool_new_spec mp s st :
  represents mp s st -> zlen st <> MAX_PAGE_NUMBER ->
  exists r mp' s', mpool_new mp s = (r, mp', s') /\ keeps mp mp' /\ grows_by_need mp mp' /\
    match r with
    | Some (bp, n) => n = zlen st /\ exists p, represents mp' s' (st ++ [p]) /\ page_in_use mp' bp n p
    | None => after_failure mp mp' s' st
    end /\ (replies s = [] -> is_Some r /\ replies s' = []).
Proof.
  intros H Hmax. unfold mpool_new. pose proof (rp_npages _ _ _ H) as [En Hn].
  rewrite En, (proj2 (Z.eqb_neq _ _) Hmax).
  destruct (mpool_bkt_spec mp s st H) as (r & mp1 & s1 & E & Hs & Hk & Hr & Hg & Hw). rewrite E.
  destruct Hs as (En1 & Es1 & _). destruct r as [bp|].
  2:{ exists None, mp1, s1. split; [done|]. split; [done|]. split; [done|]. split; [done|].
      intros E0. by destruct (Hw E0) as [[? ?] _]. }
  pose proof (bf_represents _ _ _ _ _ Hr) as H1.
  assert (Hl : zlen (st ++ [page (bkt mp1 bp)]) = zlen st + 1) by (unfold zlen; rewrite length_app; cbn; lia).
  unfold MAX_PAGE_NUMBER in Hmax.
  assert (Hu : u32 (npages mp1 + 1) = zlen (st ++ [page (bkt mp1 bp)])).
  { rewrite En1, En, Hl. apply u32_id. unfold fits, zlen in *. lia. }
  set (b := set_flags (set_pgno (bkt mp1 bp) (npages mp1)) MPOOL_PINNED).
  assert (Hpg : pgno b = zlen st) by (cbn; by rewrite En1).
  destruct (bucket_put_in mp mp1 s1 st (st ++ [page (bkt mp1 bp)]) bp b Hr) as (Hr' & Hk' & Hu').
  - rewrite Hpg. unfold zlen. lia.
  - apply set_pinned.
  - rewrite Es1. apply (bf_page _ _ _ _ _ Hr).
  - intros bq Hq. rewrite Hpg. pose proof (cached_page _ _ _ _ (rp_cached _ _ _ H1 _ Hq)) as Ep.
    pose proof (cached_pgno _ _ _ _ (rp_cached _ _ _ H1 _ Hq)).
    apply lookup_lt_Some in Ep. unfold zlen. lia.
  - rewrite Hpg. unfold zlen. rewrite Nat2Z.id. by rewrite list_lookup_middle.
  - intros n Hne. rewrite Hpg in Hne. unfold zlen in Hne. rewrite Nat2Z.id in Hne.
    destruct (decide (n < length st)%nat); [by rewrite lookup_app_l|].
    rewrite !(proj2 (lookup_ge_None _ _)); [done|lia|]. rewrite length_app. cbn. lia.
  - unfold zlen in *. lia.
  - rewrite Hu. change (bkt (put_npages mp1 _) bp) with (bkt mp1 bp).
    eexists (Some (bp, npages mp1)), _, s1. split; [done|]. split; [by eapply keeps_trans|].
    split; [unfold grows_by_need; cbn; rewrite length_insert; exact Hg|]. split; [|intros E0; split; [done|]; by apply Hw].
    split; [by rewrite En1|]. eexists. split; [exact Hr'|]. exact Hu'.
Qed.

Lemma bkt_move mp bp bq : bkt (put_in (take_out mp bp) bp) bq = bkt mp bq.
Proof. done. Qed.

Lemma elem_of_move mp bp bq :
  bp ∈ lqh mp -> bq ∈ lqh (put_in (take_out mp bp) bp) <-> bq ∈ lqh mp.
Proof.
  intros Hin. change (lqh (put_in (take_out mp bp) bp)) with (circleq_remove bp (lqh mp) ++ [bp]).
  rewrite elem_of_app, list_elem_of_singleton, elem_of_circleq_remove.
  destruct (decide (bq = bp)) as [->|]; tauto.
Qed.

(** A cached page, put at the ends of its queues. *)
Lemma represents_move mp s st bp :
  represents mp s st -> bp ∈ lqh mp -> represents (put_in (take_out mp bp) bp) s st.
Proof.
  intros H Hin. pose proof (rp_queues _ _ _ H) as Hq.
  pose proof (fun bq => elem_of_move mp bp bq Hin) as Hl.
  split.
  - by apply (pool_format_same mp); [apply (rp_format _ _ _ H)|..].
  - apply queues_put_in; [by apply queues_take_out|by apply (q_bkts _ Hq)|].
    intros bq [Hn Hbq]%elem_of_circleq_remove. change (bkt (take_out mp bp)) with (bkt mp).
    intros E. apply Hn. by apply (q_unique _ Hq).
  - apply (rp_npages _ _ _ H).
  - apply (rp_sizes _ _ _ H).
  - intros bq Hbq%Hl. rewrite bkt_move. destruct (rp_cached _ _ _ H _ Hbq) as [H0 Hp Hc]. by split.
  - intros n p H0 Est Hnot. apply (rp_disk _ _ _ H n p H0 Est). intros bq Hbq. rewrite <- (bkt_move mp bp).
    by apply Hnot, Hl.
Qed.

Lemma get_cached mp s st n bp :
  represents mp s st -> bp ∈ lqh mp -> pgno (bkt mp bp) = n ->
  let mp1 := put_in (take_out mp bp) bp in
  let mp' := put_bkt mp1 bp (set_flags (bkt mp1 bp) (Z.lor (flags (bkt mp1 bp)) MPOOL_PINNED)) in
  represents mp' s st /\ keeps mp mp' /\ page_in_use mp' bp n (page (bkt mp bp)).
Proof.
  intros H Hin Hn mp1 mp'. pose proof (represents_move mp s st bp H Hin) as H1. fold mp1 in H1.
  pose proof (q_bkts _ (rp_queues _ _ _ H) _ Hin) as Hm. apply lookup_lt_is_Some_1 in Hm.
  assert (Hl : forall bq, bq ∈ lqh mp' <-> bq ∈ lqh mp) by (intros; by apply elem_of_move).
  assert (Hb : bkt mp' bp = set_flags (bkt mp bp) (Z.lor (flags (bkt mp bp)) MPOOL_PINNED)) by by apply bkt_put_eq.
  pose proof (rp_cached _ _ _ H _ Hin) as [H0 Hp Hc].
  split; [|split].
  - apply (represents_put_bkt mp1 s s st); try done; [by apply Hl|symmetry; by apply list_insert_id|by eapply represents_size|].
    intros _ Hpin. exfalso. apply Hpin. flag_bits. apply orb_true_r.
  - intros bq Hq Hpq. split; [by apply Hl|]. destruct (decide (bp = bq)) as [<-|Hne].
    + rewrite Hb. by destruct (pinned_lor (bkt mp bp)).
    + transitivity (bkt mp1 bq); [by apply bkt_put_ne|done].
  - split; [by apply Hl|]. rewrite Hb. split; [done|]. split; [done|]. flag_bits. apply orb_true_r.
Qed.

Lemma read_spec mp s n :
  pool_format mp ->
  let '(nr, data, s') := read s (pagesize mp * n) (pagesize mp) in
  file s' = file s /\ (nr = pagesize mp -> disk_page (file s) (pagesize mp) n = Some data) /\
  (replies s = [] -> forall p, on_disk mp s n p -> nr = pagesize mp /\ replies s' = []).
Proof.
  intros Hf. pose proof (fmt_size _ Hf) as Hs. unfold read, next_reply.
  set (d := pread (file s) (Z.to_nat (pagesize mp * n)) (Z.to_nat (pagesize mp))).
  assert (Hd : disk_page (file s) (pagesize mp) n = if zlen d =? pagesize mp then Some d else None) by done.
  assert (Hle : (length d <= Z.to_nat (pagesize mp))%nat).
  { subst d. unfold pread. rewrite length_take. lia. }
  rewrite Hd. destruct (replies s) as [|[|e|k] rs] eqn:Er; cbn; fold d.
  - split; [done|]. split; [intros E; by rewrite E, Z.eqb_refl|].
    intros _ p (d' & Ed & _). rewrite Hd in Ed. destruct (Z.eqb_spec (zlen d) (pagesize mp)); done.
  - split; [done|]. split; [intros E; by rewrite E, Z.eqb_refl|done].
  - split; [done|]. split; [lia|done].
  - split; [done|]. split; [|done]. intros E. unfold zlen in *. rewrite length_take in E.
    rewrite (take_ge d k) by lia. replace (Z.of_nat (length d)) with (pagesize mp) by lia.
    by rewrite Z.eqb_refl.
Qed.

(** A bucket outside the queues can change at will. *)
Lemma bucket_change mp mp1 s1 s2 st bp b :
  bucket_for mp mp1 s1 st bp -> file s2 = file s1 -> zlen (page b) = pagesize mp ->
  bucket_for mp (put_bkt mp1 bp b) s2 st bp.
Proof.
  intros [Hr Hfree Hm Hp Ho] Ef Hb. assert (Hne : forall bq, bq ∈ lqh mp1 -> bkt (put_bkt mp1 bp b) bq = bkt mp1 bq).
  { intros bq Hq. apply bkt_put_ne. by intros ->. }
  split; [|done| | |].
  - apply (represents_ext mp1 _ s1); try done. intros bq Hq. split; [|by apply Hne].
    apply lookup_lt_is_Some_2. cbn. rewrite length_insert. apply lookup_lt_is_Some_1.
    by apply (q_bkts _ (rp_queues _ _ _ Hr)).
  - apply lookup_lt_is_Some_2. cbn. rewrite length_insert. by apply lookup_lt_is_Some_1.
  - rewrite bkt_put_eq; [done|]. by apply lookup_lt_is_Some_1.
  - intros bq Hq. rewrite Hne by done. by apply Ho.
Qed.

Lemma put_bkt_twice mp bp b b' : put_bkt (put_bkt mp bp b) bp b' = put_bkt mp bp b'.
Proof. unfold put_bkt, put_memory. cbn. by rewrite list_insert_insert_eq. Qed.

Lemma put_in_put_bkt mp bp b :
  (bp < length (memory mp))%nat -> pgno b = pgno (bkt mp bp) ->
  put_bkt (put_in mp bp) bp b = put_in (put_bkt mp bp b) bp.
Proof. intros Hm E. unfold put_in. cbv zeta. rewrite bkt_put_eq by done. by rewrite E. Qed.

Lemma bkt_put_in mp bp bq : bkt (put_in mp bp) bq = bkt mp bq.
Proof. done. Qed.

Lemma put_npages_same mp : put_npages mp (npages mp) = mp.
Proof. by destruct mp. Qed.

Lemma get_read mp mp1 s1 st n p bp :
  bucket_for mp mp1 s1 st bp -> keeps mp mp1 -> same_setup mp mp1 -> 0 <= n ->
  st !! Z.to_nat n = Some p -> (forall bq, bq ∈ lqh mp1 -> pgno (bkt mp1 bq) <> n) ->
  exists r mp' s', mpool_get_read mp1 s1 n bp = (r, mp', s') /\ keeps mp mp' /\ length (memory mp') = length (memory mp1) /\
    curcache mp' = curcache mp1 /\ represents mp' s' st /\
    match r with Some bp => page_in_use mp' bp n p | None => True end /\
    (replies s1 = [] -> is_Some r /\ replies s' = []).
Proof.
  intros Hb Hk (En & Es & Ei & Eo & _) H0 Hst Hun. pose proof (bf_represents _ _ _ _ _ Hb) as H1.
  pose proof (rp_npages _ _ _ H1) as [En1 Hlen]. pose proof (rp_format _ _ _ H1) as Hf.
  unfold mpool_get_read. cbv zeta.
  assert (Hn32 : 0 <= n < 2 ^ 32) by (apply lookup_lt_Some in Hst; unfold zlen in Hlen; lia).
  destruct (file_offset_eq mp1 n Hf Hn32) as [-> Hoff]. rewrite lseek_call by done.
  pose proof (call_file s1) as Hcf. pose proof (call_works s1) as Hcw. destruct (call s1) as [ok s2]. cbn in Hcf.
  destruct ok.
  2:{ exists None, mp1, s2. split; [done|]. split; [done|]. split; [done|]. split; [done|].
      split; [by apply (represents_file _ s1)|]. split; [done|]. intros E. by specialize (Hcw E). }
  pose proof (read_spec mp1 s2 n Hf) as Hr. destruct (read s2 _ _) as [[nr data] s3].
  destruct Hr as (Hf3 & Hd & Hw). pose proof (rp_disk _ _ _ H1 n p H0 Hst Hun) as Hdisk.
  pose proof (bf_memory _ _ _ _ _ Hb) as Hm. apply lookup_lt_is_Some_1 in Hm.
  assert (Hps : forall b, pagesize (put_bkt mp1 bp b) = pagesize mp1) by done. rewrite Hps.
  assert (Hbk : forall b, zlen (page b) = pagesize mp1 -> bucket_for mp (put_bkt mp1 bp b) s3 st bp).
  { intros b Hz. apply (bucket_change mp mp1 s1); [done|by rewrite Hf3|by rewrite Hz]. }
  assert (Hwk : replies s1 = [] -> nr = pagesize mp1 /\ replies s3 = []).
  { intros E. specialize (Hcw E). injection Hcw as ->. apply (Hw E p). done. }
  destruct (Z.eqb_spec nr (pagesize mp1)) as [E|E].
  - specialize (Hd E). rewrite Hcf in Hd. destruct Hdisk as (d & Ed & <-). rewrite Hd in Ed. injection Ed as ->.
    assert (Hdl : zlen d = pagesize mp1).
    { unfold disk_page in Hd. cbv zeta in Hd. destruct (Z.eqb_spec (zlen (pread (file s1) (Z.to_nat (pagesize mp1 * n)) (Z.to_nat (pagesize mp1)))) (pagesize mp1)) as [Hz|]; [|done].
      by injection Hd as <-. }
    assert (Hnil : d ++ drop (length d) (page (bkt mp1 bp)) = d).
    { rewrite drop_ge; [by rewrite app_nil_r|]. pose proof (bf_page _ _ _ _ _ Hb) as Hz. unfold zlen in *. lia. }
    rewrite Hnil. set (b := {| page := run_filter (pgin mp1) n d; pgno := n; flags := MPOOL_PINNED |}).
    rewrite bkt_put_eq, put_bkt_twice by done.
    rewrite bkt_put_in, bkt_put_eq by done. rewrite put_in_put_bkt; [|cbn; by rewrite length_insert|by rewrite bkt_put_eq].
    rewrite put_bkt_twice. 
    destruct (bucket_put_in mp mp1 s1 st st bp b Hb) as (Hr' & Hk' & Hu'); try done.
    { by apply (represents_size _ _ _ _ _ H1 Hst). }
    rewrite <- En1, put_npages_same in *.
    eexists (Some bp), _, s3. split; [done|]. split; [by eapply keeps_trans|].
    split; [cbn; by rewrite length_insert|]. split; [done|].
    split; [by apply (represents_file _ s1); [|by rewrite Hf3]|]. split; [exact Hu'|].
    intros E0. split; [done|]. by apply Hwk.
  - eexists None, _, _. split; [done|].
    split.
    { intros bq Hq Hp. destruct (Hk bq Hq Hp) as [Hq1 <-]. split; [done|]. apply bkt_put_ne. intros ->.
      by apply (bf_free _ _ _ _ _ Hb). }
    split; [cbn; by rewrite length_insert|]. split; [done|]. split; [|split; [done|intros E0; by destruct (Hwk E0)]].
    apply (represents_ext mp1 _ s1); try done.
    + rewrite <- Hcf, <- Hf3. by destruct (0 <=? nr).
    + intros bq Hq. assert (bq <> bp) by (intros ->; by apply (bf_free _ _ _ _ _ Hb)).
      split; [|by apply bkt_put_ne]. apply lookup_lt_is_Some_2. cbn. rewrite length_insert.
      apply lookup_lt_is_Some_1. by apply (q_bkts _ (rp_queues _ _ _ H1)).
Qed.

Lemma mpool_get_spec mp s st n p :
  represents mp s st -> 0 <= n -> st !! Z.to_nat n = Some p ->
  exists r mp' s', mpool_get mp s n = (r, mp', s') /\ keeps mp mp' /\ grows_by_need mp mp' /\
    match r with
    | Some bp => represents mp' s' st /\ page_in_use mp' bp n p
    | None => after_failure mp mp' s' st
    end /\ (replies s = [] -> is_Some r /\ replies s' = []).
Proof.
  intros H H0 Hst. unfold mpool_get. pose proof (rp_npages _ _ _ H) as [En _].
  assert (Hlt : n < npages mp) by (rewrite En; apply lookup_lt_Some in Hst; unfold zlen; lia).
  rewrite (proj2 (Z.leb_gt _ _) Hlt).
  pose proof (mpool_look_spec mp n (rp_queues _ _ _ H)) as Hl. destruct (mpool_look mp n) as [bp|].
  - destruct Hl as [Hin Hn]. destruct (get_cached mp s st n bp H Hin Hn) as (Hr & Hk & Hu).
    eexists (Some bp), _, s. split; [done|]. split; [done|].
    split; [left; cbn; by rewrite length_insert|]. split; [|done]. split; [done|].
    pose proof (cached_page _ _ _ _ (rp_cached _ _ _ H _ Hin)) as Ep. rewrite Hn, Hst in Ep. by injection Ep as ->.
  - destruct (mpool_bkt_spec mp s st H) as (r & mp1 & s1 & E & Hs & Hk & Hr & Hg & Hw). rewrite E.
    destruct r as [bp|].
    2:{ exists None, mp1, s1. split; [done|]. split; [done|]. split; [done|]. split; [done|].
        intros E0. by destruct (Hw E0) as [[? ?] _]. }
    destruct (get_read mp mp1 s1 st n p bp Hr Hk Hs H0 Hst) as (r' & mp' & s' & E' & Hk' & Hm' & Hc' & Hr' & Hu' & Hw').
    { intros bq Hq. destruct (bf_others _ _ _ _ _ Hr bq Hq) as [Hq' ->]. by apply Hl. }
    rewrite E'. exists r', mp', s'. split; [done|]. split; [done|].
    split; [unfold grows_by_need in *; by rewrite Hm', Hc'|].
    split; [destruct r'; [done|by left]|]. intros E0. apply Hw'. by destruct (Hw E0).
Qed.

Lemma mpool_put_spec mp s st bp n p fl :
  represents mp s st -> page_in_use mp bp n p ->
  Z.testbit fl 0 = true \/ ~ clean (bkt mp bp) \/ on_disk mp s n p ->
  exists mp', mpool_put mp bp fl = (RET_SUCCESS, mp') /\ represents mp' s st /\ lqh mp' = lqh mp /\
    ~ pinned (bkt mp' bp) /\ (forall bq, bq <> bp -> bkt mp' bq = bkt mp bq).
Proof.
  intros H (Hin & Hn & Hp & _) Hd. eexists. split; [done|].
  pose proof (q_bkts _ (rp_queues _ _ _ H) _ Hin) as Hm. apply lookup_lt_is_Some_1 in Hm.
  pose proof (rp_cached _ _ _ H _ Hin) as [_ Hpg _].
  split; [|split; [done|split]].
  - apply (represents_put_bkt mp s s st); try done.
    + symmetry. by apply list_insert_id.
    + by apply (represents_size _ _ _ _ _ H Hpg).
    + intros Hc _. destruct Hd as [Hd|[Hd|Hd]].
      * exfalso. flag_bits. by rewrite Hd, orb_true_r in Hc.
      * exfalso. apply Hd. flag_bits. apply orb_false_iff in Hc as [Hc _]. by rewrite andb_true_r in Hc.
      * cbn. by rewrite Hn, Hp.
  - rewrite bkt_put_eq by done. flag_bits. by rewrite andb_false_r, andb_false_r.
  - intros bq Hne. by apply bkt_put_ne.
Qed.

Lemma page_store_spec mp s st bp n p p' :
  represents mp s st -> page_in_use mp bp n p -> zlen p' = pagesize mp ->
  represents (page_store mp bp p') s (<[Z.to_nat n := p']> st) /\ page_in_use (page_store mp bp p') bp n p' /\
  (forall bq, bq <> bp -> bkt (page_store mp bp p') bq = bkt mp bq).
Proof.
  intros H (Hin & Hn & Hp & Hpin) Hsz.
  pose proof (q_bkts _ (rp_queues _ _ _ H) _ Hin) as Hm. apply lookup_lt_is_Some_1 in Hm.
  split; [|split].
  - apply (represents_put_bkt mp s s st); try done. cbn. by rewrite Hn.
  - unfold page_in_use, page_store. rewrite bkt_put_eq by done. done.
  - intros bq Hne. by apply bkt_put_ne.
Qed.

(** A page that the pool would not lose if it lost its buckets. *)
Definition on_file (mp : MPOOL) (s : sys) (bp : nat) : Prop :=
  on_disk mp s (pgno (bkt mp bp)) (page (bkt mp bp)).

(** Syncing with filters that change nothing: the buckets keep their pages, and after the loop the
    file has those that were dirty or not in use. *)
Lemma sync_loop_spec q mp s st :
  represents mp s st -> plain_filter (pgout mp) (pagesize mp) -> q ⊆ lqh mp ->
  exists rc mp' s', sync_loop q mp s = (rc, mp', s') /\ represents mp' s' st /\
    lqh mp' = lqh mp /\ pgin mp' = pgin mp /\ pagesize mp' = pagesize mp /\
    (rc = RET_SUCCESS \/ rc = RET_ERROR) /\
    (forall bq, pgno (bkt mp' bq) = pgno (bkt mp bq) /\ page (bkt mp' bq) = page (bkt mp bq) /\
       (pinned (bkt mp' bq) <-> pinned (bkt mp bq)) /\ (clean (bkt mp bq) -> clean (bkt mp' bq))) /\
    (rc = RET_SUCCESS -> forall bq, bq ∈ q -> clean (bkt mp' bq)) /\
    (rc = RET_SUCCESS -> forall n p, 0 <= n -> st !! Z.to_nat n = Some p ->
       on_disk mp s n p -> on_disk mp' s' n p) /\
    (replies s = [] -> rc = RET_SUCCESS /\ replies s' = []).
Proof.
  revert mp s. induction q as [|bp q IH]; intros mp s H Ho Hq.
  { exists RET_SUCCESS, mp, s. repeat (split; [by auto|]). split; [by intros ? bq ?%elem_of_nil|]. by split. }
  assert (Hin : bp ∈ lqh mp) by (apply Hq, list_elem_of_here).
  assert (Hq' : q ⊆ lqh mp) by (intros x Hx; by apply Hq, list_elem_of_further).
  cbn [sync_loop]. destruct (is_set (bkt mp bp) MPOOL_DIRTY) eqn:Ed.
  2:{ destruct (IH mp s H Ho Hq') as (rc & mp' & s' & E & Hr & El & Ei & Es & Hrc & Hb & Hc & Hd & Hw).
      exists rc, mp', s'. repeat (split; [done|]). split; [|done].
      intros E0 bq [->|Hx]%elem_of_cons; [by apply Hb|by apply Hc]. }
  destruct (mpool_write_spec mp s bp (represents_writable _ _ _ _ H Hin)) as (rc & b & s1 & E & Epg & En & Epin & Hrc & Hoth & Hw).
  pose proof (rp_cached _ _ _ H _ Hin) as [_ Hpg _].
  pose proof (represents_size _ _ _ _ _ H Hpg) as Hsz.
  pose proof (q_bkts _ (rp_queues _ _ _ H) _ Hin) as Hm. apply lookup_lt_is_Some_1 in Hm.
  rewrite (Ho _ _ Hsz) in Epg, Hrc.
  assert (Hself : rc = RET_SUCCESS -> on_disk mp s1 (pgno (bkt mp bp)) (page (bkt mp bp))).
  { intros ->. destruct Hrc as [(_ & _ & Hd)|[? _]]; [|done]. eexists. split; [exact Hd|].
    pose proof (fmt_inverse _ (rp_format _ _ _ H) (pgno (bkt mp bp)) _ Hsz) as Hi. by rewrite Ho in Hi by done. }
  assert (Hr1 : represents (put_bkt mp bp b) s1 st).
  { apply (represents_put_bkt mp s s1 st); try done.
    - rewrite En, Epg. symmetry. by apply list_insert_id.
    - by rewrite Epg.
    - intros Hcl _. rewrite En, Epg. destruct Hrc as [(Erc & _ & _)|[_ Efl]]; [by apply Hself|].
      exfalso. unfold clean, is_set in *. rewrite Efl in Hcl. congruence.
    - by rewrite En. }
  assert (Hb1 : forall bq, pgno (bkt (put_bkt mp bp b) bq) = pgno (bkt mp bq) /\
    page (bkt (put_bkt mp bp b) bq) = page (bkt mp bq) /\
    (pinned (bkt (put_bkt mp bp b) bq) <-> pinned (bkt mp bq)) /\
    (clean (bkt mp bq) -> clean (bkt (put_bkt mp bp b) bq))).
  { intros bq. destruct (decide (bp = bq)) as [<-|Hne]; [|by rewrite bkt_put_ne].
    rewrite bkt_put_eq by done. repeat (split; [done|]). unfold clean. congruence. }
  rewrite E. destruct Hrc as [(-> & Hcl & _)|[-> _]]; cbn [Z.eqb RET_ERROR RET_SUCCESS].
  - destruct (IH (put_bkt mp bp b) s1 Hr1 Ho Hq') as (rc & mp' & s' & E' & Hr & El & Ei & Es & Hrc & Hb & Hc & Hd & Hw').
    exists rc, mp', s'. repeat (split; [done|]). split; [|split; [|split]].
    + intros bq. destruct (Hb bq) as (-> & -> & -> & Hcl'). destruct (Hb1 bq) as (-> & -> & -> & Hcl1).
      split; [done|]. split; [done|]. split; [done|]. auto.
    + intros E0 bq [->|Hx]%elem_of_cons; [|by apply Hc].
      destruct (Hb bp) as (_ & _ & _ & Hk). apply Hk. by rewrite bkt_put_eq.
    + intros E0 n p H0 Est Hdn. apply Hd; [done|done|done|]. destruct (decide (n = pgno (bkt mp bp))) as [->|Hne].
      * rewrite Hpg in Est. injection Est as <-. by apply Hself.
      * by apply Hoth.
    + intros E0. apply Hw'. by destruct (Hw E0).
  - exists RET_ERROR, (put_bkt mp bp b), s1. repeat (split; [done|]). split; [by right|]. split; [done|].
    split; [done|]. split; [done|]. intros E0. by destruct (Hw E0).
Qed.

(** ** Opening a pool *)

(** The pages of a file. *)
Definition file_pages (f : list Z) (size : Z) : list (list Z) :=
  map (fun n => pread f (n * Z.to_nat size) (Z.to_nat size)) (seq 0 (Z.to_nat (zlen f / size))).

Lemma lookup_file_pages f size n d :
  0 < size -> 0 <= n -> disk_page f size n = Some d <-> file_pages f size !! Z.to_nat n = Some d.
Proof.
  intros Hs Hn. unfold disk_page, file_pages. cbv zeta. rewrite list_lookup_fmap.
  rewrite (Z2Nat.inj_mul size n), (Nat.mul_comm (Z.to_nat size)) by lia.
  set (d' := pread f (Z.to_nat n * Z.to_nat size) (Z.to_nat size)).
  assert (Hd : zlen d' = size <-> (Z.to_nat n < Z.to_nat (zlen f / size))%nat).
  { subst d'. unfold pread, zlen. rewrite length_take, length_drop.
    pose proof (Z.div_mod (Z.of_nat (length f)) size). pose proof (Z.mod_pos_bound (Z.of_nat (length f)) size).
    set (k := Z.of_nat (length f) / size) in *.
    split.
    - intros E. assert (Hle : size * n + size <= Z.of_nat (length f)) by nia. assert (n < k) by nia. lia.
    - intros Hlt. assert (Hnk : n + 1 <= k) by lia. assert (size * (n + 1) <= Z.of_nat (length f)) by nia. nia. }
  destruct (decide (Z.to_nat n < Z.to_nat (zlen f / size))%nat) as [Hlt|Hge].
  - rewrite (proj2 (Z.eqb_eq _ _)) by by apply Hd. by rewrite lookup_seq_lt by done.
  - rewrite (proj2 (Z.eqb_neq _ _)) by by rewrite Hd. by rewrite lookup_seq_ge by lia.
Qed.

Lemma represents_open s size maxcache :
  0 < size < 2 ^ 31 -> zlen (file s) < 2 ^ 32 * size -> replies s = [] ->
  exists mp, mpool_open (Some (true, zlen (file s))) s size maxcache = (Some mp, s) /\
    (pagesize mp = size /\ pgin mp = None) /\ represents mp s (file_pages (file s) size).
Proof.
  intros Hs Hf Hr. unfold mpool_open. rewrite call_works by done. eexists. split; [done|]. split; [done|].
  assert (Hdiv : 0 <= zlen (file s) / size < 2 ^ 32).
  { split; [apply Z.div_pos; unfold zlen; lia|]. apply Z.div_lt_upper_bound; lia. }
  assert (Hl : zlen (file_pages (file s) size) = zlen (file s) / size).
  { unfold file_pages, zlen at 1. rewrite length_map, length_seq. lia. }
  assert (Hd : forall n p, 0 <= n -> file_pages (file s) size !! Z.to_nat n = Some p ->
    disk_page (file s) size n = Some p) by (intros n p Hn; apply lookup_file_pages; lia).
  split.
  - split; cbn; [done|done|done].
  - split; cbn [lqh hqh memory].
    + by intros bp ?%elem_of_nil.
    + apply length_replicate.
    + intros n bp. unfold chain. cbn [hqh]. pose proof (HASHKEY_range n).
      rewrite lookup_replicate_2 by lia. cbn. rewrite elem_of_nil. tauto.
    + by intros bp bq ?%elem_of_nil.
  - cbn [npages]. rewrite u32_id by done. split; [done|]. lia.
  - apply Forall_lookup. intros n p Ep. rewrite <- (Nat2Z.id n) in Ep. apply Hd in Ep; [|lia].
    unfold disk_page in Ep. cbv zeta in Ep. cbn.
    destruct (Z.eqb_spec (zlen (pread (file s) (Z.to_nat (size * Z.of_nat n)) (Z.to_nat size))) size) as [E|]; [|done].
    by injection Ep as <-.
  - by intros bp ?%elem_of_nil.
  - intros n p Hn Ep _. exists p. split; [by apply Hd|done].
Qed.

(** A filter that leaves pages as they are does not change what a pool holds. *)
Lemma represents_filter mp s st pin pout :
  represents mp s st -> pgin mp = None -> pool_format (mpool_filter mp pin pout) ->
  plain_filter pin (pagesize mp) -> represents (mpool_filter mp pin pout) s st.
Proof.
  intros H Ei Hf Hp.
  assert (Hd : forall n p, on_disk mp s n p -> on_disk (mpool_filter mp pin pout) s n p).
  { intros n p (d & Ed & Er). exists d. split; [done|]. rewrite Ei in Er. cbn [run_filter] in Er.
    cbn [mpool_filter pgin]. rewrite Hp; [done|]. unfold disk_page in Ed. cbv zeta in Ed.
    destruct (Z.eqb_spec (zlen (pread (file s) (Z.to_nat (pagesize mp * n)) (Z.to_nat (pagesize mp)))) (pagesize mp)); [|done].
    by injection Ed as <-. }
  destruct H as [_ [Hb Hl Hc Hu] Hn Hs Hca Hdi]. split; [done|by split|done|done| |].
  - intros bp Hin. destruct (Hca bp Hin) as [H0 Hpg Hcl]. split; [done|done|]. intros. by apply Hd, Hcl.
  - intros n p H0 Est Hnot. by apply Hd, Hdi.
Qed.

(** ** Syncing with filters *)

Lemma sync_loop_converts q mp s :
  (forall bq, bq ∈ q -> writable mp bq) -> replies s = [] ->
  exists mp' s', sync_loop q mp s = (RET_SUCCESS, mp', s') /\ replies s' = [] /\
    lqh mp' = lqh mp /\ hqh mp' = hqh mp /\ npages mp' = npages mp /\
    length (memory mp') = length (memory mp) /\
    forall bq, pgno (bkt mp' bq) = pgno (bkt mp bq) /\
      page (bkt mp' bq) =
        if decide (bq ∈ q /\ ~ clean (bkt mp bq))
        then run_filter (pgout mp) (pgno (bkt mp bq)) (page (bkt mp bq)) else page (bkt mp bq).
Proof.
  revert mp s. induction q as [|bp q IH]; intros mp s Hq Hr.
  { exists mp, s. do 6 (split; [done|]). intros bq. split; [done|].
    rewrite decide_False; [done|]. by intros [?%elem_of_nil _]. }
  assert (Hbp : writable mp bp) by apply Hq, list_elem_of_here. cbn [sync_loop].
  destruct (is_set (bkt mp bp) MPOOL_DIRTY) eqn:Ed.
  2:{ destruct (IH mp s) as (mp' & s' & E & Hr' & El & Eh & En & Em & Hb); [|done|].
      { intros bq Hin. by apply Hq, list_elem_of_further. }
      exists mp', s'. do 6 (split; [done|]). intros bq. destruct (Hb bq) as [Hp ->]. split; [done|].
      apply decide_ext. rewrite elem_of_cons. split; [tauto|]. intros [[->|?] Hc]; [done|tauto]. }
  destruct (mpool_write_spec mp s bp Hbp) as (rc & b & s1 & E & Epg & En & _ & Hrc & _ & Hw).
  destruct (Hw Hr) as [-> Hr1]. rewrite E. cbn [Z.eqb RET_ERROR RET_SUCCESS].
  destruct Hrc as [(_ & Hcl & _)|[? _]]; [|done].
  destruct Hbp as [Hf Hm Hn Hz].
  assert (Hb1 : bkt (put_bkt mp bp b) bp = b) by by apply bkt_put_eq.
  destruct (IH (put_bkt mp bp b) s1) as (mp' & s' & E' & Hr' & El & Eh & Enp & Em & Hb); [|done|].
  { intros bq Hin. destruct (Hq bq (list_elem_of_further _ _ _ Hin)) as [_ Hm' Hn' Hz'].
    split; [by apply (pool_format_same mp)|cbn; by rewrite length_insert| |].
    - destruct (decide (bp = bq)) as [<-|Hne]; [by rewrite Hb1, En|by rewrite bkt_put_ne].
    - destruct (decide (bp = bq)) as [<-|Hne]; [|by rewrite bkt_put_ne].
      rewrite Hb1, Epg. exact (fmt_length _ Hf _ _ Hz). }
  exists mp', s'. do 5 (split; [done|]). split; [by rewrite Em; cbn; rewrite length_insert|].
  intros bq. destruct (Hb bq) as [-> ->]. destruct (decide (bp = bq)) as [<-|Hne].
  - rewrite Hb1. split; [done|]. rewrite decide_False by by intros [_ []].
    rewrite decide_True; [done|]. split; [apply list_elem_of_here|]. unfold clean. by rewrite Ed.
  - rewrite bkt_put_ne by done. split; [done|]. apply decide_ext. rewrite elem_of_cons.
    split; [tauto|]. by intros [[->|?] ?].
Qed.

(** ** An example *)

(** A pool of one bucket for pages of four bytes on an empty file. *)
Definition empty_pool (f : option filter_fn) : MPOOL :=
  {| lqh := []; hqh := replicate 128 []; curcache := 0; maxcache := 1; npages := 0; pagesize := 4;
     pgin := f; pgout := f; memory := [] |}.

Definition sys0 : sys := {| file := []; replies := []; errno := 0 |}.

(** One page was made, stored to and put back. *)
Definition dirty_pool (f : option filter_fn) : MPOOL :=
  let mp := snd (fst (mpool_new (empty_pool f) sys0)) in
  snd (mpool_put (page_store mp 0 [1; 2; 3; 4]) 0 MPOOL_DIRTY).

Lemma empty_pool_represents f : pool_format (empty_pool f) -> represents (empty_pool f) sys0 [].
Proof.
  intros Hf. split; [done| |done|constructor| |done].
  - split; cbn [lqh hqh empty_pool]; [by intros bp ?%elem_of_nil|done| |by intros bp bq ?%elem_of_nil].
    intros n bp. unfold chain. cbn [hqh empty_pool]. pose proof (HASHKEY_range n) as Hn. unfold HASHSIZE in Hn.
    rewrite lookup_replicate_2 by lia. cbn. rewrite elem_of_nil. tauto.
  - by intros bp ?%elem_of_nil.
Qed.

Lemma dirty_pool_represents f :
  pool_format (empty_pool f) ->
  represents (dirty_pool f) sys0 [[1; 2; 3; 4]] /\ lqh (dirty_pool f) = [0%nat] /\
  bkt (dirty_pool f) 0 = {| page := [1; 2; 3; 4]; pgno := 0; flags := MPOOL_DIRTY |}.
Proof.
  intros Hf. destruct (mpool_new_spec _ _ _ (empty_pool_represents f Hf)) as (r & mp & s & E & _ & _ & Hr & Hw); [done|].
  assert (Ec : mpool_new (empty_pool f) sys0 = (Some (0%nat, 0), mp, sys0)).
  { rewrite E. revert E. unfold mpool_new. cbn -[put_in].
    intros [= <- <- <-]. done. }
  unfold dirty_pool. rewrite Ec. cbn [fst snd]. rewrite Ec in E. injection E as <- <-.
  destruct Hr as (_ & p & Hr & Hu).
  destruct (page_store_spec _ _ _ _ _ _ [1; 2; 3; 4] Hr Hu) as (Hr1 & Hu1 & _).
  { cbn in Ec. by injection Ec as <-. }
  destruct (mpool_put_spec _ _ _ _ _ _ MPOOL_DIRTY Hr1 Hu1) as (mp' & E' & Hr' & _); [by left|].
  rewrite E'. split; [done|].
  cbn in Ec. injection Ec as <-. cbn in E'. injection E' as <-. by split.
Qed.

(** ** Properties *)

(** C20: The cache is transparent: from a pool that holds the pages [st], mpool_new
    gives a further page, mpool_get the page that is asked for, with what was last
    stored in it, wherever it is; a page in use stays in its bucket; stores and
    mpool_put change that page only; the cache grows only below its maximum or
    when every bucket is in use.  When a call of the system fails the result is
    NULL and every page is still there, but for one that an output filter may have
    left in the format of the file (none, with filters that change no page); when
    all calls work the result is a page; page numbers from the end on give EINVAL,
    and a file of 2^32-1 pages no new one, without setting errno as mpool.3 says. *)
Theorem mpool_transparent (mp : MPOOL) (s : sys) (st : list (list Z)) :
  represents mp s st ->
  (zlen st <> MAX_PAGE_NUMBER ->
   exists r mp' s', mpool_new mp s = (r, mp', s') /\ keeps mp mp' /\ grows_by_need mp mp' /\
     match r with
     | Some (bp, n) => n = zlen st /\ exists p, represents mp' s' (st ++ [p]) /\ page_in_use mp' bp n p
     | None => after_failure mp mp' s' st /\
               (plain_filter (pgout mp) (pagesize mp) -> represents mp' s' st)
     end /\ (replies s = [] -> is_Some r /\ replies s' = [])) /\
  (zlen st = MAX_PAGE_NUMBER -> mpool_new mp s = (None, mp, s)) /\
  (forall n p, 0 <= n -> st !! Z.to_nat n = Some p ->
   exists r mp' s', mpool_get mp s n = (r, mp', s') /\ keeps mp mp' /\ grows_by_need mp mp' /\
     match r with
     | Some bp => represents mp' s' st /\ page_in_use mp' bp n p
     | None => after_failure mp mp' s' st /\
               (plain_filter (pgout mp) (pagesize mp) -> represents mp' s' st)
     end /\ (replies s = [] -> is_Some r /\ replies s' = [])) /\
  (forall n, zlen st <= n -> mpool_get mp s n = (None, mp, put_errno s EINVAL)) /\
  (forall bp n p, page_in_use mp bp n p ->
     (forall p', zlen p' = pagesize mp ->
        represents (page_store mp bp p') s (<[Z.to_nat n := p']> st) /\
        page_in_use (page_store mp bp p') bp n p' /\
        (forall bq, bq <> bp -> bkt (page_store mp bp p') bq = bkt mp bq)) /\
     (forall fl, Z.testbit fl 0 = true \/ ~ clean (bkt mp bp) \/ on_disk mp s n p ->
        exists mp', mpool_put mp bp fl = (RET_SUCCESS, mp') /\ represents mp' s st /\ lqh mp' = lqh mp /\
          ~ pinned (bkt mp' bp) /\ (forall bq, bq <> bp -> bkt mp' bq = bkt mp bq))).
Proof.
  intros H. pose proof (rp_npages _ _ _ H) as [En _].
  assert (Hfail : forall mp' s', after_failure mp mp' s' st ->
    after_failure mp mp' s' st /\ (plain_filter (pgout mp) (pagesize mp) -> represents mp' s' st)).
  { intros mp' s' Ha. split; [done|]. intros Hp. by eapply after_failure_plain. }
  split.
  { intros Hn. destruct (mpool_new_spec mp s st H Hn) as (r & mp' & s' & E & Hk & Hg & Hr & Hw).
    exists r, mp', s'. repeat (split; [done|]). split; [|done]. destruct r as [[bp n]|]; [done|by apply Hfail]. }
  split; [intros E; unfold mpool_new; by rewrite En, E|].
  split.
  { intros n p H0 Hst. destruct (mpool_get_spec mp s st n p H H0 Hst) as (r & mp' & s' & E & Hk & Hg & Hr & Hw).
    exists r, mp', s'. repeat (split; [done|]). split; [|done]. destruct r as [bp|]; [done|by apply Hfail]. }
  split; [intros n Hn; unfold mpool_get; by rewrite En, (proj2 (Z.leb_le _ _) Hn)|].
  intros bp n p Hu. split; [intros p' Hp'; by apply (page_store_spec _ _ _ _ _ p)|].
  intros fl Hfl. by apply (mpool_put_spec _ _ _ _ n p).
Qed.

Lemma mpool_transparent_witness :
  exists r mp' s', mpool_get (dirty_pool None) sys0 0 = (r, mp', s') /\ is_Some r.
Proof.
  assert (Hf : pool_format (empty_pool None)) by (split; done).
  destruct (mpool_transparent _ _ _ (proj1 (dirty_pool_represents None Hf))) as (_ & _ & Hg & _).
  destruct (Hg 0 [1; 2; 3; 4] ltac:(lia) eq_refl) as (r & mp' & s' & E & _ & _ & _ & Hw).
  exists r, mp', s'. split; [exact E|]. exact (proj1 (Hw eq_refl)).
Defined.

(** C21: What is synced is on the disk, when the output filter leaves the pages as they
    are, as that of a btree in the byte order of the machine does: when no page is
    in use (__bt_sync gives the pinned page back first) and the calls work,
    mpool_sync succeeds, the pool holds the same pages, and a pool opened on the
    file afterwards holds them all, before and after it is given the same filters;
    whatever calls fail, mpool_sync loses no page of the pool. *)
Theorem mpool_sync_durable (mp : MPOOL) (s : sys) (st : list (list Z)) :
  represents mp s st -> plain_filter (pgout mp) (pagesize mp) ->
  exists rc mp' s', mpool_sync mp s = (rc, mp', s') /\ represents mp' s' st /\
    (rc = RET_SUCCESS \/ rc = RET_ERROR) /\
    (replies s = [] -> rc = RET_SUCCESS /\ replies s' = []) /\
    (rc = RET_SUCCESS -> replies s' = [] -> zlen (file s') < 2 ^ 32 * pagesize mp ->
     (forall bp, bp ∈ lqh mp -> ~ pinned (bkt mp bp)) ->
     forall maxcache, exists mp0 st0,
       mpool_open (Some (true, zlen (file s'))) s' (pagesize mp) maxcache = (Some mp0, s') /\
       represents mp0 s' st0 /\ represents (mpool_filter mp0 (pgin mp) (pgout mp)) s' st0 /\
       st `prefix_of` st0).
Proof.
  intros H Ho. destruct (sync_loop_spec (lqh mp) mp s st H Ho) as (rc & mp' & s' & E & Hr & El & Ei & Es & Hrc & Hb & Hc & Hd & Hw); [done|].
  unfold mpool_sync. rewrite E. pose proof (call_file s') as Hf. pose proof (call_works s') as Hcw.
  destruct Hrc as [-> | ->]; cbn [Z.eqb RET_ERROR RET_SUCCESS].
  2:{ exists RET_ERROR, mp', s'. split; [done|]. split; [done|]. split; [by right|].
      split; [intros E0; by destruct (Hw E0)|done]. }
  destruct (call s') as [ok s2]. cbn in Hf.
  assert (Hr2 : represents mp' s2 st) by by apply (represents_file _ s').
  exists (if ok then RET_SUCCESS else RET_ERROR), mp', s2. split; [by destruct ok|]. split; [done|].
  split; [destruct ok; auto|].
  split.
  { intros E0. destruct (Hw E0) as [_ E1]. specialize (Hcw E1). by injection Hcw as -> ->. }
  intros Eok Hrep Hsz Hunp maxcache.
  assert (Hin : plain_filter (pgin mp) (pagesize mp)).
  { intros n p Hp. pose proof (fmt_inverse _ (rp_format _ _ _ H) n p Hp) as Hi. by rewrite Ho in Hi. }
  destruct (represents_open s2 (pagesize mp) maxcache) as (mp0 & Eo & [Esz Ei0] & Hr0); [apply (fmt_size _ (rp_format _ _ _ H))|done|done|].
  exists mp0, (file_pages (file s2) (pagesize mp)). split; [done|]. split; [done|].
  split.
  { apply represents_filter; [done|done| |by rewrite Esz].
    destruct (rp_format _ _ _ H) as [F1 F2 F3]. split; cbn; rewrite ?Esz; done. }
  assert (Hall : forall n p, st !! n = Some p -> file_pages (file s2) (pagesize mp) !! n = Some p).
  { intros n p Ep. rewrite <- (Nat2Z.id n) in Ep |- *.
    assert (Hdn : on_disk mp' s' (Z.of_nat n) p).
    { destruct (mpool_look mp (Z.of_nat n)) as [bp|] eqn:Elk; pose proof (mpool_look_spec mp (Z.of_nat n) (rp_queues _ _ _ H)) as Hlk; rewrite Elk in Hlk.
      - destruct Hlk as [Hbp Epn]. destruct (Hb bp) as (Epg & Epa & Hpin & _).
        assert (Hbp' : bp ∈ lqh mp') by by rewrite El.
        pose proof (rp_cached _ _ _ Hr _ Hbp') as [_ Hpg Hcl].
        rewrite Epg, Epn, Ep in Hpg. injection Hpg as ->. rewrite <- Epn, <- Epg. apply Hcl; [by apply Hc|].
        rewrite Hpin. by apply Hunp.
      - apply Hd; [done|lia|done|]. apply (rp_disk _ _ _ H); [lia|done|done]. }
    destruct Hdn as (d & Ed & Er). rewrite Es in Ed.
    assert (Hzd : zlen d = pagesize mp).
    { unfold disk_page in Ed. cbv zeta in Ed. destruct (Z.eqb_spec (zlen (pread (file s') (Z.to_nat (pagesize mp * Z.of_nat n)) (Z.to_nat (pagesize mp)))) (pagesize mp)); [|done].
      by injection Ed as <-. }
    rewrite Ei, Hin in Er by done. subst d.
    apply lookup_file_pages; [apply (fmt_size _ (rp_format _ _ _ H))|lia|by rewrite Hf]. }
  exists (drop (length st) (file_pages (file s2) (pagesize mp))).
  rewrite <- (take_drop (length st) (file_pages (file s2) (pagesize mp))) at 1. f_equal.
  apply list_eq. intros i. destruct (st !! i) as [p|] eqn:Ep.
  - rewrite lookup_take_lt by by eapply lookup_lt_Some. by apply Hall.
  - apply lookup_ge_None in Ep. rewrite lookup_take_ge by lia. done.
Qed.


(** A pool with filters that return at once, as a btree sets them up. *)
Lemma mpool_sync_durable_witness :
  exists rc mp' s', mpool_sync (dirty_pool (Some (fun _ p => p))) sys0 = (rc, mp', s') /\ rc = RET_SUCCESS.
Proof.
  assert (Hf : pool_format (empty_pool (Some (fun _ p => p)))) by (split; done).
  assert (Hp : plain_filter (Some (fun _ p => p)) 4) by done.
  destruct (mpool_sync_durable _ _ _ (proj1 (dirty_pool_represents _ Hf)) Hp)
    as (rc & mp' & s' & E & _ & _ & Hw & _).
  exists rc, mp', s'. split; [exact E|]. exact (proj1 (Hw eq_refl)).
Defined.

(** With filters a sync spoils the cache: mpool_write converts the page of a
    dirty bucket where it is and leaves it so; the next mpool_get of that page
    finds the bucket and gives the client the page in the format of the file, not
    the page that was stored. *)
Theorem mpool_sync_converts (mp : MPOOL) (s : sys) (st : list (list Z)) (bp : nat) (n : Z) (p : list Z) :
  represents mp s st -> replies s = [] ->
  bp ∈ lqh mp -> ~ clean (bkt mp bp) -> pgno (bkt mp bp) = n -> st !! Z.to_nat n = Some p ->
  exists mp' s' mp'', mpool_sync mp s = (RET_SUCCESS, mp', s') /\
    mpool_get mp' s' n = (Some bp, mp'', s') /\
    page (bkt mp'' bp) = run_filter (pgout mp) n p.
Proof.
  intros H Hr Hin Hd <- Hst. pose proof (rp_queues _ _ _ H) as Hq.
  destruct (sync_loop_converts (lqh mp) mp s) as (mp' & s' & E & Hr' & El & Eh & En & Em & Hb); [|done|].
  { intros bq. by apply represents_writable with s st. }
  unfold mpool_sync. rewrite E. cbn [Z.eqb RET_ERROR RET_SUCCESS]. rewrite call_works by done.
  pose proof (rp_cached _ _ _ H _ Hin) as [H0 Hp _]. rewrite Hst in Hp. injection Hp as Hp.
  assert (Hq' : queues mp').
  { apply (queues_ext mp); [done|done|done|]. intros bq Hbq. split; [|by apply Hb].
    apply lookup_lt_is_Some_2. rewrite Em. apply lookup_lt_is_Some_1. by apply (q_bkts _ Hq). }
  assert (Hlt : pgno (bkt mp bp) < npages mp').
  { rewrite En, (proj1 (rp_npages _ _ _ H)). apply lookup_lt_Some in Hst. unfold zlen. lia. }
  destruct (Hb bp) as [Hpg Hpage].
  pose proof (mpool_look_spec mp' (pgno (bkt mp bp)) Hq') as Hl.
  assert (Elk : mpool_look mp' (pgno (bkt mp bp)) = Some bp).
  { destruct (mpool_look mp' (pgno (bkt mp bp))) as [bq|].
    - destruct Hl as [Hbq Ebq]. f_equal. apply (q_unique _ Hq'); [done|by rewrite El|]. by rewrite Hpg.
    - exfalso. apply (Hl bp); [by rewrite El|done]. }
  eexists mp', s', _. split; [done|]. unfold mpool_get. rewrite (proj2 (Z.leb_gt _ _) Hlt), Elk.
  split; [done|]. rewrite bkt_put_eq.
  - cbn [page set_flags]. rewrite bkt_move, Hpage, decide_True by done. by rewrite Hp.
  - cbn. rewrite Em. apply lookup_lt_is_Some_1. by apply (q_bkts _ Hq).
Qed.

(** With filters that reverse the bytes, the page 1 2 3 4 comes back as 4 3 2 1. *)
Lemma mpool_sync_converts_witness :
  exists mp' s' mp'', mpool_sync (dirty_pool (Some (fun _ => @rev Z))) sys0 = (RET_SUCCESS, mp', s') /\
    mpool_get mp' s' 0 = (Some 0%nat, mp'', s') /\ page (bkt mp'' 0) = [4; 3; 2; 1].
Proof.
  assert (Hf : pool_format (empty_pool (Some (fun _ => @rev Z)))).
  { split; [done| |].
    - intros n p. cbn. unfold zlen. by rewrite length_rev.
    - intros n p _. apply rev_involutive. }
  destruct (dirty_pool_represents _ Hf) as (Hr & El & Eb).
  refine (mpool_sync_converts _ _ _ 0%nat 0 [1; 2; 3; 4] Hr eq_refl _ _ _ eq_refl).
  - rewrite El. apply list_elem_of_here.
  - by rewrite Eb.
  - by rewrite Eb.
Defined.

End Mpool.
