(* ===== verification/BtUtils.v ===== *)
(** The default order of the keys and their separators in a btree
    (db.1.85/bt_utils.c).  The order is the one of strings of bytes by which
    Samdb.v describes the records of a tree. *)

From S2P Require Import Prelude Samdb.

Module BtUtils.

(** ** Operations *)

(** The loop of [__bt_defcmp] over the bytes behind [p1] and [p2]: the difference
    of the first two that differ. *)
Fixpoint cmp_loop (len : nat) (p1 p2 : list Z) : option Z :=
  match len with
  | O => None
  | S len =>
      if rd p1 0 =? rd p2 0 then cmp_loop len (drop 1 p1) (drop 1 p2)
      else Some (rd p1 0 - rd p2 0)
  end.

Definition __bt_defcmp (a b : list Z) : Z :=
  match cmp_loop (length a `min` length b) a b with
  | Some r => r
  | None => s32 (s32 (zlen a) - s32 (zlen b))
  end.

Fixpoint pfx_loop (len : nat) (p1 p2 : list Z) (cnt : Z) : option Z :=
  match len with
  | O => None
  | S len =>
      if rd p1 0 =? rd p2 0 then pfx_loop len (drop 1 p1) (drop 1 p2) (cnt + 1)
      else Some cnt
  end.

Definition __bt_defpfx (a b : list Z) : Z :=
  match pfx_loop (length a `min` length b) a b 1 with
  | Some cnt => cnt
  | None => if zlen a <? zlen b then zlen a + 1 else zlen a
  end.

(** ** The first difference *)

(** Two keys: one a prefix of the other, or different at a byte. *)
Inductive relation : list Z -> list Z -> Prop :=
  | rel_prefix c a b : a = [] \/ b = [] -> relation (c ++ a) (c ++ b)
  | rel_differ c x y a b : x <> y -> relation (c ++ x :: a) (c ++ y :: b).

Lemma relation_total a b : relation a b.
Proof.
  revert b. induction a as [|x a IH]; intros b; [apply (rel_prefix []); by left|].
  destruct b as [|y b]; [apply (rel_prefix []); by right|].
  destruct (decide (x = y)) as [->|Hn]; [|by apply (rel_differ [])].
  destruct (IH b); [by apply (rel_prefix (y :: c))|by apply (rel_differ (y :: c))].
Qed.

Lemma bytes_lt_common c a b : Samdb.bytes_lt (c ++ a) (c ++ b) = Samdb.bytes_lt a b.
Proof. induction c as [|z c IH]; [done|]. cbn. by rewrite Z.ltb_irrefl, Z.eqb_refl. Qed.

Lemma bytes_lt_trans a b c :
  Samdb.bytes_lt a b = true -> Samdb.bytes_lt b c = true -> Samdb.bytes_lt a c = true.
Proof.
  revert b c. induction a as [|x a IH]; intros [|y b] [|z c]; try done. cbn.
  rewrite !orb_true_iff, !andb_true_iff, !Z.ltb_lt, !Z.eqb_eq.
  intros [?|[-> ?]] [?|[-> ?]]; [left; lia|by left|by left|right]. split; [done|]. by eapply IH.
Qed.

Lemma cmp_loop_common c a b k :
  cmp_loop (length c + k) (c ++ a) (c ++ b) = cmp_loop k a b.
Proof. induction c as [|z c IH]; [done|]. cbn. by rewrite Z.eqb_refl. Qed.

Lemma pfx_loop_common c a b k n :
  pfx_loop (length c + k) (c ++ a) (c ++ b) n = pfx_loop k a b (n + zlen c).
Proof.
  revert n. induction c as [|z c IH]; intros n; [by rewrite Z.add_0_r|].
  cbn. rewrite Z.eqb_refl, IH. f_equal. unfold zlen. cbn [length]. lia.
Qed.

(** The two functions on each relation. *)
Definition small (a : list Z) : Prop := zlen a < 2 ^ 31.

Lemma s32_size a b : small a -> small b -> s32 (s32 (zlen a) - s32 (zlen b)) = zlen a - zlen b.
Proof.
  unfold small, s32, zlen. intros Ha Hb.
  rewrite (Z.mod_small (Z.of_nat (length a) + _)), (Z.mod_small (Z.of_nat (length b) + _)) by lia.
  rewrite Z.mod_small; lia.
Qed.

Lemma defcmp_prefix c a b :
  small (c ++ a) -> small (c ++ b) -> a = [] \/ b = [] ->
  __bt_defcmp (c ++ a) (c ++ b) = zlen a - zlen b.
Proof.
  intros Ha Hb Hn. unfold __bt_defcmp. rewrite !length_app, Nat.add_min_distr_l, cmp_loop_common.
  assert (length a `min` length b = 0)%nat as -> by (destruct Hn as [-> | ->]; cbn; lia).
  cbn [cmp_loop]. rewrite s32_size by done. unfold zlen. rewrite !length_app. lia.
Qed.

Lemma defcmp_differ c x y a b : x <> y -> __bt_defcmp (c ++ x :: a) (c ++ y :: b) = x - y.
Proof.
  intros Hn. unfold __bt_defcmp. rewrite !length_app, Nat.add_min_distr_l, cmp_loop_common.
  cbn [length Nat.min cmp_loop]. change (rd (x :: a) 0) with x. change (rd (y :: b) 0) with y.
  by rewrite (proj2 (Z.eqb_neq _ _) Hn).
Qed.

Lemma defpfx_prefix c a b :
  a = [] \/ b = [] -> __bt_defpfx (c ++ a) (c ++ b) = zlen c + zlen a + (if zlen a <? zlen b then 1 else 0).
Proof.
  intros Hn. unfold __bt_defpfx. rewrite !length_app, Nat.add_min_distr_l, pfx_loop_common.
  assert (length a `min` length b = 0)%nat as -> by (destruct Hn as [-> | ->]; cbn; lia).
  cbn [pfx_loop]. unfold zlen. rewrite !length_app.
  destruct (Z.ltb_spec (Z.of_nat (length a)) (Z.of_nat (length b))),
    (Z.ltb_spec (Z.of_nat (length c + length a)) (Z.of_nat (length c + length b))); lia.
Qed.

Lemma defpfx_differ c x y a b : x <> y -> __bt_defpfx (c ++ x :: a) (c ++ y :: b) = zlen c + 1.
Proof.
  intros Hn. unfold __bt_defpfx. rewrite !length_app, Nat.add_min_distr_l, pfx_loop_common.
  cbn [length Nat.min pfx_loop]. change (rd (x :: a) 0) with x. change (rd (y :: b) 0) with y.
  rewrite (proj2 (Z.eqb_neq _ _) Hn). lia.
Qed.

Lemma defcmp_lt a b : small a -> small b -> __bt_defcmp a b < 0 <-> Samdb.bytes_lt a b = true.
Proof.
  intros Ha Hb. destruct (relation_total a b) as [c a b Hn|c x y a b Hn]; rewrite bytes_lt_common.
  - rewrite defcmp_prefix by done. unfold zlen. destruct Hn as [-> | ->]; [destruct b|destruct a]; cbn; lia || done.
  - rewrite defcmp_differ by done. cbn.
    rewrite (proj2 (Z.eqb_neq _ _) Hn), orb_false_r, Z.ltb_lt. lia.
Qed.

Lemma defcmp_eq a b : small a -> small b -> __bt_defcmp a b = 0 <-> a = b.
Proof.
  intros Ha Hb. destruct (relation_total a b) as [c a b Hn|c x y a b Hn].
  - rewrite defcmp_prefix by done. unfold zlen. split.
    + destruct Hn as [-> | ->]; [destruct b|destruct a]; cbn; intros E; lia || done.
    + intros ->%app_inv_head. lia.
  - rewrite defcmp_differ by done. split; [lia|]. intros [=]%app_inv_head. lia.
Qed.

Lemma defcmp_opp a b : small a -> small b -> __bt_defcmp b a = - __bt_defcmp a b.
Proof.
  intros Ha Hb. destruct (relation_total a b) as [c a b Hn|c x y a b Hn].
  - rewrite !defcmp_prefix by (done || tauto). lia.
  - rewrite !defcmp_differ by (done || congruence). lia.
Qed.

(** The separator: the first bytes of [b] that put it behind [a]. *)
Lemma defpfx_separates a b :
  Samdb.bytes_lt a b = true ->
  let n := __bt_defpfx a b in
  0 < n <= zlen b /\ Samdb.bytes_lt a (take (Z.to_nat n) b) = true /\
  Samdb.bytes_lt b (take (Z.to_nat n) b) = false /\
  (forall k, 0 <= k < n -> Samdb.bytes_lt a (take (Z.to_nat k) b) = false).
Proof.
  intros Hlt n. assert (Hpre : forall k, Samdb.bytes_lt b (take k b) = false).
  { clear. induction b as [|x b IH]; intros [|k]; [done..|]. cbn. by rewrite Z.ltb_irrefl, Z.eqb_refl, IH. }
  assert (Hc : forall (c r : list Z) k, (k <= length c)%nat -> Samdb.bytes_lt (c ++ r) (take k c) = false).
  { clear. intros c r. induction c as [|x c IH]; intros [|k] Hk; try done; [by destruct r|cbn in Hk; lia|].
    cbn in *. rewrite Z.ltb_irrefl, Z.eqb_refl. apply IH. lia. }
  assert (Hsh : forall c x r r', n = zlen c + 1 -> a = c ++ r -> b = c ++ x :: r' ->
    Samdb.bytes_lt r [x] = true -> 0 < n <= zlen b /\ Samdb.bytes_lt a (take (Z.to_nat n) b) = true /\
    Samdb.bytes_lt b (take (Z.to_nat n) b) = false /\
    (forall k, 0 <= k < n -> Samdb.bytes_lt a (take (Z.to_nat k) b) = false)).
  { clear Hlt. intros c x r r' En -> Eb Hr. unfold zlen in *. rewrite En.
    split; [rewrite Eb, length_app; cbn; lia|]. split; [|split; [done|]].
    - replace (Z.to_nat (Z.of_nat (length c) + 1)) with (length c + 1)%nat by lia.
      rewrite Eb, take_app_add. cbn. by rewrite bytes_lt_common.
    - intros k Hk. rewrite Eb, take_app_le by lia. apply Hc. lia. }
  subst n. destruct (relation_total a b) as [c a b Hn|c x y a b Hn]; rewrite bytes_lt_common in Hlt.
  - destruct Hn as [-> | ->]; [|by destruct a]. destruct b as [|y b]; [done|].
    apply (Hsh c y [] b); try done. rewrite defpfx_prefix by auto. unfold zlen. cbn [length].
    destruct (Z.ltb_spec (Z.of_nat 0) (Z.of_nat (S (length b)))); lia.
  - apply (Hsh c y (x :: a) b); [by apply defpfx_differ|done|done|]. cbn in *.
    rewrite (proj2 (Z.eqb_neq _ _) Hn), orb_false_r in *. done.
Qed.

(** ** Properties *)

(** C35: For keys below 2^31 bytes the default comparison is a total order of the
    keys, the one of strings of bytes by which the records of a database are
    described; the default prefix of two keys in order is the number of bytes of
    the second that are needed, and enough, to put them behind the first and not
    behind the second.  A key that is 2^31 bytes longer than its prefix comes
    before it: the sizes are compared as int. *)
Theorem bt_default_order (a b c : list Z) :
  small a -> small b -> small c ->
  (__bt_defcmp a b < 0 <-> Samdb.bytes_lt a b = true) /\
  (__bt_defcmp a b = 0 <-> a = b) /\
  __bt_defcmp b a = - __bt_defcmp a b /\
  (__bt_defcmp a b < 0 -> __bt_defcmp b c < 0 -> __bt_defcmp a c < 0) /\
  (__bt_defcmp a b < 0 ->
   let n := __bt_defpfx a b in
   0 < n <= zlen b /\ __bt_defcmp a (take (Z.to_nat n) b) < 0 /\
   0 <= __bt_defcmp b (take (Z.to_nat n) b) /\
   (forall k, 0 <= k < n -> 0 <= __bt_defcmp a (take (Z.to_nat k) b))) /\
  (forall d, zlen d = 2 ^ 31 -> __bt_defcmp (a ++ d) a = - 2 ^ 31).
Proof.
  intros Ha Hb Hc. split; [by apply defcmp_lt|]. split; [by apply defcmp_eq|]. split; [by apply defcmp_opp|].
  split; [|split].
  - rewrite !defcmp_lt by done. apply bytes_lt_trans.
  - assert (Ht : forall k, small (take k b)) by (intros k; unfold small, zlen in *; rewrite length_take; lia).
    assert (Hge : forall x y, small x -> small y -> 0 <= __bt_defcmp x y <-> Samdb.bytes_lt x y = false).
    { intros x y Hx Hy. rewrite <- not_true_iff_false, <- defcmp_lt by done. lia. }
    rewrite defcmp_lt by done. intros Hlt n.
    destruct (defpfx_separates a b Hlt) as (Hn & H1 & H2 & H3). fold n in Hn, H1, H2, H3.
    split; [done|]. split; [by apply defcmp_lt|]. split; [by apply Hge|].
    intros k Hk. apply Hge; [done|done|]. by apply H3.
  - intros d Hd. unfold __bt_defcmp. replace (length (a ++ d) `min` length a)%nat with (length a + 0)%nat
      by (rewrite length_app; lia).
    replace (cmp_loop _ _ a) with (@None Z) by (rewrite <- (app_nil_r a) at 3; by rewrite cmp_loop_common).
    unfold small, s32, zlen in *. rewrite length_app, Nat2Z.inj_add, Hd.
    set (n := Z.of_nat (length a)) in *. assert (0 <= n) by lia.
    rewrite (Z.mod_small (n + 2 ^ 31)) by lia.
    replace (n + 2 ^ 31 + 2 ^ 31) with (n + 1 * 2 ^ 32) by lia.
    rewrite Z.mod_add, (Z.mod_small n) by lia. rewrite Z.mod_small by lia. lia.
Qed.

Lemma bt_default_order_witness :
  __bt_defcmp [97; 98] [97; 99; 1] < 0 /\ __bt_defpfx [97; 98] [97; 99; 1] = 2.
Proof.
  split; [|done]. by apply (proj1 (bt_default_order [97; 98] [97; 99; 1] [] eq_refl eq_refl eq_refl)).
Defined.

End BtUtils.
