(* ===== verification/Readfile.v ===== *)
(** Reading lines (readfile.c, readcmd.c) and the command runner (do-system.c).
    A stream is the bytes still to be read and whether it ends in a read error;
    the callback has a state of its own.  The descriptors left open are counted. *)

From S2P Require Import Prelude Strings Args.
Import Strings.

Module Readfile.

Definition NL : Z := 10.
Definition EOF : Z := -1.
Definition EINTR : Z := 4.
Definition RF_IGNORE_EMPTY : Z := 1.
Definition RF_IGNORE_COMMENTS : Z := 2.

(** ** getline *)

(** The next line, with its newline if it has one, and what follows it. *)
Fixpoint split_line (bytes : list Z) : list Z * list Z :=
  match bytes with
  | [] => ([], [])
  | c :: bytes =>
      if c =? NL then ([c], bytes)
      else let '(line, rest) := split_line bytes in (c :: line, rest)
  end.

(** The [getline] of the C library on the bytes of a stream: [None] is EOF. *)
Definition getline (bytes : list Z) : option (list Z * list Z) :=
  match bytes with [] => None | _ => Some (split_line bytes) end.

(** The one of the Windows build.  The state is the buffer [*line] and its size
    [*n]; a [realloc] that fails is [None].  The result, the buffer, the size and
    the bytes left. *)
Definition GETLINE_INCREMENT : Z := 128.

Section win32.
Context (realloc : list Z -> Z -> option (list Z)).

(** The test for room at the top of the loop: the buffer and the size. *)
Definition grow (line : list Z) (n i : Z) : option (list Z * Z) :=
  if n - 1 <=? i then
    line ← realloc line (n + GETLINE_INCREMENT); Some (line, n + GETLINE_INCREMENT)
  else Some (line, n).

Fixpoint getline_loop (line : list Z) (n i : Z) (bytes : list Z)
    : outcome (Z * list Z * Z * list Z) :=
  match grow line n i with
  | None => Ret (EOF, line, n, bytes)
  | Some (line, n) =>
      match bytes with
      | [] =>
          if i =? 0 then Ret (EOF, line, n, [])
          else line ← checked (mwr line i 0); Ret (i, line, n, [])
      | ch :: bytes =>
          line ← checked (mwr line i ch);
          let i := i + 1 in
          if ch =? NL then line ← checked (mwr line i 0); Ret (1, line, n, bytes)
          else getline_loop line n i bytes
      end
  end.

Definition win_getline (line : list Z) (n : Z) (bytes : list Z) : outcome (Z * list Z * Z * list Z) :=
  getline_loop line n 0 bytes.
End win32.

(** ** readfile.c *)

(** The C string at the start of the buffer. *)
Fixpoint c_str (line : list Z) : list Z :=
  match line with [] => [] | c :: line => if c =? 0 then [] else c :: c_str line end.

(** [strrchr]: the part of a string before the last [c]. *)
Fixpoint strrchr (s : list Z) (c : Z) : option (list Z) :=
  match s with
  | [] => None
  | x :: s =>
      match strrchr s c with
      | Some pre => Some (x :: pre)
      | None => if x =? c then Some [] else None
      end
  end.

(** [if ((p = strrchr(line, NL))) *p = 0;], then seen as a string. *)
Definition chop (line : list Z) : list Z :=
  let s := c_str line in match strrchr s NL with Some pre => pre | None => s end.

(** The lines that the flags leave out. *)
Definition ignored (flags : Z) (line : list Z) : bool :=
  (negb (flags .& RF_IGNORE_EMPTY =? 0) && forallb Args.isspace line)
  || (negb (flags .& RF_IGNORE_COMMENTS =? 0) && (rd line 0 =? 35)).

(** The loop, with the lines left out by [skip]: whether it was stopped, the
    state of the callback, and whether the end of the file was reached.  [fuel] is
    more than the number of bytes. *)
Fixpoint line_loop {A} (skip : list Z -> bool) (line_func : A -> list Z -> Z * A) (fuel : nat)
    (bytes : list Z) (a : A) : bool * A :=
  match fuel with
  | O => (false, a)
  | S fuel =>
      match getline bytes with
      | None => (false, a)
      | Some (line, bytes) =>
          let line := chop line in
          if skip line then line_loop skip line_func fuel bytes a
          else
            let '(rc, a) := line_func a line in
            if negb (rc =? 0) then (true, a) else line_loop skip line_func fuel bytes a
      end
  end.

(** [opened] is the stream of the file or of stdin: its bytes, and whether they
    end in an error; [None] when it cannot be opened.  [path] says that it is a
    file.  The result, the state of the callback, the [errno] set, and the files
    left open. *)
Definition readfile {A} (line_func : option (A -> list Z -> Z * A)) (a : A)
    (opened : option (list Z * bool)) (path : bool) (fclose_fails : bool) (flags : Z)
    : Z * A * option Z * Z :=
  match opened with
  | None => (-1, a, None, 0)
  | Some (bytes, error) =>
      let fds := if path then 1 else 0 in
      match line_func with
      | None => (-1, a, Some EINVAL, fds)
      | Some line_func =>
          let '(stopped, a) := line_loop (ignored flags) line_func (S (length bytes)) bytes a in
          let rc := if stopped then 1 else if error then -1 else 0 in
          let fds := if path then fds - 1 else fds in
          (if path && fclose_fails then -1 else rc, a, None, fds)
      end
  end.

(** ** readcmd.c and do-system.c *)

Definition CMD_SIZE : Z := 1024.

(** [vsnprintf(cmd, sizeof(cmd), fmt, ap)] for the complete text. *)
Definition cmd_text (text : list Z) : list Z := take (Z.to_nat (CMD_SIZE - 1)) text.

Definition WIFEXITED (status : Z) : bool := status .& 0x7f =? 0.
Definition WEXITSTATUS (status : Z) : Z := (status .& 0xff00) .>> 8.

(** [popen] gives the output of the command, if it can be run, and [pclose] its
    status. *)
Definition readcmd {A} (popen : list Z -> option (list Z)) (pclose : list Z -> Z)
    (line_func : option (A -> list Z -> Z * A)) (a : A) (text : list Z) : Z * A * option Z :=
  match line_func with
  | None => (-1, a, Some EINVAL)
  | Some line_func =>
      let cmd := cmd_text text in
      match popen cmd with
      | None => (-1, a, None)
      | Some bytes =>
          let '(stopped, a) := line_loop (fun _ => false) line_func (S (length bytes)) bytes a in
          let status := pclose cmd in
          if negb stopped then
            (if WIFEXITED status then WEXITSTATUS status else status, a, None)
          else (-1, a, Some EINTR)
      end
  end.

(** [n] is the result of [vsnprintf], negative on an error. *)
Definition do_system (system : list Z -> Z) (text : list Z) (n : Z) : Z :=
  if CMD_SIZE <=? u64 n then - EINVAL
  else
    let rc := system (cmd_text text) in
    if WIFEXITED rc then WEXITSTATUS rc else rc.

(** ** The lines of a stream *)

Fixpoint lines_of (fuel : nat) (bytes : list Z) : list (list Z) :=
  match fuel with
  | O => []
  | S fuel =>
      match getline bytes with None => [] | Some (line, bytes) => line :: lines_of fuel bytes end
  end.
Definition lines (bytes : list Z) : list (list Z) := lines_of (length bytes) bytes.

(** The callback over lines, until it gives something else than 0. *)
Fixpoint until_stopped {A} (line_func : A -> list Z -> Z * A) (l : list (list Z)) (a : A) : bool * A :=
  match l with
  | [] => (false, a)
  | line :: l =>
      let '(rc, a) := line_func a line in
      if rc =? 0 then until_stopped line_func l a else (true, a)
  end.

Lemma split_line_app bytes : let '(line, rest) := split_line bytes in bytes = line ++ rest.
Proof.
  induction bytes as [|c bytes IH]; cbn; [done|]. destruct (c =? NL); [done|].
  destruct (split_line bytes) as [line rest]. cbn. by rewrite IH at 1.
Qed.

Lemma getline_shorter bytes line rest :
  getline bytes = Some (line, rest) -> (length rest < length bytes)%nat.
Proof.
  destruct bytes as [|c bytes]; [done|]. intros [= E]. pose proof (split_line_app (c :: bytes)) as H.
  cbn [split_line] in H. rewrite E in H. rewrite H, length_app.
  destruct line; [|cbn; lia]. cbn in E. destruct (c =? NL); [done|].
  by destruct (split_line bytes).
Qed.

Lemma lines_of_more m n bytes :
  (length bytes <= m)%nat -> (m <= n)%nat -> lines_of m bytes = lines_of n bytes.
Proof.
  revert n bytes. induction m as [|m IH]; intros n bytes Hb Hn.
  - destruct bytes; [|cbn in Hb; lia]. by destruct n.
  - destruct n as [|n]; [lia|]. cbn [lines_of].
    destruct (getline bytes) as [[line rest]|] eqn:E; [|done].
    apply getline_shorter in E. f_equal. apply IH; lia.
Qed.

Lemma lines_cons bytes line rest :
  getline bytes = Some (line, rest) -> lines bytes = line :: lines rest.
Proof.
  intros E. pose proof (getline_shorter _ _ _ E). unfold lines.
  destruct (length bytes) as [|n] eqn:El; [lia|]. cbn [lines_of]. rewrite E. f_equal.
  symmetry. apply lines_of_more; lia.
Qed.

(** The loop calls the function for the lines, cut and filtered. *)
Lemma line_loop_spec {A} skip (line_func : A -> list Z -> Z * A) fuel bytes a :
  (length bytes < fuel)%nat ->
  line_loop skip line_func fuel bytes a
  = until_stopped line_func (List.filter (fun l => negb (skip l)) (map chop (lines bytes))) a.
Proof.
  revert bytes a. induction fuel as [|fuel IH]; intros bytes a Hf; [lia|].
  cbn [line_loop]. destruct (getline bytes) as [[line rest]|] eqn:E.
  - pose proof (getline_shorter _ _ _ E). rewrite (lines_cons _ _ _ E). cbn [map List.filter].
    destruct (skip (chop line)); cbn [negb]; [apply IH; lia|]. cbn [until_stopped].
    destruct (line_func a (chop line)) as [rc a']. destruct (rc =? 0); cbn [negb]; [apply IH; lia|done].
  - by destruct bytes.
Qed.

(** A text: lines without newlines or NULs, each ended by a newline. *)
Definition text_of (ls : list (list Z)) : list Z := concat (map (fun l => l ++ [NL]) ls).
Definition plain (l : list Z) : Prop := Forall (fun c => c <> 0 /\ c <> NL) l.

Lemma split_line_plain l rest : plain l -> split_line (l ++ NL :: rest) = (l ++ [NL], rest).
Proof.
  induction 1 as [|c l [_ Hc] Hl IH]; cbn; [done|].
  rewrite (proj2 (Z.eqb_neq _ _) Hc). by rewrite IH.
Qed.

Lemma split_line_last l : plain l -> split_line l = (l, []).
Proof.
  induction 1 as [|c l [_ Hc] Hl IH]; cbn; [done|].
  rewrite (proj2 (Z.eqb_neq _ _) Hc). by rewrite IH.
Qed.

Lemma c_str_plain l s : plain l -> c_str (l ++ s) = l ++ c_str s.
Proof.
  induction 1 as [|c l [Hc _] Hl IH]; cbn; [done|].
  rewrite (proj2 (Z.eqb_neq _ _) Hc). by rewrite IH.
Qed.

Lemma strrchr_plain l : plain l -> strrchr l NL = None.
Proof.
  induction 1 as [|c l [_ Hc] Hl IH]; cbn; [done|]. rewrite IH.
  by rewrite (proj2 (Z.eqb_neq _ _) Hc).
Qed.

Lemma strrchr_last l c s : strrchr s c = None -> strrchr (l ++ c :: s) c = Some l.
Proof.
  intros Hs. induction l as [|x l IH]; cbn.
  - rewrite Hs. by rewrite Z.eqb_refl.
  - by rewrite IH.
Qed.

Lemma chop_plain l : plain l -> chop (l ++ [NL]) = l.
Proof.
  intros Hl. unfold chop. rewrite c_str_plain by done.
  change (c_str [NL]) with [NL]. by rewrite strrchr_last.
Qed.

Lemma chop_last l : plain l -> chop l = l.
Proof.
  intros Hl. assert (E : c_str l = l).
  { pose proof (c_str_plain l [] Hl) as E. by rewrite !app_nil_r in E. }
  unfold chop. by rewrite E, strrchr_plain.
Qed.

Lemma lines_text ls last :
  Forall plain ls -> plain last ->
  map chop (lines (text_of ls ++ last)) = ls ++ (if decide (last = []) then [] else [last]).
Proof.
  intros Hls Hlast. induction Hls as [|l ls Hl Hls IH]; cbn [text_of map concat app].
  - destruct (decide (last = [])) as [->|Hne]; [done|].
    assert (E : getline last = Some (last, [])).
    { unfold getline. rewrite split_line_last by done. by destruct last. }
    rewrite (lines_cons _ _ _ E). cbn. by rewrite chop_last.
  - rewrite <- !app_assoc. cbn [app]. fold (text_of ls).
    assert (E : getline (l ++ NL :: text_of ls ++ last) = Some (l ++ [NL], text_of ls ++ last)).
    { unfold getline. rewrite split_line_plain by done. by destruct l. }
    rewrite (lines_cons _ _ _ E). cbn [map app]. by rewrite chop_plain, IH.
Qed.

Lemma filter_all {A} (l : list A) : List.filter (fun _ => negb false) l = l.
Proof. induction l as [|x l IH]; cbn; [done|]. f_equal. exact IH. Qed.

(** C32: readfile calls its function for exactly the lines of the text, without
    their newlines, that its flags do not leave out, in order, until the function
    gives something else than 0; a last line without a newline counts.  The result
    is 1 when it was stopped, else -1 after a read error and 0 at the end of the
    file; -1 also when the file cannot be opened or closed; and no file stays
    open, except when the function is NULL: then the file just opened does.
    readcmd calls its function for the lines of the output, and its result is the
    exit status, or -1 with EINTR when it was stopped (the end of its comment
    says so; the start promises 1, like readfile). *)
Theorem readfile_correct {A} (line_func : A -> list Z -> Z * A) (a : A) (ls : list (list Z))
    (last : list Z) (error path fclose_fails : bool) (flags : Z)
    (popen : list Z -> option (list Z)) (pclose : list Z -> Z) (cmd : list Z) :
  Forall plain ls -> plain last -> zlen cmd < CMD_SIZE ->
  let text := text_of ls ++ last in
  let all := ls ++ (if decide (last = []) then [] else [last]) in
  let wanted := List.filter (fun l => negb (ignored flags l)) all in
  let '(stopped, a1) := until_stopped line_func wanted a in
  readfile (Some line_func) a (Some (text, error)) path fclose_fails flags =
    ((if path && fclose_fails then -1 else if stopped then 1 else if error then -1 else 0),
     a1, None, 0) /\
  readfile (Some line_func) a None path fclose_fails flags = (-1, a, None, 0) /\
  readfile (@None (A -> list Z -> Z * A)) a (Some (text, error)) true fclose_fails flags
    = (-1, a, Some EINVAL, 1) /\
  (popen cmd = Some text ->
   let '(stopped, a2) := until_stopped line_func all a in
   readcmd popen pclose (Some line_func) a cmd =
     if stopped then (-1, a2, Some EINTR)
     else ((if WIFEXITED (pclose cmd) then WEXITSTATUS (pclose cmd) else pclose cmd), a2, None)).
Proof.
  intros Hls Hlast Hcmd text all wanted.
  assert (Hw : forall skip, line_loop skip line_func (S (length text)) text a
    = until_stopped line_func (List.filter (fun l => negb (skip l)) all) a).
  { intros skip. rewrite line_loop_spec by lia. unfold text, all. by rewrite lines_text. }
  destruct (until_stopped line_func wanted a) as [stopped a1] eqn:E1.
  split; [|split; [done|split; [done|]]].
  - unfold readfile. rewrite Hw. fold wanted. rewrite E1. by destruct path.
  - intros Hp. unfold readcmd, cmd_text. rewrite take_ge by (unfold zlen, CMD_SIZE in *; lia).
    rewrite Hp, Hw.
    replace (List.filter (fun l => negb false) all) with all.
    2:{ symmetry. apply filter_all. }
    destruct (until_stopped line_func all a) as [s2 a2]. by destruct s2.
Qed.

Lemma readfile_correct_witness :
  readfile (Some (fun (a : list (list Z)) l => (if decide (l = [120]) then 1 else 0, a ++ [l]))) []
    (Some ([97; 10; 10; 35; 98; 10; 32; 99; 10; 120; 10; 121], false)) true false 3
  = (1, [[97]; [32; 99]; [120]], None, 0).
Proof.
  pose proof (readfile_correct
    (fun (a : list (list Z)) l => (if decide (l = [120]) then 1 else 0, a ++ [l])) []
    [[97]; []; [35; 98]; [32; 99]; [120]] [121] false true false 3
    (fun _ => None) (fun _ => 0) []) as H.
  specialize (H ltac:(repeat constructor; done) ltac:(repeat constructor; done) ltac:(done)).
  exact (proj1 H).
Defined.

(** ** The getline of the Windows build *)

(** [realloc] keeps what the buffer holds and gives the size asked for. *)
Definition good_realloc (realloc : list Z -> Z -> option (list Z)) : Prop :=
  forall line n, zlen line <= n -> exists junk, realloc line n = Some (line ++ junk) /\
    zlen (line ++ junk) = n.

Lemma grow_spec realloc line n i :
  good_realloc realloc -> zlen line = n -> 0 <= i <= n ->
  exists junk, grow realloc line n i = Some (line ++ junk, zlen (line ++ junk)) /\
    i + 1 < zlen (line ++ junk).
Proof.
  intros Hr Hl Hi. unfold grow. destruct (Z.leb_spec (n - 1) i).
  - destruct (Hr line (n + GETLINE_INCREMENT)) as (junk & -> & Hj); [unfold GETLINE_INCREMENT; lia|].
    exists junk. cbn. rewrite Hj. split; [done|unfold GETLINE_INCREMENT; lia].
  - exists []. rewrite app_nil_r, Hl. split; [done|lia].
Qed.

(** One write after what is there. *)
Lemma mwr_take line pre c :
  take (length pre) line = pre -> zlen pre < zlen line ->
  mwr line (zlen pre) c = Some (splice line (zlen pre) [c]) /\
  take (length (pre ++ [c])) (splice line (zlen pre) [c]) = pre ++ [c] /\
  zlen (splice line (zlen pre) [c]) = zlen line.
Proof.
  intros Hp Hl. assert (0 <= zlen pre) by (unfold zlen; lia).
  split; [apply mwr_some; lia|]. split.
  - rewrite take_splice; [|lia|rewrite length_app; unfold zlen; cbn; lia].
    unfold zlen. by rewrite Nat2Z.id, Hp.
  - apply zlen_splice; [done|]. change (zlen [c]) with 1. lia.
Qed.

Lemma getline_loop_spec realloc bytes pre line :
  good_realloc realloc -> take (length pre) line = pre -> zlen pre <= zlen line ->
  Forall (fun c => c <> NL) pre -> (pre = [] -> bytes <> []) ->
  let '(l, rest) := split_line bytes in
  exists line', getline_loop realloc line (zlen line) (zlen pre) bytes
    = Ret ((if decide (List.last (pre ++ l) 0 = NL) then 1 else zlen (pre ++ l)), line', zlen line', rest) /\
    take (length (pre ++ l ++ [0])) line' = pre ++ l ++ [0].
Proof.
  intros Hr. revert pre line. induction bytes as [|ch bytes IH]; intros pre line Hp Hl Hnl Hne;
    cbn [getline_loop split_line];
    assert (H0 : 0 <= zlen pre) by (unfold zlen; lia);
    destruct (grow_spec realloc line (zlen line) (zlen pre) Hr eq_refl ltac:(lia)) as (junk & -> & Hj);
    set (line1 := line ++ junk) in *;
    assert (Hp1 : take (length pre) line1 = pre)
      by (unfold line1; rewrite take_app_le; [done|unfold zlen in *; lia]);
    clearbody line1.
  - destruct (Z.eqb_spec (zlen pre) 0) as [E|_].
    { exfalso. apply Hne; [|done]. by destruct pre. }
    destruct (mwr_take line1 pre 0) as (E & Ht & Hz); [done|lia|].
    rewrite E. cbn. rewrite app_nil_r. exists (splice line1 (zlen pre) [0]).
    rewrite Hz. split; [|done]. rewrite decide_False; [done|].
    intros El. destruct pre as [|c pre] using rev_ind; [by apply Hne|].
    rewrite last_last in El. apply Forall_app in Hnl as [_ Hnl]. by inversion Hnl.
  - destruct (mwr_take line1 pre ch) as (E & Ht & Hz); [done|lia|].
    rewrite E. cbn [checked mbind outcome_bind]. set (line2 := splice line1 (zlen pre) [ch]) in *.
    assert (Hz' : zlen (pre ++ [ch]) = zlen pre + 1) by (unfold zlen; rewrite length_app; cbn; lia).
    rewrite <- Hz'. destruct (Z.eqb_spec ch NL) as [->|Hch].
    + destruct (mwr_take line2 (pre ++ [NL]) 0) as (E2 & Ht2 & Hz2); [done|lia|].
      rewrite E2. cbn [checked mbind outcome_bind]. exists (splice line2 (zlen (pre ++ [NL])) [0]).
      rewrite Hz2, Hz, last_last, decide_True by done. split; [done|].
      by rewrite (app_assoc pre).
    + specialize (IH (pre ++ [ch]) line2 Ht ltac:(lia)).
      destruct (split_line bytes) as [l rest]. rewrite <- Hz.
      destruct IH as (line' & E' & Ht').
      { apply Forall_app. split; [done|]. by constructor. }
      { by destruct pre. }
      exists line'. rewrite E'. rewrite <- !(app_assoc pre [ch]) in *. done.
Qed.

(** The getline of the Windows build reads the line that getline reads,
    terminated, whatever the size of the buffer it starts with, writes only inside
    the buffer, and keeps the size of the buffer true; EOF is for the end of the
    file only.  It gives 1 for a line with its newline, not the length. *)
Theorem win_getline_correct realloc (line bytes : list Z) :
  good_realloc realloc ->
  match getline bytes with
  | Some (l, rest) =>
      exists line', win_getline realloc line (zlen line) bytes
        = Ret ((if decide (List.last l 0 = NL) then 1 else zlen l), line', zlen line', rest) /\
        take (length (l ++ [0])) line' = l ++ [0]
  | None => exists line', win_getline realloc line (zlen line) bytes = Ret (EOF, line', zlen line', [])
  end.
Proof.
  intros Hr. unfold win_getline. destruct bytes as [|c bytes]; cbn [getline].
  - destruct (grow_spec realloc line (zlen line) 0 Hr eq_refl) as (junk & E & _);
      [unfold zlen; lia|]. cbn [getline_loop]. rewrite E. by exists (line ++ junk).
  - pose proof (getline_loop_spec realloc (c :: bytes) [] line Hr) as H. cbn [app] in H.
    destruct (split_line (c :: bytes)) as [l rest].
    apply H; [done|unfold zlen; cbn; lia|done|done].
Qed.

Definition grow_realloc (line : list Z) (n : Z) : option (list Z) :=
  Some (line ++ replicate (Z.to_nat n - length line) 255).

Lemma win_getline_correct_witness :
  exists line', win_getline grow_realloc [] 0 [104; 105; 10; 97] = Ret (1, line', zlen line', [97]) /\
    take 4 line' = [104; 105; 10; 0].
Proof.
  refine (win_getline_correct grow_realloc [] [104; 105; 10; 97] _).
  intros line n Hn. exists (replicate (Z.to_nat n - length line) 255). split; [reflexivity|].
  unfold zlen in *. rewrite length_app, length_replicate. lia.
Defined.

End Readfile.
