(* ===== verification/Files.v ===== *)
(** Files and directories (mkdir-p.c, file.c, copy.c, is-elf.c) and the
    allocations that must not fail (must.c).  The calls of the system are
    parameters: functions of their arguments, or of a file system state. *)

From S2P Require Import Prelude Strings.
Import Strings.

Module Files.

(** ** must.c *)

(** The result of a function is the pointer and the calls of [must_helper]; 0 is
    NULL.  [helper] says whether the helper is set. *)
Definition MAP_FAILED : Z := 2 ^ 64 - 1.
Definition PROT_READ : Z := 1.
Definition PROT_WRITE : Z := 2.
Definition MAP_SHARED : Z := 1.
Definition MAP_PRIVATE : Z := 2.
Definition MAP_ANONYMOUS : Z := 0x20.

(** What could not be done. *)
Inductive what := w_strdup | w_malloc | w_calloc | w_realloc | w_mmap | w_mmap_file.

Definition must_fail (helper : bool) (w : what) (size : Z) : outcome (list (what * Z)) :=
  if helper then Ret [(w, size)] else Exit 1.

(** [if (failed) must_fail(w, size); return mem;] *)
Definition unless (failed : bool) (helper : bool) (w : what) (size mem : Z)
    : outcome (Z * list (what * Z)) :=
  if failed then calls ← must_fail helper w (s32 size); Ret (mem, calls) else Ret (mem, []).

Definition must_strdup (helper : bool) (strdup : list Z -> Z) (s : list Z) :=
  let dup := strdup s in unless (dup =? 0) helper w_strdup (zlen s) dup.
Definition must_alloc (helper : bool) (malloc : Z -> Z) (size : Z) :=
  let mem := malloc size in unless (mem =? 0) helper w_malloc size mem.
Definition must_calloc (helper : bool) (calloc : Z -> Z -> Z) (nmemb size : Z) :=
  let mem := calloc nmemb size in unless (mem =? 0) helper w_calloc (size * nmemb) mem.
Definition must_realloc (helper : bool) (realloc : Z -> Z -> Z) (ptr size : Z) :=
  let mem := realloc ptr size in unless (mem =? 0) helper w_realloc size mem.

(** [mmap size prot flags fd], for an address and an offset of 0. *)
Definition must_mmap (helper : bool) (mmap : Z -> Z -> Z -> Z -> Z) (size prot flags : Z) :=
  let prot := if prot =? 0 then PROT_READ .| PROT_WRITE else prot in
  let flags := if flags =? 0 then MAP_PRIVATE .| MAP_ANONYMOUS else flags in
  let mem := mmap size prot flags (-1) in
  unless (mem =? 0) helper w_mmap size mem.
Definition must_mmap_file (helper : bool) (mmap : Z -> Z -> Z -> Z -> Z) (size prot flags fd : Z) :=
  let prot := if prot =? 0 then PROT_READ else prot in
  let flags := if flags =? 0 then MAP_SHARED else flags in
  let mem := mmap size prot flags fd in
  unless (mem =? MAP_FAILED) helper w_mmap_file size mem.

(** ** mkdir-p.c *)

Section mkdir.
Context {S : Type} (mkdir : S -> list Z -> Z * S).

(** What [dirtmp] is in turn: the part of [dir] before each slash that is still to
    come, [pre] being what is before them. *)
Fixpoint slash_prefixes (pre rest : list Z) : list (list Z) :=
  match rest with
  | [] => []
  | c :: rest =>
      if c =? 47 then pre :: slash_prefixes (pre ++ [c]) rest else slash_prefixes (pre ++ [c]) rest
  end.

(** The loop and the last [mkdir]; [mkdir] gives the errno, or 0. *)
Fixpoint mkdir_loop (st : S) (dirs : list (list Z)) (dir : list Z) : Z * S :=
  match dirs with
  | [] =>
      let '(e, st) := mkdir st dir in
      (if (e =? 0) || (e =? EEXIST) then 0 else -1, st)
  | dirtmp :: dirs =>
      let '(e, st) := mkdir st dirtmp in
      if negb (e =? 0) && negb (e =? EEXIST) then (-1, st) else mkdir_loop st dirs dir
  end.

(** [dup] is what [must_strdup(dir)] does. *)
Definition mkdir_p (dup : outcome (Z * list (what * Z))) (st : S) (dir : list Z) : outcome (Z * S) :=
  let '(e, st) := mkdir st dir in
  if (e =? 0) || (e =? EEXIST) then Ret (0, st)
  else if negb (e =? ENOENT) then Ret (-1, st)
  else
    '(dirtmp, _) ← dup;
    if dirtmp =? 0 then Fault
    else
      Ret (match dir with
           | 47 :: rest => mkdir_loop st (slash_prefixes [47] rest) dir
           | _ => mkdir_loop st (slash_prefixes [] dir) dir
           end).
End mkdir.

(** ** file.c *)

(** The three calls give their errno, or 0 ([creat] also a descriptor).  The
    result, and the descriptors left open. *)
Definition create_file (exists_ : bool) (creat : Z -> Z) (ftruncate : Z -> Z) (length mode : Z) : Z * Z :=
  if exists_ then (EEXIST, 0)
  else
    let mode := if mode =? 0 then 0x1a4 else mode in
    let e := creat mode in
    if negb (e =? 0) then (e, 0)
    else
      let fds := 1 in
      let e := ftruncate length in
      if negb (e =? 0) then (e, fds - 1) else (0, fds - 1).

Definition tmp_dir : list Z := [47; 116; 109; 112].
Definition tmp_template : list Z := [47; 116; 109; 112; 46; 88; 88; 88; 88; 88; 88].

(** [m] is the memory at [fname]; the result and the memory. *)
Definition mktempfile (getenv : option (list Z)) (mkstemp : list Z -> Z) (m : list Z) (len : Z)
    : option (Z * list Z) :=
  if len <? 16 then Some (- EINVAL, m)
  else
    let envtmp :=
      match getenv with
      | None => tmp_dir
      | Some envtmp => if u64 (len - 12) <=? zlen envtmp then tmp_dir else envtmp
      end in
    '(m, _) ← strconcat m 0 len [envtmp; tmp_template];
    n ← strlen m 0;
    Some (mkstemp (take (Z.to_nat n) m), m).

Fixpoint skip_slashes (s : list Z) : list Z :=
  match s with c :: t => if c =? 47 then skip_slashes t else s | [] => [] end.

(** [after] is the memory behind the string TMPDIR (or behind the constant, which
    cannot be written).  The name, unless the allocation fails, and the memory
    of [tmp]. *)
Definition tmpfilename (getenv : option (list Z)) (after : list Z) (malloc : Z -> bool)
    (fname : option (list Z)) : outcome (option (list Z) * list Z) :=
  let '(tmp, writable) :=
    match getenv with Some (c :: t) => (c :: t, true) | _ => (tmp_dir, false) end in
  let mem := tmp ++ [0] ++ after in
  let len := zlen tmp in
  let n := len + 2 in
  let n := match fname with Some fname => n + zlen fname | None => n end in
  if negb (malloc n) then Ret (None, mem)
  else
    let out := tmp in
    if zlen mem <=? n - 1 then Fault
    else
      mem ← (if rd mem (n - 1) =? 47 then if writable then Ret (wr mem (n - 1) 0) else Fault
             else Ret mem);
      match fname with
      | None => Ret (Some out, mem)
      | Some fname => Ret (Some (out ++ [47] ++ skip_slashes fname), mem)
      end.

(** ** copy.c *)

(** A file opened for reading, if it can be: its mode and size, if [fstat] gives
    them. *)
Definition from_file : Type := option (option (Z * Z)).

(** The copy itself: the bytes copied, or less than 0. *)
Definition copy_with (copy : Z -> Z) (from : from_file) (open_to : Z -> bool) : Z * Z :=
  match from with
  | None => (-2, 0)
  | Some sbuf =>
      let fds := 1 in
      match sbuf with
      | None => (-2, fds - 1)
      | Some (st_mode, st_size) =>
          if negb (open_to st_mode) then (-3, fds - 1)
          else
            let fds := fds + 1 in
            let n := copy st_size in
            let fds := fds - 1 in
            let fds := fds - 1 in
            (n, fds)
      end
  end.

(** With [sendfile]. *)
Definition copy_file (sendfile : Z -> Z) (from : from_file) (open_to : Z -> bool) : Z * Z :=
  copy_with sendfile from open_to.

(** The results of successive reads, and the loop of the other systems: what it
    returns and what it wrote.  [write] gives the number of bytes written. *)
Inductive read_result : Type := Data (chunk : list Z) | Eof | ReadError.

Fixpoint copy_loop (write : list Z -> Z) (reads : list read_result) (n : Z) (out : list Z) : Z * list Z :=
  match reads with
  | Data buf :: reads =>
      let r := zlen buf in
      if 0 <? r then
        let wrote := write buf in
        let out := out ++ take (Z.to_nat wrote) buf in
        if wrote =? r then copy_loop write reads (n + r) out else (-1, out)
      else (n, out)
  | Eof :: _ | ReadError :: _ | [] => (n, out)
  end.

Definition copy_file_loop (write : list Z -> Z) (reads : list read_result) (from : from_file)
    (open_to : Z -> bool) : Z * Z :=
  copy_with (fun _ => fst (copy_loop write reads 0 [])) from open_to.

(** ** is-elf.c *)

Definition elf_hdr : list Z := [0x7f; 0x45; 0x4c; 0x46].

(** [read] is the result of the read of four bytes: [None] for an error.  The
    result, the errno set, and the descriptors left open. *)
Definition is_elf (opened : option (option (list Z))) : Z * option Z * Z :=
  match opened with
  | None => (-1, None, 0)
  | Some read =>
      let fds := 1 in
      let fds := fds - 1 in
      match read with
      | None => (-1, None, fds)
      | Some buff =>
          if zlen buff =? zlen elf_hdr then ((if decide (buff = elf_hdr) then 0 else 1), None, fds)
          else (-1, Some EINVAL, fds)
      end
  end.

(** ** The paths *)

(** The components of a path. *)
Fixpoint split (s : list Z) : list (list Z) :=
  match s with
  | [] => [[]]
  | c :: s =>
      if c =? 47 then [] :: split s
      else match split s with w :: ws => (c :: w) :: ws | [] => [[c]] end
  end.
Definition comps (s : list Z) : list (list Z) :=
  List.filter (fun w => negb (bool_decide (w = []))) (split s).
Definition is_abs (s : list Z) : bool := match s with 47 :: _ => true | _ => false end.

(** A directory of the file system: whether its path starts at the root, and the
    components. *)
Definition dirname : Type := bool * list (list Z).
Definition parse (s : list Z) : dirname := (is_abs s, comps s).

(** [mkdir] of a process that may create what it asks for: EEXIST for a
    directory that is there, ENOENT when its parent is not, and success otherwise. *)
Class Mkdir {S} (mkdir : S -> list Z -> Z * S) (isdir : S -> dirname -> Prop) : Prop := {
  mkdir_doc st s : s <> [] -> let '(e, st') := mkdir st s in
    (e = EEXIST /\ isdir st (parse s) /\ st' = st) \/
    (e = ENOENT /\ ~ isdir st (is_abs s, removelast (comps s)) /\ ~ isdir st (parse s) /\ st' = st) \/
    (e = 0 /\ isdir st (is_abs s, removelast (comps s)) /\
       forall d, isdir st' d <-> isdir st d \/ d = parse s);
  mkdir_parent st b cs w : isdir st (b, cs ++ [w]) -> isdir st (b, cs);
  mkdir_root st b : isdir st (b, []);
}.

Lemma split_cons a : exists w ws, split a = w :: ws.
Proof.
  destruct a as [|c a]; cbn; [by eauto|]. destruct (c =? 47); [by eauto|].
  destruct (split a); by eauto.
Qed.

Lemma split_slash a b : split (a ++ 47 :: b) = split a ++ split b.
Proof.
  induction a as [|c a IH]; cbn; [done|]. destruct (c =? 47); [by rewrite IH|].
  destruct (split_cons a) as (w & ws & E). rewrite IH, E. done.
Qed.

Lemma split_word w : Forall (fun c => c <> 47) w -> split w = [w].
Proof.
  induction 1 as [|c w Hc Hw IH]; cbn; [done|].
  by rewrite (proj2 (Z.eqb_neq _ _) Hc), IH.
Qed.

Lemma comps_slash a w :
  Forall (fun c => c <> 47) w ->
  comps (a ++ 47 :: w) = comps a ++ (if decide (w = []) then [] else [w]).
Proof.
  intros Hw. unfold comps. rewrite split_slash, List.filter_app, (split_word w) by done. cbn [List.filter].
  destruct (decide (w = [])) as [->|Hne]; [done|]. by rewrite bool_decide_false by done.
Qed.

Lemma comps_word w :
  Forall (fun c => c <> 47) w -> comps w = if decide (w = []) then [] else [w].
Proof.
  intros Hw. unfold comps. rewrite split_word by done. cbn [List.filter].
  destruct (decide (w = [])) as [->|Hne]; [done|]. by rewrite bool_decide_false by done.
Qed.

(** What comes up to a slash, and a word after it. *)
Definition up_to_slash (pre : list Z) : Prop := pre = [] \/ exists p, pre = p ++ [47].

Lemma comps_snoc_slash p : comps (p ++ [47]) = comps p.
Proof. rewrite comps_slash by done. apply app_nil_r. Qed.

Lemma comps_pre_word pre w :
  up_to_slash pre -> Forall (fun c => c <> 47) w ->
  comps (pre ++ w) = comps pre ++ (if decide (w = []) then [] else [w]).
Proof.
  intros [->|[p ->]] Hw; [by apply comps_word|].
  rewrite <- app_assoc, comps_snoc_slash. by apply comps_slash.
Qed.

Lemma is_abs_app a b : a <> [] -> is_abs (a ++ b) = is_abs a.
Proof. by destruct a. Qed.

Section mkdir_laws.
Context {S : Type} {mkdir : S -> list Z -> Z * S} {isdir : S -> dirname -> Prop}
  `{HM : !Mkdir mkdir isdir}.

(** The directories of [st], and those on the way to [cs]. *)
Definition with_path (st st' : S) (b : bool) (cs : list (list Z)) : Prop :=
  forall d, isdir st' d <-> isdir st d \/ (d.1 = b /\ d.2 `prefix_of` cs).

Lemma isdir_prefix st b cs ds : isdir st (b, cs ++ ds) -> isdir st (b, cs).
Proof using HM.
  revert cs. induction ds as [|w ds IH] using rev_ind; intros cs; [by rewrite app_nil_r|].
  rewrite app_assoc. intros H%mkdir_parent. by apply IH.
Qed.

(** Making a directory with its parents there. *)
Lemma mkdir_step st st' s cs :
  s <> [] -> (comps s = cs \/ exists w, comps s = cs ++ [w]) -> with_path st st' (is_abs s) cs ->
  let '(e, st'') := mkdir st' s in
  (e = 0 \/ e = EEXIST) /\ with_path st st'' (is_abs s) (comps s).
Proof using HM.
  intros Hs Hc Hw. pose proof (mkdir_doc st' s Hs) as M. destruct (mkdir st' s) as [e st''].
  assert (Hcs : isdir st' (is_abs s, cs)) by (apply Hw; right; by split).
  assert (Hpar : isdir st' (is_abs s, removelast (comps s))).
  { destruct Hc as [->|[w ->]]; [|by rewrite removelast_last].
    destruct cs as [|w cs _] using rev_ind; [done|]. rewrite removelast_last. by apply mkdir_parent in Hcs. }
  destruct M as [(-> & Hd & ->)|[(-> & Hn & _)|(-> & _ & Hd)]]; [|done|].
  - split; [by right|]. intros d. rewrite (Hw d). split; intros [H|[H1 H2]]; auto.
    + right. split; [done|]. destruct Hc as [->|[w ->]]; [done|]. by apply prefix_app_r.
    + destruct d as [b ds]. cbn in *. subst b. destruct H2 as [k E].
      apply Hw, (isdir_prefix _ _ _ k). rewrite <- E. exact Hd.
  - split; [by left|]. intros [b ds]. rewrite Hd, (Hw (b, ds)). cbn. unfold parse.
    destruct Hc as [Hc|[w Hc]]; rewrite Hc.
    + split; [|intros [H|H]; auto]. intros [H|[= -> ->]]; [done|]. right. by split.
    + split.
      * intros [[H|[-> H]]|[= -> ->]]; [by left|right|right; by split].
        split; [done|]. by apply prefix_app_r.
      * intros [H|[-> [k E]]]; [by left; left|].
        destruct k as [|x k _] using rev_ind.
        -- right. rewrite app_nil_r in E. by rewrite E.
        -- left. right. split; [done|]. exists k. rewrite app_assoc in E. by apply app_inj_tail in E as [E _].
Qed.

(** The loop, with a word since the last slash. *)
Lemma mkdir_loop_spec st dir pre w rest st' :
  dir = (pre ++ w) ++ rest -> Forall (fun c => c <> 47) w -> dir <> [] -> up_to_slash pre ->
  (pre ++ w = [] -> is_abs rest = false) -> with_path st st' (is_abs dir) (comps pre) ->
  exists st'', mkdir_loop mkdir st' (slash_prefixes (pre ++ w) rest) dir = (0, st'') /\
    with_path st st'' (is_abs dir) (comps dir).
Proof using HM.
  revert pre w st'. induction rest as [|c rest IH]; intros pre w st' Hdir Hw Hne Hpre Habs Hst.
  - rewrite app_nil_r in Hdir. cbn [slash_prefixes mkdir_loop].
    pose proof (mkdir_step st st' dir (comps pre) Hne) as M.
    destruct (mkdir st' dir) as [e st'']. destruct M as [He Hw'']; [|done|].
    + rewrite Hdir, comps_pre_word by done.
      destruct (decide (w = [])); [left; apply app_nil_r|right; by exists w].
    + exists st''. split; [|done]. by destruct He as [->| ->].
  - cbn [slash_prefixes]. destruct (Z.eqb_spec c 47) as [->|Hc].
    + assert (Hs : pre ++ w <> []) by (intros E; by specialize (Habs E)).
      assert (Ha : is_abs (pre ++ w) = is_abs dir) by (rewrite Hdir; symmetry; by apply is_abs_app).
      pose proof (mkdir_step st st' (pre ++ w) (comps pre) Hs) as M. cbn [mkdir_loop].
      destruct (mkdir st' (pre ++ w)) as [e st''].
      destruct M as [He Hw'']; [|by rewrite Ha|].
      { rewrite comps_pre_word by done.
        destruct (decide (w = [])); [left; apply app_nil_r|right; by exists w]. }
      assert (Ee : negb (e =? 0) && negb (e =? EEXIST) = false) by by destruct He as [->| ->].
      rewrite Ee. rewrite Ha in Hw''.
      destruct (IH ((pre ++ w) ++ [47]) [] st'') as (s3 & E3 & H3); [|done|done|..|].
      * rewrite Hdir, app_nil_r, <- !app_assoc. done.
      * right. by eexists.
      * by destruct pre, w.
      * by rewrite comps_snoc_slash.
      * rewrite app_nil_r in E3. by exists s3.
    + rewrite <- app_assoc. apply IH; [|apply Forall_app; split; [done|by repeat constructor]|done|done|..|done].
      * rewrite Hdir, <- !app_assoc. done.
      * by destruct pre, w.
Qed.

(** mkdir_p makes a directory with the directories on the way to it: for a
    process that may create what it asks for, the result is 0, and then there are the
    directories that were there and those on the path, and no others.  An error of
    the first mkdir other than EEXIST and ENOENT gives -1. *)
Theorem mkdir_p_correct (st : S) (dir : list Z) (dirtmp : Z) :
  dir <> [] -> dirtmp <> 0 ->
  exists st', mkdir_p mkdir (Ret (dirtmp, [])) st dir = Ret (0, st') /\
    forall d, isdir st' d <-> isdir st d \/ (d.1 = is_abs dir /\ d.2 `prefix_of` comps dir).
Proof using HM.
  intros Hne Hdup. unfold mkdir_p. pose proof (mkdir_doc st dir Hne) as M.
  assert (Hall : forall st', isdir st' (parse dir) ->
    forall d, d.1 = is_abs dir -> d.2 `prefix_of` comps dir -> isdir st' d).
  { intros st' H [b cs] E [k Hk]. cbn in E, Hk. subst b. apply (isdir_prefix _ _ _ k).
    rewrite <- Hk. exact H. }
  destruct (mkdir st dir) as [e st1].
  destruct M as [(-> & Hd & ->)|[(-> & _ & _ & ->)|(-> & Hp & Hd)]]; cbn [Z.eqb orb negb].
  - exists st. split; [done|]. intros d. split; [by left|]. intros [H|[H1 H2]]; [done|]. by apply (Hall st).
  - change (ENOENT =? EEXIST) with false. change (ENOENT =? ENOENT) with true. cbn [orb negb].
    cbn [mbind outcome_bind]. rewrite (proj2 (Z.eqb_neq _ _) Hdup).
    assert (E : exists st', match dir with
        | 47 :: rest => mkdir_loop mkdir st (slash_prefixes [47] rest) dir
        | _ => mkdir_loop mkdir st (slash_prefixes [] dir) dir
        end = (0, st') /\ with_path st st' (is_abs dir) (comps dir)).
    { assert (Hroot : forall b, with_path st st b []).
      { intros b [b' cs]. split; [by left|]. intros [H|[E H]]; [done|]. cbn in H.
        apply prefix_nil_inv in H as ->. apply mkdir_root. }
      destruct (is_abs dir) eqn:Ha.
      - destruct dir as [|c rest]; [done|]. assert (c = 47) as ->.
        { cbn in Ha. destruct (decide (c = 47)); [done|]. exfalso.
          destruct c as [|p|p]; try done. do 6 (destruct p; try done). }
        rewrite <- Ha. apply (mkdir_loop_spec st (47 :: rest) [47] [] rest st); try done.
        right. by exists [].
      - assert (Hm : match dir with
          | 47 :: rest => mkdir_loop mkdir st (slash_prefixes [47] rest) dir
          | _ => mkdir_loop mkdir st (slash_prefixes [] dir) dir
          end = mkdir_loop mkdir st (slash_prefixes [] dir) dir).
        { destruct dir as [|c rest]; [done|]. destruct (decide (c = 47)) as [->|Hc]; [done|].
          destruct c as [|p|p]; try done. do 6 (destruct p; try done). }
        rewrite Hm, <- Ha. apply (mkdir_loop_spec st dir [] [] dir st); try done.
        by left. }
    destruct E as (st' & E & Hw). exists st'. split; [|exact Hw].
    by rewrite E.
  - exists st1. split; [done|]. intros d. split.
    + rewrite Hd. intros [H| ->]; [by left|right]. by split.
    + intros [H|[H1 H2]]; [apply Hd; by left|]. apply (Hall st1); [apply Hd; by right|done..].
Qed.
End mkdir_laws.

(** A file system that is a list of directories, with all that leads to them. *)
Definition fs_isdir (st : list dirname) (d : dirname) : Prop :=
  d.2 = [] \/ Exists (fun e => e.1 = d.1 /\ d.2 `prefix_of` e.2) st.

Definition fs_mkdir (st : list dirname) (s : list Z) : Z * list dirname :=
  if bool_decide (fs_isdir st (parse s)) then (EEXIST, st)
  else if bool_decide (fs_isdir st (is_abs s, removelast (comps s))) then (0, parse s :: st)
  else (ENOENT, st).

Lemma fs_isdir_prefix st b cs ds : fs_isdir st (b, cs ++ ds) -> fs_isdir st (b, cs).
Proof.
  intros [E|H]; cbn in *.
  - left. cbn. by destruct cs.
  - right. eapply Exists_impl; [exact H|]. cbn. intros e [He Hp]. split; [done|].
    etrans; [|exact Hp]. by apply prefix_app_r.
Qed.

#[export] Instance fs_mkdir_doc : Mkdir fs_mkdir fs_isdir.
Proof.
  split.
  - intros st s Hs. unfold fs_mkdir. case_bool_decide as H1; [by left|].
    case_bool_decide as H2; [right; right|right; left; done].
    split; [done|]. split; [done|]. intros [b cs]. split.
    + intros [E|H]; [left; by left|]. apply Exists_cons in H as [[E H]|H]; [|left; by right].
      cbn in E, H. subst b. destruct H as [k Hk].
      destruct k as [|x k _] using rev_ind.
      * right. unfold parse. by rewrite Hk, app_nil_r.
      * left. rewrite Hk, app_assoc, removelast_last in H2. by apply fs_isdir_prefix in H2.
    + intros [[E|H]| ->]; [by left|right; by constructor|right]. constructor. by split.
  - intros st b cs w. apply fs_isdir_prefix.
  - intros st b. by left.
Qed.

Lemma mkdir_p_correct_witness :
  exists st', mkdir_p fs_mkdir (Ret (1, [])) [] [97; 47; 47; 98; 47] = Ret (0, st') /\
    forall d, fs_isdir st' d <->
      fs_isdir [] d \/ (d.1 = false /\ d.2 `prefix_of` [[97]; [98]]).
Proof. exact (mkdir_p_correct (HM := fs_mkdir_doc) [] [97; 47; 47; 98; 47] 1 ltac:(done) ltac:(done)). Defined.

(** ** Temporary names *)

(** mktempfile gives mkstemp the complete template, never a cut one: in TMPDIR if
    it fits in the buffer, else in /tmp; and it writes inside the buffer only. *)
Theorem mktempfile_correct (getenv : option (list Z)) (mkstemp : list Z -> Z) (m : list Z) (len : Z) :
  16 <= len < 2 ^ 31 -> len <= zlen m ->
  (forall v, getenv = Some v -> Forall (fun c => c <> 0) v) ->
  exists dir, (dir = tmp_dir \/ getenv = Some dir) /\ zlen dir + zlen tmp_template < len /\
    mktempfile getenv mkstemp m len =
      Some (mkstemp (dir ++ tmp_template), splice m 0 ((dir ++ tmp_template) ++ [0])).
Proof.
  intros Hlen Hm Hv. unfold mktempfile.
  destruct (Z.ltb_spec len 16); [lia|].
  set (dir := match getenv with None => tmp_dir
    | Some envtmp => if u64 (len - 12) <=? zlen envtmp then tmp_dir else envtmp end).
  assert (Ht : zlen tmp_template = 11) by done. assert (Htd : zlen tmp_dir = 4) by done.
  assert (Hd : (dir = tmp_dir \/ getenv = Some dir) /\ zlen dir + 11 < len /\
    Forall (fun c => c <> 0) dir).
  { unfold dir. assert (Hn : Forall (fun c => c <> 0) tmp_dir) by (repeat constructor; lia).
    destruct getenv as [v|]; [|split; [by left|]; split; [lia|done]].
    rewrite u64_id by (unfold fits; lia).
    destruct (Z.leb_spec (len - 12) (zlen v)); [split; [by left|]; split; [lia|done]|].
    split; [by right|]. split; [lia|by apply Hv]. }
  clearbody dir. destruct Hd as (Hd & Hfit & Hz). exists dir. split; [done|]. split; [lia|].
  rewrite strconcat_spec
    by (done || lia || (cbn [concat]; rewrite app_nil_r, zlen_app; lia)).
  cbn [mbind option_bind concat]. rewrite app_nil_r. rewrite fit_all by (unfold zlen in *; rewrite length_app; lia).
  set (name := dir ++ tmp_template).
  assert (Hname : zlen name < len) by (unfold name, zlen in *; rewrite length_app; lia).
  assert (Hnz : Forall (fun c => c <> 0) name)
    by (apply Forall_app; split; [done|repeat constructor; lia]).
  rewrite (strlen_cstr _ _ name) by (apply cstr_at_splice; [lia|done|lia]).
  cbn [mbind option_bind]. do 3 f_equal.
  unfold zlen. rewrite Nat2Z.id. unfold splice. change (take (Z.to_nat 0) m) with (@nil Z).
  rewrite app_nil_l, <- app_assoc. apply take_app_length.
Qed.

Lemma mktempfile_correct_witness :
  exists dir, (dir = tmp_dir \/ Some [47; 120] = Some dir) /\ zlen dir + zlen tmp_template < 16 /\
    mktempfile (Some [47; 120]) (fun _ => 3) (replicate 16 255) 16 =
      Some (3, splice (replicate 16 255) 0 ((dir ++ tmp_template) ++ [0])).
Proof.
  apply (mktempfile_correct (Some [47; 120]) (fun _ => 3) (replicate 16 255) 16); [lia|done|].
  intros v [= <-]. repeat constructor; lia.
Defined.

(** tmpfilename looks for the slash at the end of the directory in the wrong
    place, past the end of the string it copies from: without enough memory
    there it is undefined; else, when the byte found there is a slash, it is
    overwritten (which is undefined for the constant /tmp); and the name it returns
    keeps the slashes that end TMPDIR.  The name fits in the allocated memory, and
    the slashes that start the file name are removed. *)
Theorem tmpfilename_oob (dir after : list Z) (fname : option (list Z)) :
  dir <> [] ->
  let flen := match fname with Some f => zlen f | None => 0 end in
  let n := zlen dir + 2 + flen in
  let name := dir ++ match fname with Some f => 47 :: skip_slashes f | None => [] end in
  zlen name + 1 <= n /\
  (zlen after <= flen -> tmpfilename (Some dir) after (fun _ => true) fname = Fault) /\
  (flen < zlen after ->
     tmpfilename (Some dir) after (fun _ => true) fname =
       Ret (Some name, dir ++ [0] ++ (if rd after flen =? 47 then wr after flen 0 else after))) /\
  (flen < zlen after -> rd after flen = 47 ->
     tmpfilename None after (fun _ => true) fname = Fault).
Proof.
  intros Hd flen n name.
  assert (Hs : forall f, zlen (skip_slashes f) <= zlen f).
  { induction f as [|c f IH]; cbn; [done|]. destruct (c =? 47); unfold zlen in *; cbn [length]; lia. }
  assert (Hf : 0 <= flen) by (unfold flen, zlen; destruct fname; lia).
  assert (Hrd : forall d : list Z, rd (d ++ [0] ++ after) (zlen d + 1 + flen) = rd after flen).
  { intros d. unfold rd, zlen. rewrite app_assoc, app_nth2 by (rewrite length_app; cbn; lia).
    f_equal. rewrite length_app. cbn. lia. }
  assert (Hwr : forall d : list Z, wr (d ++ [0] ++ after) (zlen d + 1 + flen) 0 = d ++ [0] ++ wr after flen 0).
  { intros d. unfold wr, zlen. rewrite app_assoc, insert_app_r_alt by (rewrite length_app; cbn; lia).
    rewrite <- app_assoc. do 3 f_equal. rewrite length_app. cbn. lia. }
  assert (Hz : forall d : list Z, zlen (d ++ [0] ++ after) = zlen d + 1 + zlen after)
    by (intros; unfold zlen; rewrite !length_app; cbn; lia).
  assert (En : forall d : list Z, (match fname with Some f => zlen d + 2 + zlen f | None => zlen d + 2 end) - 1
    = zlen d + 1 + flen) by (intros; unfold flen; destruct fname; lia).
  split; [|split; [|split]].
  - unfold name, n, flen. destruct fname as [f|]; unfold zlen in *; rewrite length_app;
      [specialize (Hs f)|]; cbn [length]; lia.
  - intros Ha. unfold tmpfilename. destruct dir as [|c d]; [done|]. cbn [negb].
    rewrite En, Hz. destruct (Z.leb_spec (zlen (c :: d) + 1 + zlen after) (zlen (c :: d) + 1 + flen)); [done|lia].
  - intros Ha. unfold tmpfilename. destruct dir as [|c d]; [done|]. cbn [negb].
    rewrite En, Hz. destruct (Z.leb_spec (zlen (c :: d) + 1 + zlen after) (zlen (c :: d) + 1 + flen)); [lia|].
    rewrite Hrd, Hwr. unfold name, flen.
    destruct (_ =? 47); destruct fname; cbn [mbind outcome_bind]; by rewrite ?app_nil_r.
  - intros Ha Hc. unfold tmpfilename. cbn [negb]. rewrite En, Hz.
    destruct (Z.leb_spec (zlen tmp_dir + 1 + zlen after) (zlen tmp_dir + 1 + flen)); [lia|].
    by rewrite Hrd, Hc.
Qed.

Lemma tmpfilename_oob_witness :
  tmpfilename (Some [47; 120; 47]) [72; 79; 77; 69; 61; 47; 114] (fun _ => true) (Some [47; 97; 98; 99; 100])
  = Ret (Some [47; 120; 47; 47; 97; 98; 99; 100], [47; 120; 47; 0; 72; 79; 77; 69; 61; 0; 114]).
Proof.
  refine (proj1 (proj2 (proj2 (tmpfilename_oob [47; 120; 47] [72; 79; 77; 69; 61; 47; 114]
    (Some [47; 97; 98; 99; 100]) _))) _); [done|reflexivity].
Defined.

(** ** Copies *)

Fixpoint read_chunks (reads : list read_result) : list (list Z) * bool :=
  match reads with
  | Data buf :: reads => let '(l, e) := read_chunks reads in (buf :: l, e)
  | ReadError :: _ => ([], true)
  | Eof :: _ | [] => ([], false)
  end.

Lemma copy_reads_spec write reads n out :
  Forall (fun b => 0 < zlen b /\ write b = zlen b) (fst (read_chunks reads)) ->
  copy_loop write reads n out =
    (n + zlen (concat (fst (read_chunks reads))), out ++ concat (fst (read_chunks reads))).
Proof.
  revert n out. induction reads as [|[buf| |] reads IH]; intros n out H; cbn [copy_loop read_chunks fst concat];
    try (by rewrite app_nil_r, Z.add_0_r).
  cbn [read_chunks] in H. destruct (read_chunks reads) as [l e]. cbn [fst concat] in *.
  apply Forall_cons in H as [[Hb Hw] H]. rewrite (proj2 (Z.ltb_lt _ _) Hb), Hw, Z.eqb_refl.
  rewrite IH by done. rewrite take_ge by (unfold zlen; lia).
  rewrite app_assoc. f_equal. unfold zlen. rewrite length_app. lia.
Qed.

(** copy_file closes what it opens; its errors are -2 for the source and -3 for
    the destination.  The loop copies the bytes read and returns their number, as
    long as every write is complete - after a read error too, which is not
    reported. *)
Theorem copy_file_correct (sendfile : Z -> Z) (write : list Z -> Z) (reads : list read_result)
    (open_to : Z -> bool) (mode size : Z) :
  Forall (fun b => 0 < zlen b /\ write b = zlen b) (fst (read_chunks reads)) ->
  copy_file sendfile None open_to = (-2, 0) /\ copy_file sendfile (Some None) open_to = (-2, 0) /\
  (open_to mode = false -> copy_file sendfile (Some (Some (mode, size))) open_to = (-3, 0)) /\
  (open_to mode = true ->
     copy_file sendfile (Some (Some (mode, size))) open_to = (sendfile size, 0) /\
     copy_file_loop write reads (Some (Some (mode, size))) open_to
       = (zlen (concat (fst (read_chunks reads))), 0)).
Proof.
  intros H. unfold copy_file, copy_file_loop, copy_with.
  split; [done|]. split; [done|]. split; intros ->; [done|]. cbn [negb]. split; [done|].
  by rewrite copy_reads_spec.
Qed.

Lemma copy_file_correct_witness :
  copy_file_loop zlen [Data [1; 2]; Data [3]; ReadError] (Some (Some (0x1a4, 5))) (fun _ => true) = (3, 0).
Proof.
  refine (proj2 (proj2 (proj2 (proj2 (copy_file_correct (fun n => n) zlen
    [Data [1; 2]; Data [3]; ReadError] (fun _ => true) 0x1a4 5 _))) eq_refl)).
  repeat constructor.
Defined.

(** is_elf gives 0 for the header of an ELF file, 1 for four other bytes, and -1
    otherwise, with EINVAL for a short file; create_file never overwrites; and no
    descriptor stays open. *)
Theorem elf_create_correct (buff : list Z) (creat ftruncate : Z -> Z) (len mode : Z) :
  (is_elf (Some (Some buff)) =
     if decide (buff = elf_hdr) then (0, None, 0)
     else if decide (length buff = 4%nat) then (1, None, 0) else (-1, Some EINVAL, 0)) /\
  is_elf None = (-1, None, 0) /\ is_elf (Some None) = (-1, None, 0) /\
  create_file true creat ftruncate len mode = (EEXIST, 0) /\
  snd (create_file false creat ftruncate len mode) = 0.
Proof.
  split; [|split; [done|split; [done|split; [done|]]]].
  - unfold is_elf. destruct (decide (buff = elf_hdr)) as [->|Hne]; [done|].
    destruct (Z.eqb_spec (zlen buff) (zlen elf_hdr)) as [E|E]; change (zlen elf_hdr) with 4 in E;
      destruct (decide (length buff = 4%nat)); try done; unfold zlen in E; lia.
  - unfold create_file. destruct (negb (creat _ =? 0)); [done|]. by destruct (negb _).
Qed.

(** ** Allocations *)

(** Without a helper the must functions return memory or end the program; with one
    they return NULL after calling it; and must_mmap, which looks for NULL where
    mmap gives MAP_FAILED, returns MAP_FAILED without either. *)
Theorem must_correct (malloc : Z -> Z) (mmap : Z -> Z -> Z -> Z -> Z) (size prot flags : Z) :
  0 <= size < 2 ^ 31 ->
  must_alloc false malloc size = (if malloc size =? 0 then Exit 1 else Ret (malloc size, [])) /\
  must_alloc true malloc size =
    Ret (malloc size, if malloc size =? 0 then [(w_malloc, size)] else []) /\
  ((forall s p f d, mmap s p f d = MAP_FAILED) ->
     must_mmap false mmap size prot flags = Ret (MAP_FAILED, []) /\
     must_mmap_file false mmap size prot flags 3 = Exit 1).
Proof.
  intros Hs. assert (E : s32 size = size) by (unfold s32; rewrite Z.mod_small by lia; lia).
  unfold must_alloc, must_mmap, must_mmap_file, unless, must_fail. rewrite E.
  split; [by destruct (_ =? 0)|]. split; [by destruct (_ =? 0)|].
  intros H. rewrite !H. done.
Qed.

End Files.
