(* ===== verification/Slackware.v ===== *)
(** Slackware package names (slackware.c): the name is copied, and cut in place at
    its last three dashes; the other fields point into the copy. *)

From S2P Require Import Prelude Strings Readfile.
Import Strings Readfile.

Module Slackware.

Definition SLASH : Z := 47.
Definition DASH : Z := 45.

(** [struct slack_pkg]: the buffer of the name, and the other fields as offsets
    in it. *)
Record slack_pkg := {
  name : option (list Z);
  version : option Z;
  arch : option Z;
  build_tag : option Z;
}.

Definition basename (pkg_str : list Z) : list Z :=
  match strrchr pkg_str SLASH with
  | Some pre => drop (length pre + 1) pkg_str
  | None => pkg_str
  end.

(** [p = strrchr(pkg->name, '-'); ... = p + 1; *p = 0;]: the buffer, and [p + 1]. *)
Definition cut (buf : list Z) : option (list Z * Z) :=
  pre ← strrchr (c_str buf) DASH; Some (wr buf (zlen pre) 0, zlen pre + 1).

(** [dup] says whether [strdup] gives memory.  The error [bad] frees the name and
    leaves the other fields. *)
Definition pkgparse (dup : bool) (pkg_str : list Z) (pkg : slack_pkg) : Z * slack_pkg :=
  let base := basename pkg_str in
  if negb dup then
    (ENOMEM, {| name := None; version := version pkg; arch := arch pkg; build_tag := build_tag pkg |})
  else
    let bad version arch build_tag :=
      (EINVAL, {| name := None; version := version; arch := arch; build_tag := build_tag |}) in
    match cut (base ++ [0]) with
    | None => bad (version pkg) (arch pkg) (build_tag pkg)
    | Some (buf, tag) =>
        match cut buf with
        | None => bad (version pkg) (arch pkg) (Some tag)
        | Some (buf, a) =>
            match cut buf with
            | None => bad (version pkg) (Some a) (Some tag)
            | Some (buf, v) =>
                (0, {| name := Some buf; version := Some v; arch := Some a; build_tag := Some tag |})
            end
        end
    end.

(** ** Parsing *)

(** A part of a name: no NULs, no slashes, no dashes. *)
Definition part (s : list Z) : Prop := Forall (fun c => c <> 0 /\ c <> DASH /\ c <> SLASH) s.

Lemma strrchr_none s c : Forall (fun x => x <> c) s -> strrchr s c = None.
Proof.
  induction 1 as [|x s Hx Hs IH]; cbn; [done|]. rewrite IH.
  by rewrite (proj2 (Z.eqb_neq _ _) Hx).
Qed.

Lemma c_str_app s t : Forall (fun x => x <> 0) s -> c_str (s ++ 0 :: t) = s.
Proof.
  induction 1 as [|x s Hx Hs IH]; cbn; [done|].
  by rewrite (proj2 (Z.eqb_neq _ _) Hx), IH.
Qed.

Lemma cut_dash pre s rest :
  Forall (fun x => x <> 0) pre -> Forall (fun x => x <> 0 /\ x <> DASH) s ->
  cut ((pre ++ DASH :: s) ++ 0 :: rest) = Some (pre ++ 0 :: s ++ 0 :: rest, zlen pre + 1).
Proof.
  intros Hp Hs. unfold cut. rewrite c_str_app.
  2:{ apply Forall_app; split; [done|]. constructor; [done|]. eapply Forall_impl; [exact Hs|]. by intros ? [? ?]. }
  rewrite strrchr_last by (apply strrchr_none; eapply Forall_impl; [exact Hs|]; by intros ? [? ?]).
  cbn [mbind option_bind]. do 2 f_equal.
  unfold wr, zlen. rewrite Nat2Z.id, <- app_assoc. cbn [app].
  rewrite insert_app_r_alt by lia. by rewrite Nat.sub_diag.
Qed.

Lemma cut_none s rest : Forall (fun x => x <> 0 /\ x <> DASH) s -> cut (s ++ 0 :: rest) = None.
Proof.
  intros Hs. unfold cut. rewrite c_str_app by (eapply Forall_impl; [exact Hs|]; by intros ? [? ?]).
  rewrite strrchr_none; [done|]. eapply Forall_impl; [exact Hs|]. by intros ? [? ?].
Qed.

Lemma basename_path p s :
  Forall (fun x => x <> SLASH) s -> basename (p ++ SLASH :: s) = s /\ basename s = s.
Proof.
  intros Hs. pose proof (strrchr_none s SLASH Hs) as E. unfold basename.
  rewrite strrchr_last by done. rewrite E. split; [|done].
  rewrite drop_app_ge by lia. by replace (length p + 1 - length p)%nat with 1%nat by lia.
Qed.

(** The package file of a name, and its buffer after parsing. *)
Definition pkg_file (n v a t : list Z) : list Z := n ++ DASH :: v ++ DASH :: a ++ DASH :: t.

(** pkgparse takes apart what was put together with dashes: for a name
    (which may have dashes itself), a version, an architecture and a build tag, with
    or without a path before them, the buffer holds the four strings one after the
    other and the fields point at them; a string with fewer than three dashes gives
    EINVAL and no name. *)
Theorem pkgparse_roundtrip (path n v a t : list Z) (pkg : slack_pkg) :
  Forall (fun c => c <> 0 /\ c <> SLASH) n -> part v -> part a -> part t ->
  let parsed := (0, {| name := Some (n ++ 0 :: v ++ 0 :: a ++ 0 :: t ++ [0]);
                       version := Some (zlen n + 1);
                       arch := Some (zlen (n ++ 0 :: v) + 1);
                       build_tag := Some (zlen (n ++ 0 :: v ++ 0 :: a) + 1) |}) in
  pkgparse true (path ++ SLASH :: pkg_file n v a t) pkg = parsed /\
  pkgparse true (pkg_file n v a t) pkg = parsed /\
  (forall s, s = v \/ s = v ++ DASH :: a \/ s = v ++ DASH :: a ++ DASH :: t ->
     let '(rc, pkg') := pkgparse true s pkg in rc = EINVAL /\ name pkg' = None).
Proof.
  intros Hn Hv Ha Ht parsed.
  assert (W : forall P Q : Z -> Prop, (forall x, P x -> Q x) -> forall s, Forall P s -> Forall Q s)
    by (intros P Q HPQ s H; exact (Forall_impl P Q s H HPQ)).
  assert (N : Forall (fun x => x <> 0) n) by (eapply W; [|exact Hn]; by intros ? [? ?]).
  assert (P0 : forall s, part s -> Forall (fun x => x <> 0) s)
    by (intros s; apply W; by intros ? (? & ? & ?)).
  assert (P1 : forall s, part s -> Forall (fun x => x <> 0 /\ x <> DASH) s)
    by (intros s; apply W; by intros ? (? & ? & ?)).
  assert (P2 : forall s, part s -> Forall (fun x => x <> SLASH) s)
    by (intros s; apply W; by intros ? (? & ? & ?)).
  assert (D0 : DASH <> 0) by done. assert (D2 : DASH <> SLASH) by done.
  assert (F : Forall (fun x => x <> SLASH) (pkg_file n v a t)).
  { unfold pkg_file. rewrite !Forall_app, !Forall_cons, !Forall_app, !Forall_cons, !Forall_app, !Forall_cons.
    split; [eapply W; [|exact Hn]; by intros ? [? ?]|]. auto 10. }
  assert (H : forall s, basename s = pkg_file n v a t -> pkgparse true s pkg = parsed).
  { intros s Hs. unfold pkgparse. rewrite Hs. cbn [negb]. unfold pkg_file.
    replace ((n ++ DASH :: v ++ DASH :: a ++ DASH :: t) ++ [0])
      with (((n ++ DASH :: v ++ DASH :: a) ++ DASH :: t) ++ 0 :: [])
      by (rewrite <- !app_assoc; cbn [app]; rewrite <- !app_assoc; cbn [app]; by rewrite <- !app_assoc).
    rewrite cut_dash by (rewrite ?Forall_app, ?Forall_cons, ?Forall_app, ?Forall_cons; auto 10).
    replace ((n ++ DASH :: v ++ DASH :: a) ++ 0 :: t ++ [0])
      with (((n ++ DASH :: v) ++ DASH :: a) ++ 0 :: t ++ [0])
      by (rewrite <- !app_assoc; cbn [app]; by rewrite <- !app_assoc).
    rewrite cut_dash by (rewrite ?Forall_app, ?Forall_cons; auto 10).
    rewrite cut_dash by auto.
    unfold parsed. do 2 f_equal; f_equal; unfold zlen; rewrite !length_app; cbn [length];
      rewrite ?length_app; cbn [length]; lia. }
  split; [apply H, basename_path, F|]. split; [apply H, (basename_path [] _ F)|].
  intros s Hs. unfold pkgparse.
  assert (Hb : basename s = s).
  { apply (basename_path []). destruct Hs as [->|[->| ->]];
      rewrite ?Forall_app, ?Forall_cons, ?Forall_app, ?Forall_cons; auto 10. }
  rewrite Hb. cbn [negb]. destruct Hs as [->|[->| ->]].
  - by rewrite (cut_none v) by auto.
  - rewrite cut_dash by auto. by rewrite (cut_none v) by auto.
  - replace ((v ++ DASH :: a ++ DASH :: t) ++ [0]) with (((v ++ DASH :: a) ++ DASH :: t) ++ 0 :: [])
      by (rewrite <- !app_assoc; cbn [app]; by rewrite <- !app_assoc).
    rewrite cut_dash by (rewrite ?Forall_app, ?Forall_cons; auto 10).
    rewrite cut_dash by auto. by rewrite (cut_none v) by auto.
Qed.

Lemma pkgparse_roundtrip_witness :
  pkgparse true [47; 97; 47; 103; 45; 99; 45; 49; 45; 120; 45; 50] (Build_slack_pkg None None None None)
  = (0, {| name := Some [103; 45; 99; 0; 49; 0; 120; 0; 50; 0];
           version := Some 4; arch := Some 6; build_tag := Some 8 |}).
Proof.
  refine (proj1 (pkgparse_roundtrip [47; 97] [103; 45; 99] [49] [120] [50]
    (Build_slack_pkg None None None None) _ _ _ _)); repeat constructor; done.
Defined.

End Slackware.
