(* ===== verification/Bits.v ===== *)
(** Arithmetic on bits: the checksum of crc16.c, the powers of two of samlib.h, and
    the generators of xorshift.c and random.c. *)

From S2P Require Import Prelude.

Module Bits.

(** ** crc16.c *)

(** A 16-bit load, on a little-endian machine; outside the memory it is undefined. *)
Definition load16 (m : list Z) (off : Z) : outcome Z :=
  if off + 1 <? zlen m then Ret (rd m off .| (rd m (off + 1) .<< 8)) else Fault.

(** The loop: the sum and the offset of [p].  A signed overflow is undefined. *)
Fixpoint chksum_loop (m : list Z) (fuel : nat) (p count sum : Z) : outcome (Z * Z * Z) :=
  match fuel with
  | O => Ret (sum, p, count)
  | S fuel =>
      if 1 <? count then
        w ← load16 m p;
        if 2 ^ 31 <=? sum + w then Fault else chksum_loop m fuel (p + 2) (count - 2) (sum + w)
      else Ret (sum, p, count)
  end.

(** [buf] is the memory from the buffer on; LARGE_BUFFERS is not defined. *)
Definition chksum16 (buf : list Z) (count : Z) : outcome Z :=
  '(sum, p, count) ← chksum_loop buf (Z.to_nat count) 0 count 0;
  sum ← (if 0 <? count then w ← load16 buf p; Ret (sum + w) else Ret sum);
  let shift := sum .>> 16 in
  let sum := if negb (shift =? 0) then (sum .& 0xffff) + shift else sum in
  Ret (u16 (Z.lnot sum)).

(** ** Powers of two (samlib.h) *)

(** [x] is an unsigned int. *)
Definition is_power_of_2 (x : Z) : bool := negb (x =? 0) && (x .& u32 (x - 1) =? 0).

Definition power_of_2 (size : Z) : Z :=
  let size := u64 (size - 1) in
  let size := size .| (size .>> 1) in
  let size := size .| (size .>> 2) in
  let size := size .| (size .>> 4) in
  let size := size .| (size .>> 8) in
  let size := size .| (size .>> 16) in
  let size := size .| (size .>> 32) in
  u64 (size + 1).

(** ** xorshift.c *)

(** [xorshift_seed_t]: its two words. *)
Definition xorshift_seed_t : Type := Z * Z.

(** The result and the seed. *)
Definition xorshift128plus_r (seed : xorshift_seed_t) : Z * xorshift_seed_t :=
  let '(x, y) := seed in
  let seed0 := y in
  let x := x .^ u64 (x .<< 23) in
  let seed1 := x .^ y .^ (x .>> 17) .^ (y .>> 26) in
  (u64 (seed1 + y), (seed0, seed1)).

(** The static [global_seed] and [seeded]. *)
Record xorshift := { global_seed : xorshift_seed_t; seeded : Z }.

(** What a seeding writes: the bytes of /dev/urandom, read until a read gives all
    of them ([None]: a short read), or those of [rand]. *)
Fixpoint read_urandom (reads : list (option xorshift_seed_t)) : option xorshift_seed_t :=
  match reads with
  | [] => None
  | Some seed :: _ => Some seed
  | None :: reads => read_urandom reads
  end.

Definition new_seed (urandom : option (list (option xorshift_seed_t))) (rand_seed : xorshift_seed_t)
    : option xorshift_seed_t :=
  match urandom with Some reads => read_urandom reads | None => Some rand_seed end.

(** [xorshift_seed(NULL)], and [xorshift_seed(&global_seed)]: [null] tells them apart.
    No result when the reads never end. *)
Definition xorshift_seed (g : xorshift) (null : bool) (urandom : option (list (option xorshift_seed_t)))
    (rand_seed : xorshift_seed_t) : option xorshift :=
  let seeded' := if null then 1 else seeded g in
  seed ← new_seed urandom rand_seed;
  Some {| global_seed := seed; seeded := seeded' |}.

Definition xorshift128plus (g : xorshift) (urandom : option (list (option xorshift_seed_t)))
    (rand_seed : xorshift_seed_t) : option (Z * xorshift) :=
  g ← (if seeded g =? 0 then xorshift_seed g false urandom rand_seed else Some g);
  let '(r, seed) := xorshift128plus_r (global_seed g) in
  Some (r, {| global_seed := seed; seeded := seeded g |}).

(** ** random.c *)

Definition rotl (x k : Z) : Z := u64 (x .<< k) .| (x .>> (64 - k)).

(** The result and the static [seed]. *)
Definition rand128 (seed : Z * Z) : Z * (Z * Z) :=
  let '(s0, s1) := seed in
  let result := u64 (s0 + s1) in
  let s1 := s1 .^ s0 in
  let seed0 := rotl s0 55 .^ s1 .^ u64 (s1 .<< 14) in
  let seed1 := rotl s1 36 in
  (result, (seed0, seed1)).

(** The processor: what cpuid(0) and cpuid(7) give, the time stamp counter and
    the results of rdseed with their carry flags. *)
Definition have_rdseed (max_leaf ebx7 : Z) : bool :=
  if 7 <=? max_leaf then negb (ebx7 .& (1 .<< 18) =? 0) else false.

Definition init_seed (max_leaf ebx7 tsc0 tsc1 : Z) (rdseed0 rdseed1 : Z * bool) : Z * (Z * Z) :=
  let seed0 := tsc0 in
  let seed1 := tsc1 in
  if negb (have_rdseed max_leaf ebx7) then (0, (seed0, seed1))
  else
    let flags := 0 in
    let '(seed0, flags) := if snd rdseed0 then (fst rdseed0, flags .| 1) else (seed0, flags) in
    let '(seed1, flags) := if snd rdseed1 then (fst rdseed1, flags .| 2) else (seed1, flags) in
    (flags, (seed0, seed1)).

Definition finish_seed (max_leaf ebx7 tsc : Z) (seed : Z * Z) : Z * Z :=
  if negb (have_rdseed max_leaf ebx7) then (fst seed, tsc) else seed.

(** ** The checksum of RFC 1071 *)

(** The sum of the 16-bit words of a buffer of even length. *)
Fixpoint words_sum (b : list Z) : Z :=
  match b with x :: y :: b => x + 256 * y + words_sum b | _ => 0 end.

(** The carries added back until there are none. *)
Fixpoint fold_carries (fuel : nat) (sum : Z) : Z :=
  match fuel with
  | O => sum
  | S fuel => if sum <? 2 ^ 16 then sum else fold_carries fuel (sum mod 2 ^ 16 + sum / 2 ^ 16)
  end.
Definition rfc1071 (b : list Z) : Z := 2 ^ 16 - 1 - fold_carries 4 (words_sum b).

Lemma lor_bytes x y : is_byte x -> is_byte y -> x .| (y .<< 8) = x + 256 * y.
Proof.
  apply (@byte_forall2 (fun x y => x .| (y .<< 8) = x + 256 * y) (fun _ _ => Z.eq_dec _ _)).
  by vm_compute.
Qed.

Lemma load16_ret pre x y rest :
  is_byte x -> is_byte y -> load16 (pre ++ x :: y :: rest) (zlen pre) = Ret (x + 256 * y).
Proof.
  intros Hx Hy. unfold load16. destruct (Z.ltb_spec (zlen pre + 1) (zlen (pre ++ x :: y :: rest))).
  2:{ unfold zlen in *. rewrite length_app in *. cbn [length] in *. lia. }
  assert (E0 : rd (pre ++ x :: y :: rest) (zlen pre) = x)
    by (unfold rd, zlen; rewrite Nat2Z.id; apply nth_middle).
  assert (E1 : rd (pre ++ x :: y :: rest) (zlen pre + 1) = y).
  { unfold rd, zlen. replace (Z.to_nat _) with (length (pre ++ [x])) by (rewrite length_app; cbn; lia).
    replace (pre ++ x :: y :: rest) with ((pre ++ [x]) ++ y :: rest) by by rewrite <- app_assoc.
    apply nth_middle. }
  rewrite E0, E1. f_equal. by apply lor_bytes.
Qed.

Lemma words_sum_bound k b :
  Forall is_byte b -> length b = (2 * k)%nat -> 0 <= words_sum b <= 65535 * Z.of_nat k.
Proof.
  revert b. induction k as [|k IH]; intros b Hb Hl; [destruct b; [cbn; lia|done]|].
  destruct b as [|x [|y b]]; try (cbn in Hl; lia). cbn [words_sum].
  apply Forall_cons in Hb as [Hx Hb]. apply Forall_cons in Hb as [Hy Hb].
  specialize (IH b Hb ltac:(cbn in Hl; lia)). unfold fits in *. lia.
Qed.

Lemma words_sum_app k a b : length a = (2 * k)%nat -> words_sum (a ++ b) = words_sum a + words_sum b.
Proof.
  revert a. induction k as [|k IH]; intros a Hl; [by destruct a|].
  destruct a as [|x [|y a]]; try (cbn in Hl; lia). cbn [app words_sum].
  rewrite (IH a) by (cbn in Hl; lia). lia.
Qed.

Lemma chksum_loop_spec k b pre rest sum fuel :
  Forall is_byte b -> length b = (2 * k)%nat -> (k < fuel)%nat -> 0 <= sum ->
  sum + words_sum b < 2 ^ 31 ->
  chksum_loop (pre ++ b ++ rest) fuel (zlen pre) (zlen b) sum
  = Ret (sum + words_sum b, zlen (pre ++ b), 0).
Proof.
  revert b pre sum fuel. induction k as [|k IH]; intros b pre sum [|fuel] Hb Hl Hf H0 Hs; try lia.
  - destruct b; [|done]. cbn. by rewrite app_nil_r, Z.add_0_r.
  - destruct b as [|x [|y b]]; try (cbn in Hl; lia). cbn [chksum_loop words_sum] in *.
    apply Forall_cons in Hb as [Hx Hb]. apply Forall_cons in Hb as [Hy Hb].
    assert (Hz : zlen (x :: y :: b) = zlen b + 2) by (unfold zlen; cbn; lia).
    assert (0 <= zlen b) by (unfold zlen; lia).
    destruct (Z.ltb_spec 1 (zlen (x :: y :: b))); [|lia].
    cbn [app]. rewrite load16_ret by done. cbn [mbind outcome_bind].
    pose proof (words_sum_bound k b Hb ltac:(cbn in Hl; lia)) as Hw. unfold fits in *.
    destruct (Z.leb_spec (2 ^ 31) (sum + (x + 256 * y))); [lia|].
    replace (pre ++ x :: y :: b ++ rest) with ((pre ++ [x; y]) ++ b ++ rest) by by rewrite <- app_assoc.
    replace (zlen pre + 2) with (zlen (pre ++ [x; y])) by (unfold zlen; rewrite length_app; cbn; lia).
    replace (zlen (x :: y :: b) - 2) with (zlen b) by lia.
    rewrite IH by (done || (cbn in Hl; lia) || lia).
    rewrite <- app_assoc. cbn [app]. do 3 f_equal. lia.
Qed.

(** One fold, and the complement. *)
Definition fold_once (sum : Z) : Z := if sum / 2 ^ 16 =? 0 then sum else sum mod 2 ^ 16 + sum / 2 ^ 16.

Lemma chksum16_even k b rest :
  Forall is_byte b -> length b = (2 * k)%nat -> words_sum b < 2 ^ 31 ->
  chksum16 (b ++ rest) (zlen b) = Ret (u16 (Z.lnot (fold_once (words_sum b)))).
Proof.
  intros Hb Hl Hs. unfold chksum16.
  assert (E : chksum_loop (b ++ rest) (Z.to_nat (zlen b)) 0 (zlen b) 0
    = Ret (0 + words_sum b, zlen b, 0)).
  { destruct k as [|k]; [by destruct b|].
    apply (chksum_loop_spec (S k) b [] rest 0); try done. unfold zlen. lia. }
  rewrite E. cbn [mbind outcome_bind]. unfold fold_once.
  change (0 <? 0) with false. cbv iota zeta. cbn [mbind outcome_bind].
  change 0xffff with (Z.ones 16). rewrite Z.land_ones, Z.shiftr_div_pow2, Z.add_0_l by done. by destruct (_ / _ =? 0).
Qed.

Lemma u16_lnot x : 0 <= x < 2 ^ 16 -> u16 (Z.lnot x) = 2 ^ 16 - 1 - x.
Proof. unfold u16, Z.lnot. intros Hx. symmetry. apply (Z.mod_unique_pos _ _ (-1)); lia. Qed.

Lemma fold_once_sum s : 0 <= s -> fold_once s = s mod 2 ^ 16 + s / 2 ^ 16.
Proof.
  intros Hs. unfold fold_once. destruct (Z.eqb_spec (s / 2 ^ 16) 0) as [E|]; [|done].
  rewrite E. Z.to_euclidean_division_equations; lia.
Qed.

(** One folding of the carries is enough, or two are. *)
Lemma rfc1071_once b : 0 <= words_sum b -> fold_once (words_sum b) < 2 ^ 16 -> rfc1071 b = 2 ^ 16 - 1 - fold_once (words_sum b).
Proof.
  intros Hs Hf. unfold rfc1071. f_equal. cbn [fold_carries]. rewrite <- fold_once_sum by done.
  destruct (Z.ltb_spec (words_sum b) (2 ^ 16)); [unfold fold_once; by rewrite Z.div_small by lia|]. by rewrite (proj2 (Z.ltb_lt _ _) Hf).
Qed.

Lemma rfc1071_twice b : 0 <= words_sum b -> 2 ^ 16 <= fold_once (words_sum b) < 2 ^ 16 + 2 ^ 15 ->
  rfc1071 b = 2 ^ 17 - 2 - fold_once (words_sum b).
Proof.
  intros Hs Hf. unfold rfc1071. cbn [fold_carries]. rewrite <- fold_once_sum by done. set (f := fold_once (words_sum b)) in *.
  destruct (Z.ltb_spec (words_sum b) (2 ^ 16)) as [Hlt|].
  - exfalso. unfold f, fold_once in Hf. rewrite Z.div_small in Hf by lia. cbn in Hf. lia.
  - destruct (Z.ltb_spec f (2 ^ 16)); [lia|]. assert (Hf2 : f / 2 ^ 16 = 1) by (symmetry; apply (Z.div_unique_pos _ _ _ (f - 2 ^ 16)); lia).
    assert (Hf3 : f mod 2 ^ 16 = f - 2 ^ 16) by (symmetry; apply (Z.mod_unique_pos _ _ 1); lia).
    rewrite Hf2, Hf3. destruct (Z.ltb_spec (f - 2 ^ 16 + 1) (2 ^ 16)); lia.
Qed.

Lemma words_sum_word c : 0 <= c < 2 ^ 16 -> words_sum (le_bytes 2 c) = c.
Proof.
  intros Hc. change (le_bytes 2 c) with [u8 (c .>> 0); u8 (c .>> 8)]. cbn [words_sum].
  rewrite Z.shiftr_0_r, Z.shiftr_div_pow2 by done. unfold u8. Z.to_euclidean_division_equations; lia.
Qed.

(** A sum and what it lacks to all ones. *)
Lemma fold_once_complement s : 0 <= s < 2 ^ 31 - 2 ^ 16 -> fold_once s < 2 ^ 16 -> fold_once (s + (2 ^ 16 - 1 - fold_once s)) = 2 ^ 16 - 1.
Proof.
  intros Hs. rewrite (fold_once_sum s) by lia. intros Hf. assert (Hd : 0 <= s / 2 ^ 16 < 2 ^ 15) by (Z.to_euclidean_division_equations; lia).
  assert (Et : s + (2 ^ 16 - 1 - (s mod 2 ^ 16 + s / 2 ^ 16)) = 2 ^ 16 * (s / 2 ^ 16) + (2 ^ 16 - 1 - s / 2 ^ 16))
    by (Z.to_euclidean_division_equations; lia).
  rewrite Et, fold_once_sum by lia. set (q := s / 2 ^ 16) in *. set (r := 2 ^ 16 - 1 - q). set (x := 2 ^ 16 * q + r).
  assert (E1 : x / 2 ^ 16 = q) by (symmetry; apply (Z.div_unique_pos _ _ _ r); lia).
  assert (E2 : x mod 2 ^ 16 = r) by (symmetry; apply (Z.mod_unique_pos _ _ q); lia). lia.
Qed.

(** The checksum behind the bytes. *)
Lemma chksum16_appended k b : Forall is_byte b -> length b = (2 * k)%nat -> words_sum b < 2 ^ 31 - 2 ^ 16 ->
  fold_once (words_sum b) < 2 ^ 16 -> chksum16 (b ++ le_bytes 2 (2 ^ 16 - 1 - fold_once (words_sum b))) (zlen b + 2) = Ret 0.
Proof.
  intros Hb Hl Hs Hf. pose proof (words_sum_bound k b Hb Hl) as [H0 _]. set (cs := 2 ^ 16 - 1 - fold_once (words_sum b)).
  assert (Hcs : 0 <= cs < 2 ^ 16).
  { split; [lia|]. unfold cs. rewrite fold_once_sum by done. Z.to_euclidean_division_equations; lia. }
  pose proof (chksum16_even (k + 1) (b ++ le_bytes 2 cs) []) as E. rewrite app_nil_r in E.
  replace (zlen (b ++ le_bytes 2 cs)) with (zlen b + 2) in E by (unfold zlen; rewrite length_app, length_le_bytes; lia).
  rewrite (words_sum_app k), words_sum_word in E by done. rewrite E; [| |rewrite length_app, length_le_bytes; lia|lia].
  - f_equal. unfold cs. rewrite fold_once_complement by lia. by rewrite u16_lnot.
  - apply Forall_app. split; [done|]. change (le_bytes 2 cs) with [u8 (cs .>> 0); u8 (cs .>> 8)]. repeat constructor; apply fits_u8.
Qed.

(** chksum16 is the checksum of RFC 1071 for a buffer of even length when adding
    the carry back gives no carry again, and then the buffer with its checksum
    behind it has the checksum 0; else the second carry is lost, for a buffer of six
    bytes already; and for an odd length the byte behind the buffer is read: it
    is undefined to have none, and the checksum depends on it. *)
Theorem chksum16_correct (k : nat) (b rest : list Z) :
  Forall is_byte b -> length b = (2 * k)%nat -> words_sum b < 2 ^ 31 - 2 ^ 16 ->
  (words_sum b mod 2 ^ 16 + words_sum b / 2 ^ 16 < 2 ^ 16 ->
     chksum16 (b ++ rest) (zlen b) = Ret (rfc1071 b) /\
     chksum16 (b ++ le_bytes 2 (rfc1071 b)) (zlen b + 2) = Ret 0) /\
  (words_sum b mod 2 ^ 16 + words_sum b / 2 ^ 16 >= 2 ^ 16 ->
     exists c, chksum16 (b ++ rest) (zlen b) = Ret c /\ c <> rfc1071 b) /\
  chksum16 [255; 255; 255; 255; 1; 0] 6 = Ret 0xffff /\
  rfc1071 [255; 255; 255; 255; 1; 0] = 0xfffe /\
  (forall x, is_byte x -> chksum16 [x] 1 = Fault) /\
  chksum16 [1; 0] 1 = Ret 0xfffe /\ chksum16 [1; 1] 1 = Ret 0xfefe.
Proof.
  intros Hb Hl Hs. pose proof (words_sum_bound k b Hb Hl) as [H0 _]. rewrite <- fold_once_sum by done.
  rewrite (chksum16_even k b rest) by (done || lia).
  assert (Hf0 : 0 <= fold_once (words_sum b) < 2 ^ 16 + 2 ^ 15) by (rewrite fold_once_sum by done; Z.to_euclidean_division_equations; lia).
  split; [|split; [|by repeat split]].
  - intros Hf. rewrite (rfc1071_once b H0 Hf). split; [f_equal; apply u16_lnot; lia|by apply (chksum16_appended k)].
  - intros Hf. eexists. split; [done|]. rewrite (rfc1071_twice b H0) by lia. set (f := fold_once (words_sum b)) in *. unfold u16, Z.lnot.
    rewrite <- (Z.mod_unique_pos (Z.pred (- f)) (2 ^ 16) (-2) (2 ^ 17 - 1 - f)) by lia. lia.
Qed.

Lemma chksum16_correct_witness :
  chksum16 ([0x45; 0; 0; 0x73] ++ []) 4 = Ret (rfc1071 [0x45; 0; 0; 0x73]) /\
  chksum16 ([0x45; 0; 0; 0x73] ++ le_bytes 2 (rfc1071 [0x45; 0; 0; 0x73])) (4 + 2) = Ret 0.
Proof.
  refine (proj1 (chksum16_correct 2 [0x45; 0; 0; 0x73] [] _ _ _) _).
  - repeat constructor; unfold fits; lia.
  - reflexivity.
  - reflexivity.
  - reflexivity.
Defined.

(** ** Powers of two *)

(** [y] has the bits of [x] smeared over [n] places to the right. *)
Definition smeared (x y n : Z) : Prop :=
  0 <= y /\ forall i, 0 <= i -> Z.testbit y i = true <-> exists j, i <= j < i + n /\ Z.testbit x j = true.

Lemma smear_step x y n m : 0 <= n -> smeared x y n -> m = n + n -> smeared x (y .| (y .>> n)) m.
Proof.
  intros Hn [H0 H] ->. split.
  - apply Z.lor_nonneg. split; [done|]. by apply Z.shiftr_nonneg.
  - intros i Hi. rewrite Z.lor_spec, Z.shiftr_spec, orb_true_iff by done.
    rewrite (H i), (H (i + n)) by lia. split.
    + intros [(j & Hj & E)|(j & Hj & E)]; exists j; (split; [lia|done]).
    + intros (j & Hj & E). destruct (Z.lt_ge_cases j (i + n)); [left|right]; exists j; (split; [lia|done]).
Qed.

Lemma smeared_ones x y n :
  0 < x -> x < 2 ^ n -> 0 <= n -> smeared x y n -> y = Z.ones (Z.log2 x + 1).
Proof.
  intros Hx Hn Hn0 [H0 H]. pose proof (Z.log2_nonneg x).
  assert (Hlog : Z.log2 x < n) by (by apply Z.log2_lt_pow2).
  apply Z.bits_inj'. intros i Hi. rewrite Z.testbit_ones_nonneg by lia.
  destruct (Z.ltb_spec i (Z.log2 x + 1)).
  - apply H; [done|]. exists (Z.log2 x). split; [lia|]. by apply Z.bit_log2.
  - apply not_true_is_false. intros E. apply H in E as (j & Hj & E); [|done].
    rewrite Z.bits_above_log2 in E by lia. done.
Qed.

(** C40: power_of_2 gives the least power of two that is not below its argument,
    from 1 to 2^63; for 0 and above 2^63 it gives 0.  is_power_of_2 tells the
    powers of two of an unsigned int. *)
Theorem power_of_2_correct (x : Z) :
  (0 < x <= 2 ^ 63 -> exists k, 0 <= k /\ power_of_2 x = 2 ^ k /\ x <= 2 ^ k < 2 * x) /\
  (2 ^ 63 < x < 2 ^ 64 -> power_of_2 x = 0) /\ power_of_2 0 = 0 /\
  (0 <= x < 2 ^ 32 -> is_power_of_2 x = true <-> exists k, 0 <= k /\ x = 2 ^ k).
Proof.
  assert (P : forall x, 1 < x < 2 ^ 64 -> power_of_2 x = u64 (2 ^ (Z.log2 (x - 1) + 1))).
  { clear x. intros x Hx. unfold power_of_2. rewrite (u64_id (x - 1)) by (unfold fits; lia).
    cbv zeta. set (y := x - 1).
    assert (S1 : smeared y y 1).
    { split; [lia|]. intros i Hi. split; [intros E; exists i; split; [lia|done]|].
      intros (j & Hj & E). by replace i with j by lia. }
    pose proof (smear_step y _ 1 2 ltac:(lia) S1 eq_refl) as S2.
    pose proof (smear_step y _ 2 4 ltac:(lia) S2 eq_refl) as S4.
    pose proof (smear_step y _ 4 8 ltac:(lia) S4 eq_refl) as S8.
    pose proof (smear_step y _ 8 16 ltac:(lia) S8 eq_refl) as S16.
    pose proof (smear_step y _ 16 32 ltac:(lia) S16 eq_refl) as S32.
    pose proof (smear_step y _ 32 64 ltac:(lia) S32 eq_refl) as S64.
    rewrite (smeared_ones y _ 64 ltac:(lia) ltac:(lia) ltac:(lia) S64).
    rewrite Z.ones_equiv. f_equal. lia. }
  split; [|split; [|split; [done|]]].
  - intros Hx. destruct (decide (x = 1)) as [->|Hne]; [exists 0; split; [done|]; split; [done|lia]|].
    pose proof (Z.log2_nonneg (x - 1)). pose proof (Z.log2_spec (x - 1) ltac:(lia)) as Hl.
    rewrite <- Z.add_1_r in Hl. exists (Z.log2 (x - 1) + 1). split; [lia|].
    assert (Hlog : Z.log2 (x - 1) < 63) by (apply Z.log2_lt_pow2; lia).
    rewrite P by lia. split.
    + apply u64_id. split; [apply Z.pow_nonneg; lia|].
      apply Z.pow_lt_mono_r; lia.
    + rewrite Z.pow_add_r in * by lia. lia.
  - intros Hx. rewrite P by lia.
    assert (Hl : Z.log2 (x - 1) = 63) by (apply Z.log2_unique; lia). by rewrite Hl.
  - intros Hx. unfold is_power_of_2. rewrite andb_true_iff, negb_true_iff, Z.eqb_neq, Z.eqb_eq. split.
    + intros [Hne E]. pose proof (Z.log2_nonneg x). pose proof (Z.log2_spec x ltac:(lia)) as Hl.
      rewrite u32_id in E by (unfold fits; lia).
      exists (Z.log2 x). split; [done|]. destruct (decide (x = 2 ^ Z.log2 x)) as [|Hn]; [done|exfalso].
      assert (B : Z.testbit (x .& (x - 1)) (Z.log2 x) = true).
      { rewrite Z.land_spec, Z.bit_log2 by lia.
        assert (El : Z.log2 (x - 1) = Z.log2 x) by (apply Z.log2_unique; lia).
        rewrite <- El, Z.bit_log2 by lia. done. }
      by rewrite E, Z.bits_0 in B.
    + intros (k & Hk & ->). assert (0 < 2 ^ k) by (by apply Z.pow_pos_nonneg). split; [lia|].
      rewrite u32_id by (unfold fits; lia). rewrite Z.sub_1_r, <- Z.ones_equiv, Z.land_ones by done.
      apply Z.mod_same. lia.
Qed.

Lemma power_of_2_correct_witness :
  (exists k, 0 <= k /\ power_of_2 1000 = 2 ^ k /\ 1000 <= 2 ^ k < 2 * 1000) /\
  power_of_2 (2 ^ 63 + 1) = 0.
Proof.
  split; [apply (power_of_2_correct 1000); lia|].
  exact (proj1 (proj2 (power_of_2_correct (2 ^ 63 + 1))) ltac:(lia)).
Defined.

(** ** The generators *)

Lemma lxor_shiftr_zero x k : 0 <= x -> 0 < k -> x .^ (x .>> k) = 0 -> x = 0.
Proof.
  intros Hx Hk E. apply Z.lxor_eq in E. rewrite Z.shiftr_div_pow2 in E by lia.
  destruct (decide (x = 0)) as [|Hne]; [done|exfalso].
  assert (x / 2 ^ k < x); [|lia]. apply Z.div_lt; [lia|]. apply Z.pow_gt_1; lia.
Qed.

Lemma lxor_shiftl_zero x : is_u64 x -> x .^ u64 (x .<< 23) = 0 -> x = 0.
Proof.
  intros Hx E. apply Z.lxor_eq in E. rewrite Z.shiftl_mul_pow2 in E by done. unfold u64, fits in *.
  assert (H : (2 ^ 64 | (2 ^ 23 - 1) * x)).
  { exists (x * 2 ^ 23 / 2 ^ 64). pose proof (Z.div_mod (x * 2 ^ 23) (2 ^ 64)). lia. }
  apply Z.gauss in H.
  - destruct H as [q Hq]. assert (q = 0) by nia. lia.
  - by vm_compute.
Qed.

Lemma rotl_zero x k : 0 < k < 64 -> is_u64 x -> rotl x k = 0 -> x = 0.
Proof.
  intros Hk Hx E. unfold rotl in E. apply Z.lor_eq_0_iff in E as [E1 E2].
  apply Z.bits_inj'. intros i Hi. rewrite Z.bits_0.
  destruct (Z.lt_ge_cases i (64 - k)).
  - assert (B : Z.testbit (u64 (x .<< k)) (i + k) = false) by (by rewrite E1, Z.bits_0).
    unfold u64 in B. rewrite Z.mod_pow2_bits_low, Z.shiftl_spec in B by lia.
    by replace (i + k - k) with i in B by lia.
  - assert (B : Z.testbit (x .>> (64 - k)) (i - (64 - k)) = false) by (by rewrite E2, Z.bits_0).
    rewrite Z.shiftr_spec in B by lia. by replace (i - (64 - k) + (64 - k)) with i in B by lia.
Qed.

(** A seed the generators can use: two 64-bit words that are not both 0. *)
Definition good_seed (seed : Z * Z) : Prop := is_u64 (fst seed) /\ is_u64 (snd seed) /\ seed <> (0, 0).

Lemma u64_shiftr x k : 0 <= k -> is_u64 x -> is_u64 (x .>> k).
Proof. intros. by apply fits_shiftr_weak. Qed.

Lemma xorshift_good seed : good_seed seed -> good_seed (snd (xorshift128plus_r seed)).
Proof.
  destruct seed as [x y]. intros (Hx & Hy & Hne). cbn in Hx, Hy. cbn.
  set (x' := x .^ u64 (x .<< 23)).
  assert (Hx' : is_u64 x') by (apply fits_lxor; [done|done|apply fits_u64]).
  split; [done|]. split; cbn.
  - apply fits_lxor; [done| |by apply u64_shiftr].
    apply fits_lxor; [done| |by apply u64_shiftr]. by apply fits_lxor.
  - intros [= -> E]. rewrite Z.shiftr_0_l, !Z.lxor_0_r in E.
    apply lxor_shiftr_zero in E; [|apply Hx'|done]. unfold x' in E.
    apply lxor_shiftl_zero in E; [|done]. by subst x.
Qed.

Lemma rand128_good seed : good_seed seed -> good_seed (snd (rand128 seed)).
Proof.
  destruct seed as [x y]. intros (Hx & Hy & Hne). cbn in Hx, Hy. cbn.
  set (z := y .^ x). assert (Hz : is_u64 z) by by apply fits_lxor.
  assert (R : forall v k, 0 < k < 64 -> is_u64 v -> is_u64 (rotl v k)).
  { intros v k Hk Hv. apply fits_lor; [done|apply fits_u64|apply u64_shiftr; [lia|done]]. }
  split; [|split]; cbn.
  - apply fits_lxor; [done| |apply fits_u64]. apply fits_lxor; [done|by apply R|done].
  - by apply R.
  - intros [= E1 E2]. apply rotl_zero in E2; [|done|done]. rewrite E2 in E1.
    change (u64 (0 .<< 14)) with 0 in E1. rewrite !Z.lxor_0_r in E1.
    apply rotl_zero in E1; [|done|done]. subst x. unfold z in E2. rewrite Z.lxor_0_r in E2. by subst y.
Qed.

(** The two generators never fall into the seed of zeros from which they would
    give only zeros.  But xorshift128plus does not remember that it seeded itself:
    unless xorshift_seed(NULL) is called, every call seeds again, so that its numbers
    are those of the seeds and not of one sequence. *)
Theorem rng_seeds (seed urandom : Z * Z) (more : list (option xorshift_seed_t)) (g : xorshift) :
  good_seed seed ->
  good_seed (snd (xorshift128plus_r seed)) /\ good_seed (snd (rand128 seed)) /\
  (seeded g = 0 ->
     let u := Some (None :: Some urandom :: more) in
     exists r g', xorshift128plus g u seed = Some (r, g') /\ seeded g' = 0 /\
       r = fst (xorshift128plus_r urandom) /\
       forall u2, xorshift128plus g' (Some [Some u2]) seed = xorshift128plus g (Some [Some u2]) seed) /\
  (seeded g <> 0 -> forall u, xorshift128plus g u seed =
     Some (fst (xorshift128plus_r (global_seed g)),
           {| global_seed := snd (xorshift128plus_r (global_seed g)); seeded := seeded g |})).
Proof.
  intros Hs. split; [by apply xorshift_good|]. split; [by apply rand128_good|]. split.
  - intros H0 u. unfold u, xorshift128plus, xorshift_seed, new_seed. rewrite H0. cbn [Z.eqb].
    cbn [read_urandom mbind option_bind global_seed seeded].
    destruct (xorshift128plus_r urandom) as [r s]. eexists _, _. split; [done|].
    split; [done|]. split; [done|]. done.
  - intros Hne u. unfold xorshift128plus. rewrite (proj2 (Z.eqb_neq _ _) Hne).
    cbn [mbind option_bind]. by destruct (xorshift128plus_r (global_seed g)).
Qed.

Lemma rng_seeds_witness : good_seed (snd (xorshift128plus_r (1, 2))).
Proof.
  refine (proj1 (rng_seeds (1, 2) (3, 4) [] (Build_xorshift (0, 0) 0) _)).
  split; [unfold fits; cbn; lia|]. split; [unfold fits; cbn; lia|done].
Defined.

End Bits.
