(* ===== verification/Time.v ===== *)
(** Months and differences of times (time.c, globals.c).  A timeval is a pair of
    64-bit integers; the functions on doubles are not modelled. *)

From S2P Require Import Prelude.
From Stdlib Require Import String.
#[local] Open Scope Z_scope.

Module Time.

(** ** Months *)

Definition short_month : list string :=
  ["Jan"; "Feb"; "Mar"; "Apr"; "May"; "Jun"; "Jul"; "Aug"; "Sep"; "Oct"; "Nov"; "Dec"]%string.
Definition long_month : list string :=
  ["January"; "February"; "March"; "April"; "May"; "June"; "July"; "August"; "September";
   "October"; "November"; "December"]%string.

(** [month] is an unsigned int, [one_based] the flag [months_one_based]. *)
Definition get_month (one_based month long_months : Z) : string :=
  let month := if negb (one_based =? 0) then u32 (month - 1) else month in
  if 11 <? month then "???"%string
  else nth (Z.to_nat month) (if negb (long_months =? 0) then long_month else short_month) EmptyString.

(** ** Differences *)

Record timeval := { tv_sec : Z; tv_usec : Z }.

Definition ONE_SECOND : Z := 1000000.

(** The result is an unsigned long. *)
Definition delta_timeval (start end_ : timeval) : Z :=
  if tv_usec end_ <? tv_usec start then
    if tv_sec start =? tv_sec end_ - 1 then u64 (tv_usec end_ + ONE_SECOND - tv_usec start)
    else if tv_sec end_ - 1 <? tv_sec start then u64 (Z.lnot 0)
    else u64 ((tv_sec end_ - 1 - tv_sec start) * ONE_SECOND + (tv_usec end_ + ONE_SECOND - tv_usec start))
  else if tv_sec start =? tv_sec end_ then u64 (tv_usec end_ - tv_usec start)
  else if tv_sec end_ <? tv_sec start then u64 (Z.lnot 0)
  else u64 ((tv_sec end_ - tv_sec start) * ONE_SECOND + (tv_usec end_ - tv_usec start)).

Definition timeval_delta_valid (start end_ : timeval) : Z :=
  if tv_sec start <? tv_sec end_ then 1
  else if (tv_sec end_ =? tv_sec start) && (tv_usec start <=? tv_usec end_) then 1
  else 0.

(** The [timersub] macro of the C library. *)
Definition timersub (a b : timeval) : timeval :=
  let sec := tv_sec a - tv_sec b in
  let usec := tv_usec a - tv_usec b in
  if usec <? 0 then {| tv_sec := sec - 1; tv_usec := usec + 1000000 |}
  else {| tv_sec := sec; tv_usec := usec |}.

(** Without the macro. *)
Definition delta_branches (start end_ : timeval) : timeval :=
  if tv_usec end_ <? tv_usec start then
    {| tv_sec := tv_sec end_ - 1 - tv_sec start; tv_usec := tv_usec end_ + ONE_SECOND - tv_usec start |}
  else {| tv_sec := tv_sec end_ - tv_sec start; tv_usec := tv_usec end_ - tv_usec start |}.

(** A pointer that is NULL is [None]; the result and what [delta] points to.
    [macro] says that there is a timersub. *)
Definition timeval_delta (macro : bool) (start end_ delta : option timeval) : Z * option timeval :=
  match start, end_, delta with
  | Some start, Some end_, Some d =>
      if timeval_delta_valid start end_ =? 0 then (EINVAL, delta)
      else (0, Some (if macro then timersub end_ start else delta_branches start end_))
  | _, _, _ => (EINVAL, delta)
  end.

Definition timeval_delta2 (macro : bool) (t1 t2 delta : option timeval) : Z * option timeval :=
  let '(rc, delta) := timeval_delta macro t1 t2 delta in
  if negb (rc =? 0) then timeval_delta macro t2 t1 delta else (rc, delta).

(** ** Microseconds *)

Definition normal (t : timeval) : Prop := 0 <= tv_usec t < ONE_SECOND.
Definition to_us (t : timeval) : Z := tv_sec t * ONE_SECOND + tv_usec t.

Lemma timeval_delta_valid_spec s e :
  normal s -> normal e -> timeval_delta_valid s e = if to_us s <=? to_us e then 1 else 0.
Proof.
  unfold normal, timeval_delta_valid, to_us, ONE_SECOND. intros Hs He.
  destruct (Z.ltb_spec (tv_sec s) (tv_sec e)), (Z.eqb_spec (tv_sec e) (tv_sec s)),
    (Z.leb_spec (tv_usec s) (tv_usec e)), (Z.leb_spec (tv_sec s * 1000000 + tv_usec s)
      (tv_sec e * 1000000 + tv_usec e)); cbn; lia.
Qed.

Lemma timersub_branches s e : timersub e s = delta_branches s e.
Proof.
  unfold timersub, delta_branches, ONE_SECOND.
  destruct (Z.ltb_spec (tv_usec e - tv_usec s) 0), (Z.ltb_spec (tv_usec e) (tv_usec s)); try lia;
    f_equal; lia.
Qed.

Lemma delta_branches_spec s e :
  normal s -> normal e -> normal (delta_branches s e) /\ to_us (delta_branches s e) = to_us e - to_us s.
Proof.
  unfold normal, delta_branches, to_us, ONE_SECOND. intros Hs He.
  destruct (Z.ltb_spec (tv_usec e) (tv_usec s)); cbn; lia.
Qed.

(** Differences of times, in microseconds: delta_timeval is the difference of
    two normalised times, or all ones when the end is before the start (and only then,
    for differences that fit in 64 bits); timeval_delta stores a normalised time that
    is the difference, with or without the timersub macro, and gives EINVAL and
    stores nothing when the end is before the start or a pointer is NULL;
    timeval_delta2 stores the distance in either order; and get_month names the
    twelve months, counted from 0 or from 1, and nothing else. *)
Theorem time_deltas (s e d : timeval) (macro : bool) (month long_months : Z) :
  normal s -> normal e -> to_us e - to_us s < 2 ^ 64 - 1 -> 0 <= month < 2 ^ 32 ->
  delta_timeval s e = (if to_us s <=? to_us e then to_us e - to_us s else 2 ^ 64 - 1) /\
  (exists r, normal r /\ to_us r = to_us e - to_us s /\
     timeval_delta macro (Some s) (Some e) (Some d) =
       if to_us s <=? to_us e then (0, Some r) else (EINVAL, Some d)) /\
  (exists r, normal r /\ to_us r = Z.abs (to_us e - to_us s) /\
     timeval_delta2 macro (Some s) (Some e) (Some d) = (0, Some r)) /\
  timeval_delta macro None (Some e) (Some d) = (EINVAL, Some d) /\
  (get_month 0 month long_months = "???"%string <-> 12 <= month) /\
  (get_month 1 month long_months = "???"%string <-> month = 0 \/ 13 <= month) /\
  (1 <= month < 2 ^ 32 -> get_month 1 month long_months = get_month 0 (month - 1) long_months).
Proof.
  intros Hs He Hfit Hm.
  assert (D : forall s e, normal s -> normal e -> exists r, normal r /\ to_us r = to_us e - to_us s /\
     timeval_delta macro (Some s) (Some e) (Some d) =
       if to_us s <=? to_us e then (0, Some r) else (EINVAL, Some d)).
  { clear. intros s e Hs He. exists (delta_branches s e).
    destruct (delta_branches_spec s e Hs He) as [H1 H2]. split; [done|]. split; [done|].
    unfold timeval_delta. rewrite timeval_delta_valid_spec by done.
    destruct (to_us s <=? to_us e); [|done]. cbn. by destruct macro; rewrite ?timersub_branches. }
  assert (G0 : forall month, 0 <= month -> get_month 0 month long_months = "???"%string <-> 12 <= month).
  { clear. intros month Hm. unfold get_month. cbn [Z.eqb negb].
    destruct (Z.ltb_spec 11 month) as [|H]; [split; [lia|done]|]. split; [|lia]. intros E. exfalso.
    assert (Hc : month = 0 \/ month = 1 \/ month = 2 \/ month = 3 \/ month = 4 \/ month = 5 \/ month = 6
      \/ month = 7 \/ month = 8 \/ month = 9 \/ month = 10 \/ month = 11) by lia.
    destruct (negb (long_months =? 0)); repeat (destruct Hc as [-> | Hc]; [done|]); by subst month. }
  assert (G1 : 1 <= month < 2 ^ 32 -> get_month 1 month long_months = get_month 0 (month - 1) long_months).
  { intros Hm1. unfold get_month. cbn [Z.eqb Pos.eqb negb]. rewrite u32_id by (unfold fits; lia). done. }
  split; [|split; [by apply D|split; [|split; [done|split; [apply G0; lia|split; [|done]]]]]].
  - unfold delta_timeval, normal, to_us, ONE_SECOND in *.
    destruct (Z.ltb_spec (tv_usec e) (tv_usec s)), (Z.eqb_spec (tv_sec s) (tv_sec e - 1)),
      (Z.ltb_spec (tv_sec e - 1) (tv_sec s)), (Z.eqb_spec (tv_sec s) (tv_sec e)),
      (Z.ltb_spec (tv_sec e) (tv_sec s)),
      (Z.leb_spec (tv_sec s * 1000000 + tv_usec s) (tv_sec e * 1000000 + tv_usec e)); try lia;
      try (rewrite u64_id by (unfold fits; lia); lia); done.
  - unfold timeval_delta2. destruct (D s e Hs He) as (r & Hr & Er & E). rewrite E.
    destruct (Z.leb_spec (to_us s) (to_us e)); cbn [Z.eqb negb].
    + exists r. split; [done|]. split; [lia|done].
    + destruct (D e s He Hs) as (r' & Hr' & Er' & E'). change (negb (EINVAL =? 0)) with true.
      cbv iota. rewrite E'.
      rewrite (proj2 (Z.leb_le _ _)) by lia. exists r'. split; [done|]. split; [lia|done].
  - destruct (decide (month = 0)) as [->|Hne].
    + split; [by left|]. intros _. reflexivity.
    + rewrite G1, G0 by lia. lia.
Qed.

Lemma time_deltas_witness :
  delta_timeval (Build_timeval 5 900000) (Build_timeval 7 100000) = 1200000 /\
  (exists r, normal r /\ to_us r = 1200000 /\
     timeval_delta2 true (Some (Build_timeval 7 100000)) (Some (Build_timeval 5 900000))
       (Some (Build_timeval 0 0)) = (0, Some r)).
Proof.
  assert (H1 : normal (Build_timeval 5 900000)) by (unfold normal, ONE_SECOND; cbn; lia).
  assert (H2 : normal (Build_timeval 7 100000)) by (unfold normal, ONE_SECOND; cbn; lia).
  split.
  - exact (proj1 (time_deltas (Build_timeval 5 900000) (Build_timeval 7 100000) (Build_timeval 0 0)
      true 0 0 H1 H2 eq_refl (conj (Z.le_refl 0) eq_refl))).
  - exact (proj1 (proj2 (proj2 (time_deltas (Build_timeval 7 100000) (Build_timeval 5 900000)
      (Build_timeval 0 0) true 0 0 H2 H1 eq_refl (conj (Z.le_refl 0) eq_refl))))).
Defined.

End Time.
