(* ===== verification/Threads.v ===== *)
(** The light threads of Linux (samthread.c): samthread_create with the results of
    its system calls, and the end of a thread against samthread_join as
    interleavings of their accesses to the block at the bottom of the stack. *)

From S2P Require Import Prelude.

Module Threads.

(** ** The block of a thread and its memory *)

Record athread := { tid : Z; stack_size : Z; rc : Z }.

(** Mapped regions: their addresses and lengths. *)
Definition regions : Type := list (Z * Z).

(** [munmap] of the beginning of a region; a length that is not positive is an
    error. *)
Fixpoint munmap (addr len : Z) (mem : regions) : regions :=
  match mem with
  | [] => []
  | (a, n) :: mem =>
      if (a =? addr) && (0 <? len)
      then if len <? n then (a + len, n - len) :: mem else mem
      else (a, n) :: munmap addr len mem
  end.

(** ** samthread_create *)

(** A system call: its value, or an error number. *)
Inductive reply := Value (v : Z) | Failed (errno : Z).

(** The result, errno, the regions, and the block of the thread that runs. *)
Definition samthread_create (fn : bool) (getrlimit mmap clone : reply) (errno : Z) (mem : regions) :
    Z * Z * regions * option athread :=
  if negb fn then (-1, EINVAL, mem, None)
  else
    match getrlimit with
    | Failed e => (-1, e, mem, None)
    | Value rlim_cur =>
        match mmap with
        | Failed e => (-1, e, mem, None)
        | Value stack =>
            let mem := (stack, rlim_cur) :: mem in
            let f := {| tid := 1; stack_size := s32 rlim_cur; rc := -1 |} in
            match clone with
            | Failed saved => (-1, saved, munmap stack rlim_cur mem, None)
            | Value _ => (stack, errno, mem, Some f)
            end
        end
    end.

(** ** The end of a thread and samthread_join *)

(** The thread is in its function, before [f->rc = ...], before [f->tid = 0],
    before the wake, before the exit; it has gone. *)
Inductive child_pc := CFn | CRc | CTid | CWake | CExit | CGone.

(** The joiner is outside, before the futex call, asleep in it, before it reads
    [f->rc], before [munmap]; it has returned. *)
Inductive join_pc := JOut | JWait | JAsleep | JRead | JUnmap (rc : Z) | JDone (rc : Z).

Record state := { block : athread; mapped : bool; child : child_pc; joiner : join_pc }.

Definition set_rc (f : athread) (r : Z) : athread := {| tid := tid f; stack_size := stack_size f; rc := r |}.
Definition set_tid (f : athread) (t : Z) : athread := {| tid := t; stack_size := stack_size f; rc := rc f |}.

Definition wake (j : join_pc) : join_pc := match j with JAsleep => JRead | j => j end.

Section interleavings.

(** What the function returns, the argument of samthread_join, and whether a
    private wake reaches a sleeper that did not ask for a private wait. *)
Context (result handle : Z) (private_wakes : bool).

(** A turn of the thread: its stack must be mapped.  The kernel clears [tid] and
    wakes the sleepers at the exit (CLONE_CHILD_CLEARTID). *)
Definition child_turn (s : state) : outcome state :=
  match child s with
  | CGone => Ret s
  | pc =>
      if mapped s then
        Ret match pc with
            | CFn => {| block := block s; mapped := true; child := CRc; joiner := joiner s |}
            | CRc => {| block := set_rc (block s) result; mapped := true; child := CTid; joiner := joiner s |}
            | CTid => {| block := set_tid (block s) 0; mapped := true; child := CWake; joiner := joiner s |}
            | CWake => {| block := block s; mapped := true; child := CExit;
                          joiner := if private_wakes then wake (joiner s) else joiner s |}
            | _ => {| block := set_tid (block s) 0; mapped := true; child := CGone; joiner := wake (joiner s) |}
            end
      else Fault
  end.

(** A turn of the joiner: it reads the block in the futex call and after it. *)
Definition join_turn (s : state) : outcome state :=
  let to j := {| block := block s; mapped := mapped s; child := child s; joiner := j |} in
  match joiner s with
  | JOut => Ret (to (if handle =? -1 then JDone (-1) else JWait))
  | JWait => if mapped s then Ret (to (if tid (block s) =? 1 then JAsleep else JRead)) else Fault
  | JAsleep => Ret s
  | JRead => if mapped s then Ret (to (JUnmap (rc (block s)))) else Fault
  | JUnmap r => Ret {| block := block s; mapped := negb (0 <? stack_size (block s)) && mapped s; child := child s; joiner := JDone r |}
  | JDone _ => Ret s
  end.

(** Who moves next; a signal ends the wait of a joiner that sleeps. *)
Inductive move := Child | Joiner | Signal.

Definition turn (m : move) (s : state) : outcome state :=
  match m with
  | Child => child_turn s
  | Joiner => join_turn s
  | Signal => Ret {| block := block s; mapped := mapped s; child := child s; joiner := wake (joiner s) |}
  end.

Fixpoint run (ms : list move) (s : state) : outcome state :=
  match ms with
  | [] => Ret s
  | m :: ms => s ← turn m s; run ms s
  end.

End interleavings.

(** A thread after samthread_create. *)
Definition created (f : athread) : state := {| block := f; mapped := true; child := CFn; joiner := JOut |}.

(** ** Invariants *)

Section proofs.
Context (result handle : Z) (private_wakes : bool).
Hypothesis handle_ok : handle <> -1.

(** The thread has stored its result, and its block says so. *)
Definition finished (s : state) : Prop :=
  match child s with CFn | CRc | CTid => False | _ => tid (block s) = 0 /\ rc (block s) = result end.

(** Without signals: [tid] is 1 until the thread clears it; a joiner past its wait
    follows a thread that has finished; a joiner asleep has a thread to wake it. *)
Record inv (s : state) : Prop := {
  inv_tid : tid (block s) = match child s with CFn | CRc | CTid => 1 | _ => 0 end;
  inv_rc : match child s with CFn | CRc => True | _ => rc (block s) = result end;
  inv_joiner : match joiner s with
               | JRead => finished s
               | JUnmap r | JDone r => finished s /\ r = result
               | JAsleep => child s <> CGone
               | _ => True
               end;
  inv_mapped : match joiner s with JDone _ => True | _ => mapped s = true end;
}.

Lemma created_inv f : tid f = 1 -> inv (created f).
Proof. by split. Qed.

Lemma turn_inv m s s' : m <> Signal -> inv s -> turn result handle private_wakes m s = Ret s' -> inv s'.
Proof.
  intros Hm [Ht Hr Hj Hp] E. destruct m; [| |done]; cbn in E.
  - unfold child_turn in E. destruct s as [f mp c j]; cbn in *.
    destruct c; (destruct mp; [|discriminate || (injection E as <-; by split)]); injection E as <-;
      split; cbn in *; try done; destruct private_wakes; destruct j; cbn in *; unfold finished in *; cbn in *; tauto || done.
  - unfold join_turn in E. destruct s as [f mp c j]; cbn in *. destruct j; cbn in E.
    + rewrite (proj2 (Z.eqb_neq _ _) handle_ok) in E. injection E as <-. by split.
    + subst mp. injection E as <-. split; [done|done| |by destruct (tid f =? 1)]. cbn.
      destruct c; rewrite Ht; cbn; try done; by split.
    + by injection E as <-.
    + subst mp. injection E as <-. split; [done|done| |done]. cbn. split; [done|].
      unfold finished in Hj. cbn in Hj. by destruct c; try done; destruct Hj.
    + injection E as <-. by split.
    + by injection E as <-.
Qed.

Lemma run_inv ms s s' :
  Forall (fun m => m <> Signal) ms -> inv s -> run result handle private_wakes ms s = Ret s' -> inv s'.
Proof.
  revert s. induction ms as [|m ms IH]; intros s Hms Hi E; [by injection E as <-|].
  apply Forall_cons in Hms as [Hm Hms]. cbn in E.
  destruct (turn result handle private_wakes m s) as [s1| |] eqn:E1; try discriminate. cbn in E.
  eapply IH; [done| |exact E]. by eapply turn_inv.
Qed.

(** A joiner that slept before the thread ended, where only the kernel wakes it. *)
Definition waited (s : state) : Prop :=
  match joiner s with
  | JAsleep => mapped s = true
  | JRead | JUnmap _ => mapped s = true /\ child s = CGone
  | JDone _ => child s = CGone
  | _ => False
  end.

Lemma turn_waited m s :
  private_wakes = false -> m <> Signal -> waited s ->
  exists s', turn result handle private_wakes m s = Ret s' /\ waited s'.
Proof.
  intros -> Hm Hw. destruct m; [| |done]; cbn; destruct s as [f mp c j]; unfold waited in *; cbn in *.
  - unfold child_turn. cbn. destruct j; try done; cbn in *.
    + subst mp. destruct c; eexists; (split; [done|done]).
    + destruct Hw as [-> ->]. eexists. by split.
    + destruct Hw as [-> ->]. eexists. by split.
    + subst c. eexists. by split.
  - unfold join_turn. cbn. destruct j; try done; cbn in *.
    + eexists. by split.
    + destruct Hw as [-> ->]. eexists. by split.
    + destruct Hw as [-> ->]. eexists. by split.
    + eexists. by split.
Qed.

Lemma run_waited ms s :
  private_wakes = false -> Forall (fun m => m <> Signal) ms -> waited s ->
  exists s', run result handle private_wakes ms s = Ret s' /\ waited s'.
Proof.
  intros Hp. revert s. induction ms as [|m ms IH]; intros s Hms Hw; [by exists s|].
  apply Forall_cons in Hms as [Hm Hms]. destruct (turn_waited m s Hp Hm Hw) as (s1 & E & Hw1).
  cbn. rewrite E. by apply IH.
Qed.

(** Without signals a turn faults only for a thread whose joiner has returned. *)
Lemma asleep_waited s : inv s -> joiner s = JAsleep -> waited s.
Proof. intros [_ _ _ Hp] E. unfold waited. by rewrite E in *. Qed.

End proofs.

Lemma munmap_first addr len mem : 0 < len -> munmap addr len ((addr, len) :: mem) = mem.
Proof. intros H. cbn. by rewrite Z.eqb_refl, (proj2 (Z.ltb_lt _ _) H), Z.ltb_irrefl. Qed.

(** ** Properties *)

(** C38: samthread_join, over all interleavings with the thread: without signals the
    value it returns is the one of the function, and it sleeps only while the
    thread is there to end its wait.  When it slept before the thread ended, and
    only the kernel wakes it at the exit (the wake of samthread_func is private,
    the wait is not), no access finds the stack unmapped, and after the turns of
    the thread it returns.  But when the thread has just cleared [tid] the join
    unmaps the stack under the thread, and so it does after a signal, with -1 for
    a thread that still runs. *)
Theorem samthread_join_correct (result handle : Z) (f : athread) :
  handle <> -1 -> tid f = 1 -> 0 < stack_size f ->
  (forall private_wakes ms s, Forall (fun m => m <> Signal) ms ->
     run result handle private_wakes ms (created f) = Ret s ->
     match joiner s with
     | JUnmap r | JDone r => r = result
     | JAsleep => child s <> CGone
     | _ => True
     end /\
     (private_wakes = false -> joiner s = JAsleep ->
      (forall ms', Forall (fun m => m <> Signal) ms' ->
         exists s', run result handle private_wakes ms' s = Ret s') /\
      exists s', run result handle private_wakes [Child; Child; Child; Child; Child; Joiner; Joiner] s = Ret s' /\
        joiner s' = JDone result)) /\
  (forall private_wakes,
     run result handle private_wakes
       [Child; Child; Child; Joiner; Joiner; Joiner; Joiner; Child] (created f) = Fault) /\
  (forall private_wakes, exists s,
     run result handle private_wakes [Joiner; Joiner; Signal; Joiner; Joiner] (created f) = Ret s /\
     joiner s = JDone (rc f) /\ child s = CFn /\
     run result handle private_wakes [Child] s = Fault) /\
  (forall private_wakes s, joiner s = JOut ->
     exists s', run result (-1) private_wakes [Joiner] s = Ret s' /\ joiner s' = JDone (-1)).
Proof.
  intros Hh Ht Hs. split; [|split; [|split]].
  - intros pw ms s Hms E. assert (Hi : inv result s) by (eapply run_inv; [done|done|by apply created_inv|exact E]).
    split.
    { pose proof (inv_joiner _ _ Hi) as Hj. destruct (joiner s); try done; by destruct Hj. }
    intros -> Hj. split.
    + intros ms' Hms'. destruct (run_waited result handle false ms' s) as (s' & E' & _); [done|done| |by exists s'].
      by eapply asleep_waited.
    + destruct Hi as [Hit Hir Hij Him]. destruct s as [g mp c j]. cbn in *. subst j. subst mp.
      destruct c; try done; (eexists; split; [reflexivity|]; cbn in *; by rewrite ?Hir).
  - intros pw. unfold run, turn, join_turn. cbn. rewrite (proj2 (Z.eqb_neq _ _) Hh). cbn.
    by rewrite (proj2 (Z.ltb_lt _ _) Hs).
  - intros pw. eexists. unfold run, turn, join_turn. cbn. rewrite (proj2 (Z.eqb_neq _ _) Hh). cbn.
    rewrite Ht. cbn. rewrite (proj2 (Z.ltb_lt _ _) Hs). by split.
  - intros pw s Hj. unfold run, turn, join_turn. rewrite Hj. cbn. eexists. by split.
Qed.

Lemma samthread_join_correct_witness :
  exists s', run 7 4096 false [Child; Child; Child; Child; Child; Joiner; Joiner]
    {| block := {| tid := 1; stack_size := 8192; rc := -1 |}; mapped := true; child := CFn; joiner := JAsleep |} = Ret s' /\
    joiner s' = JDone 7.
Proof.
  assert (H1 : 4096 <> -1) by done. assert (H2 : 0 < 8192) by done.
  destruct (samthread_join_correct 7 4096 {| tid := 1; stack_size := 8192; rc := -1 |} H1 eq_refl H2) as (H & _).
  destruct (H false [Joiner; Joiner]
    {| block := {| tid := 1; stack_size := 8192; rc := -1 |}; mapped := true; child := CFn; joiner := JAsleep |})
    as (_ & Hw).
  - by repeat constructor.
  - reflexivity.
  - by destruct (Hw eq_refl eq_refl) as (_ & ?).
Defined.

(** samthread_create: without a function EINVAL; when a call fails, -1 with its
    error number, and no region more than before; else the thread, with its stack
    mapped.  A stack of 2^31 bytes or more is unmapped with the wrong length: of
    2^32 bytes, not at all. *)
Theorem samthread_create_correct getrlimit mmap clone errno mem :
  samthread_create false getrlimit mmap clone errno mem = (-1, EINVAL, mem, None) /\
  (forall e, samthread_create true (Failed e) mmap clone errno mem = (-1, e, mem, None)) /\
  (forall n e, samthread_create true (Value n) (Failed e) clone errno mem = (-1, e, mem, None)) /\
  (forall n stack e, 0 < n ->
     samthread_create true (Value n) (Value stack) (Failed e) errno mem = (-1, e, mem, None)) /\
  (forall n stack pid, 0 < n < 2 ^ 31 -> exists f,
     samthread_create true (Value n) (Value stack) (Value pid) errno mem =
       (stack, errno, (stack, n) :: mem, Some f) /\
     tid f = 1 /\ munmap stack (stack_size f) ((stack, n) :: mem) = mem) /\
  (forall stack pid, exists f,
     samthread_create true (Value (2 ^ 32)) (Value stack) (Value pid) errno mem =
       (stack, errno, (stack, 2 ^ 32) :: mem, Some f) /\
     (Forall (fun r => fst r <> stack) mem ->
      munmap stack (stack_size f) ((stack, 2 ^ 32) :: mem) = (stack, 2 ^ 32) :: mem)).
Proof.
  split; [done|]. split; [done|]. split; [done|]. split; [|split].
  - intros n stack e Hn. unfold samthread_create. cbn [negb]. by rewrite munmap_first.
  - intros n stack pid Hn. eexists. split; [done|]. split; [done|]. cbn [stack_size].
    replace (s32 n) with n; [apply munmap_first; lia|]. unfold s32. rewrite Z.mod_small; lia.
  - intros stack pid. eexists. split; [done|]. intros Hm. cbn. rewrite Z.eqb_refl. cbn. f_equal.
    induction Hm as [|[a n] mem Ha Hm IH]; [done|]. cbn in *. rewrite (proj2 (Z.eqb_neq _ _) Ha). cbn. by rewrite IH.
Qed.

End Threads.
