(* ===== verification/Socket.v ===== *)
(** The socket functions (socket.c) over a table of descriptors: which descriptors
    each leaves open, whatever calls fail, and how the one it returns is set up. *)

From S2P Require Import Prelude.
From stdpp Require Import gmap fin_maps.

#[local] Open Scope Z_scope.

Module Socket.

Definition SOCK_NONBLOCKING : Z := 1.
Definition SOCK_LOCAL : Z := 2.
Definition BACKLOG : Z := 10.
(** The flag of socket(2) that socket_accept tests (Linux). *)
Definition SOCK_NONBLOCK : Z := 2048.
Definition EINPROGRESS : Z := 115.
Definition EAGAIN : Z := 11.

(** ** The system *)

Record sock := {
  nonblock : bool;
  reuseaddr : bool;
  nodelay : bool;
  bound : option (Z * Z);     (** address and port *)
  backlog : option Z;         (** of a socket that listens *)
  peer : option Z;            (** the address it is connected, or connecting, to *)
}.

Definition new_sock : sock :=
  {| nonblock := false; reuseaddr := false; nodelay := false; bound := None; backlog := None; peer := None |}.

Definition put_nonblock (s : sock) : sock :=
  {| nonblock := true; reuseaddr := reuseaddr s; nodelay := nodelay s; bound := bound s;
     backlog := backlog s; peer := peer s |}.
Definition put_reuseaddr (s : sock) : sock :=
  {| nonblock := nonblock s; reuseaddr := true; nodelay := nodelay s; bound := bound s;
     backlog := backlog s; peer := peer s |}.
Definition put_nodelay (s : sock) : sock :=
  {| nonblock := nonblock s; reuseaddr := reuseaddr s; nodelay := true; bound := bound s;
     backlog := backlog s; peer := peer s |}.
Definition put_bound (a p : Z) (s : sock) : sock :=
  {| nonblock := nonblock s; reuseaddr := reuseaddr s; nodelay := nodelay s; bound := Some (a, p);
     backlog := backlog s; peer := peer s |}.
Definition put_backlog (b : Z) (s : sock) : sock :=
  {| nonblock := nonblock s; reuseaddr := reuseaddr s; nodelay := nodelay s; bound := bound s;
     backlog := Some b; peer := peer s |}.
Definition put_peer (a : Z) (s : sock) : sock :=
  {| nonblock := nonblock s; reuseaddr := reuseaddr s; nodelay := nodelay s; bound := bound s;
     backlog := backlog s; peer := Some a |}.

(** The open sockets; how the next calls end ([Some e] is a failure with that error
    number; after those, calls work); errno. *)
Record net := { socks : gmap nat sock; fails : list (option Z); errno : Z }.

Definition put_socks (n : net) (m : gmap nat sock) : net := {| socks := m; fails := fails n; errno := errno n |}.

(** The next call: whether it works. *)
Definition call (n : net) : bool * net :=
  match fails n with
  | [] => (true, n)
  | None :: fs => (true, {| socks := socks n; fails := fs; errno := errno n |})
  | Some e :: fs => (false, {| socks := socks n; fails := fs; errno := e |})
  end.

(** A call that opens a descriptor which was not open. *)
Definition open_call (s : sock) (n : net) : option nat * net :=
  match call n with
  | (true, n) => let fd := fresh (dom (socks n)) in (Some fd, put_socks n (<[fd := s]> (socks n)))
  | (false, n) => (None, n)
  end.

(** A call that changes a socket when it works. *)
Definition sock_call (fd : nat) (f : sock -> sock) (n : net) : bool * net :=
  match call n with
  | (true, n) => (true, put_socks n (alter f fd (socks n)))
  | (false, n) => (false, n)
  end.

Definition close (fd : nat) (n : net) : net := put_socks n (delete fd (socks n)).

(** ** Operations (socket.c) *)

Definition set_nonblocking (sock : nat) (n : net) : Z * net :=
  match call n with
  | (false, n) => (-1, close sock n)
  | (true, n) =>
      match sock_call sock put_nonblock n with
      | (false, n) => (-1, close sock n)
      | (true, n) => (Z.of_nat sock, n)
      end
  end.

(** [a || b || c] of calls that return -1. *)
Definition all_work (calls : list (net -> bool * net)) (n : net) : bool * net :=
  fold_left (fun r f => match r with (true, n) => f n | r => r end) calls (true, n).

Definition socket_listen (port flags : Z) (n : net) : Z * net :=
  let addr := if Z.land flags SOCK_LOCAL =? 0 then 0 else 0x7f000001 in
  match open_call new_sock n with
  | (None, n) => (-1, n)
  | (Some s, n) =>
      match all_work [sock_call s put_reuseaddr; sock_call s (put_bound addr (u16 port));
                      sock_call s (put_backlog BACKLOG)] n with
      | (false, n) => (-1, close s n)
      | (true, n) => if Z.land flags SOCK_NONBLOCKING =? 0 then (Z.of_nat s, n) else set_nonblocking s n
      end
  end.

(** [accept] gives a socket connected to [from]; [ip] is the text it writes when
    it has where to. *)
Definition socket_accept (inet_ntoa : Z -> list Z) (from : Z) (ip : option (list Z)) (flags : Z) (n : net) :
    Z * option (list Z) * net :=
  match open_call (put_peer from new_sock) n with
  | (None, n) => (-1, ip, n)
  | (Some new, n) =>
      let ip := match ip with Some _ => Some (inet_ntoa from) | None => None end in
      let '(_, n) := sock_call new put_nodelay n in
      if Z.land flags SOCK_NONBLOCK =? 0 then (Z.of_nat new, ip, n)
      else let '(r, n) := set_nonblocking new n in (r, ip, n)
  end.

(** [*deferred] is set where the result is a socket. *)
Definition try_connect (addr flags : Z) (n : net) : Z * option bool * net :=
  match open_call new_sock n with
  | (None, n) => (-1, None, n)
  | (Some sock, n) =>
      if Z.land flags SOCK_NONBLOCKING =? 0 then
        match sock_call sock (put_peer addr) n with
        | (true, n) => (Z.of_nat sock, Some false, n)
        | (false, n) => (-1, None, close sock n)
        end
      else
        match set_nonblocking sock n with
        | (r, n) =>
            if r =? -1 then (-1, None, n)
            else
              match sock_call sock (put_peer addr) n with
              | (true, n) => (Z.of_nat sock, Some false, n)
              | (false, n) =>
                  if (errno n =? EINPROGRESS) || (errno n =? EAGAIN)
                  then (Z.of_nat sock, Some true, put_socks n (alter (put_peer addr) sock (socks n)))
                  else (-1, None, close sock n)
              end
        end
  end.

Fixpoint connect_loop (result : list Z) (flags : Z) (n : net) : Z * net :=
  match result with
  | [] => (-1, n)
  | r :: result =>
      let '(sock, _, n) := try_connect r flags n in
      if 0 <=? sock then (sock, n) else connect_loop result flags n
  end.

(** [getaddrinfo] gives the addresses, in order. *)
Definition socket_connect (getaddrinfo : option (list Z)) (flags : Z) (n : net) : Z * net :=
  match getaddrinfo with
  | None => (-1, n)
  | Some result => connect_loop result flags n
  end.

(** ** Which descriptors are open *)

(** A function left no descriptor open but the one it returns, which satisfies [P]. *)
Definition opens (P : sock -> Prop) (n : net) (r : Z) (n' : net) : Prop :=
  (r = -1 /\ socks n' = socks n) \/
  (exists fd s, r = Z.of_nat fd /\ socks n !! fd = None /\ socks n' = <[fd := s]> (socks n) /\ P s).

(** [fd] is the descriptor that the function opened, and is [s] now. *)
Definition has_opened (n : net) (fd : nat) (s : sock) (n' : net) : Prop :=
  socks n !! fd = None /\ socks n' = <[fd := s]> (socks n).

Lemma call_socks n : socks (snd (call n)) = socks n.
Proof. unfold call. by destruct (fails n) as [|[|]]. Qed.

Lemma net_call_works n : fails n = [] -> call n = (true, n).
Proof. intros E. unfold call. by rewrite E. Qed.

Lemma open_call_spec s n :
  match open_call s n with
  | (None, n') => socks n' = socks n /\ fails n <> []
  | (Some fd, n') => has_opened n fd s n' /\ (fails n = [] -> fails n' = [])
  end.
Proof.
  unfold open_call. pose proof (call_socks n) as Hs. pose proof (net_call_works n) as Hw.
  destruct (call n) as [[] n1]; cbn in *.
  - split; [split|].
    + apply not_elem_of_dom. rewrite Hs. apply is_fresh.
    + by rewrite Hs.
    + intros E. specialize (Hw E). by injection Hw as ->.
  - split; [done|]. intros E. by specialize (Hw E).
Qed.

Lemma sock_call_spec n fd s f n1 :
  has_opened n fd s n1 ->
  let '(ok, n2) := sock_call fd f n1 in
  has_opened n fd (if ok then f s else s) n2 /\ (fails n1 = [] -> ok = true /\ fails n2 = []).
Proof.
  intros [Hn Hs]. unfold sock_call. pose proof (call_socks n1) as Hc. pose proof (net_call_works n1) as Hw.
  destruct (call n1) as [[] n2]; cbn in *; (split; [split; [done|]|]).
  - cbn. by rewrite Hc, Hs, alter_insert_eq.
  - intros E. specialize (Hw E). by injection Hw as ->.
  - by rewrite Hc.
  - intros E. by specialize (Hw E).
Qed.

Lemma has_opened_same n fd s n1 n2 : has_opened n fd s n1 -> socks n2 = socks n1 -> has_opened n fd s n2.
Proof. intros [Hn Hs] E. split; [done|]. by rewrite E. Qed.

Lemma close_opened n fd s n1 : has_opened n fd s n1 -> socks (close fd n1) = socks n.
Proof. intros [Hn Hs]. cbn. rewrite Hs. by apply delete_insert_id. Qed.

Lemma set_nonblocking_spec n fd s n1 :
  has_opened n fd s n1 ->
  let '(r, n2) := set_nonblocking fd n1 in
  (r = -1 /\ socks n2 = socks n \/ r = Z.of_nat fd /\ has_opened n fd (put_nonblock s) n2) /\
  (fails n1 = [] -> r = Z.of_nat fd /\ fails n2 = []).
Proof.
  intros H. unfold set_nonblocking. pose proof (call_socks n1) as Hc. pose proof (net_call_works n1) as Hw.
  destruct (call n1) as [[] n2]; cbn in Hc.
  - assert (H2 : has_opened n fd s n2) by by eapply has_opened_same.
    pose proof (sock_call_spec n fd s put_nonblock n2 H2) as Hs.
    destruct (sock_call fd put_nonblock n2) as [[] n3]; destruct Hs as [Hs Hf].
    + split; [by right|]. intros E. split; [done|]. specialize (Hw E). injection Hw as ->. by apply Hf.
    + split; [left; split; [done|by eapply close_opened]|].
      intros E. specialize (Hw E). injection Hw as ->. by destruct (Hf E).
  - split; [left; split; [done|]|].
    + eapply close_opened. by eapply has_opened_same.
    + intros E. by specialize (Hw E).
Qed.

Lemma all_work_false (calls : list (net -> bool * net)) n :
  fold_left (fun r f => match r with (true, n) => f n | r => r end) calls (false, n) = (false, n).
Proof. induction calls as [|f calls IH]; [done|]. apply IH. Qed.

(** Calls on the descriptor, in a row. *)
Lemma all_work_spec fs n fd s n1 :
  has_opened n fd s n1 ->
  let '(ok, n2) := all_work (map (sock_call fd) fs) n1 in
  (exists s', has_opened n fd s' n2 /\ (ok = true -> s' = fold_left (fun s f => f s) fs s)) /\
  (fails n1 = [] -> ok = true /\ fails n2 = []).
Proof.
  unfold all_work. revert s n1. induction fs as [|f fs IH]; intros s n1 H; cbn [map fold_left].
  { split; [by exists s|done]. }
  pose proof (sock_call_spec n fd s f n1 H) as Hs.
  destruct (sock_call fd f n1) as [[] n2]; destruct Hs as [Hs Hf].
  - specialize (IH _ _ Hs). destruct (fold_left _ (map (sock_call fd) fs) (true, n2)) as [ok n3].
    destruct IH as [H1 H2]. split; [done|]. intros E. apply H2. by apply Hf.
  - rewrite all_work_false. split; [by exists s|]. intros E. by destruct (Hf E).
Qed.

Lemma opened_opens (P : sock -> Prop) n fd s n' : has_opened n fd s n' -> P s -> opens P n (Z.of_nat fd) n'.
Proof. intros [Hn Hs] HP. right. by exists fd, s. Qed.

Lemma set_nonblocking_opens (P : sock -> Prop) n fd s n1 :
  has_opened n fd s n1 -> P (put_nonblock s) ->
  let '(r, n2) := set_nonblocking fd n1 in opens P n r n2 /\ (fails n1 = [] -> r <> -1).
Proof.
  intros H HP. pose proof (set_nonblocking_spec n fd s n1 H) as Hs.
  destruct (set_nonblocking fd n1) as [r n2]. destruct Hs as [[[-> Hs]|[-> Hs]] Hf].
  - split; [by left|]. intros E. destruct (Hf E). lia.
  - split; [by eapply opened_opens|lia].
Qed.

Lemma try_connect_spec a flags n :
  let P s := peer s = Some a /\ nonblock s = negb (Z.land flags SOCK_NONBLOCKING =? 0) in
  let '(r, d, n') := try_connect a flags n in
  opens P n r n' /\ (fails n = [] -> r <> -1) /\ (r = -1 <-> d = None).
Proof.
  intros P. unfold try_connect. pose proof (open_call_spec new_sock n) as Ho.
  destruct (open_call new_sock n) as [[fd|] n1].
  2:{ destruct Ho as [Ho Hf]. split; [by left|]. by split. }
  destruct Ho as [Ho Hf]. destruct (Z.land flags SOCK_NONBLOCKING =? 0) eqn:Ef.
  - pose proof (sock_call_spec n fd new_sock (put_peer a) n1 Ho) as Hs.
    destruct (sock_call fd (put_peer a) n1) as [[] n2]; destruct Hs as [Hs Hf'].
    + split; [|split; [lia|by split; [lia|]]]. apply (opened_opens P _ _ _ _ Hs). by subst P; rewrite ?Ef.
    + split; [left; split; [done|by eapply close_opened]|]. split; [|by split].
      intros E. by destruct (Hf' (Hf E)).
  - pose proof (set_nonblocking_spec n fd new_sock n1 Ho) as Hs.
    destruct (set_nonblocking fd n1) as [r n2]. destruct Hs as [[[-> Hs]|[-> Hs]] Hf'].
    + cbn. split; [by left|]. split; [|done]. intros E. destruct (Hf' (Hf E)). lia.
    + rewrite (proj2 (Z.eqb_neq (Z.of_nat fd) (-1))) by lia.
      pose proof (sock_call_spec n fd _ (put_peer a) n2 Hs) as Hs2.
      destruct (sock_call fd (put_peer a) n2) as [[] n3]; destruct Hs2 as [Hs2 Hf2].
      * split; [|split; [lia|by split; [lia|]]]. apply (opened_opens P _ _ _ _ Hs2). by subst P; rewrite ?Ef.
      * destruct ((errno n3 =? EINPROGRESS) || (errno n3 =? EAGAIN)).
        -- split; [|split; [lia|by split; [lia|]]].
           apply (opened_opens P n fd (put_peer a (put_nonblock new_sock))); [|by subst P; rewrite ?Ef].
           destruct Hs2 as [Hn Hm]. split; [done|]. cbn. by rewrite Hm, alter_insert_eq.
        -- split; [left; split; [done|by eapply close_opened]|]. split; [|by split].
           intros E. by destruct (Hf2 (proj2 (Hf' (Hf E)))).
Qed.

Lemma connect_loop_spec addrs flags n :
  let P s := (exists a, a ∈ addrs /\ peer s = Some a) /\ nonblock s = negb (Z.land flags SOCK_NONBLOCKING =? 0) in
  let '(r, n') := connect_loop addrs flags n in
  opens P n r n' /\
  (fails n = [] -> addrs <> [] -> exists fd s, r = Z.of_nat fd /\ socks n' = <[fd := s]> (socks n) /\ peer s = head addrs).
Proof.
  revert n. induction addrs as [|a addrs IH]; intros n; cbn [connect_loop]; [split; [by left|done]|].
  pose proof (try_connect_spec a flags n) as Ht. destruct (try_connect a flags n) as [[r d] n1].
  destruct Ht as ([[-> Hs]|(fd & s & -> & Hn & Hs & Hp & Hb)] & Hf & _).
  - cbn [Z.leb Z.compare]. specialize (IH n1). destruct (connect_loop addrs flags n1) as [r' n2].
    destruct IH as [Ho _]. split; [|intros E; by destruct (Hf E)].
    destruct Ho as [[-> Hs2]|(fd & s & -> & Hn & Hs2 & (b & Hb & Hp) & Hk)]; [left; split; congruence|].
    right. exists fd, s. rewrite Hs in *. split; [done|]. split; [done|]. split; [done|]. split; [|done].
    exists b. split; [by apply list_elem_of_further|done].
  - rewrite (proj2 (Z.leb_le 0 (Z.of_nat fd))) by lia. split.
    + right. exists fd, s. split; [done|]. split; [done|]. split; [done|]. split; [|done].
      exists a. split; [apply list_elem_of_here|done].
    + intros _ _. by exists fd, s.
Qed.

(** ** Properties *)

(** C39: The socket functions leak no descriptor: whatever calls fail, each leaves
    the table as it was with -1, or one descriptor more, which it returns: of
    socket_listen a listening socket bound to the port, on the loopback address
    with SOCK_LOCAL, of socket_accept the accepted connection, of socket_connect a
    connection to one of the addresses of the name, the first when no call fails.
    SOCK_NONBLOCKING makes the sockets of socket_listen and socket_connect
    non-blocking; that of socket_accept stays blocking. *)
Theorem sockets_correct (n : net) (flags : Z) :
  (forall port, let '(r, n') := socket_listen port flags n in
     opens (fun s => bound s = Some (if Z.land flags SOCK_LOCAL =? 0 then 0 else 0x7f000001, u16 port) /\
                     backlog s = Some BACKLOG /\ reuseaddr s = true /\
                     nonblock s = negb (Z.land flags SOCK_NONBLOCKING =? 0)) n r n' /\
     (fails n = [] -> r <> -1)) /\
  (forall inet_ntoa from ip, let '(r, ip', n') := socket_accept inet_ntoa from ip flags n in
     opens (fun s => peer s = Some from /\ nonblock s = negb (Z.land flags SOCK_NONBLOCK =? 0)) n r n' /\
     (fails n = [] -> r <> -1) /\
     (r <> -1 -> ip' = match ip with Some _ => Some (inet_ntoa from) | None => None end)) /\
  (forall addrs, let '(r, n') := socket_connect (Some addrs) flags n in
     opens (fun s => (exists a, a ∈ addrs /\ peer s = Some a) /\
                     nonblock s = negb (Z.land flags SOCK_NONBLOCKING =? 0)) n r n' /\
     (fails n = [] -> addrs <> [] -> exists fd s, r = Z.of_nat fd /\
        socks n' = <[fd := s]> (socks n) /\ peer s = head addrs)) /\
  socket_connect None flags n = (-1, n) /\
  (forall inet_ntoa from ip, let '(r, _, n') := socket_accept inet_ntoa from ip SOCK_NONBLOCKING n in
     opens (fun s => nonblock s = false) n r n').
Proof.
  assert (Hacc : forall flags inet_ntoa from ip, let '(r, ip', n') := socket_accept inet_ntoa from ip flags n in
     opens (fun s => peer s = Some from /\ nonblock s = negb (Z.land flags SOCK_NONBLOCK =? 0)) n r n' /\
     (fails n = [] -> r <> -1) /\
     (r <> -1 -> ip' = match ip with Some _ => Some (inet_ntoa from) | None => None end)).
  { clear flags. intros flags inet_ntoa from ip. unfold socket_accept. pose proof (open_call_spec (put_peer from new_sock) n) as Ho.
    destruct (open_call (put_peer from new_sock) n) as [[fd|] n1]; [|destruct Ho; by (split; [left|])].
    destruct Ho as [Ho Hf]. pose proof (sock_call_spec n fd _ put_nodelay n1 Ho) as Hs.
    destruct (sock_call fd put_nodelay n1) as [ok n2]. destruct Hs as [Hs Hf2].
    destruct (Z.land flags SOCK_NONBLOCK =? 0).
    - split; [|by split; [lia|]]. apply (opened_opens _ _ _ _ _ Hs). by destruct ok.
    - pose proof (set_nonblocking_opens (fun s => peer s = Some from /\ nonblock s = true) n fd _ n2 Hs) as Hb.
      destruct (set_nonblocking fd n2) as [r n3]. destruct Hb as [Hb Hf3]; [by destruct ok|].
      split; [done|]. split; [|done]. intros E. apply Hf3. by apply Hf2, Hf. }
  split; [|split; [by apply Hacc|split; [by intros; apply connect_loop_spec|split; [done|]]]].
  - intros port. unfold socket_listen. pose proof (open_call_spec new_sock n) as Ho.
    destruct (open_call new_sock n) as [[fd|] n1]; [|by destruct Ho; split; [left|]].
    destruct Ho as [Ho Hf]. set (a := if Z.land flags SOCK_LOCAL =? 0 then 0 else 0x7f000001).
    pose proof (all_work_spec [put_reuseaddr; put_bound a (u16 port); put_backlog BACKLOG] n fd new_sock n1 Ho) as Hs.
    cbn [map] in Hs. destruct (all_work _ n1) as [ok n2]. destruct Hs as [(s & Hs & Es) Hf2].
    destruct ok.
    + rewrite (Es eq_refl) in Hs. destruct (Z.land flags SOCK_NONBLOCKING =? 0).
      * split; [|lia]. by apply (opened_opens _ _ _ _ _ Hs).
      * set (P := fun s => bound s = Some (a, u16 port) /\ backlog s = Some BACKLOG /\ reuseaddr s = true /\ nonblock s = negb false).
        pose proof (set_nonblocking_opens P n fd _ n2 Hs) as Hb.
        destruct (set_nonblocking fd n2) as [r n3]. destruct Hb as [Hb Hf3]; [done|].
        split; [done|]. intros E. apply Hf3. by apply Hf2, Hf.
    + split; [left; split; [done|by eapply close_opened]|]. intros E. by destruct (Hf2 (Hf E)).
  - intros inet_ntoa from ip. specialize (Hacc SOCK_NONBLOCKING inet_ntoa from ip).
    destruct (socket_accept inet_ntoa from ip SOCK_NONBLOCKING n) as [[r ip'] n'].
    destruct Hacc as ([?|(fd & s & Er & Hn & Hs & _ & Hb)] & _); [by left|]. right. by exists fd, s.
Qed.

Lemma sockets_correct_witness : fst (socket_listen 80 0 {| socks := ∅; fails := []; errno := 0 |}) <> -1.
Proof.
  pose proof (proj1 (sockets_correct {| socks := ∅; fails := []; errno := 0 |} 0) 80) as H.
  destruct (socket_listen 80 0 {| socks := ∅; fails := []; errno := 0 |}) as [r n'].
  by apply (proj2 H).
Defined.

End Socket.
