(* ===== verification/Ip.v ===== *)
(** The network interfaces (ip.c): the gateway from the routing table of Linux, the
    names of the interfaces with the allocations they take, the addresses of an
    interface and of a host. *)

From S2P Require Import Prelude Args Socket.
Import Args.

Module Ip.

Definition present {A} (o : option A) : bool := match o with Some _ => true | None => false end.

(** ** get_gateway *)

(** Up to the next space. *)
Fixpoint token (l : list Z) : list Z * list Z :=
  match l with
  | c :: l' => if isspace c then ([], l) else let '(t, r) := token l' in (c :: t, r)
  | [] => ([], [])
  end.

(** The conversion [%s]. *)
Definition scan_s (l : list Z) : option (list Z * list Z) :=
  match token (skip_spaces l) with ([], _) => None | (t, r) => Some (t, r) end.

(** The value of strtoul as an unsigned int. *)
Definition to_uint (neg : bool) (v : Z) : Z :=
  u32 (if ULONG_MAX <? v then ULONG_MAX else if neg then - v else v).

(** The conversion [%x]. *)
Definition scan_x (l : list Z) : option (Z * list Z) :=
  let '(neg, l) := match skip_spaces l with
                   | 45 :: l => (true, l)
                   | 43 :: l => (false, l)
                   | l => (false, l)
                   end in
  let l := match l with
           | 48 :: x :: d :: r => if ((x =? 120) || (x =? 88)) && is_digit_in 16 d then d :: r else l
           | _ => l
           end in
  match l with
  | c :: _ =>
      if is_digit_in 16 c then let '(v, r) := scan_digits 16 l 0 in Some (to_uint neg v, r) else None
  | [] => None
  end.

(** [sscanf(line, "%s %x %x %x", iface, &dest, &gw, &flags)]: the conversions made;
    [iface] has 8 bytes. *)
Definition scan_route (line : list Z) : outcome (option (list Z * Z * Z * Z)) :=
  match scan_s line with
  | None => Ret None
  | Some (iface, r) =>
      if 8 <=? zlen iface then Fault
      else Ret (
        '(dest, r) ← scan_x r;
        '(gw, r) ← scan_x r;
        '(flags, _) ← scan_x r;
        Some (iface, dest, gw, flags))
  end.

(** [fgets] into [n + 1] bytes. *)
Fixpoint fgets (n : nat) (l : list Z) : list Z * list Z :=
  match n, l with
  | S n, c :: l => if c =? 10 then ([c], l) else let '(t, r) := fgets n l in (c :: t, r)
  | _, _ => ([], l)
  end.

Fixpoint gateway_loop (fuel : nat) (ifname text : list Z) : outcome (option Z) :=
  match fuel, text with
  | S fuel, _ :: _ =>
      let '(line, text) := fgets 127 text in
      r ← scan_route line;
      match r with
      | Some (iface, dest, gw, flags) =>
          if bool_decide (iface = ifname) && (dest =? 0) && negb (Z.land flags 2 =? 0)
          then Ret (Some gw) else gateway_loop fuel ifname text
      | None => gateway_loop fuel ifname text
      end
  | _, _ => Ret None
  end.

(** The result and what [*gateway] is set to, for the text of /proc/net/route. *)
Definition get_gateway (route : option (list Z)) (ifname : list Z) : outcome (Z * option Z) :=
  match route with
  | None => Ret (-1, None)
  | Some text =>
      r ← gateway_loop (length text) ifname text;
      Ret match r with Some gw => (0, Some gw) | None => (1, None) end
  end.

(** ** get_interfaces *)

Definition AF_INET : Z := 2.
Definition IFF_UP : Z := 1.
Definition IFF_LOOPBACK : Z := 8.

(** An entry of getifaddrs; some have no address. *)
Record ifaddr := { ifa_name : list Z; ifa_family : option Z; ifa_flags : Z }.

(** The blocks that are allocated, and whether the next allocations work (after
    those, they do). *)
Record heap := { live : Z; allocs : list bool }.

Definition malloc (h : heap) : bool * heap :=
  match allocs h with
  | [] => (true, {| live := live h + 1; allocs := [] |})
  | b :: bs => (b, {| live := if b then live h + 1 else live h; allocs := bs |})
  end.

(** [realloc] of a block, or of NULL; when it fails the block stays. *)
Definition realloc (null : bool) (h : heap) : bool * heap :=
  if null then malloc h
  else match allocs h with
       | [] => (true, h)
       | b :: bs => (b, {| live := live h; allocs := bs |})
       end.

Definition free (n : Z) (h : heap) : heap := {| live := live h - n; allocs := allocs h |}.

(** The array, or NULL, and how many of its names are freed. *)
Definition free_interfaces (ifnames : option (list (list Z))) (n : Z) (h : heap) : outcome heap :=
  match ifnames with
  | Some _ => Ret (free (n + 1) h)
  | None => if 0 <? n then Fault else Ret h
  end.

(** [1 << i] in int. *)
Definition int_bit (i : Z) : outcome Z := if i <? 31 then Ret (Z.shiftl 1 i) else Fault.

(** The result, [*ifnames], [*state], the heap. *)
Definition interfaces_result : Type := Z * option (list (list Z)) * option Z * heap.

(** [names] are the [i] names so far; [null] when the array is still NULL. *)
Fixpoint interfaces_loop (ifa : list ifaddr) (i : Z) (names : option (list (list Z))) (state : option Z)
    (h : heap) : outcome interfaces_result :=
  match ifa with
  | [] => Ret (i, names, state, h)
  | p :: ifa =>
      fam ← checked (ifa_family p);
      if negb (fam =? AF_INET) || negb (Z.land (ifa_flags p) IFF_LOOPBACK =? 0)
      then interfaces_loop ifa i names state h
      else
        match realloc (negb (present names)) h with
        | (false, h) => h ← free_interfaces None i h; Ret (- ENOMEM, None, state, h)
        | (true, h) =>
            match malloc h with
            | (false, h) =>
                h ← free_interfaces (Some (default [] names)) i h; Ret (- ENOMEM, None, state, h)
            | (true, h) =>
                state ← match state with
                        | Some s =>
                            if Z.land (ifa_flags p) IFF_UP =? 0 then Ret (Some s)
                            else b ← int_bit i; Ret (Some (Z.lor s b))
                        | None => Ret None
                        end;
                interfaces_loop ifa (i + 1) (Some (default [] names ++ [ifa_name p])) state h
            end
        end
  end.

Definition get_interfaces (getifaddrs : list ifaddr + Z) (state : bool) (h : heap) :
    outcome interfaces_result :=
  let state := if state then Some 0 else None in
  match getifaddrs with
  | inr errno => Ret (- errno, None, state, h)
  | inl ifa => interfaces_loop ifa 0 None state h
  end.

(** ** ip_addr, get_address *)

(** [a] and [m] are what the ioctls give when they work.  The result, [*addr],
    [*mask], [*gw] where they are set, and the descriptors. *)
Definition ip_addr (a m : Z) (gateway : outcome (Z * option Z)) (addr mask gw : bool) (n : Socket.net) :
    outcome (Z * option Z * option Z * option Z * Socket.net) :=
  match Socket.open_call Socket.new_sock n with
  | (None, n) => Ret (-1, None, None, None, n)
  | (Some s, n) =>
      let '(ok, n) := if addr then Socket.call n else (true, n) in
      if negb ok then Ret (-1, None, None, None, Socket.close s n)
      else
        let addr := if addr then Some a else None in
        let '(ok, n) := if mask then Socket.call n else (true, n) in
        if negb ok then Ret (-1, addr, None, None, Socket.close s n)
        else
          let mask := if mask then Some m else None in
          let n := Socket.close s n in
          if gw then '(rc, g) ← gateway; Ret (rc, addr, mask, g, n) else Ret (0, addr, mask, None, n)
  end.

Definition AF_INET6 : Z := 10.

(** The last address of each family, as text, where it is wanted. *)
Fixpoint address_loop (result : list (Z * list Z)) (ipv4 ipv6 : option (list Z)) :
    option (list Z) * option (list Z) :=
  match result with
  | [] => (ipv4, ipv6)
  | (fam, text) :: result =>
      if fam =? AF_INET then address_loop result (if present ipv4 then Some text else None) ipv6
      else if fam =? AF_INET6 then address_loop result ipv4 (if present ipv6 then Some text else None)
      else address_loop result ipv4 ipv6
  end.

Definition get_address (getaddrinfo : list (Z * list Z) + Z) (ipv4 ipv6 : bool) :
    Z * option (list Z) * option (list Z) :=
  let v4 := if ipv4 then Some [] else None in
  let v6 := if ipv6 then Some [] else None in
  match getaddrinfo with
  | inr err => (err, v4, v6)
  | inl result => let '(v4, v6) := address_loop result v4 v6 in (0, v4, v6)
  end.

(** [ntohl] of the first address of the host. *)
Definition get_address4 (gethostbyname : option (list Z)) : Z :=
  match gethostbyname with
  | Some b => Z.lor (Z.lor (Z.shiftl (rd b 0) 24) (Z.shiftl (rd b 1) 16)) (Z.lor (Z.shiftl (rd b 2) 8) (rd b 3))
  | None => 0
  end.

(** ** Reading a row of the routing table *)

Definition digit_char (d : Z) : Z := if d <? 10 then 48 + d else 55 + d.

(** The format [%0nX]. *)
Fixpoint hex_text (n : nat) (v : Z) : list Z :=
  match n with
  | O => []
  | S n => hex_text n (v / 16) ++ [digit_char (v mod 16)]
  end.

Lemma digit_in_char d : 0 <= d < 16 -> digit_in 16 (digit_char d) = Some d.
Proof.
  intros Hd. assert (H : d ∈ seqZ 0 16) by (apply elem_of_seqZ; lia). revert H. clear Hd. revert d.
  apply Forall_forall. by repeat constructor.
Qed.

Lemma scan_digits_hex n v rest a :
  scan_digits 16 (hex_text n v ++ rest) a = scan_digits 16 rest (a * 16 ^ Z.of_nat n + v mod 16 ^ Z.of_nat n).
Proof.
  revert v rest a. induction n as [|n IH]; intros v rest a.
  - cbn [hex_text app]. f_equal. change (16 ^ Z.of_nat 0) with 1. rewrite Z.mod_1_r. lia.
  - cbn [hex_text]. rewrite <- app_assoc, IH. cbn [app scan_digits].
    rewrite digit_in_char by (apply Z.mod_pos_bound; lia). f_equal.
    rewrite Nat2Z.inj_succ, Z.pow_succ_r by lia.
    rewrite (Z.rem_mul_r v 16) by lia. lia.
Qed.

Lemma hex_text_head n v : 0 < Z.of_nat n -> exists d r, hex_text n v = digit_char d :: r /\ 0 <= d < 16.
Proof.
  revert v. induction n as [|n IH]; intros v Hn; [lia|]. cbn [hex_text]. destruct n as [|n].
  - exists (v mod 16), []. split; [done|]. apply Z.mod_pos_bound. lia.
  - destruct (IH (v / 16)) as (d & r & E & Hd); [lia|]. rewrite E. by eexists d, _.
Qed.

Lemma hex_text_chars n v : Forall (fun c => 48 <= c <= 70) (hex_text n v).
Proof.
  revert v. induction n as [|n IH]; intros v; [constructor|]. cbn [hex_text].
  apply Forall_app. split; [done|]. constructor; [|constructor]. unfold digit_char.
  pose proof (Z.mod_pos_bound v 16). case_match; lia.
Qed.

Lemma length_hex_text n v : length (hex_text n v) = n.
Proof. revert v. induction n as [|n IH]; intros v; [done|]. cbn [hex_text]. rewrite length_app, IH. cbn. lia. Qed.

(** Nothing that goes on a number. *)
Definition ends_number (r : list Z) : Prop := match r with c :: _ => isspace c = true | [] => True end.

Lemma space_not_digit c : isspace c = true -> digit_in 16 c = None.
Proof.
  unfold isspace, digit_in, digit_of. intros H.
  replace ((48 <=? c) && (c <=? 57)) with false by lia.
  replace ((97 <=? c) && (c <=? 102)) with false by lia.
  replace ((65 <=? c) && (c <=? 70)) with false by lia. done.
Qed.

Lemma scan_x_hex n v rest :
  0 < Z.of_nat n <= 8 -> 0 <= v < 16 ^ Z.of_nat n -> ends_number rest ->
  scan_x (9 :: hex_text n v ++ rest) = Some (v, rest).
Proof.
  intros Hn Hv Hr. destruct (hex_text_head n v ltac:(lia)) as (d & r & E & Hd).
  pose proof (hex_text_chars n v) as Hc. rewrite E in Hc. apply Forall_cons in Hc as [Hdc Hc].
  assert (Hs : skip_spaces (9 :: hex_text n v ++ rest) = hex_text n v ++ rest).
  { rewrite E. cbn [skip_spaces app]. change (isspace 9) with true. cbv iota.
    replace (isspace (digit_char d)) with false; [done|]. unfold isspace. lia. }
  assert (Hx : forall x, isspace x = true \/ 48 <= x <= 70 -> (x =? 120) || (x =? 88) = false).
  { unfold isspace. intros x Hx. lia. }
  unfold scan_x. rewrite Hs, E. cbn [app].
  replace (match digit_char d :: r ++ rest with 45 :: l => (true, l) | 43 :: l => (false, l) | l => (false, l) end)
    with (false, digit_char d :: r ++ rest).
  2:{ revert Hdc. generalize (digit_char d). intros z Hz.
      destruct z as [|z|z]; try done; do 7 (destruct z as [z|z|]; try done; try lia). }
  replace (match digit_char d :: r ++ rest with
           | 48 :: x :: d0 :: r0 => if ((x =? 120) || (x =? 88)) && is_digit_in 16 d0 then d0 :: r0 else digit_char d :: r ++ rest
           | _ => digit_char d :: r ++ rest end) with (digit_char d :: r ++ rest).
  2:{ assert (Hno : match r ++ rest with x :: _ :: _ => (x =? 120) || (x =? 88) = false | _ => True end).
      { destruct r as [|x r]; cbn.
        - destruct rest as [|x [|]]; try done. apply Hx. by left.
        - apply Forall_cons in Hc as [Hc _]. destruct (r ++ rest); [done|]. apply Hx. by right. }
      generalize (digit_char d). intros z. destruct (r ++ rest) as [|x [|y t]].
      - destruct z as [|z|z]; try done; do 7 (destruct z as [z|z|]; try done).
      - destruct z as [|z|z]; try done; do 7 (destruct z as [z|z|]; try done).
      - rewrite Hno. destruct z as [|z|z]; try done; do 7 (destruct z as [z|z|]; try done). }
  unfold is_digit_in at 1. rewrite digit_in_char by done.
  change (digit_char d :: r ++ rest) with ((digit_char d :: r) ++ rest). rewrite <- E, scan_digits_hex.
  rewrite Z.mod_small, Z.mul_0_l, Z.add_0_l by done.
  assert (Hend : scan_digits 16 rest v = (v, rest)).
  { destruct rest as [|c rest]; [done|]. cbn [scan_digits]. by rewrite space_not_digit. }
  rewrite Hend. unfold to_uint, ULONG_MAX.
  assert (16 ^ Z.of_nat n <= 2 ^ 32) by (change (2 ^ 32) with (16 ^ 8); apply Z.pow_le_mono_r; lia).
  rewrite (proj2 (Z.ltb_ge _ _)) by lia. rewrite u32_id by (unfold fits; lia). done.
Qed.

(** A row: the name, the numbers and what follows, which a space or nothing begins. *)
Record route := { r_iface : list Z; r_dest : Z; r_gw : Z; r_flags : Z; r_rest : list Z }.

Definition route_text (r : route) : list Z :=
  r_iface r ++ 9 :: hex_text 8 (r_dest r) ++ 9 :: hex_text 8 (r_gw r) ++ 9 :: hex_text 4 (r_flags r) ++ r_rest r.

Definition is_name (l : list Z) : Prop := l <> [] /\ Forall (fun c => isspace c = false) l.

Record route_ok (r : route) : Prop := {
  ro_name : is_name (r_iface r);
  ro_dest : 0 <= r_dest r < 2 ^ 32;
  ro_gw : 0 <= r_gw r < 2 ^ 32;
  ro_flags : 0 <= r_flags r < 2 ^ 16;
  ro_rest : ends_number (r_rest r) /\ Forall (fun c => c <> 10) (r_rest r);
  ro_length : (length (route_text r) < 127)%nat;
}.

Lemma token_name t c r :
  Forall (fun c => isspace c = false) t -> isspace c = true -> token (t ++ c :: r) = (t, c :: r).
Proof.
  intros Ht Hc. induction Ht as [|x t Hx Ht IH]; cbn; [by rewrite Hc|]. by rewrite Hx, IH.
Qed.

Lemma scan_s_name t c r : is_name t -> isspace c = true -> scan_s (t ++ c :: r) = Some (t, c :: r).
Proof.
  intros [Hne Ht] Hc. unfold scan_s. replace (skip_spaces (t ++ c :: r)) with (t ++ c :: r).
  - rewrite token_name by done. by destruct t.
  - destruct t as [|x t]; [done|]. apply Forall_cons in Ht as [Hx _]. cbn. by rewrite Hx.
Qed.

Lemma scan_route_text r :
  route_ok r ->
  scan_route (route_text r ++ [10]) =
    if 8 <=? zlen (r_iface r) then Fault else Ret (Some (r_iface r, r_dest r, r_gw r, r_flags r)).
Proof.
  intros [Hn Hd Hg Hf [Hr _] _]. unfold scan_route, route_text. rewrite <- app_assoc. cbn [app].
  rewrite scan_s_name by done. destruct (8 <=? zlen (r_iface r)); [done|]. f_equal.
  rewrite <- !app_assoc. cbn [app]. rewrite <- !app_assoc. cbn [app]. rewrite <- app_assoc.
  rewrite scan_x_hex; [|lia|done|done]. cbn [mbind option_bind].
  rewrite scan_x_hex; [|lia|done|done]. cbn [mbind option_bind].
  rewrite scan_x_hex; [done|lia|done|]. by destruct (r_rest r).
Qed.

Lemma fgets_line n l rest :
  Forall (fun c => c <> 10) l -> (length l < n)%nat -> fgets n (l ++ 10 :: rest) = (l ++ [10], rest).
Proof.
  revert n. induction l as [|c l IH]; intros [|n] Hl Hn; cbn [length] in Hn; try lia; [done|].
  apply Forall_cons in Hl as [Hc Hl]. cbn. rewrite (proj2 (Z.eqb_neq _ _) Hc), IH by (done || lia). done.
Qed.

Lemma route_text_line r : route_ok r -> Forall (fun c => c <> 10) (route_text r).
Proof.
  intros [[_ Hn] _ _ _ [_ Hr] _]. unfold route_text.
  assert (Hx : forall n v, Forall (fun c => c <> 10) (hex_text n v)).
  { intros n v. eapply Forall_impl; [apply hex_text_chars|]. cbn. lia. }
  apply Forall_app. split; [eapply Forall_impl; [exact Hn|]; unfold isspace; intros c Hc ->; done|].
  do 3 (apply Forall_cons; split; [done|]; apply Forall_app; split; [apply Hx|]). done.
Qed.

(** The row that [get_gateway] looks for. *)
Definition gateway_row (ifname : list Z) (r : route) : bool :=
  bool_decide (r_iface r = ifname) && (r_dest r =? 0) && negb (Z.land (r_flags r) 2 =? 0).

Definition rows_text (rs : list route) : list Z := concat (map (fun r => route_text r ++ [10]) rs).

Lemma gateway_loop_line fuel ifname l rest :
  Forall (fun c => c <> 10) l -> (length l < 127)%nat ->
  gateway_loop (S fuel) ifname (l ++ 10 :: rest) =
    r ← scan_route (l ++ [10]);
    match r with
    | Some (iface, dest, gw, flags) =>
        if bool_decide (iface = ifname) && (dest =? 0) && negb (Z.land flags 2 =? 0)
        then Ret (Some gw) else gateway_loop fuel ifname rest
    | None => gateway_loop fuel ifname rest
    end.
Proof.
  intros Hl Hn. cbn [gateway_loop]. rewrite fgets_line by done. by destruct l.
Qed.

Lemma gateway_loop_rows ifname rs fuel :
  (length rs <= fuel)%nat -> Forall route_ok rs -> Forall (fun r => zlen (r_iface r) < 8) rs ->
  gateway_loop fuel ifname (rows_text rs) =
    Ret (r_gw <$> head (filter (fun r => gateway_row ifname r = true) rs)).
Proof.
  revert fuel. induction rs as [|r rs IH]; intros fuel Hf Hok Hshort; [by destruct fuel|].
  apply Forall_cons in Hok as [Hr Hok]. apply Forall_cons in Hshort as [Hs Hshort].
  destruct fuel as [|fuel]; cbn [length] in Hf; [lia|]. unfold rows_text. cbn [map concat].
  rewrite <- app_assoc. cbn [app]. rewrite gateway_loop_line; [|by apply route_text_line|apply (ro_length _ Hr)].
  rewrite scan_route_text by done. rewrite (proj2 (Z.leb_gt _ _)) by done. cbn [mbind outcome_bind].
  fold (gateway_row ifname r). rewrite filter_cons. destruct (gateway_row ifname r) eqn:E.
  - by rewrite decide_True.
  - rewrite decide_False by done. apply IH; [lia|done|done].
Qed.

Lemma length_rows rs : (length rs <= length (rows_text rs))%nat.
Proof.
  induction rs as [|r rs IH]; [done|]. unfold rows_text in *. cbn [map concat].
  rewrite !length_app. cbn [length]. lia.
Qed.

(** ** The interfaces and their blocks *)

(** The entries that get_interfaces reports. *)
Definition wanted (p : ifaddr) : Prop :=
  ifa_family p = Some AF_INET /\ Z.land (ifa_flags p) IFF_LOOPBACK = 0.

#[export] Instance wanted_dec p : Decision (wanted p).
Proof. unfold wanted. apply _. Defined.

(** The bits of those that are up, from bit [i]. *)
Fixpoint up_bits (i : Z) (ps : list ifaddr) : Z :=
  match ps with
  | [] => 0
  | p :: ps => Z.lor (if Z.land (ifa_flags p) IFF_UP =? 0 then 0 else Z.shiftl 1 i) (up_bits (i + 1) ps)
  end.

(** The blocks that hold the names. *)
Definition blocks (names : option (list (list Z))) : Z :=
  match names with None => 0 | Some l => zlen l + 1 end.

Definition more_names (names : option (list (list Z))) (ps : list ifaddr) : option (list (list Z)) :=
  match ps with [] => names | _ => Some (default [] names ++ map ifa_name ps) end.

Lemma realloc_spec null h :
  let '(ok, h') := realloc null h in
  live h' = live h + (if ok && null then 1 else 0) /\ (allocs h = [] -> ok = true /\ allocs h' = []).
Proof.
  unfold realloc, malloc. destruct null, (allocs h) as [|[] bs] eqn:E; cbn; (split; [lia|done]).
Qed.

Lemma malloc_spec h :
  let '(ok, h') := malloc h in
  live h' = live h + (if ok : bool then 1 else 0) /\ (allocs h = [] -> ok = true /\ allocs h' = []).
Proof. unfold malloc. destruct (allocs h) as [|[] bs]; cbn; (split; [lia|done]). Qed.

Lemma wanted_test p :
  ifa_family p <> None ->
  exists fam, ifa_family p = Some fam /\
    (negb (fam =? AF_INET) || negb (Z.land (ifa_flags p) IFF_LOOPBACK =? 0)) = negb (bool_decide (wanted p)).
Proof.
  intros H. destruct (ifa_family p) as [fam|] eqn:E; [|done]. exists fam. split; [done|].
  rewrite <- negb_andb. f_equal. symmetry.
  assert (Hw : wanted p <-> fam = AF_INET /\ Z.land (ifa_flags p) IFF_LOOPBACK = 0)
    by (unfold wanted; rewrite E; split; [by intros [[= ->] ?]|by intros [-> ?]]).
  destruct (Z.eqb_spec fam AF_INET) as [->|Hn], (Z.eqb_spec (Z.land (ifa_flags p) IFF_LOOPBACK) 0) as [Hl|Hl]; cbn.
  - apply bool_decide_eq_true. tauto.
  - apply bool_decide_eq_false. tauto.
  - apply bool_decide_eq_false. tauto.
  - apply bool_decide_eq_false. tauto.
Qed.

(** A name more: the blocks of the names and the bit of the state. *)
Lemma interfaces_loop_ok ifa i names state h :
  Forall (fun p => ifa_family p <> None) ifa -> allocs h = [] -> i = zlen (default [] names) ->
  (state <> None -> i + zlen (filter wanted ifa) <= 31) ->
  exists h', interfaces_loop ifa i names state h =
      Ret (i + zlen (filter wanted ifa), more_names names (filter wanted ifa),
           (fun s => Z.lor s (up_bits i (filter wanted ifa))) <$> state, h') /\
    live h' = live h + blocks (more_names names (filter wanted ifa)) - blocks names.
Proof.
  revert i names state h. induction ifa as [|p ifa IH]; intros i names state h Hfam Ha Hi Hb.
  { exists h. split; [|cbn; lia]. cbn. rewrite Z.add_0_r. destruct state as [s|]; cbn; [by rewrite Z.lor_0_r|done]. }
  apply Forall_cons in Hfam as [Hp Hfam]. destruct (wanted_test p Hp) as (fam & Ef & Ew).
  cbn [interfaces_loop]. rewrite Ef. cbn [checked mbind outcome_bind]. rewrite Ew. rewrite filter_cons in *.
  destruct (decide (wanted p)) as [Hw|Hw].
  2:{ rewrite bool_decide_eq_false_2 by done. cbn [negb]. by apply IH. }
  rewrite bool_decide_eq_true_2 by done. cbn [negb].
  pose proof (realloc_spec (negb (present names)) h) as Hr. destruct (realloc _ h) as [ok h1].
  destruct Hr as [Hl1 Hr]. destruct (Hr Ha) as [-> Ha1]. pose proof (malloc_spec h1) as Hm.
  destruct (malloc h1) as [ok h2]. destruct Hm as [Hl2 Hm]. destruct (Hm Ha1) as [-> Ha2].
  set (ws := filter wanted ifa) in *.
  assert (Hz : zlen (p :: ws) = 1 + zlen ws) by (unfold zlen; cbn [length]; lia).
  set (state' := (fun s => Z.lor s (if Z.land (ifa_flags p) IFF_UP =? 0 then 0 else Z.shiftl 1 i)) <$> state).
  assert (Es : match state with
               | Some s => if Z.land (ifa_flags p) IFF_UP =? 0 then Ret (Some s)
                           else b ← int_bit i; Ret (Some (Z.lor s b))
               | None => Ret None
               end = Ret state').
  { subst state'. destruct state as [s|]; [|done]. cbn. destruct (Z.land (ifa_flags p) IFF_UP =? 0); [by rewrite Z.lor_0_r|].
    unfold int_bit. assert (i + zlen (p :: ws) <= 31) by by apply Hb. unfold zlen in *.
    by rewrite (proj2 (Z.ltb_lt i 31)) by lia. }
  rewrite Es. cbn [mbind outcome_bind].
  destruct (IH (i + 1) (Some (default [] names ++ [ifa_name p])) state' h2) as (h' & E & Hl); try done.
  - cbn. unfold zlen in *. rewrite length_app. cbn [length]. lia.
  - intros Hs. assert (i + zlen (p :: ws) <= 31); [|lia]. apply Hb. intros ->. by apply Hs.
  - exists h'. rewrite E, Hl. split.
    + match goal with |- Ret (?a, ?b, ?c, _) = Ret (?a', ?b', ?c', _) =>
        assert (a = a') as ->; [lia|assert (b = b') as ->; [|assert (c = c') as ->; [|done]]] end.
      * unfold more_names. cbn. destruct ws; [done|]. cbn. by rewrite <- app_assoc.
      * subst state'. destruct state; cbn; [|done]. by rewrite Z.lor_assoc.
    + cbn [blocks more_names]. unfold more_names, blocks. cbn [default map].
      destruct ws as [|q ws]; destruct names as [l|]; cbn [present negb andb default] in *; unfold zlen in *;
        unfold id in *; rewrite ?length_app; cbn [app map length]; rewrite ?length_app, ?length_map; cbn [length]; lia.
Qed.

(** However the allocations end: no block is lost. *)
Lemma interfaces_loop_blocks ifa i names state h :
  i = zlen (default [] names) -> names <> Some [] ->
  match interfaces_loop ifa i names state h with
  | Ret (rc, names', _, h') =>
      (rc = zlen (default [] names') /\ live h' - blocks names' = live h - blocks names) \/
      (rc = - ENOMEM /\ names' = None /\ live h' = live h - blocks names)
  | Exit _ => False
  | Fault => True
  end.
Proof.
  revert i names state h. induction ifa as [|p ifa IH]; intros i names state h Hi Hne; cbn [interfaces_loop]; [by left|].
  destruct (ifa_family p) as [fam|]; [|done]. cbn [checked mbind outcome_bind].
  destruct (_ || _); [by apply IH|].
  pose proof (realloc_spec (negb (present names)) h) as Hr. destruct (realloc _ h) as [ok h1]. destruct Hr as [Hl1 _].
  destruct ok; cbn [andb] in Hl1.
  2:{ unfold free_interfaces. destruct (Z.ltb_spec 0 i) as [|Hi0]; cbn; [done|]. right.
      split; [done|]. split; [done|]. destruct names as [[|]|]; cbn in *; try done; unfold zlen in *; cbn in *; lia. }
  pose proof (malloc_spec h1) as Hm. destruct (malloc h1) as [ok h2]. destruct Hm as [Hl2 _].
  destruct ok.
  2:{ cbn. right. split; [done|]. split; [done|]. destruct names as [l|]; cbn in *; unfold zlen in *; cbn in *; lia. }
  destruct (match state with Some s => _ | None => _ end) as [st| |] eqn:Es; cbn; [|destruct state; [|done]|done].
  - specialize (IH (i + 1) (Some (default [] names ++ [ifa_name p])) st h2).
    destruct (interfaces_loop ifa (i + 1) _ st h2) as [[[[rc names'] s'] h']| |]; [|apply IH|done].
    + assert (Hb : live h2 - blocks (Some (default [] names ++ [ifa_name p])) = live h - blocks names).
      { unfold blocks, zlen in *. rewrite length_app. destruct names as [l|]; cbn in *; lia. }
      rewrite Hb in IH. apply IH; [|by destruct (default [] names)].
      cbn. unfold zlen in *. rewrite length_app. cbn [length]. lia.
    + cbn. unfold zlen in *. rewrite length_app. cbn [length]. lia.
    + by destruct (default [] names).
  - destruct (_ =? 0); [done|]. unfold int_bit in Es. by destruct (i <? 31).
Qed.

(** ** Properties *)

(** get_interfaces: when every interface has an address, memory lasts and the
    bits fit an int, the names of the IPv4 interfaces but the loopback, in order,
    and their bits; else -ENOMEM with nothing stored and no block left allocated,
    or the error of getifaddrs.  But an interface without an address is a NULL
    pointer, and when realloc fails for a second name the names are freed through
    the NULL it returned. *)
Theorem get_interfaces_correct (ifa : list ifaddr) (st : bool) (h : heap) :
  let ws := filter wanted ifa in
  (Forall (fun p => ifa_family p <> None) ifa -> allocs h = [] -> zlen ws <= 31 ->
   exists h', get_interfaces (inl ifa) st h =
       Ret (zlen ws, more_names None ws, if st then Some (up_bits 0 ws) else None, h') /\
     live h' = live h + blocks (more_names None ws)) /\
  (match get_interfaces (inl ifa) st h with
   | Ret (rc, names, _, h') =>
       rc = zlen (default [] names) /\ live h' = live h + blocks names \/
       rc = - ENOMEM /\ names = None /\ live h' = live h
   | Exit _ => False
   | Fault => True
   end) /\
  (forall e, get_interfaces (inr e) st h = Ret (- e, None, if st then Some 0 else None, h)) /\
  (forall p, ifa_family p = None -> get_interfaces (inl (p :: ifa)) st h = Fault) /\
  (forall p q, wanted p -> wanted q ->
   get_interfaces (inl (p :: q :: ifa)) st {| live := live h; allocs := [true; true; false] |} = Fault).
Proof.
  intros ws. split; [|split; [|split; [done|split]]].
  - intros Hf Ha Hw. unfold get_interfaces.
    destruct (interfaces_loop_ok ifa 0 None (if st then Some 0 else None) h) as (h' & E & Hl); [done|done|done|done|].
    exists h'. rewrite E. fold ws. fold ws in Hl. split; [by destruct st|]. cbn [blocks] in Hl. lia.
  - unfold get_interfaces. pose proof (interfaces_loop_blocks ifa 0 None (if st then Some 0 else None) h eq_refl) as H.
    destruct (interfaces_loop ifa 0 None _ h) as [[[[rc names] s] h']| |]; [|by apply H|done].
    destruct H as [[? H]|(? & ? & H)]; [done|left|right]; cbn [blocks] in H; repeat split; try done; lia.
  - intros p E. unfold get_interfaces. cbn [interfaces_loop]. by rewrite E.
  - intros p q Hp Hq. unfold get_interfaces. cbn [interfaces_loop].
    assert (Hfam : forall r, wanted r -> ifa_family r <> None) by (intros r [-> _]; done).
    destruct (wanted_test p (Hfam p Hp)) as (fp & -> & Ep). destruct (wanted_test q (Hfam q Hq)) as (fq & -> & Eq).
    cbn [checked mbind outcome_bind]. rewrite Ep, bool_decide_eq_true_2 by done. cbn.
    destruct st; cbn; [destruct (Z.land (ifa_flags p) IFF_UP =? 0); cbn|];
      rewrite Eq, bool_decide_eq_true_2 by done; done.
Qed.

(** get_gateway finds, below the header of the table, the first default route of
    the interface with a gateway, for names shorter than eight bytes; 1 when there
    is none, -1 when the table cannot be read.  A row before it with a longer name,
    of the up to fifteen characters a name can have, overflows [iface]. *)
Theorem get_gateway_correct (header ifname : list Z) (rs : list route) :
  Forall (fun c => c <> 10) header -> (length header < 127)%nat -> scan_route (header ++ [10]) = Ret None ->
  Forall route_ok rs ->
  (Forall (fun r => zlen (r_iface r) < 8) rs ->
   get_gateway (Some (header ++ 10 :: rows_text rs)) ifname =
     Ret match head (filter (fun r => gateway_row ifname r = true) rs) with
         | Some r => (0, Some (r_gw r))
         | None => (1, None)
         end) /\
  (forall r more, route_ok r -> 8 <= zlen (r_iface r) ->
   Forall (fun r => zlen (r_iface r) < 8) rs -> Forall (fun r => gateway_row ifname r = false) rs ->
   get_gateway (Some (header ++ 10 :: rows_text rs ++ route_text r ++ 10 :: more)) ifname = Fault) /\
  get_gateway None ifname = Ret (-1, None).
Proof.
  intros Hh Hl Hs Hok. split; [|split; [|done]].
  - intros Hshort. unfold get_gateway. rewrite length_app. cbn [length]. rewrite Nat.add_succ_r.
    rewrite gateway_loop_line, Hs by done. cbn [mbind outcome_bind].
    rewrite gateway_loop_rows; [|pose proof (length_rows rs); lia|done|done]. cbn [mbind outcome_bind].
    by destruct (head _).
  - intros r more Hr H8 Hshort Hno. unfold get_gateway. rewrite length_app. cbn [length]. rewrite Nat.add_succ_r.
    rewrite gateway_loop_line, Hs by done. cbn [mbind outcome_bind].
    assert (Hloop : forall fuel, (length rs < fuel)%nat ->
      gateway_loop fuel ifname (rows_text rs ++ route_text r ++ 10 :: more) = Fault).
    { clear Hs Hl Hh. induction rs as [|r' rs IH]; intros [|fuel] Hf; cbn [length] in Hf; try lia.
      - cbn [rows_text map concat app]. rewrite gateway_loop_line; [|by apply route_text_line|apply (ro_length _ Hr)].
        rewrite scan_route_text by done. by rewrite (proj2 (Z.leb_le _ _)).
      - apply Forall_cons in Hok as [Hr' Hok]. apply Forall_cons in Hshort as [Hs' Hshort].
        apply Forall_cons in Hno as [Hn' Hno]. unfold rows_text. cbn [map concat]. rewrite <- !app_assoc. cbn [app].
        rewrite gateway_loop_line; [|by apply route_text_line|apply (ro_length _ Hr')].
        rewrite scan_route_text by done. rewrite (proj2 (Z.leb_gt _ _)) by done. cbn [mbind outcome_bind].
        fold (gateway_row ifname r'). rewrite Hn'. apply IH; [done|done|done|lia]. }
    rewrite Hloop; [done|]. rewrite !length_app. pose proof (length_rows rs). cbn [length]. lia.
Qed.

Lemma get_gateway_correct_witness :
  get_gateway (Some ([73; 10] ++ route_text {| r_iface := [101]; r_dest := 0; r_gw := 3232235777; r_flags := 3; r_rest := [] |} ++ [10])) [101] =
    Ret (0, Some 3232235777).
Proof.
  refine (proj1 (get_gateway_correct [73] [101]
    [{| r_iface := [101]; r_dest := 0; r_gw := 3232235777; r_flags := 3; r_rest := [] |}] _ _ _ _) _).
  - by repeat constructor.
  - cbn. lia.
  - reflexivity.
  - constructor; [|constructor]. split; cbn; try lia; try (split; [done|by repeat constructor]).
  - by repeat constructor.
Defined.

Lemma get_interfaces_correct_witness :
  exists h', get_interfaces (inl [{| ifa_name := [101]; ifa_family := Some 2; ifa_flags := 1 |}]) true {| live := 0; allocs := [] |} =
    Ret (1, Some [[101]], Some 1, h') /\ live h' = 2.
Proof.
  refine (proj1 (get_interfaces_correct [{| ifa_name := [101]; ifa_family := Some 2; ifa_flags := 1 |}] true
    {| live := 0; allocs := [] |}) _ eq_refl _).
  - by repeat constructor.
  - by vm_compute.
Defined.

(** ip_addr closes its socket on every path; get_address keeps the last address of
    each family that is wanted. *)
Theorem addresses_correct (a m : Z) gateway (addr mask gw : bool) (n : Socket.net) (result : list (Z * list Z)) :
  (match ip_addr a m gateway addr mask gw n with
   | Ret (rc, ra, rm, rg, n') =>
       Socket.socks n' = Socket.socks n /\
       (rc = 0 -> ra = (if addr then Some a else None) /\ rm = (if mask then Some m else None))
   | _ => gw = true
   end) /\
  get_address (inl result) true true =
    (0, Some (default [] (snd <$> last (filter (fun p => fst p = AF_INET) result))),
        Some (default [] (snd <$> last (filter (fun p => fst p = AF_INET6) result)))).
Proof.
  split.
  - unfold ip_addr. pose proof (Socket.open_call_spec Socket.new_sock n) as Ho.
    destruct (Socket.open_call Socket.new_sock n) as [[fd|] n1]; [|by destruct Ho].
    destruct Ho as [Ho _].
    assert (Hc : forall (b : bool) n2, Socket.has_opened n fd Socket.new_sock n2 ->
      let '(ok, n3) := if b then Socket.call n2 else (true, n2) in Socket.has_opened n fd Socket.new_sock n3).
    { intros [] n2 H2; [|done]. pose proof (Socket.call_socks n2) as Hs. destruct (Socket.call n2).
      by eapply Socket.has_opened_same. }
    pose proof (Hc addr n1 Ho) as Ha. destruct (if addr then _ else _) as [[] n2]; cbn [negb];
      [|split; [by eapply Socket.close_opened|done]].
    pose proof (Hc mask n2 Ha) as Hm. destruct (if mask then _ else _) as [[] n3]; cbn [negb];
      [|split; [by eapply Socket.close_opened|done]].
    pose proof (Socket.close_opened n fd _ n3 Hm) as Hcl.
    destruct gw; [|done]. destruct gateway as [[rc g]| |]; cbn; done.
  - unfold get_address.
    assert (H : forall v4 v6, address_loop result (Some v4) (Some v6) =
      (Some (default v4 (snd <$> last (filter (fun p => fst p = AF_INET) result))),
       Some (default v6 (snd <$> last (filter (fun p => fst p = AF_INET6) result))))).
    { induction result as [|[fam t] result IH]; intros v4 v6; [done|]. cbn [address_loop].
      rewrite !filter_cons. cbn [fst snd].
      assert (Hd : forall (l : list (Z * list Z)) x v, default v (snd <$> last (x :: l)) = default (snd x) (snd <$> last l)).
      { intros l x v. destruct l as [|y l]; [done|]. change (last (x :: y :: l)) with (last (y :: l)).
        destruct (last (y :: l)) eqn:E; [done|]. by apply last_None in E. }
      destruct (Z.eqb_spec fam AF_INET) as [->|H4]; [|destruct (Z.eqb_spec fam AF_INET6) as [->|H6]]; cbn [present];
        rewrite IH; repeat case_decide; try done; by rewrite ?Hd. }
    by rewrite H.
Qed.

End Ip.
