(* ===== verification/Cpuid.v ===== *)
(** What the processor says of itself (cpuid.c) and the rate of its time stamp
    counter (tsc.c), over the registers that the instruction gives. *)

From S2P Require Import Prelude Args.
Import Args.

Module Cpuid.

Definition ENOTSUP : Z := 95.

(** The registers eax, ebx, ecx, edx. *)
Record regs := { eax : Z; ebx : Z; ecx : Z; edx : Z }.

Section cpuid.

(** The instruction, for a leaf. *)
Context (cpuid : Z -> regs).

(** ** cpuid.c *)

Definition le32 (r : Z) : list Z := le_bytes 4 r.

(** [vendor] with its NUL, [*family], [*model] and [*stepping]. *)
Definition cpu_info : list Z * Z * Z * Z :=
  let r0 := cpuid 0 in
  let vendor := le32 (ebx r0) ++ le32 (edx r0) ++ le32 (ecx r0) ++ [0] in
  let r := eax (cpuid 1) in
  (vendor,
   Z.lor (Z.land (Z.shiftr r 8) 0xf) (Z.land (Z.shiftr r (20 - 4)) 0xf0),
   Z.lor (Z.land (Z.shiftr r 4) 0xf) (Z.land (Z.shiftr r (16 - 4)) 0xf0),
   Z.land r 0xf).

Definition regs_bytes (r : regs) : list Z := le32 (eax r) ++ le32 (ebx r) ++ le32 (ecx r) ++ le32 (edx r).

(** [for (i = 0; isspace(str[i]); ++i)] in a string that ends. *)
Fixpoint leading (str : list Z) : nat :=
  match str with
  | c :: str => if isspace c then S (leading str) else O
  | [] => O
  end.

(** The result and the buffer of 49 bytes. *)
Definition processor_brand_string (str : list Z) : Z * list Z :=
  if eax (cpuid 0x80000000) <? 0x80000004 then (ENOTSUP, str)
  else
    let str := regs_bytes (cpuid 0x80000002) ++ regs_bytes (cpuid 0x80000003) ++
               regs_bytes (cpuid 0x80000004) ++ [0] in
    let i := leading str in
    (0, match i with
        | O => str
        | _ => take (48 - i) (drop i str) ++ drop (48 - i) str
        end).

(** ** tsc.c *)

Definition N_LOOPS : Z := 4.
Definition CAL_TIME : Z := 250000.

(** "AuthenticAMD" *)
Definition amd : list Z := [65; 117; 116; 104; 101; 110; 116; 105; 99; 65; 77; 68].

(** The result and [*divisor], for the counter before and after each sleep. *)
Definition tsc_divisor (readings : list (Z * Z)) : Z * Z :=
  let '(name, family, model, _) := cpu_info in
  let rc :=
    if bool_decide (c_string name = amd)
    then if Z.land (edx (cpuid 0x80000007)) (Z.shiftl 1 8) =? 0 then EINVAL else 0
    else if ((family =? 0xf) && (0x3 <=? model)) || ((family =? 0x6) && (0xe <=? model)) then 0 else EINVAL in
  let total := fold_left (fun total '(start, fin) => u64 (total + u64 (fin - start))) readings 0 in
  (rc, u64 (total + CAL_TIME / 2) / (CAL_TIME * N_LOOPS)).

(** The microseconds and the static divisor. *)
Definition delta_tsc (divisor start fin : Z) (readings : list (Z * Z)) : outcome (Z * Z) :=
  let divisor := if divisor =? 0 then snd (tsc_divisor readings) else divisor in
  if divisor =? 0 then Fault else Ret (u64 (fin - start) / divisor, divisor).

End cpuid.

(** ** Properties *)

(** The 48 bytes of the three leaves. *)
Definition brand (cpuid : Z -> regs) : list Z :=
  regs_bytes (cpuid 0x80000002) ++ regs_bytes (cpuid 0x80000003) ++ regs_bytes (cpuid 0x80000004).

Lemma length_brand cpuid : length (brand cpuid) = 48%nat.
Proof. unfold brand, regs_bytes, le32. by rewrite !length_app, !length_le_bytes. Qed.

Lemma leading_spaces sp t : Forall (fun c => isspace c = true) sp ->
  match t with c :: _ => isspace c = false | [] => True end -> leading (sp ++ t) = length sp.
Proof.
  intros Hsp Ht. induction Hsp as [|c sp Hc Hsp IH]; cbn; [by destruct t; cbn; rewrite ?Ht|].
  by rewrite Hc, IH.
Qed.

(** processor_brand_string: ENOTSUP when the processor has no brand string;
    else, when the 48 bytes have a NUL after the text, the text without the spaces
    before it.  When the text fills them, the move leaves the terminator behind and
    as many of the last bytes as there were spaces appear twice; a string of spaces
    only stays as it is. *)
Theorem brand_string_correct (cpuid : Z -> regs) (str sp t tail : list Z) :
  Forall (fun c => isspace c = true) sp -> Forall (fun c => c <> 0) t ->
  match t with c :: _ => isspace c = false | [] => True end ->
  (eax (cpuid 0x80000000) < 0x80000004 -> processor_brand_string cpuid str = (ENOTSUP, str)) /\
  (0x80000004 <= eax (cpuid 0x80000000) ->
   (brand cpuid = sp ++ t ++ 0 :: tail ->
    exists str', processor_brand_string cpuid str = (0, str') /\ length str' = 49%nat /\ c_string str' = t) /\
   (brand cpuid = sp ++ t -> t <> [] ->
    exists str', processor_brand_string cpuid str = (0, str') /\ length str' = 49%nat /\
      c_string str' = t ++ drop (48 - length sp) (sp ++ t)) /\
   (brand cpuid = sp -> exists str', processor_brand_string cpuid str = (0, str') /\ c_string str' = sp)).
Proof.
  intros Hsp Ht Hh. split; [intros H; unfold processor_brand_string; by rewrite (proj2 (Z.ltb_lt _ _) H)|].
  intros H. pose proof (length_brand cpuid) as Hb.
  assert (E : processor_brand_string cpuid str = (0, match leading (brand cpuid ++ [0]) with
    | O => brand cpuid ++ [0]
    | _ => take (48 - leading (brand cpuid ++ [0])) (drop (leading (brand cpuid ++ [0])) (brand cpuid ++ [0])) ++
           drop (48 - leading (brand cpuid ++ [0])) (brand cpuid ++ [0]) end)).
  { unfold processor_brand_string. rewrite (proj2 (Z.ltb_ge _ _)) by lia.
    unfold brand. rewrite <- !app_assoc. done. }
  assert (Hl : forall u, brand cpuid ++ [0] = sp ++ u ->
    match u with c :: _ => isspace c = false | [] => True end -> (length sp <= 48)%nat ->
    exists str', processor_brand_string cpuid str = (0, str') /\ length str' = 49%nat /\
      str' = take (48 - length sp) u ++ drop (48 - length sp) (sp ++ u)).
  { intros u Eu Hu Hsl. assert (Hul : length (sp ++ u) = 49%nat) by (rewrite <- Eu, length_app, Hb; done).
    rewrite length_app in Hul.
    rewrite E, Eu, leading_spaces by done. eexists. split; [done|]. rewrite drop_app_length.
    destruct (length sp) as [|k] eqn:El.
    - apply nil_length_inv in El. subst sp. cbn [app] in *. split; [done|]. by rewrite take_drop.
    - split; [|done]. rewrite length_app, length_take, length_drop, length_app. lia. }
  split; [|split].
  - intros Eb. assert (Hbl := f_equal length Eb). rewrite !length_app in Hbl. cbn [length] in Hbl.
    destruct (Hl (t ++ 0 :: tail ++ [0])) as (str' & E' & Hlen & Es); [by rewrite Eb, <- !app_assoc| |lia|].
    { by destruct t. }
    exists str'. split; [done|]. split; [done|]. rewrite Es.
    rewrite take_app_ge by lia. replace (48 - length sp - length t)%nat with (S (length tail)) by lia.
    cbn [firstn]. rewrite <- app_assoc. cbn [app]. by apply c_string_text.
  - intros Eb Hne. assert (Hbl := f_equal length Eb). rewrite !length_app in Hbl.
    destruct (Hl (t ++ [0])) as (str' & E' & Hlen & Es); [by rewrite Eb, <- app_assoc|by destruct t|lia|].
    exists str'. split; [done|]. split; [done|]. rewrite Es.
    rewrite take_app_length' by lia. rewrite app_assoc, drop_app_le, app_assoc by (rewrite length_app; lia).
    apply c_string_text. apply Forall_app. split; [done|]. apply Forall_drop, Forall_app. split; [|done].
    eapply Forall_impl; [exact Hsp|]. unfold isspace. cbn. intros c Hc ->. done.
  - intros Eb. destruct (Hl [0]) as (str' & E' & _ & Es); [by rewrite Eb|done|by rewrite <- Eb, Hb|].
    exists str'. split; [done|]. rewrite Es. assert (length sp = 48%nat) as -> by by rewrite <- Eb.
    cbn [Nat.sub firstn skipn app]. apply c_string_text.
    eapply Forall_impl; [exact Hsp|]. unfold isspace. cbn. intros c Hc ->. done.
Qed.

(** Leaves 0x80000002 and on with the bytes of a text. *)
Definition example_cpuid (text : list Z) (leaf : Z) : regs :=
  if leaf =? 0x80000000 then {| eax := 0x80000008; ebx := 0; ecx := 0; edx := 0 |}
  else
    let r k := le_word (take 4 (drop (16 * Z.to_nat (leaf - 0x80000002) + 4 * k) text)) 0 in
    {| eax := r 0%nat; ebx := r 1%nat; ecx := r 2%nat; edx := r 3%nat |}.

Lemma brand_string_correct_witness :
  exists str', processor_brand_string (example_cpuid ([32; 32; 65; 66] ++ replicate 44 0)) [] = (0, str') /\
    length str' = 49%nat /\ c_string str' = [65; 66].
Proof.
  refine (proj1 (proj2 (brand_string_correct (example_cpuid ([32; 32; 65; 66] ++ replicate 44 0)) []
    [32; 32] [65; 66] (replicate 43 0) _ _ _) _) _).
  - by repeat constructor.
  - by repeat constructor.
  - reflexivity.
  - by vm_compute.
  - by vm_compute.
Defined.

(** What the four sleeps measured. *)
Fixpoint total (readings : list (Z * Z)) : Z :=
  match readings with
  | [] => 0
  | (start, fin) :: readings => (fin - start) + total readings
  end.

Lemma total_fold readings acc :
  Forall (fun p => 0 <= snd p - fst p) readings -> 0 <= acc -> acc + total readings < 2 ^ 64 ->
  fold_left (fun total '(start, fin) => u64 (total + u64 (fin - start))) readings acc = acc + total readings.
Proof.
  revert acc. induction readings as [|[a b] readings IH]; intros acc Hf Ha Hlt; cbn in *; [lia|].
  apply Forall_cons in Hf as [Hab Hf]. cbn in Hab.
  assert (Ht : 0 <= total readings).
  { clear -Hf. induction Hf as [|[x y] l Hxy Hl IH]; cbn in *; lia. }
  rewrite (u64_id (b - a)), u64_id by (unfold fits; lia). rewrite IH by (done || lia). lia.
Qed.

(** tsc_divisor: the microseconds of the counter from four sleeps of a quarter of a
    second, rounded down below seven eighths and up from there on; 0 exactly when
    the processor says that the counter runs at a constant rate. delta_tsc divides
    by it, modulo the wrap of the counter, and faults when it is 0. *)
Theorem tsc_correct (cpuid : Z -> regs) (readings : list (Z * Z)) (rate r start fin : Z) :
  Forall (fun p => 0 <= snd p - fst p) readings -> 0 <= r < 1000000 -> 0 <= rate ->
  total readings = 1000000 * rate + r -> total readings < 2 ^ 63 ->
  let divisor := if r <? 875000 then rate else rate + 1 in
  let '(rc, d) := tsc_divisor cpuid readings in
  d = divisor /\ (rc = 0 \/ rc = EINVAL) /\
  (c_string (fst (fst (fst (cpu_info cpuid)))) = amd ->
   rc = 0 <-> Z.testbit (edx (cpuid 0x80000007)) 8 = true) /\
  delta_tsc cpuid 0 start fin readings =
    (if divisor =? 0 then Fault else Ret (u64 (fin - start) / divisor, divisor)).
Proof.
  intros Hf Hr Hrate Ht Hlt divisor.
  assert (Hd : u64 (fold_left (fun total '(start, fin) => u64 (total + u64 (fin - start))) readings 0 + CAL_TIME / 2) /
    (CAL_TIME * N_LOOPS) = divisor).
  { rewrite total_fold by (done || lia). rewrite Z.add_0_l, Ht.
    change (CAL_TIME / 2) with 125000. change (CAL_TIME * N_LOOPS) with 1000000.
    rewrite u64_id by (unfold fits; lia). subst divisor. destruct (Z.ltb_spec r 875000).
    - symmetry. apply (Z.div_unique _ _ rate (r + 125000)); lia.
    - symmetry. apply (Z.div_unique _ _ (rate + 1) (r - 875000)); lia. }
  assert (Hdel : snd (tsc_divisor cpuid readings) = divisor).
  { unfold tsc_divisor. destruct (cpu_info cpuid) as [[[? ?] ?] ?]. exact Hd. }
  destruct (tsc_divisor cpuid readings) as [rc d] eqn:E. cbn in Hdel. subst d.
  split; [done|]. split; [|split].
  - unfold tsc_divisor in E. destruct (cpu_info cpuid) as [[[? ?] ?] ?]. injection E as <- _.
    case_match; [by case_match; [right|left]|]. by case_match; [left|right].
  - intros Hv. unfold tsc_divisor in E. destruct (cpu_info cpuid) as [[[name ?] ?] ?]. cbn in Hv.
    injection E as <- _. rewrite bool_decide_eq_true_2 by done. change (Z.shiftl 1 8) with (2 ^ 8).
    destruct (Z.testbit (edx (cpuid 0x80000007)) 8) eqn:Eb.
    + split; [done|]. intros _. rewrite (proj2 (Z.eqb_neq _ _)); [done|]. intros H0.
      assert (Hb : Z.testbit (Z.land (edx (cpuid 0x80000007)) (2 ^ 8)) 8 = false) by (rewrite H0; apply Z.bits_0).
      by rewrite Z.land_spec, Eb in Hb.
    + replace (Z.land (edx (cpuid 0x80000007)) (2 ^ 8)) with 0; [done|]. symmetry. apply Z.bits_inj'. intros i Hi.
      rewrite Z.land_spec, Z.bits_0. destruct (decide (i = 8)) as [->|Hn]; [by rewrite Eb|].
      rewrite Z.pow2_bits_false by lia. apply andb_false_r.
  - unfold delta_tsc. cbn [Z.eqb]. rewrite E. cbn [snd]. done.
Qed.

End Cpuid.
