(* ===== verification/Readproc.v ===== *)
(** Processes of Linux (readproc.c): the command line and the state of a process
    from the files of /proc, and the search for a command. *)

From S2P Require Import Prelude Strfmt Args.
Import Strfmt Args.

Module Readproc.

(** ** The files *)

(** A file of /proc: missing, unreadable, or with its bytes. *)
Inductive pfile := NoFile | Unreadable | Bytes (b : list Z).

(** The result and the buffer, all of whose bytes may be used. *)
Definition readproc (file : pfile) (buf : list Z) : outcome (Z * list Z) :=
  match buf with
  | [] => Fault
  | _ :: rest =>
      let buf := 0 :: rest in
      match file with
      | NoFile | Unreadable => Ret (-1, buf)
      | Bytes b =>
          let data := take (length buf - 1) b in
          Ret (zlen data, data ++ 0 :: drop (length data + 1) buf)
      end
  end.

(** [for (i = 0; i < n - 1; ++i) if (buf[i] == 0) buf[i] = ' '] *)
Fixpoint spaces_for_nuls (n : nat) (buf : list Z) : list Z :=
  match n, buf with
  | S n, c :: buf => (if c =? 0 then 32 else c) :: spaces_for_nuls n buf
  | _, _ => buf
  end.

Definition readproccmdline (cmdline : pfile) (buf : list Z) : outcome (Z * list Z) :=
  '(n, buf) ← readproc cmdline buf;
  Ret (n, if 0 <? n then spaces_for_nuls (Z.to_nat (n - 1)) buf else buf).

Definition readproccmd (cmdline : pfile) (buf : list Z) : outcome (Z * list Z) :=
  '(n, buf) ← readproc cmdline buf;
  Ret (if 0 <? n then zlen (c_string buf) else n, buf).

(** ** _findpid *)

Definition LONG_MAX : Z := 2 ^ 63 - 1.

(** A number in base 10: whether it is negative, its magnitude, the rest. *)
Definition scan_number (s : list Z) : option (bool * Z * list Z) :=
  let '(neg, t) :=
    match skip_spaces s with
    | 45 :: t => (true, t)
    | 43 :: t => (false, t)
    | t => (false, t)
    end in
  if is_digit_in 10 (hd 0 t) then let '(v, e) := scan_digits 10 t 0 in Some (neg, v, e) else None.

Definition to_long (neg : bool) (v : Z) : Z :=
  if neg then Z.max (- LONG_MAX - 1) (- v) else Z.min LONG_MAX v.
Definition to_ulonglong (neg : bool) (v : Z) : Z :=
  if ULONG_MAX <? v then ULONG_MAX else if neg then u64 (- v) else v.

(** [strtol] in base 10: the value and the rest, all of the string when there is no
    number. *)
Definition strtol (s : list Z) : Z * list Z :=
  match scan_number s with
  | Some (neg, v, e) => (to_long neg v, e)
  | None => (0, s)
  end.

Fixpoint starts_with (s cmd : list Z) : bool :=
  match cmd, s with
  | [], _ => true
  | c :: cmd, x :: s => (x =? c) && starts_with s cmd
  | _ :: _, [] => false
  end.

(** [strstr] finds the command. *)
Fixpoint strstr (s cmd : list Z) : bool :=
  starts_with s cmd || match s with [] => false | _ :: s => strstr s cmd end.

(** The entries of /proc in the order of readdir; [cmdline] is the file of a process. *)
Fixpoint findpid_loop (cmdline : Z -> pfile) (cmd : list Z) (start_pid : Z) (entries : list (list Z))
    (buf : list Z) : outcome (Z * list Z) :=
  match entries with
  | [] => Ret (0, buf)
  | d_name :: entries =>
      let '(v, e) := strtol d_name in
      let pid := s32 v in
      if negb (bool_decide (e = [])) || (pid <=? start_pid)
      then findpid_loop cmdline cmd start_pid entries buf
      else
        '(_, buf) ← readproccmdline (cmdline pid) buf;
        if strstr (c_string buf) cmd then Ret (pid, buf)
        else findpid_loop cmdline cmd start_pid entries buf
  end.

Definition _findpid (proc : option (list (list Z))) (cmdline : Z -> pfile) (cmd : list Z) (start_pid : Z)
    (buf : list Z) : outcome (Z * list Z) :=
  match proc with
  | None => Ret (0, buf)
  | Some entries => findpid_loop cmdline cmd start_pid entries buf
  end.

Definition findpid (proc : option (list (list Z))) (cmdline : Z -> pfile) (cmd : list Z) (start_pid : Z) :
    outcome Z :=
  '(pid, _) ← _findpid proc cmdline cmd start_pid (replicate 4097 0); Ret pid.

(** ** readprocstat *)

(** The conversions [%d], and [%u] where the value is not stored; [%llu]. *)
Definition scan_int (s : list Z) : option (Z * list Z) :=
  '(neg, v, e) ← scan_number s; Some (s32 (to_long neg v), e).
Definition scan_ull (s : list Z) : option (Z * list Z) :=
  '(neg, v, e) ← scan_number s; Some (to_ulonglong neg v, e).

Definition literal (c : Z) (s : list Z) : option (list Z) :=
  match s with x :: s => if x =? c then Some s else None | [] => None end.

(** [%[^)]]: at least one character that is not the bracket. *)
Fixpoint until_bracket (s : list Z) : list Z * list Z :=
  match s with
  | c :: s' => if c =? 41 then ([], s) else let '(t, r) := until_bracket s' in (c :: t, r)
  | [] => ([], [])
  end.

Fixpoint scan_skip (n : nat) (s : list Z) : option (list Z) :=
  match n with
  | O => Some s
  | S n => '(_, s) ← scan_int s; scan_skip n s
  end.

Record procstat_min := {
  pid : Z; comm : list Z; state : Z; ppid : Z; pgrp : Z; session : Z; starttime : Z
}.

(** What the format takes from the line up to the name in brackets, and after it. *)
Definition scan_name (s : list Z) : option (Z * list Z * list Z) :=
  '(p, s) ← scan_int s;
  s ← literal 40 (skip_spaces s);
  match until_bracket s with
  | ([], _) => None
  | (name, s) => Some (p, name, s)
  end.

Definition scan_rest (p : Z) (name s : list Z) : option procstat_min :=
  s ← literal 41 s;
  match skip_spaces s with
  | [] => None
  | st :: s =>
      '(pp, s) ← scan_int s;
      '(pg, s) ← scan_int s;
      '(ss, s) ← scan_int s;
      s ← scan_skip 15 s;
      '(t, s) ← scan_ull s;
      Some {| pid := p; comm := name; state := st; ppid := pp; pgrp := pg; session := ss; starttime := t |}
  end.

(** [comm] has 18 bytes. *)
Definition readprocstat (stat : pfile) : outcome (Z * option procstat_min) :=
  '(n, buf) ← readproc stat (replicate 128 0);
  if n <=? 0 then Ret (n, None)
  else
    match scan_name (c_string buf) with
    | None => Ret (1, None)
    | Some (p, name, s) =>
        if 18 <=? zlen name then Fault
        else match scan_rest p name s with
             | Some st => Ret (0, Some st)
             | None => Ret (1, None)
             end
    end.

(** ** Numbers *)

Definition int_text (v : Z) : list Z := if v <? 0 then 45 :: _uint2str (- v) else _uint2str v.

Lemma dec_sign (d : Z) (l : list Z) (A : Type) (f : bool -> list Z -> A) :
  48 <= d <= 57 ->
  (let '(neg, t) := match skip_spaces (d :: l) with
                    | 45 :: t => (true, t) | 43 :: t => (false, t) | t => (false, t) end in f neg t) = f false (d :: l).
Proof.
  intros Hd. cbn [skip_spaces]. unfold isspace.
  assert (Hd' : d = 48 \/ d = 49 \/ d = 50 \/ d = 51 \/ d = 52 \/ d = 53 \/ d = 54 \/ d = 55 \/ d = 56 \/ d = 57)
    by lia. by repeat (destruct Hd' as [->|Hd']; [done|]); subst.
Qed.

Lemma uint_digits v : 0 <= v < 2 ^ 64 ->
  exists d l, _uint2str v = d :: l /\ 48 <= d <= 57 /\ Forall (fun c => 48 <= c <= 57) l.
Proof.
  intros Hv. destruct (decide (v = 0)) as [->|Hn].
  - exists 48, []. split; [done|]. by split; [|constructor].
  - destruct (uint2str_digits v) as (d & l & E & Hd & Hl); [lia|]. exists d, l. split; [done|]. split; [lia|done].
Qed.

Lemma scan_digits_uint v rest :
  0 <= v < 2 ^ 64 -> digit_in 10 (hd 0 rest) = None -> scan_digits 10 (_uint2str v ++ rest) 0 = (v, rest).
Proof.
  intros Hv Hr. destruct (uint_digits v Hv) as (d & l & E & Hd & Hl).
  rewrite scan_dec; [|rewrite E; by constructor|done].
  pose proof (uint2str_value v Hv) as V. unfold read_num in V. by rewrite V.
Qed.

Lemma is_digit_uint v rest : 0 <= v < 2 ^ 64 -> is_digit_in 10 (hd 0 (_uint2str v ++ rest)) = true.
Proof.
  intros Hv. destruct (uint_digits v Hv) as (d & l & -> & Hd & _). unfold is_digit_in. cbn.
  by rewrite digit_in_dec.
Qed.

Lemma scan_number_int v rest :
  - 2 ^ 64 < v < 2 ^ 64 -> digit_in 10 (hd 0 rest) = None ->
  scan_number (int_text v ++ rest) = Some (v <? 0, Z.abs v, rest).
Proof.
  intros Hv Hr. unfold int_text. destruct (Z.ltb_spec v 0) as [Hneg|Hpos].
  - unfold scan_number. cbn [app skip_spaces]. change (isspace 45) with false. cbv iota.
    rewrite is_digit_uint, scan_digits_uint by (done || lia). by rewrite Z.abs_neq by lia.
  - destruct (uint_digits v ltac:(lia)) as (d & l & E & Hd & _). unfold scan_number.
    rewrite E. cbn [app].
    rewrite (dec_sign d (l ++ rest) _ (fun neg t => if is_digit_in 10 (hd 0 t) then let '(v, e) := scan_digits 10 t 0 in Some (neg, v, e) else None)) by done.
    change (d :: l ++ rest) with ((d :: l) ++ rest). rewrite <- E.
    rewrite is_digit_uint, scan_digits_uint by (done || lia). by rewrite Z.abs_eq by lia.
Qed.

Lemma scan_number_space s : scan_number (32 :: s) = scan_number s.
Proof. done. Qed.

Lemma to_long_abs v : - 2 ^ 63 <= v < 2 ^ 63 -> to_long (v <? 0) (Z.abs v) = v.
Proof. intros Hv. unfold to_long, LONG_MAX. destruct (Z.ltb_spec v 0); lia. Qed.

Lemma strtol_int v rest :
  - 2 ^ 63 <= v < 2 ^ 63 -> digit_in 10 (hd 0 rest) = None -> strtol (int_text v ++ rest) = (v, rest).
Proof.
  intros Hv Hr. unfold strtol. rewrite scan_number_int by (done || lia). by rewrite to_long_abs.
Qed.

Definition is_int (v : Z) : Prop := - 2 ^ 31 <= v < 2 ^ 31.

Lemma s32_int v : is_int v -> s32 v = v.
Proof. unfold is_int, s32. intros Hv. rewrite Z.mod_small; lia. Qed.

Lemma scan_int_text v rest :
  is_int v -> digit_in 10 (hd 0 rest) = None -> scan_int (32 :: int_text v ++ rest) = Some (v, rest).
Proof.
  intros Hv Hr. unfold scan_int. rewrite scan_number_space, scan_number_int; [|unfold is_int in Hv; lia|done].
  cbn [mbind option_bind]. rewrite to_long_abs by (unfold is_int in Hv; lia). by rewrite s32_int.
Qed.

(** ** The command line *)

(** The file of a process with these arguments, and the line to show. *)
Definition cmdline_file (args : list (list Z)) : list Z := concat (map (fun a => a ++ [0]) args).

Fixpoint join_args (args : list (list Z)) : list Z :=
  match args with
  | [] => []
  | [a] => a
  | a :: args => a ++ 32 :: join_args args
  end.

Lemma spaces_for_nuls_arg a n r :
  Forall (fun c => c <> 0) a -> spaces_for_nuls (length a + n) (a ++ r) = a ++ spaces_for_nuls n r.
Proof.
  intros Ha. induction Ha as [|c a Hc Ha IH]; [done|]. cbn. by rewrite (proj2 (Z.eqb_neq _ _) Hc), IH.
Qed.

Lemma spaces_for_nuls_args args r :
  args <> [] -> Forall (Forall (fun c => c <> 0)) args ->
  spaces_for_nuls (length (cmdline_file args) - 1) (cmdline_file args ++ r) = join_args args ++ 0 :: r.
Proof.
  intros Hne Hargs. induction Hargs as [|a args Ha Hargs IH]; [done|].
  unfold cmdline_file in *. cbn [map concat]. rewrite <- !app_assoc. cbn [app].
  destruct args as [|b args].
  - cbn [map concat app join_args]. rewrite length_app. cbn [length].
    replace (length a + 1 - 1)%nat with (length a + 0)%nat by lia.
    by rewrite spaces_for_nuls_arg.
  - specialize (IH ltac:(done)). set (t := concat (map (fun a => a ++ [0]) (b :: args))) in *.
    assert (Ht : (0 < length t)%nat) by (subst t; cbn; rewrite length_app, length_app; cbn; lia).
    rewrite !length_app. cbn [length].
    replace (length a + S (length t) - 1)%nat with (length a + S (length t - 1))%nat by lia.
    rewrite spaces_for_nuls_arg by done. cbn [spaces_for_nuls Z.eqb]. rewrite IH.
    change (join_args (a :: b :: args)) with (a ++ 32 :: join_args (b :: args)). by rewrite <- app_assoc.
Qed.

Lemma join_args_nonzero args : Forall (Forall (fun c => c <> 0)) args -> Forall (fun c => c <> 0) (join_args args).
Proof.
  intros H. induction H as [|a args Ha H IH]; [done|]. destruct args as [|b args]; [done|].
  change (join_args (a :: b :: args)) with (a ++ 32 :: join_args (b :: args)).
  apply Forall_app. split; [done|]. by constructor.
Qed.

(** What a buffer of [n] bytes shows of a file. *)
Definition shown (n : nat) (file : pfile) : list Z :=
  match file with
  | Bytes b => let d := take (n - 1) b in c_string (spaces_for_nuls (length d - 1) d ++ [0])
  | _ => []
  end.

Lemma spaces_for_nuls_app n d r : (n <= length d)%nat -> spaces_for_nuls n (d ++ r) = spaces_for_nuls n d ++ r.
Proof.
  revert d. induction n as [|n IH]; intros [|c d] Hn; cbn in *; try done; [lia|]. rewrite IH by lia. done.
Qed.

Lemma c_string_first t r r' : c_string (t ++ 0 :: r) = c_string (t ++ 0 :: r').
Proof. induction t as [|c t IH]; [done|]. cbn. by destruct (c =? 0); rewrite ?IH. Qed.

Lemma spaces_for_nuls_length n buf : length (spaces_for_nuls n buf) = length buf.
Proof. revert buf. induction n as [|n IH]; intros [|c buf]; cbn; by rewrite ?IH. Qed.

Lemma readproccmdline_shown file buf :
  buf <> [] ->
  exists n buf', readproccmdline file buf = Ret (n, buf') /\ length buf' = length buf /\
    c_string buf' = shown (length buf) file /\ (n = -1 <-> match file with Bytes _ => False | _ => True end).
Proof.
  intros Hne. destruct buf as [|c0 rest]; [done|]. unfold readproccmdline, readproc. cbn [length].
  rewrite Nat.sub_succ, Nat.sub_0_r.
  destruct file as [| |b]; [eexists _, _; by repeat split..|]. cbn [mbind outcome_bind].
  set (d := take (length rest) b).
  assert (Hd : (length d <= length rest)%nat) by (subst d; rewrite length_take; lia).
  set (r := drop (length d + 1) (0 :: rest)).
  assert (Hr : length (d ++ 0 :: r) = S (length rest)).
  { subst r. rewrite length_app. cbn [length]. rewrite length_drop. cbn [length]. lia. }
  eexists _, _. split; [done|]. cbn [shown]. rewrite Nat.sub_succ, Nat.sub_0_r. fold d.
  split; [|split; [|unfold zlen; lia]].
  - destruct (0 <? zlen d); [|done]. by rewrite spaces_for_nuls_length.
  - destruct (Z.ltb_spec 0 (zlen d)) as [Hpos|Hpos].
    + replace (Z.to_nat (zlen d - 1)) with (length d - 1)%nat by (unfold zlen; lia).
      rewrite spaces_for_nuls_app by lia. apply c_string_first.
    + assert (length d = 0%nat) as E by (unfold zlen in Hpos; lia). apply nil_length_inv in E. by rewrite E.
Qed.

Lemma shown_args args n :
  args <> [] -> Forall (Forall (fun c => c <> 0)) args -> (length (cmdline_file args) < n)%nat ->
  shown n (Bytes (cmdline_file args)) = join_args args.
Proof.
  intros Hne Hargs Hn. cbn [shown]. rewrite take_ge by lia.
  rewrite <- spaces_for_nuls_app by lia. rewrite spaces_for_nuls_args by done.
  apply c_string_text. by apply join_args_nonzero.
Qed.

(** ** The search *)

(** The process an entry of /proc is for. *)
Definition entry_pid (d_name : list Z) : option Z :=
  let '(v, e) := strtol d_name in if bool_decide (e = []) then Some (s32 v) else None.

Definition found (cmdline : Z -> pfile) (cmd : list Z) (start_pid : Z) (n : nat) (p : Z) : Prop :=
  start_pid < p /\ strstr (shown n (cmdline p)) cmd = true.

#[export] Instance found_dec cmdline cmd start_pid n p : Decision (found cmdline cmd start_pid n p).
Proof. unfold found. apply _. Defined.

Lemma findpid_loop_spec cmdline cmd start_pid entries buf :
  buf <> [] ->
  exists buf', length buf' = length buf /\
    findpid_loop cmdline cmd start_pid entries buf =
      Ret (default 0 (head (filter (found cmdline cmd start_pid (length buf)) (omap entry_pid entries))), buf') /\
    (forall p, head (filter (found cmdline cmd start_pid (length buf)) (omap entry_pid entries)) = Some p ->
       c_string buf' = shown (length buf) (cmdline p)).
Proof.
  revert buf. induction entries as [|e entries IH]; intros buf Hne; [by exists buf|].
  cbn [findpid_loop]. change (omap entry_pid (e :: entries)) with
    (match entry_pid e with Some p => p :: omap entry_pid entries | None => omap entry_pid entries end).
  destruct (strtol e) as [v r] eqn:Es.
  replace (entry_pid e) with (if bool_decide (r = []) then Some (s32 v) else None) by (unfold entry_pid; by rewrite Es).
  destruct (bool_decide (r = [])); cbn [negb orb]; [|exact (IH buf Hne)].
  rewrite !filter_cons.
  destruct (Z.leb_spec (s32 v) start_pid) as [Hle|Hgt].
  { rewrite decide_False by (intros [? _]; lia). by apply IH. }
  destruct (readproccmdline_shown (cmdline (s32 v)) buf Hne) as (n & buf1 & E & Hl & Hs & _).
  rewrite E. cbn [mbind outcome_bind]. rewrite Hs.
  destruct (strstr (shown (length buf) (cmdline (s32 v))) cmd) eqn:Ef.
  - rewrite decide_True by done. exists buf1. split; [done|]. split; [done|]. by intros p [= <-].
  - rewrite decide_False by (intros [_ ?]; congruence). rewrite <- Hl. apply IH. intros ->. by destruct buf.
Qed.

Lemma starts_with_spec s cmd : starts_with s cmd = true <-> exists b, s = cmd ++ b.
Proof.
  revert s. induction cmd as [|c cmd IH]; intros [|x s]; cbn [starts_with].
  - split; [by exists []|done].
  - split; [by exists (x :: s)|done].
  - split; [done|]. by intros [b ?].
  - rewrite andb_true_iff, Z.eqb_eq, IH. split.
    + intros [-> [b ->]]. by exists b.
    + intros [b [= -> ->]]. split; [done|]. by exists b.
Qed.

Lemma strstr_spec s cmd : strstr s cmd = true <-> exists a b, s = a ++ cmd ++ b.
Proof.
  induction s as [|x s IH]; cbn [strstr]; rewrite orb_true_iff, starts_with_spec.
  - split; [intros [[b E]|?]; [by exists [], b|done]|]. intros (a & b & E). left. exists b.
    by destruct a.
  - rewrite IH. split.
    + intros [[b E]|(a & b & E)]; [by exists [], b|]. exists (x :: a), b. by rewrite E.
    + intros ([|y a] & b & E); [left; by exists b|]. right. injection E as -> ->. by exists a, b.
Qed.

Lemma strtol_int_name v : is_int v -> entry_pid (int_text v) = Some v.
Proof.
  intros Hv. unfold entry_pid. rewrite <- (app_nil_r (int_text v)).
  rewrite strtol_int by (done || (unfold is_int in Hv; lia)). cbn. by rewrite s32_int.
Qed.

Lemma found_args cmdline cmd start_pid n p args :
  cmdline p = Bytes (cmdline_file args) ->
  args <> [] -> Forall (Forall (fun c => c <> 0)) args -> (length (cmdline_file args) < n)%nat ->
  found cmdline cmd start_pid n p <-> start_pid < p /\ exists a b, join_args args = a ++ cmd ++ b.
Proof. intros E Hne Hargs Hn. unfold found. by rewrite E, shown_args, strstr_spec by done. Qed.

(** _findpid goes through /proc in its order and returns the first process after
    start_pid whose command line, its arguments joined by spaces and cut to the buffer,
    contains the command; it leaves that line in the buffer, as readproccmdline does, and
    returns 0 when there is none or no /proc; an entry stands for the number it
    is, and for nothing when it is not a number. *)
Theorem findpid_correct cmdline cmd start_pid entries buf :
  buf <> [] ->
  _findpid None cmdline cmd start_pid buf = Ret (0, buf) /\
  (exists buf',
    let hits := filter (found cmdline cmd start_pid (length buf)) (omap entry_pid entries) in
    length buf' = length buf /\
    _findpid (Some entries) cmdline cmd start_pid buf = Ret (default 0 (head hits), buf') /\
    (forall p, head hits = Some p -> c_string buf' = shown (length buf) (cmdline p))) /\
  (forall v, is_int v -> entry_pid (int_text v) = Some v) /\
  (forall d l, digit_in 10 d = None -> isspace d = false -> d <> 43 -> d <> 45 -> entry_pid (d :: l) = None) /\
  (forall p args,
    cmdline p = Bytes (cmdline_file args) -> args <> [] -> Forall (Forall (fun c => c <> 0)) args ->
    (length (cmdline_file args) < length buf)%nat ->
    shown (length buf) (cmdline p) = join_args args /\
    (found cmdline cmd start_pid (length buf) p <->
     start_pid < p /\ exists a b, join_args args = a ++ cmd ++ b)).
Proof.
  intros Hne. split; [done|]. split.
  { destruct (findpid_loop_spec cmdline cmd start_pid entries buf Hne) as (buf' & H1 & H2 & H3).
    by exists buf'. }
  split; [apply strtol_int_name|]. split.
  - intros d l Hd Hs Hp Hm. unfold entry_pid, strtol, scan_number. cbn [skip_spaces]. rewrite Hs.
    assert (E : forall (A : Type) (f : bool -> list Z -> A),
      (let '(neg, t) := match d :: l with 45 :: t => (true, t) | 43 :: t => (false, t) | t => (false, t) end in f neg t)
      = f false (d :: l)).
    { intros A f. destruct d as [|d|d]; try done.
      by do 6 (destruct d as [d|d|]; try done). }
    rewrite (E _ (fun neg t => _)). cbn [hd]. unfold is_digit_in. by rewrite Hd.
  - intros p args E Ha Hargs Hl. split; [|by apply found_args]. rewrite E. by apply shown_args.
Qed.

Definition procs (p : Z) : pfile :=
  match p with 1 => Bytes (cmdline_file [[105]]) | 7 | 9 => Bytes (cmdline_file [[118; 105]; [120]]) | _ => NoFile end.

Lemma findpid_correct_witness :
  exists buf', _findpid (Some [[49]; [110]; [55]; [57]]) procs [105; 32; 120] 0 (replicate 8 0) = Ret (7, buf') /\
    c_string buf' = [118; 105; 32; 120].
Proof.
  destruct (findpid_correct procs [105; 32; 120] 0 [[49]; [110]; [55]; [57]] (replicate 8 0) ltac:(done))
    as (_ & (buf' & _ & E & S) & _ & _ & A).
  exists buf'. split; [rewrite E; by vm_compute|]. rewrite (S 7 ltac:(by vm_compute)).
  refine (proj1 (A 7 [[118; 105]; [120]] eq_refl ltac:(done) _ ltac:(cbn; lia))).
  repeat constructor; lia.
Defined.

(** ** The state of a process *)

Definition skipped (l : list Z) : list Z := concat (map (fun v => 32 :: int_text v) l).

Definition stat_line (p : Z) (name : list Z) (st pp pg ss : Z) (l : list Z) (t : Z) : list Z :=
  int_text p ++ 32 :: 40 :: name ++ 41 :: 32 :: st :: 32 :: int_text pp ++ 32 :: int_text pg ++ 32 :: int_text ss
  ++ skipped l ++ 32 :: _uint2str t.

Lemma scan_int_first v rest :
  is_int v -> digit_in 10 (hd 0 rest) = None -> scan_int (int_text v ++ rest) = Some (v, rest).
Proof.
  intros Hv Hr. by rewrite <- (scan_int_text v rest Hv Hr).
Qed.

Lemma until_bracket_name name rest :
  Forall (fun c => c <> 41) name -> until_bracket (name ++ 41 :: rest) = (name, 41 :: rest).
Proof.
  intros H. induction H as [|c name Hc H IH]; [done|]. cbn. by rewrite (proj2 (Z.eqb_neq _ _) Hc), IH.
Qed.

Lemma scan_name_line p name rest :
  is_int p -> name <> [] -> Forall (fun c => c <> 41) name ->
  scan_name (int_text p ++ 32 :: 40 :: name ++ 41 :: rest) = Some (p, name, 41 :: rest).
Proof.
  intros Hp Hne Hname. unfold scan_name. rewrite scan_int_first by done. cbn -[until_bracket].
  rewrite until_bracket_name by done. by destruct name.
Qed.

Lemma scan_skip_line l rest :
  Forall (fun v => - 2 ^ 64 < v < 2 ^ 64) l -> digit_in 10 (hd 0 rest) = None ->
  scan_skip (length l) (skipped l ++ rest) = Some rest.
Proof.
  intros H Hr. induction H as [|v l Hv H IH]; [done|]. cbn [length scan_skip]. unfold skipped in *.
  cbn [map concat]. rewrite <- app_assoc. unfold scan_int. cbn [app]. rewrite scan_number_space, scan_number_int; [|done|].
  - cbn [mbind option_bind]. exact IH.
  - by destruct l.
Qed.

Lemma scan_ull_text t rest :
  0 <= t < 2 ^ 64 -> digit_in 10 (hd 0 rest) = None -> scan_ull (32 :: _uint2str t ++ rest) = Some (t, rest).
Proof.
  intros Ht Hr. unfold scan_ull. rewrite scan_number_space.
  assert (_uint2str t = int_text t) as -> by (unfold int_text; by rewrite (proj2 (Z.ltb_ge _ _)) by lia).
  rewrite scan_number_int by (done || lia). cbn [mbind option_bind]. unfold to_ulonglong, ULONG_MAX.
  rewrite Z.abs_eq by lia. rewrite (proj2 (Z.ltb_ge _ t)) by lia. by rewrite (proj2 (Z.ltb_ge t 0)) by lia.
Qed.

Lemma scan_rest_line p name st pp pg ss l t rest :
  isspace st = false -> is_int pp -> is_int pg -> is_int ss ->
  length l = 15%nat -> Forall (fun v => - 2 ^ 64 < v < 2 ^ 64) l -> 0 <= t < 2 ^ 64 ->
  digit_in 10 (hd 0 rest) = None ->
  scan_rest p name (41 :: 32 :: st :: 32 :: int_text pp ++ 32 :: int_text pg ++ 32 :: int_text ss
                    ++ skipped l ++ 32 :: _uint2str t ++ rest)
  = Some {| pid := p; comm := name; state := st; ppid := pp; pgrp := pg; session := ss; starttime := t |}.
Proof.
  intros Hst Hpp Hpg Hss Hl HF Ht Hr. unfold scan_rest. cbn [literal Z.eqb Pos.eqb mbind option_bind skip_spaces].
  change (isspace 32) with true. cbv iota. cbn [skip_spaces]. rewrite Hst.
  rewrite scan_int_text by done. cbn [mbind option_bind].
  rewrite scan_int_text by done. cbn [mbind option_bind].
  rewrite scan_int_text by (done || by destruct l). cbn [mbind option_bind].
  rewrite <- Hl, scan_skip_line by done. cbn [mbind option_bind].
  rewrite scan_ull_text by done. done.
Qed.
Lemma readproc_text b :
  b <> [] -> Forall (fun c => c <> 0) b ->
  exists n buf, readproc (Bytes b) (replicate 128 0) = Ret (n, buf) /\ 0 < n /\ c_string buf = take 127 b.
Proof.
  intros Hne Hb. unfold readproc. cbn [replicate]. eexists _, _. split; [done|].
  change (length (0 :: _) - 1)%nat with 127%nat. split.
  - destruct b; [done|]. unfold zlen. cbn. lia.
  - apply c_string_text. by apply Forall_take.
Qed.

(** A line whose name is followed by [rest]. *)
Lemma readprocstat_name b p name rest :
  Forall (fun c => c <> 0) b -> take 127 b = int_text p ++ 32 :: 40 :: name ++ 41 :: rest ->
  is_int p -> name <> [] -> Forall (fun c => c <> 41) name ->
  readprocstat (Bytes b) =
    if 18 <=? zlen name then Fault
    else match scan_rest p name (41 :: rest) with Some st => Ret (0, Some st) | None => Ret (1, None) end.
Proof.
  intros Hb E Hp Hne Hname. assert (Hb' : b <> []).
  { intros ->. rewrite take_nil in E. unfold int_text in E.
    destruct (uint_digits (Z.abs p)) as (d & l & Eu & _); [unfold is_int in Hp; lia|].
    destruct (Z.ltb_spec p 0); [done|]. rewrite Z.abs_eq in Eu by lia. by rewrite Eu in E. }
  destruct (readproc_text b Hb' Hb) as (n & buf & Er & Hn & Hs). unfold readprocstat. rewrite Er.
  cbn [mbind outcome_bind]. rewrite (proj2 (Z.leb_gt _ _) Hn), Hs, E. by rewrite scan_name_line.
Qed.

(** readprocstat reads back the fields of a line of /proc/pid/stat of at most 127
    bytes up to the start time, whatever follows; it fails with -1 without the file and
    with 0 on an empty one. A name of 18 bytes and more does not fit in comm, and a name
    with a bracket before its last byte makes it fail with 1, which its comment says
    cannot happen. *)
Theorem readprocstat_correct p name st pp pg ss l t more :
  is_int p -> name <> [] -> Forall (fun c => c <> 41 /\ c <> 0) name ->
  isspace st = false -> is_int pp -> is_int pg -> is_int ss ->
  length l = 15%nat -> Forall (fun v => - 2 ^ 64 < v < 2 ^ 64) l -> 0 <= t < 2 ^ 64 ->
  Forall (fun c => c <> 0) (stat_line p name st pp pg ss l t ++ 32 :: more) ->
  (length (stat_line p name st pp pg ss l t) <= 127)%nat ->
  readprocstat (Bytes (stat_line p name st pp pg ss l t ++ 32 :: more)) =
    (if 18 <=? zlen name then Fault
     else Ret (0, Some {| pid := p; comm := name; state := st; ppid := pp; pgrp := pg; session := ss; starttime := t |}))
  /\ readprocstat NoFile = Ret (-1, None) /\ readprocstat (Bytes []) = Ret (0, None) /\
  (forall c rest, isspace c = false -> Forall (fun c => c <> 0) (c :: rest) ->
    (length (int_text p ++ 32%Z :: 40%Z :: name ++ [41%Z; c; 41%Z]) <= 127)%nat -> zlen name < 18 ->
    readprocstat (Bytes (int_text p ++ 32 :: 40 :: name ++ 41 :: c :: 41 :: rest)) = Ret (1, None)).
Proof.
  intros Hp Hne Hname Hst Hpp Hpg Hss Hl HF Ht Hnz Hlen.
  assert (Hn1 : Forall (fun c => c <> 41) name) by (eapply Forall_impl; [exact Hname|]; by intros ? []).
  assert (Hn0 : Forall (fun c => c <> 0) name) by (eapply Forall_impl; [exact Hname|]; by intros ? []).
  split; [|split; [done|split; [done|]]].
  - set (rest := take (127 - length (stat_line p name st pp pg ss l t)) (32 :: more)).
    assert (Hr : digit_in 10 (hd 0 rest) = None) by (subst rest; by destruct (_ - _)%nat).
    rewrite (readprocstat_name _ p name
      (32 :: st :: 32 :: int_text pp ++ 32 :: int_text pg ++ 32 :: int_text ss ++ skipped l ++ 32 :: _uint2str t ++ rest));
      [by rewrite scan_rest_line|done| |done..].
    rewrite take_app, take_ge by done. fold rest. unfold stat_line. by repeat (rewrite <- app_assoc; cbn [app]).
  - intros c rest Hc Hnz' Hlen' Hn.
    set (line := int_text p ++ 32 :: 40 :: name ++ [41; c; 41]) in *.
    assert (E : forall r, int_text p ++ 32 :: 40 :: name ++ 41 :: c :: 41 :: r = line ++ r).
    { intros r. subst line. by repeat (rewrite <- app_assoc; cbn [app]). }
    rewrite (readprocstat_name _ p name (c :: 41 :: take (127 - length line) rest)); [..|done|done|done].
    + rewrite (proj2 (Z.leb_gt _ _)) by lia. unfold scan_rest.
      cbn [literal Z.eqb Pos.eqb mbind option_bind skip_spaces]. by rewrite Hc.
    + rewrite E. apply Forall_app. split; [|by inversion Hnz'].
      apply Forall_app in Hnz as [Hnz _]. unfold stat_line in Hnz. apply Forall_app in Hnz as [Hi _].
      subst line. apply Forall_app. split; [done|]. do 2 (constructor; [lia|]). apply Forall_app. split; [done|].
      inversion Hnz'; subst. by repeat (constructor; [done|]).
    + rewrite E, take_app, take_ge by done. by rewrite E.
Qed.

Lemma readprocstat_correct_witness :
  readprocstat (Bytes (stat_line 7 [118; 105] 83 1 7 7 (replicate 15 (-1)) 1234 ++ [32; 49; 10])) =
    Ret (0, Some {| pid := 7; comm := [118; 105]; state := 83; ppid := 1; pgrp := 7; session := 7; starttime := 1234 |}).
Proof.
  refine (proj1 (readprocstat_correct 7 [118; 105] 83 1 7 7 (replicate 15 (-1)) 1234 [49; 10] _ _ _ _ _ _ _ _ _ _ _ _));
    unfold is_int; try done; try (repeat constructor; done); try (vm_compute; lia); try by repeat constructor.
Defined.

End Readproc.
