(* ===== verification/BtPage.v ===== *)
(** The pages of a btree (db.1.85/btree.h): their layout, the insertion and removal of
    an item, and the division of a page in two (bt_psplit of db.1.85/bt_split.c).  A page
    is the header, the array of offsets and the items at these offsets; the
    layout invariant says that the items tile the upper end of the page.  The
    operations are shown to insert into, delete from and divide the list of the
    items, as long as an item takes at most 5/14 of a page; a page on which
    bt_psplit goes wrong because one is larger is at the end. *)

From S2P Require Import Prelude.

Module BtPage.

(** ** Constants and sizes (btree.h, include/db.h) *)

Definition P_INVALID : Z := 0.
Definition P_ROOT : Z := 1.
Definition P_BINTERNAL : Z := 0x01.
Definition P_BLEAF : Z := 0x02.
Definition P_OVERFLOW : Z := 0x04.
Definition P_TYPE : Z := 0x1f.
Definition P_PRESERVE : Z := 0x20.
Definition P_BIGDATA : Z := 0x01.
Definition P_BIGKEY : Z := 0x02.
Definition BTDATAOFF : Z := 4 + 4 + 4 + 4 + 2 + 2.

Definition LALIGN (n : Z) : Z := Z.land (n + 4 - 1) (Z.lnot (4 - 1)).
Definition NBINTERNAL (len : Z) : Z := LALIGN (4 + 4 + 1 + len).
Definition NBLEAFDBT (ksize dsize : Z) : Z := LALIGN (4 + 4 + 1 + ksize + dsize).

(** Flags of a word. *)
Definition is_set (w f : Z) : bool := negb (Z.land w f =? 0).

(** ** Memory *)

(** An array: [m[i] = v], and [memmove] of [n] entries. *)
Definition put {A} (m : Z -> A) (i : Z) (v : A) : Z -> A := fun x => if x =? i then v else m x.
Definition memmove {A} (m : Z -> A) (dst src n : Z) : Z -> A :=
  fun x => if (dst <=? x) && (x <? dst + n) then m (x - dst + src) else m x.

(** What is at an offset of a page: an item of an internal page (a child and the bytes of
    its key), of a leaf page (the bytes of the key and of the data), or neither. *)
Inductive item :=
  | BINTERNAL (pgno flags : Z) (bytes : list Z)
  | BLEAF (flags : Z) (key data : list Z)
  | Junk.

Record page := {
  pgno : Z; prevpg : Z; nextpg : Z; flags : Z; lower : Z; upper : Z;
  linp : Z -> Z;
  items : Z -> item;
  bytes : list Z;       (** of an overflow page *)
}.

Definition set_prevpg (h : page) (p : Z) : page :=
  {| pgno := pgno h; prevpg := p; nextpg := nextpg h; flags := flags h; lower := lower h; upper := upper h;
     linp := linp h; items := items h; bytes := bytes h |}.
Definition set_nextpg (h : page) (p : Z) : page :=
  {| pgno := pgno h; prevpg := prevpg h; nextpg := p; flags := flags h; lower := lower h; upper := upper h;
     linp := linp h; items := items h; bytes := bytes h |}.
Definition set_flags (h : page) (f : Z) : page :=
  {| pgno := pgno h; prevpg := prevpg h; nextpg := nextpg h; flags := f; lower := lower h; upper := upper h;
     linp := linp h; items := items h; bytes := bytes h |}.
Definition set_lower (h : page) (n : Z) : page :=
  {| pgno := pgno h; prevpg := prevpg h; nextpg := nextpg h; flags := flags h; lower := u16 n; upper := upper h;
     linp := linp h; items := items h; bytes := bytes h |}.
Definition set_bytes (h : page) (b : list Z) : page :=
  {| pgno := pgno h; prevpg := prevpg h; nextpg := nextpg h; flags := flags h; lower := lower h; upper := upper h;
     linp := linp h; items := items h; bytes := b |}.
Definition set_layout (h : page) (n : Z) (p : Z -> Z) (its : Z -> item) : page :=
  {| pgno := pgno h; prevpg := prevpg h; nextpg := nextpg h; flags := flags h; lower := lower h; upper := u16 n;
     linp := p; items := its; bytes := bytes h |}.

(** The header of a new page; the rest stays. *)
Definition init_page (h : page) (n prev next fl lo up : Z) : page :=
  {| pgno := n; prevpg := prev; nextpg := next; flags := fl; lower := u16 lo; upper := u16 up;
     linp := linp h; items := items h; bytes := bytes h |}.

Definition NEXTINDEX (h : page) : Z := u64 (lower h - BTDATAOFF) / 2.

Definition entry (h : page) (indx : Z) : item := items h (linp h indx).

(** An entry of the other kind would be read as one of this kind. *)
Definition GETBINTERNAL (h : page) (indx : Z) : outcome (Z * Z * list Z) :=
  match entry h indx with BINTERNAL pg fl b => Ret (pg, fl, b) | _ => Fault end.
Definition GETBLEAF (h : page) (indx : Z) : outcome (Z * list Z * list Z) :=
  match entry h indx with BLEAF fl k d => Ret (fl, k, d) | _ => Fault end.

(** The bytes an item takes. *)
Definition size (it : item) : Z :=
  match it with
  | BINTERNAL _ _ b => NBINTERNAL (zlen b)
  | BLEAF _ k d => NBLEAFDBT (zlen k) (zlen d)
  | Junk => 0
  end.

(** ** Insertion and removal *)

(** [if (h->upper - h->lower < nbytes + sizeof(indx_t))] *)
Definition no_room (h : page) (nbytes : Z) : bool := u64 (upper h - lower h) <? nbytes + 2.

(** [memmove(h->linp + index + 1, h->linp + index, ...); h->lower += sizeof(indx_t);] *)
Definition open_index (h : page) (index : Z) : page :=
  let nxtindex := u16 (NEXTINDEX h) in
  let p := if index <? nxtindex then memmove (linp h) (index + 1) index (nxtindex - index) else linp h in
  set_lower (set_layout h (upper h) p (items h)) (lower h + 2).

(** [h->linp[index] = h->upper -= nbytes;] and the bytes of the item there. *)
Definition add_item (h : page) (index nbytes : Z) (it : item) : page :=
  let up := u16 (upper h - nbytes) in
  set_layout h up (put (linp h) index up) (put (items h) up it).

(** Pack the remaining items at the end of the page, adjust the offsets and shift the
    indices down: the offset of an index, and the array after the two loops, the second
    of which ends when [--cnt] is 0. *)
Definition adjust (offset nbytes o : Z) : Z := if o <? offset then u16 (o + nbytes) else o.

Definition pack (h : page) (index nbytes : Z) : page :=
  let offset := linp h index in
  let from := upper h in
  let its := memmove (items h) (from + nbytes) from (offset - from) in
  let cnt := u16 (u16 (NEXTINDEX h - index) - 1) in
  let p := fun x =>
    if (0 <=? x) && (x <? index) then adjust offset nbytes (linp h x)
    else if (index <=? x) && (x <? index + cnt) then adjust offset nbytes (linp h (x + 1))
    else linp h x in
  set_lower (set_layout h (from + nbytes) p its) (lower h - 2).

(** ** bt_psplit *)

(** The cursor of a tree (CURSOR): a place, the key of a deleted record, flags. *)
Record cursor := { c_pgno : Z; c_index : Z; c_key : list Z; c_flags : Z }.

Definition CURS_ACQUIRE : Z := 0x01.
Definition CURS_AFTER : Z := 0x02.
Definition CURS_BEFORE : Z := 0x04.
Definition CURS_INIT : Z := 0x08.

Definition set_place (c : cursor) (pg index : Z) : cursor :=
  {| c_pgno := pg; c_index := index; c_key := c_key c; c_flags := c_flags c |}.

(** The item at an index, its size and whether its key is on overflow pages, by the
    type of the page.  There are no recno pages. *)
Definition source (h : page) (nxt : Z) : outcome (item * Z * bool) :=
  let ty := Z.land (flags h) P_TYPE in
  if ty =? P_BINTERNAL then
    '(pg, fl, b) ← GETBINTERNAL h nxt;
    Ret (BINTERNAL pg fl b, NBINTERNAL (zlen b), is_set fl P_BIGKEY)
  else if ty =? P_BLEAF then
    '(fl, k, d) ← GETBLEAF h nxt;
    Ret (BLEAF fl k d, NBLEAFDBT (zlen k) (zlen d), is_set fl P_BIGKEY)
  else Fault.

(** The first loop: [l], [nxt] and [off] at its end. *)
Fixpoint split_left (fuel : nat) (h l : page) (skip ilen full half top nxt off used bigkeycnt : Z) :
    outcome (page * Z * Z) :=
  match fuel with
  | O => Fault
  | S fuel =>
      if negb (nxt <? top) then Ret (l, nxt, off)
      else
        '(src, nbytes, isbigkey) ←
          (if skip =? off then Ret (Junk, ilen, false) else source h nxt);
        if (skip <=? off) && (full <=? used + nbytes) then Ret (l, nxt, u16 (off - 1))
        else
          let '(nxt, l) := if skip =? off then (nxt, l) else (nxt + 1, add_item l off nbytes src) in
          let used := u16 (used + nbytes) in
          if half <=? used then
            if negb isbigkey || (bigkeycnt =? 3) then Ret (l, nxt, off)
            else split_left fuel h l skip ilen full half top nxt (u16 (off + 1)) used (bigkeycnt + 1)
          else split_left fuel h l skip ilen full half top nxt (u16 (off + 1)) used bigkeycnt
  end.

(** The second loop: [r], [off] and [skip] at its end; [todo] is [top - nxt]. *)
Fixpoint split_right (todo : nat) (h r : page) (skip nxt off : Z) : outcome (page * Z * Z) :=
  match todo with
  | O => Ret (r, off, skip)
  | S todo =>
      let '(off, skip) := if skip =? nxt then (u16 (off + 1), 0) else (off, skip) in
      '(src, nbytes, _) ← source h nxt;
      split_right todo h (add_item r off nbytes src) skip (nxt + 1) (u16 (off + 1))
  end.

Definition split_cursor (c : cursor) (h l r : page) (skip nxt : Z) : cursor :=
  if is_set (c_flags c) CURS_INIT && (c_pgno c =? pgno h) then
    let index := if skip <=? c_index c then u16 (c_index c + 1) else c_index c in
    if index <? nxt then set_place c (pgno l) index else set_place c (pgno r) (index - nxt)
  else c.

(** Whether the index that is left open is on the left page, that index, the two pages
    and the cursor.  The loops make at most one turn more than there are items. *)
Definition bt_psplit (psize : Z) (c : cursor) (h l r : page) (pskip ilen : Z) :
    outcome (bool * Z * page * page * cursor) :=
  let skip := pskip in
  let full := u16 (psize - BTDATAOFF) in
  let half := full / 2 in
  let top := u16 (NEXTINDEX h) in
  '(l, nxt, off) ← split_left (Z.to_nat top + 2) h l skip ilen full half top 0 0 0 0;
  let l := set_lower l (lower l + (off + 1) * 2) in
  let c := split_cursor c h l r skip nxt in
  let '(onleft, skip, pskip) :=
    if skip <=? off then (true, 0, pskip) else (false, skip, u16 (pskip - nxt)) in
  '(r, off, skip) ← split_right (Z.to_nat (top - nxt)) h r skip nxt 0;
  let r := set_lower r (lower r + off * 2) in
  let r := if skip =? top then set_lower r (lower r + 2) else r in
  Ret (onleft, pskip, l, r, c).

(** ** The layout of a page *)

(** What the indices from [i] on hold, where they are not open. *)
Fixpoint entries_at (h : page) (i : Z) (l : list (option item)) : Prop :=
  match l with
  | [] => True
  | None :: l => entries_at h (i + 1) l
  | Some x :: l => entry h i = x /\ entries_at h (i + 1) l
  end.

Fixpoint offsets (h : page) (i : Z) (l : list (option item)) : list Z :=
  match l with
  | [] => []
  | None :: l => offsets h (i + 1) l
  | Some _ :: l => linp h i :: offsets h (i + 1) l
  end.

(** Items without gaps from [lo] to [hi]. *)
Fixpoint tiles (its : Z -> item) (lo : Z) (lay : list Z) (hi : Z) : Prop :=
  match lay with
  | [] => lo = hi
  | o :: lay => o = lo /\ 0 < size (its o) /\ tiles its (lo + size (its o)) lay hi
  end.

(** The items of [l] tile the page from [upper] to its end. *)
Record holds (psize : Z) (h : page) (l : list (option item)) : Prop := {
  ho_entries : entries_at h 0 l;
  ho_tiles : exists lay, tiles (items h) (upper h) lay psize /\ lay ≡ₚ offsets h 0 l;
  ho_upper : 0 <= upper h;
}.

(** A page with these items: the array ends below them. *)
Record has (psize : Z) (h : page) (l : list item) : Prop := {
  has_holds : holds psize h (map Some l);
  has_lower : lower h = BTDATAOFF + 2 * zlen l;
  has_room : lower h <= upper h;
}.

(** The bytes of the items, and with their offsets. *)
Definition size_of (x : option item) : Z := match x with Some x => size x | None => 0 end.
Definition bytes_of (l : list (option item)) : Z := foldr (fun x n => size_of x + n) 0 l.
Definition load (l : list item) : Z := foldr (fun x n => size x + 2 + n) 0 l.

Lemma LALIGN_div n : LALIGN n = (n + 3) / 4 * 4.
Proof.
  unfold LALIGN. replace (n + 4 - 1) with (n + 3) by lia. change (4 - 1) with (Z.ones 2).
  rewrite <- Z.ldiff_land, Z.ldiff_ones_r by lia. rewrite Z.shiftl_mul_pow2, Z.shiftr_div_pow2 by lia. done.
Qed.

Lemma LALIGN_bounds n : n <= LALIGN n <= n + 3.
Proof. rewrite LALIGN_div. pose proof (Z.div_mod (n + 3) 4). pose proof (Z.mod_pos_bound (n + 3) 4). lia. Qed.

Lemma LALIGN_mono a b : a <= b -> LALIGN a <= LALIGN b.
Proof. intros H. rewrite !LALIGN_div. pose proof (Z.div_le_mono (a + 3) (b + 3) 4). lia. Qed.

Lemma size_pos x : x <> Junk -> 12 <= size x.
Proof.
  destruct x as [p f b|f k d|]; [| |done]; intros _; cbn [size]; unfold NBINTERNAL, NBLEAFDBT.
  - pose proof (zlen_nonneg b). pose proof (LALIGN_mono 9 (4 + 4 + 1 + zlen b)) as H'. change (LALIGN 9) with 12 in H'. lia.
  - pose proof (zlen_nonneg k). pose proof (zlen_nonneg d).
    pose proof (LALIGN_mono 9 (4 + 4 + 1 + zlen k + zlen d)) as H'. change (LALIGN 9) with 12 in H'. lia.
Qed.

Lemma size_nonneg x : 0 <= size x.
Proof. pose proof (size_pos x) as H. destruct x; [by specialize (H ltac:(done)); lia..|done]. Qed.

Lemma lookup_map {A B} (f : A -> B) l i : map f l !! i = f <$> (l !! i).
Proof. revert i. induction l as [|x l IH]; intros [|i]; cbn; by rewrite ?IH. Qed.

Lemma last_cases {A} (l : list A) : l = [] \/ exists l0 x, l = l0 ++ [x].
Proof. induction l as [|x l _] using rev_ind; [by left|right; by exists l, x]. Qed.

Lemma zlen_nil {A} : zlen (@nil A) = 0.
Proof. done. Qed.
Lemma zlen_map {A B} (f : A -> B) l : zlen (map f l) = zlen l.
Proof. unfold zlen. by rewrite length_map. Qed.

Ltac zlens := rewrite ?zlen_app, ?zlen_cons, ?zlen_nil, ?zlen_map in *.

Lemma entries_at_app h i a b : entries_at h i (a ++ b) <-> entries_at h i a /\ entries_at h (i + zlen a) b.
Proof.
  revert i. induction a as [|x a IH]; intros i; cbn [app entries_at]; [rewrite zlen_nil, Z.add_0_r; tauto|].
  rewrite zlen_cons, Z.add_assoc. destruct x; rewrite IH; tauto.
Qed.

Lemma offsets_app h i a b : offsets h i (a ++ b) = offsets h i a ++ offsets h (i + zlen a) b.
Proof.
  revert i. induction a as [|x a IH]; intros i; cbn [app offsets]; [by rewrite zlen_nil, Z.add_0_r|].
  rewrite zlen_cons, Z.add_assoc. destruct x; by rewrite IH.
Qed.

Lemma bytes_of_app a b : bytes_of (a ++ b) = bytes_of a + bytes_of b.
Proof. induction a as [|x a IH]; [done|]. cbn. fold (bytes_of (a ++ b)). rewrite IH. unfold bytes_of. lia. Qed.

(** The same array and items, elsewhere changed. *)
Lemma entries_at_ext h h' i l :
  (forall j, i <= j < i + zlen l -> entry h' j = entry h j) -> entries_at h i l -> entries_at h' i l.
Proof.
  revert i. induction l as [|x l IH]; intros i H; [done|]. rewrite zlen_cons in H.
  pose proof (zlen_nonneg l). assert (H' : entries_at h (i + 1) l -> entries_at h' (i + 1) l).
  { apply IH. intros j Hj. apply H. lia. }
  destruct x; [|done]. cbn. rewrite (H i) by lia. intros [-> ?]. by split; [|apply H'].
Qed.

Lemma offsets_ext h h' i l :
  (forall j, i <= j < i + zlen l -> linp h' j = linp h j) -> offsets h' i l = offsets h i l.
Proof.
  revert i. induction l as [|x l IH]; intros i H; [done|]. rewrite zlen_cons in H.
  pose proof (zlen_nonneg l). cbn. assert (E : offsets h' (i + 1) l = offsets h (i + 1) l).
  { apply IH. intros j Hj. apply H. lia. }
  destruct x; rewrite E; [|done]. by rewrite H by lia.
Qed.

(** Moved to other indices. *)
Lemma offsets_shift h h' i k l :
  (forall j, i <= j < i + zlen l -> linp h' (j + k) = linp h j) -> offsets h' (i + k) l = offsets h i l.
Proof.
  revert i. induction l as [|x l IH]; intros i H; [done|]. rewrite zlen_cons in H.
  pose proof (zlen_nonneg l). cbn. replace (i + k + 1) with (i + 1 + k) by lia.
  assert (E : offsets h' (i + 1 + k) l = offsets h (i + 1) l) by (apply IH; intros j Hj; apply H; lia).
  destruct x; rewrite E; [|done]. by rewrite H by lia.
Qed.

Lemma entries_at_shift h h' i k l :
  (forall j, i <= j < i + zlen l -> entry h' (j + k) = entry h j) -> entries_at h i l -> entries_at h' (i + k) l.
Proof.
  revert i. induction l as [|x l IH]; intros i H; [done|]. rewrite zlen_cons in H.
  pose proof (zlen_nonneg l). cbn. replace (i + k + 1) with (i + 1 + k) by lia.
  assert (H' : entries_at h (i + 1) l -> entries_at h' (i + 1 + k) l) by (apply IH; intros j Hj; apply H; lia).
  destruct x; [|done]. rewrite H by lia. intros [-> ?]. by split; [|apply H'].
Qed.

Lemma tiles_ext its its' lo lay hi :
  (forall o, o ∈ lay -> its' o = its o) -> tiles its lo lay hi -> tiles its' lo lay hi.
Proof.
  revert lo. induction lay as [|o lay IH]; intros lo H; [done|]. cbn.
  rewrite H by apply list_elem_of_here. intros (? & ? & ?). split; [done|]. split; [done|].
  apply IH; [|done]. intros p Hp. apply H. by apply list_elem_of_further.
Qed.

Lemma tiles_app its lo a b hi :
  tiles its lo (a ++ b) hi <-> exists mid, tiles its lo a mid /\ tiles its mid b hi.
Proof.
  revert lo. induction a as [|o a IH]; intros lo; cbn [app tiles].
  - split; [by exists lo|]. by intros (? & -> & ?).
  - rewrite IH. split; [intros (? & ? & mid & ? & ?); by exists mid|intros (mid & (? & ? & ?) & ?)].
    split; [done|]. split; [done|]. by exists mid.
Qed.

Lemma tiles_in its lo lay hi o :
  tiles its lo lay hi -> o ∈ lay -> lo <= o /\ 0 < size (its o) /\ o + size (its o) <= hi.
Proof.
  revert lo. induction lay as [|p lay IH]; intros lo; [intros _ Hn; by inversion Hn|]. cbn.
  assert (Hle : forall l lo', tiles its lo' l hi -> lo' <= hi).
  { induction l as [|q l IHl]; intros lo'; cbn; [lia|]. intros (? & ? & ?%IHl). lia. }
  intros (-> & Hp & Ht) [->|Ho]%elem_of_cons; [split; [lia|]; split; [done|]; by apply Hle in Ht|].
  destruct (IH _ Ht Ho). lia.
Qed.

Lemma tiles_le its lo lay hi : tiles its lo lay hi -> lo <= hi.
Proof. revert lo. induction lay as [|o lay IH]; intros lo; cbn; [lia|]. intros (? & ? & ?%IH). lia. Qed.

(** The end of a tiling is its beginning and the sizes. *)
Lemma tiles_end its lo lay hi : tiles its lo lay hi -> hi = lo + foldr (fun o n => size (its o) + n) 0 lay.
Proof. revert lo. induction lay as [|o lay IH]; intros lo; cbn; [lia|]. intros (? & ? & ?%IH). lia. Qed.

Lemma offsets_bytes h i l :
  entries_at h i l -> foldr (fun o n => size (items h o) + n) 0 (offsets h i l) = bytes_of l.
Proof.
  revert i. induction l as [|x l IH]; intros i; [done|]. destruct x as [x|]; cbn; [|apply IH].
  intros [E H]. fold (bytes_of l). rewrite IH by done. by rewrite <- E.
Qed.

Lemma foldr_size_perm (its : Z -> item) a b : a ≡ₚ b ->
  foldr (fun o n => size (its o) + n) 0 a = foldr (fun o n => size (its o) + n) 0 b.
Proof. induction 1; cbn; lia. Qed.

Lemma holds_upper psize h l : holds psize h l -> upper h = psize - bytes_of l.
Proof.
  intros [He (lay & Ht & Hp) _]. apply tiles_end in Ht. rewrite (foldr_size_perm _ _ _ Hp) in Ht.
  rewrite offsets_bytes in Ht by done. lia.
Qed.

(** Other headers, the same layout. *)
Lemma holds_header psize h h' l :
  linp h' = linp h -> items h' = items h -> upper h' = upper h -> holds psize h l -> holds psize h' l.
Proof.
  intros El Ei Eu [He (lay & Ht & Hp) Hu]. split; [| |by rewrite Eu].
  - revert He. apply entries_at_ext. intros j _. unfold entry. by rewrite El, Ei.
  - exists lay. rewrite Ei, Eu. split; [done|]. rewrite Hp. by rewrite (offsets_ext h h') by (intros; by rewrite El).
Qed.

Lemma holds_open psize h a : holds psize h a -> holds psize h (a ++ [None]).
Proof.
  intros [He (lay & Ht & Hp) Hu]. split; [apply entries_at_app; by split| |done].
  exists lay. split; [done|]. rewrite offsets_app, app_nil_r. done.
Qed.

(** ** Adding an item *)

Lemma u16_id z : 0 <= z < 2 ^ 16 -> u16 z = z.
Proof. intros. unfold u16. by rewrite Z.mod_small. Qed.

Lemma put_eq {A} (m : Z -> A) i v : put m i v i = v.
Proof. unfold put. by rewrite Z.eqb_refl. Qed.
Lemma put_ne {A} (m : Z -> A) i j v : j <> i -> put m i v j = m j.
Proof. intros H. unfold put. by rewrite (proj2 (Z.eqb_neq _ _) H). Qed.

Lemma entries_at_put h i l index up it n :
  entries_at h i l -> (forall o, o ∈ offsets h i l -> o <> up) -> (index < i \/ i + zlen l <= index) ->
  entries_at (set_layout h n (put (linp h) index up) (put (items h) up it)) i l.
Proof.
  revert i. induction l as [|x l IH]; intros i He Ho Hi; [done|]. rewrite zlen_cons in Hi.
  pose proof (zlen_nonneg l). destruct x as [x|]; cbn in *; [|apply IH; [done|done|lia]].
  destruct He as [E He]. split.
  - unfold entry, put. cbn. rewrite (proj2 (Z.eqb_neq i index)) by lia.
    rewrite (proj2 (Z.eqb_neq _ up)); [done|]. apply Ho. by left.
  - apply IH; [done| |lia]. intros o Hin. apply Ho. by right.
Qed.

Lemma add_item_holds psize h a b n it :
  holds psize h (a ++ None :: b) -> psize < 2 ^ 16 -> size it = n -> 0 < n <= upper h ->
  holds psize (add_item h (zlen a) n it) (a ++ Some it :: b) /\
  upper (add_item h (zlen a) n it) = upper h - n.
Proof.
  intros [He (lay & Ht & Hp) Hu] Hs Hn Hroom. pose proof (tiles_le _ _ _ _ Ht).
  assert (Eu : u16 (upper h - n) = upper h - n) by (apply u16_id; lia).
  assert (Hlow : forall o, o ∈ lay -> o <> upper h - n).
  { intros o Ho. pose proof (tiles_in _ _ _ _ _ Ht Ho). lia. }
  apply entries_at_app in He as [Ha Hb]. cbn [entries_at] in Hb. rewrite offsets_app in Hp. cbn [offsets] in Hp.
  unfold add_item. rewrite Eu. split; [|cbn; apply u16_id; lia].
  split; [| |cbn; rewrite u16_id; lia].
  - apply entries_at_app. cbn [entries_at]. split; [|split].
    + apply entries_at_put; [done| |right; lia]. intros o Ho. apply Hlow. rewrite Hp, elem_of_app. by left.
    + unfold entry. cbn. unfold put. by rewrite Z.add_0_l, !Z.eqb_refl.
    + apply entries_at_put; [done| |left; lia]. intros o Ho. apply Hlow. rewrite Hp, elem_of_app. by right.
  - exists (upper h - n :: lay). cbn [set_layout upper linp items tiles]. rewrite u16_id by lia. split.
    + split; [done|]. rewrite !put_eq, Hn. split; [lia|].
      replace (upper h - n + n) with (upper h) by lia. revert Ht. apply tiles_ext.
      intros o Ho. apply put_ne. by apply Hlow.
    + rewrite offsets_app. cbn [offsets set_layout linp]. rewrite Z.add_0_l, put_eq.
      rewrite (offsets_ext h _ 0 a), (offsets_ext h _ (zlen a + 1) b); [by rewrite Hp, Z.add_0_l, Permutation_middle|..].
      * intros j Hj. apply put_ne. lia.
      * intros j Hj. apply put_ne. lia.
Qed.

(** The array moves apart at an index. *)
Lemma holds_open_index psize h a b :
  holds psize h (a ++ b) -> psize < 2 ^ 16 -> NEXTINDEX h = zlen (a ++ b) -> zlen (a ++ b) < 2 ^ 16 ->
  holds psize (open_index h (zlen a)) (a ++ None :: b).
Proof.
  intros [He (lay & Ht & Hp) Hu] Hs Hn Hl. pose proof (tiles_le _ _ _ _ Ht).
  pose proof (zlen_nonneg a). pose proof (zlen_nonneg b). zlens.
  unfold open_index. rewrite Hn. rewrite (u16_id (_ + _)) by lia.
  set (p := if zlen a <? zlen a + zlen b then memmove (linp h) (zlen a + 1) (zlen a) (zlen a + zlen b - zlen a) else linp h).
  assert (Hlo : forall j, 0 <= j < zlen a -> p j = linp h j).
  { intros j Hj. subst p. destruct (_ <? _); [|done]. unfold memmove. by rewrite (proj2 (Z.leb_gt _ j)) by lia. }
  assert (Hhi : forall j, zlen a <= j < zlen a + zlen b -> p (j + 1) = linp h j).
  { intros j Hj. subst p. rewrite (proj2 (Z.ltb_lt _ _)) by lia. unfold memmove.
    rewrite (proj2 (Z.leb_le _ _)), (proj2 (Z.ltb_lt _ _)) by lia. cbn. f_equal. lia. }
  clearbody p. apply entries_at_app in He as [Ha Hb]. rewrite offsets_app in Hp.
  split; [| |cbn; rewrite u16_id; lia].
  - apply entries_at_app. cbn [entries_at]. split.
    + revert Ha. apply entries_at_ext. intros j Hj. unfold entry. cbn. by rewrite Hlo by lia.
    + revert Hb. apply entries_at_shift. intros j Hj. unfold entry. cbn. by rewrite Hhi by lia.
  - exists lay. cbn [set_lower set_layout upper items]. rewrite u16_id by lia. split; [done|].
    rewrite Hp, offsets_app. cbn [offsets]. apply Permutation_app; apply Permutation_refl'; symmetry.
    + apply offsets_ext. intros; cbn; apply Hlo; lia.
    + apply offsets_shift. intros; cbn; apply Hhi; lia.
Qed.

(** Indices and offsets that have moved. *)
Lemma entries_moved h h' i k l f :
  (forall j, i <= j < i + zlen l -> linp h' (j + k) = f (linp h j)) ->
  (forall o, o ∈ offsets h i l -> items h' (f o) = items h o) ->
  entries_at h i l -> entries_at h' (i + k) l /\ offsets h' (i + k) l = map f (offsets h i l).
Proof.
  revert i. induction l as [|x l IH]; intros i Hl Ho; [done|]. rewrite zlen_cons in Hl.
  pose proof (zlen_nonneg l).
  assert (IH' : entries_at h (i + 1) l ->
    entries_at h' (i + 1 + k) l /\ offsets h' (i + 1 + k) l = map f (offsets h (i + 1) l)).
  { apply IH; [intros j Hj; apply Hl; lia|]. intros o Hin. apply Ho. destruct x; cbn; [by right|done]. }
  cbn. replace (i + k + 1) with (i + 1 + k) by lia. destruct x as [x|]; [|done].
  intros [E [H1 H2]%IH']. rewrite H2, Hl by lia. split; [|done]. split; [|done].
  unfold entry in *. rewrite Hl by lia. rewrite Ho; [done|]. cbn. by left.
Qed.

(** ** Removing an item *)

Lemma tiles_moved its its' lo lay hi n :
  (forall o, o ∈ lay -> its' (o + n) = its o) ->
  tiles its lo lay hi -> tiles its' (lo + n) (map (fun o => o + n) lay) (hi + n).
Proof.
  revert lo. induction lay as [|o lay IH]; intros lo H; cbn; [lia|]. intros (-> & Hs & Ht).
  rewrite H by (by left). split; [done|]. split; [done|].
  replace (lo + n + size (its lo)) with (lo + size (its lo) + n) by lia.
  apply IH; [|done]. intros o Ho. apply H. by right.
Qed.

Lemma pack_holds psize h a x b :
  holds psize h (a ++ Some x :: b) -> psize < 2 ^ 16 ->
  NEXTINDEX h = zlen (a ++ Some x :: b) -> zlen (a ++ Some x :: b) < 2 ^ 16 ->
  holds psize (pack h (zlen a) (size x)) (a ++ b).
Proof.
  intros [He (lay & Ht & Hp) Hu] Hs Hn Hl. pose proof (tiles_le _ _ _ _ Ht) as Hle.
  pose proof (zlen_nonneg a). pose proof (zlen_nonneg b).
  apply entries_at_app in He as [Ha Hb]. cbn [entries_at] in Hb. destruct Hb as [Ex Hb].
  rewrite offsets_app in Hp. cbn [offsets] in Hp. rewrite Z.add_0_l in *. zlens.
  set (o := linp h (zlen a)) in *. set (n := size x). unfold entry in Ex. fold o in Ex.
  assert (Ho : o ∈ lay) by (rewrite Hp, elem_of_app; right; by left).
  apply list_elem_of_split in Ho as (A & B & ->).
  apply tiles_app in Ht as (mid & HA & HB). cbn in HB. destruct HB as (<- & Hpos & HB).
  rewrite Ex in Hpos, HB. fold n in Hpos, HB.
  assert (Hperm : A ++ B ≡ₚ offsets h 0 a ++ offsets h (zlen a + 1) b) by by eapply Permutation_app_inv.
  pose proof (tiles_le _ _ _ _ HA). pose proof (tiles_le _ _ _ _ HB).
  assert (HinA : forall p, p ∈ A -> upper h <= p /\ p < o).
  { intros p Hin. pose proof (tiles_in _ _ _ _ _ HA Hin). lia. }
  assert (HinB : forall p, p ∈ B -> o + n <= p /\ p < psize).
  { intros p Hin. pose proof (tiles_in _ _ _ _ _ HB Hin). lia. }
  set (f := adjust o n).
  assert (HfA : forall p, p ∈ A -> f p = p + n).
  { intros p Hin. apply HinA in Hin. subst f. unfold adjust. rewrite (proj2 (Z.ltb_lt _ _)) by lia.
    apply u16_id. lia. }
  assert (HfB : forall p, p ∈ B -> f p = p).
  { intros p Hin. apply HinB in Hin. subst f. unfold adjust. by rewrite (proj2 (Z.ltb_ge _ _)) by lia. }
  set (h' := pack h (zlen a) n).
  assert (Hup : upper h' = upper h + n) by (cbn; apply u16_id; lia).
  assert (HitA : forall p, p ∈ A -> items h' (p + n) = items h p).
  { intros p Hin. apply HinA in Hin. cbn. fold o. unfold memmove.
    rewrite (proj2 (Z.leb_le _ _)), (proj2 (Z.ltb_lt _ _)) by lia. cbn. f_equal. lia. }
  assert (HitB : forall p, p ∈ B -> items h' p = items h p).
  { intros p Hin. apply HinB in Hin. cbn. fold o. unfold memmove.
    by rewrite (proj2 (Z.ltb_ge _ _)), andb_false_r by lia. }
  assert (Hit : forall p, p ∈ A ++ B -> items h' (f p) = items h p).
  { intros p [Hin|Hin]%elem_of_app; [rewrite HfA by done; by apply HitA|rewrite HfB by done; by apply HitB]. }
  assert (Hcnt : u16 (u16 (NEXTINDEX h - zlen a) - 1) = zlen b) by (rewrite Hn, (u16_id (_ - zlen a)) by lia; rewrite u16_id; lia).
  assert (Hlo : forall j, 0 <= j < 0 + zlen a -> linp h' (j + 0) = f (linp h j)).
  { intros j Hj. rewrite Z.add_0_r. cbn [h' pack set_lower set_layout linp].
    by rewrite (proj2 (Z.leb_le 0 j)), (proj2 (Z.ltb_lt j (zlen a))) by lia. }
  assert (Hhi : forall j, zlen a + 1 <= j < zlen a + 1 + zlen b -> linp h' (j + -1) = f (linp h j)).
  { intros j Hj. cbn [h' pack set_lower set_layout linp]. rewrite Hcnt.
    rewrite (proj2 (Z.ltb_ge _ (zlen a))), andb_false_r by lia.
    rewrite (proj2 (Z.leb_le _ _)), (proj2 (Z.ltb_lt _ _)) by lia. cbn. by replace (j + -1 + 1) with j by lia. }
  destruct (entries_moved h h' 0 0 a f Hlo) as [Ha' Oa]; [|done|].
  { intros p Hin. apply Hit. rewrite Hperm, elem_of_app. by left. }
  destruct (entries_moved h h' (zlen a + 1) (-1) b f Hhi) as [Hb' Ob]; [|done|].
  { intros p Hin. apply Hit. rewrite Hperm, elem_of_app. by right. }
  replace (zlen a + 1 + -1) with (zlen a) in Hb', Ob by lia. rewrite Z.add_0_r in Ha', Oa.
  split; [by apply entries_at_app| |rewrite Hup; lia].
  exists (map (fun p => p + n) A ++ B). rewrite Hup. split.
  - apply tiles_app. exists (o + n). split.
    + revert HA. apply tiles_moved. intros p Hin. by apply HitA.
    + revert HB. apply tiles_ext. intros p Hin. by apply HitB.
  - rewrite offsets_app, Z.add_0_l, Oa, Ob, <- map_app. rewrite <- (Permutation_map f Hperm), map_app.
    apply Permutation_app; apply Permutation_refl'.
    + apply map_ext_in. intros p Hin%list_elem_of_In. by rewrite HfA.
    + rewrite <- (map_id B) at 1. apply map_ext_in. intros p Hin%list_elem_of_In. by rewrite HfB.
Qed.
(** ** The items of a page *)

Lemma u64_id_small z : 0 <= z < 2 ^ 63 -> u64 z = z.
Proof. intros. apply u64_id. unfold fits. lia. Qed.

Lemma has_upper psize h l : has psize h l -> upper h = psize - bytes_of (map Some l).
Proof. intros H. by apply (holds_upper psize), (has_holds _ _ _ H). Qed.

Lemma bytes_load l : bytes_of (map Some l) + 2 * zlen l = load l.
Proof. induction l as [|x l IH]; [done|]. rewrite zlen_cons. cbn. fold (bytes_of (map Some l)). fold (load l). lia. Qed.

Lemma has_load psize h l : has psize h l -> upper h - lower h = psize - BTDATAOFF - load l.
Proof. intros H. rewrite (has_upper psize h l H), (has_lower _ _ _ H). pose proof (bytes_load l). lia. Qed.

Lemma bytes_nonneg l : 0 <= bytes_of l.
Proof. induction l as [|x l IH]; cbn; [done|]. fold (bytes_of l). destruct x as [x|]; cbn; [pose proof (size_nonneg x)|]; lia. Qed.

Lemma load_nonneg l : 0 <= load l.
Proof. pose proof (bytes_load l). pose proof (bytes_nonneg (map Some l)). pose proof (zlen_nonneg l). lia. Qed.

Lemma load_app a b : load (a ++ b) = load a + load b.
Proof. induction a as [|x a IH]; [done|]. cbn. fold (load (a ++ b)). fold (load a). lia. Qed.

Lemma has_bounds psize h l :
  has psize h l -> psize < 2 ^ 16 -> 0 <= zlen l < 2 ^ 15 /\ 20 <= lower h <= upper h /\ upper h <= psize.
Proof.
  intros H Hs. pose proof (has_lower _ _ _ H). pose proof (has_room _ _ _ H). pose proof (has_upper psize h l H).
  pose proof (bytes_nonneg (map Some l)). pose proof (zlen_nonneg l). unfold BTDATAOFF in *. lia.
Qed.

Lemma has_next psize h l : has psize h l -> psize < 2 ^ 16 -> NEXTINDEX h = zlen l.
Proof.
  intros H Hs. pose proof (has_bounds psize h l H Hs). unfold NEXTINDEX. rewrite (has_lower _ _ _ H).
  replace (BTDATAOFF + 2 * zlen l - BTDATAOFF) with (2 * zlen l) by lia.
  rewrite u64_id_small by lia. rewrite Z.mul_comm. by apply Z.div_mul.
Qed.

Lemma entries_lookup h i l j x :
  entries_at h i (map Some l) -> l !! j = Some x -> entry h (i + Z.of_nat j) = x.
Proof.
  revert i j. induction l as [|y l IH]; intros i j; [done|]. cbn. intros [E H]. destruct j as [|j]; cbn.
  - intros [= <-]. by rewrite Z.add_0_r.
  - intros Hj. rewrite <- (IH _ _ H Hj). f_equal. lia.
Qed.

Lemma has_entry psize h l j x : has psize h l -> l !! Z.to_nat j = Some x -> 0 <= j -> entry h j = x.
Proof.
  intros H Hj Hp. rewrite <- (entries_lookup h 0 l (Z.to_nat j) x); [f_equal; lia| |done].
  apply (ho_entries _ _ _ (has_holds _ _ _ H)).
Qed.

Lemma has_nonneg psize h l : has psize h l -> Forall (fun x => 0 < size x) l.
Proof.
  intros [[He (lay & Ht & Hp) _] _ _].
  assert (G : forall o, o ∈ offsets h 0 (map Some l) -> 0 < size (items h o)).
  { intros o Ho. rewrite <- Hp in Ho. by eapply tiles_in. }
  clear -He G. revert He G. generalize 0 at 1 2 as i. induction l as [|x l IH]; intros i; [constructor|]. cbn.
  intros [E He] G. constructor.
  - rewrite <- E. apply G. by left.
  - apply (IH (i + 1)); [done|]. intros o Ho. apply G. by right.
Qed.

(** Room for one more. *)
Lemma no_room_spec psize h l n :
  has psize h l -> psize < 2 ^ 16 -> no_room h n = (psize - BTDATAOFF <? load l + n + 2).
Proof.
  intros H Hs. pose proof (has_bounds psize h l H Hs). pose proof (has_load psize h l H). unfold no_room.
  rewrite u64_id_small by lia. destruct (Z.ltb_spec (upper h - lower h) (n + 2)), (Z.ltb_spec (psize - BTDATAOFF) (load l + n + 2)); lia.
Qed.

Lemma set_layout_header h n p its :
  (pgno (set_layout h n p its), prevpg (set_layout h n p its), nextpg (set_layout h n p its),
   flags (set_layout h n p its), lower (set_layout h n p its)) = (pgno h, prevpg h, nextpg h, flags h, lower h).
Proof. done. Qed.

(** An item goes to its index. *)
Lemma insert_has psize h a b it :
  has psize h (a ++ b) -> psize < 2 ^ 16 -> 0 < size it -> no_room h (size it) = false ->
  has psize (add_item (open_index h (zlen a)) (zlen a) (size it) it) (a ++ it :: b).
Proof.
  intros H Hs Hit Hroom. rewrite (no_room_spec psize h (a ++ b)) in Hroom by done. apply Z.ltb_ge in Hroom.
  pose proof (has_bounds psize h _ H Hs) as Hb. pose proof (has_load psize h _ H) as Hl.
  pose proof (has_lower _ _ _ H) as Hlo.
  assert (Ho : holds psize (open_index h (zlen a)) (map Some a ++ None :: map Some b)).
  { rewrite <- (zlen_map Some a). apply holds_open_index; [|done|..]; rewrite <- map_app, ?zlen_map.
    - apply (has_holds _ _ _ H).
    - by apply (has_next psize).
    - lia. }
  assert (Eu : upper (open_index h (zlen a)) = upper h) by (cbn; apply u16_id; lia).
  assert (El : lower (open_index h (zlen a)) = lower h + 2) by (cbn; apply u16_id; lia).
  destruct (add_item_holds psize _ (map Some a) (map Some b) (size it) it Ho) as [Hh Hu]; [done|done|lia|].
  rewrite zlen_map in Hh, Hu. split.
  - by rewrite map_app.
  - change (lower (add_item (open_index h (zlen a)) (zlen a) (size it) it)) with (lower (open_index h (zlen a))).
    rewrite El, Hlo. zlens. lia.
  - rewrite Hu, Eu. change (lower (add_item (open_index h (zlen a)) (zlen a) (size it) it)) with (lower (open_index h (zlen a))).
    rewrite El. lia.
Qed.

Lemma pack_has psize h a x b :
  has psize h (a ++ x :: b) -> psize < 2 ^ 16 -> has psize (pack h (zlen a) (size x)) (a ++ b).
Proof.
  intros H Hs. pose proof (has_bounds psize h _ H Hs) as Hb. pose proof (has_lower _ _ _ H) as Hlo.
  pose proof (has_next psize h _ H Hs) as Hn. pose proof (has_holds _ _ _ H) as Hh.
  pose proof (has_nonneg psize h _ H) as Hx. apply Forall_app in Hx as [_ Hx]. inversion Hx as [|? ? Hx' _]; subst.
  pose proof (holds_upper _ _ _ Hh) as Eu. rewrite map_app in Hh, Eu. cbn [map] in Hh, Eu.
  rewrite bytes_of_app in Eu. cbn in Eu. fold (bytes_of (map Some b)) in Eu.
  pose proof (bytes_nonneg (map Some a)). pose proof (bytes_nonneg (map Some b)). zlens.
  assert (Hp : holds psize (pack h (zlen a) (size x)) (map Some a ++ map Some b)).
  { rewrite <- (zlen_map Some a). apply pack_holds; [done|done|..]; zlens; lia. }
  assert (El : lower (pack h (zlen a) (size x)) = lower h - 2) by (cbn; apply u16_id; pose proof (zlen_nonneg a); pose proof (zlen_nonneg b); unfold BTDATAOFF in *; lia).
  split; [by rewrite map_app|rewrite El, Hlo; zlens; lia|].
  rewrite El. cbn. rewrite u16_id; lia.
Qed.
(** ** bt_psplit *)

(** The items of a list with an open index, and the bytes with those of the item
    that is to go there. *)
Definition somes (l : list (option item)) : list item := omap id l.
Definition weight (ilen : Z) (l : list (option item)) : Z :=
  foldr (fun x n => match x with Some x => size x | None => ilen end + n) 0 l.

(** An item of the type of its page whose key is no overflow key. *)
Definition typed (h : page) (x : item) : Prop :=
  match x with
  | BINTERNAL _ fl _ => Z.land (flags h) P_TYPE = P_BINTERNAL /\ is_set fl P_BIGKEY = false
  | BLEAF fl _ _ => Z.land (flags h) P_TYPE = P_BLEAF /\ is_set fl P_BIGKEY = false
  | Junk => False
  end.

Lemma somes_app a b : somes (a ++ b) = somes a ++ somes b.
Proof. apply omap_app. Qed.
Lemma somes_map l : somes (map Some l) = l.
Proof. induction l as [|x l IH]; [done|]. cbn. by f_equal. Qed.

Lemma weight_app n a b : weight n (a ++ b) = weight n a + weight n b.
Proof. induction a as [|x a IH]; [done|]. cbn. fold (weight n (a ++ b)). fold (weight n a). lia. Qed.
Lemma weight_somes n l : weight n (map Some l) = bytes_of (map Some l).
Proof. induction l as [|x l IH]; [done|]. cbn. fold (weight n (map Some l)). by rewrite IH. Qed.
Lemma weight_hole n x y :
  weight n (map Some x ++ None :: map Some y) = bytes_of (map Some x) + n + bytes_of (map Some y).
Proof. rewrite weight_app. cbn. fold (weight n (map Some y)). rewrite !weight_somes. lia. Qed.
Lemma load_mid x it y : load (x ++ it :: y) = load x + (size it + 2) + load y.
Proof. rewrite load_app. cbn. fold (load y). lia. Qed.
Lemma bytes_weight n l : 0 <= n -> bytes_of l <= weight n l.
Proof. intros Hn. induction l as [|x l IH]; [done|]. cbn. fold (bytes_of l). fold (weight n l). destruct x; cbn; lia. Qed.

Lemma source_spec psize h l j x :
  has psize h l -> l !! Z.to_nat j = Some x -> 0 <= j -> typed h x -> source h j = Ret (x, size x, false).
Proof.
  intros H Hj H0 Ht. pose proof (has_entry psize h l j x H Hj H0) as E.
  unfold source, GETBINTERNAL, GETBLEAF. rewrite E. destruct x as [p f b|f k d|]; [..|done]; destruct Ht as [-> Hf].
  - change (P_BINTERNAL =? P_BINTERNAL) with true. cbn. by rewrite Hf.
  - change (P_BLEAF =? P_BINTERNAL) with false. change (P_BLEAF =? P_BLEAF) with true. cbn. by rewrite Hf.
Qed.

Definition header (h : page) : Z * Z * Z * Z * Z := (pgno h, prevpg h, nextpg h, flags h, lower h).

(** An item after the others. *)
Lemma append_holds psize l P n x :
  holds psize l P -> psize < 2 ^ 16 -> size x = n -> 0 < n -> bytes_of P + n <= psize ->
  holds psize (add_item l (zlen P) n x) (P ++ [Some x]) /\ header (add_item l (zlen P) n x) = header l.
Proof.
  intros H Hs Hn Hp Hb. split; [|done]. apply add_item_holds; [by apply holds_open|done|done|].
  rewrite (holds_upper psize l P H). lia.
Qed.

Section split.
Context (psize : Z) (h : page) (a b : list item) (ilen : Z).
Context (Hsize : 512 <= psize < 2 ^ 16) (Hh : has psize h (a ++ b)) (Ht : Forall (typed h) (a ++ b)).

Let full := psize - BTDATAOFF.
Let half := full / 2.
Let V := map Some a ++ None :: map Some b.

(** No item is larger than 5/14 of the page, and there is no room for the new one. *)
Definition small (n : Z) : Prop := 14 * n <= 5 * full.
Context (Hsmall : Forall (fun x => small (size x)) (a ++ b)) (Hi : 12 <= ilen) (Hi' : small ilen).
Context (Hfull : no_room h ilen = true).

Definition width (v : option item) : Z := match v with Some x => size x | None => ilen end.

Lemma V_lookup i v : V !! i = Some v -> v = None <-> i = length a.
Proof.
  subst V. destruct (decide (i < length a)%nat) as [Hl|Hl].
  - rewrite lookup_app_l by (by rewrite length_map). intros Hv. rewrite lookup_map in Hv.
    destruct (a !! i); [|done]. injection Hv as <-. split; [done|lia].
  - rewrite lookup_app_r by (rewrite length_map; lia). rewrite length_map.
    destruct (i - length a)%nat as [|k] eqn:Ek.
    + intros [= <-]. split; [lia|done].
    + intros Hv. change (map Some b !! k = Some v) in Hv. rewrite lookup_map in Hv. destruct (b !! k); [|done]. injection Hv as <-. split; [done|lia].
Qed.

Lemma V_somes : somes V = a ++ b.
Proof. subst V. rewrite somes_app. cbn. fold (somes (map Some b)). by rewrite !somes_map. Qed.

Lemma in_typed x : x ∈ a ++ b -> typed h x /\ small (size x) /\ 12 <= size x.
Proof.
  intros Hx. rewrite Forall_forall in Ht, Hsmall. split; [by apply Ht|]. split; [by apply Hsmall|].
  apply size_pos. intros ->. by apply Ht in Hx.
Qed.

Lemma V_width v : v ∈ V -> small (width v) /\ 12 <= width v.
Proof.
  intros Hv. destruct v as [x|]; [|by split]. apply (in_typed x). rewrite <- V_somes. unfold somes.
  apply list_elem_of_omap. by exists (Some x).
Qed.

Lemma weight_width l : (forall v, v ∈ l -> v ∈ V) -> 12 * zlen l <= weight ilen l.
Proof.
  induction l as [|v l IH]; intros H; [done|]. rewrite zlen_cons. cbn. fold (weight ilen l).
  destruct (V_width v ltac:(apply H; by left)) as [_ Hv]. unfold width in Hv.
  specialize (IH ltac:(intros w Hw; apply H; by right)). lia.
Qed.

Lemma V_weight : weight ilen V + 2 * zlen V = load (a ++ b) + ilen + 2.
Proof.
  subst V. rewrite weight_app. cbn. fold (weight ilen (map Some b)). rewrite !weight_somes. zlens.
  rewrite load_app, <- !bytes_load. lia.
Qed.

Lemma full_loads : load (a ++ b) <= full /\ full < load (a ++ b) + ilen + 2.
Proof.
  rewrite (no_room_spec psize h (a ++ b)) in Hfull by (done || lia). apply Z.ltb_lt in Hfull.
  pose proof (has_load psize h _ Hh). pose proof (has_room _ _ _ Hh). unfold full. lia.
Qed.


(** The item of the next index. *)
Lemma next_source P x S :
  V = P ++ Some x :: S -> (zlen (somes P) <? zlen (a ++ b)) = true /\ source h (zlen (somes P)) = Ret (x, size x, false).
Proof using Hsmall Ht Hh.
  intros EV. pose proof V_somes as Es. rewrite EV, somes_app in Es. cbn in Es.
  assert (Hx : (a ++ b) !! Z.to_nat (zlen (somes P)) = Some x).
  { unfold zlen. rewrite Nat2Z.id, <- Es. by apply list_lookup_middle. }
  split.
  - apply lookup_lt_Some in Hx. apply Z.ltb_lt. unfold zlen in *. lia.
  - apply (source_spec psize _ (a ++ b)); [done|done|apply zlen_nonneg|].
    apply in_typed. by eapply list_elem_of_lookup_2.
Qed.

Lemma open_source P S : V = P ++ None :: S -> zlen P = zlen a.
Proof.
  intros EV. unfold zlen. f_equal. apply (V_lookup (length P) None); [|done]. rewrite EV. by apply list_lookup_middle.
Qed.

Lemma item_source P x S : V = P ++ Some x :: S -> (zlen a =? zlen P) = false.
Proof.
  intros EV. apply Z.eqb_neq. unfold zlen. intros E.
  destruct (V_lookup (length P) (Some x)) as [_ H]; [rewrite EV; by apply list_lookup_middle|].
  discriminate H. lia.
Qed.

Lemma somes_short l : zlen (somes l) <= zlen l.
Proof. induction l as [|v l IH]; [done|]. rewrite zlen_cons. destruct v; cbn; rewrite ?zlen_cons; fold (somes l); lia. Qed.

Lemma V_short : zlen V < 2 ^ 15.
Proof using Hi Hi' Hsmall Hh Hsize Ht.
  pose proof (has_bounds psize h _ Hh ltac:(lia)). pose proof (has_lower _ _ _ Hh).
  assert (zlen V = zlen (a ++ b) + 1) by (subst V; zlens; lia). unfold BTDATAOFF in *. lia.
Qed.

Lemma split_left_run fuel l P S E :
  V = P ++ S ++ E -> (S = [] \/ exists S0 x, S = S0 ++ [Some x]) ->
  holds psize l P -> weight ilen P < half <= weight ilen (P ++ S) -> (length S < fuel)%nat ->
  exists P' v S' l',
    split_left fuel h l (zlen a) ilen full half (zlen (a ++ b)) (zlen (somes P)) (zlen P) (weight ilen P) 0
      = Ret (l', zlen (somes (P' ++ [v])), zlen P') /\
    P ++ S = P' ++ v :: S' /\ weight ilen P' < half <= weight ilen (P' ++ [v]) /\
    header l' = header l /\ holds psize l' (P' ++ [v]).
Proof using Hi Hi' Hsmall Hh Hsize Ht.
  revert l P S. induction fuel as [|fuel IH]; intros l P S EV Hlast Hl Hw Hf; [lia|].
  destruct S as [|v S]; [rewrite app_nil_r in Hw; lia|].
  assert (Hv : v ∈ V) by (rewrite EV, elem_of_app; right; by left).
  destruct (V_width v Hv) as [Hsm H12]. unfold small in Hsm.
  assert (Hh2 : 2 * half <= full) by (unfold half; pose proof (Z.mul_div_le full 2); lia).
  assert (Hf5 : 492 <= full < 2 ^ 16 /\ full + 20 = psize) by (unfold full, BTDATAOFF; lia).
  assert (Hhalf : full - 1 <= 2 * half) by (unfold half; pose proof (Z.div_mod full 2); pose proof (Z.mod_pos_bound full 2); lia).
  assert (Hbw : bytes_of P <= weight ilen P) by (apply bytes_weight; lia).
  assert (Hb0 : 0 <= bytes_of P) by apply bytes_nonneg.
  assert (HlP : zlen P < 2 ^ 15).
  { pose proof V_short as Hs. rewrite EV in Hs. zlens. pose proof (zlen_nonneg S). pose proof (zlen_nonneg E). lia. }
  pose proof (zlen_nonneg P) as HP0.
  assert (Hw1 : weight ilen (P ++ [v]) = weight ilen P + width v) by (rewrite weight_app; cbn; unfold width; lia).
  assert (Hlast' : S = [] \/ exists S0 x, S = S0 ++ [Some x]).
  { destruct Hlast as [?|(S0 & x & Es)]; [done|]. destruct S0 as [|y S0]; injection Es as -> ->; [by left|right; by exists S0, x]. }
  assert (EV' : V = (P ++ [v]) ++ S ++ E) by (rewrite EV; by rewrite <- app_assoc).
  assert (Hsame : P ++ v :: S = (P ++ [v]) ++ S) by by rewrite <- app_assoc.
  assert (Step : exists l1, header l1 = header l /\ holds psize l1 (P ++ [v]) /\
    split_left (Datatypes.S fuel) h l (zlen a) ilen full half (zlen (a ++ b)) (zlen (somes P)) (zlen P) (weight ilen P) 0 =
      if half <=? weight ilen (P ++ [v]) then Ret (l1, zlen (somes (P ++ [v])), zlen P)
      else split_left fuel h l1 (zlen a) ilen full half (zlen (a ++ b)) (zlen (somes (P ++ [v]))) (zlen (P ++ [v]))
        (weight ilen (P ++ [v])) 0).
  { assert (Hearly : forall n, n = width v -> (zlen a <=? zlen P) && (full <=? weight ilen P + n) = false).
    { intros n ->. rewrite (proj2 (Z.leb_gt full _)) by lia. apply andb_false_r. }
    assert (Hu : forall n, n = width v -> u16 (weight ilen P + n) = weight ilen (P ++ [v])).
    { intros n ->. rewrite Hw1. apply u16_id. lia. }
    assert (Ho : u16 (zlen P + 1) = zlen (P ++ [v])) by (zlens; apply u16_id; lia).
    cbn [split_left]. destruct v as [x|].
    - destruct (next_source P x (S ++ E) EV) as [Hlt Hsrc]. rewrite Hlt, (item_source P x (S ++ E) EV), Hsrc.
      cbn [negb mbind outcome_bind]. rewrite (Hearly (size x)) by done.
      rewrite (Hu (size x)) by done. rewrite Ho. cbn [negb orb].
      destruct (append_holds psize l P (size x) x Hl) as [Hl1 Hd1]; [lia|done|unfold width in H12; lia|unfold width in Hsm; lia|].
      exists (add_item l (zlen P) (size x) x). split; [done|]. split; [done|].
      by rewrite somes_app, (zlen_app (somes P)).
    - rewrite (open_source P (S ++ E) EV), Z.eqb_refl in *.
      assert (Hlt : (zlen (somes P) <? zlen (a ++ b)) = true).
      { destruct Hlast as [?|(S0 & x & Es)]; [done|]. apply Z.ltb_lt. rewrite <- V_somes, EV, Es.
        rewrite !somes_app. zlens. cbn. pose proof (zlen_nonneg (somes S0)). pose proof (zlen_nonneg (somes E)). zlens. lia. }
      rewrite Hlt. cbn [negb mbind outcome_bind]. rewrite (Hearly ilen) by done.
      rewrite (Hu ilen) by done. rewrite Ho. cbn [negb orb].
      exists l. split; [done|]. split; [by apply holds_open|]. by rewrite somes_app, (zlen_app (somes P)), Z.add_0_r. }
  destruct Step as (l1 & Hd1 & Hl1 & ->). destruct (Z.leb_spec half (weight ilen (P ++ [v]))) as [Hge|Hlt].
  - exists P, v, S, l1. split; [done|]. split; [done|]. split; [lia|]. by split.
  - destruct (IH l1 (P ++ [v]) S) as (P' & w & S' & l' & E1 & E2 & E3 & E4 & E5); [done|done|done| |cbn in Hf; lia|].
    { rewrite <- Hsame. lia. }
    exists P', w, S', l'. rewrite Hsame, E2. split; [done|]. split; [done|]. split; [lia|]. by rewrite E4.
Qed.

Lemma split_right_run C D D' todo r R skip :
  a ++ b = D ++ C ++ D' -> (skip < zlen D \/ zlen D + zlen C <= skip) ->
  holds psize r R -> bytes_of R + bytes_of (map Some C) <= psize -> zlen R + zlen C < 2 ^ 15 ->
  exists r', split_right (length C + todo) h r skip (zlen D) (zlen R) =
               split_right todo h r' skip (zlen (D ++ C)) (zlen (R ++ map Some C)) /\
    holds psize r' (R ++ map Some C) /\ header r' = header r.
Proof using Hsmall Hh Hsize Ht.
  revert D r R. induction C as [|x C IH]; intros D r R E Hk Hr Hb Hl; [exists r; by rewrite !app_nil_r|].
  rewrite zlen_cons in Hk, Hl. cbn in Hb. fold (bytes_of (map Some C)) in Hb.
  pose proof (zlen_nonneg C). pose proof (zlen_nonneg R). pose proof (bytes_nonneg (map Some C)).
  destruct (in_typed x) as (Htx & _ & H12); [rewrite E; apply elem_of_app; right; by left|].
  assert (Hsrc : source h (zlen D) = Ret (x, size x, false)).
  { apply (source_spec psize _ (a ++ b)); [done| |apply zlen_nonneg|done].
    unfold zlen. rewrite Nat2Z.id, E. by apply list_lookup_middle. }
  cbn [length Nat.add split_right]. rewrite (proj2 (Z.eqb_neq _ _)) by lia. rewrite Hsrc. cbn [mbind outcome_bind].
  destruct (append_holds psize r R (size x) x Hr) as [Hr1 Hd1]; [lia|done|lia|lia|].
  destruct (IH (D ++ [x]) (add_item r (zlen R) (size x) x) (R ++ [Some x])) as (r' & E1 & Hr' & Hd').
  - by rewrite <- app_assoc.
  - zlens. lia.
  - done.
  - rewrite bytes_of_app. cbn. lia.
  - zlens. lia.
  - replace (u16 (zlen R + 1)) with (zlen (R ++ [Some x])) by (rewrite u16_id by lia; zlens; lia).
    replace (zlen D + 1) with (zlen (D ++ [x])) by (zlens; lia).
    assert (A1 : (D ++ [x]) ++ C = D ++ x :: C) by by rewrite <- app_assoc.
    assert (A2 : (R ++ [Some x]) ++ map Some C = R ++ map Some (x :: C)) by by rewrite <- app_assoc.
    rewrite A1, A2 in E1. rewrite A2 in Hr'. exists r'. rewrite E1. split; [done|]. split; [done|]. by rewrite Hd'.
Qed.

(** The division: where the first loop stops. *)
Lemma split_left_spec l :
  holds psize l [] ->
  exists L R l',
    split_left (Z.to_nat (zlen (a ++ b)) + 2) h l (zlen a) ilen full half (zlen (a ++ b)) 0 0 0 0
      = Ret (l', zlen (somes L), zlen L - 1) /\
    V = L ++ R /\ holds psize l' L /\ header l' = header l /\ R <> [] /\
    half <= weight ilen L /\ 14 * weight ilen L < 14 * half + 5 * full.
Proof using Hi Hi' Hsmall Hh Hsize Ht Hfull.
  intros Hl.
  assert (Hh2 : full - 1 <= 2 * half <= full).
  { unfold half. pose proof (Z.div_mod full 2). pose proof (Z.mod_pos_bound full 2). lia. }
  assert (Hf5 : 492 <= full) by (unfold full, BTDATAOFF; lia).
  destruct full_loads as [Hl1 Hl2]. pose proof V_weight as EW. pose proof (weight_width V ltac:(done)) as HW.
  assert (Hlast : exists S E, V = S ++ E /\ (S = [] \/ exists S0 x, S = S0 ++ [Some x]) /\ half <= weight ilen S /\
    (E = [] \/ E = [None])).
  { destruct (last_cases b) as [Eb|(b0 & x0 & Eb)].
    - exists (map Some a), [None]. split; [by subst V; rewrite Eb|]. split; [|split; [|by right]].
      + destruct (last_cases a) as [->|(a0 & y & ->)]; [by left|right]. rewrite map_app. by exists (map Some a0), y.
      + assert (weight ilen V = weight ilen (map Some a) + ilen) by (subst V; rewrite Eb, weight_app; cbn; lia).
        unfold small in Hi'. lia.
    - exists V, []. split; [by rewrite app_nil_r|]. split; [right|split; [|by left]].
      + exists (map Some a ++ None :: map Some b0), x0. subst V. rewrite Eb, map_app, <- app_assoc. done.
      + unfold small in Hi'. lia. }
  destruct Hlast as (S & E & EV & Hlast & Hw & HE).
  assert (Hlen : length V = (length (a ++ b) + 1)%nat).
  { subst V. rewrite !length_app. cbn [length]. rewrite !length_map. lia. }
  destruct (split_left_run (Z.to_nat (zlen (a ++ b)) + 2) l [] S E) as (P & v & S' & l' & E1 & E2 & E3 & E4 & E5);
    [done|done|done|split; [cbn; lia|exact Hw]| |].
  { rewrite EV, length_app in Hlen. unfold zlen. lia. }
  cbn [app] in E2. rewrite E2 in EV. exists (P ++ [v]), (S' ++ E), l'. split.
  { replace (zlen (P ++ [v]) - 1) with (zlen P) by (zlens; lia). exact E1. }
  assert (EV2 : V = (P ++ [v]) ++ S' ++ E) by (rewrite EV, <- !app_assoc; done).
  assert (Hv : v ∈ V) by (rewrite EV2, !elem_of_app; left; right; by left).
  destruct (V_width v Hv) as [Hsm _]. unfold small in Hsm.
  assert (Hwv : weight ilen (P ++ [v]) = weight ilen P + width v) by (rewrite weight_app; cbn; unfold width; lia).
  split; [done|]. split; [done|]. split; [done|]. split; [|lia].
  intros En. rewrite En, app_nil_r in EV2. rewrite EV2 in EW, HW. lia.
Qed.

(** The open index is in one of the two parts. *)
Lemma V_parts L R : V = L ++ R ->
  (exists a1 a2, a = a1 ++ a2 /\ L = map Some a1 /\ R = map Some a2 ++ None :: map Some b) \/
  (exists b1 b2, b = b1 ++ b2 /\ L = map Some a ++ None :: map Some b1 /\ R = map Some b2).
Proof.
  unfold V. intros E. symmetry in E. apply app_eq_app in E as (k & [[-> E]|[E ->]]).
  - destruct k as [|v k].
    + left. exists a, []. cbn in E. rewrite app_nil_r, <- E. split; [done|]. split; [by rewrite app_nil_r|done].
    + injection E as <- E. apply map_eq_app in E as (b1 & b2 & -> & <- & <-). right. by exists b1, b2.
  - apply map_eq_app in E as (a1 & a2 & -> & <- & <-). left. by exists a1, a2.
Qed.

(** After the first loop, the second. *)
Lemma split_right_left r b1 b2 :
  b = b1 ++ b2 -> 0 < zlen a + zlen b1 -> holds psize r [] ->
  exists r', split_right (Z.to_nat (zlen (a ++ b) - zlen (a ++ b1))) h r 0 (zlen (a ++ b1)) 0
               = Ret (r', zlen b2, 0) /\ holds psize r' (map Some b2) /\ header r' = header r.
Proof using Hsmall Hh Hsize Ht.
  intros Eb Hpos Hr. pose proof (has_upper psize h _ Hh) as Hu. pose proof (has_bounds psize h _ Hh ltac:(lia)) as Hb.
  rewrite Eb, !map_app, !bytes_of_app in Hu. rewrite Eb, !zlen_app in Hb.
  pose proof (bytes_nonneg (map Some a)). pose proof (bytes_nonneg (map Some b1)).
  pose proof (zlen_nonneg a). pose proof (zlen_nonneg b1).
  destruct (split_right_run b2 (a ++ b1) [] 0 r [] 0) as (r' & E & Hr' & Hd); [|zlens; lia|done|change (bytes_of []) with 0; lia|change (zlen []) with 0; lia|].
  { by rewrite app_nil_r, <- app_assoc, Eb. }
  exists r'. split; [|done]. cbn [split_right] in E. rewrite Nat.add_0_r in E.
  replace (Z.to_nat (zlen (a ++ b) - zlen (a ++ b1))) with (length b2)
    by (rewrite Eb, app_assoc; unfold zlen; rewrite !length_app; lia).
  change (zlen []) with 0 in E. rewrite E. by rewrite zlen_app, zlen_map.
Qed.

Lemma split_right_right r a1 a2 :
  a = a1 ++ a2 -> 0 < zlen a1 -> holds psize r [] ->
  exists r' skip', split_right (Z.to_nat (zlen (a ++ b) - zlen a1)) h r (zlen a) (zlen a1) 0
               = Ret (r', zlen a2 + (if bool_decide (b = []) then 0 else 1 + zlen b), skip') /\
    (skip' =? zlen (a ++ b)) = bool_decide (b = []) /\
    holds psize r' (map Some a2 ++ None :: map Some b) /\ header r' = header r.
Proof using Hsmall Hh Hsize Ht.
  intros Ea Hpos Hr. pose proof (has_upper psize h _ Hh) as Hu. pose proof (has_bounds psize h _ Hh ltac:(lia)) as Hb.
  rewrite Ea, !map_app, !bytes_of_app in Hu. rewrite Ea, !zlen_app in Hb.
  pose proof (bytes_nonneg (map Some a1)). pose proof (bytes_nonneg (map Some a2)). pose proof (bytes_nonneg (map Some b)).
  pose proof (zlen_nonneg a1). pose proof (zlen_nonneg a2). pose proof (zlen_nonneg b).
  assert (Ek : zlen a = zlen a1 + zlen a2) by (rewrite Ea; zlens; lia).
  destruct (split_right_run a2 a1 b (length b) r [] (zlen a)) as (r1 & E & Hr1 & Hd1);
    [by rewrite Ea, <- app_assoc|lia|done|change (bytes_of []) with 0; lia|change (zlen []) with 0; lia|].
  change (zlen []) with 0 in E. rewrite <- Ea in E. cbn [app] in E, Hr1.
  replace (Z.to_nat (zlen (a ++ b) - zlen a1)) with (length a2 + length b)%nat by (unfold zlen in *; rewrite length_app; lia).
  rewrite E. destruct (decide (b = [])) as [Eb|Eb].
  - exists r1, (zlen a). rewrite (bool_decide_eq_true_2 _ Eb). split.
    { rewrite Eb. cbn [length split_right]. do 3 f_equal. rewrite zlen_map. lia. }
    split; [rewrite Eb, app_nil_r; apply Z.eqb_refl|]. split; [|done]. rewrite Eb. by apply holds_open.
  - rewrite (bool_decide_eq_false_2 _ Eb).
    destruct (split_right_run b a [] 0 r1 (map Some a2 ++ [None]) 0) as (r2 & E2 & Hr2 & Hd2);
      [by rewrite app_nil_r|lia|by apply holds_open|rewrite bytes_of_app; change (bytes_of [None]) with 0; lia|zlens; lia|].
    exists r2, 0. rewrite Nat.add_0_r in E2. split.
    + transitivity (split_right (length b) h r1 0 (zlen a) (zlen (map Some a2 ++ [None]))).
      * destruct b as [|x b']; [done|]. cbn [length split_right]. rewrite Z.eqb_refl.
        rewrite (proj2 (Z.eqb_neq 0 _)) by lia. rewrite u16_id by (zlens; lia). by rewrite zlen_app.
      * rewrite E2. cbn [split_right]. do 3 f_equal. zlens. lia.
    + split; [apply Z.eqb_neq; zlens; destruct b; [done|zlens]; lia|]. rewrite <- app_assoc in Hr2. by rewrite Hd2.
Qed.

(** The header of a page whose array has grown, in one or two steps. *)
Definition grown (r : page) (off : Z) (more : bool) : page :=
  let r := set_lower r (lower r + off * 2) in if more then set_lower r (lower r + 2) else r.

Lemma grown_spec r off (more : bool) n l :
  lower r = BTDATAOFF -> 0 <= off -> off + (if more then 1 else 0) = n -> n < 2 ^ 15 - 10 -> holds psize r l ->
  lower (grown r off more) = BTDATAOFF + 2 * n /\ holds psize (grown r off more) l /\ upper (grown r off more) = upper r /\
  (pgno (grown r off more), prevpg (grown r off more), nextpg (grown r off more), flags (grown r off more)) =
    (pgno r, prevpg r, nextpg r, flags r).
Proof using.
  intros El H0 En Hn Hr. unfold grown. unfold BTDATAOFF in *. split.
  - destruct more; cbn; rewrite El; [rewrite (u16_id (_ + off * 2)) by lia|]; rewrite u16_id; lia.
  - split; [|by destruct more]. revert Hr. apply holds_header; by destruct more.
Qed.

(** The item in its place. *)
Lemma fill_has l x y it :
  holds psize l (map Some x ++ None :: map Some y) -> lower l = BTDATAOFF + 2 * (zlen x + 1 + zlen y) ->
  0 < size it -> load (x ++ it :: y) <= full -> has psize (add_item l (zlen x) (size it) it) (x ++ it :: y).
Proof using Hsize.
  intros Hl Elo Hp Hld. pose proof (holds_upper psize l _ Hl) as Eu.
  rewrite bytes_of_app in Eu. cbn in Eu. fold (bytes_of (map Some y)) in Eu.
  rewrite load_app in Hld. cbn in Hld. fold (load y) in Hld. pose proof (bytes_load x). pose proof (bytes_load y).
  pose proof (zlen_nonneg x). pose proof (zlen_nonneg y). unfold full, BTDATAOFF in *.
  destruct (add_item_holds psize l (map Some x) (map Some y) (size it) it Hl) as [Hh' Hu']; [lia|done|lia|].
  rewrite zlen_map in Hh', Hu'. split; [by rewrite map_app| |].
  - cbn [add_item set_layout lower]. rewrite Elo. unfold BTDATAOFF. zlens. lia.
  - rewrite Hu'. cbn [add_item set_layout lower]. lia.
Qed.

Lemma whole_has l x :
  holds psize l (map Some x) -> lower l = BTDATAOFF + 2 * zlen x -> load x <= full -> has psize l x.
Proof using Hsize.
  intros Hl Elo Hld. pose proof (holds_upper psize l _ Hl) as Eu. pose proof (bytes_load x). unfold full in *.
  split; [done|done|]. rewrite Elo, Eu. lia.
Qed.

(** bt_psplit, with the item in its place. *)
Definition split_in_two (c : cursor) (l r : page) : Prop :=
  exists onleft p l' r' c',
    bt_psplit psize c h l r (zlen a) ilen = Ret (onleft, p, l', r', c') /\
    (pgno l', prevpg l', nextpg l', flags l') = (pgno l, prevpg l, nextpg l, flags l) /\
    (pgno r', prevpg r', nextpg r', flags r') = (pgno r, prevpg r, nextpg r, flags r) /\
    (forall it, size it = ilen -> exists L R,
      L ++ R = a ++ it :: b /\ L <> [] /\ R <> [] /\
      has psize (if onleft : bool then add_item l' p ilen it else l') L /\
      has psize (if onleft then r' else add_item r' p ilen it) R).

(** What the first loop leaves, for the second. *)
Record first_half (l l' : page) (L R : list (option item)) : Prop := {
  fh_loop : split_left (Z.to_nat (zlen (a ++ b)) + 2) h l (zlen a) ilen full half (zlen (a ++ b)) 0 0 0 0
    = Ret (l', zlen (somes L), zlen L - 1);
  fh_holds : holds psize l' L;
  fh_lower : lower l' = BTDATAOFF;
  fh_links : (pgno l', prevpg l', nextpg l', flags l') = (pgno l, prevpg l, nextpg l, flags l);
  fh_left : weight ilen L + 2 * zlen L <= full;
  fh_right : weight ilen R + 2 * zlen R <= full;
  fh_counts : 1 < zlen L /\ 0 < zlen R /\ zlen L + zlen R < 2 ^ 15 - 10;
}.

Lemma first_half_spec l :
  upper l = psize -> lower l = BTDATAOFF ->
  exists l' L R, V = L ++ R /\ first_half l l' L R.
Proof using Hi Hi' Hsmall Hh Hsize Ht Hfull.
  intros Ul Ll. pose proof (has_bounds psize h _ Hh ltac:(lia)) as Hb. pose proof (has_lower _ _ _ Hh) as Hlo.
  pose proof full_loads as [Hf1 Hf2].
  assert (Hl0 : holds psize l []) by (split; [done|by exists (@nil Z)|lia]).
  assert (Hh2 : full - 1 <= 2 * half <= full).
  { unfold half. pose proof (Z.div_mod full 2). pose proof (Z.mod_pos_bound full 2). lia. }
  assert (Hf5 : 492 <= full /\ psize = full + 20) by (unfold full, BTDATAOFF; lia).
  destruct (split_left_spec l Hl0) as (L & R & l' & EL & EV & Hl' & Hd & HR & Hw1 & Hw2).
  assert (Hin : forall v, v ∈ L \/ v ∈ R -> v ∈ V) by (intros v; rewrite EV, elem_of_app; tauto).
  assert (HL : 12 * zlen L <= weight ilen L) by (apply weight_width; auto).
  assert (HRw : 12 * zlen R <= weight ilen R) by (apply weight_width; auto).
  pose proof V_weight as EW. rewrite EV, weight_app, zlen_app in EW.
  assert (HlV : zlen L + zlen R = zlen (a ++ b) + 1) by (rewrite <- zlen_app, <- EV; unfold V; zlens; lia).
  unfold small in Hi'. unfold BTDATAOFF in Hlo.
  assert (H1 : 1 < zlen L).
  { destruct L as [|v [|w L]]; [cbn in Hw1; lia| |zlens; pose proof (zlen_nonneg L); lia].
    destruct (V_width v ltac:(apply Hin; left; by left)) as [Hv _]. unfold small, width in Hv. cbn in Hw1. destruct v; lia. }
  assert (H2 : 0 < zlen R) by (destruct R; [done|zlens; pose proof (zlen_nonneg R); lia]).
  exists l', L, R. split; [done|]. injection Hd as D1 D2 D3 D4 D5.
  split; [done|done|by rewrite D5|by rewrite D1, D2, D3, D4|lia..|lia].
Qed.

Lemma split_in_two_right c l r l' L R a1 a2 :
  first_half l l' L R -> upper r = psize -> lower r = BTDATAOFF ->
  a = a1 ++ a2 -> L = map Some a1 -> R = map Some a2 ++ None :: map Some b -> split_in_two c l r.
Proof using Hi Hi' Hsmall Hh Hsize Ht Hfull.
  intros [EL Hl' Ll' Dl F1 F2 (C1 & C2 & C3)] Ur Lr Ea E1 E2.
  pose proof (has_bounds psize h _ Hh ltac:(lia)) as Hb. pose proof (has_next psize h _ Hh ltac:(lia)) as Hn.
  assert (Hr0 : holds psize r []) by (split; [done|by exists (@nil Z)|lia]).
  assert (Ek : zlen a = zlen a1 + zlen a2) by (by rewrite Ea, zlen_app).
  assert (EzL : zlen L = zlen a1) by (by rewrite E1, zlen_map).
  assert (EzR : zlen R = zlen a2 + 1 + zlen b) by (rewrite E2; zlens; lia).
  pose proof (zlen_nonneg a2). pose proof (zlen_nonneg b).
  destruct (split_right_right r a1 a2 Ea ltac:(lia) Hr0) as (r1 & skip' & ER & Hsk & Hr1 & Hdr).
  injection Hdr as R1 R2 R3 R4 R5. set (off := zlen a2 + _) in ER.
  destruct (grown_spec l' (zlen L - 1 + 1) false (zlen L) L) as (G1 & G2 & _ & G4); [done|lia..|done|].
  destruct (grown_spec r1 off (bool_decide (b = [])) (zlen R) (map Some a2 ++ None :: map Some b)) as (K1 & K2 & _ & K4);
    [by rewrite R5| | |lia|done|]; [subst off; destruct (bool_decide _); lia| |].
  { subst off. destruct (bool_decide_reflect (b = [])) as [Eb|Eb]; [rewrite Eb, zlen_nil in EzR|]; lia. }
  exists false, (zlen a2), (grown l' (zlen L - 1 + 1) false), (grown r1 off (bool_decide (b = []))).
  eexists. split; [|split; [|split]].
  - unfold bt_psplit. rewrite Hn, (u16_id (psize - BTDATAOFF)), (u16_id (zlen (a ++ b))) by (unfold BTDATAOFF; lia).
    fold full. fold half. rewrite EL. cbn [mbind outcome_bind]. rewrite (proj2 (Z.leb_gt _ _)) by lia.
    assert (Es : zlen (somes L) = zlen a1) by (by rewrite E1, somes_map).
    rewrite !Es, ER. cbn [mbind outcome_bind]. rewrite Hsk, u16_id by lia.
    replace (zlen a - zlen a1) with (zlen a2) by lia. reflexivity.
  - by rewrite G4.
  - by rewrite K4, R1, R2, R3, R4.
  - intros it Hit. exists a1, (a2 ++ it :: b). split; [by rewrite Ea, <- app_assoc|].
    split; [intros ->; rewrite E1 in C1; by cbn in C1|]. split; [by destruct a2|]. split.
    + apply whole_has; [by rewrite <- E1|by rewrite G1, EzL|]. rewrite <- bytes_load, <- (weight_somes ilen), <- E1. lia.
    + rewrite <- Hit. apply fill_has; [done|lia|lia|]. rewrite load_mid.
      assert (FW : weight ilen R = bytes_of (map Some a2) + ilen + bytes_of (map Some b)) by (by rewrite E2, weight_hole).
      pose proof (bytes_load a2). pose proof (bytes_load b). lia.
Qed.

Lemma split_in_two_left c l r l' L R b1 b2 :
  first_half l l' L R -> upper r = psize -> lower r = BTDATAOFF ->
  b = b1 ++ b2 -> L = map Some a ++ None :: map Some b1 -> R = map Some b2 -> split_in_two c l r.
Proof using Hi Hi' Hsmall Hh Hsize Ht Hfull.
  intros [EL Hl' Ll' Dl F1 F2 (C1 & C2 & C3)] Ur Lr Eb E1 E2.
  pose proof (has_bounds psize h _ Hh ltac:(lia)) as Hb. pose proof (has_next psize h _ Hh ltac:(lia)) as Hn.
  assert (Hr0 : holds psize r []) by (split; [done|by exists (@nil Z)|lia]).
  assert (EzL : zlen L = zlen a + 1 + zlen b1) by (rewrite E1; zlens; lia).
  assert (EzR : zlen R = zlen b2) by (by rewrite E2, zlen_map).
  assert (Es : somes L = a ++ b1) by (rewrite E1, somes_app; cbn; fold (somes (map Some b1)); by rewrite !somes_map).
  pose proof (zlen_nonneg a). pose proof (zlen_nonneg b1). pose proof (zlen_app a b).
  destruct (split_right_left r b1 b2 Eb ltac:(lia) Hr0) as (r1 & ER & Hr1 & Hdr). injection Hdr as R1 R2 R3 R4 R5.
  destruct (grown_spec l' (zlen L - 1 + 1) false (zlen L) L) as (G1 & G2 & _ & G4); [done|lia..|done|].
  destruct (grown_spec r1 (zlen b2) false (zlen R) (map Some b2)) as (K1 & K2 & _ & K4); [by rewrite R5|lia..|done|].
  exists true, (zlen a), (grown l' (zlen L - 1 + 1) false), (grown r1 (zlen b2) false).
  eexists. split; [|split; [|split]].
  - unfold bt_psplit. rewrite Hn, (u16_id (psize - BTDATAOFF)), (u16_id (zlen (a ++ b))) by (unfold BTDATAOFF; lia).
    fold full. fold half. rewrite EL. cbn [mbind outcome_bind]. rewrite (proj2 (Z.leb_le _ _)) by lia.
    rewrite Es, ER. cbn [mbind outcome_bind]. rewrite (proj2 (Z.eqb_neq 0 _)) by (rewrite Eb, !zlen_app in *; lia). reflexivity.
  - by rewrite G4.
  - by rewrite K4, R1, R2, R3, R4.
  - intros it Hit. exists (a ++ it :: b1), b2. split; [by rewrite Eb, <- app_assoc|].
    split; [by destruct a|]. split; [intros ->; rewrite E2 in C2; by cbn in C2|]. split.
    + rewrite <- Hit. apply fill_has; [by rewrite <- E1|lia|lia|]. rewrite load_mid.
      assert (FW : weight ilen L = bytes_of (map Some a) + ilen + bytes_of (map Some b1)) by (by rewrite E1, weight_hole).
      pose proof (bytes_load a). pose proof (bytes_load b1). lia.
    + apply whole_has; [done|by rewrite K1, EzR|]. rewrite <- bytes_load, <- (weight_somes ilen), <- E2. lia.
Qed.

Lemma psplit_filled c l r :
  upper l = psize -> upper r = psize -> lower l = BTDATAOFF -> lower r = BTDATAOFF -> split_in_two c l r.
Proof using Hi Hi' Hsmall Hh Hsize Ht Hfull.
  intros Ul Ur Ll Lr. destruct (first_half_spec l Ul Ll) as (l' & L & R & EV & F).
  destruct (V_parts L R EV) as [(a1 & a2 & Ea & E1 & E2)|(b1 & b2 & Eb & E1 & E2)].
  - by apply (split_in_two_right c l r l' L R a1 a2).
  - by apply (split_in_two_left c l r l' L R b1 b2).
Qed.
End split.

(** ** Properties *)

(** bt_psplit divides a page that has no room for a new item at an index, when no
    item takes more than 5/14 of the page: the first loop stops on time, neither page
    overflows, neither is empty, and once the new item is put at the index that is left
    open the two pages hold, in order, the items of the old one and the new one. *)
Theorem bt_psplit_correct psize c h l r a b ilen :
  512 <= psize < 2 ^ 16 -> has psize h (a ++ b) -> Forall (typed h) (a ++ b) ->
  Forall (fun x => small psize (size x)) (a ++ b) -> 12 <= ilen -> small psize ilen ->
  no_room h ilen = true ->
  upper l = psize -> upper r = psize -> lower l = BTDATAOFF -> lower r = BTDATAOFF ->
  exists onleft p l' r' c',
    bt_psplit psize c h l r (zlen a) ilen = Ret (onleft, p, l', r', c') /\
    (pgno l', prevpg l', nextpg l', flags l') = (pgno l, prevpg l, nextpg l, flags l) /\
    (pgno r', prevpg r', nextpg r', flags r') = (pgno r, prevpg r, nextpg r, flags r) /\
    (forall it, size it = ilen -> exists L R,
      L ++ R = a ++ it :: b /\ L <> [] /\ R <> [] /\
      has psize (if onleft : bool then add_item l' p ilen it else l') L /\
      has psize (if onleft then r' else add_item r' p ilen it) R).
Proof. intros. by apply psplit_filled. Qed.

(** A page of leaf items, put in one after the other. *)
Definition blank : page :=
  {| pgno := 0; prevpg := 0; nextpg := 0; flags := 0; lower := 0; upper := 0;
     linp := fun _ => 0; items := fun _ => Junk; bytes := [] |}.

Definition add_last (h : page) (it : item) : page :=
  add_item (open_index h (NEXTINDEX h)) (NEXTINDEX h) (size it) it.
Definition leaf_page (psize n : Z) (l : list item) : page :=
  fold_left add_last l (init_page blank n 0 0 P_BLEAF BTDATAOFF psize).

Lemma leaf_page_has psize n l :
  512 <= psize < 2 ^ 16 -> Forall (fun x => 0 < size x) l -> load l <= psize - BTDATAOFF ->
  has psize (leaf_page psize n l) l /\ flags (leaf_page psize n l) = P_BLEAF.
Proof.
  intros Hs Hl. induction l as [|x l IH] using rev_ind; intros Hld.
  - assert (U : u16 psize = psize) by (apply u16_id; lia). split; [|done]. split; [|done|change (20 <= u16 psize); lia].
    split; [done| |change (0 <= u16 psize); lia]. by exists [].
  - apply Forall_app in Hl as [Hl Hx]. inversion Hx as [|? ? Hx' _]; subst.
    rewrite load_app in Hld. cbn in Hld. destruct IH as [IH If]; [done|lia|].
    unfold leaf_page in *. rewrite List.fold_left_app. cbn [fold_left]. set (p := fold_left add_last l _) in *.
    split; [|done]. unfold add_last. rewrite (has_next psize p l IH) by lia.
    apply insert_has; [by rewrite app_nil_r|lia|done|].
    rewrite (no_room_spec psize p (l ++ [])) by (rewrite ?app_nil_r; done || lia).
    rewrite app_nil_r. apply Z.ltb_ge. lia.
Qed.

Lemma bt_psplit_correct_witness :
  let h := leaf_page 512 1 (replicate 5 (BLEAF 0 [1] (replicate 80 7))) in
  let e := init_page blank 2 0 0 P_BLEAF BTDATAOFF 512 in
  exists onleft p l' r' c', bt_psplit 512 {| c_pgno := 0; c_index := 0; c_key := []; c_flags := 0 |} h e e 2 92
    = Ret (onleft, p, l', r', c').
Proof.
  intros h e. set (x := BLEAF 0 [1] (replicate 80 7)).
  assert (Hh : has 512 h (replicate 2 x ++ replicate 3 x) /\ flags h = P_BLEAF).
  { apply leaf_page_has; [lia|repeat constructor|by vm_compute]. }
  destruct Hh as [Hh Hf]. assert (Hx : 14 * size x <= 5 * (512 - BTDATAOFF)) by (by vm_compute).
  destruct (bt_psplit_correct 512 {| c_pgno := 0; c_index := 0; c_key := []; c_flags := 0 |} h e e
    (replicate 2 x) (replicate 3 x) 92) as (onleft & p & l' & r' & c' & E & _).
  - lia.
  - exact Hh.
  - repeat constructor; by rewrite Hf.
  - repeat constructor; exact Hx.
  - lia.
  - by vm_compute.
  - by vm_compute.
  - by vm_compute.
  - by vm_compute.
  - by vm_compute.
  - by vm_compute.
  - by exists onleft, p, l', r', c'.
Defined.

(** With two items to a page, which bt_open allows and samdb.c asks for, bt_psplit
    can go wrong: the sizes it adds up leave out the two bytes an item has in the
    array, so that all the items go to the left page, whose array then runs into the last one,
    and the right page, whose first key is to separate the two, stays empty. *)
Theorem bt_psplit_overflows :
  let small := BLEAF 0 [1] [] in
  let large := BLEAF 0 [2] (replicate 231 0) in
  let h := leaf_page 512 1 (replicate 17 small ++ [large]) in
  let e := init_page blank 2 0 0 P_BLEAF BTDATAOFF 512 in
  has 512 h (replicate 17 small ++ [large]) /\ no_room h (size small) = true /\
  size large - 9 <= (512 - BTDATAOFF) / 2 - (2 + NBLEAFDBT 0 0) + 3 /\
  exists l' r' c',
    bt_psplit 512 {| c_pgno := 0; c_index := 0; c_key := []; c_flags := 0 |} h e e 0 (size small)
      = Ret (true, 0, l', r', c') /\
    NEXTINDEX l' = 19 /\ upper l' - size small < lower l' /\ NEXTINDEX r' = 0.
Proof.
  intros sm lg h e. split; [|split; [by vm_compute|split; [by vm_compute|]]].
  - apply leaf_page_has; [lia|repeat constructor|by vm_compute].
  - eexists _, _, _. split; [vm_compute; reflexivity|]. by vm_compute.
Qed.

(** The cursor after bt_psplit: when the open index is on the right page it stays on its
    record; when it is on the left page and before the cursor, a cursor on a record that
    went to the right page is on the record after it, and one on the last record of
    the left page on the first of the right page. *)
Theorem split_cursor_moves c h l r skip m i :
  is_set (c_flags c) CURS_INIT = true -> c_pgno c = pgno h -> c_index c = i ->
  0 <= skip -> 0 <= i < 2 ^ 15 -> 0 <= m ->
  let place := if skip <=? i then i + 1 else i in
  (m <= skip -> split_cursor c h l r skip m =
     if place <? m then set_place c (pgno l) place else set_place c (pgno r) (place - m)) /\
  (skip < m -> split_cursor c h l r skip (m - 1) =
     if place <? m - 1 then set_place c (pgno l) place else set_place c (pgno r) (place - m + 1)).
Proof.
  intros Hc Hp Hi Hs Hb Hm place. unfold split_cursor. rewrite Hc, Hp, Z.eqb_refl, Hi. cbn [andb].
  assert (E : (if skip <=? i then u16 (i + 1) else i) = place) by (unfold place; destruct (skip <=? i); [apply u16_id; lia|done]).
  rewrite E. split; intros _; [done|]. by replace (place - (m - 1)) with (place - m + 1) by lia.
Qed.
End BtPage.
