(* ===== verification/BtTree.v ===== *)
(** The state of a btree and its pages (db.1.85/btree.h): the free list (bt_page.c),
    keys and data on overflow pages (bt_overflow.c), comparison and return of items
    (bt_utils.c), search (bt_search.c) and lookup (bt_get.c).  The pages are those of
    the buffer pool, which Mpool.v shows to be a list of pages whatever is in its cache. *)

From S2P Require Import Prelude BtPage BtUtils Samdb.
From stdpp Require Import gmap.
Import BtPage.
#[local] Open Scope Z_scope.

Module BtTree.

(** ** The state *)

Definition RET_ERROR : Z := -1.
Definition RET_SUCCESS : Z := 0.
Definition RET_SPECIAL : Z := 1.
Definition MAX_PAGE_NUMBER : Z := 0xffffffff.
Definition EPERM : Z := 1.

Definition B_MODIFIED : Z := 0x4.
Definition B_RDONLY : Z := 0x10.
Definition B_NODUPS : Z := 0x20.
Definition B_DB_LOCK : Z := 0x4000.

Inductive order := NOT | BACK | FORWARD.

(** The pages by their numbers, how many there are, and whether the next calls that
    can fail work (all others do). *)
Record pool := { pages : gmap Z page; npages : Z; calls : list bool }.

(** What bt_open fixes; the contents of a page of mpool_new are not specified. *)
Record config := {
  bt_psize : Z;
  bt_ovflsize : Z;
  bt_cmp : list Z -> list Z -> Z;
  bt_pfx : option (list Z -> list Z -> Z);
  new_page : page;
}.

Record btree := {
  cfg : config;
  bt_mp : pool;
  bt_free : Z;
  bt_order : order; bt_last : Z * Z;
  bt_cursor : cursor;
  bt_stack : list (Z * Z);
  bt_flags : Z;
  errno : Z;
  panicked : bool;          (** the operations of the DB are replaced by one that fails *)
}.

Definition set_mp (t : btree) (m : pool) : btree :=
  {| cfg := cfg t; bt_mp := m; bt_free := bt_free t; bt_order := bt_order t; bt_last := bt_last t;
     bt_cursor := bt_cursor t; bt_stack := bt_stack t; bt_flags := bt_flags t; errno := errno t;
     panicked := panicked t |}.
Definition set_free (t : btree) (n : Z) : btree :=
  {| cfg := cfg t; bt_mp := bt_mp t; bt_free := n; bt_order := bt_order t; bt_last := bt_last t;
     bt_cursor := bt_cursor t; bt_stack := bt_stack t; bt_flags := bt_flags t; errno := errno t;
     panicked := panicked t |}.
Definition set_order (t : btree) (o : order) (last : Z * Z) : btree :=
  {| cfg := cfg t; bt_mp := bt_mp t; bt_free := bt_free t; bt_order := o; bt_last := last;
     bt_cursor := bt_cursor t; bt_stack := bt_stack t; bt_flags := bt_flags t; errno := errno t;
     panicked := panicked t |}.
Definition set_cursor (t : btree) (c : cursor) : btree :=
  {| cfg := cfg t; bt_mp := bt_mp t; bt_free := bt_free t; bt_order := bt_order t; bt_last := bt_last t;
     bt_cursor := c; bt_stack := bt_stack t; bt_flags := bt_flags t; errno := errno t;
     panicked := panicked t |}.
Definition set_stack (t : btree) (s : list (Z * Z)) : btree :=
  {| cfg := cfg t; bt_mp := bt_mp t; bt_free := bt_free t; bt_order := bt_order t; bt_last := bt_last t;
     bt_cursor := bt_cursor t; bt_stack := s; bt_flags := bt_flags t; errno := errno t;
     panicked := panicked t |}.
Definition set_bt_flags (t : btree) (f : Z) : btree :=
  {| cfg := cfg t; bt_mp := bt_mp t; bt_free := bt_free t; bt_order := bt_order t; bt_last := bt_last t;
     bt_cursor := bt_cursor t; bt_stack := bt_stack t; bt_flags := f; errno := errno t;
     panicked := panicked t |}.
Definition set_errno (t : btree) (e : Z) : btree :=
  {| cfg := cfg t; bt_mp := bt_mp t; bt_free := bt_free t; bt_order := bt_order t; bt_last := bt_last t;
     bt_cursor := bt_cursor t; bt_stack := bt_stack t; bt_flags := bt_flags t; errno := e;
     panicked := panicked t |}.

Definition psize (t : btree) : Z := bt_psize (cfg t).

(** ** The pool *)

(** Whether the next call works. *)
Definition call_works (t : btree) : bool * btree :=
  let m := bt_mp t in
  match calls m with
  | [] => (true, t)
  | b :: bs => (b, set_mp t {| pages := pages m; npages := npages m; calls := bs |})
  end.

(** A page is known by its number; it is read and written in place. *)
Definition page_at (t : btree) (pg : Z) : outcome page := checked (pages (bt_mp t) !! pg).

Definition store (t : btree) (pg : Z) (h : page) : btree :=
  let m := bt_mp t in set_mp t {| pages := <[pg := h]> (pages m); npages := npages m; calls := calls m |}.

Definition mpool_get (t : btree) (pg : Z) : option page * btree :=
  if npages (bt_mp t) <=? pg then (None, set_errno t EINVAL)
  else
    let '(works, t) := call_works t in
    if works then (pages (bt_mp t) !! pg, t) else (None, set_errno t EIO).

Definition mpool_new (t : btree) : option Z * btree :=
  let n := npages (bt_mp t) in
  if n =? MAX_PAGE_NUMBER then (None, t)
  else
    let '(works, t) := call_works t in
    if works then
      let m := bt_mp t in
      (Some n, set_mp t {| pages := <[n := new_page (cfg t)]> (pages m); npages := n + 1; calls := calls m |})
    else (None, t).

(** Memory for a copy: a buffer that is too small is made bigger, which can fail.  The sizes of
    the buffers are not kept: the replies also cover the buffer that is big enough. *)
Definition grow_buffer (t : btree) : bool * btree :=
  let '(works, t) := call_works t in
  (works, if works then t else set_errno t ENOMEM).

(** ** The free list (bt_page.c) *)

Definition __bt_free (t : btree) (pg : Z) : outcome btree :=
  h ← page_at t pg;
  let h := set_nextpg (set_prevpg h P_INVALID) (bt_free t) in
  Ret (store (set_free t (pgno h)) pg h).

Definition __bt_new (t : btree) : option Z * btree :=
  if bt_free t =? P_INVALID then mpool_new t
  else
    match mpool_get t (bt_free t) with
    | (Some h, t) => (Some (bt_free t), set_free t (nextpg h))
    | (None, t) => mpool_new t
    end.

(** ** Overflow pages (bt_overflow.c) *)

(** The reference to a chain: the number of its first page and the size. *)
Definition ovfl_ref (pg size : Z) : list Z := le_bytes 4 pg ++ le_bytes 4 size.

Fixpoint ovfl_get_loop (fuel : nat) (t : btree) (pg sz : Z) (buf : list Z) : outcome (option (list Z) * btree) :=
  match fuel with
  | O => Fault
  | S fuel =>
      match mpool_get t pg with
      | (None, t) => Ret (None, t)
      | (Some h, t) =>
          let nb := Z.min sz (psize t - BTDATAOFF) in
          let buf := buf ++ take (Z.to_nat nb) (bytes h) in
          if sz - nb =? 0 then Ret (Some buf, t) else ovfl_get_loop fuel t (nextpg h) (sz - nb) buf
      end
  end.

(** The bytes, or [None] for RET_ERROR.  Each page but the last takes some. *)
Definition __ovfl_get (t : btree) (p : list Z) : outcome (option (list Z) * btree) :=
  let pg := le_word p 0 in
  let sz := le_word p 1 in
  match grow_buffer t with
  | (false, t) => Ret (None, t)
  | (true, t) => ovfl_get_loop (Z.to_nat sz + 1) t pg sz []
  end.

(** [first] is the first page of the chain, [last] the last so far, when there is one. *)
Fixpoint ovfl_put_loop (fuel : nat) (t : btree) (data : list Z) (first last : option Z) : outcome (option Z * btree) :=
  match fuel with
  | O => Fault
  | S fuel =>
      match __bt_new t with
      | (None, t) => Ret (None, t)
      | (Some npg, t) =>
          h ← page_at t npg;
          let plen := psize t - BTDATAOFF in
          let nb := Z.to_nat (Z.min (zlen data) plen) in
          let h := set_bytes (init_page h npg P_INVALID P_INVALID P_OVERFLOW 0 0)
                     (take nb data ++ drop nb (bytes h)) in
          let t := store t npg h in
          t ← match last with
              | Some last => l ← page_at t last; Ret (store t last (set_nextpg l npg))
              | None => Ret t
              end;
          let first := match first with Some pg => Some pg | None => Some npg end in
          if zlen data - Z.of_nat nb =? 0 then Ret (first, t)
          else ovfl_put_loop fuel t (drop nb data) first (Some npg)
      end
  end.

(** The number of the first page, or [None] for RET_ERROR. *)
Definition __ovfl_put (t : btree) (data : list Z) : outcome (option Z * btree) :=
  ovfl_put_loop (length data + 1) t data None None.

Fixpoint ovfl_delete_loop (fuel : nat) (t : btree) (pg : Z) (h : page) (sz : Z) : outcome (Z * btree) :=
  match fuel with
  | O => Fault
  | S fuel =>
      let plen := psize t - BTDATAOFF in
      let next := nextpg h in
      t ← __bt_free t pg;
      if sz <=? plen then Ret (RET_SUCCESS, t)
      else
        match mpool_get t next with
        | (None, t) => Ret (RET_ERROR, t)
        | (Some h, t) => ovfl_delete_loop fuel t next h (sz - plen)
        end
  end.

Definition __ovfl_delete (t : btree) (p : list Z) : outcome (Z * btree) :=
  let pg := le_word p 0 in
  let sz := le_word p 1 in
  match mpool_get t pg with
  | (None, t) => Ret (RET_ERROR, t)
  | (Some h, t) =>
      if is_set (flags h) P_PRESERVE then Ret (RET_SUCCESS, t)
      else ovfl_delete_loop (Z.to_nat sz + 1) t pg h sz
  end.

(** ** Comparison and return of items (bt_utils.c) *)

(** The key of an item: whether it is on overflow pages, and its bytes. *)
Definition item_key (h : page) (index : Z) : outcome (bool * list Z) :=
  if is_set (flags h) P_BLEAF then
    '(fl, key, _) ← GETBLEAF h index; Ret (is_set fl P_BIGKEY, key)
  else
    '(_, fl, key) ← GETBINTERNAL h index; Ret (is_set fl P_BIGKEY, key).

Definition __bt_cmp (t : btree) (k1 : list Z) (pg index : Z) : outcome (Z * btree) :=
  h ← page_at t pg;
  if (index =? 0) && (prevpg h =? P_INVALID) && negb (is_set (flags h) P_BLEAF) then Ret (1, t)
  else
    '(big, key) ← item_key h index;
    if big : bool then
      '(k2, t) ← __ovfl_get t key;
      match k2 with
      | None => Ret (RET_ERROR, t)
      | Some k2 => Ret (bt_cmp (cfg t) k1 k2, t)
      end
    else Ret (bt_cmp (cfg t) k1 key, t).

(** Bytes that may be on overflow pages, and are copied from there, or else copied when asked for. *)
Definition fetch (t : btree) (copy big : bool) (p : list Z) : outcome (option (list Z) * btree) :=
  if big then __ovfl_get t p
  else if copy then
    match grow_buffer t with
    | (false, t) => Ret (None, t)
    | (true, t) => Ret (Some p, t)
    end
  else Ret (Some p, t).

(** The status, and what [key] and [data] are set to where they are wanted. *)
Definition __bt_ret (t : btree) (pg index : Z) (key data copy : bool) :
    outcome (Z * option (list Z) * option (list Z) * btree) :=
  h ← page_at t pg;
  '(fl, k, d) ← GETBLEAF h index;
  let copy := copy || is_set (bt_flags t) B_DB_LOCK in
  '(k, t) ← (if key then fetch t copy (is_set fl P_BIGKEY) k else Ret (Some [], t));
  match k with
  | None => Ret (RET_ERROR, None, None, t)
  | Some k =>
      let key := if key then Some k else None in
      if data then
        '(d, t) ← fetch t copy (is_set fl P_BIGDATA) d;
        match d with
        | None => Ret (RET_ERROR, key, None, t)
        | Some d => Ret (RET_SUCCESS, key, Some d, t)
        end
      else Ret (RET_SUCCESS, key, None, t)
  end.

(** ** Search (bt_search.c) *)

(** The binary search of a page: the index of the key, or else the place for it. *)
Fixpoint bsearch (fuel : nat) (t : btree) (key : list Z) (pg base lim : Z) : outcome (Z * bool * btree) :=
  if lim =? 0 then Ret (base, false, t)
  else
    match fuel with
    | O => Fault
    | S fuel =>
        let index := u16 (base + Z.shiftr lim 1) in
        '(cmp, t) ← __bt_cmp t key pg index;
        if cmp =? 0 then Ret (index, true, t)
        else if 0 <? cmp then bsearch fuel t key pg (u16 (index + 1)) (Z.shiftr (u16 (lim - 1)) 1)
        else bsearch fuel t key pg base (Z.shiftr lim 1)
    end.

(** A match on the page before or after: its page and index. *)
Definition __bt_sprev (t : btree) (h : page) (key : list Z) : outcome (option (Z * Z) * btree) :=
  match mpool_get t (prevpg h) with
  | (None, t) => Ret (None, t)
  | (Some e, t) =>
      let index := u16 (NEXTINDEX e - 1) in
      '(cmp, t) ← __bt_cmp t key (prevpg h) index;
      Ret (if cmp =? 0 then Some (prevpg h, index) else None, t)
  end.

Definition __bt_snext (t : btree) (h : page) (key : list Z) : outcome (option (Z * Z) * btree) :=
  match mpool_get t (nextpg h) with
  | (None, t) => Ret (None, t)
  | (Some e, t) =>
      '(cmp, t) ← __bt_cmp t key (nextpg h) 0;
      Ret (if cmp =? 0 then Some (nextpg h, 0) else None, t)
  end.

(** The place on a leaf where the key is not. *)
Definition search_leaf (t : btree) (h : page) (key : list Z) (pg base : Z) : outcome (Z * Z * bool * btree) :=
  if is_set (bt_flags t) B_NODUPS then Ret (pg, base, false, t)
  else
    '(e, t) ← (if (base =? 0) && negb (prevpg h =? P_INVALID) then __bt_sprev t h key else Ret (None, t));
    match e with
    | Some (epg, index) => Ret (epg, index, true, t)
    | None =>
        '(e, t) ← (if (base =? NEXTINDEX h) && negb (nextpg h =? P_INVALID) then __bt_snext t h key else Ret (None, t));
        match e with
        | Some (epg, index) => Ret (epg, index, true, t)
        | None => Ret (pg, base, false, t)
        end
    end.

(** [BT_PUSH], on a stack of 50 entries. *)
Definition BT_PUSH (t : btree) (p i : Z) : outcome btree :=
  if (50 <=? length (bt_stack t))%nat then Fault else Ret (set_stack t ((p, i) :: bt_stack t)).

(** The page, the index and whether the key is there; [None] is NULL.  The stack
    bounds the turns of the loop. *)
Fixpoint search_loop (fuel : nat) (t : btree) (key : list Z) (pg : Z) : outcome (option (Z * Z * bool) * btree) :=
  match fuel with
  | O => Fault
  | S fuel =>
      match mpool_get t pg with
      | (None, t) => Ret (None, t)
      | (Some h, t) =>
          let lim := u16 (NEXTINDEX h) in
          '(i, found, t) ← bsearch (S (Z.to_nat lim)) t key pg 0 lim;
          if is_set (flags h) P_BLEAF then
            if found : bool then Ret (Some (pg, i, true), t)
            else '(epg, index, exact, t) ← search_leaf t h key pg i; Ret (Some (epg, index, exact), t)
          else
            let index := if found then i else if i =? 0 then i else i - 1 in
            t ← BT_PUSH t (pgno h) index;
            '(child, _, _) ← GETBINTERNAL h index;
            search_loop fuel t key child
      end
  end.

Definition __bt_search (t : btree) (key : list Z) : outcome (option (Z * Z * bool) * btree) :=
  search_loop 51 (set_stack t []) key P_ROOT.

(** ** Lookup (bt_get.c) *)

(** [want] says that the data is asked for: [data] is not NULL. *)
Definition bt_get_data (t : btree) (key : list Z) (want : bool) (flags : Z) : outcome (Z * option (list Z) * btree) :=
  if negb (flags =? 0) then Ret (RET_ERROR, None, set_errno t EINVAL)
  else
    '(e, t) ← __bt_search t key;
    match e with
    | None => Ret (RET_ERROR, None, t)
    | Some (_, _, false) => Ret (RET_SPECIAL, None, t)
    | Some (pg, index, true) =>
        '(status, _, data, t) ← __bt_ret t pg index false want false;
        Ret (status, data, t)
    end.

Definition __bt_get (t : btree) (key : list Z) (flags : Z) : outcome (Z * option (list Z) * btree) :=
  bt_get_data t key true flags.

End BtTree.
