(* ===== verification/BtSearch.v ===== *)
(** Trees and the search in them: what the pages of a btree are to hold, level by level,
    and that __bt_search finds the place of every key and __bt_get its data
    (db.1.85/bt_search.c, bt_get.c).

    A tree is the list of its levels, the leaves first; a level is the list of its pages
    from left to right; a page is its number and its items.  The keys of the internal
    pages separate the pages of the level below: a page holds keys from its lower bound up
    to the bound of the page after it.  The key of the first item of an internal page is
    never looked at; its child has the lower bound of the page. *)

From S2P Require Import Prelude BtPage BtUtils Samdb BtTree.
From stdpp Require Import gmap sorting.
Import BtPage BtTree.
#[local] Open Scope Z_scope.

Module BtSearch.

(** ** The order of keys and bounds *)

Abbreviation key := (list Z).

(** The lower bound of a page; [None] on the left edge. *)
Abbreviation bound := (option key).

Definition klt (a b : key) : Prop := Samdb.bytes_lt a b = true.
Definition kle (a b : key) : Prop := Samdb.bytes_lt b a = false.

Definition blt (a b : bound) : Prop :=
  match a, b with None, Some _ => True | Some x, Some y => klt x y | _, None => False end.

(** A key from a bound on, and before the next bound. *)
Definition from (b : bound) (k : key) : Prop := match b with Some s => kle s k | None => True end.
Definition before (k : key) (B : list bound) : Prop := match B with b :: _ => blt (Some k) b | [] => True end.

Lemma klt_irrefl a : ~ klt a a.
Proof. unfold klt. induction a as [|x a IH]; [done|]. cbn. by rewrite Z.ltb_irrefl, Z.eqb_refl. Qed.

Lemma klt_trans a b c : klt a b -> klt b c -> klt a c.
Proof. apply BtUtils.bytes_lt_trans. Qed.

Lemma klt_total a b : klt a b \/ a = b \/ klt b a.
Proof.
  unfold klt. revert b. induction a as [|x a IH]; intros [|y b]; cbn; [by right; left|by left|by right; right|].
  destruct (Z.lt_total x y) as [H|[->|H]].
  - left. by rewrite (proj2 (Z.ltb_lt _ _) H).
  - rewrite Z.ltb_irrefl, Z.eqb_refl. cbn. destruct (IH b) as [?|[->|?]]; auto.
  - right; right. by rewrite (proj2 (Z.ltb_lt _ _) H).
Qed.

Lemma kle_spec a b : kle a b <-> klt a b \/ a = b.
Proof.
  unfold kle. rewrite <- not_true_iff_false. fold (klt b a). destruct (klt_total a b) as [H|[->|H]].
  - split; [by left|]. intros _ H'. by apply (klt_irrefl a), klt_trans with b.
  - split; [by right|]. intros _. apply klt_irrefl.
  - split; [done|]. intros [H'| ->]; [|by apply klt_irrefl in H]. intros _. by apply (klt_irrefl a), klt_trans with b.
Qed.

Lemma kle_not a b : kle a b <-> ~ klt b a.
Proof. unfold kle, klt. by rewrite not_true_iff_false. Qed.

Lemma kle_lt_trans a b c : kle a b -> klt b c -> klt a c.
Proof. rewrite kle_spec. intros [H| ->] ?; [by apply klt_trans with b|done]. Qed.
Lemma klt_le_trans a b c : klt a b -> kle b c -> klt a c.
Proof. rewrite kle_spec. intros ? [H| ->]; [by apply klt_trans with b|done]. Qed.

Lemma klt_ne a b : klt a b -> a <> b.
Proof. intros H ->. by apply klt_irrefl in H. Qed.

Lemma blt_trans a b c : blt a b -> blt b c -> blt a c.
Proof. destruct a as [a|], b as [b|], c as [c|]; try done. apply klt_trans. Qed.

Lemma from_blt a b k : blt a b -> from b k -> from a k.
Proof.
  destruct a as [a|], b as [b|]; try done. cbn. intros H1 H2. rewrite kle_spec. left. by eapply klt_le_trans.
Qed.

#[export] Hint Resolve klt_trans blt_trans : samlib.

(** Sorted lists, and parts of them. *)
Abbreviation bsorted := (StronglySorted blt).

Lemma sorted_sublist {A} (R : A -> A -> Prop) l l' : sublist l l' -> StronglySorted R l' -> StronglySorted R l.
Proof.
  intros H. induction H as [|x l l' H IH|x l l' H IH]; [done|..]; intros S; inversion S as [|? ? S' F]; subst.
  - constructor; [by apply IH|]. rewrite Forall_forall in *. intros y Hy. apply F.
    by eapply sublist_subseteq.
  - by apply IH.
Qed.

Lemma sorted_app {A} (R : A -> A -> Prop) l l' :
  StronglySorted R (l ++ l') <->
  StronglySorted R l /\ StronglySorted R l' /\ (forall x y, x ∈ l -> y ∈ l' -> R x y).
Proof.
  induction l as [|z l IH]; cbn [app].
  - split; [|by intros (_ & ? & _)]. intros S. split; [constructor|]. split; [done|]. by intros ? ? H%not_elem_of_nil.
  - split.
    + intros S. inversion S as [|? ? S' F]; subst. apply IH in S' as (S1 & S2 & S3). apply Forall_app in F as [F1 F2].
      split; [by constructor|]. split; [done|]. intros x y [->|Hx]%elem_of_cons Hy; [|by apply S3].
      rewrite Forall_forall in F2. by apply F2.
    + intros (S1 & S2 & S3). inversion S1 as [|? ? S' F]; subst. constructor.
      * apply IH. split; [done|]. split; [done|]. intros x y Hx. apply S3. by right.
      * apply Forall_app. split; [done|]. apply Forall_forall. intros y. apply S3. by left.
Qed.

(** ** Levels *)

Abbreviation node := (Z * list item)%type.
Abbreviation level := (list node).

Definition ikey (x : item) : key :=
  match x with BINTERNAL _ _ k => k | BLEAF _ k _ => k | Junk => [] end.
Definition idata (x : item) : list Z := match x with BLEAF _ _ d => d | _ => [] end.
Definition ichild (x : item) : Z := match x with BINTERNAL p _ _ => p | _ => 0 end.

Definition children (U : level) : list Z := concat (map (fun n => map ichild (snd n)) U).

(** The bounds of the children, from those of the pages. *)
Fixpoint bounds (U : level) (B : list bound) : list bound :=
  match U, B with
  | n :: U, b :: B => (b :: map (fun x => Some (ikey x)) (tail (snd n))) ++ bounds U B
  | _, _ => []
  end.

(** The bounds of the pages of the first level below [up]. *)
Definition lower_bounds (up : list level) : list bound := foldr bounds [None] up.

(** The keys of a page: in order, from its bound on, before the next. *)
Definition keys_in (b : bound) (B : list bound) (its : list item) : Prop :=
  StronglySorted klt (map ikey its) /\ Forall (fun x => from b (ikey x) /\ before (ikey x) B) its.

Fixpoint leaves_in (B : list bound) (L : level) (B' : list bound) : Prop :=
  match B, L with
  | b :: B, n :: L => keys_in b (B ++ B') (snd n) /\ leaves_in B L B'
  | [], [] => True
  | _, _ => False
  end.

(** The pages of each level are the children of the one above, the last is the root. *)
Fixpoint linked (ls : list level) : Prop :=
  match ls with
  | [] => False
  | [L] => map fst L = [P_ROOT]
  | L :: (U :: _) as up => children U = map fst L /\ linked up
  end.

(** The way to a page of the first level, as the stack has it. *)
Fixpoint path (p : nat) (ls : list level) (stack : list (Z * Z)) : Prop :=
  match ls, stack with
  | L :: (U :: _) as up, (pg, i) :: stack =>
      exists U1 es U2, U = U1 ++ (pg, es) :: U2 /\ 0 <= i < zlen es /\
        p = (length (children U1) + Z.to_nat i)%nat /\ path (length U1) up stack
  | [L], [] => p = O
  | _, _ => False
  end.
(** ** The pages of a tree *)

Definition item_of (kind : Z) (x : item) : Prop :=
  match x with
  | BLEAF fl _ _ => kind = P_BLEAF /\ fl = 0
  | BINTERNAL _ fl _ => kind = P_BINTERNAL /\ fl = 0
  | Junk => False
  end.

Record node_in (t : btree) (kind prev : Z) (n : node) (next : Z) (h : page) : Prop := {
  ni_page : pages (bt_mp t) !! fst n = Some h;
  ni_pgno : pgno h = fst n;
  ni_flags : flags h = kind;
  ni_prev : prevpg h = prev;
  ni_next : nextpg h = next;
  ni_has : has (psize t) h (snd n);
  ni_items : Forall (item_of kind) (snd n);
  ni_small : Forall (fun x => small (psize t) (size x)) (snd n);
}.

(** The pages of a part of a level, between those before and after it. *)
Definition first_of (L : level) (next : Z) : Z := match L with n :: _ => fst n | [] => next end.
Fixpoint last_of (prev : Z) (L : level) : Z := match L with n :: L => last_of (fst n) L | [] => prev end.

Fixpoint seg (t : btree) (kind prev : Z) (L : level) (next : Z) : Prop :=
  match L with
  | [] => True
  | n :: L => (exists h, node_in t kind prev n (first_of L next) h) /\ seg t kind (fst n) L next
  end.

Definition level_in (t : btree) (kind : Z) (L : level) : Prop := seg t kind P_INVALID L P_INVALID.

Definition levels_in (t : btree) (ls : list level) : Prop :=
  match ls with L :: up => level_in t P_BLEAF L /\ Forall (level_in t P_BINTERNAL) up | [] => False end.

(** The numbers of the pages of a tree. *)
Definition numbers (ls : list level) : list Z := concat (map (map fst) ls).

(** The free list. *)
Fixpoint free_chain (t : btree) (pg : Z) (l : list Z) : Prop :=
  match l with
  | [] => pg = P_INVALID
  | n :: l => pg = n /\ exists h, pages (bt_mp t) !! pg = Some h /\ free_chain t (nextpg h) l
  end.

(** The configuration of dbopen without options; a page of the usual sizes. *)
Record standard (t : btree) : Prop := {
  st_size : 512 <= psize t < 2 ^ 16;
  st_cmp : bt_cmp (cfg t) = BtUtils.__bt_defcmp;
  st_pfx : bt_pfx (cfg t) = Some BtUtils.__bt_defpfx;
  st_nodups : is_set (bt_flags t) B_NODUPS = true;
  st_calls : calls (bt_mp t) = [];
}.

Definition not_empty (n : node) : Prop := snd n <> [].

(** A tree: its pages, how they are linked, and where the keys are. *)
Record tree (t : btree) (L : level) (up : list level) (free : list Z) : Prop := {
  tr_standard : standard t;
  tr_levels : levels_in t (L :: up);
  tr_linked : linked (L :: up);
  tr_inner : Forall (Forall not_empty) up;
  tr_leaves : up <> [] -> Forall not_empty L;
  tr_numbers : NoDup (numbers (L :: up) ++ free);
  tr_range : Forall (fun n => 0 < n < npages (bt_mp t)) (numbers (L :: up) ++ free);
  tr_free : free_chain t (bt_free t) free;
  tr_sorted : bsorted (lower_bounds up);
  tr_keys : leaves_in (lower_bounds up) L [];
}.

Definition record_of (x : item) : list Z * list Z := (ikey x, idata x).
Definition items_of (L : level) : list item := concat (map snd L).
Definition contents (L : level) : Samdb.records := map record_of (items_of L).

(** ** Positions *)

Lemma first_of_app A B next : first_of (A ++ B) next = first_of A (first_of B next).
Proof. by destruct A. Qed.
Lemma last_of_app prev A B : last_of prev (A ++ B) = last_of (last_of prev A) B.
Proof. revert prev. induction A as [|n A IH]; intros prev; [done|]. apply IH. Qed.

Lemma seg_app t kind prev A B next :
  seg t kind prev (A ++ B) next <-> seg t kind prev A (first_of B next) /\ seg t kind (last_of prev A) B next.
Proof.
  revert prev. induction A as [|n A IH]; intros prev; cbn [app seg last_of]; [tauto|]. rewrite IH, first_of_app. tauto.
Qed.

Lemma level_node t kind L1 n L2 : level_in t kind (L1 ++ n :: L2) ->
  exists h, node_in t kind (last_of P_INVALID L1) n (first_of L2 P_INVALID) h.
Proof. unfold level_in. rewrite seg_app. intros [_ H]. by destruct H. Qed.

Lemma children_app U1 U2 : children (U1 ++ U2) = children U1 ++ children U2.
Proof. unfold children. by rewrite map_app, concat_app. Qed.
Lemma children_cons n U : children (n :: U) = map ichild (snd n) ++ children U.
Proof. done. Qed.
Lemma items_of_app U1 U2 : items_of (U1 ++ U2) = items_of U1 ++ items_of U2.
Proof. unfold items_of. by rewrite map_app, concat_app. Qed.
Lemma items_of_cons n U : items_of (n :: U) = snd n ++ items_of U.
Proof. done. Qed.

Lemma bounds_app U1 U2 B1 B2 :
  length U1 = length B1 -> bounds (U1 ++ U2) (B1 ++ B2) = bounds U1 B1 ++ bounds U2 B2.
Proof.
  revert B1. induction U1 as [|n U1 IH]; intros [|b B1] Hl; try done. cbn [app bounds].
  rewrite IH by (cbn in Hl; lia). by rewrite app_comm_cons, app_assoc.
Qed.

Lemma length_bounds U B :
  Forall not_empty U -> length U = length B -> length (bounds U B) = length (children U).
Proof.
  intros H. revert B. induction H as [|[pg its] U Hn H IH]; intros [|b B] Hl; try done. cbn [bounds snd].
  rewrite children_cons, !length_app, IH by (cbn in Hl; lia). cbn. unfold not_empty in Hn. cbn in Hn.
  destruct its; [done|]. cbn. by rewrite !length_map.
Qed.

Lemma bounds_sublist U B : length U = length B -> sublist B (bounds U B).
Proof.
  revert B. induction U as [|n U IH]; intros [|b B] Hl; try done. cbn [bounds app].
  apply sublist_skip. apply sublist_inserts_l. apply IH. cbn in Hl. lia.
Qed.

Lemma length_lower_bounds L up :
  linked (L :: up) -> Forall (Forall not_empty) up -> length (lower_bounds up) = length L.
Proof.
  revert L. induction up as [|U up IH]; intros L Hl Hn.
  - cbn in *. apply (f_equal length) in Hl. rewrite length_map in Hl. by rewrite Hl.
  - destruct Hl as [Hc Hl]. inversion Hn as [|? ? Hn1 Hn2]; subst. cbn [lower_bounds foldr]. fold (lower_bounds up).
    rewrite length_bounds; [|done|by rewrite (IH U)]. by rewrite Hc, length_map.
Qed.

Lemma leaves_in_app B1 B2 L1 L2 B' :
  length B1 = length L1 -> leaves_in (B1 ++ B2) (L1 ++ L2) B' <-> leaves_in B1 L1 (B2 ++ B') /\ leaves_in B2 L2 B'.
Proof.
  revert L1. induction B1 as [|b B1 IH]; intros [|n L1] Hl; try done; [cbn; tauto|]. cbn [app leaves_in].
  rewrite IH by (cbn in Hl; lia). rewrite <- app_assoc. tauto.
Qed.

(** A list and another of the same length, at a position of the first. *)
Lemma split_like {A B} (l1 l2 : list A) x (l : list B) :
  length l = length (l1 ++ x :: l2) ->
  exists k1 y k2, l = k1 ++ y :: k2 /\ length k1 = length l1 /\ length k2 = length l2.
Proof.
  intros Hl. rewrite length_app in Hl. cbn in Hl.
  destruct (lookup_lt_is_Some_2 l (length l1)) as [y Hy]; [lia|].
  exists (take (length l1) l), y, (drop (S (length l1)) l).
  split; [symmetry; by apply take_drop_middle|]. rewrite length_take, length_drop. lia.
Qed.
(** ** Comparison *)

Lemma size_key x : zlen (ikey x) <= size x.
Proof.
  destruct x as [p f k|f k d|]; cbn [ikey size]; [| |done]; unfold NBINTERNAL, NBLEAFDBT.
  - pose proof (LALIGN_bounds (4 + 4 + 1 + zlen k)). lia.
  - pose proof (LALIGN_bounds (4 + 4 + 1 + zlen k + zlen d)). pose proof (zlen_nonneg d). lia.
Qed.

Definition small_key (k : key) : Prop := BtUtils.small k.

Lemma item_small_key t x : standard t -> small (psize t) (size x) -> small_key (ikey x).
Proof.
  intros Hs Hx. pose proof (st_size _ Hs). pose proof (size_key x). unfold small, BTDATAOFF in Hx.
  unfold small_key, BtUtils.small. lia.
Qed.

Lemma defcmp_sign k1 k2 : small_key k1 -> small_key k2 ->
  (BtUtils.__bt_defcmp k1 k2 < 0 <-> klt k1 k2) /\ (BtUtils.__bt_defcmp k1 k2 = 0 <-> k1 = k2) /\
  (0 < BtUtils.__bt_defcmp k1 k2 <-> klt k2 k1).
Proof.
  intros H1 H2. split; [by apply BtUtils.defcmp_lt|]. split; [by apply BtUtils.defcmp_eq|].
  unfold klt. rewrite <- BtUtils.defcmp_lt, (BtUtils.defcmp_opp k1 k2) by done. lia.
Qed.

Section search.
Context (t : btree) (Hst : standard t).

Lemma mpool_get_page pg h :
  pages (bt_mp t) !! pg = Some h -> pg < npages (bt_mp t) -> mpool_get t pg = (Some h, t).
Proof using Hst.
  intros Hp Hr. unfold mpool_get, call_works. rewrite (proj2 (Z.leb_gt _ _)) by lia.
  by rewrite (st_calls _ Hst), Hp.
Qed.

Lemma page_at_page pg h : pages (bt_mp t) !! pg = Some h -> page_at t pg = Ret h.
Proof. intros Hp. unfold page_at. by rewrite Hp. Qed.

Section page.
Context (kind prev next : Z) (n : node) (h : page) (Hn : node_in t kind prev n next h).

Lemma node_count : NEXTINDEX h = zlen (snd n) /\ 0 <= zlen (snd n) < 2 ^ 15.
Proof using Hst Hn.
  pose proof (st_size _ Hst). pose proof (ni_has _ _ _ _ _ _ Hn) as Hh.
  split; [apply (has_next (psize t)); [done|lia]|]. apply (has_bounds (psize t) h); [done|lia].
Qed.

Lemma node_item i x : snd n !! Z.to_nat i = Some x -> 0 <= i ->
  entry h i = x /\ item_of kind x /\ small (psize t) (size x).
Proof using Hst Hn.
  intros Hx Hi. split; [by apply (has_entry (psize t) h (snd n)); [apply (ni_has _ _ _ _ _ _ Hn)|..]|].
  pose proof (ni_items _ _ _ _ _ _ Hn) as H1. pose proof (ni_small _ _ _ _ _ _ Hn) as H2.
  rewrite Forall_forall in H1, H2. apply list_elem_of_lookup_2 in Hx. by split; [apply H1|apply H2].
Qed.

Lemma cmp_leaf k i x : kind = P_BLEAF -> snd n !! Z.to_nat i = Some x -> 0 <= i ->
  __bt_cmp t k (fst n) i = Ret (BtUtils.__bt_defcmp k (ikey x), t).
Proof using Hst Hn.
  intros Ek Hx Hi. destruct (node_item i x Hx Hi) as (E & Ht & _).
  unfold __bt_cmp. rewrite (page_at_page _ h) by apply (ni_page _ _ _ _ _ _ Hn). cbn [mbind outcome_bind].
  rewrite (ni_flags _ _ _ _ _ _ Hn), Ek. change (is_set P_BLEAF P_BLEAF) with true. rewrite andb_false_r.
  unfold item_key. rewrite (ni_flags _ _ _ _ _ _ Hn), Ek. change (is_set P_BLEAF P_BLEAF) with true.
  unfold GETBLEAF. rewrite E. destruct x as [p f b|f b d|]; [by destruct Ht; subst; done| |done].
  destruct Ht as [_ ->]. cbn. by rewrite (st_cmp _ Hst).
Qed.

Lemma cmp_inner k i x : kind = P_BINTERNAL -> snd n !! Z.to_nat i = Some x -> 0 <= i ->
  __bt_cmp t k (fst n) i =
    Ret (if (i =? 0) && (prev =? P_INVALID) then 1 else BtUtils.__bt_defcmp k (ikey x), t).
Proof using Hst Hn.
  intros Ek Hx Hi. destruct (node_item i x Hx Hi) as (E & Ht & _).
  unfold __bt_cmp. rewrite (page_at_page _ h) by apply (ni_page _ _ _ _ _ _ Hn). cbn [mbind outcome_bind].
  rewrite (ni_flags _ _ _ _ _ _ Hn), Ek, (ni_prev _ _ _ _ _ _ Hn).
  change (is_set P_BINTERNAL P_BLEAF) with false. rewrite andb_true_r.
  destruct ((i =? 0) && (prev =? P_INVALID)); [done|].
  unfold item_key. rewrite (ni_flags _ _ _ _ _ _ Hn), Ek. change (is_set P_BINTERNAL P_BLEAF) with false.
  unfold GETBINTERNAL. rewrite E. destruct x as [p f b|f b d|]; [|by destruct Ht; subst; done|done].
  destruct Ht as [_ ->]. cbn. by rewrite (st_cmp _ Hst).
Qed.
End page.

(** ** The binary search *)

(** The key was found to be behind the item before an index. *)
Definition behind (k : key) (pg i : Z) : Prop :=
  i = 0 \/ exists c, 0 < c /\ __bt_cmp t k pg (i - 1) = Ret (c, t).

(** [a] items are not behind the key; the first item counts only where it is looked at. *)
Lemma bsearch_spec k pg a cnt :
  (forall i, 0 <= i < cnt -> (1 <= i \/ a <= 1) ->
     exists c, __bt_cmp t k pg i = Ret (c, t) /\ (i < a -> 0 <= c) /\ (a <= i -> c < 0)) ->
  cnt < 2 ^ 15 ->
  forall fuel base lim, 0 <= base -> 0 <= lim -> base + lim <= cnt -> base <= a <= base + lim ->
  (Z.to_nat lim < fuel)%nat -> behind k pg base ->
  exists i found, bsearch fuel t k pg base lim = Ret (i, found, t) /\
    if found : bool then base <= i < base + lim /\ __bt_cmp t k pg i = Ret (0, t) /\ (i = 0 -> a <= 1)
    else i = a /\ behind k pg i.
Proof.
  intros Hc Hcnt. induction fuel as [|fuel IH]; intros base lim Hb Hl Hr Ha Hf Hbe; [lia|].
  cbn [bsearch]. destruct (Z.eqb_spec lim 0) as [->|Hl0]; [exists base, false; split; [done|]; by replace a with base by lia|].
  rewrite Z.shiftr_div_pow2 by lia. change (2 ^ 1) with 2.
  pose proof (Z.div_mod lim 2). pose proof (Z.mod_pos_bound lim 2).
  rewrite u16_id by lia. set (m := base + lim / 2) in *.
  destruct (Hc m) as (c & Ec & H1 & H2); [lia|lia|]. rewrite Ec. cbn [mbind outcome_bind].
  destruct (Z.eqb_spec c 0) as [->|Hc0].
  - exists m, true. split; [done|]. split; [lia|]. split; [done|lia].
  - destruct (Z.ltb_spec 0 c) as [Hp|Hn].
    + assert (m < a) by lia. rewrite (u16_id (m + 1)), (u16_id (lim - 1)) by lia.
      rewrite Z.shiftr_div_pow2 by lia. change (2 ^ 1) with 2.
      pose proof (Z.div_mod (lim - 1) 2). pose proof (Z.mod_pos_bound (lim - 1) 2).
      destruct (IH (m + 1) ((lim - 1) / 2)) as (i & found & E & Hi); [lia..| |].
      { right. exists c. by replace (m + 1 - 1) with m by lia. }
      exists i, found. split; [done|]. destruct found; [|done]. destruct Hi as (? & ? & ?). split; [lia|done].
    + assert (a <= m) by lia. destruct (IH base (lim / 2)) as (i & found & E & Hi); [lia..|done|].
      exists i, found. split; [done|]. destruct found; [|done]. destruct Hi as (? & ? & ?). split; [lia|done].
Qed.

(** The items up to a key and behind it. *)
Lemma split_at k its : StronglySorted klt (map ikey its) ->
  exists a c, its = a ++ c /\ Forall (fun x => kle (ikey x) k) a /\ Forall (fun x => klt k (ikey x)) c.
Proof.
  induction its as [|x its IH]; intros S; [exists [], []; by split|]. inversion S as [|? ? S' F]; subst.
  destruct (decide (Samdb.bytes_lt k (ikey x) = true)) as [Hlt|Hge].
  - exists [], (x :: its). split; [done|]. split; [constructor|]. constructor; [done|].
    eapply Forall_impl; [exact (proj1 (List.Forall_map ikey (klt (ikey x)) its) F)|]. intros y Hy. by apply klt_trans with (ikey x).
  - destruct (IH S') as (a & c & -> & Ha & Hc'). exists (x :: a), c. split; [done|]. split; [|done].
    constructor; [|done]. by apply kle_not.
Qed.


Lemma map_key_lookup its i x : its !! i = Some x -> map ikey its !! i = Some (ikey x).
Proof. intros E. by rewrite lookup_map, E. Qed.

Lemma sorted_lookup (l : list key) i j a b :
  StronglySorted klt l -> l !! i = Some a -> l !! j = Some b -> (i < j)%nat -> klt a b.
Proof.
  intros Hs Ha Hb Hij. rewrite <- (take_drop (S i) l) in Hs. apply sorted_app in Hs as (_ & _ & H).
  apply H.
  - apply list_elem_of_lookup. exists i. by rewrite lookup_take_lt by lia.
  - apply list_elem_of_lookup. exists (j - S i)%nat. rewrite lookup_drop. by replace (S i + (j - S i))%nat with j by lia.
Qed.

Section search_page.
Context (kind prev next : Z) (n : node) (h : page) (Hn : node_in t kind prev n next h) (k : key) (Hk : small_key k).

Lemma search_leaf_page :
  kind = P_BLEAF -> StronglySorted klt (map ikey (snd n)) ->
  exists a c found,
    bsearch (S (Z.to_nat (zlen (snd n)))) t k (fst n) 0 (zlen (snd n)) = Ret (zlen a, found, t) /\
    snd n = a ++ c /\ Forall (fun x => klt (ikey x) k) a /\
    if found : bool then exists x c', c = x :: c' /\ ikey x = k /\ Forall (fun x => klt k (ikey x)) c'
    else Forall (fun x => klt k (ikey x)) c.
Proof using Hst Hn Hk.
  intros Ek Hs. destruct (node_count _ _ _ _ _ Hn) as [_ Hcnt].
  destruct (split_at k (snd n) Hs) as (a & c & E & Ha & Hc).
  assert (Hcmp : forall i, 0 <= i < zlen (snd n) -> exists x, snd n !! Z.to_nat i = Some x /\ small_key (ikey x) /\
    __bt_cmp t k (fst n) i = Ret (BtUtils.__bt_defcmp k (ikey x), t)).
  { intros i Hi. destruct (lookup_lt_is_Some_2 (snd n) (Z.to_nat i)) as [x Hx]; [unfold zlen in Hi; lia|].
    exists x. split; [done|]. destruct (node_item _ _ _ _ _ Hn i x Hx ltac:(lia)) as (_ & _ & Hsm).
    split; [by apply (item_small_key t)|]. apply (cmp_leaf _ _ _ _ _ Hn); [done|done|lia]. }
  destruct (bsearch_spec k (fst n) (zlen a) (zlen (snd n))) with (fuel := S (Z.to_nat (zlen (snd n)))) (base := 0)
    (lim := zlen (snd n)) as (i & found & Eb & Hi); [|lia..| |lia|by left|].
  { intros i Hi _. destruct (Hcmp i Hi) as (x & Hx & Hsx & Ex). eexists. split; [exact Ex|].
    destruct (defcmp_sign k (ikey x) Hk Hsx) as (D1 & D2 & D3). rewrite E in Hx. unfold zlen. split; intros Hia.
    - rewrite lookup_app_l in Hx by lia. rewrite Forall_forall in Ha. apply list_elem_of_lookup_2, Ha in Hx.
      rewrite kle_spec in Hx. destruct Hx as [Hx|Hx]; [apply D3 in Hx; lia|]. symmetry in Hx. apply D2 in Hx. lia.
    - rewrite lookup_app_r in Hx by lia. rewrite Forall_forall in Hc. apply list_elem_of_lookup_2, Hc in Hx. by apply D1. }
  { rewrite E, zlen_app. pose proof (zlen_nonneg a). pose proof (zlen_nonneg c). lia. }
  destruct found.
  - destruct Hi as (Hi & Ec & _). destruct (Hcmp i ltac:(lia)) as (x & Hx & Hsx & Ex). rewrite Ex in Ec. injection Ec as Ec.
    destruct (defcmp_sign k (ikey x) Hk Hsx) as (D1 & D2 & D3). apply D2 in Ec.
    apply list_elem_of_split_length in Hx as (a' & c' & E' & Hl).
    assert (Hs' : Forall (fun y => klt (ikey y) k) a' /\ Forall (fun y => klt k (ikey y)) c').
    { rewrite E' in Hs. rewrite map_app in Hs. cbn in Hs. apply sorted_app in Hs as (_ & S2 & S3).
      inversion S2 as [|? ? _ F]; subst. split.
      - apply Forall_forall. intros y Hy. apply (S3 (ikey y)); [|by left]. apply list_elem_of_In, in_map. by apply list_elem_of_In.
      - exact (proj1 (List.Forall_map _ _ _) F). }
    exists a', (x :: c'), true. split; [rewrite Eb; do 3 f_equal; unfold zlen; lia|]. split; [done|]. split; [apply Hs'|].
    exists x, c'. split; [done|]. split; [done|apply Hs'].
  - destruct Hi as [-> Hbe]. exists a, c, false. split; [done|]. split; [done|]. split; [|done].
    (* a key equal to [k] would have been found *)
    destruct (last_cases a) as [->|(a0 & x & ->)]; [constructor|].
    destruct Hbe as [Hz|(c0 & Hc0 & Ec)]; [rewrite zlen_app in Hz; cbn in Hz; pose proof (zlen_nonneg a0); unfold zlen in *; cbn in *; lia|].
    destruct (Hcmp (zlen (a0 ++ [x]) - 1)) as (y & Hy & Hsy & Ey).
    { rewrite E, !zlen_app. change (zlen [x]) with 1. pose proof (zlen_nonneg a0). pose proof (zlen_nonneg c). lia. }
    rewrite Ey in Ec. injection Ec as Ec. assert (y = x) as ->.
    { rewrite E, <- app_assoc in Hy. cbn [app] in Hy. replace (Z.to_nat (zlen (a0 ++ [x]) - 1)) with (length a0) in Hy
        by (unfold zlen; rewrite length_app; cbn; lia). rewrite list_lookup_middle in Hy by done. congruence. }
    assert (Hxk : klt (ikey x) k) by (apply (defcmp_sign k (ikey x) Hk Hsy); lia).
    apply Forall_forall. intros y [Hy'|[-> |Hn']%elem_of_cons]%elem_of_app; [|done|by inversion Hn'].
    apply klt_trans with (ikey x); [|done]. rewrite E, <- app_assoc, map_app in Hs. apply sorted_app in Hs as (_ & _ & S3).
    apply S3; [|by left]. apply list_elem_of_In, in_map. by apply list_elem_of_In.
Qed.

Lemma cmp_inner_sign i x : kind = P_BINTERNAL -> snd n !! Z.to_nat i = Some x -> 1 <= i ->
  exists c, __bt_cmp t k (fst n) i = Ret (c, t) /\ (c < 0 <-> klt k (ikey x)) /\ (c = 0 <-> k = ikey x).
Proof using Hst Hn Hk.
  intros Ek Hx Hi. eexists. split; [apply (cmp_inner _ _ _ _ _ Hn); [done|exact Hx|lia]|].
  rewrite (proj2 (Z.eqb_neq i 0)) by lia. cbn [andb].
  destruct (node_item _ _ _ _ _ Hn i x Hx ltac:(lia)) as (_ & _ & Hsm).
  pose proof (defcmp_sign k (ikey x) Hk (item_small_key t x Hst Hsm)). tauto.
Qed.

Lemma search_inner_page :
  kind = P_BINTERNAL -> snd n <> [] -> StronglySorted klt (map ikey (tail (snd n))) ->
  exists i found es1 e es2,
    bsearch (S (Z.to_nat (zlen (snd n)))) t k (fst n) 0 (zlen (snd n)) = Ret (i, found, t) /\
    (if found : bool then i else if i =? 0 then i else i - 1) = zlen es1 /\
    snd n = es1 ++ e :: es2 /\ (es1 = [] \/ kle (ikey e) k) /\
    match es2 with x :: _ => klt k (ikey x) | [] => True end.
Proof using Hst Hn Hk.
  intros Ek Hne Hs. destruct (node_count _ _ _ _ _ Hn) as [_ Hcnt].
  destruct (snd n) as [|e0 tl] eqn:En; [done|]. cbn [tail] in Hs.
  destruct (split_at k tl Hs) as (a & c & E & Ha & Hc).
  assert (Hc0 : exists c0, __bt_cmp t k (fst n) 0 = Ret (c0, t)).
  { eexists. apply (cmp_inner _ _ _ _ _ Hn k 0 e0); [done|by rewrite En|lia]. }
  destruct Hc0 as [c0 Ec0].
  set (A := match a with [] => if c0 <? 0 then 0 else 1 | _ => 1 + zlen a end).
  assert (HA : 0 <= A <= 1 + zlen a /\ (A <= 1 -> a = [])).
  { subst A. destruct a as [|x a]; [split; [destruct (c0 <? 0); unfold zlen; cbn [length]; lia|done]|].
    rewrite zlen_cons. pose proof (zlen_nonneg a). split; [lia|]. intros ?. exfalso. lia. }
  assert (Hitem : forall i, 1 <= i < zlen (e0 :: tl) -> exists x, snd n !! Z.to_nat i = Some x /\
    (i < 1 + zlen a -> kle (ikey x) k) /\ (1 + zlen a <= i -> klt k (ikey x))).
  { intros i Hi. rewrite zlen_cons in Hi. destruct (lookup_lt_is_Some_2 tl (Z.to_nat (i - 1))) as [x Hx]; [unfold zlen in Hi; lia|].
    exists x. rewrite En. replace (Z.to_nat i) with (S (Z.to_nat (i - 1))) by lia. split; [done|].
    rewrite Forall_forall in Ha, Hc. unfold zlen in *. rewrite E in Hx. split; intros H.
    - rewrite lookup_app_l in Hx by lia. by apply Ha, list_elem_of_lookup_2 with (i := Z.to_nat (i - 1)).
    - rewrite lookup_app_r in Hx by lia. by eapply Hc, list_elem_of_lookup_2. }
  destruct (bsearch_spec k (fst n) A (zlen (e0 :: tl))) with (fuel := S (Z.to_nat (zlen (e0 :: tl)))) (base := 0)
    (lim := zlen (e0 :: tl)) as (i & found & Eb & Hi); [|lia..| |lia|by left|].
  { intros i Hi H1. destruct (decide (i = 0)) as [-> |Hi0].
    - exists c0. split; [done|]. destruct H1 as [H1|H1]; [lia|]. destruct HA as [_ HA]. specialize (HA H1).
      subst A. rewrite HA in *. destruct (Z.ltb_spec c0 0); lia.
    - destruct (Hitem i ltac:(lia)) as (x & Hx & Hle & Hlt). destruct (cmp_inner_sign i x Ek Hx ltac:(lia)) as (c1 & Ec & D1 & D2).
      exists c1. split; [done|]. split; intros HiA.
      + assert (Hx' : kle (ikey x) k) by (apply Hle; lia). rewrite kle_not, <- D1 in Hx'. lia.
      + apply D1, Hlt. destruct a as [|y a]; [unfold zlen; cbn [length]; lia|]. exact HiA. }
  { rewrite zlen_cons, E, zlen_app. pose proof (zlen_nonneg c). lia. }
  assert (Hpick : (if found : bool then i else if i =? 0 then i else i - 1) = zlen a).
  { destruct found.
    - destruct Hi as (Hi & Ec & H0). destruct (decide (i = 0)) as [-> |Hi0]; [rewrite (proj2 HA) by auto; done|].
      destruct (Hitem i ltac:(lia)) as (x & Hx & Hle & Hlt). destruct (cmp_inner_sign i x Ek Hx ltac:(lia)) as (c1 & Ec1 & D1 & D2).
      rewrite Ec in Ec1. injection Ec1 as <-. assert (Ekx : k = ikey x) by by apply D2.
      destruct (Z.lt_ge_cases i (1 + zlen a)) as [Hlo|Hhi]; [|exfalso; specialize (Hlt Hhi); apply D1 in Hlt; lia].
      destruct (Z.eq_dec i (zlen a)) as [|Hne']; [done|exfalso].
      destruct (Hitem (zlen a)) as (y & Hy & Hle' & _); [rewrite zlen_cons, E, zlen_app; pose proof (zlen_nonneg c); lia|].
      assert (Hxy : klt (ikey x) (ikey y)).
      { rewrite En in Hx, Hy. replace (Z.to_nat i) with (S (Z.to_nat (i - 1))) in Hx by lia.
        replace (Z.to_nat (zlen a)) with (S (Z.to_nat (zlen a - 1))) in Hy by lia. cbn in Hx, Hy.
        apply (sorted_lookup (map ikey tl) (Z.to_nat (i - 1)) (Z.to_nat (zlen a - 1))); [done|by apply map_key_lookup..|lia]. }
      specialize (Hle' ltac:(lia)). rewrite Ekx in Hle'. apply kle_not in Hle'. done.
    - destruct Hi as [-> _]. subst A. destruct a as [|y a]; [by destruct (c0 <? 0)|].
      rewrite (proj2 (Z.eqb_neq _ 0)) by (pose proof (zlen_nonneg (y :: a)); lia). lia. }
  destruct (last_cases a) as [-> |(a0 & x & ->)].
  - exists i, found, [], e0, tl. split; [done|]. split; [exact Hpick|]. split; [done|]. split; [by left|].
    rewrite E. destruct c; [done|]. by inversion Hc.
  - exists i, found, (e0 :: a0), x, c. split; [done|].
    split; [rewrite Hpick, zlen_app, zlen_cons; unfold zlen; cbn [length]; lia|]. split; [by rewrite E, <- app_assoc|].
    split; [right|destruct c; [done|by inversion Hc]]. apply Forall_app in Ha as [_ Ha]. by inversion Ha.
Qed.
End search_page.

End search.

(** ** The descent *)

Lemma before_bounds k U B : length U = length B -> before k (bounds U B) <-> before k B.
Proof. destruct U as [|n U], B as [|b B]; by intros. Qed.

Lemma before_app k B1 B2 : B1 <> [] -> before k (B1 ++ B2) <-> before k B1.
Proof. by destruct B1. Qed.

Lemma descend_bounds k U1 pg es1 e es2 U2 B1 b B2 :
  Forall not_empty U1 -> length B1 = length U1 -> length B2 = length U2 ->
  from b k -> before k B2 -> (es1 = [] \/ kle (ikey e) k) -> match es2 with x :: _ => klt k (ikey x) | [] => True end ->
  exists C1 c C2, bounds (U1 ++ (pg, es1 ++ e :: es2) :: U2) (B1 ++ b :: B2) = C1 ++ c :: C2 /\
    length C1 = (length (children U1) + length es1)%nat /\ from c k /\ before k C2.
Proof.
  intros Hne H1 H2 Hb Hk He Hs. rewrite bounds_app by done. cbn [bounds snd].
  assert (Hl : length (bounds U1 B1) = length (children U1)) by by apply length_bounds.
  assert (Hn : before k (map (fun x => Some (ikey x)) es2 ++ bounds U2 B2)).
  { destruct es2 as [|x es2]; [by apply before_bounds|done]. }
  destruct es1 as [|e0 es1].
  - exists (bounds U1 B1), b, (map (fun x => Some (ikey x)) es2 ++ bounds U2 B2). cbn. split; [done|]. by rewrite Hl, Nat.add_0_r.
  - exists (bounds U1 B1 ++ b :: map (fun x => Some (ikey x)) es1), (Some (ikey e)), (map (fun x => Some (ikey x)) es2 ++ bounds U2 B2).
    cbn [app tail]. rewrite map_app. cbn [map]. split; [rewrite <- (app_assoc (bounds U1 B1)); cbn; by rewrite <- app_assoc|].
    split; [rewrite length_app, Hl; cbn; by rewrite length_map|]. split; [|done]. by destruct He.
Qed.

(** The keys of an internal page are in order. *)
Lemma inner_sorted U1 n U2 B :
  length B = length (U1 ++ n :: U2) -> bsorted (bounds (U1 ++ n :: U2) B) -> StronglySorted klt (map ikey (tail (snd n))).
Proof.
  intros Hl Hs. destruct (split_like _ _ _ B Hl) as (B1 & b & B2 & -> & H1 & H2).
  rewrite bounds_app in Hs by done. apply sorted_app in Hs as (_ & Hs & _). cbn [bounds] in Hs.
  apply sorted_app in Hs as (Hs & _ & _). inversion Hs as [|? ? S _]; subst. clear -S.
  induction (tail (snd n)) as [|x l IH]; [constructor|]. inversion S as [|? ? S' F]; subst.
  cbn. constructor; [by apply IH|]. apply List.Forall_map. eapply Forall_impl; [exact (proj1 (List.Forall_map _ _ _) F)|]. done.
Qed.

Lemma linked_app low L U up : linked (low ++ L :: U :: up) -> children U = map fst L /\ linked (L :: U :: up).
Proof.
  induction low as [|X low IH]; cbn [app]; [intros [? ?]; by split|]. intros H. apply IH.
  destruct (low ++ L :: U :: up) eqn:E; [by destruct low|]. by destruct H.
Qed.

Lemma linked_tail low L up : linked (low ++ L :: up) -> linked (L :: up).
Proof.
  induction low as [|X low IH]; cbn [app]; [done|]. intros H. apply IH.
  destruct (low ++ L :: up) eqn:E; [by destruct low|]. by destruct H.
Qed.

Lemma lower_sublist low L up :
  linked (low ++ L :: up) -> Forall (Forall not_empty) (tail (low ++ L :: up)) ->
  sublist (lower_bounds up) (lower_bounds (tail (low ++ L :: up))).
Proof.
  induction low as [|X low IH]; intros Hl Hn; cbn [app tail] in *; [done|].
  destruct (low ++ L :: up) as [|Y rest] eqn:E; [by destruct low|]. destruct Hl as [_ Hl].
  inversion Hn as [|? ? _ Hn']; subst. etrans; [by apply IH|]. cbn [tail lower_bounds foldr]. fold (lower_bounds rest).
  apply bounds_sublist. symmetry. by apply (length_lower_bounds Y rest).
Qed.

Lemma node_in_ext t t' kind prev n next h :
  bt_mp t' = bt_mp t -> cfg t' = cfg t -> node_in t kind prev n next h -> node_in t' kind prev n next h.
Proof. intros Em Ec [? ? ? ? ? ? ? ?]. unfold psize in *. split; rewrite ?Em; unfold psize; rewrite ?Ec; done. Qed.

Lemma standard_stack t s : standard t -> standard (set_stack t s).
Proof. by intros [? ? ? ? ?]. Qed.

(** Where a key belongs in a tree. *)
Record located (L : level) (up : list level) (k : key) (L1 : level) (m : node) (L2 : level)
    (stack : list (Z * Z)) : Prop := {
  lo_level : L = L1 ++ m :: L2;
  lo_bounds : exists B1 b B2, lower_bounds up = B1 ++ b :: B2 /\ length B1 = length L1 /\
    length B2 = length L2 /\ from b k /\ before k B2;
  lo_path : path (length L1) (L :: up) stack;
}.

(** What the search returns: the leaf, the place, whether the key is there. *)
Definition finds (m : node) (k : key) (r : option (Z * Z * bool)) : Prop :=
  exists a c found, r = Some (fst m, zlen a, found) /\ snd m = a ++ c /\ Forall (fun x => klt (ikey x) k) a /\
    if found : bool then exists x c', c = x :: c' /\ ikey x = k /\ Forall (fun x => klt k (ikey x)) c'
    else Forall (fun x => klt k (ikey x)) c.

Lemma in_numbers ls L n : L ∈ ls -> n ∈ L -> fst n ∈ numbers ls.
Proof.
  intros HL Hn. apply list_elem_of_In, in_concat. exists (map fst L). split; apply in_map; by apply list_elem_of_In.
Qed.

Lemma inner_below low (L : level) ls : Forall (Forall not_empty) (tail (low ++ L :: ls)) -> Forall (Forall not_empty) ls.
Proof.
  induction low as [|X low IH]; cbn; [done|]. intros H. apply IH. destruct (low ++ L :: ls) eqn:E; [by destruct low|]. by inversion H.
Qed.

Section tree.
Context (t : btree) (L0 : level) (up0 : list level) (free : list Z) (Ht : tree t L0 up0 free).

Lemma page_in_range L n : L ∈ L0 :: up0 -> n ∈ L -> fst n < npages (bt_mp t).
Proof.
  intros HL Hn. pose proof (tr_range _ _ _ _ Ht) as H. apply Forall_app in H as [H _]. rewrite Forall_forall in H.
  by apply (H (fst n)), (in_numbers _ L).
Qed.

Lemma leaf_keys L1 m L2 B1 b B2 :
  L0 = L1 ++ m :: L2 -> lower_bounds up0 = B1 ++ b :: B2 -> length B1 = length L1 -> keys_in b B2 (snd m).
Proof.
  intros EL EB Hl. pose proof (tr_keys _ _ _ _ Ht) as H. rewrite EL, EB in H.
  apply leaves_in_app in H as [_ H]; [|done]. cbn in H. rewrite app_nil_r in H. by destruct H.
Qed.

(** A level and the one above it. *)
Lemma level_above low L U up : L0 :: up0 = low ++ L :: U :: up ->
  U ∈ up0 /\ up0 = tail (low ++ L :: U :: up) /\ children U = map fst L /\ linked (L :: U :: up).
Proof.
  intros EQ. pose proof (tr_linked _ _ _ _ Ht) as Hlk. rewrite EQ in Hlk. destruct (linked_app _ _ _ _ Hlk) as [Hc Hlk'].
  apply (f_equal tail) in EQ. cbn in EQ. split; [|done]. rewrite EQ. destruct low as [|X low]; cbn; [by left|]. rewrite elem_of_app. right. right. by left.
Qed.

Lemma level_inner U n : U ∈ up0 -> n ∈ U -> Forall not_empty U /\ snd n <> [] /\ fst n < npages (bt_mp t).
Proof.
  intros HU Hn. pose proof (tr_inner _ _ _ _ Ht) as Hne. rewrite Forall_forall in Hne. specialize (Hne U HU). split; [done|].
  rewrite Forall_forall in Hne. split; [by apply (Hne n)|]. apply (page_in_range U); [by right|done].
Qed.

(** The keys of a page above the leaves. *)
Lemma inner_keys low L U up U1 n U2 : L0 :: up0 = low ++ L :: U :: up -> U = U1 ++ n :: U2 ->
  length (lower_bounds up) = length (U1 ++ n :: U2) -> StronglySorted klt (map ikey (tail (snd n))).
Proof.
  intros EQ EU HlB. destruct (level_above low L U up EQ) as (_ & Eup & _). pose proof (tr_linked _ _ _ _ Ht) as Hlk. rewrite EQ in Hlk.
  pose proof (tr_inner _ _ _ _ Ht) as Hne. rewrite Eup in Hne.
  pose proof (sorted_sublist blt _ _ (lower_sublist low L (U :: up) Hlk Hne)) as Hbs. rewrite <- Eup in Hbs. specialize (Hbs (tr_sorted _ _ _ _ Ht)).
  cbn [lower_bounds foldr] in Hbs. fold (lower_bounds up) in Hbs. rewrite EU in Hbs. exact (inner_sorted U1 n U2 _ HlB Hbs).
Qed.

(** The child of the entry that the search takes. *)
Lemma child_located k low L U up s U1 n U2 es1 e es2 :
  L0 :: up0 = low ++ L :: U :: up -> located U up k U1 n U2 s -> snd n = es1 ++ e :: es2 ->
  (es1 = [] \/ kle (ikey e) k) -> match es2 with x :: _ => klt k (ikey x) | [] => True end ->
  exists L1 m L2, fst m = ichild e /\ located L (U :: up) k L1 m L2 ((fst n, zlen es1) :: s).
Proof.
  intros EQ [EU (B1 & b & B2 & EB & H1 & H2 & Hb & Hbe) Hp] En He He2. destruct (level_above low L U up EQ) as (HU & Eup & Hch & Hlk).
  destruct (level_inner U n HU) as [Hne _]; [rewrite EU, elem_of_app; right; by left|].
  assert (Hpos : exists L1 m L2, L = L1 ++ m :: L2 /\ length L1 = (length (children U1) + length es1)%nat /\ fst m = ichild e).
  { rewrite EU, children_app, children_cons, En, map_app in Hch. cbn [map] in Hch. rewrite <- app_assoc in Hch.
    symmetry in Hch. rewrite app_assoc in Hch. cbn [app] in Hch.
    apply map_eq_app in Hch as (L1 & L' & -> & E1 & E2). destruct L' as [|m L2]; [done|]. injection E2 as E2 _.
    exists L1, m, L2. split; [done|]. split; [|done]. apply (f_equal length) in E1. by rewrite length_map, length_app, length_map in E1. }
  destruct Hpos as (L1 & m & L2 & EL & Hl1 & Em). exists L1, m, L2. split; [done|].
  destruct (descend_bounds k U1 (fst n) es1 e es2 U2 B1 b B2) as (C1 & c & C2 & EC & Hc1 & Hcf & Hcb); try done.
  { rewrite EU in Hne. by apply Forall_app in Hne as [? _]. }
  assert (EC' : lower_bounds (U :: up) = C1 ++ c :: C2).
  { cbn [lower_bounds foldr]. fold (lower_bounds up). rewrite EB, EU, <- EC. by destruct n; cbn in En; rewrite En. }
  split; [done| |].
  - exists C1, c, C2. split; [done|]. split; [by rewrite Hc1|]. split; [|done].
    assert (Hlen : length (lower_bounds (U :: up)) = length L).
    { apply length_lower_bounds; [done|]. pose proof (tr_inner _ _ _ _ Ht) as Hne0. rewrite Eup in Hne0.
      by apply (inner_below low L). }
    rewrite EC', EL, !length_app in Hlen. cbn in Hlen. lia.
  - cbn [path]. exists U1, (snd n), U2. split; [by destruct n|]. split; [rewrite En, zlen_app, zlen_cons; pose proof (zlen_nonneg es1); pose proof (zlen_nonneg es2); lia|].
    split; [unfold zlen; rewrite Nat2Z.id; lia|]. done.
Qed.

(** The last turn, at a leaf. *)
Lemma search_at_leaf k s U1 n U2 fuel : small_key k -> located L0 up0 k U1 n U2 s ->
  exists r, search_loop (S fuel) (set_stack t s) k (fst n) = Ret (r, set_stack t s) /\ finds n k r.
Proof.
  intros Hk [EL (B1 & b & B2 & EB & H1 & _) _]. pose proof (tr_standard _ _ _ _ Ht) as Hst. pose proof (standard_stack t s Hst) as Hst'.
  pose proof (proj1 (tr_levels _ _ _ _ Ht)) as Hlv. rewrite EL in Hlv. destruct (level_node _ _ _ _ _ Hlv) as [h Hh].
  assert (Hr : fst n < npages (bt_mp t)) by (apply (page_in_range L0); [by left|rewrite EL, elem_of_app; right; by left]).
  pose proof (node_in_ext t (set_stack t s) _ _ _ _ _ eq_refl eq_refl Hh) as Hh'.
  destruct (leaf_keys U1 n U2 B1 b B2 EL EB H1) as [Hs _].
  destruct (search_leaf_page _ Hst' _ _ _ _ _ Hh' k Hk eq_refl Hs) as (a & c & found & E & Hac & Ha & Hc).
  destruct (node_count _ Hst' _ _ _ _ _ Hh') as [Hn Hcnt]. exists (Some (fst n, zlen a, found)). split; [|by exists a, c, found].
  cbn [search_loop]. rewrite (mpool_get_page _ Hst' _ h) by (apply (ni_page _ _ _ _ _ _ Hh) || done).
  rewrite Hn, u16_id, E by lia. cbn [mbind outcome_bind]. rewrite (ni_flags _ _ _ _ _ _ Hh).
  change (is_set P_BLEAF P_BLEAF) with true. destruct found; [done|]. unfold search_leaf. by rewrite (st_nodups _ Hst').
Qed.

(** A turn above the leaves goes to the child the key is located in. *)
Lemma search_turn k low L U up s U1 n U2 fuel : small_key k -> L0 :: up0 = low ++ L :: U :: up -> located U up k U1 n U2 s ->
  (length s < 50)%nat ->
  exists L1 m L2 s', search_loop (S fuel) (set_stack t s) k (fst n) = search_loop fuel (set_stack t s') k (fst m) /\
    located L (U :: up) k L1 m L2 s' /\ length s' = S (length s).
Proof.
  intros Hk EQ Hloc Hsl. pose proof (standard_stack t s (tr_standard _ _ _ _ Ht)) as Hst'.
  pose proof Hloc as [EU (B1 & b & B2 & EB & H1 & H2 & _) _]. destruct (level_above low L U up EQ) as (HU & _).
  destruct (level_inner U n HU) as (_ & Hnn & Hr); [rewrite EU, elem_of_app; right; by left|].
  destruct (tr_levels _ _ _ _ Ht) as [_ Hlv]. rewrite Forall_forall in Hlv. specialize (Hlv U HU). rewrite EU in Hlv.
  destruct (level_node _ _ _ _ _ Hlv) as [h Hh]. pose proof (node_in_ext t (set_stack t s) _ _ _ _ _ eq_refl eq_refl Hh) as Hh'.
  pose proof (inner_keys low L U up U1 n U2 EQ EU ltac:(rewrite EB, !length_app; cbn; lia)) as Hs.
  destruct (search_inner_page _ Hst' _ _ _ _ _ Hh' k Hk eq_refl Hnn Hs) as (i & found & es1 & e & es2 & E & Ei & En & He & He2).
  destruct (child_located k low L U up s U1 n U2 es1 e es2 EQ Hloc En He He2) as (L1 & m & L2 & Em & Hm).
  exists L1, m, L2, ((fst n, zlen es1) :: s). split; [|done]. destruct (node_count _ Hst' _ _ _ _ _ Hh') as [Hn Hcnt]. cbn [search_loop].
  rewrite (mpool_get_page _ Hst' _ h) by (apply (ni_page _ _ _ _ _ _ Hh) || done).
  rewrite Hn, u16_id, E by lia. cbn [mbind outcome_bind]. rewrite (ni_flags _ _ _ _ _ _ Hh).
  change (is_set P_BINTERNAL P_BLEAF) with false. cbv iota. rewrite Ei. unfold BT_PUSH. cbn [bt_stack set_stack].
  rewrite (proj2 (Nat.leb_gt 50 _)) by lia. cbn [mbind outcome_bind].
  destruct (node_item _ Hst' _ _ _ _ _ Hh' (zlen es1) e) as (Ee & Hek & _).
  { rewrite En. unfold zlen. rewrite Nat2Z.id. by apply list_lookup_middle. }
  { apply zlen_nonneg. }
  unfold GETBINTERNAL. rewrite Ee. destruct e as [p f kb|f kb d|]; [|by destruct Hek|done]. cbn [mbind outcome_bind].
  rewrite (ni_pgno _ _ _ _ _ _ Hh). cbn in Em. by rewrite <- Em.
Qed.

Lemma search_down k low : small_key k -> forall U up s U1 n U2 fuel,
  L0 :: up0 = low ++ U :: up -> located U up k U1 n U2 s ->
  (length s + length low <= 50)%nat -> (length low < fuel)%nat ->
  exists L1 m L2 s' r, search_loop fuel (set_stack t s) k (fst n) = Ret (r, set_stack t s') /\
    located L0 up0 k L1 m L2 s' /\ finds m k r.
Proof.
  intros Hk. induction low as [|L low IH] using rev_ind; intros U up s U1 n U2 fuel EQ Hloc Hsl Hf; (destruct fuel as [|fuel]; [lia|]).
  - injection EQ as <- <-. destruct (search_at_leaf k s U1 n U2 fuel Hk Hloc) as (r & E & Hr). by exists U1, n, U2, s, r.
  - rewrite <- app_assoc in EQ. cbn [app] in EQ. rewrite length_app in Hsl, Hf. cbn in Hsl, Hf.
    destruct (search_turn k low L U up s U1 n U2 fuel Hk EQ Hloc ltac:(lia)) as (L1 & m & L2 & s1 & -> & Hm & Hl).
    apply (IH L (U :: up) s1 L1 m L2 fuel EQ Hm); lia.
Qed.

Lemma root_level ls : linked ls -> exists low n, ls = low ++ [[n]] /\ fst n = P_ROOT.
Proof using.
  induction ls as [|L ls IH]; [done|]. destruct ls as [|U up].
  - cbn. destruct L as [|n [|? ?]]; [done| |done]. intros [= E]. by exists [], n.
  - intros [_ H]. destruct (IH H) as (low & n & E & Hn). exists (L :: low), n. by rewrite E.
Qed.

Lemma search_spec k : small_key k -> (length up0 <= 50)%nat ->
  exists L1 m L2 s r, __bt_search t k = Ret (r, set_stack t s) /\ located L0 up0 k L1 m L2 s /\ finds m k r.
Proof.
  intros Hk Hl. destruct (root_level _ (tr_linked _ _ _ _ Ht)) as (low & n & E & Hn).
  assert (Hlen : length low = length up0).
  { apply (f_equal length) in E. rewrite length_app in E. cbn in E. lia. }
  destruct (search_down k low Hk [n] [] [] [] n [] 51 E) as (L1 & m & L2 & s & r & Er & H).
  - split; [done| |done]. exists [], None, []. by split.
  - cbn. lia.
  - lia.
  - exists L1, m, L2, s, r. split; [|done]. unfold __bt_search. by rewrite <- Hn.
Qed.

(** ** Keys to the left and to the right *)

Lemma left_keys k L1 B1 b B2 B' :
  bsorted (B1 ++ b :: B2) -> leaves_in B1 L1 (b :: B2 ++ B') -> from b k ->
  Forall (fun x => klt (ikey x) k) (items_of L1).
Proof using.
  revert B1. induction L1 as [|n L1 IH]; intros B1 Hs Hl Hb; [constructor|]. destruct B1 as [|b1 B1]; [done|].
  destruct Hl as [[_ Hn] Hl]. cbn [app] in Hs. inversion Hs as [|? ? Hs' F]; subst.
  rewrite items_of_cons. apply Forall_app. split; [|by apply (IH B1)].
  eapply Forall_impl; [exact Hn|]. intros x [_ Hx].
  assert (G : forall b', blt (Some (ikey x)) b' -> from b' k -> klt (ikey x) k).
  { intros [s|] H1 H2; [|done]. by eapply klt_le_trans. }
  destruct B1 as [|b2 B1]; cbn in Hx; [by apply (G b)|]. apply (G b2); [done|].
  cbn in Hs'. inversion Hs' as [|? ? _ F']; subst. apply (from_blt b2 b); [|done].
  rewrite Forall_forall in F'. apply F'. rewrite elem_of_app. right. by left.
Qed.

Lemma right_keys k L2 B2 B' :
  bsorted B2 -> leaves_in B2 L2 B' -> before k B2 -> Forall (fun x => klt k (ikey x)) (items_of L2).
Proof using.
  revert B2. induction L2 as [|n L2 IH]; intros B2 Hs Hl Hk; [constructor|]. destruct B2 as [|b2 B2]; [done|].
  destruct Hl as [[_ Hn] Hl]. inversion Hs as [|? ? Hs' F]; subst.
  rewrite items_of_cons. apply Forall_app. split.
  - eapply Forall_impl; [exact Hn|]. intros x [Hx _]. cbn in Hk. destruct b2 as [s|]; [|done]. by eapply klt_le_trans.
  - apply (IH B2); [done|done|]. destruct B2 as [|b3 B2]; [done|]. inversion F as [|? ? Hb _]; subst.
    exact (blt_trans (Some k) b2 b3 Hk Hb).
Qed.

(** The other leaves hold no key that is located in one. *)
Lemma located_keys k L1 m L2 s : located L0 up0 k L1 m L2 s ->
  Forall (fun x => klt (ikey x) k) (items_of L1) /\ Forall (fun x => klt k (ikey x)) (items_of L2).
Proof.
  intros [EL (B1 & b & B2 & EB & H1 & H2 & Hb & Hbe) _]. pose proof (tr_keys _ _ _ _ Ht) as Hk.
  pose proof (tr_sorted _ _ _ _ Ht) as Hs. rewrite EL, EB in Hk. rewrite EB in Hs.
  apply leaves_in_app in Hk as [Hk1 Hk2]; [|done]. destruct Hk2 as [_ Hk2]. split.
  - by apply (left_keys k L1 B1 b B2 []).
  - apply sorted_app in Hs as (_ & Hs & _). inversion Hs as [|? ? Hs' _]; subst.
    by apply (right_keys k L2 B2 []).
Qed.

Lemma kv_get_skip k l l' :
  Forall (fun x => ikey x <> k) l -> Samdb.kv_get k (map record_of (l ++ l')) = Samdb.kv_get k (map record_of l').
Proof using.
  induction 1 as [|x l Hx _ IH]; [done|]. cbn. by rewrite decide_False by congruence.
Qed.

Lemma kv_get_none k l : Forall (fun x => ikey x <> k) l -> Samdb.kv_get k (map record_of l) = None.
Proof using. intros H. rewrite <- (app_nil_r l), kv_get_skip by done. done. Qed.

Lemma Forall_ne k l : Forall (fun x => klt (ikey x) k) l \/ Forall (fun x => klt k (ikey x)) l ->
  Forall (fun x => ikey x <> k) l.
Proof using.
  intros [H|H]; (eapply Forall_impl; [exact H|]); cbn; intros x Hx.
  - by apply klt_ne.
  - by apply not_eq_sym, klt_ne.
Qed.

Lemma located_get k L1 m L2 s r : located L0 up0 k L1 m L2 s -> finds m k r ->
  exists a c found, r = Some (fst m, zlen a, found) /\ snd m = a ++ c /\
    Samdb.kv_get k (contents L0) = if found : bool then match c with x :: _ => Some (idata x) | [] => None end else None.
Proof.
  intros Hloc (a & c & found & Er & Em & Ha & Hc). exists a, c, found. split; [done|]. split; [done|].
  destruct (located_keys k L1 m L2 s Hloc) as [H1 H2]. unfold contents. rewrite (lo_level _ _ _ _ _ _ _ Hloc).
  rewrite items_of_app, items_of_cons, Em. rewrite !kv_get_skip by (apply Forall_ne; auto).
  rewrite <- app_assoc. rewrite kv_get_skip by (apply Forall_ne; auto).
  destruct found.
  - destruct Hc as (x & c' & -> & <- & _). cbn. by rewrite decide_True.
  - rewrite kv_get_none; [done|]. apply Forall_ne. right. by apply Forall_app.
Qed.

End tree.

(** ** Properties *)

(** Bytes that are not on overflow pages are there, copied or not. *)
Lemma grow_standard t : standard t -> grow_buffer t = (true, t).
Proof. intros Hst. unfold grow_buffer, call_works. by rewrite (st_calls _ Hst). Qed.

Lemma fetch_here t copy p : standard t -> fetch t copy false p = Ret (Some p, t).
Proof. intros Hst. unfold fetch. destruct copy; [|done]. by rewrite grow_standard. Qed.

Lemma ret_leaf t kind prev n next h i x (want : bool) : standard t -> node_in t kind prev n next h -> kind = P_BLEAF ->
  snd n !! Z.to_nat i = Some x -> 0 <= i ->
  __bt_ret t (fst n) i false want false = Ret (RET_SUCCESS, None, if want then Some (idata x) else None, t).
Proof.
  intros Hst Hn Ek Hx Hi. destruct (node_item t Hst _ _ _ _ _ Hn i x Hx Hi) as (E & Hkd & _).
  unfold __bt_ret. rewrite (page_at_page _ _ h) by apply (ni_page _ _ _ _ _ _ Hn). cbn [mbind outcome_bind].
  unfold GETBLEAF. rewrite E. destruct x as [p f b|f b d|]; [by destruct Hkd; subst| |done].
  destruct Hkd as [_ ->]. cbn [mbind outcome_bind]. cbv zeta. change (is_set 0 P_BIGDATA) with false.
  destruct want; [by rewrite fetch_here|done].
Qed.

Lemma get_data_spec t L up free k (want : bool) :
  tree t L up free -> small_key k -> (length up <= 50)%nat ->
  exists s, bt_get_data t k want 0 = Ret match Samdb.kv_get k (contents L) with
                             | Some d => (RET_SUCCESS, if want then Some d else None, set_stack t s)
                             | None => (RET_SPECIAL, None, set_stack t s)
                             end.
Proof.
  intros Ht Hk Hl. destruct (search_spec t L up free Ht k Hk Hl) as (L1 & m & L2 & s & r & E & Hloc & Hf).
  destruct (located_get t L up free Ht k L1 m L2 s r Hloc Hf) as (a & c & found & -> & Em & Eg). exists s.
  unfold bt_get_data. cbn [Z.eqb negb]. rewrite E. cbn [mbind outcome_bind]. rewrite Eg.
  destruct found; [|done]. destruct Hf as (a' & c' & f' & Er & Em' & _ & Hf'). injection Er as Ea <-.
  destruct Hf' as (x & c'' & -> & _). rewrite Em in Em'.
  apply app_inj_1 in Em' as [-> ->]; [|unfold zlen in Ea; lia].
  pose proof (proj1 (tr_levels _ _ _ _ Ht)) as Hlv. rewrite (lo_level _ _ _ _ _ _ _ Hloc) in Hlv.
  destruct (level_node _ _ _ _ _ Hlv) as [h Hh].
  rewrite (ret_leaf (set_stack t s) P_BLEAF (last_of P_INVALID L1) m (first_of L2 P_INVALID) h (zlen a') x want); [done|..].
  - apply standard_stack, (tr_standard _ _ _ _ Ht).
  - by apply (node_in_ext t).
  - done.
  - rewrite Em. unfold zlen. rewrite Nat2Z.id. by apply list_lookup_middle.
  - apply zlen_nonneg.
Qed.

Lemma get_spec t L up free k :
  tree t L up free -> small_key k -> (length up <= 50)%nat ->
  exists s, __bt_get t k 0 = Ret match Samdb.kv_get k (contents L) with
                             | Some d => (RET_SUCCESS, Some d, set_stack t s)
                             | None => (RET_SPECIAL, None, set_stack t s)
                             end.
Proof. exact (get_data_spec t L up free k true). Qed.

(** A tree of one leaf. *)
Definition no_cursor : cursor := {| c_pgno := 0; c_index := 0; c_key := []; c_flags := 0 |}.
Definition default_config (psize : Z) : config :=
  {| bt_psize := psize; bt_ovflsize := (psize - BTDATAOFF) / 2 - (2 + NBLEAFDBT 0 0);
     bt_cmp := BtUtils.__bt_defcmp; bt_pfx := Some BtUtils.__bt_defpfx; new_page := blank |}.
Definition one_leaf (psize : Z) (l : list item) : btree :=
  {| cfg := default_config psize; bt_mp := {| pages := {[P_ROOT := leaf_page psize P_ROOT l]}; npages := 2; calls := [] |};
     bt_free := P_INVALID; bt_order := NOT; bt_last := (0, 0); bt_cursor := no_cursor; bt_stack := [];
     bt_flags := B_NODUPS; errno := 0; panicked := false |}.

Lemma leaf_page_links psize n l :
  (pgno (leaf_page psize n l), prevpg (leaf_page psize n l), nextpg (leaf_page psize n l)) = (n, 0, 0).
Proof. unfold leaf_page. induction l as [|x l IH] using rev_ind; [done|]. rewrite List.fold_left_app. exact IH. Qed.

Lemma one_leaf_tree psize l :
  512 <= psize < 2 ^ 16 -> load l <= psize - BTDATAOFF -> Forall (item_of P_BLEAF) l ->
  Forall (fun x => small psize (size x)) l -> StronglySorted klt (map ikey l) -> tree (one_leaf psize l) [(P_ROOT, l)] [] [].
Proof.
  intros Hp Hl Hi Hs Hk. assert (Hpos : Forall (fun x => 0 < size x) l).
  { eapply Forall_impl; [exact Hi|]. intros x Hx. pose proof (size_pos x) as H. destruct x; [..|done]; specialize (H ltac:(done)); lia. }
  destruct (leaf_page_has psize P_ROOT l Hp Hpos Hl) as [Hh Hf].
  pose proof (leaf_page_links psize P_ROOT l) as E. injection E as E1 E2 E3. split; try done.
  - split; [|constructor]. split; [|done]. exists (leaf_page psize P_ROOT l). by split.
  - repeat constructor. by apply not_elem_of_nil.
  - by repeat constructor.
  - by repeat constructor.
  - split; [|done]. split; [done|]. apply Forall_forall. by intros x _.
Qed.

(** C4: __bt_get finds in a tree of up to 51 levels the data of every key that is there,
    and says of the others that they are not: the binary searches lead to the one leaf that can hold
    the key, whatever separators the internal pages have; the pages stay as they are. *)
Theorem bt_get_correct t L up free k :
  tree t L up free -> small_key k -> (length up <= 50)%nat ->
  (exists s, __bt_get t k 0 = Ret match Samdb.kv_get k (contents L) with
                             | Some d => (RET_SUCCESS, Some d, set_stack t s)
                             | None => (RET_SPECIAL, None, set_stack t s)
                             end) /\
  (forall flags, flags <> 0 -> __bt_get t k flags = Ret (RET_ERROR, None, set_errno t EINVAL)).
Proof.
  intros Ht Hk Hl. split; [by apply (get_spec t L up free)|].
  intros flags Hf. unfold __bt_get, bt_get_data. by rewrite (proj2 (Z.eqb_neq _ _) Hf).
Qed.

Lemma bt_get_correct_witness :
  let t := one_leaf 512 [BLEAF 0 [1] [10]; BLEAF 0 [2] [20]] in
  (exists s, __bt_get t [2] 0 = Ret (RET_SUCCESS, Some [20], set_stack t s)) /\
  (exists s, __bt_get t [3] 0 = Ret (RET_SPECIAL, None, set_stack t s)).
Proof.
  intros t. assert (Ht : tree t [(P_ROOT, [BLEAF 0 [1] [10]; BLEAF 0 [2] [20]])] [] []).
  { apply one_leaf_tree; [lia|by vm_compute|by repeat constructor|by repeat constructor|].
    repeat constructor; by vm_compute. }
  split; [exact (proj1 (bt_get_correct t _ _ _ [2] Ht eq_refl ltac:(cbn; lia)))|
          exact (proj1 (bt_get_correct t _ _ _ [3] Ht eq_refl ltac:(cbn; lia)))].
Defined.
End BtSearch.
