(* ===== verification/BtDelete.v ===== *)
(** Deletion from a btree (db.1.85/bt_delete.c): a record of a leaf, the cursor on it, an empty
    leaf with the entries for it in the pages above, all records of a key.  The
    theorems are in BtRemove.v. *)

From S2P Require Import Prelude BtPage BtUtils Samdb BtTree BtSearch.
From stdpp Require Import gmap sorting.
Import BtPage BtTree BtSearch.
#[local] Open Scope Z_scope.

Module BtDelete.

Definition R_CURSOR : Z := 1.
Definition RET_FAILED (status : Z) : bool := negb (status =? RET_SUCCESS).

(** ** The cursor *)

Definition c_set (c : cursor) (f : Z) : bool := is_set (c_flags c) f.
Definition F_CLR (w f : Z) : Z := Z.land w (Z.lnot f).
Definition set_c_flags (c : cursor) (f : Z) : cursor :=
  {| c_pgno := c_pgno c; c_index := c_index c; c_key := c_key c; c_flags := f |}.
Definition set_c_key (c : cursor) (k : list Z) : cursor :=
  {| c_pgno := c_pgno c; c_index := c_index c; c_key := k; c_flags := c_flags c |}.

(** A cursor that is on a record of the page. *)
Definition on_page (t : btree) (h : page) : bool :=
  let c := bt_cursor t in c_set c CURS_INIT && negb (c_set c CURS_ACQUIRE) && (c_pgno c =? pgno h).

(** A duplicate: [e] is compared where the condition holds, and becomes the place of
    the cursor. *)
Definition try_duplicate (t : btree) (when : bool) (key : list Z) (pg index flag : Z) : outcome (bool * btree) :=
  if when then
    '(cmp, t) ← __bt_cmp t key pg index;
    if cmp =? 0 then
      h ← page_at t pg;
      let c := bt_cursor t in
      Ret (true, set_cursor t (set_place (set_c_flags c (Z.lor (c_flags c) flag)) (pgno h) index))
    else Ret (false, t)
  else Ret (false, t).

(** The same on the page before or after; [None] when it cannot be got. *)
Definition try_neighbour (t : btree) (when : bool) (key : list Z) (pg : Z) (index : page -> Z) (flag : Z) :
    outcome (option bool * btree) :=
  if when then
    match mpool_get t pg with
    | (None, t) => Ret (None, t)
    | (Some e, t) => '(hit, t) ← try_duplicate t true key pg (index e) flag; Ret (Some hit, t)
    end
  else Ret (Some false, t).

(** The key of the record goes to the cursor. *)
Definition copy_key (t : btree) (pg index : Z) : outcome (Z * btree) :=
  '(status, k, _, t) ← __bt_ret t pg index true false true;
  match k with
  | Some k => Ret (status, set_cursor t (set_c_key (bt_cursor t) k))
  | None => Ret (status, t)
  end.

Definition acquire (t : btree) : btree :=
  let c := bt_cursor t in set_cursor t (set_c_flags c (Z.lor (c_flags c) CURS_ACQUIRE)).

Definition curdel_duplicates (t : btree) (key : list Z) (pg index : Z) : outcome (option bool * btree) :=
  h ← page_at t pg;
  '(hit, t) ← try_duplicate t (0 <? index) key pg (index - 1) CURS_BEFORE;
  if hit : bool then Ret (Some true, t) else
  '(hit, t) ← try_duplicate t (index <? u64 (NEXTINDEX h - 1)) key pg (index + 1) CURS_AFTER;
  if hit : bool then Ret (Some true, t) else
  '(hit, t) ← try_neighbour t ((index =? 0) && negb (prevpg h =? P_INVALID)) key (prevpg h)
                (fun e => u16 (NEXTINDEX e - 1)) CURS_BEFORE;
  match hit with
  | None => Ret (None, t)
  | Some true => Ret (Some true, t)
  | Some false =>
      try_neighbour t ((index =? u64 (NEXTINDEX h - 1)) && negb (nextpg h =? P_INVALID)) key (nextpg h)
        (fun _ => 0) CURS_AFTER
  end.

Definition __bt_curdel (t : btree) (key : option (list Z)) (pg index : Z) : outcome (Z * btree) :=
  let c := bt_cursor t in
  let t := set_cursor t (set_c_flags c (F_CLR (c_flags c) (Z.lor (Z.lor CURS_AFTER CURS_BEFORE) CURS_ACQUIRE))) in
  if is_set (bt_flags t) B_NODUPS then
    '(status, t) ← copy_key t pg index;
    Ret (status, if RET_FAILED status then t else acquire t)
  else
    '(status, t) ← match key with None => copy_key t pg index | Some _ => Ret (RET_SUCCESS, t) end;
    if RET_FAILED status then Ret (status, t)
    else
      '(hit, t) ← curdel_duplicates t (default (c_key (bt_cursor t)) key) pg index;
      match hit with
      | None => Ret (RET_ERROR, t)
      | Some true => Ret (RET_SUCCESS, t)
      | Some false =>
          match key with
          | None => Ret (RET_SUCCESS, acquire t)
          | Some _ =>
              '(status, t) ← copy_key t pg index;
              Ret (status, if RET_FAILED status then t else acquire t)
          end
      end.

(** ** Leaves *)

(** The overflow pages of an item, where a flag says it has some. *)
Definition free_overflow (t : btree) (flagged : bool) (ref : list Z) : outcome (Z * btree) :=
  if flagged then __ovfl_delete t ref else Ret (RET_SUCCESS, t).

Definition __bt_dleaf (t : btree) (key : option (list Z)) (pg index : Z) : outcome (Z * btree) :=
  h ← page_at t pg;
  '(status, t) ← (if on_page t h && (c_index (bt_cursor t) =? index)
                  then __bt_curdel t key pg index else Ret (RET_SUCCESS, t));
  if RET_FAILED status then Ret (RET_ERROR, t) else
  h ← page_at t pg;
  '(fl, k, d) ← GETBLEAF h index;
  '(status, t) ← free_overflow t (is_set fl P_BIGKEY) k;
  if status =? RET_ERROR then Ret (RET_ERROR, t) else
  '(status, t) ← free_overflow t (is_set fl P_BIGDATA) d;
  if status =? RET_ERROR then Ret (RET_ERROR, t) else
  h ← page_at t pg;
  let h := pack h index (NBLEAFDBT (zlen k) (zlen d)) in
  let t := store t pg h in
  let c := bt_cursor t in
  Ret (RET_SUCCESS,
       if on_page t h && (index <? c_index c) then set_cursor t (set_place c (c_pgno c) (c_index c - 1)) else t).

(** ** Pages *)

(** A neighbour, where there is one, gets a link; whether it could be got. *)
Definition relink_one (t : btree) (pg : Z) (f : page -> page) : bool * btree :=
  if pg =? P_INVALID then (true, t)
  else
    match mpool_get t pg with
    | (None, t) => (false, t)
    | (Some n, t) => (true, store t pg (f n))
    end.

Definition __bt_relink (t : btree) (pg : Z) : outcome (Z * btree) :=
  h ← page_at t pg;
  let '(ok, t) := relink_one t (nextpg h) (fun n => set_prevpg n (prevpg h)) in
  if negb ok then Ret (RET_ERROR, t)
  else
    h ← page_at t pg;
    let '(ok, t) := relink_one t (prevpg h) (fun p => set_nextpg p (nextpg h)) in
    Ret (if ok then RET_SUCCESS else RET_ERROR, t).

(** [__bt_relink(t, h) || __bt_free(t, h)] *)
Definition remove_page (t : btree) (pg : Z) : outcome (bool * btree) :=
  '(status, t) ← __bt_relink t pg;
  if RET_FAILED status then Ret (true, t) else t ← __bt_free t pg; Ret (false, t).

(** An empty root is a leaf again. *)
Definition empty_root (h : page) (psize : Z) : page :=
  {| pgno := pgno h; prevpg := prevpg h; nextpg := nextpg h; flags := P_BLEAF; lower := BTDATAOFF; upper := u16 psize;
     linp := linp h; items := items h; bytes := bytes h |}.

(** The loop over the stack of parents. *)
Fixpoint pdelete_loop (stack : list (Z * Z)) (t : btree) : outcome (Z * btree) :=
  match stack with
  | [] => Ret (RET_SUCCESS, set_stack t [])
  | (ppg, index) :: stack =>
      let t := set_stack t stack in
      match mpool_get t ppg with
      | (None, t) => Ret (RET_ERROR, t)
      | (Some pg, t) =>
          '(_, fl, key) ← GETBINTERNAL pg index;
          '(status, t) ← free_overflow t (is_set fl P_BIGKEY) key;
          if status =? RET_ERROR then Ret (RET_ERROR, t)
          else if NEXTINDEX pg =? 1 then
            if pgno pg =? P_ROOT then Ret (RET_SUCCESS, store t ppg (empty_root pg (psize t)))
            else
              '(failed, t) ← remove_page t ppg;
              if failed : bool then Ret (RET_ERROR, t) else pdelete_loop stack t
          else Ret (RET_SUCCESS, store t ppg (pack pg index (NBINTERNAL (zlen key))))
      end
  end.

(** The status is 1 when the last step fails, as an [||] is. *)
Definition __bt_pdelete (t : btree) (pg : Z) : outcome (Z * btree) :=
  '(status, t) ← pdelete_loop (bt_stack t) t;
  if RET_FAILED status then Ret (status, t)
  else
    h ← page_at t pg;
    if pgno h =? P_ROOT then Ret (RET_SUCCESS, t)
    else '(failed, t) ← remove_page t pg; Ret (if failed : bool then 1 else 0, t).

(** ** Keys *)

(** The first loop, from the match on: the status, or [None] at its end; a tree
    without duplicates leaves it in its first turn. *)
Fixpoint delete_forward (fuel : nat) (t : btree) (key : list Z) (pg index : Z) : outcome (option Z * btree) :=
  match fuel with
  | O => Fault
  | S fuel =>
      '(status, t) ← __bt_dleaf t (Some key) pg index;
      if RET_FAILED status then Ret (Some RET_ERROR, t)
      else
        h ← page_at t pg;
        if is_set (bt_flags t) B_NODUPS then
          if NEXTINDEX h =? 0 then
            '(status, t) ← __bt_pdelete t pg;
            Ret (Some (if RET_FAILED status then RET_ERROR else RET_SUCCESS), t)
          else Ret (Some RET_SUCCESS, t)
        else if index <? NEXTINDEX h then
          '(cmp, t) ← __bt_cmp t key pg index;
          if cmp =? 0 then delete_forward fuel t key pg index else Ret (None, t)
        else Ret (None, t)
  end.

(** [while (e->index-- > 0)]: whether it failed, and whether the start of the page was
    reached. *)
Fixpoint delete_backward (index : nat) (t : btree) (key : list Z) (pg : Z) (redo : bool) : outcome (bool * bool * btree) :=
  match index with
  | O => Ret (false, redo, t)
  | S index =>
      '(cmp, t) ← __bt_cmp t key pg (Z.of_nat index);
      if negb (cmp =? 0) then Ret (false, redo, t)
      else
        '(status, t) ← __bt_dleaf t (Some key) pg (Z.of_nat index);
        if status =? RET_ERROR then Ret (true, redo, t)
        else delete_backward index t key pg (redo || (index =? 0)%nat)
  end.

(** [fuel] bounds the searches; each removes a record, and a tree without duplicates
    needs one. *)
Fixpoint bdelete_loop (fuel : nat) (t : btree) (key : list Z) (deleted : bool) : outcome (Z * btree) :=
  match fuel with
  | O => Fault
  | S fuel =>
      '(e, t) ← __bt_search t key;
      match e with
      | None => Ret (if deleted then RET_SUCCESS else RET_ERROR, t)
      | Some (_, _, false) => Ret (if deleted then RET_SUCCESS else RET_SPECIAL, t)
      | Some (pg, index, true) =>
          h ← page_at t pg;
          '(status, t) ← delete_forward (S (Z.to_nat (NEXTINDEX h))) t key pg index;
          match status with
          | Some status => Ret (status, t)
          | None =>
              h ← page_at t pg;
              '(failed, redo, t) ← delete_backward (Z.to_nat index) t key pg (index =? NEXTINDEX h);
              if failed : bool then Ret (RET_ERROR, t)
              else
                h ← page_at t pg;
                if NEXTINDEX h =? 0 then
                  '(status, t) ← __bt_pdelete t pg;
                  if RET_FAILED status then Ret (RET_ERROR, t) else bdelete_loop fuel t key true
                else if redo : bool then bdelete_loop fuel t key true
                else Ret (RET_SUCCESS, t)
          end
      end
  end.

Definition __bt_bdelete (fuel : nat) (t : btree) (key : list Z) : outcome (Z * btree) :=
  bdelete_loop fuel t key false.

(** ** The stack for a record under the cursor *)

(** Up the stack to a page that has a next index: that page, the index, and how many
    levels it is up; [None] for a failure. *)
Fixpoint climb (next : page -> Z -> option Z) (stack : list (Z * Z)) (t : btree) (level : nat) (hp index : Z) :
    outcome (option (Z * Z * nat) * btree) :=
  match stack with
  | [] => Ret (Some (hp, index, level), set_stack t [])
  | (ppg, i) :: stack =>
      match mpool_get (set_stack t stack) ppg with
      | (None, t) => Ret (None, t)
      | (Some h, t) =>
          match next h i with
          | Some i => t ← BT_PUSH t (pgno h) i; Ret (Some (ppg, i, level), t)
          | None => climb next stack t (S level) ppg index
          end
      end
  end.

(** And down again, on the other edge. *)
Fixpoint restore (right : bool) (level : nat) (t : btree) (hp index : Z) : outcome (bool * btree) :=
  match level with
  | O => Ret (true, t)
  | S level =>
      h ← page_at t hp;
      '(pg, _, _) ← GETBINTERNAL h index;
      if right then
        t ← BT_PUSH t pg 0;
        match mpool_get t pg with
        | (None, t) => Ret (false, t)
        | (Some _, t) => restore right level t pg 0
        end
      else
        match mpool_get t pg with
        | (None, t) => Ret (false, t)
        | (Some h, t) =>
            let index := u16 (NEXTINDEX h - 1) in
            t ← BT_PUSH t pg index; restore right level t pg index
        end
  end.

Definition next_index (right : bool) (h : page) (i : Z) : option Z :=
  if right then if i =? u64 (NEXTINDEX h - 1) then None else Some (i + 1)
  else if i =? 0 then None else Some (i - 1).

(** Along the leaves to a page: where it stops; [fuel] bounds the pages. *)
Fixpoint move_to (fuel : nat) (right : bool) (t : btree) (hp target : Z) : outcome (option Z * btree) :=
  match fuel with
  | O => Fault
  | S fuel =>
      h ← page_at t hp;
      if pgno h =? target then Ret (Some hp, t)
      else
        let near := if right then nextpg h else prevpg h in
        if near =? P_INVALID then Ret (Some hp, t)
        else
          '(up, t) ← climb (next_index right) (bt_stack t) t 0 hp 0;
          match up with
          | None => Ret (None, t)
          | Some (ppg, i, level) =>
              '(ok, t) ← restore right level t ppg i;
              if negb ok then Ret (None, t)
              else
                match mpool_get t near with
                | (None, t) => Ret (None, t)
                | (Some _, t) => move_to fuel right t near target
                end
          end
  end.

(** Whether it failed. *)
Definition __bt_stkacq (t : btree) : outcome (bool * btree) :=
  let target := c_pgno (bt_cursor t) in
  let fuel := S (Z.to_nat (npages (bt_mp t))) in
  let found t := let '(h, t) := mpool_get t target in
                 (match h with Some _ => false | None => true end, t) in
  '(e, t) ← __bt_search t (c_key (bt_cursor t));
  match e with
  | None => Ret (true, t)
  | Some (pg, _, _) =>
      '(r, t) ← move_to fuel true t pg target;
      match r with
      | None => Ret (true, t)
      | Some hp =>
          h ← page_at t hp;
          if pgno h =? target then Ret (found t)
          else
            '(e, t) ← __bt_search t (c_key (bt_cursor t));
            match e with
            | None => Ret (true, t)
            | Some (pg, _, _) =>
                '(r, t) ← move_to fuel false t pg target;
                Ret match r with None => (true, t) | Some _ => found t end
            end
      end
  end.

(** ** __bt_delete *)

Definition modified (t : btree) : btree := set_bt_flags t (Z.lor (bt_flags t) B_MODIFIED).

(** The record under the cursor; the result comes with whether the call is over. *)
Definition delete_cursor (t : btree) : outcome (Z * bool * btree) :=
  let c := bt_cursor t in
  let pg := c_pgno c in
  match mpool_get t pg with
  | (None, t) => Ret (RET_ERROR, true, t)
  | (Some h, t) =>
      '(failed, t) ← (if NEXTINDEX h =? 1 then __bt_stkacq t else Ret (false, t));
      if failed : bool then Ret (RET_ERROR, true, t)
      else
        '(status, t) ← __bt_dleaf t None pg (c_index (bt_cursor t));
        h ← page_at t pg;
        if (NEXTINDEX h =? 0) && (status =? RET_SUCCESS) then
          '(s, t) ← __bt_pdelete t pg;
          Ret (if RET_FAILED s then (RET_ERROR, true, t) else (status, false, t))
        else Ret (status, false, t)
  end.

Definition __bt_delete (fuel : nat) (t : btree) (key : list Z) (flags : Z) : outcome (Z * btree) :=
  if is_set (bt_flags t) B_RDONLY then Ret (RET_ERROR, set_errno t EPERM)
  else if flags =? 0 then
    '(status, t) ← __bt_bdelete fuel t key;
    Ret (status, if status =? RET_SUCCESS then modified t else t)
  else if (flags =? R_CURSOR) && c_set (bt_cursor t) CURS_INIT then
    if c_set (bt_cursor t) (Z.lor (Z.lor CURS_ACQUIRE CURS_AFTER) CURS_BEFORE) then Ret (RET_SPECIAL, t)
    else
      '(status, over, t) ← delete_cursor t;
      Ret (status, if negb over && (status =? RET_SUCCESS) then modified t else t)
  else Ret (RET_ERROR, set_errno t EINVAL).

End BtDelete.
