(* ===== verification/BtPut.v ===== *)
(** Insertion into a btree (db.1.85/bt_put.c) and the division of pages on the way up
    (bt_split.c).  The theorems are in BtSplit.v and BtInsert.v. *)

From S2P Require Import Prelude BtPage BtUtils Samdb BtTree BtSearch BtDelete.
From stdpp Require Import gmap sorting.
Import BtPage BtTree BtSearch BtDelete.
#[local] Open Scope Z_scope.

Module BtPut.

(** ** bt_split.c *)

Definition set_panicked (t : btree) : btree :=
  {| cfg := cfg t; bt_mp := bt_mp t; bt_free := bt_free t; bt_order := bt_order t; bt_last := bt_last t;
     bt_cursor := bt_cursor t; bt_stack := bt_stack t; bt_flags := bt_flags t; errno := errno t; panicked := true |}.

Definition bt_preserve (t : btree) (pg : Z) : bool * btree :=
  match mpool_get t pg with
  | (None, t) => (false, t)
  | (Some h, t) => (true, store t pg (set_flags h (Z.lor (flags h) P_PRESERVE)))
  end.

(** The page to insert into, the left and the right page, and the index; [None] is
    NULL. *)
Definition halves : Type := option (Z * Z * Z * Z).

(** bt_psplit of the page [h], with [l] for the lower part, into [lpg] and [rpg]. *)
Definition split_pages (t : btree) (h l : page) (lpg rpg skip ilen : Z) : outcome (halves * btree) :=
  r ← page_at t rpg;
  '(onleft, skip, l, r, c) ← bt_psplit (psize t) (bt_cursor t) h l r skip ilen;
  Ret (Some (if onleft : bool then lpg else rpg, lpg, rpg, skip),
       set_cursor (store (store t lpg l) rpg r) c).

Definition bt_page (t : btree) (pg skip ilen : Z) : outcome (halves * btree) :=
  match __bt_new t with
  | (None, t) => Ret (None, t)
  | (Some npg, t) =>
      h ← page_at t pg;
      r ← page_at t npg;
      let ty := Z.land (flags h) P_TYPE in
      let r := init_page r npg (pgno h) (nextpg h) ty BTDATAOFF (psize t) in
      let t := store t npg r in
      if (nextpg h =? P_INVALID) && (skip =? NEXTINDEX h) then
        let t := store t pg (set_nextpg h (pgno r)) in
        let t := store t npg (set_lower r (BTDATAOFF + 2)) in
        Ret (Some (npg, pg, npg, 0), t)
      else
        let '(works, t) := call_works t in
        if negb works then Ret (None, t)
        else
          let l := init_page (new_page (cfg t)) (pgno h) (prevpg h) (pgno r) ty BTDATAOFF (psize t) in
          let '(ok, t) := relink_one t (nextpg h) (fun tp => set_prevpg tp (pgno r)) in
          if negb ok then Ret (None, t) else split_pages t h l pg npg skip ilen
  end.

Definition bt_root (t : btree) (pg skip ilen : Z) : outcome (halves * btree) :=
  match __bt_new t with
  | (None, t) => Ret (None, t)
  | (Some lnpg, t) =>
      match __bt_new t with
      | (None, t) => Ret (None, t)
      | (Some rnpg, t) =>
          h ← page_at t pg;
          l ← page_at t lnpg;
          r ← page_at t rnpg;
          let ty := Z.land (flags h) P_TYPE in
          let l := init_page l lnpg P_INVALID rnpg ty BTDATAOFF (psize t) in
          let r := init_page r rnpg lnpg P_INVALID ty BTDATAOFF (psize t) in
          let t := store (store t lnpg l) rnpg r in
          split_pages t h l lnpg rnpg skip ilen
      end
  end.

Definition split_page (t : btree) (pg skip ilen : Z) : outcome (halves * btree) :=
  h ← page_at t pg;
  if pgno h =? P_ROOT then bt_root t pg skip ilen else bt_page t pg skip ilen.

(** The root with its two items, the second for the key of the right page; the flags
    of a leaf's key are not kept. *)
Definition root_page (h : page) (psize lpg : Z) (it : item) : page :=
  let up := u16 (psize - NBINTERNAL 0) in
  let h := set_layout h up (put (linp h) 0 up) (put (items h) up (BINTERNAL lpg 0 [])) in
  add_item h 1 (size it) it.

Definition internal_root (h : page) : page :=
  set_flags (set_lower h (BTDATAOFF + 2 * 2)) (Z.lor (F_CLR (flags h) P_TYPE) P_BINTERNAL).

(** Whether it worked. *)
Definition bt_broot (t : btree) (pg lpg rpg : Z) : outcome (bool * btree) :=
  h ← page_at t pg;
  l ← page_at t lpg;
  r ← page_at t rpg;
  let ty := Z.land (flags h) P_TYPE in
  if ty =? P_BLEAF then
    '(fl, key, _) ← GETBLEAF r 0;
    let h := root_page h (psize t) (pgno l) (BINTERNAL (pgno r) 0 key) in
    let t := store t pg h in
    let '(ok, t) := if is_set fl P_BIGKEY then bt_preserve t (le_word key 0) else (true, t) in
    Ret (ok, if ok then store t pg (internal_root h) else t)
  else if ty =? P_BINTERNAL then
    '(_, fl, key) ← GETBINTERNAL r 0;
    let h := root_page h (psize t) (pgno l) (BINTERNAL (pgno r) fl key) in
    Ret (true, store t pg (internal_root h))
  else Fault.

(** The bytes of the key that the separator needs; 0 is for all of them.  A prefix
    function that gives 0 makes the code reserve the space of an empty key and copy
    the whole one over the items behind it. *)
Definition prefix_size (t : btree) (h lc : page) (skip : Z) (big : bool) (key : list Z) : outcome Z :=
  match bt_pfx (cfg t) with
  | Some pfx =>
      if negb big && (negb (prevpg h =? P_INVALID) || (1 <? skip)) then
        '(_, tkey, _) ← GETBLEAF lc (NEXTINDEX lc - 1);
        let nksize := pfx tkey key in
        if NBINTERNAL nksize <? NBINTERNAL (zlen key) then if nksize =? 0 then Fault else Ret nksize
        else Ret 0
      else Ret 0
  | None => Ret 0
  end.

(** The item for the right page in its parent [h], and the overflow page it refers to. *)
Definition separator (t : btree) (h lc rc : page) (skip : Z) : outcome (item * option Z) :=
  let ty := Z.land (flags rc) P_TYPE in
  if ty =? P_BINTERNAL then
    '(_, fl, key) ← GETBINTERNAL rc 0; Ret (BINTERNAL (pgno rc) fl key, None)
  else if ty =? P_BLEAF then
    '(fl, key, _) ← GETBLEAF rc 0;
    let big := is_set fl P_BIGKEY in
    nksize ← prefix_size t h lc skip big key;
    Ret (BINTERNAL (pgno rc) (Z.land fl P_BIGKEY) (if nksize =? 0 then key else take (Z.to_nat nksize) key),
         if big then Some (le_word key 0) else None)
  else Fault.

(** The loop over the parents of the pages [l] and [r]; a failure leaves the tree
    inconsistent, and the database panics. *)
Fixpoint split_loop (stack : list (Z * Z)) (t : btree) (l r : Z) : outcome (Z * btree) :=
  match stack with
  | [] => Ret (RET_SUCCESS, set_stack t [])
  | (ppg, pindex) :: stack =>
      match mpool_get (set_stack t stack) ppg with
      | (None, t) => Ret (RET_ERROR, set_panicked t)
      | (Some h, t) =>
          let skip := pindex + 1 in
          lc ← page_at t l;
          rc ← page_at t r;
          '(it, ovfl) ← separator t h lc rc skip;
          let preserve t := match ovfl with Some pg => bt_preserve t pg | None => (true, t) end in
          if no_room h (size it) then
            '(hs, t) ← split_page t ppg skip (size it);
            match hs with
            | None => Ret (RET_ERROR, set_panicked t)
            | Some (hp, l, r, skip) =>
                h' ← page_at t hp;
                let '(ok, t) := preserve (store t hp (add_item h' skip (size it) it)) in
                if negb ok then Ret (RET_ERROR, set_panicked t)
                else
                  '(ok, t) ← (if pgno h =? P_ROOT then bt_broot t ppg l r else Ret (true, t));
                  if negb ok then Ret (RET_ERROR, set_panicked t) else split_loop stack t l r
            end
          else
            let '(ok, t) := preserve (store t ppg (add_item (open_index h skip) skip (size it) it)) in
            Ret (if ok then (RET_SUCCESS, t) else (RET_ERROR, set_panicked t))
      end
  end.

Definition __bt_split (t : btree) (sp : Z) (it : item) (argskip : Z) : outcome (Z * btree) :=
  h ← page_at t sp;
  '(hs, t) ← split_page t sp argskip (size it);
  match hs with
  | None => Ret (RET_ERROR, t)
  | Some (hp, l, r, skip) =>
      h' ← page_at t hp;
      let t := store t hp (add_item h' skip (size it) it) in
      '(ok, t) ← (if pgno h =? P_ROOT then bt_broot t sp l r else Ret (true, t));
      if negb ok then Ret (RET_ERROR, set_panicked t) else split_loop (bt_stack t) t l r
  end.

(** ** bt_put.c *)

Definition R_NOOVERWRITE : Z := 8.
Definition R_SETCURSOR : Z := 10.

(** A key or data goes to overflow pages; the reference to them takes its place. *)
Definition put_big (t : btree) (b : list Z) : outcome (option (list Z) * btree) :=
  '(pg, t) ← __ovfl_put t b;
  Ret (match pg with Some pg => Some (ovfl_ref pg (zlen b)) | None => None end, t).

(** The flags of the item, its key and its data; [None] is for RET_ERROR.  [storekey]
    says whether the turn is to begin at that label.  A reference is short: there are at most two
    turns. *)
Fixpoint store_big (fuel : nat) (t : btree) (dflags : Z) (key data : list Z) (storekey : bool) :
    outcome (option (Z * list Z * list Z) * btree) :=
  match fuel with
  | O => Fault
  | S fuel =>
      let over key data := bt_ovflsize (cfg t) <? zlen key + zlen data in
      '(k, t) ← (if storekey then put_big t key else Ret (Some key, t));
      match k with
      | None => Ret (None, t)
      | Some key =>
          let dflags := if storekey then Z.lor dflags P_BIGKEY else dflags in
          '(d, t) ← (if over key data then put_big t data else Ret (Some data, t));
          match d with
          | None => Ret (None, t)
          | Some data' =>
              let dflags := if over key data then Z.lor dflags P_BIGDATA else dflags in
              if over key data' then store_big fuel t dflags key data' true
              else Ret (Some (dflags, key, data'), t)
          end
      end
  end.

Definition store_item (t : btree) (key data : list Z) : outcome (option (Z * list Z * list Z) * btree) :=
  let o := bt_ovflsize (cfg t) in
  if o <? zlen key + zlen data then store_big 3 t 0 key data (o <? zlen key)
  else Ret (Some (0, key, data), t).

(** The page, the index and whether the key is there; [None] is NULL. *)
Definition bt_fast (t : btree) (key data : list Z) : outcome (option (Z * Z * bool) * btree) :=
  let '(pg, index) := bt_last t in
  let miss t := Ret (None, set_order t NOT (bt_last t)) in
  match mpool_get t pg with
  | (None, t) => miss t
  | (Some h, t) =>
      if no_room h (NBLEAFDBT (zlen key) (zlen data)) then miss t
      else
        match bt_order t with
        | FORWARD =>
            if negb (nextpg h =? P_INVALID) then miss t
            else if negb (index =? u64 (NEXTINDEX h - 1)) then miss t
            else
              '(cmp, t) ← __bt_cmp t key pg index;
              if cmp <? 0 then miss t
              else
                let index := if cmp =? 0 then index else u16 (index + 1) in
                Ret (Some (pg, index, cmp =? 0), set_order t FORWARD (pg, index))
        | o =>
            if negb (prevpg h =? P_INVALID) then miss t
            else if negb (index =? 0) then miss t
            else
              '(cmp, t) ← __bt_cmp t key pg index;
              if 0 <? cmp then miss t
              else Ret (Some (pg, index, cmp =? 0), set_order t o (pg, 0))
        end
  end.

(** [t->bt_order == NOT || (e = bt_fast(t, key, data, &exact)) == NULL] and then __bt_search. *)
Definition find_place (t : btree) (key data : list Z) : outcome (option (Z * Z * bool) * btree) :=
  match bt_order t with
  | NOT => __bt_search t key
  | _ =>
      '(e, t) ← bt_fast t key data;
      match e with Some _ => Ret (e, t) | None => __bt_search t key end
  end.

(** The cursor moves with the records behind the new one. *)
Definition shift_cursor (t : btree) (h : page) (index : Z) : btree :=
  let c := bt_cursor t in
  if on_page t h && (index <=? c_index c) then set_cursor t (set_place c (c_pgno c) (u16 (c_index c + 1))) else t.

(** Whether the records seem to come in order. *)
Definition note_order (t : btree) (h : page) (index : Z) : btree :=
  match bt_order t with
  | NOT =>
      if nextpg h =? P_INVALID then
        if index =? u64 (NEXTINDEX h - 1) then set_order t FORWARD (pgno h, index) else t
      else if prevpg h =? P_INVALID then
        if index =? 0 then set_order t BACK (pgno h, 0) else t
      else t
  | _ => t
  end.

(** The record goes to its place, on the page or after a split. *)
Definition add_record (t : btree) (pg index : Z) (it : item) : outcome (Z * btree) :=
  h ← page_at t pg;
  if no_room h (size it) then
    '(status, t) ← __bt_split t pg it index;
    Ret (status, if status =? RET_SUCCESS then modified t else t)
  else
    let h := add_item (open_index h index) index (size it) it in
    let t := store t pg h in
    Ret (RET_SUCCESS, modified (note_order (shift_cursor t h index) h index)).

(** The label [delete], and on. *)
Definition replace_record (t : btree) (pg index : Z) (it : item) (key : list Z) : outcome (Z * btree) :=
  '(status, t) ← __bt_dleaf t (Some key) pg index;
  if status =? RET_ERROR then Ret (RET_ERROR, t) else add_record t pg index it.

(** Whether the cursor is on a record that can be replaced. *)
Definition put_flags (t : btree) (flags : Z) : bool :=
  (flags =? 0) || (flags =? R_NOOVERWRITE) ||
  ((flags =? R_CURSOR) && c_set (bt_cursor t) CURS_INIT &&
   negb (c_set (bt_cursor t) (Z.lor (Z.lor CURS_ACQUIRE CURS_AFTER) CURS_BEFORE))).

(** From the search on; with [flags] R_SETCURSOR it would set the cursor, but this is
    not among the flags that are let through. *)
Definition put_item (t : btree) (flags : Z) (it : item) (key data : list Z) : outcome (Z * btree) :=
  if flags =? R_CURSOR then
    let c := bt_cursor t in
    match mpool_get t (c_pgno c) with
    | (None, t) => Ret (RET_ERROR, t)
    | (Some _, t) => replace_record t (c_pgno c) (c_index c) it key
    end
  else
    '(e, t) ← find_place t key data;
    match e with
    | None => Ret (RET_ERROR, t)
    | Some (pg, index, exact) =>
        if flags =? R_NOOVERWRITE then
          if exact : bool then Ret (RET_SPECIAL, t) else add_record t pg index it
        else if exact && is_set (bt_flags t) B_NODUPS then replace_record t pg index it key
        else add_record t pg index it
    end.

Definition __bt_put (t : btree) (key data : list Z) (flags : Z) : outcome (Z * btree) :=
  if is_set (bt_flags t) B_RDONLY then Ret (RET_ERROR, set_errno t EPERM)
  else if negb (put_flags t flags) then Ret (RET_ERROR, set_errno t EINVAL)
  else
    '(r, t) ← store_item t key data;
    match r with
    | None => Ret (RET_ERROR, t)
    | Some (dflags, key, data) => put_item t flags (BLEAF dflags key data) key data
    end.

End BtPut.
