(* ===== verification/BtLevels.v ===== *)
(** The levels of a btree when its pages change: a tree is the shape of its levels (what
    is linked to what, and where the keys are) and its pages laid out in the pool.
    Records and entries inserted, removed and divided on a level change the shape;
    pages stored, taken from the free list and returned to it change the layout. *)

From S2P Require Import Prelude BtPage BtUtils Samdb BtTree BtSearch.
From stdpp Require Import gmap sorting.
Import BtPage BtTree BtSearch.
#[local] Open Scope Z_scope.

Module BtLevels.

(** ** Shapes *)

Record shape (ls : list level) : Prop := {
  sh_linked : linked ls;
  sh_filled : tail ls <> [] -> Forall (Forall not_empty) ls;
  sh_sorted : bsorted (lower_bounds (tail ls));
  sh_keys : leaves_in (lower_bounds (tail ls)) (hd [] ls) [];
}.

(** The pages in use and those of the free list. *)
Record alloc (t : btree) (ns free : list Z) : Prop := {
  al_nodup : NoDup (ns ++ free);
  al_range : Forall (fun n => 0 < n < npages (bt_mp t)) (ns ++ free);
  al_free : free_chain t (bt_free t) free;
}.

Record laid (t : btree) (ls : list level) (free : list Z) : Prop := {
  la_standard : standard t;
  la_levels : levels_in t ls;
  la_alloc : alloc t (numbers ls) free;
}.

Lemma tree_shape t L up free : tree t L up free <-> laid t (L :: up) free /\ shape (L :: up).
Proof.
  split.
  - intros [S Lv Lk In Le Nd Rg Fr So Ke]. split; split; try done.
    cbn. intros Hu. constructor; [by apply Le|done].
  - intros [[S Lv [Nd Rg Fr]] [Lk Fi So Ke]]. cbn in *. split; try done.
    + destruct up as [|U up]; [constructor|]. by specialize (Fi ltac:(done)); inversion Fi.
    + intros Hu. specialize (Fi Hu). by inversion Fi.
Qed.

(** *** The keys of a leaf *)

Lemma keys_in_app b B l1 l2 k :
  keys_in b B (l1 ++ l2) -> from b k -> before k B ->
  Forall (fun x => klt (ikey x) k) l1 -> Forall (fun x => klt k (ikey x)) l2 ->
  forall x, ikey x = k -> keys_in b B (l1 ++ x :: l2).
Proof.
  intros [Hs Hf] Hb Hk H1 H2 x Ex. apply Forall_app in Hf as [F1 F2]. split.
  - rewrite map_app in *. cbn [map]. apply sorted_app in Hs as (S1 & S2 & S3). apply sorted_app.
    split; [done|]. split.
    + constructor; [done|]. rewrite Ex. by apply List.Forall_map.
    + intros y z Hy [-> |Hz]%elem_of_cons; [|by apply S3]. rewrite Ex.
      apply list_elem_of_In, in_map_iff in Hy as (w & <- & Hw). rewrite Forall_forall in H1. by apply H1, list_elem_of_In.
  - apply Forall_app. split; [done|]. constructor; [by rewrite Ex|done].
Qed.

Lemma keys_in_sub b B l l' : sublist l l' -> keys_in b B l' -> keys_in b B l.
Proof.
  intros Hl [Hs Hf]. split.
  - eapply sorted_sublist; [|exact Hs]. clear -Hl. induction Hl; cbn; by constructor.
  - rewrite Forall_forall in *. intros x Hx. by apply Hf, (sublist_subseteq _ _ Hl).
Qed.

(** Other items on a leaf. *)
Lemma shape_leaf A pg its its' B up C1 c C2 :
  shape ((A ++ (pg, its) :: B) :: up) -> lower_bounds up = C1 ++ c :: C2 -> length C1 = length A ->
  keys_in c C2 its' -> (up <> [] -> its' <> []) -> shape ((A ++ (pg, its') :: B) :: up).
Proof.
  intros [Lk Fi So Ke] EB Hl Hk Hne. cbn [tail hd] in *. split; cbn [tail hd].
  - destruct up as [|U up].
    + cbn in *. by rewrite map_app in *.
    + cbn in *. by rewrite map_app in *.
  - intros Hu. specialize (Fi Hu). inversion Fi as [|? ? F1 F2]; subst. constructor; [|done].
    apply Forall_app in F1 as [F1 F3]. inversion F3 as [|? ? _ F4]; subst. apply Forall_app. split; [done|].
    constructor; [by apply Hne|done].
  - done.
  - rewrite EB in *. apply leaves_in_app in Ke as [K1 K2]; [|done]. apply leaves_in_app; [done|]. split; [done|].
    destruct K2 as [_ K2]. split; [|done]. by rewrite app_nil_r.
Qed.

(** *** Links *)

Lemma linked_head U U' up : map fst U' = map fst U -> linked (U :: up) -> linked (U' :: up).
Proof. destruct up as [|V up]; cbn; [by intros ->|]. intros ->. done. Qed.

Lemma linked_below low X X' up up' :
  linked (low ++ X :: up) -> children X' = children X -> linked (X' :: up') -> linked (low ++ X' :: up').
Proof.
  intros H Hc H'. induction low as [|Y low IH]; cbn [app] in *; [done|].
  destruct low as [|Z' low]; cbn [app] in *.
  - destruct H as [H _]. split; [by rewrite Hc|done].
  - destruct H as [? H]. split; [done|by apply IH].
Qed.

Lemma lower_bounds_app low up : lower_bounds (low ++ up) = foldr bounds (lower_bounds up) low.
Proof. unfold lower_bounds. by rewrite foldr_app. Qed.

(** The bounds below an entry and one more after it. *)
Lemma bounds_entry U1 q e1 x e2 U2 B1 b B2 :
  Forall not_empty U1 -> length U1 = length B1 ->
  exists C1 c C2, length C1 = (length (children U1) + length e1)%nat /\
    bounds (U1 ++ (q, e1 ++ x :: e2) :: U2) (B1 ++ b :: B2) = C1 ++ c :: C2 /\
    (forall y, bounds (U1 ++ (q, e1 ++ x :: y :: e2) :: U2) (B1 ++ b :: B2) = C1 ++ c :: Some (ikey y) :: C2).
Proof.
  intros Hne Hl. pose proof (length_bounds _ _ Hne Hl) as HB. destruct e1 as [|e e1].
  - exists (bounds U1 B1), b, (map (fun z => Some (ikey z)) e2 ++ bounds U2 B2).
    split; [by rewrite HB, Nat.add_0_r|]. split; [by rewrite bounds_app|]. intros y. by rewrite bounds_app.
  - exists (bounds U1 B1 ++ b :: map (fun z => Some (ikey z)) e1), (Some (ikey x)), (map (fun z => Some (ikey z)) e2 ++ bounds U2 B2).
    split; [rewrite length_app, HB; cbn; by rewrite length_map|].
    split; [|intros y]; rewrite bounds_app by done; cbn [bounds snd app tail]; rewrite map_app; cbn [map];
      by rewrite <- !(app_assoc (bounds U1 B1)); cbn [app]; rewrite <- !(app_assoc (map _ e1)).
Qed.

Lemma split_levels low X up : linked (low ++ X :: up) -> Forall (Forall not_empty) up -> length (lower_bounds up) = length X.
Proof. intros H Hn. apply (length_lower_bounds X up); [|done]. by apply linked_tail in H. Qed.

(** *** A page divided, with an entry for the right half *)

(** The key between two halves: of the right half, or anything between the records. *)
Definition between (low : list level) (s : key) (L R : list item) : Prop :=
  match low with
  | [] => Forall (fun x => klt (ikey x) s) L /\ Forall (fun x => kle s (ikey x)) R
  | _ => exists x R', R = x :: R' /\ s = ikey x
  end.

Lemma keys_in_halves c C s l r :
  keys_in c C (l ++ r) -> l <> [] -> r <> [] -> Forall (fun x => klt (ikey x) s) l -> Forall (fun x => kle s (ikey x)) r ->
  keys_in c [Some s] l /\ keys_in (Some s) C r /\ blt c (Some s) /\ before s C.
Proof.
  intros [Hs Hf] Hl Hr Fl Fr. rewrite map_app in Hs. apply sorted_app in Hs as (S1 & S2 & _).
  apply Forall_app in Hf as [F1 F2]. split; [|split; [|split]].
  - split; [done|]. rewrite Forall_forall in *. intros x Hx. split; [by apply F1|by apply Fl].
  - split; [done|]. rewrite Forall_forall in *. intros x Hx. split; [by apply Fr|by apply F2].
  - destruct l as [|x l]; [done|]. inversion F1 as [|? ? [Hx _] _]; subst. inversion Fl as [|? ? Hx' _]; subst.
    destruct c as [c|]; [|done]. by eapply kle_lt_trans.
  - destruct r as [|x r]; [done|]. inversion F2 as [|? ? [_ Hx] _]; subst. inversion Fr as [|? ? Hx' _]; subst.
    destruct C as [|[d|] C]; [done| |done]. by eapply kle_lt_trans.
Qed.

Lemma bsorted_insert C1 c s C2 :
  bsorted (C1 ++ c :: C2) -> blt c (Some s) -> before s C2 -> bsorted (C1 ++ c :: Some s :: C2).
Proof.
  intros H Hc Hs. apply sorted_app in H as (H1 & H2 & H3). inversion H2 as [|? ? S2 F2]; subst. apply sorted_app.
  split; [done|]. split.
  - assert (Fs : Forall (blt (Some s)) C2).
    { destruct C2 as [|d C2]; [constructor|]. inversion S2 as [|? ? _ F]; subst. constructor; [done|].
      eapply Forall_impl; [exact F|]. intros e He. exact (blt_trans _ _ _ Hs He). }
    constructor; [by constructor|]. by constructor.
  - intros x y Hx [-> |[-> |Hy]%elem_of_cons]%elem_of_cons.
    + apply H3; [done|by left].
    + apply (blt_trans _ c); [|done]. apply H3; [done|by left].
    + apply H3; [done|by right].
Qed.

(** Only the next bound matters. *)
Lemma leaves_in_next C1 A c D D' : leaves_in C1 A (c :: D) -> leaves_in C1 A (c :: D').
Proof.
  revert C1. induction A as [|n A IH]; intros [|d C1] H; try done. destruct H as [H1 H].
  split; [|by apply IH]. destruct C1; exact H1.
Qed.

(** The leaves with one more. *)
Lemma leaves_in_split A l r pl pr s B C1 c C2 :
  length C1 = length A -> leaves_in (C1 ++ c :: C2) (A ++ (pl, l ++ r) :: B) [] ->
  l <> [] -> r <> [] -> Forall (fun x => klt (ikey x) s) l -> Forall (fun x => kle s (ikey x)) r ->
  leaves_in (C1 ++ c :: Some s :: C2) (A ++ (pl, l) :: (pr, r) :: B) [] /\ blt c (Some s) /\ before s C2.
Proof.
  intros Hl H Hnl Hnr Fl Fr. apply leaves_in_app in H as [H1 [Hk H2]]; [|done]. rewrite app_nil_r in Hk. cbn [snd] in Hk.
  destruct (keys_in_halves c C2 s l r Hk Hnl Hnr Fl Fr) as (K1 & K2 & Hc & Hs). split; [|done].
  apply leaves_in_app; [done|]. split; [|split; [|split]].
  - by eapply leaves_in_next.
  - exact K1.
  - cbn [snd]. by rewrite app_nil_r.
  - done.
Qed.

(** The bounds below are the same when the key is that of the right half. *)
Lemma bounds_halves A l r L y R B C1 c C2 :
  length A = length C1 -> L <> [] ->
  bounds (A ++ (l, L) :: (r, y :: R) :: B) (C1 ++ c :: Some (ikey y) :: C2) =
  bounds (A ++ (l, L ++ y :: R) :: B) (C1 ++ c :: C2).
Proof.
  intros Hl HL. rewrite !bounds_app by done. cbn [bounds snd]. destruct L as [|z L]; [done|].
  cbn [app tail]. rewrite map_app. cbn [map]. by rewrite <- !app_assoc.
Qed.

Lemma shape_split low A l r L R B U1 q e1 x e2 U2 up s :
  shape (low ++ (A ++ (l, L ++ R) :: B) :: (U1 ++ (q, e1 ++ x :: e2) :: U2) :: up) ->
  length A = (length (children U1) + length e1)%nat -> L <> [] -> R <> [] -> between low s L R ->
  shape (low ++ (A ++ (l, L) :: (r, R) :: B) :: (U1 ++ (q, e1 ++ x :: BINTERNAL r 0 s :: e2) :: U2) :: up).
Proof.
  intros [Lk Fi So Ke] HA HL HR Hs. set (X := A ++ (l, L ++ R) :: B) in *. set (U := U1 ++ (q, e1 ++ x :: e2) :: U2) in *.
  set (X' := A ++ (l, L) :: (r, R) :: B). set (U' := U1 ++ (q, e1 ++ x :: BINTERNAL r 0 s :: e2) :: U2).
  assert (Fi' : Forall (Forall not_empty) (low ++ X :: U :: up)).
  { apply Fi. destruct low as [|Y low]; [done|]. cbn. by destruct low. }
  clear Fi. apply Forall_app in Fi' as [Flow Fi']. inversion Fi' as [|? ? FX Fi2]; subst. inversion Fi2 as [|? ? FU Fup]; subst.
  pose proof (linked_tail low X (U :: up) Lk) as [Hch LkU].
  assert (FU1 : Forall not_empty U1) by (subst U; by apply Forall_app in FU as [? _]).
  assert (FU' : Forall not_empty U').
  { subst U U'. apply Forall_app in FU as [? FU]. inversion FU; subst. apply Forall_app. split; [done|].
    constructor; [|done]. unfold not_empty. cbn. by destruct e1. }
  destruct (split_like _ _ _ _ (length_lower_bounds U up LkU Fup)) as (B1 & b & B2 & EB & HB1 & HB2).
  destruct (bounds_entry U1 q e1 x e2 U2 B1 b B2 FU1 (eq_sym HB1)) as (C1 & c & C2 & HC1 & EU & EU').
  specialize (EU' (BINTERNAL r 0 s)). cbn [ikey] in EU'.
  assert (EbU : lower_bounds (U :: up) = C1 ++ c :: C2) by (cbn; fold (lower_bounds up); by rewrite EB).
  assert (EbU' : lower_bounds (U' :: up) = C1 ++ c :: Some s :: C2) by (cbn; fold (lower_bounds up); by rewrite EB).
  assert (LkU' : linked (U' :: up)).
  { revert LkU. apply linked_head. subst U U'. by rewrite !map_app. }
  assert (HchX : children X' = children X).
  { subst X X'. rewrite !children_app, !children_cons. cbn [snd]. by rewrite map_app, <- app_assoc. }
  assert (HchU : children U' = map fst X').
  { subst U U' X X'. rewrite !children_app, !children_cons in *. cbn [snd] in *. rewrite !map_app in *. cbn [map fst] in *.
    rewrite <- !app_assoc in *. cbn [app] in *. rewrite !(app_assoc (children U1)) in *.
    apply app_inj_1 in Hch as [E1 E2]; [|by rewrite length_app, !length_map].
    injection E2 as E2 E3. rewrite E1, E2. cbn [ichild]. by rewrite E3. }
  assert (HC1A : length C1 = length A) by lia.
  assert (FX' : Forall not_empty X').
  { subst X X'. apply Forall_app in FX as [? FX]. inversion FX; subst. apply Forall_app. split; [done|].
    constructor; [done|]. by constructor. }
  assert (Hlow : forall L0 low', low = L0 :: low' -> lower_bounds (low' ++ X' :: U' :: up) = lower_bounds (low' ++ X :: U :: up)).
  { intros L0 low' ->. rewrite !lower_bounds_app. f_equal.
    change (bounds X' (lower_bounds (U' :: up)) = bounds X (lower_bounds (U :: up))). rewrite EbU, EbU'.
    destruct Hs as (y & R' & -> & ->). by apply bounds_halves. }
  split.
  - apply (linked_below low X X' (U :: up)); [done..|]. by split.
  - intros _. apply Forall_app. split; [done|]. constructor; [done|]. by constructor.
  - destruct low as [|L0 low]; cbn [app tail hd] in *.
    + rewrite EbU'. rewrite EbU in So, Ke. destruct Hs as [Hs1 Hs2].
      destruct (leaves_in_split A L R l r s B C1 c C2 HC1A Ke HL HR Hs1 Hs2) as (_ & Hc & Hsb).
      by apply bsorted_insert.
    + by rewrite (Hlow L0 low).
  - destruct low as [|L0 low]; cbn [app tail hd] in *.
    + rewrite EbU'. rewrite EbU in So, Ke. destruct Hs as [Hs1 Hs2].
      by destruct (leaves_in_split A L R l r s B C1 c C2 HC1A Ke HL HR Hs1 Hs2).
    + by rewrite (Hlow L0 low).
Qed.

(** A root above the root. *)
Lemma shape_root low its l :
  shape (low ++ [[(P_ROOT, its)]]) -> its <> [] ->
  shape (low ++ [[(l, its)]; [(P_ROOT, [BINTERNAL l 0 []])]]).
Proof.
  intros [Lk Fi So Ke] Hne. split.
  - apply (linked_below low [(P_ROOT, its)] [(l, its)] []); [done..|]. by split.
  - intros _. assert (Fl : Forall (Forall not_empty) low).
    { destruct low as [|L0 low]; [constructor|]. cbn [app tail] in Fi. specialize (Fi ltac:(by destruct low)).
      change (Forall (Forall not_empty) ((L0 :: low) ++ [[(P_ROOT, its)]])) in Fi. by apply Forall_app in Fi as [? _]. }
    apply Forall_app. split; [done|]. repeat constructor; [done|]. by intros ?.
  - destruct low as [|L0 low]; cbn [app tail] in *; [by repeat constructor|].
    rewrite lower_bounds_app in *. exact So.
  - destruct low as [|L0 low]; cbn [app tail hd] in *; [exact Ke|]. rewrite lower_bounds_app in *. exact Ke.
Qed.

(** *** Paths *)

Lemma path_head p L L' up st : path p (L :: up) st -> up <> [] -> path p (L' :: up) st.
Proof. by destruct up. Qed.

(** ** Layouts *)

(** What the operations on pages leave as it is. *)
Record keeps (t t' : btree) : Prop := {
  kp_cfg : cfg t' = cfg t;
  kp_flags : bt_flags t' = bt_flags t;
  kp_calls : calls (bt_mp t') = calls (bt_mp t);
  kp_order : bt_order t' = bt_order t;
  kp_last : bt_last t' = bt_last t;
  kp_panicked : panicked t' = panicked t;
}.

#[export] Instance keeps_preorder : PreOrder keeps.
Proof. split; [by intros t|]. intros a b c [] []. split; congruence. Qed.

Lemma keeps_standard t t' : keeps t t' -> standard t -> standard t'.
Proof. intros [Ec Ef El _ _ _] [? ? ? ? ?]. unfold psize in *. split; unfold psize; rewrite ?Ec, ?Ef, ?El; done. Qed.

Lemma keeps_psize t t' : keeps t t' -> psize t' = psize t.
Proof. intros H. unfold psize. by rewrite (kp_cfg _ _ H). Qed.

(** The same pages, at some numbers. *)
Definition agree (t t' : btree) (ns : list Z) : Prop :=
  psize t' = psize t /\ forall n, n ∈ ns -> pages (bt_mp t') !! n = pages (bt_mp t) !! n.

Lemma agree_sub t t' ns ns' : (forall n, n ∈ ns -> n ∈ ns') -> agree t t' ns' -> agree t t' ns.
Proof. intros H [? H']. split; [done|]. intros n Hn. by apply H', H. Qed.

Lemma agree_store t pg h ns : pg ∉ ns -> agree t (store t pg h) ns.
Proof. intros H. split; [done|]. intros n Hn. cbn. apply lookup_insert_ne. by intros ->. Qed.

Lemma agree_trans t t' t'' ns : agree t t' ns -> agree t' t'' ns -> agree t t'' ns.
Proof. intros [C1 H1] [C2 H2]. split; [congruence|]. intros n Hn. by rewrite H2, H1. Qed.

Lemma node_agree t t' kind prev n next h : agree t t' [fst n] -> node_in t kind prev n next h -> node_in t' kind prev n next h.
Proof.
  intros [Ec Hp] [? ? ? ? ? ? ? ?]. unfold psize in *. split; unfold psize; rewrite ?Ec; try done.
  by rewrite Hp by (by left).
Qed.

Lemma seg_agree t t' kind prev L next : agree t t' (map fst L) -> seg t kind prev L next -> seg t' kind prev L next.
Proof.
  revert prev. induction L as [|n L IH]; intros prev Ha; [done|]. intros [[h Hh] HL]. split.
  - exists h. eapply node_agree; [|exact Hh]. eapply agree_sub; [|exact Ha]. intros m ->%list_elem_of_singleton. by left.
  - apply IH; [|done]. eapply agree_sub; [|exact Ha]. intros m Hm. by right.
Qed.

Lemma inner_agree t t' kind up : agree t t' (numbers up) -> Forall (level_in t kind) up -> Forall (level_in t' kind) up.
Proof.
  induction up as [|U up IH]; intros Ha H; [constructor|]. inversion H; subst.
  change (numbers (U :: up)) with (map fst U ++ numbers up) in Ha. constructor.
  - eapply seg_agree; [|done]. eapply agree_sub; [|exact Ha]. intros m Hm. rewrite elem_of_app. by left.
  - apply IH; [|done]. eapply agree_sub; [|exact Ha]. intros m Hm. rewrite elem_of_app. by right.
Qed.

Lemma free_agree t t' pg free : agree t t' free -> free_chain t pg free -> free_chain t' pg free.
Proof.
  revert pg. induction free as [|n free IH]; intros pg Ha; [done|]. intros [-> (h & Hh & Hf)]. split; [done|].
  exists h. split; [rewrite (proj2 Ha); [done|by left]|]. apply IH; [|done]. eapply agree_sub; [|exact Ha]. intros m Hm. by right.
Qed.

(** The levels on both sides of one. *)
Definition kind_at (low : list level) : Z := match low with [] => P_BLEAF | _ => P_BINTERNAL end.
Definition below (t : btree) (low : list level) : Prop :=
  match low with [] => True | L :: low => level_in t P_BLEAF L /\ Forall (level_in t P_BINTERNAL) low end.

Lemma levels_mid t low X up :
  levels_in t (low ++ X :: up) <->
  below t low /\ level_in t (kind_at low) X /\ Forall (level_in t P_BINTERNAL) up.
Proof. destruct low as [|L low]; cbn [app levels_in below kind_at]; [tauto|]. rewrite Forall_app, Forall_cons. tauto. Qed.

Lemma numbers_app a b : numbers (a ++ b) = numbers a ++ numbers b.
Proof. unfold numbers. by rewrite map_app, concat_app. Qed.

Lemma numbers_mid low X up : numbers (low ++ X :: up) ≡ₚ map fst X ++ numbers (low ++ up).
Proof.
  rewrite !numbers_app. change (numbers (X :: up)) with (map fst X ++ numbers up). rewrite !app_assoc.
  apply Permutation_app_tail, Permutation_app_comm.
Qed.

Lemma below_agree t t' low : agree t t' (numbers low) -> below t low -> below t' low.
Proof.
  destruct low as [|L low]; [done|]. intros Ha [HL Hlow]. change (numbers (L :: low)) with (map fst L ++ numbers low) in Ha.
  split; [eapply seg_agree|eapply inner_agree]; [|done| |done]; (eapply agree_sub; [|exact Ha]); intros m Hm; rewrite elem_of_app; auto.
Qed.

Lemma levels_replace t t' low X X' up :
  levels_in t (low ++ X :: up) -> agree t t' (numbers (low ++ up)) -> level_in t' (kind_at low) X' ->
  levels_in t' (low ++ X' :: up).
Proof.
  rewrite !levels_mid. intros (Hl & _ & Hu) Ha HX. rewrite numbers_app in Ha. split; [|split; [done|]].
  - eapply below_agree; [|done]. eapply agree_sub; [|exact Ha]. intros m Hm. rewrite elem_of_app. by left.
  - eapply inner_agree; [|done]. eapply agree_sub; [|exact Ha]. intros m Hm. rewrite elem_of_app. by right.
Qed.

(** *** The pages in use *)

Lemma alloc_perm t ns ns' free : ns ≡ₚ ns' -> alloc t ns free -> alloc t ns' free.
Proof. intros E [H1 H2 H3]. split; [by rewrite <- E|by rewrite <- E|done]. Qed.

Lemma alloc_store t pg h ns free : pg ∈ ns -> alloc t ns free -> alloc (store t pg h) ns free.
Proof.
  intros Hin [H1 H2 H3]. split; [done|done|]. eapply free_agree; [|exact H3]. apply agree_store. intros Hf.
  apply NoDup_app in H1 as (_ & H1 & _). by apply (H1 pg).
Qed.

Lemma alloc_in t ns free n : alloc t ns free -> n ∈ ns -> 0 < n < npages (bt_mp t).
Proof. intros [_ H _] Hn. rewrite Forall_forall in H. apply H. rewrite elem_of_app. by left. Qed.

(** A page is taken into use. *)
Lemma bt_new_spec t ns free :
  standard t -> alloc t ns free -> 0 < npages (bt_mp t) < MAX_PAGE_NUMBER ->
  exists n t' free', __bt_new t = (Some n, t') /\ alloc t' (n :: ns) free' /\ is_Some (pages (bt_mp t') !! n) /\
    (forall m, m <> n -> pages (bt_mp t') !! m = pages (bt_mp t) !! m) /\ keeps t t' /\
    bt_cursor t' = bt_cursor t /\ bt_stack t' = bt_stack t /\
    npages (bt_mp t) <= npages (bt_mp t') <= npages (bt_mp t) + 1.
Proof.
  intros Hst [Nd Rg Fr] Hr. unfold __bt_new. destruct free as [|n free].
  - cbn in Fr. rewrite Fr. change (P_INVALID =? P_INVALID) with true. cbv iota. unfold mpool_new, call_works.
    rewrite (proj2 (Z.eqb_neq _ _)), (st_calls _ Hst) by lia.
    eexists _, _, []. split; [reflexivity|]. rewrite app_nil_r in Nd, Rg. split; [split|].
    + cbn. rewrite app_nil_r. constructor; [|done]. intros Hn. rewrite Forall_forall in Rg. specialize (Rg _ Hn). lia.
    + cbn. rewrite app_nil_r. constructor; [lia|]. eapply Forall_impl; [exact Rg|]. cbn. lia.
    + done.
    + cbn. split; [rewrite lookup_insert_eq; by eexists|]. split; [intros m Hm; by apply lookup_insert_ne|].
      split; [by split|]. split; [done|]. split; [done|lia].
  - destruct Fr as [<- (h & Hh & Fr)]. set (n := bt_free t) in *. assert (Hn : 0 < n < npages (bt_mp t)).
    { apply Forall_app in Rg as [_ Rg]. by inversion Rg. }
    rewrite (proj2 (Z.eqb_neq _ _)) by (unfold P_INVALID; lia). rewrite (mpool_get_page t Hst n h) by (done || lia).
    eexists n, _, free. split; [reflexivity|]. pose proof (Permutation_middle ns free n) as E. split; [split|].
    + cbn [app]. by rewrite E.
    + cbn [app]. by rewrite E.
    + cbn [bt_free set_free]. eapply free_agree; [|exact Fr]. done.
    + split; [by eexists|]. split; [done|]. split; [by split|]. split; [done|]. split; [done|cbn; lia].
Qed.

(** A page is returned to the free list. *)
Lemma bt_free_spec t ns free n h :
  alloc t (n :: ns) free -> pages (bt_mp t) !! n = Some h -> pgno h = n ->
  exists t', __bt_free t n = Ret t' /\ alloc t' ns (n :: free) /\ agree t t' ns /\ keeps t t' /\
    bt_cursor t' = bt_cursor t /\ bt_stack t' = bt_stack t /\ npages (bt_mp t') = npages (bt_mp t).
Proof.
  intros [Nd Rg Fr] Hh Hp. unfold __bt_free. rewrite (page_at_page t n h) by done. cbn [mbind outcome_bind].
  eexists. split; [reflexivity|]. cbn [app] in *. inversion Nd as [|? ? Hn Nd']; subst.
  pose proof (Permutation_middle ns free (pgno h)) as E. split; [split|].
  - rewrite <- E. by constructor.
  - rewrite <- E. done.
  - split; [done|]. eexists. split; [cbn; apply lookup_insert_eq|]. cbn [nextpg set_nextpg].
    eapply free_agree; [|exact Fr]. refine (agree_store (set_free t _) _ _ _ _).
    intros Hf. apply Hn. rewrite elem_of_app. by right.
  - split; [refine (agree_store (set_free t _) _ _ _ _); intros Hf; apply Hn; rewrite elem_of_app; by left|]. split; [by split|done].
Qed.

(** *** A page of a level *)

Lemma seg_mid t kind prev A n B next :
  seg t kind prev (A ++ n :: B) next <->
  seg t kind prev A (fst n) /\ (exists h, node_in t kind (last_of prev A) n (first_of B next) h) /\ seg t kind (fst n) B next.
Proof. rewrite seg_app. done. Qed.

Lemma laid_level t low X up free : laid t (low ++ X :: up) free -> level_in t (kind_at low) X.
Proof. intros H. by apply (la_levels _ _ _), levels_mid in H as (_ & ? & _). Qed.

Lemma laid_node t low A n B up free : laid t (low ++ (A ++ n :: B) :: up) free ->
  exists h, node_in t (kind_at low) (last_of P_INVALID A) n (first_of B P_INVALID) h.
Proof. intros H. by apply laid_level, level_node in H. Qed.

(** The page is none of the others. *)
Lemma laid_fresh t low A n B up free : laid t (low ++ (A ++ n :: B) :: up) free ->
  (fst n ∉ map fst (A ++ B)) /\ (forall m, m ∈ numbers (low ++ up) -> (m ∉ map fst (A ++ n :: B))) /\
  0 < fst n < npages (bt_mp t) /\ NoDup (map fst (A ++ n :: B)).
Proof.
  intros [_ _ Ha]. apply (alloc_perm _ _ _ _ (numbers_mid _ _ _)) in Ha.
  assert (Hin : fst n ∈ map fst (A ++ n :: B) ++ numbers (low ++ up)).
  { rewrite elem_of_app. left. rewrite map_app, elem_of_app. right. by left. }
  pose proof (alloc_in _ _ _ _ Ha Hin) as Hr. destruct Ha as [Nd _ _].
  rewrite <- app_assoc in Nd. apply NoDup_app in Nd as (N1 & N2 & _). split; [|split; [|done]].
  - rewrite map_app in N1. cbn [map] in N1. rewrite <- Permutation_middle in N1. inversion N1; subst. by rewrite map_app.
  - intros m Hm Hx. apply (N2 m); [done|]. rewrite elem_of_app. by left.
Qed.

Lemma laid_store t low A pg its its' B up free h h' :
  laid t (low ++ (A ++ (pg, its) :: B) :: up) free -> pages (bt_mp t) !! pg = Some h ->
  (pgno h', prevpg h', nextpg h', flags h') = (pgno h, prevpg h, nextpg h, flags h) ->
  has (psize t) h' its' -> Forall (item_of (kind_at low)) its' -> Forall (fun x => small (psize t) (size x)) its' ->
  laid (store t pg h') (low ++ (A ++ (pg, its') :: B) :: up) free.
Proof.
  intros H Hp Hd Hh Hi Hs. injection Hd as D1 D2 D3 D4.
  destruct (laid_fresh _ _ _ _ _ _ _ H) as (F1 & F2 & _). cbn [fst] in F1.
  rewrite map_app, not_elem_of_app in F1. destruct F1 as [FA FB].
  pose proof (laid_level _ _ _ _ _ H) as Hl. unfold level_in in Hl. apply seg_mid in Hl as (HA & [h0 Hn] & HB).
  assert (h0 = h) as -> by (pose proof (ni_page _ _ _ _ _ _ Hn) as E; cbn [fst] in E; congruence).
  destruct H as [Hst Hlv Hal]. split.
  - by apply (keeps_standard t).
  - eapply levels_replace; [exact Hlv| |].
    + apply agree_store. intros Hin. apply (F2 _ Hin). rewrite map_app, elem_of_app. right. by left.
    + unfold level_in. apply seg_mid. cbn [fst] in *. split; [|split].
      * eapply seg_agree; [|exact HA]. by apply agree_store.
      * exists h'. destruct Hn as [_ N1 N2 N3 N4 _ _ _]. cbn [fst snd] in *.
        split; cbn [fst snd]; try done; [cbn; apply lookup_insert_eq|congruence..].
      * eapply seg_agree; [|exact HB]. by apply agree_store.
  - apply (alloc_perm t _ (numbers (low ++ (A ++ (pg, its') :: B) :: up))) in Hal.
    + apply alloc_store; [|done]. rewrite numbers_mid, elem_of_app. left. rewrite map_app, elem_of_app. right. by left.
    + rewrite !numbers_mid. by rewrite !map_app.
Qed.

(** *** One page becomes two *)

(** A page with its links and items. *)
Record filled (t : btree) (kind pg prev next : Z) (its : list item) : Prop := {
  fi_page : exists h, pages (bt_mp t) !! pg = Some h /\
    (pgno h, prevpg h, nextpg h, flags h) = (pg, prev, next, kind) /\ has (psize t) h its;
  fi_items : Forall (item_of kind) its;
  fi_small : Forall (fun x => small (psize t) (size x)) its;
}.

Lemma filled_node t kind pg prev next its : filled t kind pg prev next its -> exists h, node_in t kind prev (pg, its) next h.
Proof. intros [(h & Hp & [= E1 E2 E3 E4] & Hh) Hi Hs]. by exists h. Qed.

Lemma filled_by t t' kind pg prev next its h :
  keeps t t' -> pages (bt_mp t') !! pg = Some h -> (pgno h, prevpg h, nextpg h, flags h) = (pg, prev, next, kind) ->
  has (psize t) h its -> Forall (item_of kind) its -> Forall (fun x => small (psize t) (size x)) its ->
  filled t' kind pg prev next its.
Proof. intros Hk Hp Hd Hh Hi Hs. pose proof (keeps_psize t t' Hk) as E. split; rewrite ?E; [by exists h|done|done]. Qed.

(** The links of the pages after it. *)
Lemma seg_relink t t' kind pg npg B next :
  seg t kind pg B next -> NoDup (map fst B) -> agree t t' (tail (map fst B)) ->
  (forall n B' h, B = n :: B' -> pages (bt_mp t) !! fst n = Some h -> pages (bt_mp t') !! fst n = Some (set_prevpg h npg)) ->
  seg t' kind npg B next.
Proof.
  destruct B as [|n B]; [done|]. intros [[h Hn] HB] Nd Ha Hp. split.
  - exists (set_prevpg h npg). destruct Hn as [N0 N1 N2 N3 N4 N5 N6 N7]. specialize (Hp n B h eq_refl N0).
    destruct Ha as [Es _].
    split; cbn [pgno flags prevpg nextpg set_prevpg]; try done; [|by rewrite Es].
    rewrite Es. destruct N5 as [M1 M2 M3]. split; [|done|done]. by apply (holds_header _ h).
  - by apply (seg_agree t).
Qed.

Lemma laid_two t t' low A pg its B up free free' npg L R :
  laid t (low ++ (A ++ (pg, its) :: B) :: up) free -> keeps t t' ->
  alloc t' (npg :: numbers (low ++ (A ++ (pg, its) :: B) :: up)) free' ->
  filled t' (kind_at low) pg (last_of P_INVALID A) npg L -> filled t' (kind_at low) npg pg (first_of B P_INVALID) R ->
  (forall n B' h, B = n :: B' -> pages (bt_mp t) !! fst n = Some h -> pages (bt_mp t') !! fst n = Some (set_prevpg h npg)) ->
  (forall n, n <> pg -> n <> npg -> (forall m B', B = m :: B' -> n <> fst m) ->
     pages (bt_mp t') !! n = pages (bt_mp t) !! n) ->
  laid t' (low ++ (A ++ (pg, L) :: (npg, R) :: B) :: up) free'.
Proof.
  intros H Hk Hal HL HR HB Hother. destruct (laid_fresh _ _ _ _ _ _ _ H) as (F1 & F2 & _ & F4). cbn [fst] in F1.
  pose proof (laid_level _ _ _ _ _ H) as Hl. unfold level_in in Hl. apply seg_mid in Hl as (SA & _ & SB).
  rewrite map_app, not_elem_of_app in F1. destruct F1 as [FA FB].
  assert (Hnew : npg ∉ numbers (low ++ (A ++ (pg, its) :: B) :: up)) by (destruct Hal as [Nd _ _]; inversion Nd; subst; by rewrite not_elem_of_app in *; tauto).
  rewrite numbers_mid, not_elem_of_app in Hnew. destruct Hnew as [Hn1 Hn2].
  rewrite map_app in Hn1, F4. cbn [map fst] in Hn1, F4. apply NoDup_app in F4 as (NA & NAB & NB). inversion NB as [|? ? NB1 NB2]; subst.
  assert (Ha : forall ns, (forall n, n ∈ ns -> n <> pg /\ n <> npg /\ (n ∉ map fst B)) -> agree t t' ns).
  { intros ns Hns. split; [by apply keeps_psize|]. intros n Hn. destruct (Hns n Hn) as (? & ? & Hnb). apply Hother; [done|done|].
    intros m B' -> ->. apply Hnb. by left. }
  split.
  - apply (keeps_standard t); [done|apply (la_standard _ _ _ H)].
  - eapply levels_replace; [apply (la_levels _ _ _ H)| |].
    + apply Ha. intros n Hn. specialize (F2 n Hn). rewrite map_app, not_elem_of_app in F2. destruct F2 as [_ F2]. cbn [map fst] in F2.
      split; [intros ->; apply F2; by left|]. split; [by intros ->|]. intros ?. apply F2. by right.
    + unfold level_in. apply seg_mid. split; [|split; [by apply filled_node|]].
      * eapply seg_agree; [|exact SA]. apply Ha. intros n Hn. split; [by intros ->|].
        split; [intros ->; apply Hn1; rewrite elem_of_app; by left|]. intros Hb. apply (NAB n Hn). by right.
      * split; [by apply filled_node|]. cbn [fst]. eapply (seg_relink t); [exact SB|done| |done].
        split; [by apply keeps_psize|]. intros n Hn. destruct B as [|m B]; [by apply not_elem_of_nil in Hn|]. cbn in Hn, NB2.
        inversion NB2; subst. apply Hother.
        -- intros ->. apply NB1. by right.
        -- intros ->. apply Hn1. rewrite elem_of_app. right. right. by right.
        -- intros ? ? [= <- <-] ->. done.
  - eapply alloc_perm; [|exact Hal]. rewrite !numbers_mid, !map_app. cbn [map fst].
    rewrite <- !(Permutation_middle (map fst A)). cbn [app]. apply perm_swap.
Qed.

(** The root becomes two pages, with a new root above. *)
Lemma laid_root t t' low its free free' l r L R es :
  laid t (low ++ [[(P_ROOT, its)]]) free -> keeps t t' ->
  alloc t' (l :: r :: numbers (low ++ [[(P_ROOT, its)]])) free' ->
  filled t' (kind_at low) l P_INVALID r L -> filled t' (kind_at low) r l P_INVALID R ->
  filled t' P_BINTERNAL P_ROOT P_INVALID P_INVALID es ->
  (forall n, n <> l -> n <> r -> n <> P_ROOT -> pages (bt_mp t') !! n = pages (bt_mp t) !! n) ->
  laid t' (low ++ [[(l, L); (r, R)]; [(P_ROOT, es)]]) free'.
Proof.
  intros H Hk Hal HL HR Hes Hother. change [[(P_ROOT, its)]] with (([] ++ (P_ROOT, its) :: []) :: []) in H.
  destruct (laid_fresh _ _ _ _ _ _ _ H) as (_ & F2 & _). rewrite app_nil_r in F2. split.
  - apply (keeps_standard t); [done|apply (la_standard _ _ _ H)].
  - apply levels_mid. split; [|split].
    + pose proof (la_levels _ _ _ H) as Hl. apply levels_mid in Hl as (Hl & _ & _). eapply below_agree; [|exact Hl].
      split; [by apply keeps_psize|]. intros n Hn. destruct Hal as [Nd _ _]. cbn [app] in Nd.
      inversion Nd as [|? ? N1 Nd1]; subst. inversion Nd1 as [|? ? N2 _]; subst.
      assert (Hin : n ∈ numbers (low ++ [[(P_ROOT, its)]])) by (rewrite numbers_app, elem_of_app; by left).
      apply Hother.
      * intros ->. apply N1. right. rewrite elem_of_app. by left.
      * intros ->. apply N2. rewrite elem_of_app. by left.
      * intros ->. apply (F2 P_ROOT Hn). by left.
    + split; [by apply filled_node|]. split; [by apply filled_node|done].
    + constructor; [|constructor]. split; [by apply filled_node|done].
  - eapply alloc_perm; [|exact Hal]. rewrite !numbers_app. cbn.
    by rewrite <- (Permutation_middle (numbers low) [r; P_ROOT] l), <- (Permutation_middle (numbers low) [P_ROOT] r).
Qed.
End BtLevels.
