(* ===== verification/BtSplit.v ===== *)
(** The division of the pages of a tree (db.1.85/bt_split.c): a page becomes two, the root two
    and a new root, and the entry for the right half goes into the parent, which may be
    divided in turn.  __bt_split is shown to put the record in its place and to
    leave a tree. *)

From S2P Require Import Prelude BtPage BtUtils Samdb BtTree BtSearch BtDelete BtPut BtLevels.
From stdpp Require Import gmap sorting.
Import BtPage BtTree BtSearch BtDelete BtPut BtLevels.
#[local] Open Scope Z_scope.

Module BtSplit.

Lemma kind_type low : Z.land (kind_at low) P_TYPE = kind_at low.
Proof. by destruct low. Qed.

Lemma item_size kind x : item_of kind x -> 12 <= size x.
Proof. intros H. apply size_pos. by intros ->. Qed.

Lemma item_typed h kind x : item_of kind x -> flags h = kind -> Z.land kind P_TYPE = kind -> typed h x.
Proof. intros H Hf Ht. unfold typed. rewrite Hf, Ht. destruct x; [| |done]; destruct H as [-> ->]; done. Qed.

(** The same pages, in another state with the same page size: a tree is where its pages are. *)
Lemma laid_reload t t' ls free :
  standard t' -> (forall n, 0 < n -> pages (bt_mp t') !! n = pages (bt_mp t) !! n) -> npages (bt_mp t') = npages (bt_mp t) ->
  bt_free t' = bt_free t -> psize t' = psize t -> laid t ls free -> laid t' ls free.
Proof.
  intros Hst Hp Hn Hf Es [_ H2 [A1 A2 A3]].
  assert (Ha : forall ns, Forall (fun n => 0 < n < npages (bt_mp t)) ns -> agree t t' ns).
  { intros ns Hr. split; [done|]. intros n Hin. rewrite Forall_forall in Hr. apply Hp. by apply Hr. }
  pose proof A2 as A2'. apply Forall_app in A2' as [R1 R2]. split; [done| |].
  - destruct ls as [|L up]; [done|]. destruct H2 as [HL Hup]. change (numbers (L :: up)) with (map fst L ++ numbers up) in R1.
    apply Forall_app in R1 as [RL Rup]. split; [eapply seg_agree; [by apply Ha|done]|eapply inner_agree; [by apply Ha|done]].
  - split; [done|by rewrite Hn|]. rewrite Hf. eapply free_agree; [by apply Ha|done].
Qed.

Lemma alloc_same t t' ns free :
  bt_mp t' = bt_mp t -> psize t' = psize t -> bt_free t' = bt_free t -> alloc t ns free -> alloc t' ns free.
Proof.
  intros E1 E2 E3 [H1 H2 H3]. split; [done|by rewrite E1|]. rewrite E3. eapply free_agree; [|exact H3]. split; [done|].
  intros n _. by rewrite E1.
Qed.

Lemma laid_pages t t' ls free :
  bt_mp t' = bt_mp t -> bt_free t' = bt_free t -> cfg t' = cfg t -> is_set (bt_flags t') B_NODUPS = true ->
  laid t ls free -> laid t' ls free.
Proof.
  intros E1 E2 Ec Ef H. assert (Es : psize t' = psize t) by (unfold psize; by rewrite Ec).
  apply (laid_reload t); [|by rewrite E1..|done|done|done].
  destruct (la_standard _ _ _ H) as [S1 S2 S3 S4 S5]. split; rewrite ?Es, ?Ec, ?E1; done.
Qed.

Lemma laid_same t t' ls free : bt_mp t' = bt_mp t -> bt_free t' = bt_free t -> keeps t t' -> laid t ls free -> laid t' ls free.
Proof.
  intros E1 E2 Hk H. apply (laid_pages t); [done|done|apply (kp_cfg _ _ Hk)| |done].
  rewrite (kp_flags _ _ Hk). apply (st_nodups _ (la_standard _ _ _ H)).
Qed.

(** A neighbour gets a link. *)
Lemma relink_spec t ns free pg f :
  standard t -> alloc t ns free -> pg = P_INVALID \/ pg ∈ ns /\ is_Some (pages (bt_mp t) !! pg) ->
  exists t', relink_one t pg f = (true, t') /\ alloc t' ns free /\ keeps t t' /\
    (forall n, n <> pg \/ pg = P_INVALID -> pages (bt_mp t') !! n = pages (bt_mp t) !! n) /\
    (forall h, pg <> P_INVALID -> pages (bt_mp t) !! pg = Some h -> pages (bt_mp t') !! pg = Some (f h)) /\
    bt_cursor t' = bt_cursor t /\ bt_stack t' = bt_stack t /\ npages (bt_mp t') = npages (bt_mp t).
Proof.
  intros Hst Ha Hpg. unfold relink_one. destruct (Z.eqb_spec pg P_INVALID) as [->|Hne].
  - exists t. by repeat (split; [done|]).
  - destruct Hpg as [?|[Hin [h Hh]]]; [done|]. pose proof (alloc_in _ _ _ _ Ha Hin).
    rewrite (mpool_get_page t Hst pg h) by (done || lia). eexists. split; [reflexivity|].
    split; [by apply alloc_store|]. split; [by split|].
    split; [intros n [Hn|?]; [cbn; by apply lookup_insert_ne|done]|]. split; [|done].
    intros h' _ Hh'. rewrite Hh in Hh'. injection Hh' as <-. apply lookup_insert_eq.
Qed.

(** The two halves of a page that was divided are stored, and one of them gets the item. *)
Lemma halves_stored t a b l' r' c' (onleft : bool) (f : page -> page) : a <> b ->
  let t4 := set_cursor (store (store t a l') b r') c' in
  let hp := if onleft then a else b in
  let h' := if onleft then l' else r' in
  let t5 := store t4 hp (f h') in
  pages (bt_mp t4) !! hp = Some h' /\ pages (bt_mp t5) !! a = Some (if onleft then f l' else l') /\
  pages (bt_mp t5) !! b = Some (if onleft then r' else f r') /\
  (forall m, m <> a -> m <> b -> pages (bt_mp t5) !! m = pages (bt_mp t) !! m) /\ keeps t t5 /\
  (forall ns free, alloc t ns free -> a ∈ ns -> b ∈ ns -> alloc t5 ns free).
Proof.
  intros Hab t4 hp h' t5. unfold t5, t4, hp, h'. split; [|split; [|split; [|split; [|split]]]].
  - destruct onleft; cbn; [by rewrite lookup_insert_ne, lookup_insert_eq by congruence|apply lookup_insert_eq].
  - destruct onleft; cbn; [apply lookup_insert_eq|]. by rewrite !lookup_insert_ne, lookup_insert_eq by congruence.
  - destruct onleft; cbn; [|apply lookup_insert_eq]. by rewrite lookup_insert_ne, lookup_insert_eq by congruence.
  - intros m H1 H2. cbn. by destruct onleft; rewrite !lookup_insert_ne by congruence.
  - by split.
  - intros ns free Ha Hia Hib. apply alloc_store; [by destruct onleft|]. apply (alloc_same (store (store t a l') b r')); [done..|].
    by repeat apply alloc_store.
Qed.

(** bt_psplit on the page of a level. *)
Lemma psplit_node t kind prev next pg a b it h c l r :
  standard t -> node_in t kind prev (pg, a ++ b) next h -> Z.land kind P_TYPE = kind ->
  no_room h (size it) = true -> item_of kind it -> small (psize t) (size it) ->
  upper l = psize t -> upper r = psize t -> lower l = BTDATAOFF -> lower r = BTDATAOFF ->
  exists onleft p l' r' c' L R,
    bt_psplit (psize t) c h l r (zlen a) (size it) = Ret (onleft, p, l', r', c') /\
    (pgno l', prevpg l', nextpg l', flags l') = (pgno l, prevpg l, nextpg l, flags l) /\
    (pgno r', prevpg r', nextpg r', flags r') = (pgno r, prevpg r, nextpg r, flags r) /\
    L ++ R = a ++ it :: b /\ L <> [] /\ R <> [] /\
    has (psize t) (if onleft : bool then add_item l' p (size it) it else l') L /\
    has (psize t) (if onleft then r' else add_item r' p (size it) it) R.
Proof.
  intros Hst Hn Hk Hfull Hit Hsm Ul Ur Ll Lr. pose proof (st_size _ Hst). destruct Hn as [_ _ N2 _ _ N5 N6 N7]. cbn [snd] in *.
  destruct (psplit_filled (psize t) h a b (size it) ltac:(lia) N5) with (c := c) (l := l) (r := r)
    as (onleft & p & l' & r' & c' & E & El & Er & Hfill); try done.
  - eapply Forall_impl; [exact N6|]. intros x Hx. by apply (item_typed h kind).
  - by apply (item_size kind).
  - destruct (Hfill it eq_refl) as (L & R & ?). by exists onleft, p, l', r', c', L, R.
Qed.

(** A full page has items. *)
Lemma full_not_empty t kind prev next pg its h n :
  standard t -> node_in t kind prev (pg, its) next h -> no_room h n = true -> small (psize t) n -> its <> [].
Proof.
  intros Hst Hn Hfull Hsm ->. pose proof (st_size _ Hst). rewrite (no_room_spec (psize t) h []) in Hfull; [|apply (ni_has _ _ _ _ _ _ Hn)|lia].
  apply Z.ltb_lt in Hfull. cbn in Hfull. unfold small, BTDATAOFF in *. lia.
Qed.

Lemma Forall_halves {T} (P : T -> Prop) a it b L R :
  Forall P (a ++ b) -> P it -> L ++ R = a ++ it :: b -> Forall P L /\ Forall P R.
Proof.
  intros H Hit E. apply Forall_app. rewrite E. apply Forall_app in H as [? ?]. apply Forall_app. split; [done|by constructor].
Qed.

(** ** bt_page *)

Lemma page_store t pg h : pages (bt_mp (store t pg h)) !! pg = Some h.
Proof. apply lookup_insert_eq. Qed.
Lemma page_store_ne t pg h n : n <> pg -> pages (bt_mp (store t pg h)) !! n = pages (bt_mp t) !! n.
Proof. intros H. cbn. by apply lookup_insert_ne. Qed.

(** The page at [pg] and a new one have its items and the new one, once this is at the
    index that is left open. *)
Definition divides (t : btree) (run : outcome (halves * btree)) (low : list level) (A : level) (pg : Z) (B : level)
    (up : list level) (a : list item) (it : item) (b : list item) : Prop :=
  exists hp r skip t1 h' L R free',
    run = Ret (Some (hp, pg, r, skip), t1) /\ pages (bt_mp t1) !! hp = Some h' /\
    (let t2 := store t1 hp (add_item h' skip (size it) it) in
     laid t2 (low ++ (A ++ (pg, L) :: (r, R) :: B) :: up) free' /\ keeps t t2 /\ bt_stack t2 = bt_stack t /\
     npages (bt_mp t) <= npages (bt_mp t2) <= npages (bt_mp t) + 1) /\
    L ++ R = a ++ it :: b /\ L <> [] /\ R <> [].

Section page.
Context (t : btree) (low : list level) (A : level) (pg : Z) (a b : list item) (B : level) (up : list level) (free : list Z).
Context (Hl : laid t (low ++ (A ++ (pg, a ++ b) :: B) :: up) free) (h : page) (it : item).
Context (Hh : node_in t (kind_at low) (last_of P_INVALID A) (pg, a ++ b) (first_of B P_INVALID) h).
Context (Hit : item_of (kind_at low) it) (Hsm : small (psize t) (size it)) (Hfull : no_room h (size it) = true).
Context (Hmax : npages (bt_mp t) < MAX_PAGE_NUMBER).

Lemma laid_new :
  exists n t1 free1, __bt_new t = (Some n, t1) /\
    alloc t1 (n :: numbers (low ++ (A ++ (pg, a ++ b) :: B) :: up)) free1 /\ is_Some (pages (bt_mp t1) !! n) /\
    (forall m, m <> n -> pages (bt_mp t1) !! m = pages (bt_mp t) !! m) /\ keeps t t1 /\
    bt_cursor t1 = bt_cursor t /\ bt_stack t1 = bt_stack t /\
    npages (bt_mp t) <= npages (bt_mp t1) <= npages (bt_mp t) + 1.
Proof using Hl Hmax.
  apply (bt_new_spec t _ free); [apply (la_standard _ _ _ Hl)|apply (la_alloc _ _ _ Hl)|].
  destruct (laid_fresh _ _ _ _ _ _ _ Hl) as (_ & _ & ? & _). lia.
Qed.

Lemma small_items L R : L ++ R = a ++ it :: b ->
  (Forall (item_of (kind_at low)) L /\ Forall (item_of (kind_at low)) R) /\
  (Forall (fun x => small (psize t) (size x)) L /\ Forall (fun x => small (psize t) (size x)) R).
Proof using Hh Hit Hsm.
  intros E. destruct Hh as [_ _ _ _ _ _ N6 N7]. cbn [snd] in *. split; by apply (Forall_halves _ a it b).
Qed.

(** A record after all others goes to a page of its own. *)
Lemma bt_page_last :
  nextpg h = P_INVALID -> b = [] -> divides t (bt_page t pg (zlen a) (size it)) low A pg B up a it b.
Proof using Hl Hh Hit Hsm Hfull Hmax.
  intros Hnx Eb. pose proof (la_standard _ _ _ Hl) as Hst. pose proof (st_size _ Hst) as Hps.
  destruct laid_new as (n & t1 & free1 & E & Ha1 & [r0 Hr0] & Hp1 & Hk1 & Ec1 & Es1 & Hn1).
  destruct (laid_fresh _ _ _ _ _ _ _ Hl) as (_ & _ & Hrange & _). cbn [fst] in Hrange.
  assert (Hnp : pg <> n).
  { intros ->. destruct Ha1 as [Nd _ _]. inversion Nd as [|? ? Hin _]; subst. apply Hin. rewrite elem_of_app. left.
    rewrite numbers_mid, elem_of_app. left. rewrite map_app, elem_of_app. right. by left. }
  pose proof (ni_page _ _ _ _ _ _ Hh) as Hpg. cbn [fst] in Hpg.
  assert (EB : B = []).
  { destruct B as [|m B']; [done|]. pose proof (ni_next _ _ _ _ _ _ Hh) as N. rewrite Hnx in N. cbn in N.
    assert (Hm : 0 < fst m < npages (bt_mp t)).
    { apply (alloc_in _ _ _ _ (la_alloc _ _ _ Hl)). rewrite numbers_mid, elem_of_app. left.
      rewrite map_app, elem_of_app. right. right. by left. }
    unfold P_INVALID in *. lia. }
  unfold divides, bt_page. rewrite E. rewrite (page_at_page t1 pg h) by (rewrite Hp1; done).
  rewrite (page_at_page t1 n r0) by done. cbn [mbind outcome_bind]. rewrite Hnx.
  assert (En : (zlen a =? NEXTINDEX h) = true).
  { rewrite (has_next (psize t) h (a ++ b)) by (apply (ni_has _ _ _ _ _ _ Hh) || lia). rewrite Eb, app_nil_r. apply Z.eqb_refl. }
  rewrite En. change (P_INVALID =? P_INVALID) with true. cbv iota beta. cbn [andb].
  rewrite (ni_flags _ _ _ _ _ _ Hh), kind_type, (keeps_psize t t1 Hk1), (ni_pgno _ _ _ _ _ _ Hh). cbn [fst].
  set (r1 := init_page r0 n pg P_INVALID (kind_at low) BTDATAOFF (psize t)). set (r2 := set_lower r1 (BTDATAOFF + 2)).
  eexists n, n, 0, _, r2, a, [it], free1. split; [reflexivity|]. split; [apply page_store|].
  assert (Ur : u16 (psize t) = psize t) by (apply u16_id; lia).
  pose proof (item_size _ _ Hit). destruct (small_items a [it]) as [[I1 I2] [S1 S2]]; [by rewrite Eb|].
  assert (Hr : has (psize t) (add_item r2 0 (size it) it) [it]).
  { apply (fill_has (psize t) ltac:(lia) r2 [] [] it).
    - cbn. apply (holds_header _ r1); [done..|]. apply (holds_open _ _ []). split; [done| |cbn; rewrite Ur; lia].
      exists []. by cbn.
    - done.
    - lia.
    - cbn. unfold small, BTDATAOFF in *. lia. }
  cbv zeta. set (t2 := store _ n (add_item _ _ _ _)). assert (Hk2 : keeps t t2) by (etrans; [exact Hk1|by split]).
  split; [split; [|split; [done|split]]|].
  - eapply (laid_two t t2 low A pg (a ++ b) B up free free1 n a [it]); [exact Hl|done|..].
    + repeat apply alloc_store; try (by left); [|done]. right. rewrite numbers_mid, elem_of_app. left.
      rewrite map_app, elem_of_app. right. by left.
    + eapply (filled_by t); [done|unfold t2; rewrite !page_store_ne by congruence; apply page_store| |..]; [|idtac|exact I1|exact S1].
      * cbn. by rewrite (ni_pgno _ _ _ _ _ _ Hh), (ni_prev _ _ _ _ _ _ Hh), (ni_flags _ _ _ _ _ _ Hh).
      * pose proof (ni_has _ _ _ _ _ _ Hh) as [G1 G2 G3]. cbn [snd] in *. rewrite Eb, app_nil_r in *.
        split; [by apply (holds_header _ h)|done|done].
    + eapply (filled_by t); [done|apply page_store|cbn; by rewrite EB|exact Hr|exact I2|exact S2].
    + intros m B' ? E'. by rewrite EB in E'.
    + intros m H1 H2 _. unfold t2. rewrite !page_store_ne by congruence. by apply Hp1.
  - exact Es1.
  - exact Hn1.
  - split; [by rewrite Eb|]. split; [|done]. intros ->. rewrite Eb in Hh.
    by apply (full_not_empty _ _ _ _ _ _ _ _ Hst Hh Hfull).
Qed.

(** Otherwise bt_psplit divides the page. *)
Lemma bt_page_middle :
  nextpg h <> P_INVALID \/ b <> [] -> divides t (bt_page t pg (zlen a) (size it)) low A pg B up a it b.
Proof using Hl Hh Hit Hsm Hfull Hmax.
  intros Hor. pose proof (la_standard _ _ _ Hl) as Hst. pose proof (st_size _ Hst) as Hps.
  destruct laid_new as (n & t1 & free1 & E & Ha1 & [r0 Hr0] & Hp1 & Hk1 & Ec1 & Es1 & Hn1).
  destruct (laid_fresh _ _ _ _ _ _ _ Hl) as (F1 & _ & Hrange & _). cbn [fst] in Hrange, F1.
  rewrite map_app, not_elem_of_app in F1. destruct F1 as [_ FB].
  set (ns := numbers (low ++ (A ++ (pg, a ++ b) :: B) :: up)) in *.
  assert (Hns : forall m, m ∈ map fst (A ++ (pg, a ++ b) :: B) -> m ∈ ns) by (intros m Hm; unfold ns; rewrite numbers_mid, elem_of_app; by left).
  assert (Hpgns : pg ∈ ns) by (apply Hns; rewrite map_app, elem_of_app; right; by left).
  assert (Hnns : n ∉ ns) by (destruct Ha1 as [Nd _ _]; inversion Nd as [|? ? Hin _]; subst; rewrite not_elem_of_app in Hin; tauto).
  assert (Hnp : pg <> n) by by intros ->.
  pose proof (ni_page _ _ _ _ _ _ Hh) as Hpg. cbn [fst] in Hpg.
  unfold divides, bt_page. rewrite E. rewrite (page_at_page t1 pg h) by (rewrite Hp1; done).
  rewrite (page_at_page t1 n r0) by done. cbn [mbind outcome_bind].
  assert (En : (nextpg h =? P_INVALID) && (zlen a =? NEXTINDEX h) = false).
  { rewrite (has_next (psize t) h (a ++ b)) by (apply (ni_has _ _ _ _ _ _ Hh) || lia). apply andb_false_iff.
    destruct Hor as [?|Hb]; [left; by apply Z.eqb_neq|right]. apply Z.eqb_neq. rewrite zlen_app. destruct b; [done|].
    rewrite zlen_cons. pose proof (zlen_nonneg l). lia. }
  rewrite En. cbv iota beta. rewrite (ni_flags _ _ _ _ _ _ Hh), kind_type, (keeps_psize t t1 Hk1), (ni_pgno _ _ _ _ _ _ Hh),
    (ni_next _ _ _ _ _ _ Hh), (ni_prev _ _ _ _ _ _ Hh). cbn [fst].
  set (r := init_page r0 n pg (first_of B P_INVALID) (kind_at low) BTDATAOFF (psize t)).
  set (t2 := store t1 n r). assert (Hk2 : keeps t t2) by (etrans; [exact Hk1|by split]).
  unfold call_works. rewrite (kp_calls _ _ Hk2), (st_calls _ Hst). cbn [negb]. rewrite (keeps_psize t t2 Hk2).
  set (l := init_page (new_page (cfg t2)) pg (last_of P_INVALID A) (pgno r) (kind_at low) BTDATAOFF (psize t)).
  assert (Ha2 : alloc t2 (n :: ns) free1) by (apply alloc_store; [by left|done]).
  assert (HfB : forall m B', B = m :: B' -> fst m ∈ ns /\ fst m <> pg /\ fst m <> n).
  { intros m B' EB. assert (Hm : fst m ∈ map fst B) by (rewrite EB; by left).
    assert (Hmn : fst m ∈ ns) by (apply Hns; rewrite map_app, elem_of_app; right; by right).
    split; [done|]. split; [by intros Em; rewrite Em in Hm|by intros Em; rewrite Em in Hmn]. }
  pose proof (laid_level _ _ _ _ _ Hl) as Hlv. unfold level_in in Hlv. apply seg_mid in Hlv as (_ & _ & SB).
  destruct (relink_spec t2 (n :: ns) free1 (first_of B P_INVALID) (fun tp => set_prevpg tp (pgno r)))
    as (t3 & E3 & Ha3 & Hk3 & Hp3 & Hf3 & Ec3 & Es3 & Hn3); [by apply (keeps_standard t)|done| |].
  { destruct B as [|m B'] eqn:EB; [by left|right]. destruct (HfB m B' eq_refl) as (? & ? & ?). split; [by right|].
    destruct SB as [[hm Hm] _]. exists hm. unfold t2. rewrite page_store_ne, Hp1 by done. apply (ni_page _ _ _ _ _ _ Hm). }
  rewrite E3. cbn [negb]. unfold split_pages. assert (Hk03 : keeps t t3) by by etrans.
  assert (Hfne : first_of B P_INVALID <> n).
  { destruct B as [|m B']; [cbn; intros <-|by apply (HfB m B')]. pose proof (alloc_in _ _ _ P_INVALID Ha1 ltac:(by left)).
    unfold P_INVALID in *. lia. }
  rewrite (page_at_page t3 n r) by (rewrite Hp3 by (left; congruence); apply page_store). cbn [mbind outcome_bind].
  rewrite (keeps_psize t t3 Hk03).
  assert (Hu : u16 (psize t) = psize t) by (apply u16_id; lia).
  destruct (psplit_node t _ _ _ pg a b it h (bt_cursor t3) l r Hst Hh (kind_type low) Hfull Hit Hsm)
    as (onleft & p & l' & r' & c' & L & R & Eps & El & Er & ELR & HL & HR & GL & GR); [done..|].
  rewrite Eps. cbn [mbind outcome_bind]. destruct (small_items L R ELR) as [[I1 I2] [S1 S2]].
  set (t4 := set_cursor _ c'). set (hp := if onleft then pg else n). set (h' := if onleft then l' else r').
  exists hp, n, p, t4, h', L, R, free1. split; [done|].
  destruct (halves_stored t3 pg n l' r' c' onleft (fun h => add_item h p (size it) it) Hnp) as (Hp4 & Hl5 & Hr5 & H5 & Hk35 & Ha5).
  split; [exact Hp4|]. split; [|done]. cbv zeta. set (t5 := store t4 hp _). assert (Hk5 : keeps t t5) by by etrans.
  split; [|split; [done|split; [|]]].
  - eapply (laid_two t t5 low A pg (a ++ b) B up free free1 n L R); [exact Hl|done|..].
    + apply Ha5; [exact Ha3|by right|by left].
    + eapply (filled_by t); [done|exact Hl5|destruct onleft; exact El|done|done|done].
    + eapply (filled_by t); [done|exact Hr5|destruct onleft; exact Er|done|done|done].
    + intros m B' hm EB Hm. destruct (HfB m B' EB) as (? & ? & ?). rewrite H5 by done. rewrite EB in Hf3. cbn [first_of] in Hf3.
      apply Hf3; [intros Em; pose proof (alloc_in _ _ _ (fst m) (la_alloc _ _ _ Hl) ltac:(done)); unfold P_INVALID in *; lia|].
      unfold t2. by rewrite page_store_ne, Hp1 by done.
    + intros m H1 H2 H3. rewrite H5, Hp3; [unfold t2; by rewrite page_store_ne, Hp1 by done|..]; try done.
      destruct B as [|w B']; [by right|]. left. by apply (H3 w B').
  - unfold t5, t4. cbn. by rewrite Es3.
  - unfold t5, t4. cbn. rewrite Hn3. exact Hn1.
Qed.
End page.

(** ** bt_root and bt_broot *)

(** The new root. *)
Lemma internal_root_has psize h l it :
  512 <= psize < 2 ^ 16 -> small psize (size it) -> 12 <= size it ->
  has psize (internal_root (root_page h psize l it)) [BINTERNAL l 0 []; it].
Proof.
  intros Hs Hsm H12. unfold small, BTDATAOFF in Hsm. set (up := psize - 12). set (up2 := up - size it).
  assert (E1 : u16 (psize - NBINTERNAL 0) = up) by (apply u16_id; change (NBINTERNAL 0) with 12; lia).
  assert (E2 : u16 (u16 (u16 (psize - NBINTERNAL 0)) - size it) = up2).
  { rewrite E1. rewrite (u16_id up) by (unfold up; lia). apply u16_id. unfold up2, up. lia. }
  assert (E3 : upper (internal_root (root_page h psize l it)) = up2).
  { cbn -[NBINTERNAL]. rewrite E2. apply u16_id. unfold up2, up. lia. }
  assert (En : items (internal_root (root_page h psize l it)) = put (put (items h) up (BINTERNAL l 0 [])) up2 it).
  { cbn -[NBINTERNAL]. by rewrite E2, E1. }
  assert (El : linp (internal_root (root_page h psize l it)) = put (put (linp h) 0 up) 1 up2).
  { cbn -[NBINTERNAL]. by rewrite E2, E1. }
  split; [split|done|rewrite E3; change (24 <= up2); unfold up2, up; lia].
  - cbn [map entries_at]. unfold entry. rewrite En, El. change (0 + 1) with 1. rewrite put_eq, (put_ne _ 1 0), put_eq by done.
    rewrite (put_ne _ up2 up) by (unfold up2; lia). by rewrite !put_eq.
  - exists [up2; up]. rewrite En, E3. cbn [map offsets tiles]. rewrite El. change (0 + 1) with 1.
    rewrite put_eq, (put_ne (put (items h) up _) up2 up) by (unfold up2; lia). rewrite !put_eq, (put_ne _ 1 0), put_eq by done.
    split; [|by apply perm_swap]. split; [done|]. split; [lia|]. split; [unfold up2; lia|]. change (size (BINTERNAL l 0 [])) with 12.
    split; [lia|]. unfold up2, up. lia.
  - rewrite E3. unfold up2, up. lia.
Qed.

(** The key of the right half, from the first item of its page. *)
Definition first_key (R : list item) : key := match R with x :: _ => ikey x | [] => [] end.

Lemma entry_size x pg kind : item_of kind x -> size (BINTERNAL pg 0 (ikey x)) <= size x.
Proof.
  destruct x as [p f k|f k d|]; [done| |done]. intros _. cbn [size ikey]. apply LALIGN_mono. pose proof (zlen_nonneg d). lia.
Qed.

Lemma small_le psize n m : small psize m -> n <= m -> small psize n.
Proof. unfold small. lia. Qed.

Lemma broot_spec t low l r h hl hr R :
  standard t -> pages (bt_mp t) !! P_ROOT = Some h -> flags h = kind_at low ->
  pages (bt_mp t) !! l = Some hl -> pgno hl = l -> pages (bt_mp t) !! r = Some hr -> pgno hr = r ->
  has (psize t) hr R -> Forall (item_of (kind_at low)) R -> R <> [] ->
  bt_broot t P_ROOT l r =
    Ret (true, store (store t P_ROOT (root_page h (psize t) l (BINTERNAL r 0 (first_key R))))
                 P_ROOT (internal_root (root_page h (psize t) l (BINTERNAL r 0 (first_key R))))) \/
  bt_broot t P_ROOT l r = Ret (true, store t P_ROOT (internal_root (root_page h (psize t) l (BINTERNAL r 0 (first_key R))))).
Proof.
  intros Hst Hp Hf Hl El Hr Er HR Hi Hne. destruct R as [|x R]; [done|]. pose proof (st_size _ Hst).
  inversion Hi as [|? ? Hx _]; subst. unfold bt_broot.
  rewrite (page_at_page t P_ROOT h), (page_at_page t (pgno hl) hl), (page_at_page t (pgno hr) hr) by done.
  cbn [mbind outcome_bind]. rewrite Hf, kind_type.
  pose proof (has_entry (psize t) hr (x :: R) 0 x HR eq_refl ltac:(lia)) as Ex.
  unfold GETBLEAF, GETBINTERNAL. rewrite Ex. unfold kind_at in *.
  destruct low; destruct x as [p f k|f k d|]; try done; destruct Hx as [Hk ->]; try done; [left|right]; done.
Qed.

Section root.
Context (t : btree) (low : list level) (a b : list item) (free : list Z).
Context (Hl : laid t (low ++ [[(P_ROOT, a ++ b)]]) free) (h : page) (it : item).
Context (Hh : node_in t (kind_at low) P_INVALID (P_ROOT, a ++ b) P_INVALID h).
Context (Hit : item_of (kind_at low) it) (Hsm : small (psize t) (size it)) (Hfull : no_room h (size it) = true).
Context (Hmax : npages (bt_mp t) + 1 < MAX_PAGE_NUMBER).

Lemma split_root :
  exists hp l r skip t1 h' t3 L R free',
    split_page t P_ROOT (zlen a) (size it) = Ret (Some (hp, l, r, skip), t1) /\ pages (bt_mp t1) !! hp = Some h' /\
    bt_broot (store t1 hp (add_item h' skip (size it) it)) P_ROOT l r = Ret (true, t3) /\
    laid t3 (low ++ [[(l, L); (r, R)]; [(P_ROOT, [BINTERNAL l 0 []; BINTERNAL r 0 (first_key R)])]]) free' /\
    keeps t t3 /\ bt_stack t3 = bt_stack t /\ npages (bt_mp t) <= npages (bt_mp t3) <= npages (bt_mp t) + 2 /\
    L ++ R = a ++ it :: b /\ L <> [] /\ R <> [].
Proof using All.
  pose proof (la_standard _ _ _ Hl) as Hst. pose proof (st_size _ Hst) as Hps. set (ns := numbers (low ++ [[(P_ROOT, a ++ b)]])) in *.
  assert (Hrn : P_ROOT ∈ ns) by (unfold ns; rewrite numbers_app, elem_of_app; right; by left).
  pose proof (alloc_in _ _ _ _ (la_alloc _ _ _ Hl) Hrn) as Hrange.
  destruct (bt_new_spec t ns free Hst (la_alloc _ _ _ Hl)) as (l & t1 & free1 & E1 & Ha1 & [l0 Hl0] & Hp1 & Hk1 & Ec1 & Es1 & Hn1); [lia|].
  destruct (bt_new_spec t1 (l :: ns) free1 (keeps_standard _ _ Hk1 Hst) Ha1) as (r & t2 & free2 & E2 & Ha2 & [r0 Hr0] & Hp2 & Hk2 & Ec2 & Es2 & Hn2); [lia|].
  assert (Hk02 : keeps t t2) by by etrans.
  assert (Hnd : r <> l /\ r <> P_ROOT /\ l <> P_ROOT).
  { destruct Ha2 as [Nd _ _]. cbn [app] in Nd. inversion Nd as [|? ? N1 Nd']; subst. inversion Nd' as [|? ? N2 _]; subst.
    split; [intros ->; apply N1; by left|]. split; intros ->; [apply N1; right|apply N2]; rewrite elem_of_app; by left. }
  destruct Hnd as (Hrl & Hrr & Hlr). pose proof (ni_page _ _ _ _ _ _ Hh) as Hpg. cbn [fst] in Hpg.
  unfold split_page. rewrite (page_at_page t P_ROOT h) by done. cbn [mbind outcome_bind].
  rewrite (ni_pgno _ _ _ _ _ _ Hh). cbn [fst]. change (P_ROOT =? P_ROOT) with true. cbv iota. unfold bt_root. rewrite E1, E2.
  rewrite (page_at_page t2 P_ROOT h), (page_at_page t2 l l0), (page_at_page t2 r r0) by (rewrite ?Hp2, ?Hp1 by done; done).
  cbn [mbind outcome_bind]. rewrite (ni_flags _ _ _ _ _ _ Hh), kind_type, (keeps_psize t t2 Hk02).
  set (lp := init_page l0 _ _ _ _ _ _). set (rp := init_page r0 _ _ _ _ _ _). unfold split_pages.
  rewrite (page_at_page _ r rp) by apply page_store. cbn [mbind outcome_bind]. change (psize (store _ _ _)) with (psize t2).
  rewrite (keeps_psize t t2 Hk02). set (t3 := store (store t2 l lp) r rp).
  assert (Hu : u16 (psize t) = psize t) by (apply u16_id; lia).
  destruct (psplit_node t _ _ _ P_ROOT a b it h (bt_cursor t3) lp rp Hst Hh (kind_type low) Hfull Hit Hsm)
    as (onleft & p & l' & r' & c' & L & R & Eps & El & Er & ELR & HL & HR & GL & GR); [done..|].
  rewrite Eps. cbn [mbind outcome_bind].
  assert (HI : (Forall (item_of (kind_at low)) L /\ Forall (item_of (kind_at low)) R) /\
    (Forall (fun x => small (psize t) (size x)) L /\ Forall (fun x => small (psize t) (size x)) R)).
  { destruct Hh as [_ _ _ _ _ _ N6 N7]. cbn [snd] in *. split; by apply (Forall_halves _ a it b). }
  destruct HI as [[I1 I2] [S1 S2]].
  set (t4 := set_cursor _ c'). set (hp := if onleft then l else r). set (h' := if onleft then l' else r').
  set (hl := if onleft then add_item l' p (size it) it else l'). set (hr := if onleft then r' else add_item r' p (size it) it).
  set (t5 := store t4 hp (add_item h' p (size it) it)).
  destruct (halves_stored t3 l r l' r' c' onleft (fun h => add_item h p (size it) it) ltac:(congruence)) as (Hp4 & Hl5 & Hr5 & H35 & Hk35 & Ha35).
  change (pages (bt_mp t5) !! l = Some hl) in Hl5. change (pages (bt_mp t5) !! r = Some hr) in Hr5.
  assert (H5 : forall m, m <> l -> m <> r -> pages (bt_mp t5) !! m = pages (bt_mp t) !! m).
  { intros m H1 H2. rewrite <- Hp1, <- Hp2 by congruence. etrans; [exact (H35 m H1 H2)|]. unfold t3. by rewrite !page_store_ne by congruence. }
  assert (Hhl : (pgno hl, prevpg hl, nextpg hl, flags hl) = (l, P_INVALID, r, kind_at low)) by (unfold hl; destruct onleft; exact El).
  assert (Hhr : (pgno hr, prevpg hr, nextpg hr, flags hr) = (r, l, P_INVALID, kind_at low)) by (unfold hr; destruct onleft; exact Er).
  assert (Hk5 : keeps t t5) by (etrans; [exact Hk02|by split]).
  pose proof (keeps_standard _ _ Hk5 Hst) as Hst5. pose proof (keeps_psize _ _ Hk5) as Ep5.
  set (root := root_page h (psize t) l (BINTERNAL r 0 (first_key R))).
  assert (Hx : exists x, x ∈ R /\ first_key R = ikey x) by (destruct R as [|x R]; [done|]; exists x; split; [by left|done]).
  destruct Hx as (x & Hx & Efk). rewrite Forall_forall in I2, S2. pose proof (entry_size x r _ (I2 x Hx)) as Hes.
  assert (Hsx : small (psize t) (size (BINTERNAL r 0 (first_key R)))) by (rewrite Efk; apply (small_le _ _ (size x)); [by apply S2|done]).
  rewrite <- Forall_forall in I2, S2.
  assert (Hbr : exists t6, bt_broot t5 P_ROOT l r = Ret (true, t6) /\ keeps t5 t6 /\ bt_stack t6 = bt_stack t5 /\
    npages (bt_mp t6) = npages (bt_mp t5) /\ pages (bt_mp t6) !! P_ROOT = Some (internal_root root) /\
    (forall m, m <> P_ROOT -> pages (bt_mp t6) !! m = pages (bt_mp t5) !! m) /\
    alloc t6 (l :: r :: ns) free2).
  { assert (Ha5 : alloc t5 (l :: r :: ns) free2).
    { apply Ha35; [|by left|right; by left]. repeat (apply alloc_store; [(by left) || (right; by left)|]).
      by eapply alloc_perm; [apply perm_swap|]. }
    destruct (broot_spec t5 low l r h hl hr R) as [E|E]; try done.
    - rewrite H5 by congruence. done.
    - apply (ni_flags _ _ _ _ _ _ Hh).
    - by injection Hhl.
    - by injection Hhr.
    - by rewrite Ep5.
    - rewrite Ep5 in E. eexists. split; [exact E|]. split; [by split|]. split; [done|]. split; [done|]. split; [apply page_store|].
      split; [intros m Hm; by rewrite !page_store_ne|]. apply alloc_store; [right; by right|]. apply alloc_store; [right; by right|done].
    - rewrite Ep5 in E. eexists. split; [exact E|]. split; [by split|]. split; [done|]. split; [done|]. split; [apply page_store|].
      split; [intros m Hm; by rewrite !page_store_ne|]. apply alloc_store; [right; by right|done]. }
  destruct Hbr as (t6 & E6 & Hk56 & Es6 & En6 & Hr6 & Hp6 & Ha6). assert (Hk6 : keeps t t6) by by etrans.
  exists hp, l, r, p, t4, h', t6, L, R, free2. split; [done|].
  split; [exact Hp4|]. split; [exact E6|]. split; [|split; [done|split; [|split; [|done]]]].
  - apply (laid_root t t6 low (a ++ b) free free2 l r L R); [done..| | | |].
    + eapply (filled_by t _ _ _ _ _ _ hl); [done|rewrite Hp6 by done; exact Hl5|exact Hhl|exact GL|done|done].
    + eapply (filled_by t _ _ _ _ _ _ hr); [done|rewrite Hp6 by done; exact Hr5|exact Hhr|exact GR|done|done].
    + eapply (filled_by t); [done|exact Hr6| |apply internal_root_has; [done|exact Hsx|by apply (item_size P_BINTERNAL)]| |].
      * cbn. rewrite (ni_pgno _ _ _ _ _ _ Hh), (ni_prev _ _ _ _ _ _ Hh), (ni_next _ _ _ _ _ _ Hh), (ni_flags _ _ _ _ _ _ Hh). by destruct low.
      * by repeat constructor.
      * constructor; [|by constructor]. change (size (BINTERNAL l 0 [])) with 12. unfold small, BTDATAOFF. lia.
    + intros m H1 H2 H3. rewrite Hp6 by done. by apply H5.
  - rewrite Es6. unfold t5, t4. cbn. by rewrite Es2, Es1.
  - rewrite En6. unfold t5, t4. cbn. lia.
Qed.
End root.

(** ** The entry for the right half *)

Lemma between_leaf L y x R s :
  StronglySorted klt (map ikey ((L ++ [y]) ++ x :: R)) -> klt (ikey y) s -> kle s (ikey x) -> between [] s (L ++ [y]) (x :: R).
Proof.
  intros Hs Hy Hx. rewrite map_app in Hs. apply sorted_app in Hs as (S1 & S2 & _). split.
  - rewrite map_app in S1. apply sorted_app in S1 as (_ & _ & S1). apply Forall_app. split; [|by constructor].
    apply Forall_forall. intros z Hz. apply klt_trans with (ikey y); [|done]. apply S1; [|by left].
    apply list_elem_of_In, in_map. by apply list_elem_of_In.
  - cbn in S2. inversion S2 as [|? ? _ F]; subst. constructor; [done|].
    eapply Forall_impl; [exact (proj1 (List.Forall_map _ _ _) F)|]. intros z Hz. apply kle_spec. left. by eapply kle_lt_trans.
Qed.

Lemma LALIGN_take (k : key) n : NBINTERNAL (zlen (take n k)) <= NBINTERNAL (zlen k).
Proof. apply LALIGN_mono. unfold zlen. rewrite length_take. lia. Qed.

Lemma kle_refl k : kle k k.
Proof. apply kle_spec. by right. Qed.

Lemma prefix_key t h lc x skip y l L L0 prev r :
  standard t -> node_in t P_BLEAF prev (l, L) r lc -> L = L0 ++ [y] -> klt (ikey y) (ikey x) ->
  exists n, prefix_size t h lc skip false (ikey x) = Ret n /\
    (n = 0 \/ n <> 0 /\ klt (ikey y) (take (Z.to_nat n) (ikey x)) /\ kle (take (Z.to_nat n) (ikey x)) (ikey x)).
Proof.
  intros Hst Hlc EL Hyx. pose proof (st_size _ Hst). unfold prefix_size.
  rewrite (st_pfx _ Hst). cbn [negb andb]. destruct (_ || _); [|exists 0; split; [done|by left]].
  assert (Ey : entry lc (NEXTINDEX lc - 1) = y).
  { pose proof (ni_has _ _ _ _ _ _ Hlc) as Hh. cbn [snd] in Hh. rewrite (has_next (psize t) lc L) by (done || lia).
    apply (has_entry (psize t) lc L); [done| |rewrite EL, zlen_app; change (zlen [y]) with 1; pose proof (zlen_nonneg L0); lia].
    rewrite EL, zlen_app. change (zlen [y]) with 1. replace (Z.to_nat (zlen L0 + 1 - 1)) with (length L0) by (unfold zlen; lia).
    by apply list_lookup_middle. }
  assert (Hiy : item_of P_BLEAF y).
  { pose proof (ni_items _ _ _ _ _ _ Hlc) as Hi. cbn [snd] in Hi. rewrite EL in Hi. apply Forall_app in Hi as [_ Hi]. by inversion Hi. }
  unfold GETBLEAF. rewrite Ey. destruct y as [p f k|f k d|]; [by destruct Hiy| |done]. cbn [mbind outcome_bind].
  destruct (BtUtils.defpfx_separates k (ikey x) Hyx) as (Hn & H1 & H2 & _).
  destruct (_ <? _); [|eexists; split; [reflexivity|by left]].
  rewrite (proj2 (Z.eqb_neq _ 0)) by lia. eexists. split; [reflexivity|]. right. split; [lia|]. by split.
Qed.

Section separator.
Context (t : btree) (low : list level) (A : level) (l : Z) (L : list item) (r : Z) (R : list item) (B : level) (up : list level).
Context (free : list Z) (Hl : laid t (low ++ (A ++ (l, L) :: (r, R) :: B) :: up) free).
Context (HL : L <> []) (HR : R <> []).
Context (Hsorted : low = [] -> StronglySorted klt (map ikey (L ++ R))).

Lemma halves_pages :
  exists lc rc prev next, node_in t (kind_at low) prev (l, L) r lc /\ node_in t (kind_at low) l (r, R) next rc.
Proof using Hl.
  pose proof (laid_node _ _ _ _ _ _ _ Hl) as [lc Hlc].
  assert (E : A ++ (l, L) :: (r, R) :: B = (A ++ [(l, L)]) ++ (r, R) :: B) by by rewrite <- app_assoc.
  pose proof Hl as Hl'. rewrite E in Hl'. pose proof (laid_node _ _ _ _ _ _ _ Hl') as [rc Hrc].
  rewrite last_of_app in Hrc. cbn in Hlc, Hrc. by exists lc, rc, (last_of P_INVALID A), (first_of B P_INVALID).
Qed.

Lemma separator_spec h lc rc skip :
  pages (bt_mp t) !! l = Some lc -> pages (bt_mp t) !! r = Some rc ->
  exists s, separator t h lc rc skip = Ret (BINTERNAL r 0 s, None) /\ between low s L R /\
    small (psize t) (size (BINTERNAL r 0 s)).
Proof using All.
  intros Elc Erc. destruct halves_pages as (lc' & rc' & prev & next & Hlc & Hrc).
  pose proof (ni_page _ _ _ _ _ _ Hlc) as E1. pose proof (ni_page _ _ _ _ _ _ Hrc) as E2. cbn [fst] in E1, E2.
  assert (lc' = lc) as -> by congruence. assert (rc' = rc) as -> by congruence.
  pose proof (la_standard _ _ _ Hl) as Hst. pose proof (st_size _ Hst).
  destruct R as [|x R'] eqn:ER; [done|]. pose proof (ni_has _ _ _ _ _ _ Hrc) as Hh. cbn [snd] in Hh.
  pose proof (has_entry (psize t) rc (x :: R') 0 x Hh eq_refl ltac:(lia)) as Ex.
  pose proof (ni_items _ _ _ _ _ _ Hrc) as Hi. pose proof (ni_small _ _ _ _ _ _ Hrc) as Hsm. cbn [snd] in Hi, Hsm.
  apply Forall_cons in Hi as [Hix _], Hsm as [Hsx _].
  unfold separator. rewrite (ni_flags _ _ _ _ _ _ Hrc), kind_type, (ni_pgno _ _ _ _ _ _ Hrc). cbn [fst].
  destruct low as [|X low'] eqn:Elow; cbn [kind_at] in *.
  - change (P_BLEAF =? P_BINTERNAL) with false. change (P_BLEAF =? P_BLEAF) with true. cbv iota.
    destruct (last_cases L) as [->|(L0 & y & EL)]; [done|]. specialize (Hsorted eq_refl).
    assert (Hyx : klt (ikey y) (ikey x)).
    { rewrite EL, map_app in Hsorted. apply sorted_app in Hsorted as (_ & _ & S3). apply S3; [|by left].
      rewrite map_app, elem_of_app. right. by left. }
    unfold GETBLEAF. rewrite Ex. destruct x as [p f k|f k d|]; [by destruct Hix| |done]. destruct Hix as [_ ->].
    cbn [mbind outcome_bind]. change (is_set 0 P_BIGKEY) with false. change (Z.land 0 P_BIGKEY) with 0. cbv iota.
    destruct (prefix_key t h lc (BLEAF 0 k d) skip y l L L0 prev r Hst Hlc EL Hyx) as (n & En & Hn).
    cbn [ikey] in En, Hn. rewrite En. cbn [mbind outcome_bind]. eexists. split; [reflexivity|].
    rewrite EL in Hsorted |- *. destruct (Z.eqb_spec n 0) as [->|Hne].
    + split; [apply between_leaf; [done|done|apply kle_refl]|]. apply (small_le _ _ _ Hsx). apply (entry_size (BLEAF 0 k d) r P_BLEAF). done.
    + destruct Hn as [?|(_ & Hn1 & Hn2)]; [done|]. split; [by apply between_leaf|]. apply (small_le _ _ _ Hsx).
      etrans; [apply LALIGN_take|]. apply (entry_size (BLEAF 0 k d) r P_BLEAF). done.
  - change (P_BINTERNAL =? P_BINTERNAL) with true. cbv iota. unfold GETBINTERNAL. rewrite Ex.
    destruct x as [p f k|f k d|]; [|by destruct Hix|done]. destruct Hix as [_ ->]. cbn [mbind outcome_bind].
    exists k. split; [done|]. split; [by exists (BINTERNAL p 0 k), R'|]. exact Hsx.
Qed.
End separator.

(** ** The way up *)

(** A page that is not of the highest level is not the root. *)
Lemma not_root t low A n B V up free :
  laid t (low ++ (A ++ n :: B) :: V :: up) free -> linked (V :: up) -> fst n <> P_ROOT.
Proof.
  intros H Hk E. destruct (root_level _ Hk) as (low2 & m & Em & Hm).
  destruct (laid_fresh _ _ _ _ _ _ _ H) as (_ & F & _). apply (F P_ROOT).
  - rewrite Em, !numbers_app, !elem_of_app. right. right. rewrite <- Hm. by left.
  - rewrite map_app, elem_of_app. right. cbn [map]. rewrite E. by left.
Qed.

Lemma root_alone U1 n U2 low : linked (low ++ [U1 ++ n :: U2]) -> U1 = [] /\ U2 = [] /\ fst n = P_ROOT.
Proof.
  intros H. apply linked_tail in H. cbn in H. rewrite map_app in H. destruct U1 as [|m U1]; cbn in H.
  - injection H as -> H. by destruct U2.
  - injection H as _ H. by destruct U1.
Qed.

(** The new root, over the halves of the old one. *)
Lemma shape_new_root low l r L R s :
  shape (low ++ [[(P_ROOT, L ++ R)]]) -> L <> [] -> R <> [] -> between low s L R ->
  shape (low ++ [[(l, L); (r, R)]; [(P_ROOT, [BINTERNAL l 0 []; BINTERNAL r 0 s])]]).
Proof.
  intros H HL HR Hs. apply (shape_split low [] l r L R [] [] P_ROOT [] (BINTERNAL l 0 []) [] [] [] s); [|done..].
  apply shape_root; [done|]. by destruct L.
Qed.

Lemma path_split p X U up stack : path p (X :: U :: up) stack ->
  exists U1 ppg e1 x e2 U2 stack', U = U1 ++ (ppg, e1 ++ x :: e2) :: U2 /\ stack = (ppg, zlen e1) :: stack' /\
    p = (length (children U1) + length e1)%nat /\ path (length U1) (U :: up) stack'.
Proof.
  destruct stack as [|[ppg i] stack]; [done|]. intros (U1 & es & U2 & E & Hi & Hp & Hs).
  destruct (lookup_lt_is_Some_2 es (Z.to_nat i)) as [x Hx]; [unfold zlen in Hi; lia|].
  apply list_elem_of_split_length in Hx as (e1 & e2 & -> & Hl). exists U1, ppg, e1, x, e2, U2, stack.
  split; [done|]. split; [do 2 f_equal; unfold zlen; lia|]. split; [lia|done].
Qed.

Lemma leaf_sorted A l its B up : shape ((A ++ (l, its) :: B) :: up) -> StronglySorted klt (map ikey its).
Proof.
  intros [_ _ _ Ke]. cbn [tail hd] in Ke. revert Ke. generalize (lower_bounds up) (@nil bound).
  induction A as [|n A IH]; intros [|b C] D; try done; cbn [app leaves_in].
  - by intros [[H _] _].
  - intros [_ H]. by eapply IH.
Qed.

(** One turn of the loop. *)
Section step.
Context (t : btree) (low : list level) (A : level) (l : Z) (L : list item) (r : Z) (R : list item) (B : level).
Context (U1 : level) (ppg : Z) (e1 : list item) (x : item) (e2 : list item) (U2 : level) (up : list level).
Context (stack : list (Z * Z)) (free : list Z).
Let X := A ++ (l, L) :: (r, R) :: B.
Let U := U1 ++ (ppg, (e1 ++ [x]) ++ e2) :: U2.
Context (Hl : laid t (low ++ X :: U :: up) free).
Context (Hsh : shape (low ++ (A ++ (l, L ++ R) :: B) :: U :: up)) (HL : L <> []) (HR : R <> []).

Definition next_turn (t : btree) (h : page) (it : item) : outcome (Z * btree) :=
  let skip := zlen (e1 ++ [x]) in
  if no_room h (size it) then
    '(hs, t) ← split_page t ppg skip (size it);
    match hs with
    | None => Ret (RET_ERROR, set_panicked t)
    | Some (hp, l, r, skip) =>
        h' ← page_at t hp;
        let t := store t hp (add_item h' skip (size it) it) in
        '(ok, t) ← (if pgno h =? P_ROOT then bt_broot t ppg l r else Ret (true, t));
        if negb ok then Ret (RET_ERROR, set_panicked t) else split_loop stack t l r
    end
  else Ret (RET_SUCCESS, store t ppg (add_item (open_index h skip) skip (size it) it)).

Lemma turn_spec :
  exists t0 h s, split_loop ((ppg, zlen e1) :: stack) t l r = next_turn t0 h (BINTERNAL r 0 s) /\
    laid t0 (low ++ X :: U :: up) free /\ keeps t t0 /\ npages (bt_mp t0) = npages (bt_mp t) /\
    node_in t0 P_BINTERNAL (last_of P_INVALID U1) (ppg, (e1 ++ [x]) ++ e2) (first_of U2 P_INVALID) h /\
    between low s L R /\ small (psize t0) (size (BINTERNAL r 0 s)).
Proof using All.
  set (t0 := set_stack t stack). assert (Hk0 : keeps t t0) by by split.
  pose proof (laid_same t t0 _ _ eq_refl eq_refl Hk0 Hl) as Hl0. pose proof (la_standard _ _ _ Hl0) as Hst0.
  destruct (halves_pages t0 low A l L r R B (U :: up) free Hl0) as (lc & rc & prev & next & Hlc & Hrc).
  pose proof (ni_page _ _ _ _ _ _ Hlc) as Elc. pose proof (ni_page _ _ _ _ _ _ Hrc) as Erc. cbn [fst] in Elc, Erc.
  assert (HlU : laid t0 ((low ++ [X]) ++ U :: up) free) by (by rewrite <- app_assoc).
  destruct (laid_node _ _ _ _ _ _ _ HlU) as [h Hh].
  assert (Ek : kind_at (low ++ [X]) = P_BINTERNAL) by by destruct low. rewrite Ek in Hh.
  destruct (laid_fresh _ _ _ _ _ _ _ HlU) as (_ & _ & Hr & _). cbn [fst] in Hr.
  destruct (separator_spec t0 low A l L r R B (U :: up) free Hl0 HL HR) with (h := h) (lc := lc) (rc := rc) (skip := zlen (e1 ++ [x]))
    as (s & Es & Hbt & Hsm); [|done|done|].
  { intros Elow. rewrite Elow in Hsh. by apply (leaf_sorted A l _ B (U :: up)). }
  exists t0, h, s. split; [|by repeat (split; [done|])].
  cbn [split_loop]. fold t0. rewrite (mpool_get_page t0 Hst0 ppg h (ni_page _ _ _ _ _ _ Hh)) by lia.
  rewrite (page_at_page t0 l lc), (page_at_page t0 r rc) by done. cbn [mbind outcome_bind].
  replace (zlen e1 + 1) with (zlen (e1 ++ [x])) by (rewrite zlen_app; done).
  rewrite Es. cbn [mbind outcome_bind]. done.
Qed.
End step.

(** Room in the parent. *)
Lemma laid_insert t low A pg a b it B up free h :
  laid t (low ++ (A ++ (pg, a ++ b) :: B) :: up) free -> node_in t (kind_at low) (last_of P_INVALID A) (pg, a ++ b) (first_of B P_INVALID) h ->
  item_of (kind_at low) it -> small (psize t) (size it) -> no_room h (size it) = false ->
  laid (store t pg (add_item (open_index h (zlen a)) (zlen a) (size it) it)) (low ++ (A ++ (pg, a ++ it :: b) :: B) :: up) free.
Proof.
  intros Hl Hh Hit Hsm Hroom. pose proof (st_size _ (la_standard _ _ _ Hl)). pose proof (item_size _ _ Hit).
  destruct Hh as [N0 N1 N2 N3 N4 N5 N6 N7]. cbn [fst snd] in *.
  apply (laid_store t low A pg (a ++ b) _ B up free h); [done|done|done|apply insert_has; [done|lia|lia|done]|..].
  - apply Forall_app in N6 as [? ?]. apply Forall_app. split; [done|by constructor].
  - apply Forall_app in N7 as [? ?]. apply Forall_app. split; [done|by constructor].
Qed.

(** A page below the root, with no room. *)
Lemma split_node t low A pg a b it B up free h :
  laid t (low ++ (A ++ (pg, a ++ b) :: B) :: up) free ->
  node_in t (kind_at low) (last_of P_INVALID A) (pg, a ++ b) (first_of B P_INVALID) h ->
  item_of (kind_at low) it -> small (psize t) (size it) -> no_room h (size it) = true ->
  npages (bt_mp t) < MAX_PAGE_NUMBER -> pg <> P_ROOT ->
  divides t (split_page t pg (zlen a) (size it)) low A pg B up a it b.
Proof.
  intros Hl Hh Hit Hsm Hfull Hmax Hpg.
  assert (E : split_page t pg (zlen a) (size it) = bt_page t pg (zlen a) (size it)).
  { unfold split_page. rewrite (page_at_page t pg h) by apply (ni_page _ _ _ _ _ _ Hh). cbn [mbind outcome_bind].
    rewrite (ni_pgno _ _ _ _ _ _ Hh). cbn [fst]. by rewrite (proj2 (Z.eqb_neq _ _)). }
  rewrite E. destruct (decide (nextpg h = P_INVALID)) as [Hn|Hn].
  - destruct b as [|y b].
    + by apply (bt_page_last t low A pg a [] B up free Hl h it Hh Hit Hsm Hfull Hmax).
    + apply (bt_page_middle t low A pg a (y :: b) B up free Hl h it Hh Hit Hsm Hfull Hmax). by right.
  - apply (bt_page_middle t low A pg a b B up free Hl h it Hh Hit Hsm Hfull Hmax). by left.
Qed.

Lemma last_path p L stack : path p [L] stack -> stack = [] /\ p = O.
Proof. by destruct stack as [|[? ?] ?]. Qed.

(** The separators go into the parents, as far up as these are full. *)
Definition loop_result (t : btree) (low : list level) (X : level) (n : Z) (run : outcome (Z * btree)) : Prop :=
  exists t' up' free', run = Ret (RET_SUCCESS, t') /\ laid t' (low ++ X :: up') free' /\ shape (low ++ X :: up') /\
    keeps t t' /\ npages (bt_mp t) <= npages (bt_mp t') <= npages (bt_mp t) + n + 1 /\ zlen up' <= n + 1 /\ up' <> [].

Lemma loop_keeps t t0 low X n run :
  keeps t t0 -> npages (bt_mp t0) = npages (bt_mp t) -> loop_result t0 low X n run -> loop_result t low X n run.
Proof.
  intros Hk Hn (t' & up' & free' & H1 & H2 & H3 & H4 & H5 & H6). exists t', up', free'. rewrite <- Hn.
  repeat (split; [done|]). split; [by etrans|]. by split.
Qed.

Lemma low_kind low X : kind_at (low ++ [X]) = P_BINTERNAL.
Proof. by destruct low. Qed.

Section turn.
Context (t : btree) (low : list level) (X : level) (U1 : level) (ppg : Z) (a : list item) (it : item) (b : list item).
Context (U2 : level) (up : list level) (free : list Z) (h : page).
Context (Hl : laid t ((low ++ [X]) ++ (U1 ++ (ppg, a ++ b) :: U2) :: up) free).
Context (Hsh : shape ((low ++ [X]) ++ (U1 ++ (ppg, a ++ it :: b) :: U2) :: up)).
Context (Hh : node_in t P_BINTERNAL (last_of P_INVALID U1) (ppg, a ++ b) (first_of U2 P_INVALID) h).
Context (Hit : item_of P_BINTERNAL it) (Hsm : small (psize t) (size it)).

Lemma turn_room : no_room h (size it) = false ->
  loop_result t low X (1 + zlen up) (Ret (RET_SUCCESS, store t ppg (add_item (open_index h (zlen a)) (zlen a) (size it) it))).
Proof using All.
  intros Hroom. eexists _, ((U1 ++ (ppg, a ++ it :: b) :: U2) :: up), free. split; [reflexivity|].
  pose proof (laid_insert t (low ++ [X]) U1 ppg a b it U2 up free h Hl) as H. rewrite low_kind in H. specialize (H Hh Hit Hsm Hroom).
  rewrite <- app_assoc in H, Hsh. cbn [app] in H, Hsh. split; [exact H|]. split; [exact Hsh|]. split; [by split|].
  cbn [bt_mp store set_mp npages]. pose proof (zlen_nonneg up). rewrite zlen_cons. split; [lia|]. split; [lia|done].
Qed.

Lemma turn_root stack : no_room h (size it) = true -> up = [] -> U1 = [] -> U2 = [] -> ppg = P_ROOT ->
  npages (bt_mp t) + 1 < MAX_PAGE_NUMBER ->
  loop_result t low X 1
    ('(hs, t) ← split_page t ppg (zlen a) (size it);
     match hs with
     | None => Ret (RET_ERROR, set_panicked t)
     | Some (hp, l, r, skip) =>
         h' ← page_at t hp;
         let t := store t hp (add_item h' skip (size it) it) in
         '(ok, t) ← (if pgno h =? P_ROOT then bt_broot t ppg l r else Ret (true, t));
         if negb ok then Ret (RET_ERROR, set_panicked t) else split_loop stack t l r
     end) \/ stack <> [].
Proof using All.
  intros Hfull Eu E1 E2 Ep Hmax. destruct stack as [|e stack]; [left|by right]. rewrite E1, E2, Ep, Eu in *. cbn [app] in *.
  rewrite <- (low_kind low X) in Hh, Hit.
  destruct (split_root t (low ++ [X]) a b free Hl h it Hh Hit Hsm Hfull Hmax)
    as (hp & l & r & skip' & t1 & h' & t3 & L & R & free' & Er & Hp & Eb & Hl3 & Hk3 & _ & Hn3 & ELR & HL & HR).
  rewrite Er. cbn [mbind outcome_bind]. rewrite (page_at_page t1 hp h') by done. cbn [mbind outcome_bind].
  rewrite (ni_pgno _ _ _ _ _ _ Hh). cbn [fst]. change (P_ROOT =? P_ROOT) with true. cbv iota. rewrite Eb.
  cbn [mbind outcome_bind negb split_loop]. eexists _, _, free'. split; [reflexivity|].
  assert (Hk : keeps t3 (set_stack t3 [])) by by split.
  pose proof (laid_same t3 (set_stack t3 []) _ _ eq_refl eq_refl Hk Hl3) as Hl4. rewrite <- app_assoc in Hl4. cbn [app] in Hl4.
  split; [exact Hl4|]. split; [|split; [by etrans|split; [cbn; lia|by split]]].
  rewrite <- ELR in Hsh. destruct R as [|y R]; [done|].
  pose proof (shape_new_root (low ++ [X]) l r L (y :: R) (ikey y) Hsh HL HR) as H. rewrite <- app_assoc in H. apply H.
  destruct low; by exists y, R.
Qed.
End turn.

(** The separators go into the parents, as far up as these are full. *)
Lemma split_loop_spec n : forall up t low A l L r R B U stack free, (length up < n)%nat ->
  laid t (low ++ (A ++ (l, L) :: (r, R) :: B) :: U :: up) free ->
  shape (low ++ (A ++ (l, L ++ R) :: B) :: U :: up) -> L <> [] -> R <> [] ->
  path (length A) ((A ++ (l, L ++ R) :: B) :: U :: up) stack ->
  npages (bt_mp t) + zlen up + 1 < MAX_PAGE_NUMBER ->
  loop_result t low (A ++ (l, L) :: (r, R) :: B) (1 + zlen up) (split_loop stack t l r).
Proof.
  induction n as [|n IH]; intros up t low A l L r R B U stack free Hlen Hl Hsh HL HR Hpath Hmax; [lia|].
  destruct (path_split _ _ _ _ _ Hpath) as (U1 & ppg & e1 & x & e2 & U2 & stack' & EU & -> & HA & Hpath').
  set (X := A ++ (l, L) :: (r, R) :: B) in *. rewrite EU in Hl, Hsh, Hpath'.
  assert (Ee : forall y, e1 ++ x :: y = (e1 ++ [x]) ++ y) by (intros y; by rewrite <- app_assoc).
  pose proof Hsh as Hsh0. rewrite Ee in Hl, Hsh0.
  destruct (turn_spec t low A l L r R B U1 ppg e1 x e2 U2 up stack' free Hl Hsh0 HL HR)
    as (t0 & h & s & E & Hl0 & Hk0 & En0 & Hh & Hs & Hsm). fold X in Hl0.
  pose proof (shape_split low A l r L R B U1 ppg e1 x e2 U2 up s Hsh HA HL HR Hs) as Hsh1. fold X in Hsh1. rewrite Ee in Hsh1.
  assert (EX : forall Y, low ++ X :: Y = (low ++ [X]) ++ Y) by (intros Y; by rewrite <- app_assoc).
  rewrite EX in Hl0, Hsh1.
  rewrite E. apply (loop_keeps t t0); [done|done|]. unfold next_turn. rewrite <- En0 in Hmax.
  destruct (no_room h (size (BINTERNAL r 0 s))) eqn:Hroom; [|by apply (turn_room t0 low X U1 ppg (e1 ++ [x]) _ e2 U2 up free h)].
  pose proof (zlen_nonneg up). destruct up as [|V up].
  - destruct (root_alone _ _ _ _ (sh_linked _ Hsh1)) as (E1 & E2 & E3). cbn [fst] in E3.
    assert (Est : stack' = []) by by apply last_path in Hpath' as [-> _].
    destruct (turn_root t0 low X U1 ppg (e1 ++ [x]) (BINTERNAL r 0 s) e2 U2 [] free h Hl0 Hsh1 Hh ltac:(done) Hsm stack') as [Hr|?]; done || lia.
  - destruct (linked_tail _ _ _ (sh_linked _ Hsh1)) as [_ LkV].
    pose proof (not_root _ _ _ _ _ _ _ _ Hl0 LkV) as Hpp. cbn [fst] in Hpp. rewrite <- (low_kind low X) in Hh.
    rewrite zlen_cons in *. destruct (split_node t0 (low ++ [X]) U1 ppg (e1 ++ [x]) e2 (BINTERNAL r 0 s) U2 (V :: up) free h Hl0 Hh)
      as (hp & r2 & sk & t1 & h' & L2 & R2 & free' & Er & Hp & (Hl2 & Hk2 & _ & Hn2) & ELR & HL2 & HR2); [by rewrite low_kind|done|done|lia|done|].
    rewrite Er. cbn [mbind outcome_bind]. rewrite (page_at_page t1 hp h') by done. cbn [mbind outcome_bind].
    rewrite (ni_pgno _ _ _ _ _ _ Hh). cbn [fst]. rewrite (proj2 (Z.eqb_neq _ _) Hpp). cbn [mbind outcome_bind negb].
    rewrite <- ELR in Hsh1. set (t2 := store t1 hp _) in *.
    destruct (IH up t2 (low ++ [X]) U1 ppg L2 r2 R2 U2 V stack' free') as (t3 & up' & free3 & E3 & Hl3 & Hsh3 & Hk3 & Hn3 & Hu3 & Hne3);
      [cbn in Hlen; lia|done|done|done|done|by apply (path_head _ _ _ _ _ Hpath')|lia|].
    rewrite E3. rewrite <- EX in Hl3, Hsh3. eexists _, _, free3. split; [reflexivity|]. split; [exact Hl3|]. split; [exact Hsh3|].
    split; [by etrans|]. split; [lia|]. rewrite zlen_cons. split; [lia|done].
Qed.

(** A record goes to a leaf that has no room for it. *)
Lemma bt_split_spec t L1 pg a it b L2 up free h :
  laid t ((L1 ++ (pg, a ++ b) :: L2) :: up) free -> shape ((L1 ++ (pg, a ++ it :: b) :: L2) :: up) ->
  path (length L1) ((L1 ++ (pg, a ++ it :: b) :: L2) :: up) (bt_stack t) ->
  node_in t P_BLEAF (last_of P_INVALID L1) (pg, a ++ b) (first_of L2 P_INVALID) h ->
  item_of P_BLEAF it -> small (psize t) (size it) -> no_room h (size it) = true ->
  npages (bt_mp t) + zlen up + 2 < MAX_PAGE_NUMBER ->
  exists t' L' up' free', __bt_split t pg it (zlen a) = Ret (RET_SUCCESS, t') /\ laid t' (L' :: up') free' /\ shape (L' :: up') /\
    items_of L' = items_of (L1 ++ (pg, a ++ it :: b) :: L2) /\ keeps t t' /\
    npages (bt_mp t) <= npages (bt_mp t') <= npages (bt_mp t) + zlen up + 2 /\ zlen up' <= zlen up + 1.
Proof.
  intros Hl Hsh Hpath Hh Hit Hsm Hfull Hmax. pose proof (zlen_nonneg up).
  unfold __bt_split. rewrite (page_at_page t pg h) by apply (ni_page _ _ _ _ _ _ Hh). cbn [mbind outcome_bind].
  assert (Hitems : forall l r L R, L ++ R = a ++ it :: b ->
    items_of (L1 ++ (l, L) :: (r, R) :: L2) = items_of (L1 ++ (pg, a ++ it :: b) :: L2)).
  { intros l r L R E. rewrite !items_of_app, !items_of_cons. cbn [snd]. by rewrite (app_assoc L R), E. }
  destruct up as [|U up].
  - destruct (root_alone L1 (pg, a ++ it :: b) L2 [] (sh_linked _ Hsh)) as (E1 & E2 & E3). cbn [fst] in E3.
    rewrite E1, E2, E3 in *. apply last_path in Hpath as [Est _].
    destruct (split_root t [] a b free Hl h it Hh Hit Hsm Hfull ltac:(cbn in Hmax; lia))
      as (hp & l & r & skip & t1 & h' & t3 & L & R & free' & Er & Hp & Eb & Hl3 & Hk3 & Es3 & Hn3 & ELR & HL & HR).
    rewrite Er. cbn [mbind outcome_bind]. rewrite (page_at_page t1 hp h') by done. cbn [mbind outcome_bind].
    rewrite (ni_pgno _ _ _ _ _ _ Hh). cbn [fst]. change (P_ROOT =? P_ROOT) with true. cbv iota. rewrite Eb.
    cbn [mbind outcome_bind negb]. rewrite Es3, Est. cbn [split_loop].
    assert (Hk4 : keeps t3 (set_stack t3 [])) by by split.
    eexists _, [(l, L); (r, R)], [[(P_ROOT, [BINTERNAL l 0 []; BINTERNAL r 0 (first_key R)])]], free'. split; [reflexivity|].
    split; [exact (laid_same t3 (set_stack t3 []) _ _ eq_refl eq_refl Hk4 Hl3)|].
    split; [|split; [exact (Hitems l r L R ELR)|split; [by etrans|split; [cbn; lia|by cbn]]]].
    cbn [app] in Hsh. pose proof (leaf_sorted [] P_ROOT _ [] [] Hsh) as Hs. rewrite <- ELR in Hs, Hsh.
    apply (shape_new_root [] l r L R); [done..|].
    destruct (last_cases L) as [->|(L0 & y & ->)]; [done|]. destruct R as [|x R]; [done|].
    apply between_leaf; [done| |apply kle_refl]. rewrite map_app in Hs. apply sorted_app in Hs as (_ & _ & Hs).
    apply Hs; [|by left]. rewrite map_app, elem_of_app. right. by left.
  - destruct (sh_linked _ Hsh) as [_ Lk].
    assert (Hpg : pg <> P_ROOT) by exact (not_root t [] L1 (pg, a ++ b) L2 U up free Hl Lk).
    destruct (split_node t [] L1 pg a b it L2 (U :: up) free h Hl Hh Hit Hsm Hfull ltac:(lia) Hpg)
      as (hp & r & sk & t1 & h' & L & R & free' & Er & Hp & (Hl2 & Hk2 & Es2 & Hn2) & ELR & HL & HR).
    rewrite Er. cbn [mbind outcome_bind]. rewrite (page_at_page t1 hp h') by done. cbn [mbind outcome_bind].
    rewrite (ni_pgno _ _ _ _ _ _ Hh). cbn [fst]. rewrite (proj2 (Z.eqb_neq _ _) Hpg). cbn [mbind outcome_bind negb].
    set (t2 := store t1 hp _) in *. rewrite zlen_cons in *. rewrite <- ELR in Hsh, Hpath. rewrite Es2.
    destruct (split_loop_spec (S (length up)) up t2 [] L1 pg L r R L2 U (bt_stack t) free')
      as (t3 & up' & free3 & E3 & Hl3 & Hsh3 & Hk3 & Hn3 & Hu3 & _); [lia|done..|by apply (path_head _ _ _ _ _ Hpath)|lia|].
    rewrite E3. eexists _, _, up', free3. split; [reflexivity|]. split; [exact Hl3|]. split; [exact Hsh3|].
    split; [by apply Hitems|]. split; [by etrans|]. lia.
Qed.
End BtSplit.
