(* ===== verification/BtRemove.v ===== *)
(** Deletion from a tree (db.1.85/bt_delete.c): __bt_dleaf takes a record off its leaf,
    __bt_pdelete takes an empty leaf out of the tree, with the entries for it, and __bt_delete
    is shown to remove the record of a key and nothing else. *)

From S2P Require Import Prelude BtPage BtUtils Samdb BtTree BtSearch BtDelete BtPut BtLevels BtSplit.
From stdpp Require Import gmap sorting.
Import BtPage BtTree BtSearch BtDelete BtPut BtLevels BtSplit.
#[local] Open Scope Z_scope.

Module BtRemove.

(** ** Trees *)

Lemma tree_pages t t' L up free :
  bt_mp t' = bt_mp t -> bt_free t' = bt_free t -> cfg t' = cfg t -> is_set (bt_flags t') B_NODUPS = true ->
  tree t L up free -> tree t' L up free.
Proof. intros ? ? ? ?. rewrite !tree_shape. intros [? ?]. split; [by apply (laid_pages t)|done]. Qed.

Definition writable (t : btree) : Prop := is_set (bt_flags t) B_RDONLY = false.

Lemma modified_flags t f : f = B_NODUPS \/ f = B_RDONLY -> is_set (bt_flags (modified t)) f = is_set (bt_flags t) f.
Proof.
  intros [-> | ->]; unfold is_set, modified; cbn; rewrite Z.land_lor_distr_l; change (Z.land B_MODIFIED _) with 0; by rewrite Z.lor_0_r.
Qed.

(** ** A record of a leaf *)

Section leaf.
Context (t : btree) (Hst : standard t) (prev next : Z) (n : node) (h : page).
Context (Hn : node_in t P_BLEAF prev n next h).

Lemma leaf_item i x : snd n !! Z.to_nat i = Some x -> 0 <= i ->
  exists k d, x = BLEAF 0 k d /\ GETBLEAF h i = Ret (0, k, d).
Proof using Hst Hn.
  intros Hx Hi. destruct (node_item t Hst _ _ _ _ _ Hn i x Hx Hi) as (E & Ht & _).
  destruct x as [p f k|f k d|]; [by destruct Ht| |done]. destruct Ht as [_ ->]. exists k, d. split; [done|].
  unfold GETBLEAF. by rewrite E.
Qed.

(** The cursor on a record that goes keeps its key. *)
Lemma curdel_spec key i x : snd n !! Z.to_nat i = Some x -> 0 <= i ->
  exists c, __bt_curdel t key (fst n) i = Ret (RET_SUCCESS, set_cursor t c) /\
    c_key c = ikey x /\ c_set c CURS_ACQUIRE = true /\ c_set c CURS_INIT = c_set (bt_cursor t) CURS_INIT.
Proof using Hst Hn.
  intros Hx Hi. destruct (leaf_item i x Hx Hi) as (k & d & -> & Ex). unfold __bt_curdel.
  change (bt_flags (set_cursor t _)) with (bt_flags t). rewrite (st_nodups _ Hst). unfold copy_key, __bt_ret.
  rewrite (page_at_page (set_cursor t _) (fst n) h) by apply (ni_page _ _ _ _ _ _ Hn).
  cbn [mbind outcome_bind]. rewrite Ex. cbn [mbind outcome_bind]. cbv zeta.
  rewrite fetch_here by by destruct Hst. cbn. eexists. split; [reflexivity|]. split; [done|]. unfold c_set. cbn. unfold is_set. split.
  - unfold CURS_ACQUIRE. rewrite Z.land_lor_distr_l. apply negb_true_iff, Z.eqb_neq. intros E%Z.lor_eq_0_iff. by destruct E.
  - unfold F_CLR. rewrite Z.land_lor_distr_l, <- Z.land_assoc. change (Z.land CURS_ACQUIRE CURS_INIT) with 0. by rewrite Z.lor_0_r.
Qed.
End leaf.

Lemma pack_header h i n :
  (pgno (pack h i n), prevpg (pack h i n), nextpg (pack h i n), flags (pack h i n)) = (pgno h, prevpg h, nextpg h, flags h).
Proof. done. Qed.

Lemma set_cursor_id t : set_cursor t (bt_cursor t) = t.
Proof. by destruct t. Qed.

(** A record off a leaf. *)
Lemma dleaf_spec t L1 pg a x c L2 up free key :
  laid t ((L1 ++ (pg, a ++ x :: c) :: L2) :: up) free ->
  exists h c', __bt_dleaf t key pg (zlen a) = Ret (RET_SUCCESS, set_cursor (store t pg (pack h (zlen a) (size x))) c') /\
    pages (bt_mp t) !! pg = Some h /\ laid (store t pg (pack h (zlen a) (size x))) ((L1 ++ (pg, a ++ c) :: L2) :: up) free /\
    (on_page t h && (c_index (bt_cursor t) =? zlen a) = true ->
     c_key c' = ikey x /\ c_set c' CURS_ACQUIRE = true /\ c_set c' CURS_INIT = c_set (bt_cursor t) CURS_INIT).
Proof.
  intros Hl. destruct (laid_node t [] _ _ _ _ _ Hl) as [h Hh]. pose proof (la_standard _ _ _ Hl) as Hst. pose proof (st_size _ Hst) as Hps.
  cbn [kind_at] in Hh. pose proof Hh as [N0 N1 N2 N3 N4 N5 N6 N7]. cbn [fst snd] in *.
  assert (Hx : (a ++ x :: c) !! Z.to_nat (zlen a) = Some x) by (unfold zlen; rewrite Nat2Z.id; by apply list_lookup_middle).
  destruct (leaf_item t Hst _ _ _ _ Hh (zlen a) x Hx (zlen_nonneg a)) as (k & d & Ex & Eg).
  exists h. unfold __bt_dleaf. rewrite (page_at_page t pg h) by done. cbn [mbind outcome_bind].
  assert (Hcur : exists c0, (if on_page t h && (c_index (bt_cursor t) =? zlen a) then __bt_curdel t key pg (zlen a)
    else Ret (RET_SUCCESS, t)) = Ret (RET_SUCCESS, set_cursor t c0) /\
    (on_page t h && (c_index (bt_cursor t) =? zlen a) = true ->
     c_key c0 = ikey x /\ c_set c0 CURS_ACQUIRE = true /\ c_set c0 CURS_INIT = c_set (bt_cursor t) CURS_INIT)).
  { destruct (_ && _); [|exists (bt_cursor t); split; [by rewrite set_cursor_id|done]].
    destruct (curdel_spec t Hst _ _ _ _ Hh key (zlen a) x Hx (zlen_nonneg a)) as (c0 & E & Hc0). by exists c0. }
  destruct Hcur as (c0 & E0 & Hc0). rewrite E0. cbn [mbind outcome_bind]. change (RET_FAILED RET_SUCCESS) with false. cbv iota.
  rewrite (page_at_page (set_cursor t c0) pg h) by done. cbn [mbind outcome_bind]. rewrite Eg. cbn [mbind outcome_bind].
  change (is_set 0 P_BIGKEY) with false. change (is_set 0 P_BIGDATA) with false. unfold free_overflow.
  cbn [mbind outcome_bind]. change (RET_SUCCESS =? RET_ERROR) with false. cbv iota.
  rewrite (page_at_page (set_cursor t c0) pg h) by done. cbn [mbind outcome_bind].
  assert (Es : NBLEAFDBT (zlen k) (zlen d) = size x) by by rewrite Ex. rewrite Es.
  exists (if on_page (set_cursor t c0) (pack h (zlen a) (size x)) && (zlen a <? c_index c0) then set_place c0 (c_pgno c0) (c_index c0 - 1) else c0).
  split; [|split; [done|split; [|intros Hcur; apply Hc0 in Hcur; destruct (on_page (set_cursor t c0) _ && _); exact Hcur]]].
  - change (on_page (store (set_cursor t c0) pg (pack h (zlen a) (size x)))) with (on_page (set_cursor t c0)).
    change (bt_cursor (store (set_cursor t c0) pg (pack h (zlen a) (size x)))) with c0. by destruct (on_page (set_cursor t c0) (pack h (zlen a) (size x))), (zlen a <? c_index c0).
  - apply (laid_store t [] L1 pg (a ++ x :: c) (a ++ c) L2 up free h); [done|done|apply pack_header|apply pack_has; [done|lia]|..].
    + apply Forall_app in N6 as [? N6]. inversion N6; subst. by apply Forall_app.
    + apply Forall_app in N7 as [? N7]. inversion N7; subst. by apply Forall_app.
Qed.

Lemma packed_count t L1 pg its L2 up free h :
  laid (store t pg h) ((L1 ++ (pg, its) :: L2) :: up) free -> NEXTINDEX h = zlen its.
Proof.
  intros Hl. destruct (laid_node _ [] _ _ _ _ _ Hl) as [h2 Hh2]. pose proof (ni_page _ _ _ _ _ _ Hh2) as P2. cbn [fst] in P2.
  rewrite page_store in P2. injection P2 as <-. apply (has_next (psize t)); [apply (ni_has _ _ _ _ _ _ Hh2)|].
  pose proof (st_size _ (la_standard _ _ _ Hl)) as H. change (psize (store t pg h)) with (psize t) in H. lia.
Qed.

Lemma laid_cursor t c ls free : laid t ls free -> laid (set_cursor t c) ls free.
Proof. intros Hl. apply (laid_pages t); [done|done|done| |done]. apply (st_nodups _ (la_standard _ _ _ Hl)). Qed.

(** ** A page of a level *)

(** The link of the page before. *)
Lemma seg_relink_left t t' kind prev A pg next :
  seg t kind prev A pg -> NoDup (map fst A) -> psize t' = psize t ->
  (forall A' n h, A = A' ++ [n] -> pages (bt_mp t) !! fst n = Some h -> pages (bt_mp t') !! fst n = Some (set_nextpg h next)) ->
  (forall A' n m, A = A' ++ [n] -> m ∈ map fst A' -> pages (bt_mp t') !! m = pages (bt_mp t) !! m) ->
  seg t' kind prev A next.
Proof.
  intros H Nd Ec Hp Ho. destruct (last_cases A) as [->|(A' & n & ->)]; [done|].
  apply seg_app in H as [HA [[h Hn] _]]. apply seg_app. split.
  - apply (seg_agree t); [|exact HA]. split; [done|]. intros m Hm. by apply (Ho A' n m).
  - split; [|done]. exists (set_nextpg h next). destruct Hn as [N0 N1 N2 N3 N4 N5 N6 N7].
    pose proof Ec as Es.
    split; cbn [pgno flags prevpg nextpg set_nextpg first_of]; try done; rewrite ?Es; try done.
    + by apply (Hp A' n h).
    + destruct N5 as [M1 M2 M3]. split; [|done|done]. by apply (holds_header _ h).
Qed.

Lemma last_of_elem prev A : A <> [] -> last_of prev A ∈ map fst A.
Proof.
  revert prev. induction A as [|n A IH]; intros prev Hne; [done|]. destruct A as [|m A]; [by left|]. right. exact (IH (fst n) ltac:(done)).
Qed.
Lemma first_of_elem B next : B <> [] -> first_of B next ∈ map fst B.
Proof. destruct B; [done|]. by left. Qed.

Lemma invalid_not_in t ns free : alloc t ns free -> P_INVALID ∉ ns.
Proof. intros Ha Hin. pose proof (alloc_in _ _ _ _ Ha Hin). unfold P_INVALID in *. lia. Qed.

Section remove.
Context (t : btree) (low : list level) (A : level) (pg : Z) (its : list item) (B : level) (up : list level) (free : list Z).
Context (Hl : laid t (low ++ (A ++ (pg, its) :: B) :: up) free).
Let prev := last_of P_INVALID A.
Let next := first_of B P_INVALID.
Let ns := numbers (low ++ (A ++ (pg, its) :: B) :: up).

Lemma level_numbers n : n ∈ map fst (A ++ (pg, its) :: B) -> n ∈ ns.
Proof using. intros Hn. unfold ns. rewrite numbers_mid, elem_of_app. by left. Qed.

(** The neighbours and the page are different pages. *)
Lemma neighbours :
  (prev = P_INVALID /\ A = [] \/ prev <> P_INVALID /\ prev ∈ ns /\ prev ∈ map fst A /\ prev <> pg /\ is_Some (pages (bt_mp t) !! prev)) /\
  (next = P_INVALID /\ B = [] \/ next <> P_INVALID /\ next ∈ ns /\ next ∈ map fst B /\ next <> pg /\ is_Some (pages (bt_mp t) !! next)) /\
  (A <> [] -> B <> [] -> prev <> next).
Proof using Hl.
  destruct (laid_fresh _ _ _ _ _ _ _ Hl) as (F1 & _ & _ & F4). cbn [fst] in F1. rewrite map_app, not_elem_of_app in F1. destruct F1 as [FA FB].
  pose proof (invalid_not_in _ _ _ (la_alloc _ _ _ Hl)) as Hinv. fold ns in Hinv.
  rewrite map_app in F4. apply NoDup_app in F4 as (_ & NAB & _).
  pose proof (laid_level _ _ _ _ _ Hl) as Hlv. unfold level_in in Hlv. apply seg_mid in Hlv as (SA & _ & SB).
  assert (Hpage : forall kind p X nx n, seg t kind p X nx -> n ∈ map fst X -> is_Some (pages (bt_mp t) !! n)).
  { intros kind p X. revert p. induction X as [|m X IH]; intros p nx n Hs Hn; [by apply not_elem_of_nil in Hn|].
    destruct Hs as [[h Hh] Hs]. cbn in Hn. apply elem_of_cons in Hn as [->|Hn]; [exists h; apply (ni_page _ _ _ _ _ _ Hh)|by eapply IH]. }
  split; [|split].
  - unfold prev. destruct (decide (A = [])) as [->|Hne]; [by left|right]. pose proof (last_of_elem P_INVALID A Hne) as Hin.
    assert (Hns : last_of P_INVALID A ∈ ns) by (apply level_numbers; rewrite map_app, elem_of_app; by left).
    split; [intros E; by rewrite E in Hns|]. split; [done|]. split; [done|]. split; [intros E; by rewrite E in Hin|]. eapply Hpage; [exact SA|exact Hin].
  - unfold next. destruct (decide (B = [])) as [->|Hne]; [by left|right]. pose proof (first_of_elem B P_INVALID Hne) as Hin.
    assert (Hns : first_of B P_INVALID ∈ ns) by (apply level_numbers; rewrite map_app, elem_of_app; right; by right).
    split; [intros E; by rewrite E in Hns|]. split; [done|]. split; [done|]. split; [intros E; by rewrite E in Hin|]. eapply Hpage; [exact SB|exact Hin].
  - intros HA HB E. pose proof (last_of_elem P_INVALID A HA) as H1. pose proof (first_of_elem B P_INVALID HB) as H2.
    apply (NAB _ H1). right. unfold prev, next in E. by rewrite E.
Qed.

(** Both neighbours get their new links. *)
Lemma relink_page : exists t2, __bt_relink t pg = Ret (RET_SUCCESS, t2) /\ alloc t2 ns free /\ keeps t t2 /\
  (bt_cursor t2 = bt_cursor t /\ bt_stack t2 = bt_stack t /\ npages (bt_mp t2) = npages (bt_mp t)) /\
  (forall n, n <> prev \/ prev = P_INVALID -> n <> next \/ next = P_INVALID -> pages (bt_mp t2) !! n = pages (bt_mp t) !! n) /\
  (forall h, prev <> P_INVALID -> pages (bt_mp t) !! prev = Some h -> pages (bt_mp t2) !! prev = Some (set_nextpg h next)) /\
  (forall h, next <> P_INVALID -> pages (bt_mp t) !! next = Some h -> pages (bt_mp t2) !! next = Some (set_prevpg h prev)).
Proof using Hl.
  destruct (laid_node _ _ _ _ _ _ _ Hl) as [h Hh]. pose proof (la_standard _ _ _ Hl) as Hst. pose proof (la_alloc _ _ _ Hl) as Ha. fold ns in Ha.
  pose proof (ni_page _ _ _ _ _ _ Hh) as Hp. cbn [fst] in Hp. destruct neighbours as (Hprev & Hnext & Hpn). fold prev next in Hh.
  unfold __bt_relink. rewrite (page_at_page t pg h) by done. cbn [mbind outcome_bind].
  rewrite (ni_prev _ _ _ _ _ _ Hh), (ni_next _ _ _ _ _ _ Hh).
  destruct (relink_spec t ns free next (fun n => set_prevpg n prev)) as (t1 & E1 & Ha1 & Hk1 & Hp1 & Hf1 & Ec1 & Es1 & En1);
    [done|done|destruct Hnext as [[? _]|(? & ? & _ & _ & ?)]; auto|]. rewrite E1. cbn [negb].
  assert (Hp1pg : pages (bt_mp t1) !! pg = Some h) by (rewrite Hp1; [done|destruct Hnext as [[? _]|(? & ? & _ & ? & ?)]; auto]).
  rewrite (page_at_page t1 pg h) by done. cbn [mbind outcome_bind]. rewrite (ni_prev _ _ _ _ _ _ Hh), (ni_next _ _ _ _ _ _ Hh).
  assert (Hapart : prev <> P_INVALID -> next <> P_INVALID -> prev <> next).
  { intros P1 P2. apply Hpn; intros E0; [destruct Hprev as [[? _]|(_ & _ & H & _)]|destruct Hnext as [[? _]|(_ & _ & H & _)]]; try done;
      rewrite E0 in H; by apply not_elem_of_nil in H. }
  destruct (relink_spec t1 ns free prev (fun p => set_nextpg p next)) as (t2 & E2 & Ha2 & Hk2 & Hp2 & Hf2 & Ec2 & Es2 & En2);
    [by apply (keeps_standard t)|done| |].
  { destruct Hprev as [[? _]|(? & ? & _ & _ & ?)]; [by left|right]. split; [done|]. rewrite Hp1; [done|].
    destruct (decide (next = P_INVALID)); [by right|left; auto]. }
  rewrite E2. exists t2. split; [done|]. split; [done|]. split; [by etrans|]. split; [split; [congruence|split; [congruence|lia]]|].
  split; [|split].
  - intros n H1 H2. by rewrite Hp2, Hp1.
  - intros hn H1 H2. apply Hf2; [done|]. rewrite Hp1; [done|]. destruct (decide (next = P_INVALID)); [by right|left; auto].
  - intros hn H1 H2. rewrite Hp2; [by apply Hf1|]. destruct (decide (prev = P_INVALID)); [by right|left]. intros E0. by apply Hapart.
Qed.

Lemma remove_page_spec :
  exists t', remove_page t pg = Ret (false, t') /\ laid t' (low ++ (A ++ B) :: up) (pg :: free) /\ keeps t t' /\
    bt_cursor t' = bt_cursor t /\ bt_stack t' = bt_stack t /\ npages (bt_mp t') = npages (bt_mp t).
Proof using Hl.
  destruct relink_page as (t2 & E2 & Ha2 & Hk2 & (Ec2 & Es2 & En2) & Hp2 & Hfp & Hfn). destruct neighbours as (Hprev & Hnext & Hpn).
  destruct (laid_node _ _ _ _ _ _ _ Hl) as [h Hh]. pose proof (la_standard _ _ _ Hl) as Hst. pose proof (ni_page _ _ _ _ _ _ Hh) as Hp. cbn [fst] in Hp.
  destruct (laid_fresh _ _ _ _ _ _ _ Hl) as (F1 & F2 & _ & F4). cbn [fst] in F1. rewrite map_app, not_elem_of_app in F1. destruct F1 as [FA FB].
  unfold remove_page. rewrite E2. cbn [mbind outcome_bind]. change (RET_FAILED RET_SUCCESS) with false. cbv iota.
  assert (Hp2pg : pages (bt_mp t2) !! pg = Some h).
  { rewrite Hp2; [done|destruct Hprev as [[? _]|(? & ? & _ & ? & ?)]; auto|destruct Hnext as [[? _]|(? & ? & _ & ? & ?)]; auto]. }
  apply (alloc_perm _ _ (pg :: numbers (low ++ (A ++ B) :: up))) in Ha2.
  2: { unfold ns. rewrite !numbers_mid, !map_app. cbn [map fst]. by rewrite <- Permutation_middle. }
  destruct (bt_free_spec t2 _ free pg h Ha2 Hp2pg (ni_pgno _ _ _ _ _ _ Hh)) as (t3 & E3 & Ha3 & Hag3 & Hk3 & Ec3 & Es3 & En3).
  rewrite E3. cbn [mbind outcome_bind]. exists t3. split; [done|]. assert (Hk : keeps t t3) by by etrans.
  split; [|split; [done|split; [congruence|split; [congruence|lia]]]]. split; [by apply (keeps_standard t)| |exact Ha3].
  (* the other levels, and this one *)
  assert (H2 : forall n, n ∈ numbers (low ++ (A ++ B) :: up) -> (n <> prev \/ prev = P_INVALID) -> (n <> next \/ next = P_INVALID) ->
    pages (bt_mp t3) !! n = pages (bt_mp t) !! n) by (intros n Hn Hnp Hnn; rewrite (proj2 Hag3) by done; by apply Hp2).
  assert (HsubX : forall n, n ∈ map fst (A ++ B) -> n ∈ numbers (low ++ (A ++ B) :: up)) by (intros n Hn; rewrite numbers_mid, elem_of_app; by left).
  assert (NotP : forall n, n ∉ map fst A -> n <> prev \/ prev = P_INVALID).
  { intros n Hn. destruct Hprev as [[? _]|(_ & _ & HinA & _)]; [by right|left]. by intros ->. }
  assert (NotN : forall n, n ∉ map fst B -> n <> next \/ next = P_INVALID).
  { intros n Hn. destruct Hnext as [[? _]|(_ & _ & HinB & _)]; [by right|left]. by intros ->. }
  pose proof (laid_level _ _ _ _ _ Hl) as Hlv. unfold level_in in Hlv. apply seg_mid in Hlv as (SA & _ & SB). cbn [fst] in SA, SB.
  rewrite map_app in F4. apply NoDup_app in F4 as (NA & NAB & NB). cbn [map fst] in NAB, NB. inversion NB as [|? ? _ NB']; subst.
  assert (NAB' : forall m, m ∈ map fst A -> m ∉ map fst B) by (intros m Hm HmB; apply (NAB m Hm); by right).
  eapply levels_replace; [apply (la_levels _ _ _ Hl)| |].
  - split; [by apply keeps_psize|]. intros n Hn. specialize (F2 n Hn). rewrite map_app, not_elem_of_app in F2. destruct F2 as [G1 G2]. cbn [map fst] in G2.
    apply H2; [rewrite numbers_mid, elem_of_app; by right|by apply NotP|apply NotN; intros G; apply G2; by right].
  - unfold level_in. apply seg_app. fold prev next. split.
    + apply (seg_relink_left t t3 _ _ A pg next SA NA (keeps_psize _ _ Hk)).
      * intros A' n hn EA Hn. assert (Ep : prev = fst n) by (unfold prev; by rewrite EA, last_of_app).
        destruct Hprev as [[_ Hnil]|(P1 & _ & HinA & _)]; [by rewrite Hnil in EA; destruct A'|].
        rewrite (proj2 Hag3) by (apply HsubX; rewrite map_app, elem_of_app; left; by rewrite <- Ep). rewrite <- Ep in *. by apply Hfp.
      * intros A' n m EA Hm. assert (HmA : m ∈ map fst A) by (rewrite EA, map_app, elem_of_app; by left).
        apply H2; [apply HsubX; rewrite map_app, elem_of_app; by left| |by apply NotN, NAB'].
        left. intros ->. unfold prev in Hm. rewrite EA, last_of_app in Hm. cbn in Hm. rewrite EA, map_app in NA.
        apply NoDup_app in NA as (_ & NA & _). apply (NA (fst n) Hm). by left.
    + eapply (seg_relink t); [exact SB|done| |].
      * split; [by apply keeps_psize|]. intros n Hn. destruct B as [|m B'] eqn:EB; [by apply not_elem_of_nil in Hn|]. cbn in Hn, NB'.
        inversion NB' as [|? ? N1 N2]; subst. apply H2; [apply HsubX; rewrite map_app, elem_of_app; right; by right| |left; by intros ->].
        apply NotP. intros HA. apply (NAB' n HA). by right.
      * intros n B' hn EB Hn. destruct Hnext as [[_ Hnil]|(P1 & _ & HinB & _)]; [by rewrite Hnil in EB|].
        assert (En : next = fst n) by (unfold next; by rewrite EB). rewrite <- En in *.
        rewrite (proj2 Hag3) by (apply HsubX; rewrite map_app, elem_of_app; by right). by apply Hfn.
Qed.
End remove.

(** ** The entries for a page that goes *)

(** What becomes of the levels above when the child at a position goes: its entry goes, and the
    page of the entry when it is the only one. *)
Inductive drops : nat -> list level -> list level -> Prop :=
  | drop_entry U1 q e1 x e2 U2 up : e1 ++ e2 <> [] ->
      drops (length (children U1) + length e1) ((U1 ++ (q, e1 ++ x :: e2) :: U2) :: up) ((U1 ++ (q, e1 ++ e2) :: U2) :: up)
  | drop_page U1 q x U2 up up' : drops (length U1) up up' ->
      drops (length (children U1)) ((U1 ++ (q, [x]) :: U2) :: up) ((U1 ++ U2) :: up').

(** Levels of one page with one entry. *)
Definition single (U : level) : Prop := exists q x, U = [(q, [x])].

(** The root is an empty leaf. *)
Record emptied (t : btree) (low : list level) (free : list Z) : Prop := {
  em_standard : standard t;
  em_below : below t low;
  em_root : filled t P_BLEAF P_ROOT P_INVALID P_INVALID [];
  em_alloc : alloc t (numbers low ++ [P_ROOT]) free;
}.

Lemma empty_root_has h psize : 512 <= psize < 2 ^ 16 -> has psize (empty_root h psize) [].
Proof.
  intros Hs. assert (U : u16 psize = psize) by (apply u16_id; lia). split; [|done|change (20 <= u16 psize); lia].
  split; [done| |cbn; rewrite U; lia]. exists []. cbn. by rewrite U.
Qed.

Lemma single_below X V up : linked (X :: V :: up) -> single V -> exists n, X = [n].
Proof.
  intros [H _] (q & x & ->). cbn in H. destruct X as [|n [|m X]]; [done|by exists n|done].
Qed.

Lemma inner_kind low : low <> [] -> kind_at low = P_BINTERNAL.
Proof. by destruct low. Qed.

(** One turn of the loop, with the page of the entry. *)
Section turn.
Context (t : btree) (low : list level) (U1 : level) (ppg : Z) (e1 : list item) (x : item) (e2 : list item) (U2 : level).
Context (up : list level) (free : list Z) (stack : list (Z * Z)).
Context (Hl : laid t (low ++ (U1 ++ (ppg, e1 ++ x :: e2) :: U2) :: up) free) (Hlow : low <> []).

Lemma pdelete_turn :
  exists h, pages (bt_mp t) !! ppg = Some h /\ pgno h = ppg /\
  let t0 := set_stack t stack in laid t0 (low ++ (U1 ++ (ppg, e1 ++ x :: e2) :: U2) :: up) free /\
  pdelete_loop ((ppg, zlen e1) :: stack) t =
    if bool_decide (e1 ++ e2 = []) then
      if ppg =? P_ROOT then Ret (RET_SUCCESS, store t0 ppg (empty_root h (psize t)))
      else '(failed, t) ← remove_page t0 ppg; if failed : bool then Ret (RET_ERROR, t) else pdelete_loop stack t
    else Ret (RET_SUCCESS, store t0 ppg (pack h (zlen e1) (size x))).
Proof using All.
  destruct (laid_node _ _ _ _ _ _ _ Hl) as [h Hh]. rewrite (inner_kind low Hlow) in Hh. pose proof (la_standard _ _ _ Hl) as Hst.
  destruct (laid_fresh _ _ _ _ _ _ _ Hl) as (_ & _ & Hr & _). cbn [fst] in Hr. pose proof (st_size _ Hst) as Hps.
  pose proof (ni_page _ _ _ _ _ _ Hh) as Hp. cbn [fst] in Hp. exists h. split; [done|]. split; [exact (ni_pgno _ _ _ _ _ _ Hh)|].
  set (t0 := set_stack t stack). assert (Hk0 : keeps t t0) by by split. split; [by apply (laid_same t)|].
  cbn [pdelete_loop]. fold t0. rewrite (mpool_get_page t0 (keeps_standard _ _ Hk0 Hst) ppg h Hp) by (cbn; lia).
  assert (Hx : (e1 ++ x :: e2) !! Z.to_nat (zlen e1) = Some x) by (unfold zlen; rewrite Nat2Z.id; by apply list_lookup_middle).
  destruct (node_item t Hst _ _ _ _ _ Hh (zlen e1) x Hx (zlen_nonneg e1)) as (Ex & Hix & _).
  unfold GETBINTERNAL. rewrite Ex. destruct x as [p f k|f k d|]; [|by destruct Hix|done]. destruct Hix as [_ ->].
  cbn [mbind outcome_bind]. change (is_set 0 P_BIGKEY) with false. unfold free_overflow. cbn [mbind outcome_bind].
  change (RET_SUCCESS =? RET_ERROR) with false. cbv iota. pose proof (ni_has _ _ _ _ _ _ Hh) as Hh'. cbn [snd] in Hh'.
  rewrite (has_next (psize t) h _ Hh') by lia. rewrite (ni_pgno _ _ _ _ _ _ Hh). cbn [fst]. change (psize t0) with (psize t).
  pose proof (zlen_nonneg e1). pose proof (zlen_nonneg e2).
  destruct (bool_decide_reflect (e1 ++ e2 = [])) as [E|E].
  - apply app_eq_nil in E as [-> ->]. done.
  - rewrite (proj2 (Z.eqb_neq _ _)); [done|]. rewrite zlen_app, zlen_cons. destruct e1; [destruct e2; [done|]|]; rewrite zlen_cons in *; pose proof (zlen_nonneg l); lia.
Qed.
End turn.

Lemma pdelete_loop_spec up : forall t low X p stack free,
  laid t (low ++ up) free -> low <> [] -> linked (X :: up) -> up <> [] -> path p (X :: up) stack ->
  exists t', pdelete_loop stack t = Ret (RET_SUCCESS, t') /\ keeps t t' /\ npages (bt_mp t') = npages (bt_mp t) /\
    ((exists up' free', laid t' (low ++ up') free' /\ drops p up up') \/
     (exists free', Forall single up /\ emptied t' low free')).
Proof.
  induction up as [|U up IH]; intros t low X p stack free Hl Hlow Hlk Hup Hpath; [done|].
  destruct (path_split _ _ _ _ _ Hpath) as (U1 & ppg & e1 & x & e2 & U2 & stack' & EU & -> & Hp & Hpath'). rewrite EU in *.
  destruct (pdelete_turn t low U1 ppg e1 x e2 U2 up free stack' Hl Hlow) as (h & Hpg & Hno & Hl0 & E). rewrite E. clear E.
  set (t0 := set_stack t stack') in *. assert (Hk0 : keeps t t0) by by split. destruct Hlk as [Hch Hlk].
  pose proof (st_size _ (la_standard _ _ _ Hl)) as Hps.
  destruct (bool_decide_reflect (e1 ++ e2 = [])) as [Ee|Ee].
  - apply app_eq_nil in Ee as [-> ->]. cbn [app] in *. destruct up as [|V up].
    + destruct (root_alone U1 (ppg, [x]) U2 [] Hlk) as (E1 & E2 & E3). cbn [fst] in E3. rewrite E1, E2, E3 in *.
      change (P_ROOT =? P_ROOT) with true. cbv iota. eexists. split; [reflexivity|]. split; [by split|]. split; [done|].
      right. exists free. split; [constructor; [|done]; by exists P_ROOT, x|].
      destruct (laid_node _ _ _ _ _ _ _ Hl) as [h0 Hh]. pose proof (ni_page _ _ _ _ _ _ Hh) as Hp0. cbn [fst] in Hp0.
      assert (h0 = h) as -> by congruence. destruct (laid_fresh _ _ _ _ _ _ _ Hl0) as (_ & F2 & _ & _).
      pose proof (la_levels _ _ _ Hl0) as Hlv. apply levels_mid in Hlv as (Hlv & _ & _). pose proof (la_alloc _ _ _ Hl0) as Hal.
      rewrite numbers_app in Hal. split.
      * apply (keeps_standard t0); [by split|apply (la_standard _ _ _ Hl0)].
      * eapply below_agree; [|exact Hlv]. apply agree_store. intros Hin. apply (F2 P_ROOT); [rewrite app_nil_r; done|]. by left.
      * eapply (filled_by t); [by split|apply page_store| |by apply empty_root_has|by constructor|by constructor].
        cbn. rewrite Hno, (ni_prev _ _ _ _ _ _ Hh), (ni_next _ _ _ _ _ _ Hh). done.
      * apply alloc_store; [rewrite elem_of_app; right; by left|exact Hal].
    + assert (Hpp : (ppg =? P_ROOT) = false).
      { apply Z.eqb_neq. destruct Hlk as [_ Hlk]. exact (not_root _ _ _ (ppg, [x]) _ _ _ _ Hl Hlk). }
      rewrite Hpp. destruct (remove_page_spec t0 low U1 ppg [x] U2 (V :: up) free Hl0) as (t1 & E1 & Hl1 & Hk1 & _ & _ & En1).
      rewrite E1. cbn [mbind outcome_bind].
      assert (EX : low ++ (U1 ++ U2) :: V :: up = (low ++ [U1 ++ U2]) ++ V :: up) by by rewrite <- app_assoc.
      rewrite EX in Hl1. assert (Hk : keeps t t1) by by etrans.
      destruct (IH t1 (low ++ [U1 ++ U2]) (U1 ++ (ppg, [x]) :: U2) (length U1) stack' _ Hl1 ltac:(by destruct low) Hlk ltac:(done) Hpath')
        as (t' & E2 & Hk2 & En2 & Hr). rewrite E2. exists t'. split; [done|]. split; [by etrans|]. split; [by rewrite En2|].
      destruct Hr as [(up' & free' & Hl' & Hd)|(free' & Hsg & He)].
      * left. exists ((U1 ++ U2) :: up'), free'. rewrite <- app_assoc in Hl'. split; [exact Hl'|].
        rewrite Hp. cbn [length]. rewrite Nat.add_0_r. by apply drop_page.
      * right. exists free'. pose proof (proj1 (proj1 (Forall_cons _ _ _) Hsg)) as HV. destruct (single_below _ _ _ Hlk HV) as [n En].
        destruct U1 as [|m U1]; [|by destruct U1]. injection En as _ E0. rewrite E0 in *. split; [constructor; [by exists ppg, x|exact Hsg]|].
        destruct He as [He1 He2 He3 He4]. split; [done| |done|].
        -- destruct low as [|L0 low]; [done|]. destruct He2 as [? He2]. split; [done|]. by apply Forall_app in He2 as [? _].
        -- rewrite numbers_app in He4. cbn in He4. by rewrite app_nil_r in He4.
  - eexists. split; [reflexivity|]. split; [by split|]. split; [done|]. left. eexists _, free. split; [|rewrite Hp; by apply drop_entry].
    destruct (laid_node _ _ _ _ _ _ _ Hl0) as [h0 Hh]. pose proof Hh as [N0 N1 N2 N3 N4 N5 N6 N7]. cbn [fst snd] in *.
    assert (h0 = h) as -> by (change (pages (bt_mp t0)) with (pages (bt_mp t)) in N0; congruence).
    apply (laid_store t0 low U1 ppg (e1 ++ x :: e2) _ U2 up free h _ Hl0); [done|apply pack_header|apply pack_has; [done|change (psize t0) with (psize t); lia]|..].
    + apply Forall_app in N6 as [? N6]. inversion N6; subst. by apply Forall_app.
    + apply Forall_app in N7 as [? N7]. inversion N7; subst. by apply Forall_app.
Qed.

(** ** The shape without the page *)

(** The bounds without that of a page: the next page may get it. *)
Definition dropped (p : nat) (C C' : list bound) : Prop :=
  exists C1 c C2, length C1 = p /\ C = C1 ++ c :: C2 /\
    (C' = C1 ++ C2 \/ exists d C3, C2 = d :: C3 /\ C' = C1 ++ c :: C3).

Lemma dropped_sublist p C C' : dropped p C C' -> sublist C' C.
Proof.
  intros (C1 & c & C2 & _ & -> & [->|(d & C3 & -> & ->)]); apply sublist_app; try done.
  - by apply sublist_cons.
  - by apply sublist_skip, sublist_cons.
Qed.

Lemma bounds_drop_entry U1 q e1 x e2 U2 B1 b B2 :
  Forall not_empty U1 -> length U1 = length B1 -> e1 ++ e2 <> [] ->
  dropped (length (children U1) + length e1) (bounds (U1 ++ (q, e1 ++ x :: e2) :: U2) (B1 ++ b :: B2))
    (bounds (U1 ++ (q, e1 ++ e2) :: U2) (B1 ++ b :: B2)).
Proof.
  intros Hne Hl He. pose proof (length_bounds _ _ Hne Hl) as HB. rewrite !bounds_app by done. cbn [bounds snd].
  destruct e1 as [|e e1].
  - destruct e2 as [|y e2]; [done|]. cbn [app tail map].
    exists (bounds U1 B1), b, (Some (ikey y) :: map (fun z => Some (ikey z)) e2 ++ bounds U2 B2).
    split; [by rewrite HB, Nat.add_0_r|]. split; [done|]. right. by eexists _, _.
  - exists (bounds U1 B1 ++ b :: map (fun z => Some (ikey z)) e1), (Some (ikey x)), (map (fun z => Some (ikey z)) e2 ++ bounds U2 B2).
    cbn [app tail]. rewrite !map_app. cbn [map]. rewrite <- !(app_assoc (bounds U1 B1)). cbn [app]. rewrite <- !(app_assoc (map _ e1)).
    split; [rewrite length_app, HB; cbn; by rewrite length_map|]. split; [done|by left].
Qed.

Lemma bounds_drop_page U1 q x U2 C C' :
  Forall not_empty U1 -> dropped (length U1) C C' -> length C = length (U1 ++ (q, [x]) :: U2) ->
  dropped (length (children U1)) (bounds (U1 ++ (q, [x]) :: U2) C) (bounds (U1 ++ U2) C').
Proof.
  intros Hne (C1 & c & C2 & Hl & -> & HC') Hlen. pose proof (length_bounds U1 C1 Hne (eq_sym Hl)) as HB.
  rewrite bounds_app by done. cbn [bounds snd tail map]. rewrite !length_app in Hlen. cbn in Hlen.
  exists (bounds U1 C1), c, (bounds U2 C2). split; [done|]. split; [done|]. destruct HC' as [->|(d & C3 & -> & ->)].
  - left. by rewrite bounds_app.
  - right. destruct U2 as [|n U2]; [cbn in Hlen; lia|]. rewrite bounds_app by done. cbn [bounds app]. by eexists _, _.
Qed.

Lemma drops_bounds p up up' :
  drops p up up' -> linked up -> Forall (Forall not_empty) up -> dropped p (lower_bounds up) (lower_bounds up').
Proof.
  induction 1 as [U1 q e1 x e2 U2 up He|U1 q x U2 up up' Hd IH]; intros Hlk Hne; cbn [lower_bounds foldr]; fold (lower_bounds up).
  - inversion Hne as [|? ? H1 H2]; subst. apply Forall_app in H1 as [H1 _].
    destruct (split_like _ _ _ _ (length_lower_bounds _ _ Hlk H2)) as (B1 & b & B2 & -> & HB1 & _). by apply bounds_drop_entry.
  - fold (lower_bounds up'). inversion Hne as [|? ? H1 H2]; subst. apply Forall_app in H1 as [H1 _].
    apply bounds_drop_page; [done| |by apply length_lower_bounds]. apply IH; [|done]. destruct up; [by inversion Hd|by destruct Hlk].
Qed.

Lemma drops_linked p up up' : drops p up up' -> forall A m B, length A = p ->
  linked ((A ++ m :: B) :: up) -> linked ((A ++ B) :: up').
Proof.
  assert (Hch : forall U1 q e1 x e2 U2 A (m : node) B, length A = (length (children U1) + length e1)%nat ->
    children (U1 ++ (q, e1 ++ x :: e2) :: U2) = map fst (A ++ m :: B) ->
    children (U1 ++ (q, e1 ++ e2) :: U2) = map fst (A ++ B)).
  { intros U1 q e1 x e2 U2 A m B HA. rewrite !children_app, !children_cons. cbn [snd]. rewrite !map_app. cbn [map].
    rewrite <- !app_assoc. cbn [app]. rewrite !(app_assoc (children U1)). intros E.
    apply app_inj_1 in E as [-> E]; [|by rewrite length_app, !length_map]. by injection E as _ ->. }
  induction 1 as [U1 q e1 x e2 U2 up He|U1 q x U2 up up' Hd IH]; intros A m B HA [Hc Hlk].
  - split; [by apply (Hch U1 q e1 x e2 U2 A m B)|]. revert Hlk. apply linked_head. by rewrite !map_app.
  - split; [|by apply (IH U1 (q, [x]) U2)]. rewrite children_app.
    pose proof (Hch U1 q [] x [] U2 A m B ltac:(cbn; lia) Hc) as E. rewrite children_app, children_cons in E. exact E.
Qed.

Lemma drops_filled p up up' : drops p up up' -> Forall (Forall not_empty) up -> Forall (Forall not_empty) up' /\ up' <> [].
Proof.
  induction 1 as [U1 q e1 x e2 U2 up He|U1 q x U2 up up' Hd IH]; intros Hne; inversion Hne as [|? ? H1 H2]; subst;
    apply Forall_app in H1 as [H1 H3]; inversion H3; subst; (split; [|done]); constructor.
  - apply Forall_app. split; [done|by constructor].
  - done.
  - by apply Forall_app.
  - by apply IH.
Qed.

Lemma leaves_dropped A m B C C' :
  dropped (length A) C C' -> bsorted C -> leaves_in C (A ++ m :: B) [] -> leaves_in C' (A ++ B) [].
Proof.
  intros (C1 & c & C2 & Hl & -> & HC') Hs H. apply leaves_in_app in H as [H1 [_ H2]]; [|done].
  apply sorted_app in Hs as (_ & Hs & _). inversion Hs as [|? ? _ F]; subst. rewrite app_nil_r in H1.
  destruct HC' as [->|(d & C3 & -> & ->)].
  - apply leaves_in_app; [done|]. split; [|done]. rewrite app_nil_r. clear -H1 F. revert C1 H1.
    induction A as [|n A IH]; intros [|b C1] H1; try done. destruct H1 as [[K1 K2] H1]. split; [|by apply IH].
    split; [done|]. eapply Forall_impl; [exact K2|]. intros x [Hx Hb]. split; [done|].
    destruct C1 as [|b1 C1]; [|exact Hb]. cbn in Hb. destruct F as [|d C2 Hd _]; [done|]. exact (blt_trans (Some (ikey x)) c d Hb Hd).
  - apply leaves_in_app; [done|]. split; [rewrite app_nil_r; by eapply leaves_in_next|]. destruct B as [|n B]; [done|]. destruct H2 as [[K1 K2] H2].
    split; [|done]. split; [done|]. eapply Forall_impl; [exact K2|]. intros x [Hx Hb]. split; [|done].
    inversion F as [|? ? Hd _]; subst. by apply (from_blt c d).
Qed.

Lemma shape_drop A m B up up' : shape ((A ++ m :: B) :: up) -> drops (length A) up up' -> shape ((A ++ B) :: up').
Proof.
  intros [Lk Fi So Ke] Hd. cbn [tail hd] in *. assert (Hup : up <> []) by (by destruct Hd).
  specialize (Fi Hup). inversion Fi as [|? ? F1 F2]; subst.
  assert (Hlk : linked up) by (destruct up; [done|]; by destruct Lk).
  pose proof (drops_bounds _ _ _ Hd Hlk F2) as Hdr. destruct (drops_filled _ _ _ Hd F2) as [F2' _]. split; cbn [tail hd].
  - by apply (drops_linked _ _ _ Hd A m B).
  - intros _. constructor; [|done]. apply Forall_app in F1 as [? F1]. inversion F1; subst. by apply Forall_app.
  - apply (sorted_sublist blt _ (lower_bounds up)); [by apply dropped_sublist in Hdr|done].
  - by apply (leaves_dropped A m B (lower_bounds up)).
Qed.

Lemma shape_empty : shape [[(P_ROOT, [])]].
Proof. split; [done|done|by repeat constructor|]. cbn. split; [|done]. by split; constructor. Qed.

(** ** __bt_pdelete *)

Lemma drops_length p up up' : drops p up up' -> length up' = length up.
Proof. induction 1 as [|? ? ? ? ? ? ? IH]; cbn; [done|]. by rewrite IH. Qed.

(** A page that is alone on its level. *)
Lemma remove_alone t ns free pg h :
  alloc t (pg :: ns) free -> pages (bt_mp t) !! pg = Some h -> pgno h = pg -> prevpg h = P_INVALID -> nextpg h = P_INVALID ->
  exists t', remove_page t pg = Ret (false, t') /\ alloc t' ns (pg :: free) /\ agree t t' ns /\ keeps t t' /\
    npages (bt_mp t') = npages (bt_mp t).
Proof.
  intros Ha Hp Hn H1 H2. destruct (bt_free_spec t ns free pg h Ha Hp Hn) as (t' & E & Ha' & Hag & Hk & _ & _ & En).
  exists t'. split; [|done]. unfold remove_page, __bt_relink. rewrite (page_at_page t pg h) by done. cbn [mbind outcome_bind].
  rewrite H2. unfold relink_one at 1. change (P_INVALID =? P_INVALID) with true. cbv iota. cbn [negb].
  rewrite (page_at_page t pg h) by done. cbn [mbind outcome_bind]. rewrite H1. unfold relink_one.
  change (P_INVALID =? P_INVALID) with true. cbn [mbind outcome_bind]. change (RET_FAILED RET_SUCCESS) with false.
  cbv iota. by rewrite E.
Qed.

Lemma pdelete_spec t L1 pg x L2 up free :
  laid t ((L1 ++ (pg, []) :: L2) :: up) free -> shape ((L1 ++ (pg, [x]) :: L2) :: up) ->
  path (length L1) ((L1 ++ (pg, [x]) :: L2) :: up) (bt_stack t) ->
  exists t' L' up' free', __bt_pdelete t pg = Ret (RET_SUCCESS, t') /\ laid t' (L' :: up') free' /\ shape (L' :: up') /\
    items_of L' = items_of (L1 ++ L2) /\ keeps t t' /\ npages (bt_mp t') = npages (bt_mp t) /\ (length up' <= length up)%nat.
Proof.
  intros Hl Hsh Hpath. unfold __bt_pdelete. destruct up as [|U up].
  - destruct (root_alone L1 _ L2 [] (sh_linked _ Hsh)) as (-> & -> & E). cbn [fst] in E. rewrite E in *.
    apply last_path in Hpath as [-> _]. cbn [pdelete_loop mbind outcome_bind]. change (RET_FAILED RET_SUCCESS) with false. cbv iota.
    destruct (laid_node t [] [] _ [] _ _ Hl) as [h Hh]. set (t1 := set_stack t []).
    rewrite (page_at_page t1 P_ROOT h) by exact (ni_page _ _ _ _ _ _ Hh). cbn [mbind outcome_bind].
    rewrite (ni_pgno _ _ _ _ _ _ Hh). change (fst (P_ROOT, []) =? P_ROOT) with true. cbv iota.
    assert (Hk : keeps t t1) by by split. exists t1, [(P_ROOT, [])], [], free. split; [done|]. split; [by apply (laid_same t)|].
    split; [exact shape_empty|]. by repeat (split; [done|]).
  - pose proof (linked_head (L1 ++ (pg, [x]) :: L2) (L1 ++ (pg, []) :: L2) (U :: up) ltac:(by rewrite !map_app) (sh_linked _ Hsh)) as Hlk.
    destruct (sh_linked _ Hsh) as [_ LkU]. pose proof (not_root t [] L1 _ L2 U up free Hl LkU) as Hpg. cbn [fst] in Hpg.
    destruct (pdelete_loop_spec (U :: up) t [L1 ++ (pg, []) :: L2] _ _ (bt_stack t) free Hl ltac:(done) Hlk ltac:(done) Hpath)
      as (t1 & E1 & Hk1 & En1 & Hcase). rewrite E1. cbn [mbind outcome_bind]. change (RET_FAILED RET_SUCCESS) with false. cbv iota.
    destruct Hcase as [(up' & free' & Hl1 & Hd)|(free' & Hsg & [Hst Hbel Hroot Hal])].
    + destruct (laid_node t1 [] L1 _ L2 _ _ Hl1) as [h Hh].
      rewrite (page_at_page t1 pg h) by exact (ni_page _ _ _ _ _ _ Hh). cbn [mbind outcome_bind].
      rewrite (ni_pgno _ _ _ _ _ _ Hh). cbn [fst]. rewrite (proj2 (Z.eqb_neq _ _) Hpg).
      destruct (remove_page_spec t1 [] L1 pg [] L2 up' free' Hl1) as (t2 & E2 & Hl2 & Hk2 & _ & _ & En2). rewrite E2.
      cbn [mbind outcome_bind]. exists t2, (L1 ++ L2), up', (pg :: free'). split; [done|]. split; [exact Hl2|].
      split; [by apply (shape_drop L1 (pg, [x]) L2 (U :: up))|]. split; [done|]. split; [by etrans|]. split; [lia|].
      by rewrite (drops_length _ _ _ Hd).
    + inversion Hsg as [|? ? HU _]; subst. destruct (single_below _ _ _ Hlk HU) as [n En].
      destruct L1 as [|m L1]; [|by destruct L1]. injection En as _ ->. destruct Hbel as [[[h Hh] _] _].
      pose proof (ni_page _ _ _ _ _ _ Hh) as Hp. cbn [fst] in Hp.
      rewrite (page_at_page t1 pg h) by done. cbn [mbind outcome_bind]. rewrite (ni_pgno _ _ _ _ _ _ Hh). cbn [fst].
      rewrite (proj2 (Z.eqb_neq _ _) Hpg).
      destruct (remove_alone t1 [P_ROOT] free' pg h Hal Hp (ni_pgno _ _ _ _ _ _ Hh) (ni_prev _ _ _ _ _ _ Hh) (ni_next _ _ _ _ _ _ Hh))
        as (t2 & E2 & Hal2 & Hag2 & Hk2 & En2). rewrite E2. cbn [mbind outcome_bind].
      exists t2, [(P_ROOT, [])], [], (pg :: free'). split; [done|]. split; [split|].
      * by apply (keeps_standard t1).
      * destruct (filled_node _ _ _ _ _ _ Hroot) as [hr Hr]. split; [|constructor]. split; [|done]. exists hr.
        eapply node_agree; [|exact Hr]. exact Hag2.
      * exact Hal2.
      * split; [exact shape_empty|]. split; [done|]. split; [by etrans|]. split; [lia|cbn; lia].
Qed.

(** ** __bt_delete *)

Lemma kv_delete_skip k l : Forall (fun x => ikey x <> k) l -> Samdb.kv_delete k (map record_of l) = map record_of l.
Proof. induction 1 as [|x l Hx _ IH]; [done|]. cbn. rewrite decide_False by congruence. by rewrite IH. Qed.

Lemma kv_delete_at k l x r : Forall (fun x => ikey x <> k) l -> ikey x = k -> Forall (fun x => ikey x <> k) r ->
  Samdb.kv_delete k (map record_of (l ++ x :: r)) = map record_of (l ++ r).
Proof.
  intros Hl Hx Hr. induction Hl as [|y l Hy _ IH]; cbn.
  - rewrite decide_True by done. by apply kv_delete_skip.
  - rewrite decide_False by congruence. by rewrite IH.
Qed.

Section delete.
Context (t : btree) (L : level) (up : list level) (free : list Z) (Ht : tree t L up free) (Hw : writable t).

(** What a deletion leaves. *)
Definition taken_from (rs : Samdb.records) (run : outcome (Z * btree)) : Prop :=
  exists t' L' up' free', run = Ret (RET_SUCCESS, t') /\ tree t' L' up' free' /\ writable t' /\ (cfg t' = cfg t /\ panicked t' = panicked t) /\
    contents L' = rs /\ npages (bt_mp t') = npages (bt_mp t) /\ (length up' <= length up)%nat.

Lemma taken t' L' up' free' rs :
  laid t' (L' :: up') free' -> shape (L' :: up') -> keeps t t' -> contents L' = rs -> npages (bt_mp t') = npages (bt_mp t) ->
  (length up' <= length up)%nat -> taken_from rs (Ret (RET_SUCCESS, modified t')).
Proof using Hw.
  intros Hl Hsh Hk Hc Hn Hu. exists (modified t'), L', up', free'. split; [done|].
  assert (Hf : forall f, f = B_NODUPS \/ f = B_RDONLY -> is_set (bt_flags (modified t')) f = is_set (bt_flags t) f).
  { intros f Hf. rewrite modified_flags by done. by rewrite (kp_flags _ _ Hk). }
  split; [|split; [unfold writable; by rewrite Hf by auto|split; [split; apply Hk|by split]]].
  apply tree_shape. split; [|done]. apply (laid_pages t'); [done..| |done]. rewrite Hf by auto.
  rewrite <- (kp_flags _ _ Hk). apply (st_nodups _ (la_standard _ _ _ Hl)).
Qed.

(** The record is off its leaf, which has others, or goes with it. *)
Section off.
Context (t2 : btree) (L1 : level) (pg : Z) (a : list item) (x : item) (c : list item) (L2 : level).
Context (EL : L = L1 ++ (pg, a ++ x :: c) :: L2) (Hl2 : laid t2 ((L1 ++ (pg, a ++ c) :: L2) :: up) free).
Context (Hk2 : keeps t t2) (Hn2 : npages (bt_mp t2) = npages (bt_mp t)).
Let others : Samdb.records := map record_of ((items_of L1 ++ a) ++ (c ++ items_of L2)).

Lemma taken_leaf : a ++ c <> [] -> taken_from others (Ret (RET_SUCCESS, modified t2)).
Proof using All.
  intros Hne. pose proof (length_lower_bounds _ _ (tr_linked _ _ _ _ Ht) (tr_inner _ _ _ _ Ht)) as Hlb. rewrite EL in Hlb.
  destruct (split_like L1 L2 (pg, a ++ x :: c) (lower_bounds up) Hlb) as (B1 & b & B2 & EB & H1 & _).
  destruct (proj1 (tree_shape _ _ _ _) Ht) as [_ Hsh]. rewrite EL in Hsh.
  apply (taken t2 (L1 ++ (pg, a ++ c) :: L2) up free); [done| |done| |done|done].
  - apply (shape_leaf L1 pg (a ++ x :: c) _ L2 up B1 b B2 Hsh EB H1); [|by intros _].
    eapply keys_in_sub; [|exact (leaf_keys t L up free Ht L1 _ L2 B1 b B2 EL EB H1)]. apply sublist_app; [done|by apply sublist_cons].
  - unfold contents, others. rewrite items_of_app, items_of_cons. cbn [snd]. by rewrite <- !app_assoc.
Qed.

Lemma taken_page : a ++ c = [] -> path (length L1) (L :: up) (bt_stack t2) ->
  exists t3, __bt_pdelete t2 pg = Ret (RET_SUCCESS, t3) /\ taken_from others (Ret (RET_SUCCESS, modified t3)).
Proof using All.
  intros E Hpath. destruct (proj1 (tree_shape _ _ _ _) Ht) as [_ Hsh]. rewrite EL in Hsh, Hpath. unfold others.
  rewrite E in Hl2. apply app_eq_nil in E as [-> ->]. cbn [app] in *.
  destruct (pdelete_spec t2 L1 pg x L2 up free Hl2 Hsh Hpath) as (t3 & L' & up' & free' & E3 & Hl3 & Hsh3 & Ei & Hk3 & En3 & Hu3).
  exists t3. split; [done|]. apply (taken t3 L' up' free'); [done|done|by etrans| |by rewrite En3|done].
  unfold contents. rewrite Ei, items_of_app, app_nil_r. done.
Qed.
End off.

(** The search has found the record. *)
Lemma delete_found fuel s k L1 pg a x c L2 :
  (0 < fuel)%nat -> located L up k L1 (pg, a ++ x :: c) L2 s -> ikey x = k ->
  Forall (fun x => klt (ikey x) k) a -> Forall (fun x => klt k (ikey x)) c ->
  taken_from (Samdb.kv_delete k (contents L))
    ('(status, t) ← delete_forward fuel (set_stack t s) k pg (zlen a);
     match status with Some status => Ret (status, if status =? RET_SUCCESS then modified t else t) | None => Fault end).
Proof using All.
  intros Hf Hloc Hx Ha Hc. destruct (proj1 (tree_shape _ _ _ _) Ht) as [Hl _]. pose proof (lo_level _ _ _ _ _ _ _ Hloc) as EL.
  destruct (located_keys t L up free Ht k L1 _ L2 s Hloc) as [K1 K2].
  assert (Ec : Samdb.kv_delete k (contents L) = map record_of ((items_of L1 ++ a) ++ (c ++ items_of L2))).
  { unfold contents. rewrite EL, items_of_app, items_of_cons. cbn [snd]. rewrite <- app_assoc. cbn [app]. rewrite (app_assoc (items_of L1)).
    apply kv_delete_at; [apply Forall_ne; left; by apply Forall_app|done|apply Forall_ne; right; by apply Forall_app]. }
  rewrite Ec. rewrite EL in Hl. set (t0 := set_stack t s). assert (Hk0 : keeps t t0) by by split.
  pose proof (laid_same t t0 _ _ eq_refl eq_refl Hk0 Hl) as Hl0.
  destruct (dleaf_spec t0 L1 pg a x c L2 up free (Some k) Hl0) as (h & cu & E & Hp & Hl1 & _).
  destruct fuel as [|fuel]; [lia|]. cbn [delete_forward]. rewrite E. cbn [mbind outcome_bind].
  change (RET_FAILED RET_SUCCESS) with false. cbv iota. set (h1 := pack h (zlen a) (size x)) in *. set (t1 := store t0 pg h1) in *.
  rewrite (page_at_page (set_cursor t1 cu) pg h1) by apply page_store. cbn [mbind outcome_bind].
  change (bt_flags (set_cursor t1 cu)) with (bt_flags t). rewrite (st_nodups _ (tr_standard _ _ _ _ Ht)).
  assert (Hk1 : keeps t (set_cursor t1 cu)) by by split.
  pose proof (laid_cursor t1 cu _ _ Hl1) as Hl2.
  rewrite (packed_count t0 L1 pg (a ++ c) L2 up free h1 Hl1). destruct (Z.eqb_spec (zlen (a ++ c)) 0) as [E0|E0].
  - apply zlen_nil_inv in E0.
    destruct (taken_page (set_cursor t1 cu) L1 pg a x c L2 EL Hl2 Hk1 eq_refl E0) as (t3 & E3 & H3); [apply (lo_path _ _ _ _ _ _ _ Hloc)|].
    rewrite E3. exact H3.
  - apply (taken_leaf (set_cursor t1 cu) L1 pg a x c L2 EL Hl2 Hk1 eq_refl). by intros Enil; rewrite Enil in E0.
Qed.
End delete.

Lemma delete_spec t L up free k fuel :
  tree t L up free -> writable t -> small_key k -> (length up <= 50)%nat -> (0 < fuel)%nat ->
  match Samdb.kv_get k (contents L) with
  | Some _ => taken_from t up (Samdb.kv_delete k (contents L)) (__bt_delete fuel t k 0)
  | None => exists s, __bt_delete fuel t k 0 = Ret (RET_SPECIAL, set_stack t s)
  end.
Proof.
  intros Ht Hw Hk Hup Hf. destruct (search_spec t L up free Ht k Hk Hup) as (L1 & m & L2 & s & r & E & Hloc & Hfd).
  destruct (located_get t L up free Ht k L1 m L2 s r Hloc Hfd) as (a & c & found & -> & Em & Eg). rewrite Eg.
  unfold __bt_delete. unfold writable in Hw. rewrite Hw. change (0 =? 0) with true. cbv iota. unfold __bt_bdelete.
  destruct fuel as [|fuel]; [lia|]. cbn [bdelete_loop]. rewrite E. cbn [mbind outcome_bind]. destruct found; [|by exists s].
  destruct Hfd as (a' & c' & f' & Er & Em' & Ha & Hf'). injection Er as Ea <-.
  rewrite Em in Em'. apply app_inj_1 in Em' as [<- <-]; [|unfold zlen in Ea; lia].
  destruct Hf' as (x & c0 & -> & Hx & Hc). destruct m as [pg its]. cbn [fst snd] in *. subst its.
  pose proof (proj1 (tr_levels _ _ _ _ Ht)) as Hlv. rewrite (lo_level _ _ _ _ _ _ _ Hloc) in Hlv.
  destruct (level_node _ _ _ _ _ Hlv) as [h Hh]. rewrite (page_at_page (set_stack t s) pg h) by exact (ni_page _ _ _ _ _ _ Hh).
  cbn [mbind outcome_bind].
  pose proof (delete_found t L up free Ht Hw (S (Z.to_nat (NEXTINDEX h))) s k L1 pg a x c0 L2 ltac:(lia) Hloc Hx Ha Hc) as H.
  destruct (delete_forward _ _ _ _ _) as [[[status|] t']| | ]; cbn [mbind outcome_bind] in *; [exact H|by destruct H as (? & ? & ? & ? & ? & _)..].
Qed.

(** ** Properties *)

(** C3: __bt_delete takes the record of a key out of a tree without duplicates and nothing
    else: the tree that is left has the other records, in order, an empty leaf is
    taken out of its level, with the entries for it as far up as they were the
    only ones (a tree that gets empty is a leaf again), and its pages go to the
    free list; a key that is not there gives RET_SPECIAL and leaves the pages as they are. *)
Theorem bt_delete_correct t L up free k fuel :
  tree t L up free -> writable t -> small_key k -> (length up <= 50)%nat -> (0 < fuel)%nat ->
  match Samdb.kv_get k (contents L) with
  | Some _ => taken_from t up (Samdb.kv_delete k (contents L)) (__bt_delete fuel t k 0)
  | None => exists s, __bt_delete fuel t k 0 = Ret (RET_SPECIAL, set_stack t s)
  end.
Proof. apply delete_spec. Qed.

Lemma bt_delete_correct_witness :
  let t := one_leaf 512 [BLEAF 0 [1] [10]; BLEAF 0 [2] [20]] in
  taken_from t [] [([1], [10])] (__bt_delete 1 t [2] 0) /\ exists s, __bt_delete 1 t [3] 0 = Ret (RET_SPECIAL, set_stack t s).
Proof.
  intros t. assert (Ht : tree t [(P_ROOT, [BLEAF 0 [1] [10]; BLEAF 0 [2] [20]])] [] []).
  { apply one_leaf_tree; [lia|by vm_compute|by repeat constructor|by repeat constructor|].
    repeat constructor; by vm_compute. }
  split; [exact (bt_delete_correct t _ _ _ [2] 1 Ht eq_refl eq_refl ltac:(cbn; lia) ltac:(lia))|
          exact (bt_delete_correct t _ _ _ [3] 1 Ht eq_refl eq_refl ltac:(cbn; lia) ltac:(lia))].
Defined.
End BtRemove.
