(* ===== verification/BtInsert.v ===== *)
(** Insertion into a tree (db.1.85/bt_put.c): __bt_put is shown to insert a record, or to
    replace the data of its key, and to leave a tree. *)

From S2P Require Import Prelude BtPage BtUtils Samdb BtTree BtSearch BtDelete BtPut BtLevels BtSplit BtRemove.
From stdpp Require Import gmap sorting.
Import BtPage BtTree BtSearch BtDelete BtPut BtLevels BtSplit BtRemove.
#[local] Open Scope Z_scope.

Module BtInsert.

(** ** The records of a tree *)

Lemma kv_insert_new k d l r :
  Forall (fun x => klt (ikey x) k) l -> Forall (fun x => klt k (ikey x)) r ->
  Samdb.kv_insert k d (map record_of (l ++ r)) = map record_of (l ++ BLEAF 0 k d :: r).
Proof.
  intros Hl Hr. induction Hl as [|x l Hx Hl IH]; cbn.
  - destruct Hr as [|y r Hy Hr]; [done|]. cbn. rewrite decide_False by by apply klt_ne. unfold klt in Hy. by rewrite Hy.
  - rewrite decide_False by by apply not_eq_sym, klt_ne. assert (E : Samdb.bytes_lt k (ikey x) = false).
    { apply not_true_iff_false. intros H. by apply (klt_irrefl k), klt_trans with (ikey x). }
    by rewrite E, IH.
Qed.

Lemma kv_insert_over k d l x r :
  Forall (fun x => klt (ikey x) k) l -> ikey x = k ->
  Samdb.kv_insert k d (map record_of (l ++ x :: r)) = map record_of (l ++ BLEAF 0 k d :: r).
Proof.
  intros Hl Hx. induction Hl as [|y l Hy Hl IH]; cbn.
  - by rewrite decide_True.
  - rewrite decide_False by by apply not_eq_sym, klt_ne. assert (E : Samdb.bytes_lt k (ikey y) = false).
    { apply not_true_iff_false. intros H. by apply (klt_irrefl k), klt_trans with (ikey y). }
    by rewrite E, IH.
Qed.

(** ** The place of a key *)

(** A leaf that is to hold the key. *)
Record belongs (L : level) (up : list level) (k : key) (L1 : level) (m : node) (L2 : level) : Prop := {
  be_level : L = L1 ++ m :: L2;
  be_bounds : exists B1 b B2, lower_bounds up = B1 ++ b :: B2 /\ length B1 = length L1 /\
    length B2 = length L2 /\ from b k /\ before k B2;
}.

(** Where the records seem to come in order, the last one is on a leaf that has some. *)
Definition order_ok (t : btree) (L : level) : Prop :=
  match bt_order t with NOT => True | _ => exists n, n ∈ L /\ fst n = fst (bt_last t) /\ snd n <> [] end.

Lemma lower_head up : lower_bounds up = [] \/ exists B, lower_bounds up = None :: B.
Proof.
  induction up as [|U up IH]; [right; by exists []|]. cbn. fold (lower_bounds up).
  destruct U as [|n U]; [by left|]. destruct IH as [->|[B ->]]; [by left|right]. cbn. by eexists.
Qed.

Section place.
Context (t : btree) (L : level) (up : list level) (free : list Z) (Ht : tree t L up free) (k : key) (Hk : small_key k).

(** The last leaf, the first leaf. *)
Lemma belongs_last L1 m a x : L = L1 ++ [m] -> snd m = a ++ [x] -> kle (ikey x) k -> belongs L up k L1 m [].
Proof using Ht.
  intros EL Em Hx. split; [done|]. apply tree_shape in Ht as [_ Hsh]. pose proof (sh_keys _ Hsh) as Ke. cbn [tail hd] in Ke.
  assert (Hlen : length (lower_bounds up) = length (L1 ++ m :: [])).
  { rewrite <- EL. apply length_lower_bounds; [apply (sh_linked _ Hsh)|]. pose proof (sh_filled _ Hsh) as Hf. cbn [tail] in Hf.
    destruct up; [constructor|]. specialize (Hf ltac:(done)). by inversion Hf. }
  destruct (split_like _ _ _ _ Hlen) as (B1 & b & B2 & EB & H1 & H2). exists B1, b, B2. repeat (split; [done|]).
  destruct B2; [|done]. split; [|done]. rewrite EL, EB in Ke. apply leaves_in_app in Ke as [_ [[_ Ke] _]]; [|done].
  rewrite Em in Ke. apply Forall_app in Ke as [_ Ke]. inversion Ke as [|? ? [Hb _] _]; subst. destruct b as [s|]; [|done].
  cbn in *. apply kle_spec in Hb as [Hb| ->]; [|done]. apply kle_spec. left. by eapply klt_le_trans.
Qed.

Lemma belongs_first m L2 x c : L = m :: L2 -> snd m = x :: c -> kle k (ikey x) -> belongs L up k [] m L2.
Proof using Ht.
  intros EL Em Hx. split; [done|]. apply tree_shape in Ht as [_ Hsh]. pose proof (sh_keys _ Hsh) as Ke. cbn [tail hd] in Ke.
  assert (Hlen : length (lower_bounds up) = length ([] ++ m :: L2)).
  { change ([] ++ m :: L2) with (m :: L2). rewrite <- EL. apply length_lower_bounds; [apply (sh_linked _ Hsh)|].
    pose proof (sh_filled _ Hsh) as Hf. cbn [tail] in Hf. destruct up; [constructor|]. specialize (Hf ltac:(done)). by inversion Hf. }
  destruct (split_like _ _ _ _ Hlen) as (B1 & b & B2 & EB & H1 & H2). exists B1, b, B2. repeat (split; [done|]).
  destruct B1; [|done]. cbn [app] in EB. destruct (lower_head up) as [E|[B E]]; rewrite E in EB; [done|].
  injection EB as <- <-. split; [done|]. rewrite EL, E in Ke. destruct Ke as [[_ Ke] _]. rewrite Em in Ke.
  inversion Ke as [|? ? [_ Hb] _]; subst. rewrite app_nil_r in Hb.
  destruct B as [|[s|] B]; [done| |done]. cbn in *. by eapply kle_lt_trans.
Qed.

(** The leaf of the last record, when there is one. *)
Lemma order_leaf : bt_order t <> NOT -> order_ok t L ->
  exists L1 m L2 h, L = L1 ++ m :: L2 /\ snd m <> [] /\ fst m = fst (bt_last t) /\
    node_in t P_BLEAF (last_of P_INVALID L1) m (first_of L2 P_INVALID) h /\ mpool_get t (fst m) = (Some h, t).
Proof using Ht.
  intros Ho Hok. assert (H : exists n, n ∈ L /\ fst n = fst (bt_last t) /\ snd n <> []) by (unfold order_ok in Hok; by destruct (bt_order t)).
  destruct H as (m & Hin & Hf & Hne). apply list_elem_of_split in Hin as (L1 & L2 & EL).
  pose proof (proj1 (tr_levels _ _ _ _ Ht)) as Hl. rewrite EL in Hl. destruct (level_node _ _ _ _ _ Hl) as [h Hh].
  exists L1, m, L2, h. repeat (split; [done|]). apply (mpool_get_page t (tr_standard _ _ _ _ Ht)); [apply (ni_page _ _ _ _ _ _ Hh)|].
  apply (page_in_range t L up free Ht L); [by left|]. rewrite EL, elem_of_app. right. by left.
Qed.

(** What bt_fast finds: nothing, and then no order is kept; or the place, with room. *)
Definition fast_place (data : list Z) (r : option (Z * Z * bool)) (t' : btree) : Prop :=
  match r with
  | None => bt_order t' = NOT
  | Some _ => bt_order t' = bt_order t /\ exists L1 m L2 h, belongs L up k L1 m L2 /\ finds m k r /\ fst (bt_last t') = fst m /\
      pages (bt_mp t) !! fst m = Some h /\ no_room h (NBLEAFDBT (zlen k) (zlen data)) = false
  end.

(** The edges of the leaf level. *)
Lemma last_leaf L1 m L2 : L = L1 ++ m :: L2 -> first_of L2 P_INVALID = P_INVALID -> L2 = [].
Proof using Ht.
  destruct L2 as [|n L2]; [done|]. cbn. intros EL E. pose proof (tr_range _ _ _ _ Ht) as H. apply Forall_app in H as [H _].
  rewrite Forall_forall in H. specialize (H (fst n)). unfold P_INVALID in E. assert (0 < fst n < npages (bt_mp t)); [|lia].
  apply H, (in_numbers _ L); [by left|]. rewrite EL, elem_of_app. right. right. by left.
Qed.

Lemma last_of_in prev A : A <> [] -> exists n, n ∈ A /\ last_of prev A = fst n.
Proof using.
  revert prev. induction A as [|n A IH]; intros prev Hne; [done|]. destruct A as [|m A]; [exists n; split; [by left|done]|].
  destruct (IH (fst n) ltac:(done)) as (w & Hw & E). exists w. split; [by right|exact E].
Qed.

Lemma first_leaf L1 m L2 : L = L1 ++ m :: L2 -> last_of P_INVALID L1 = P_INVALID -> L1 = [].
Proof using Ht.
  intros EL E. destruct (decide (L1 = [])) as [|Hne]; [done|]. destruct (last_of_in P_INVALID L1 Hne) as (n & Hin & En).
  pose proof (tr_range _ _ _ _ Ht) as H. apply Forall_app in H as [H _]. rewrite Forall_forall in H. specialize (H (fst n)).
  rewrite E in En. unfold P_INVALID in En. assert (0 < fst n < npages (bt_mp t)); [|lia].
  apply H, (in_numbers _ L); [by left|]. rewrite EL, elem_of_app. by left.
Qed.

Lemma leaf_small m x L1 L2 h : node_in t P_BLEAF L1 m L2 h -> x ∈ snd m -> small_key (ikey x).
Proof using Ht.
  intros Hh Hx. apply (item_small_key t); [apply (tr_standard _ _ _ _ Ht)|]. pose proof (ni_small _ _ _ _ _ _ Hh) as H.
  rewrite Forall_forall in H. by apply H.
Qed.

(** The keys of a leaf on both sides of one of them. *)
Lemma sorted_around m a x c L1 L2 : L = L1 ++ m :: L2 -> snd m = a ++ x :: c ->
  Forall (fun y => klt (ikey y) (ikey x)) a /\ Forall (fun y => klt (ikey x) (ikey y)) c.
Proof using Ht.
  intros EL Em. apply tree_shape in Ht as [_ Hsh]. rewrite EL in Hsh. destruct m as [pg its]. cbn [snd] in Em. rewrite Em in Hsh.
  pose proof (leaf_sorted _ _ _ _ _ Hsh) as Hs. rewrite map_app in Hs. cbn [map] in Hs. apply sorted_app in Hs as (_ & S2 & S3).
  inversion S2 as [|? ? _ F]; subst. split; [|exact (proj1 (List.Forall_map _ _ _) F)].
  apply Forall_forall. intros y Hy. apply S3; [|by left]. apply list_elem_of_In, in_map. by apply list_elem_of_In.
Qed.

Lemma bt_fast_spec data : bt_order t <> NOT -> order_ok t L ->
  exists r o last, bt_fast t k data = Ret (r, set_order t o last) /\ fast_place data r (set_order t o last).
Proof using All.
  intros Ho Hok. destruct (order_leaf Ho Hok) as (L1 & m & L2 & h & EL & Hne & Em & Hh & Eg).
  pose proof (tr_standard _ _ _ _ Ht) as Hst. destruct (node_count t Hst _ _ _ _ _ Hh) as [Hn Hcnt].
  unfold bt_fast. destruct (bt_last t) as [pg index] eqn:El. cbn [fst] in Em. rewrite <- Em. rewrite Eg.
  assert (Hmiss : exists r o last, Ret (None, set_order t NOT (bt_last t)) = Ret (r, set_order t o last) /\ fast_place data r (set_order t o last)).
  { by exists None, NOT, (bt_last t). }
  destruct (no_room h _) eqn:Hroom; [exact Hmiss|]. rewrite (ni_next _ _ _ _ _ _ Hh), (ni_prev _ _ _ _ _ _ Hh), Hn.
  assert (Hcmp : forall i x, snd m !! Z.to_nat i = Some x -> 0 <= i -> exists c, __bt_cmp t k (fst m) i = Ret (c, t) /\
    (c < 0 <-> klt k (ikey x)) /\ (c = 0 <-> k = ikey x) /\ (0 < c <-> klt (ikey x) k)).
  { intros i x Hx Hi. eexists. split; [by apply (cmp_leaf t Hst _ _ _ _ _ Hh)|]. apply defcmp_sign; [done|].
    apply (leaf_small m x _ _ h Hh). by eapply list_elem_of_lookup_2. }
  assert (Hplace : forall o a c found i, belongs L up k L1 m L2 -> snd m = a ++ c -> Forall (fun x => klt (ikey x) k) a ->
    (if found : bool then exists x c', c = x :: c' /\ ikey x = k /\ Forall (fun x => klt k (ikey x)) c'
     else Forall (fun x => klt k (ikey x)) c) -> o = bt_order t ->
    exists r o' last, Ret (Some (fst m, zlen a, found), set_order t o (fst m, i)) = Ret (r, set_order t o' last) /\ fast_place data r (set_order t o' last)).
  { intros o a c found i Hb Eac Ha Hc ->. eexists _, _, _. split; [reflexivity|]. split; [done|]. exists L1, m, L2, h.
    split; [done|]. split; [by exists a, c, found|]. split; [done|]. split; [apply (ni_page _ _ _ _ _ _ Hh)|done]. }
  destruct (bt_order t) eqn:Eo; [done|..].
  - destruct (Z.eqb_spec (last_of P_INVALID L1) P_INVALID) as [E1|]; cbn [negb]; [|exact Hmiss].
    destruct (Z.eqb_spec index 0) as [->|]; cbn [negb]; [|exact Hmiss].
    pose proof (first_leaf L1 m L2 EL E1) as E1'. destruct (snd m) as [|x c] eqn:Esm; [done|].
    destruct (Hcmp 0 x eq_refl ltac:(lia)) as (cm & Ec & C1 & C2 & C3). rewrite Ec. cbn [mbind outcome_bind].
    destruct (Z.ltb_spec 0 cm) as [|Hle]; [exact Hmiss|].
    destruct (sorted_around m [] x c L1 L2 EL Esm) as [_ Hc].
    assert (Hb : belongs L up k L1 m L2).
    { rewrite E1' in *. apply (belongs_first m L2 x c); [done|done|]. apply kle_not. rewrite <- C3. lia. }
    destruct (Z.eqb_spec cm 0) as [E0|E0].
    + apply C2 in E0. by apply (Hplace BACK [] (x :: c) true 0); [..|exists x, c; rewrite E0|].
    + assert (Hx : klt k (ikey x)) by (apply C1; lia). apply (Hplace BACK [] (x :: c) false 0); [done|done|done| |done].
      constructor; [done|]. eapply Forall_impl; [exact Hc|]. intros y Hy. by apply klt_trans with (ikey x).
  - destruct (Z.eqb_spec (first_of L2 P_INVALID) P_INVALID) as [E1|]; cbn [negb]; [|exact Hmiss].
    destruct (last_cases (snd m)) as [?|(a & x & Esm)]; [done|].
    assert (Ez : zlen (snd m) - 1 = zlen a) by (rewrite Esm, zlen_app; change (zlen [x]) with 1; lia).
    rewrite Ez, u64_id_small by (pose proof (zlen_nonneg a); lia).
    destruct (Z.eqb_spec index (zlen a)) as [->|]; cbn [negb]; [|exact Hmiss].
    pose proof (last_leaf L1 m L2 EL E1) as E2.
    destruct (Hcmp (zlen a) x) as (cm & Ec & C1 & C2 & C3); [rewrite Esm; unfold zlen; rewrite Nat2Z.id; by apply list_lookup_middle|apply zlen_nonneg|].
    rewrite Ec. cbn [mbind outcome_bind]. destruct (Z.ltb_spec cm 0) as [|Hge]; [exact Hmiss|].
    destruct (sorted_around m a x [] L1 L2 EL Esm) as [Ha _].
    assert (Hb : belongs L up k L1 m L2).
    { rewrite E2 in *. apply (belongs_last L1 m a x); [done|done|]. apply kle_not. rewrite <- C1. lia. }
    destruct (Z.eqb_spec cm 0) as [E0|E0].
    + apply C2 in E0. apply (Hplace FORWARD a [x] true (zlen a)); [done|done|by rewrite E0| |done]. by exists x, [].
    + assert (Hx : klt (ikey x) k) by (apply C3; lia).
      assert (E : u16 (zlen a + 1) = zlen (snd m)) by (rewrite u16_id; pose proof (zlen_nonneg a); lia). rewrite E.
      apply (Hplace FORWARD (snd m) [] false (zlen (snd m))); [done|by rewrite app_nil_r| |done|done].
      rewrite Esm. apply Forall_app. split; [|by constructor]. eapply Forall_impl; [exact Ha|]. intros y Hy. by apply klt_trans with (ikey x).
Qed.

(** What the search or bt_fast leaves: the stack of the way to the leaf, or room on it. *)
Definition ready (t' : btree) (L1 : level) (m : node) (n : Z) : Prop :=
  (bt_order t' = NOT /\ path (length L1) (L :: up) (bt_stack t')) \/
  (bt_order t' <> NOT /\ fst (bt_last t') = fst m /\ exists h, pages (bt_mp t') !! fst m = Some h /\ no_room h n = false).

(** Only the order, the last place and the stack differ. *)
Record unchanged (t t' : btree) : Prop := {
  un_mp : bt_mp t' = bt_mp t;
  un_free : bt_free t' = bt_free t;
  un_cfg : cfg t' = cfg t;
  un_flags : bt_flags t' = bt_flags t;
  un_cursor : bt_cursor t' = bt_cursor t;
  un_panicked : panicked t' = panicked t;
}.

Lemma find_place_spec data : order_ok t L -> (length up <= 50)%nat ->
  exists r t', find_place t k data = Ret (r, t') /\ unchanged t t' /\
    exists L1 m L2, belongs L up k L1 m L2 /\ finds m k r /\ ready t' L1 m (NBLEAFDBT (zlen k) (zlen data)).
Proof using All.
  intros Hok Hup. pose proof (st_nodups _ (tr_standard _ _ _ _ Ht)) as Hnd.
  assert (Hsearch : forall o last, (bt_order t = NOT -> o = NOT) -> o = NOT ->
    exists r t', __bt_search (set_order t o last) k = Ret (r, t') /\ unchanged t t' /\
    exists L1 m L2, belongs L up k L1 m L2 /\ finds m k r /\ ready t' L1 m (NBLEAFDBT (zlen k) (zlen data))).
  { intros o last _ ->. assert (Ht' : tree (set_order t NOT last) L up free) by (by apply (tree_pages t)).
    destruct (search_spec _ _ _ _ Ht' k Hk Hup) as (L1 & m & L2 & s & r & E & [H1 H2 H3] & Hf).
    exists r, (set_stack (set_order t NOT last) s). split; [done|]. split; [by split|]. exists L1, m, L2.
    split; [by split|]. split; [done|]. by left. }
  unfold find_place. destruct (bt_order t) eqn:Eo.
  - destruct (Hsearch NOT (bt_last t)) as (r & t' & E & H); [done|done|]. exists r, t'. split; [|done].
    rewrite <- E. f_equal. destruct t; cbn in Eo; by subst.
  - destruct (bt_fast_spec data) as (r & o & last & E & Hr); [by rewrite Eo|done|]. rewrite E. cbn [mbind outcome_bind].
    destruct r as [r|]; [|cbn in Hr; rewrite Hr in *; by apply Hsearch].
    destruct Hr as (Eo' & L1 & m & L2 & h & Hb & Hf & Hl & Hp & Hr). cbn in Eo'. eexists _, _. split; [reflexivity|].
    split; [by split|]. exists L1, m, L2. split; [done|]. split; [done|]. right. cbn. split; [by rewrite Eo', Eo|]. split; [done|by exists h].
  - destruct (bt_fast_spec data) as (r & o & last & E & Hr); [by rewrite Eo|done|]. rewrite E. cbn [mbind outcome_bind].
    destruct r as [r|]; [|cbn in Hr; rewrite Hr in *; by apply Hsearch].
    destruct Hr as (Eo' & L1 & m & L2 & h & Hb & Hf & Hl & Hp & Hr). cbn in Eo'. eexists _, _. split; [reflexivity|].
    split; [by split|]. exists L1, m, L2. split; [done|]. split; [done|]. right. cbn. split; [by rewrite Eo', Eo|]. split; [done|by exists h].
Qed.
End place.

(** ** The record goes to its place *)

Lemma note_order_spec t h index : exists o last, note_order t h index = set_order t o last /\
  (o = bt_order t /\ last = bt_last t \/ fst last = pgno h).
Proof.
  assert (Hid : t = set_order t (bt_order t) (bt_last t)) by by destruct t.
  assert (Hsame : exists o last, t = set_order t o last /\ (o = bt_order t /\ last = bt_last t \/ fst last = pgno h)).
  { exists (bt_order t), (bt_last t). split; [done|by left]. }
  unfold note_order. destruct (bt_order t) eqn:Eo; [|exact Hsame..].
  destruct (_ =? _); [destruct (index =? _)|destruct (prevpg h =? _); [destruct (index =? 0)|]]; try exact Hsame;
    (eexists _, _; split; [reflexivity|by right]).
Qed.

Lemma shift_cursor_spec t h index : exists c, shift_cursor t h index = set_cursor t c.
Proof. unfold shift_cursor. destruct (_ && _); [by eexists|]. exists (bt_cursor t). by rewrite set_cursor_id. Qed.

(** A tree with the records, after a put. *)
Definition put_into (t : btree) (up : list level) (rs : Samdb.records) (run : outcome (Z * btree)) : Prop :=
  exists t' L' up' free', run = Ret (RET_SUCCESS, t') /\ tree t' L' up' free' /\ order_ok t' L' /\ writable t' /\
    (cfg t' = cfg t /\ panicked t' = panicked t) /\ contents L' = rs /\
    npages (bt_mp t) <= npages (bt_mp t') <= npages (bt_mp t) + zlen up + 2 /\ zlen up' <= zlen up + 1.

Lemma add_record_spec t L1 pg a it c L2 up free :
  laid t ((L1 ++ (pg, a ++ c) :: L2) :: up) free -> shape ((L1 ++ (pg, a ++ it :: c) :: L2) :: up) -> writable t ->
  item_of P_BLEAF it -> small (psize t) (size it) ->
  ready (L1 ++ (pg, a ++ it :: c) :: L2) up t L1 (pg, a ++ it :: c) (size it) -> npages (bt_mp t) + zlen up + 2 < MAX_PAGE_NUMBER ->
  put_into t up (contents (L1 ++ (pg, a ++ it :: c) :: L2)) (add_record t pg (zlen a) it).
Proof.
  intros Hl Hsh Hw Hit Hsm Hready Hmax. destruct (laid_node t [] _ _ _ _ _ Hl) as [h Hh]. cbn [kind_at] in Hh.
  pose proof (zlen_nonneg up). pose proof (ni_page _ _ _ _ _ _ Hh) as Hp. cbn [fst] in Hp.
  unfold put_into, add_record. rewrite (page_at_page t pg h) by done. cbn [mbind outcome_bind].
  pose proof (st_nodups _ (la_standard _ _ _ Hl)) as Hnd.
  destruct (no_room h (size it)) eqn:Hroom.
  - destruct Hready as [[Ho Hpath]|(_ & _ & h' & Hp' & Hr)]; [|cbn [fst] in Hp'; congruence].
    destruct (bt_split_spec t L1 pg a it c L2 up free h Hl Hsh Hpath Hh Hit Hsm Hroom Hmax)
      as (t' & L' & up' & free' & E & Hl' & Hsh' & Ei & Hk & Hn & Hu).
    rewrite E. cbn [mbind outcome_bind]. change (RET_SUCCESS =? RET_SUCCESS) with true. cbv iota.
    eexists _, L', up', free'. split; [reflexivity|].
    assert (Hfl : forall f, f = B_NODUPS \/ f = B_RDONLY -> is_set (bt_flags (modified t')) f = is_set (bt_flags t) f).
    { intros f Hf. rewrite modified_flags by done. by rewrite (kp_flags _ _ Hk). }
    split; [|split; [|split; [|split; [split; apply Hk|split; [unfold contents; by rewrite Ei|split; [done|lia]]]]]].
    + apply tree_shape. split; [|done]. apply (laid_pages t'); [done|done|done|rewrite Hfl by auto; done|done].
    + unfold order_ok. change (bt_order (modified t')) with (bt_order t'). by rewrite (kp_order _ _ Hk), Ho.
    + unfold writable. by rewrite Hfl by auto.
  - pose proof (laid_insert t [] L1 pg a c it L2 up free h Hl Hh Hit Hsm Hroom) as Hl'. cbn [app] in Hl'.
    set (h' := add_item (open_index h (zlen a)) (zlen a) (size it) it) in *. set (t1 := store t pg h') in *.
    destruct (shift_cursor_spec t1 h' (zlen a)) as [cu Ec]. rewrite Ec.
    destruct (note_order_spec (set_cursor t1 cu) h' (zlen a)) as (o & last & En & Ho). rewrite En.
    eexists _, (L1 ++ (pg, a ++ it :: c) :: L2), up, free. split; [reflexivity|].
    set (t2 := set_order (set_cursor t1 cu) o last).
    assert (Hfl : forall f, f = B_NODUPS \/ f = B_RDONLY -> is_set (bt_flags (modified t2)) f = is_set (bt_flags t) f).
    { intros f Hf. by rewrite modified_flags by done. }
    assert (Hpn : pgno h' = pg) by exact (ni_pgno _ _ _ _ _ _ Hh).
    split; [|split; [|split; [|split; [done|split; [done|split; [cbn; lia|lia]]]]]].
    + apply tree_shape. split; [|done]. apply (laid_pages t1); [done|done|done|rewrite Hfl by auto; done|done].
    + assert (Hin : exists n, n ∈ L1 ++ (pg, a ++ it :: c) :: L2 /\ fst n = pg /\ snd n <> []).
      { exists (pg, a ++ it :: c). split; [rewrite elem_of_app; right; by left|]. split; [done|]. by destruct a. }
      assert (Hlast : o = NOT \/ fst last = pg).
      { destruct Ho as [[-> ->]|Ho]; [|right; by rewrite Ho]. destruct Hready as [[Ho _]|(_ & Ho & _)]; [by left|by right]. }
      unfold order_ok. change (bt_order (modified t2)) with o. change (bt_last (modified t2)) with last.
      destruct Hlast as [-> | ->]; [done|]. by destruct o.
    + unfold writable. by rewrite Hfl by auto.
Qed.

Lemma path_any p L L' up st : path p (L :: up) st -> path p (L' :: up) st.
Proof. by destruct up. Qed.

(** ** __bt_put *)

Section put.
Context (t : btree) (L : level) (up : list level) (free : list Z) (Ht : tree t L up free).
Context (Hok : order_ok t L) (Hw : writable t) (Hup : (length up <= 50)%nat) (k d : list Z).
Context (Hsm : small (psize t) (NBLEAFDBT (zlen k) (zlen d))) (Hmax : npages (bt_mp t) + zlen up + 2 < MAX_PAGE_NUMBER).

Lemma put_key : small_key k.
Proof using All.
  apply (item_small_key t (BLEAF 0 k d)); [apply (tr_standard _ _ _ _ Ht)|exact Hsm].
Qed.

Lemma belongs_keys L1 m L2 : belongs L up k L1 m L2 ->
  Forall (fun x => klt (ikey x) k) (items_of L1) /\ Forall (fun x => klt k (ikey x)) (items_of L2).
Proof using All.
  intros [EL (B1 & b & B2 & EB & H1 & H2 & Hb & Hbe)]. pose proof (tr_keys _ _ _ _ Ht) as Hk.
  pose proof (tr_sorted _ _ _ _ Ht) as Hs. rewrite EL, EB in Hk. rewrite EB in Hs.
  apply leaves_in_app in Hk as [Hk1 Hk2]; [|done]. destruct Hk2 as [_ Hk2]. split.
  - by apply (left_keys k L1 B1 b B2 []).
  - apply sorted_app in Hs as (_ & Hs & _). inversion Hs as [|? ? Hs' _]; subst.
    by apply (right_keys k L2 B2 []).
Qed.

(** The leaf with the record, in place of one with its key when there is one. *)
Lemma shape_put L1 pg a c c' L2 :
  belongs L up k L1 (pg, a ++ c) L2 -> sublist c' c -> Forall (fun x => klt (ikey x) k) a -> Forall (fun x => klt k (ikey x)) c' ->
  shape ((L1 ++ (pg, a ++ BLEAF 0 k d :: c') :: L2) :: up).
Proof using All.
  intros [EL (B1 & b & B2 & EB & H1 & H2 & Hb & Hbe)] Hc Ha Hc'. pose proof (leaf_keys t L up free Ht L1 _ L2 B1 b B2 EL EB H1) as Hki.
  cbn [snd] in Hki. apply tree_shape in Ht as [_ Hsh]. rewrite EL in Hsh.
  apply (shape_leaf L1 pg (a ++ c) _ L2 up B1 b B2); [done|done|done| |intros _; by destruct a].
  apply (keys_in_app b B2 a c' k); [|done..]. eapply keys_in_sub; [|exact Hki]. by apply sublist_app.
Qed.

Lemma contents_put L1 pg a c c' L2 :
  belongs L up k L1 (pg, a ++ c) L2 -> Forall (fun x => klt (ikey x) k) a ->
  (c' = c /\ Forall (fun x => klt k (ikey x)) c \/ exists x, c = x :: c' /\ ikey x = k) ->
  contents (L1 ++ (pg, a ++ BLEAF 0 k d :: c') :: L2) = Samdb.kv_insert k d (contents L).
Proof using All.
  intros Hb Ha Hc. destruct (belongs_keys _ _ _ Hb) as [K1 K2]. destruct Hb as [EL _]. unfold contents.
  rewrite EL, !items_of_app, !items_of_cons. cbn [snd]. rewrite <- !app_assoc. cbn [app]. rewrite !(app_assoc (items_of L1)).
  assert (Hl : Forall (fun x => klt (ikey x) k) (items_of L1 ++ a)) by by apply Forall_app.
  destruct Hc as [[-> Hc]|(x & -> & Hx)].
  - symmetry. apply kv_insert_new; [done|]. by apply Forall_app.
  - symmetry. cbn [app]. by apply kv_insert_over.
Qed.

Lemma laid_unchanged t' : unchanged t t' -> laid t' (L :: up) free.
Proof using All.
  intros [U1 U2 U3 U4 _ U6]. apply tree_shape in Ht as [Hl _]. apply (laid_pages t); [done|done|done|rewrite U4|done].
  apply (st_nodups _ (la_standard _ _ _ Hl)).
Qed.

(** A new key. *)
Lemma put_new t' L1 pg a c L2 :
  unchanged t t' -> belongs L up k L1 (pg, a ++ c) L2 -> ready L up t' L1 (pg, a ++ c) (NBLEAFDBT (zlen k) (zlen d)) ->
  Forall (fun x => klt (ikey x) k) a -> Forall (fun x => klt k (ikey x)) c ->
  put_into t up (Samdb.kv_insert k d (contents L)) (add_record t' pg (zlen a) (BLEAF 0 k d)).
Proof using All.
  intros Hu Hb Hr Ha Hc. pose proof (laid_unchanged t' Hu) as Hl. pose proof (be_level _ _ _ _ _ _ Hb) as EL. rewrite EL in Hl.
  destruct Hu as [U1 U2 U3 U4 _ U6].
  destruct (add_record_spec t' L1 pg a (BLEAF 0 k d) c L2 up free Hl) as (t2 & L' & up' & free' & E & H1 & H2 & H3 & H4 & H5 & H6).
  - by apply (shape_put L1 pg a c c).
  - unfold writable. by rewrite U4.
  - done.
  - unfold psize. rewrite U3. exact Hsm.
  - destruct Hr as [[Ho Hp]|Hr]; [left; split; [done|by eapply path_any]|by right].
  - by rewrite U1.
  - exists t2, L', up', free'. rewrite E. split; [done|]. split; [done|]. split; [done|]. split; [done|]. split; [by destruct H4 as [-> ->]|].
    split; [rewrite H5; apply (contents_put L1 pg a c c L2); auto|]. by rewrite <- U1.
Qed.

(** A key that is there. *)
Lemma put_over t' L1 pg a x c L2 :
  unchanged t t' -> belongs L up k L1 (pg, a ++ x :: c) L2 -> ready L up t' L1 (pg, a ++ x :: c) (NBLEAFDBT (zlen k) (zlen d)) ->
  Forall (fun x => klt (ikey x) k) a -> ikey x = k -> Forall (fun x => klt k (ikey x)) c ->
  put_into t up (Samdb.kv_insert k d (contents L)) (replace_record t' pg (zlen a) (BLEAF 0 k d) k).
Proof using All.
  intros Hu Hb Hr Ha Hx Hc. pose proof (laid_unchanged t' Hu) as Hl. pose proof (be_level _ _ _ _ _ _ Hb) as EL. rewrite EL in Hl.
  destruct (dleaf_spec t' L1 pg a x c L2 up free (Some k) Hl) as (h & cu & E & Hp & Hl2 & _).
  unfold replace_record. rewrite E. cbn [mbind outcome_bind]. change (RET_SUCCESS =? RET_ERROR) with false. cbv iota.
  set (t1 := store t' pg _) in *. destruct Hu as [U1 U2 U3 U4 _ U6].
  assert (Hl3 : laid (set_cursor t1 cu) ((L1 ++ (pg, a ++ c) :: L2) :: up) free).
  { apply (laid_pages t1); [done|done|done| |done]. apply (st_nodups _ (la_standard _ _ _ Hl)). }
  destruct (add_record_spec (set_cursor t1 cu) L1 pg a (BLEAF 0 k d) c L2 up free Hl3)
    as (t2 & L' & up' & free' & E2 & H1 & H2 & H3 & H4 & H5 & H6).
  - apply (shape_put L1 pg a (x :: c) c); [done|by apply sublist_cons|done|done].
  - unfold writable. change (bt_flags _) with (bt_flags t'). by rewrite U4.
  - done.
  - unfold psize. change (cfg _) with (cfg t'). rewrite U3. exact Hsm.
  - destruct Hr as [[Ho Hpa]|(Ho & Hla & h0 & Hp0 & Hr0)]; [left; split; [done|by eapply path_any]|right].
    split; [done|]. split; [done|]. cbn [fst] in *. exists (pack h (zlen a) (size x)). split; [apply page_store|].
    assert (h0 = h) as -> by congruence. pose proof (st_size _ (la_standard _ _ _ Hl)) as Hps.
    destruct (laid_node t' [] _ _ _ _ _ Hl) as [h1 Hh1]. destruct (laid_node _ [] _ _ _ _ _ Hl2) as [h2 Hh2].
    pose proof (ni_page _ _ _ _ _ _ Hh1) as P1. pose proof (ni_page _ _ _ _ _ _ Hh2) as P2. cbn [fst] in P1, P2.
    unfold t1 in P2. rewrite page_store in P2. injection P2 as <-. assert (h1 = h) as -> by congruence.
    pose proof (ni_has _ _ _ _ _ _ Hh1) as Has1. pose proof (ni_has _ _ _ _ _ _ Hh2) as Has2. cbn [snd] in Has1, Has2.
    change (psize t1) with (psize t') in Has2. change (size (BLEAF 0 k d)) with (NBLEAFDBT (zlen k) (zlen d)).
    rewrite (no_room_spec (psize t') _ _ _ Has1) in Hr0 by lia. rewrite (no_room_spec (psize t') _ _ _ Has2) by lia.
    apply Z.ltb_ge in Hr0. apply Z.ltb_ge. rewrite load_app in *. cbn in Hr0. fold (load c) in Hr0. pose proof (size_nonneg x). lia.
  - change (npages _) with (npages (bt_mp t')). by rewrite U1.
  - exists t2, L', up', free'. rewrite E2. split; [done|]. split; [done|]. split; [done|]. split; [done|]. split; [by destruct H4 as [-> ->]|].
    split; [rewrite H5; apply (contents_put L1 pg a (x :: c) c L2); [done|done|right; by exists x]|].
    change (npages (bt_mp (set_cursor t1 cu))) with (npages (bt_mp t')) in H6. by rewrite <- U1.
Qed.

Lemma put_item_spec :
  put_into t up (Samdb.kv_insert k d (contents L)) (put_item t 0 (BLEAF 0 k d) k d) /\
  match Samdb.kv_get k (contents L) with
  | Some _ => exists t', put_item t R_NOOVERWRITE (BLEAF 0 k d) k d = Ret (RET_SPECIAL, t') /\ tree t' L up free /\ unchanged t t'
  | None => put_into t up (Samdb.kv_insert k d (contents L)) (put_item t R_NOOVERWRITE (BLEAF 0 k d) k d)
  end.
Proof using All.
  destruct (find_place_spec t L up free Ht k put_key d Hok Hup) as (r & t' & E & Hu & L1 & m & L2 & Hb & Hf & Hr).
  destruct Hf as (a & c & found & -> & Em & Ha & Hc). destruct m as [pg its]. cbn [fst snd] in *. subst its.
  destruct (belongs_keys _ _ _ Hb) as [K1 K2]. unfold put_item. change (0 =? R_CURSOR) with false.
  change (R_NOOVERWRITE =? R_CURSOR) with false. change (0 =? R_NOOVERWRITE) with false. change (R_NOOVERWRITE =? R_NOOVERWRITE) with true.
  rewrite E. cbn [mbind outcome_bind]. rewrite (un_flags _ _ Hu), (st_nodups _ (tr_standard _ _ _ _ Ht)), andb_true_r.
  assert (Eg : Samdb.kv_get k (contents L) = if found : bool then match c with x :: _ => Some (idata x) | [] => None end else None).
  { unfold contents. rewrite (be_level _ _ _ _ _ _ Hb), items_of_app, items_of_cons. cbn [snd].
    rewrite kv_get_skip by (apply Forall_ne; auto). rewrite <- app_assoc. rewrite kv_get_skip by (apply Forall_ne; auto).
    destruct found.
    - destruct Hc as (x & c' & -> & Hx & _). cbn. by rewrite decide_True.
    - rewrite kv_get_none; [done|]. apply Forall_ne. right. by apply Forall_app. }
  rewrite Eg. destruct found.
  - destruct Hc as (x & c' & -> & Hx & Hc'). split; [by apply (put_over t' L1 pg a x c' L2)|]. eexists. split; [reflexivity|]. split; [|done].
    destruct Hu as [U1 U2 U3 U4 _ U6]. apply (tree_pages t); [done|done|done| |done]. rewrite U4. apply (st_nodups _ (tr_standard _ _ _ _ Ht)).
  - split; by apply (put_new t' L1 pg a c L2).
Qed.
End put.

(** ** Properties *)

(** What is put in is small enough not to go to overflow pages, and for bt_psplit. *)
Definition fits_page (t : btree) (k d : list Z) : Prop :=
  zlen k + zlen d <= bt_ovflsize (cfg t) /\ small (psize t) (NBLEAFDBT (zlen k) (zlen d)).

(** C2: __bt_put inserts a record into a tree without duplicates, or replaces the data of its
    key, and leaves a tree with the other records as they were: it finds the place by
    bt_fast or by the search, divides the leaf and as many of the pages above it as have no room, up to a new root,
    with separators that may be prefixes of keys, and uses at most two pages more than there are levels;
    with R_NOOVERWRITE a key that is there gives RET_SPECIAL and leaves the tree as it
    was.  Records up to 5/14 of a page, in a tree of up to 51 levels of which bt_last, when an
    order is kept, is a leaf with records; that is so again after it. *)
Theorem bt_put_correct t L up free k d :
  tree t L up free -> order_ok t L -> writable t -> (length up <= 50)%nat -> fits_page t k d ->
  npages (bt_mp t) + zlen up + 2 < MAX_PAGE_NUMBER ->
  put_into t up (Samdb.kv_insert k d (contents L)) (__bt_put t k d 0) /\
  match Samdb.kv_get k (contents L) with
  | Some _ => exists t', __bt_put t k d R_NOOVERWRITE = Ret (RET_SPECIAL, t') /\ tree t' L up free
  | None => put_into t up (Samdb.kv_insert k d (contents L)) (__bt_put t k d R_NOOVERWRITE)
  end.
Proof.
  intros Ht Hok Hw Hup [Ho Hsm] Hmax. pose proof (put_item_spec t L up free Ht Hok Hw Hup k d Hsm Hmax) as H.
  unfold __bt_put, store_item. unfold writable in Hw. rewrite Hw, (proj2 (Z.ltb_ge _ _) Ho). split; [apply H|].
  destruct H as [_ H]. destruct (Samdb.kv_get k (contents L)); [|exact H]. destruct H as (t' & E & H' & _). by exists t'.
Qed.

Lemma bt_put_correct_witness :
  let t := one_leaf 512 [BLEAF 0 [1] [10]; BLEAF 0 [3] (replicate 150 0); BLEAF 0 [4] (replicate 150 0); BLEAF 0 [5] (replicate 100 7)] in
  put_into t [] [([1], [10]); ([2], replicate 150 1); ([3], replicate 150 0); ([4], replicate 150 0); ([5], replicate 100 7)]
    (__bt_put t [2] (replicate 150 1) 0).
Proof.
  intros t. assert (Ht : tree t [(P_ROOT, [BLEAF 0 [1] [10]; BLEAF 0 [3] (replicate 150 0); BLEAF 0 [4] (replicate 150 0); BLEAF 0 [5] (replicate 100 7)])] [] []).
  { apply one_leaf_tree; [lia|by vm_compute|by repeat constructor|by repeat constructor|].
    repeat constructor; by vm_compute. }
  assert (Hp : fits_page t [2] (replicate 150 1)) by (split; by vm_compute).
  exact (proj1 (bt_put_correct t _ _ _ [2] (replicate 150 1) Ht I eq_refl ltac:(cbn; lia) Hp eq_refl)).
Defined.

(** C5: A record that was put in is found, with its data, and every other key gives what it
    gave before: __bt_get after __bt_put, for all keys. *)
Theorem bt_put_get t L up free k d q :
  tree t L up free -> order_ok t L -> writable t -> (length up < 50)%nat -> fits_page t k d ->
  npages (bt_mp t) + zlen up + 2 < MAX_PAGE_NUMBER -> small_key q ->
  exists t1 t2, __bt_put t k d 0 = Ret (RET_SUCCESS, t1) /\
    __bt_get t1 q 0 = Ret match (if decide (q = k) then Some d else Samdb.kv_get q (contents L)) with
                          | Some d => (RET_SUCCESS, Some d, t2)
                          | None => (RET_SPECIAL, None, t2)
                          end.
Proof.
  intros Ht Hok Hw Hup [Ho Hsm] Hmax Hq.
  destruct (proj1 (put_item_spec t L up free Ht Hok Hw ltac:(lia) k d Hsm Hmax)) as (t1 & L1 & up1 & free1 & E & Ht1 & _ & _ & _ & Ec & _ & Hu).
  destruct (get_spec t1 L1 up1 free1 q Ht1 Hq) as [s Eg]; [unfold zlen in Hu; lia|].
  exists t1, (set_stack t1 s). split.
  - unfold __bt_put, store_item. unfold writable in Hw. by rewrite Hw, (proj2 (Z.ltb_ge _ _) Ho).
  - by rewrite Eg, Ec, Samdb.kv_get_insert.
Qed.

Lemma bt_put_get_witness :
  let t := one_leaf 512 [BLEAF 0 [1] [10]] in
  exists t1 t2, __bt_put t [2] [20] 0 = Ret (RET_SUCCESS, t1) /\ __bt_get t1 [1] 0 = Ret (RET_SUCCESS, Some [10], t2).
Proof.
  intros t. assert (Ht : tree t [(P_ROOT, [BLEAF 0 [1] [10]])] [] []).
  { apply one_leaf_tree; [lia|by vm_compute|by repeat constructor|by repeat constructor|repeat constructor]. }
  assert (Hp : fits_page t [2] [20]) by (split; by vm_compute).
  exact (bt_put_get t _ _ _ [2] [20] [1] Ht I eq_refl ltac:(cbn; lia) Hp eq_refl eq_refl).
Defined.

(** ** What goes wrong *)

(** Calls that have to succeed, one after the other. *)
Inductive call := Put (k d : list Z) | Del (k : list Z).

Fixpoint serve (t : btree) (l : list call) : outcome btree :=
  match l with
  | [] => Ret t
  | c :: l =>
      '(status, t) ← match c with Put k d => __bt_put t k d 0 | Del k => __bt_delete 1 t k 0 end;
      if status =? RET_SUCCESS then serve t l else Fault
  end.

(** What holds of the result of calls that end. *)
Definition after {T} (run : outcome T) (P : T -> Prop) : Prop := match run with Ret x => P x | _ => False end.

(** A record that was put in can be lost.  When records came in descending order, bt_fast
    goes on putting them on the first leaf; deletion does not tell it when that
    page has gone to the free list, and there it compares the key with what is left
    of the last record: the put succeeds, and the record is not in the tree. *)
Theorem bt_fast_loses_record :
  let x k := Put [k] (replicate 100 0) in
  after (serve (one_leaf 512 []) [x 20; x 30; x 40; x 50; x 60; x 10; Del [20]; Del [30]; Del [40]; Del [10]]) (fun t =>
    bt_order t = BACK /\ fst (bt_last t) = bt_free t /\
    after (__bt_put t [5] [1] 0) (fun '(status, t) =>
      status = RET_SUCCESS /\ after (__bt_get t [5] 0) (fun '(status, _, _) => status = RET_SPECIAL))).
Proof. by vm_compute. Qed.

(** A key that goes to overflow pages is put at the place of the eight bytes that refer to them,
    not at its own: a key of 300 bytes that belongs behind the only other one goes before it,
    the put succeeds, and the key is not found. *)
Theorem bt_put_big_key_lost :
  let big := replicate 300 200 in
  klt [5] big /\
  after (serve (one_leaf 512 []) [Put [5] [1]; Put big [2]]) (fun t =>
    after (page_at t P_ROOT) (fun h => entry h 0 = BLEAF P_BIGKEY (ovfl_ref 2 300) [2] /\ entry h 1 = BLEAF 0 [5] [1]) /\
    after (__bt_get t big 0) (fun '(status, _, _) => status = RET_SPECIAL)).
Proof. by vm_compute. Qed.
End BtInsert.
