(* ===== verification/BtSeq.v ===== *)
(** The sequential scan of a btree (db.1.85/bt_seq.c): the first and the last record, the
    one after and the one before the cursor, the first one from a key on.  The scan is
    shown to be one over the list of the records, with a position in it for the
    cursor; a cursor of which the record was deleted has kept its key. *)

From S2P Require Import Prelude BtPage BtUtils Samdb BtTree BtSearch BtDelete BtLevels BtRemove.
From stdpp Require Import gmap sorting.
Import BtPage BtTree BtSearch BtDelete BtLevels BtRemove.
#[local] Open Scope Z_scope.

Module BtSeq.

(** ** The code *)

Definition P_RLEAF : Z := 0x10.
Definition R_FIRST : Z := 3.
Definition R_LAST : Z := 6.
Definition R_NEXT : Z := 7.
Definition R_PREV : Z := 9.

(** A status with the place it is about, which is not set on all ways out. *)
Abbreviation answer := (Z * option (Z * Z) * btree)%type.

Definition __bt_setcur (t : btree) (pg index : Z) : btree :=
  let c := bt_cursor t in
  set_cursor t {| c_pgno := pg; c_index := u16 index; c_key := [];
                  c_flags := Z.lor (F_CLR (c_flags c) (Z.lor (Z.lor CURS_ACQUIRE CURS_AFTER) CURS_BEFORE)) CURS_INIT |}.

(** Back over the records of the key: the first of them.  [pg] and [index] are both
    [save] and [*ep] at the start of a turn.  Where the page before cannot be got its
    number is read through NULL. *)
Fixpoint first_loop (fuel : nat) (t : btree) (key : list Z) (pg index : Z) : outcome (Z * Z * btree) :=
  match fuel with
  | O => Fault
  | S fuel =>
      h ← page_at t pg;
      '(before, t) ←
        (if index =? 0 then
           if prevpg h =? P_INVALID then Ret (None, t)
           else
             match mpool_get t (prevpg h) with
             | (None, _) => Fault
             | (Some p, t) => Ret (Some (prevpg h, NEXTINDEX p), t)
             end
         else Ret (Some (pg, index), t));
      match before with
      | None => Ret (pg, index, t)
      | Some (epg, i) =>
          let i := u16 (i - 1) in
          '(cmp, t) ← __bt_cmp t key epg i;
          if cmp =? 0 then first_loop fuel t key epg i else Ret (pg, index, t)
      end
  end.

Definition __bt_first (fuel : nat) (t : btree) (key : list Z) : outcome answer :=
  '(e, t) ← __bt_search t key;
  match e with
  | None => Ret (0, None, t)
  | Some (pg, index, exact) =>
      if exact : bool then
        if is_set (bt_flags t) B_NODUPS then Ret (RET_SUCCESS, Some (pg, index), t)
        else '(pg, index, t) ← first_loop fuel t key pg index; Ret (RET_SUCCESS, Some (pg, index), t)
      else
        h ← page_at t pg;
        if index =? NEXTINDEX h then
          if nextpg h =? P_INVALID then Ret (RET_SPECIAL, None, t)
          else
            match mpool_get t (nextpg h) with
            | (None, t) => Ret (RET_ERROR, None, t)
            | (Some _, t) => Ret (RET_SUCCESS, Some (nextpg h, 0), t)
            end
        else Ret (RET_SUCCESS, Some (pg, index), t)
  end.

(** Down the left-hand side of the tree, or the right-hand side. *)
Fixpoint edge (fuel : nat) (right : bool) (t : btree) (pg : Z) : outcome answer :=
  match fuel with
  | O => Fault
  | S fuel =>
      match mpool_get t pg with
      | (None, t) => Ret (RET_ERROR, None, t)
      | (Some h, t) =>
          let index := if right then NEXTINDEX h - 1 else 0 in
          if NEXTINDEX h =? 0 then Ret (RET_SPECIAL, None, t)
          else if is_set (flags h) (Z.lor P_BLEAF P_RLEAF) then Ret (RET_SUCCESS, Some (pg, u16 index), t)
          else '(child, _, _) ← GETBINTERNAL h index; edge fuel right t child
      end
  end.

(** A key that is NULL is the empty one. *)
Definition __bt_seqset (fuel : nat) (t : btree) (key : list Z) (flags : Z) : outcome answer :=
  if flags =? R_CURSOR then
    if zlen key =? 0 then Ret (RET_ERROR, None, set_errno t EINVAL) else __bt_first fuel t key
  else if (flags =? R_FIRST) || (flags =? R_NEXT) then edge fuel false t P_ROOT
  else edge fuel true t P_ROOT.

(** The label [usecurrent]. *)
Definition usecurrent (t : btree) : answer :=
  let c := bt_cursor t in
  (RET_SUCCESS, Some (c_pgno c, c_index c),
   set_cursor t (set_c_flags c (F_CLR (c_flags c) (Z.lor CURS_AFTER CURS_BEFORE)))).

(** The first or last record of the page after or before. *)
Definition seq_neighbour (t : btree) (pg : Z) (index : page -> Z) : answer :=
  if pg =? P_INVALID then (RET_SPECIAL, None, t)
  else
    match mpool_get t pg with
    | (None, t) => (RET_ERROR, None, t)
    | (Some h, t) => (RET_SUCCESS, Some (pg, index h), t)
    end.

Definition __bt_seqadv (fuel : nat) (t : btree) (flags : Z) : outcome answer :=
  let c := bt_cursor t in
  if c_set c CURS_ACQUIRE then __bt_first fuel t (c_key c)
  else
    match mpool_get t (c_pgno c) with
    | (None, t) => Ret (RET_ERROR, None, t)
    | (Some h, t) =>
        if flags =? R_NEXT then
          if c_set c CURS_AFTER then Ret (usecurrent t)
          else
            let index := u16 (c_index c + 1) in
            if index =? NEXTINDEX h then Ret (seq_neighbour t (nextpg h) (fun _ => 0))
            else Ret (RET_SUCCESS, Some (c_pgno c, index), t)
        else
          if c_set c CURS_BEFORE then Ret (usecurrent t)
          else if c_index c =? 0 then Ret (seq_neighbour t (prevpg h) (fun p => u16 (NEXTINDEX p - 1)))
          else Ret (RET_SUCCESS, Some (c_pgno c, c_index c - 1), t)
    end.

(** The status, the key and the data, where they are set.  A success without a place
    leaves the place to what was on the stack. *)
Definition __bt_seq (fuel : nat) (t : btree) (key : list Z) (flags : Z) :
    outcome (Z * option (list Z) * option (list Z) * btree) :=
  if negb (existsb (Z.eqb flags) [R_NEXT; R_PREV; R_FIRST; R_LAST; R_CURSOR]) then
    Ret (RET_ERROR, None, None, set_errno t EINVAL)
  else
    '(status, e, t) ←
      (if ((flags =? R_NEXT) || (flags =? R_PREV)) && c_set (bt_cursor t) CURS_INIT
       then __bt_seqadv fuel t flags else __bt_seqset fuel t key flags);
    if status =? RET_SUCCESS then
      match e with
      | None => Fault
      | Some (pg, index) =>
          h ← page_at t pg;
          __bt_ret (__bt_setcur t (pgno h) index) pg index true true false
      end
    else Ret (status, None, None, t).

(** ** Positions *)

(** The [i]-th record is at an index of a page of the level. *)
Definition place (L : level) (i : nat) (pg index : Z) : Prop :=
  exists L1 a x c L2, L = L1 ++ (pg, a ++ x :: c) :: L2 /\ index = zlen a /\ i = length (items_of L1 ++ a).

(** Where the scan is: not begun, on a record, or where a key was that is no more there. *)
Inductive position := Unset | At (i : nat) | Gone (k : key).

Definition cursor_at (t : btree) (L : level) (p : position) : Prop :=
  let c := bt_cursor t in
  match p with
  | Unset => c_set c CURS_INIT = false
  | At i => c_set c CURS_INIT = true /\ c_set c CURS_ACQUIRE = false /\ c_set c CURS_AFTER = false /\
            c_set c CURS_BEFORE = false /\ c_key c = [] /\ place L i (c_pgno c) (c_index c)
  | Gone k => c_set c CURS_INIT = true /\ c_set c CURS_ACQUIRE = true /\ c_key c = k /\ small_key k
  end.

(** How many records come before a key. *)
Fixpoint rank (k : key) (rs : Samdb.records) : nat :=
  match rs with (k', _) :: rs => if Samdb.bytes_lt k' k then S (rank k rs) else O | [] => O end.

(** The calls, and the record each gives. *)
Inductive move := First | Last | Next | Prev | From (k : key).

Definition flag_of (m : move) : Z :=
  match m with First => R_FIRST | Last => R_LAST | Next => R_NEXT | Prev => R_PREV | From _ => R_CURSOR end.
Definition key_of (m : move) : key := match m with From k => k | _ => [] end.

Definition record_at (rs : Samdb.records) (i : nat) : option nat := if decide (i < length rs)%nat then Some i else None.

Definition target (rs : Samdb.records) (p : position) (m : move) : option nat :=
  match m, p with
  | From k, _ | (Next | Prev), Gone k => record_at rs (rank k rs)
  | First, _ | Next, Unset => record_at rs 0
  | Last, _ | Prev, Unset => match rs with [] => None | _ => Some (length rs - 1)%nat end
  | Next, At i => record_at rs (S i)
  | Prev, At i => match i with O => None | S i => Some i end
  end.

Lemma place_lookup L i pg index : place L i pg index -> exists L1 its L2 x, L = L1 ++ (pg, its) :: L2 /\
  its !! Z.to_nat index = Some x /\ 0 <= index < zlen its /\ contents L !! i = Some (record_of x).
Proof.
  intros (L1 & a & x & c & L2 & -> & -> & ->). exists L1, (a ++ x :: c), L2, x. split; [done|].
  split; [unfold zlen; rewrite Nat2Z.id; by apply list_lookup_middle|].
  split; [rewrite zlen_app, zlen_cons; pose proof (zlen_nonneg a); pose proof (zlen_nonneg c); lia|].
  unfold contents. rewrite lookup_map, items_of_app, items_of_cons. cbn [snd].
  rewrite <- (app_assoc a), (app_assoc (items_of L1)). cbn [app]. by rewrite list_lookup_middle.
Qed.

Lemma place_in L1 pg a x c L2 : place (L1 ++ (pg, a ++ x :: c) :: L2) (length (items_of L1 ++ a)) pg (zlen a).
Proof. by exists L1, a, x, c, L2. Qed.

Lemma place_first L1 pg its L2 : its <> [] -> place (L1 ++ (pg, its) :: L2) (length (items_of L1)) pg 0.
Proof. intros H. destruct its as [|x c]; [done|]. exists L1, [], x, c, L2. by rewrite app_nil_r. Qed.

Lemma place_last L1 pg its L2 : its <> [] ->
  place (L1 ++ (pg, its) :: L2) (length (items_of L1 ++ its) - 1) pg (zlen its - 1).
Proof.
  intros H. destruct (last_cases its) as [->|(a & x & ->)]; [done|]. exists L1, a, x, [], L2. split; [done|].
  rewrite zlen_app, zlen_cons, !length_app. cbn. change (zlen []) with 0. lia.
Qed.

Lemma rank_app k l r : Forall (fun x => klt (ikey x) k) l -> Forall (fun x => ~ klt (ikey x) k) r ->
  rank k (map record_of (l ++ r)) = length l.
Proof.
  intros Hl Hr. induction Hl as [|x l Hx _ IH]; cbn.
  - destruct Hr as [|x r Hx _]; [done|]. cbn. unfold klt in Hx. by destruct (Samdb.bytes_lt _ _).
  - unfold klt in Hx. rewrite Hx. by rewrite IH.
Qed.

Lemma length_contents L : length (contents L) = length (items_of L).
Proof. apply length_map. Qed.

Lemma record_at_in rs i r : rs !! i = Some r -> record_at rs i = Some i.
Proof. intros H%lookup_lt_Some. unfold record_at. by rewrite decide_True. Qed.

Lemma record_at_end rs i : (length rs <= i)%nat -> record_at rs i = None.
Proof. intros H. unfold record_at. by rewrite decide_False by lia. Qed.

Section scan.
Context (t : btree) (L : level) (up : list level) (free : list Z) (Ht : tree t L up free).

Lemma tree_cursor c : tree (set_cursor t c) L up free.
Proof using Ht. apply (tree_pages t); [done..| |done]. apply (st_nodups _ (tr_standard _ _ _ _ Ht)). Qed.

Lemma tree_stack s : tree (set_stack t s) L up free.
Proof using Ht. apply (tree_pages t); [done..| |done]. apply (st_nodups _ (tr_standard _ _ _ _ Ht)). Qed.

Lemma leaf_page_at L1 n L2 : L = L1 ++ n :: L2 -> exists h,
  node_in t P_BLEAF (last_of P_INVALID L1) n (first_of L2 P_INVALID) h /\ page_at t (fst n) = Ret h /\
  mpool_get t (fst n) = (Some h, t) /\ NEXTINDEX h = zlen (snd n) /\ 0 <= zlen (snd n) < 2 ^ 15.
Proof using Ht.
  intros E. pose proof (proj1 (tr_levels _ _ _ _ Ht)) as Hl. rewrite E in Hl. destruct (level_node _ _ _ _ _ Hl) as [h Hh].
  pose proof (tr_standard _ _ _ _ Ht) as Hst. exists h. split; [done|]. pose proof (ni_page _ _ _ _ _ _ Hh) as Hp.
  split; [by apply page_at_page|]. destruct (node_count t Hst _ _ _ _ _ Hh) as [Hn Hc]. split; [|by split].
  apply mpool_get_page; [done|done|]. apply (page_in_range t L up free Ht L); [by left|rewrite E, elem_of_app; right; by left].
Qed.

(** Only a root is empty. *)
Lemma leaf_cases : (exists its, L = [(P_ROOT, its)]) \/ Forall not_empty L.
Proof using Ht.
  pose proof (tr_linked _ _ _ _ Ht) as Hk. pose proof (tr_leaves _ _ _ _ Ht) as Hl.
  case_eq up; [intros ->|intros U up' E; right; apply Hl; by rewrite E]. left. cbn in Hk.
  case_eq L; [by intros ->|intros [pg its] L' ->]. injection Hk as -> Hk. exists its. by destruct L'.
Qed.

(** The record of a place, on which the cursor is set. *)
Lemma found_spec i pg index : place L i pg index -> exists r t',
  (h ← page_at t pg; __bt_ret (__bt_setcur t (pgno h) index) pg index true true false) = Ret (RET_SUCCESS, Some (fst r), Some (snd r), t') /\
  contents L !! i = Some r /\ tree t' L up free /\ cursor_at t' L (At i) /\ keeps t t'.
Proof using Ht.
  intros Hp. destruct (place_lookup L i pg index Hp) as (L1 & its & L2 & x & E & Hx & Hi & Hc).
  destruct (leaf_page_at L1 _ L2 E) as (h & Hh & Ep & _ & Hn & Hb). cbn [fst snd] in *.
  pose proof (ni_pgno _ _ _ _ _ _ Hh) as Hpg. cbn [fst] in Hpg.
  destruct (leaf_item t (tr_standard _ _ _ _ Ht) _ _ _ _ Hh index x Hx ltac:(lia)) as (k & d & -> & Eg).
  exists (k, d), (__bt_setcur t pg index). rewrite Ep. cbn [mbind outcome_bind]. rewrite Hpg. split.
  - unfold __bt_ret. rewrite (page_at_page (__bt_setcur t pg index) pg h) by exact (ni_page _ _ _ _ _ _ Hh).
    cbn [mbind outcome_bind]. rewrite Eg. cbn [mbind outcome_bind]. cbv zeta.
    rewrite (fetch_here (__bt_setcur t pg index)) by by destruct (tr_standard _ _ _ _ Ht). cbn [mbind outcome_bind].
    by rewrite (fetch_here (__bt_setcur t pg index)) by by destruct (tr_standard _ _ _ _ Ht).
  - split; [done|]. split; [by apply tree_cursor|]. cbn. rewrite u16_id by lia. unfold c_set, is_set. cbn [c_flags].
    split; [|by split]. split; [|split; [|split; [|split; [|split; done]]]]; rewrite Z.land_lor_distr_l; [|unfold F_CLR; rewrite <- Z.land_assoc; by rewrite Z.land_0_r..].
    apply negb_true_iff, Z.eqb_neq. intros H%Z.lor_eq_0_iff. by destruct H.
Qed.

(** A leaf that is not alone. *)
Lemma leaf_sibling L1 n L2 : L = L1 ++ n :: L2 -> L1 ++ L2 <> [] -> snd n <> [] /\ fst n <> P_INVALID.
Proof using Ht.
  intros E Hne. split.
  - destruct leaf_cases as [[its El]|Hl].
    + rewrite El in E. destruct L1 as [|? L1]; [|apply (f_equal length) in E; rewrite length_app in E; cbn in E; lia].
      destruct L2; [done|]. discriminate.
    + rewrite E in Hl. apply Forall_app in Hl as [_ Hl]. by apply Forall_cons in Hl as [? _].
  - pose proof (tr_range _ _ _ _ Ht) as Hr. apply Forall_app in Hr as [Hr _]. rewrite Forall_forall in Hr.
    assert (0 < fst n < npages (bt_mp t)); [|unfold P_INVALID; lia]. apply Hr.
    apply (in_numbers (L :: up) L n); [by left|]. rewrite E, elem_of_app. right. by left.
Qed.

(** The page after a leaf. *)
Lemma next_leaf L1 n L2 h : L = L1 ++ n :: L2 -> node_in t P_BLEAF (last_of P_INVALID L1) n (first_of L2 P_INVALID) h ->
  L2 <> [] -> nextpg h <> P_INVALID /\ place L (length (items_of L1 ++ snd n)) (nextpg h) 0 /\
  exists h', mpool_get t (nextpg h) = (Some h', t).
Proof using Ht.
  intros E Hh Hne. destruct L2 as [|[pg its] L2]; [done|]. rewrite (ni_next _ _ _ _ _ _ Hh). cbn [first_of fst].
  assert (E' : L = (L1 ++ [n]) ++ (pg, its) :: L2) by (rewrite E; by rewrite <- app_assoc).
  destruct (leaf_sibling _ _ _ E') as [Hn Hv]; [by destruct L1|]. split; [done|].
  split.
  - rewrite E'. replace (items_of L1 ++ snd n) with (items_of (L1 ++ [n])) by (rewrite items_of_app, items_of_cons; by rewrite app_nil_r).
    by apply place_first.
  - destruct (leaf_page_at _ _ _ E') as (h' & _ & _ & Hg & _). by exists h'.
Qed.

(** What the search for a place gives. *)
Definition reaches (run : outcome answer) (o : option nat) : Prop :=
  exists s, match o with
            | Some i => exists pg index, run = Ret (RET_SUCCESS, Some (pg, index), set_stack t s) /\ place L i pg index
            | None => run = Ret (RET_SPECIAL, None, set_stack t s)
            end.
End scan.

Section moves.
Context (t : btree) (L : level) (up : list level) (free : list Z) (Ht : tree t L up free).

Lemma first_spec k fuel : small_key k -> (length up <= 50)%nat ->
  reaches t L (__bt_first fuel t k) (record_at (contents L) (rank k (contents L))).
Proof using Ht.
  intros Hk Hl. destruct (search_spec t L up free Ht k Hk Hl) as (L1 & m & L2 & s & r & E & Hloc & Hfd).
  destruct Hfd as (a & c & found & -> & Em & Ha & Hc). exists s. unfold __bt_first. rewrite E. cbn [mbind outcome_bind].
  destruct (located_keys t L up free Ht k L1 m L2 s Hloc) as [K1 K2]. pose proof (lo_level _ _ _ _ _ _ _ Hloc) as EL.
  assert (Hc' : Forall (fun x => ~ klt (ikey x) k) c).
  { destruct found; [destruct Hc as (x & c' & -> & Hx & Hc); constructor; [rewrite Hx; apply klt_irrefl|]|];
      (eapply Forall_impl; [exact Hc|]; cbn; intros y Hy Hy'; by apply (klt_irrefl k), klt_trans with (ikey y)). }
  assert (Er : contents L = map record_of ((items_of L1 ++ a) ++ c ++ items_of L2)).
  { unfold contents. by rewrite EL, items_of_app, items_of_cons, Em, <- !app_assoc. }
  assert (Hrk : rank k (contents L) = length (items_of L1 ++ a)).
  { rewrite Er. apply rank_app; [by apply Forall_app|apply Forall_app; split; [done|]].
    eapply Forall_impl; [exact K2|]. cbn. intros y Hy Hy'. by apply (klt_irrefl k), klt_trans with (ikey y). }
  rewrite Hrk.
  destruct m as [pg its]. cbn [fst snd] in *. subst its.
  assert (Hin : c <> [] -> record_at (contents L) (length (items_of L1 ++ a)) = Some (length (items_of L1 ++ a)) /\
    place L (length (items_of L1 ++ a)) pg (zlen a)).
  { intros Hne. destruct c as [|x c]; [done|]. rewrite EL. pose proof (place_in L1 pg a x c L2) as Hp. split; [|done].
    destruct (place_lookup _ _ _ _ Hp) as (? & ? & ? & ? & _ & _ & _ & Hr). by eapply record_at_in. }
  destruct found.
  - rewrite (st_nodups (set_stack t s)) by apply (standard_stack _ _ (tr_standard _ _ _ _ Ht)).
    destruct Hin as [-> Hp]; [by destruct Hc as (x & c' & -> & _)|]. by exists pg, (zlen a).
  - pose proof (tree_stack t L up free Ht s) as Hs. destruct (leaf_page_at _ L up free Hs L1 _ L2 EL) as (h & Hh & Ep & _ & Hn & _).
    cbn [fst snd] in *. rewrite Ep. cbn [mbind outcome_bind]. rewrite Hn, zlen_app.
    destruct c as [|x c].
    + change (zlen []) with 0. rewrite Z.add_0_r, Z.eqb_refl. destruct (decide (L2 = [])) as [-> |HL2].
      * rewrite (ni_next _ _ _ _ _ _ Hh). cbn. rewrite record_at_end; [done|].
        rewrite Er, length_map, app_nil_r. cbn. lia.
      * destruct (next_leaf _ L up free Hs L1 _ L2 h EL Hh HL2) as (Hv & Hp & h' & Hg). cbn [snd] in Hp. rewrite app_nil_r in Hp.
        rewrite (proj2 (Z.eqb_neq _ _) Hv), Hg. destruct (place_lookup _ _ _ _ Hp) as (? & ? & ? & ? & _ & _ & _ & Hr).
        rewrite (record_at_in _ _ _ Hr). by exists (nextpg h), 0.
    + rewrite (proj2 (Z.eqb_neq _ _)) by (rewrite zlen_cons; pose proof (zlen_nonneg c); lia).
      destruct Hin as [-> Hp]; [done|]. by exists pg, (zlen a).
Qed.

(** A page on the edge of its level. *)
Definition at_edge (right : bool) (U : level) (n : node) : Prop :=
  exists A, U = if right then A ++ [n] else n :: A.

Lemma edge_child right X U n : children U = map fst X -> at_edge right U n -> snd n <> [] ->
  exists e m, snd n !! (if right then length (snd n) - 1 else 0)%nat = Some e /\ ichild e = fst m /\ at_edge right X m.
Proof using.
  intros Hc [A ->] Hne. destruct right.
  - destruct (last_cases (snd n)) as [E|(es & e & E)]; [done|]. exists e.
    rewrite children_app, children_cons, E, app_nil_r, map_app, app_assoc in Hc. cbn [map] in Hc. symmetry in Hc.
    apply map_eq_app in Hc as (X1 & X2 & -> & _ & E2). destruct X2 as [|m [|? ?]]; [done| |done]. injection E2 as E2.
    exists m. rewrite E, length_app. cbn [length]. replace (length es + 1 - 1)%nat with (length es) by lia.
    rewrite list_lookup_middle by done. split; [done|]. split; [done|by exists X1].
  - destruct (snd n) as [|e es] eqn:E; [done|]. rewrite children_cons, E in Hc. destruct X as [|m X]; [done|].
    cbn in Hc. injection Hc as Hc _. exists e, m. split; [done|]. split; [done|by exists X].
Qed.

Lemma internal_page_at U n : U ∈ up -> n ∈ U -> exists h prev next,
  node_in t P_BINTERNAL prev n next h /\ mpool_get t (fst n) = (Some h, t) /\ NEXTINDEX h = zlen (snd n) /\ snd n <> [].
Proof using Ht.
  intros HU Hn. pose proof (tr_levels _ _ _ _ Ht) as [_ Hl]. rewrite Forall_forall in Hl. specialize (Hl U HU).
  pose proof (tr_inner _ _ _ _ Ht) as Hi. rewrite !Forall_forall in Hi. specialize (Hi U HU). rewrite Forall_forall in Hi.
  pose proof (page_in_range t L up free Ht U n ltac:(by right) Hn) as Hr.
  specialize (Hi n Hn). apply list_elem_of_split in Hn as (U1 & U2 & ->). destruct (level_node _ _ _ _ _ Hl) as [h Hh].
  pose proof (tr_standard _ _ _ _ Ht) as Hst. exists h. eexists _, _. split; [exact Hh|].
  split; [apply mpool_get_page; [done|apply (ni_page _ _ _ _ _ _ Hh)|done]|]. split; [by apply (node_count t Hst _ _ _ _ _ Hh)|done].
Qed.

Lemma edge_page_in right U n : at_edge right U n -> n ∈ U.
Proof using. intros [A ->]. destruct right; [rewrite elem_of_app; right|]; by left. Qed.

(** The last record, or the first. *)
Definition edge_target (right : bool) (rs : Samdb.records) : option nat :=
  if right then match rs with [] => None | _ => Some (length rs - 1)%nat end else record_at rs 0.

Lemma edge_leaf right fuel n : at_edge right L n -> reaches t L (edge (S fuel) right t (fst n)) (edge_target right (contents L)).
Proof using Ht.
  intros He. pose proof (edge_page_in _ _ _ He) as Hin. exists (bt_stack t). replace (set_stack t (bt_stack t)) with t by by destruct t.
  destruct (list_elem_of_split _ _ Hin) as (L1 & L2 & EL).
  destruct (leaf_page_at t L up free Ht L1 n L2 EL) as (h & Hh & _ & Hg & Hn & Hb).
  cbn [edge]. rewrite Hg, Hn, (ni_flags _ _ _ _ _ _ Hh). change (is_set P_BLEAF (Z.lor P_BLEAF P_RLEAF)) with true. cbv iota.
  destruct (decide (snd n = [])) as [E|Hne].
  - rewrite E. cbn. assert (contents L = []) as ->; [|by destruct right].
    destruct (leaf_cases t L up free Ht) as [[its El]|Hl]; [|rewrite Forall_forall in Hl; by destruct (Hl n Hin)].
    rewrite El in Hin |- *. apply list_elem_of_singleton in Hin as ->. cbn in E. by subst its.
  - rewrite (proj2 (Z.eqb_neq _ _)) by (destruct (snd n); [done|rewrite zlen_cons; pose proof (zlen_nonneg l); lia]).
    assert (Hz : 0 < zlen (snd n)) by (destruct (snd n); [done|rewrite zlen_cons; pose proof (zlen_nonneg l); lia]).
    destruct He as [A EA]. destruct n as [pg its]. cbn [fst snd] in *. destruct right.
    + pose proof (place_last A pg its [] Hne) as Hp. rewrite <- EA in Hp. unfold edge_target.
      destruct (place_lookup _ _ _ _ Hp) as (? & ? & ? & ? & _ & _ & _ & Hr). rewrite length_contents.
      replace (items_of L) with (items_of A ++ its) by (rewrite EA, items_of_app, items_of_cons; by rewrite app_nil_r).
      destruct (contents L) as [|? ?]; [done|]. exists pg, (zlen its - 1). split; [|done]. by rewrite u16_id by lia.
    + pose proof (place_first [] pg its A Hne) as Hp. cbn [app] in Hp. rewrite <- EA in Hp.
      destruct (place_lookup _ _ _ _ Hp) as (? & ? & ? & ? & _ & _ & _ & Hr). unfold edge_target.
      rewrite (record_at_in _ 0 _ Hr). by exists pg, 0.
Qed.

Lemma edge_spec right low : forall U up' n fuel, L :: up = low ++ U :: up' -> at_edge right U n -> (length low < fuel)%nat ->
  reaches t L (edge fuel right t (fst n)) (edge_target right (contents L)).
Proof using Ht.
  induction low as [|X low IH] using rev_ind; intros U up' n fuel E He Hf; (destruct fuel as [|fuel]; [lia|]).
  - injection E as <- _. by apply edge_leaf.
  - rewrite <- app_assoc in E. cbn [app] in E. rewrite length_app in Hf. cbn in Hf.
    assert (HU : U ∈ up).
    { apply (f_equal tail) in E. cbn in E. rewrite E. destruct low; cbn; [by left|]. rewrite elem_of_app. right. right. by left. }
    pose proof (tr_linked _ _ _ _ Ht) as Hk. rewrite E in Hk. apply linked_app in Hk as [Hc _].
    destruct (internal_page_at U n HU (edge_page_in _ _ _ He)) as (h & prev & next & Hh & Hg & Hn & Hne).
    destruct (edge_child right X U n Hc He Hne) as (e & m & Ee & Em & Hm).
    cbn [edge]. rewrite Hg, Hn, (ni_flags _ _ _ _ _ _ Hh). change (is_set P_BINTERNAL (Z.lor P_BLEAF P_RLEAF)) with false. cbv iota.
    assert (Hz : 0 < zlen (snd n)) by (destruct (snd n); [done|rewrite zlen_cons; pose proof (zlen_nonneg l); lia]).
    rewrite (proj2 (Z.eqb_neq _ _)) by lia.
    assert (Ei : Z.to_nat (if right then zlen (snd n) - 1 else 0) = (if right then length (snd n) - 1 else 0)%nat).
    { unfold zlen in *. destruct right; lia. }
    destruct (node_item t (tr_standard _ _ _ _ Ht) _ _ _ _ _ Hh (if right then zlen (snd n) - 1 else 0) e) as (Ex & Hek & _);
      [by rewrite Ei|destruct right; lia|].
    unfold GETBINTERNAL. rewrite Ex. destruct e as [p f kb|f kb d|]; [|by destruct Hek|done]. cbn [mbind outcome_bind].
    cbn in Em. subst p. by apply (IH X (U :: up')); [..|lia].
Qed.

Lemma edge_root right fuel : (length up < fuel)%nat -> reaches t L (edge fuel right t P_ROOT) (edge_target right (contents L)).
Proof using Ht.
  intros Hf. destruct (root_level _ (tr_linked _ _ _ _ Ht)) as (low & n & E & Hn). rewrite <- Hn.
  apply (edge_spec right low [n] []); [done|destruct right; by exists []|]. apply (f_equal length) in E.
  rewrite length_app in E. cbn in E. lia.
Qed.

Lemma reaches_here i pg index : place L i pg index -> reaches t L (Ret (RET_SUCCESS, Some (pg, index), t)) (Some i).
Proof using. clear. intros Hp. exists (bt_stack t), pg, index. split; [by destruct t|exact Hp]. Qed.

Lemma reaches_end : reaches t L (Ret (RET_SPECIAL, None, t)) None.
Proof using. clear. exists (bt_stack t). by destruct t. Qed.

Section at_record.
Context (i : nat) (Hcur : cursor_at t L (At i)) (fuel : nat).

(** The page of the cursor. *)
Lemma cursor_page : exists L1 a x c L2 h, L = L1 ++ (c_pgno (bt_cursor t), a ++ x :: c) :: L2 /\
  c_index (bt_cursor t) = zlen a /\ i = length (items_of L1 ++ a) /\
  node_in t P_BLEAF (last_of P_INVALID L1) (c_pgno (bt_cursor t), a ++ x :: c) (first_of L2 P_INVALID) h /\
  mpool_get t (c_pgno (bt_cursor t)) = (Some h, t) /\ NEXTINDEX h = zlen a + 1 + zlen c /\ zlen a + 1 + zlen c < 2 ^ 15.
Proof using Ht Hcur.
  destruct Hcur as (_ & _ & _ & _ & _ & L1 & a & x & c & L2 & E & Ei & Hi).
  destruct (leaf_page_at t L up free Ht L1 _ L2 E) as (h & Hh & _ & Hg & Hn & Hb). cbn [fst snd] in *.
  rewrite zlen_app, zlen_cons in Hn, Hb. exists L1, a, x, c, L2, h. repeat (split; [done|]). split; [by rewrite Hn; lia|lia].
Qed.

Lemma next_spec : reaches t L (__bt_seqadv fuel t R_NEXT) (record_at (contents L) (S i)).
Proof using Ht Hcur.
  destruct cursor_page as (L1 & a & x & c & L2 & h & E & Ei & Hi & Hh & Hg & Hn & Hb).
  destruct Hcur as (_ & Ha & Haf & _). unfold __bt_seqadv. rewrite Ha, Hg, Haf, Ei, Hn.
  change (R_NEXT =? R_NEXT) with true. cbv iota. pose proof (zlen_nonneg a). pose proof (zlen_nonneg c). rewrite u16_id by lia.
  destruct c as [|y c].
  - change (zlen []) with 0. rewrite Z.add_0_r, Z.eqb_refl. unfold seq_neighbour. destruct (decide (L2 = [])) as [-> |HL2].
    + rewrite (ni_next _ _ _ _ _ _ Hh). cbn [first_of]. change (P_INVALID =? P_INVALID) with true. cbv iota.
      rewrite record_at_end; [apply reaches_end|]. rewrite length_contents, Hi.
      replace (items_of L) with ((items_of L1 ++ a) ++ [x]); [rewrite (length_app (_ ++ _)); cbn; lia|].
      rewrite E, items_of_app, items_of_cons. cbn. by rewrite app_nil_r, <- app_assoc.
    + destruct (next_leaf t L up free Ht L1 _ L2 h E Hh HL2) as (Hv & Hp & h' & Hg'). cbn [snd] in Hp.
      rewrite (proj2 (Z.eqb_neq _ _) Hv), Hg'. rewrite app_assoc, (length_app (_ ++ _)), <- Hi, Nat.add_1_r in Hp.
      destruct (place_lookup _ _ _ _ Hp) as (? & ? & ? & ? & _ & _ & _ & Hr).
      rewrite (record_at_in _ _ _ Hr). by apply reaches_here.
  - rewrite (proj2 (Z.eqb_neq _ _)) by (rewrite zlen_cons; pose proof (zlen_nonneg c); lia).
    assert (Hp : place L (S i) (c_pgno (bt_cursor t)) (zlen a + 1)).
    { exists L1, (a ++ [x]), y, c, L2. rewrite <- app_assoc. split; [done|]. rewrite zlen_app, app_assoc, (length_app (_ ++ a)).
      split; [done|]. rewrite <- Hi. cbn. lia. }
    destruct (place_lookup _ _ _ _ Hp) as (? & ? & ? & ? & _ & _ & _ & Hr). rewrite (record_at_in _ _ _ Hr). by apply reaches_here.
Qed.

Lemma prev_spec : reaches t L (__bt_seqadv fuel t R_PREV) (match i with O => None | S i => Some i end).
Proof using Ht Hcur.
  destruct cursor_page as (L1 & a & x & c & L2 & h & E & Ei & Hi & Hh & Hg & Hn & Hb).
  destruct Hcur as (_ & Ha & _ & Hbf & _ & _). unfold __bt_seqadv. rewrite Ha, Hg, Hbf, Ei.
  change (R_PREV =? R_NEXT) with false. cbv iota. destruct (last_cases a) as [->|(a' & y & ->)].
  - change (zlen [] =? 0) with true. cbv iota. unfold seq_neighbour. rewrite (ni_prev _ _ _ _ _ _ Hh).
    rewrite app_nil_r in Hi. destruct (last_cases L1) as [->|(L1' & [pg its] & ->)]; [cbn in Hi; rewrite Hi; apply reaches_end|].
    rewrite last_of_app. cbn [last_of fst]. rewrite <- app_assoc in E. cbn [app] in E.
    destruct (leaf_page_at t L up free Ht L1' _ _ E) as (h' & Hh' & _ & Hg' & Hn' & Hb').
    destruct (leaf_sibling t L up free Ht L1' _ _ E) as [Hne Hv]; [by destruct L1'|]. cbn [fst snd] in *.
    rewrite (proj2 (Z.eqb_neq _ _) Hv), Hg', Hn'. pose proof (place_last L1' pg its ((c_pgno (bt_cursor t), x :: c) :: L2) Hne) as Hp.
    rewrite <- E in Hp. rewrite items_of_app, items_of_cons in Hi. cbn [snd] in Hi. rewrite app_nil_r in Hi.
    assert (Hz : 0 < zlen its) by (destruct its as [|z its]; [done|rewrite zlen_cons; pose proof (zlen_nonneg its); lia]).
    rewrite u16_id by lia. rewrite <- Hi in Hp. rewrite length_app in Hi. unfold zlen in Hz.
    case_eq i; [lia|]. intros j Ej. rewrite Ej in Hp. replace (S j - 1)%nat with j in Hp by lia. by apply reaches_here.
  - rewrite zlen_app. change (zlen [y]) with 1. pose proof (zlen_nonneg a'). rewrite (proj2 (Z.eqb_neq _ _)) by lia.
    rewrite app_assoc, length_app, Nat.add_1_r in Hi. rewrite Hi. replace (zlen a' + 1 - 1) with (zlen a') by lia. apply reaches_here.
    exists L1, a', y, (x :: c), L2. rewrite E, <- app_assoc. done.
Qed.
End at_record.

(** What a call gives: a record with the cursor on it, or none and the cursor where it was. *)
Definition gives (p : position) (o : option nat) (run : outcome (Z * option (list Z) * option (list Z) * btree)) : Prop :=
  match o with
  | Some i => exists r t', run = Ret (RET_SUCCESS, Some (fst r), Some (snd r), t') /\ contents L !! i = Some r /\
                tree t' L up free /\ cursor_at t' L (At i)
  | None => exists t', run = Ret (RET_SPECIAL, None, None, t') /\ tree t' L up free /\ cursor_at t' L p
  end.

Definition move_ok (m : move) : Prop := match m with From k => k <> [] /\ small_key k | _ => True end.

Lemma move_spec p m fuel : cursor_at t L p -> move_ok m -> (length up <= 50)%nat -> (length up < fuel)%nat ->
  reaches t L (if ((flag_of m =? R_NEXT) || (flag_of m =? R_PREV)) && c_set (bt_cursor t) CURS_INIT
               then __bt_seqadv fuel t (flag_of m) else __bt_seqset fuel t (key_of m) (flag_of m)) (target (contents L) p m).
Proof using Ht.
  intros Hc Hm Hl Hf.
  assert (Hset : forall m, match m with From k => k <> [] /\ small_key k | _ => True end ->
    reaches t L (__bt_seqset fuel t (key_of m) (flag_of m)) (target (contents L) Unset m)).
  { intros [| | | |k] Hk; [exact (edge_root false fuel Hf)|exact (edge_root true fuel Hf)|exact (edge_root false fuel Hf)|exact (edge_root true fuel Hf)|].
    destruct Hk as [Hk1 Hk2]. unfold __bt_seqset. cbn [flag_of key_of target]. change (R_CURSOR =? R_CURSOR) with true. cbv iota.
    rewrite (proj2 (Z.eqb_neq _ _)) by (destruct k as [|z k]; [done|rewrite zlen_cons; pose proof (zlen_nonneg k); lia]). by apply first_spec. }
  assert (Hadv : flag_of m = R_NEXT \/ flag_of m = R_PREV -> p <> Unset ->
    reaches t L (__bt_seqadv fuel t (flag_of m)) (target (contents L) p m)).
  { intros Hfl Hp. destruct p as [|i|k]; [done| |].
    - destruct m; (try by destruct Hfl); [by apply next_spec|by apply prev_spec].
    - destruct Hc as (_ & Ha & <- & Hk). unfold __bt_seqadv. rewrite Ha. destruct m; (try by destruct Hfl); by apply first_spec. }
  assert (Hin : c_set (bt_cursor t) CURS_INIT = match p with Unset => false | _ => true end) by (destruct p; apply Hc).
  rewrite Hin. destruct m; cbn [flag_of]; try (by apply Hset); destruct p; first [by apply Hset|by apply Hadv; auto].
Qed.
End moves.

Lemma found_gives t L up free p o run : reaches t L run o -> tree t L up free -> cursor_at t L p ->
  gives L up free p o
    ('(status, e, t) ← run;
     if status =? RET_SUCCESS then
       match e with
       | None => Fault
       | Some (pg, index) => h ← page_at t pg; __bt_ret (__bt_setcur t (pgno h) index) pg index true true false
       end
     else Ret (status, None, None, t)).
Proof.
  intros [s Hr] Ht Hc. destruct o as [i|].
  - destruct Hr as (pg & index & -> & Hp). cbn [mbind outcome_bind]. change (RET_SUCCESS =? RET_SUCCESS) with true. cbv iota.
    destruct (found_spec _ L up free (tree_stack t L up free Ht s) i pg index Hp) as (r & t' & E & Hr & Ht' & Hc' & _).
    exists r, t'. by rewrite E.
  - rewrite Hr. exists (set_stack t s). split; [done|]. split; [by apply tree_stack|by destruct p].
Qed.

Lemma seq_spec t L up free p m fuel :
  tree t L up free -> cursor_at t L p -> move_ok m -> (length up <= 50)%nat -> (length up < fuel)%nat ->
  gives L up free p (target (contents L) p m) (__bt_seq fuel t (key_of m) (flag_of m)).
Proof.
  intros Ht Hc Hm Hl Hf. pose proof (move_spec t L up free Ht p m fuel Hc Hm Hl Hf) as H.
  unfold __bt_seq. replace (existsb (Z.eqb (flag_of m)) _) with true by by destruct m. cbn [negb].
  by apply (found_gives t).
Qed.

(** ** Scans *)

(** A caller that reads records until there are none. *)
Fixpoint scan (n fuel : nat) (t : btree) (m next : move) : outcome Samdb.records :=
  match n with
  | O => Fault
  | S n =>
      '(status, k, d, t) ← __bt_seq fuel t (key_of m) (flag_of m);
      match k, d with
      | Some k, Some d => rs ← scan n fuel t next next; Ret ((k, d) :: rs)
      | _, _ => if status =? RET_SPECIAL then Ret [] else Fault
      end
  end.

Section scans.
Context (L : level) (up : list level) (free : list Z) (fuel : nat) (Hl : (length up <= 50)%nat) (Hf : (length up < fuel)%nat).

Lemma scan_end t p m next n : tree t L up free -> cursor_at t L p -> move_ok m -> target (contents L) p m = None ->
  scan (S n) fuel t m next = Ret [].
Proof using Hl Hf.
  intros Ht Hc Hm Hn. pose proof (seq_spec t L up free p m fuel Ht Hc Hm Hl Hf) as H. rewrite Hn in H.
  destruct H as (t' & E & _). cbn [scan]. by rewrite E.
Qed.

Lemma scan_step t p m next n i : tree t L up free -> cursor_at t L p -> move_ok m -> target (contents L) p m = Some i ->
  exists r t', contents L !! i = Some r /\ tree t' L up free /\ cursor_at t' L (At i) /\
    scan (S n) fuel t m next = (rs ← scan n fuel t' next next; Ret (r :: rs)).
Proof using Hl Hf.
  intros Ht Hc Hm Hn. pose proof (seq_spec t L up free p m fuel Ht Hc Hm Hl Hf) as H. rewrite Hn in H.
  destruct H as (r & t' & E & Hr & Ht' & Hc'). exists r, t'. split; [done|]. split; [done|]. split; [done|].
  cbn [scan]. rewrite E. cbn [mbind outcome_bind]. by destruct r.
Qed.

Lemma scan_forward n : forall t p m j, tree t L up free -> cursor_at t L p -> move_ok m ->
  target (contents L) p m = record_at (contents L) j -> (length (contents L) - j < n)%nat ->
  scan n fuel t m Next = Ret (drop j (contents L)).
Proof using Hl Hf.
  induction n as [|n IH]; intros t p m j Ht Hc Hm Hj Hn; [lia|]. unfold record_at in Hj. destruct (decide _) as [Hlt|Hge].
  - destruct (scan_step t p m Next n j Ht Hc Hm Hj) as (r & t' & Hr & Ht' & Hc' & ->).
    rewrite (IH t' (At j) Next (S j)) by (done || lia). cbn [mbind outcome_bind]. by rewrite (drop_S _ _ _ Hr).
  - rewrite (scan_end t p m Next n Ht Hc Hm Hj). by rewrite drop_ge by lia.
Qed.

Lemma scan_backward n : forall t p m j, tree t L up free -> cursor_at t L p -> move_ok m -> (j <= length (contents L))%nat ->
  target (contents L) p m = match j with O => None | S i => Some i end -> (j < n)%nat ->
  scan n fuel t m Prev = Ret (rev (take j (contents L))).
Proof using Hl Hf.
  induction n as [|n IH]; intros t p m j Ht Hc Hm Hle Hj Hn; [lia|]. destruct j as [|i].
  - by rewrite (scan_end t p m Prev n Ht Hc Hm Hj).
  - destruct (scan_step t p m Prev n i Ht Hc Hm Hj) as (r & t' & Hr & Ht' & Hc' & ->).
    rewrite (IH t' (At i) Prev i) by (done || lia). cbn [mbind outcome_bind]. by rewrite (take_S_r _ _ _ Hr), rev_app_distr.
Qed.
End scans.

(** ** Properties *)

(** C6: Every call of __bt_seq is a move over the list of the records: the first, the last, the one
    after or before the cursor, the first from a key on; where the cursor's record was
    deleted, both ways go to the first one from its key on.  The record is
    returned and the cursor is on it; where there is none, RET_SPECIAL is returned and the cursor stays. *)
Theorem bt_seq_correct t L up free p m fuel :
  tree t L up free -> cursor_at t L p -> move_ok m -> (length up <= 50)%nat -> (length up < fuel)%nat ->
  gives L up free p (target (contents L) p m) (__bt_seq fuel t (key_of m) (flag_of m)).
Proof. apply seq_spec. Qed.

Definition two_records : list item := [BLEAF 0 [1] [10]; BLEAF 0 [3] [30]].
Lemma two_records_tree : tree (one_leaf 512 two_records) [(P_ROOT, two_records)] [] [].
Proof. apply one_leaf_tree; [lia|by vm_compute|by repeat constructor|by repeat constructor|]. repeat constructor; by vm_compute. Qed.

Lemma bt_seq_correct_witness :
  let t := one_leaf 512 two_records in
  gives [(P_ROOT, two_records)] [] [] Unset (Some 1%nat) (__bt_seq 1 t [2] R_CURSOR) /\
  gives [(P_ROOT, two_records)] [] [] Unset None (__bt_seq 1 t [4] R_CURSOR).
Proof.
  intros t. assert (Hm : forall z, move_ok (From [z])) by (intros z; split; [done|by vm_compute]).
  split; [exact (bt_seq_correct t _ _ _ Unset (From [2]) 1 two_records_tree eq_refl (Hm 2) ltac:(cbn; lia) ltac:(cbn; lia))|
          exact (bt_seq_correct t _ _ _ Unset (From [4]) 1 two_records_tree eq_refl (Hm 4) ltac:(cbn; lia) ltac:(cbn; lia))].
Defined.

(** C7: A scan returns all records in order, a scan from the end all of them in the opposite order, and one that
    starts at a key those from it on, wherever the cursor was before; each ends by itself. *)
Theorem bt_scan_correct t L up free p fuel n k :
  tree t L up free -> cursor_at t L p -> (length up <= 50)%nat -> (length up < fuel)%nat -> (length (contents L) < n)%nat ->
  k <> [] -> small_key k ->
  scan n fuel t First Next = Ret (contents L) /\
  scan n fuel t Last Prev = Ret (rev (contents L)) /\
  scan n fuel t (From k) Next = Ret (drop (rank k (contents L)) (contents L)).
Proof.
  intros Ht Hc Hl Hf Hn Hk1 Hk2. split; [|split].
  - by apply (scan_forward L up free fuel Hl Hf n t p First 0); [..|lia].
  - rewrite (scan_backward L up free fuel Hl Hf n t p Last (length (contents L))); [by rewrite firstn_all|done..| |lia].
    cbn. destruct (contents L) as [|r rs]; [done|]. cbn. f_equal. lia.
  - by apply (scan_forward L up free fuel Hl Hf n t p (From k)); [..|lia].
Qed.

Lemma bt_scan_correct_witness :
  let t := one_leaf 512 two_records in
  scan 3 1 t First Next = Ret [([1], [10]); ([3], [30])] /\
  scan 3 1 t Last Prev = Ret [([3], [30]); ([1], [10])] /\
  scan 3 1 t (From [2]) Next = Ret [([3], [30])].
Proof.
  intros t. exact (bt_scan_correct t _ _ _ Unset 1 3 [2] two_records_tree eq_refl ltac:(cbn; lia) ltac:(cbn; lia) ltac:(cbn; lia)
    ltac:(done) eq_refl).
Defined.

(** Where the search fails its result is not tested: the place was never set. *)
Lemma bt_seq_search_fails fuel t t' k :
  k <> [] -> __bt_search t k = Ret (None, t') -> __bt_seq fuel t k R_CURSOR = Fault.
Proof.
  intros Hk E. unfold __bt_seq, __bt_seqset, __bt_first. cbn [existsb negb orb andb].
  change (R_CURSOR =? R_CURSOR) with true. change (R_CURSOR =? R_NEXT) with false. change (R_CURSOR =? R_PREV) with false.
  cbn [orb negb andb]. rewrite !orb_true_r. cbn [negb].
  rewrite (proj2 (Z.eqb_neq _ _)) by (destruct k as [|z k]; [done|rewrite zlen_cons; pose proof (zlen_nonneg k); lia]). by rewrite E.
Qed.
End BtSeq.
