(* ===== verification/BtCursor.v ===== *)
(** Deletion under the cursor (db.1.85/bt_delete.c with R_CURSOR): the stack of parents is found by a
    walk over the leaves (__bt_stkacq), the record goes, the cursor keeps its key, and the scan
    goes on with the record after it. *)

From S2P Require Import Prelude BtPage BtUtils Samdb BtTree BtSearch BtDelete BtLevels BtSplit BtRemove BtSeq.
From stdpp Require Import gmap sorting.
Import BtPage BtTree BtSearch BtDelete BtLevels BtSplit BtRemove BtSeq.
#[local] Open Scope Z_scope.

Module BtCursor.

(** ** The stack of the next leaf *)

Lemma mpool_get_stack t pg : bt_stack (snd (mpool_get t pg)) = bt_stack t.
Proof.
  unfold mpool_get, call_works. destruct (_ <=? _); [done|]. by destruct (calls (bt_mp t)) as [|[|] ?].
Qed.

(** One level more is one step more from the last page. *)
Lemma restore_snoc n : forall t hp i rest t' hp' i' rest',
  bt_stack t = (hp, i) :: rest -> restore true n t hp i = Ret (true, t') -> bt_stack t' = (hp', i') :: rest' ->
  restore true (S n) t hp i = restore true 1 t' hp' i'.
Proof.
  induction n as [|n IH]; intros t hp i rest t' hp' i' rest' Es E Es'.
  - cbn in E. injection E as <-. rewrite Es in Es'. by injection Es' as -> -> _.
  - change (restore true (S (S n)) t hp i) with
      (h ← page_at t hp; '(pg, _, _) ← GETBINTERNAL h i; t ← BT_PUSH t pg 0;
       match mpool_get t pg with (None, t) => Ret (false, t) | (Some _, t) => restore true (S n) t pg 0 end).
    cbn [restore] in E. destruct (page_at t hp) as [h| |]; [|done..]. cbn [mbind outcome_bind] in *.
    destruct (GETBINTERNAL h i) as [[[pg ?] ?]| |]; [|done..]. cbn [mbind outcome_bind] in *.
    unfold BT_PUSH in *. destruct (_ <=? _)%nat; [done|]. cbn [mbind outcome_bind] in *.
    pose proof (mpool_get_stack (set_stack t ((pg, 0) :: bt_stack t)) pg) as Hs.
    destruct (mpool_get _ pg) as [[h1|] t1]; [|done]. cbn [snd] in Hs. by apply (IH t1 pg 0 (bt_stack t) t' hp' i' rest').
Qed.

(** A page with a page after it. *)
Lemma next_page (U1 : level) n U2 : (S (length U1) < length (U1 ++ n :: U2))%nat -> exists m U2', U2 = m :: U2'.
Proof. rewrite length_app. destruct U2 as [|m U2]; [cbn; lia|]. by exists m, U2. Qed.

Section stack.
Context (t : btree) (L0 : level) (up0 : list level) (free : list Z) (Ht : tree t L0 up0 free).

Lemma inner_page s U n : U ∈ up0 -> n ∈ U -> exists h prev next,
  node_in t P_BINTERNAL prev n next h /\ mpool_get (set_stack t s) (fst n) = (Some h, set_stack t s) /\
  page_at (set_stack t s) (fst n) = Ret h /\ NEXTINDEX h = zlen (snd n) /\ snd n <> [] /\ zlen (snd n) < 2 ^ 15.
Proof using Ht.
  intros HU Hn. destruct (internal_page_at _ L0 up0 free (tree_stack t L0 up0 free Ht s) U n HU Hn) as (h & prev & next & Hh & Hg & Hnx & Hne).
  pose proof (node_in_ext (set_stack t s) t _ _ _ _ _ eq_refl eq_refl Hh) as Hh'.
  exists h, prev, next. split; [done|]. split; [done|]. split; [apply page_at_page; exact (ni_page _ _ _ _ _ _ Hh)|].
  split; [done|]. split; [done|]. apply (node_count t (tr_standard _ _ _ _ Ht) _ _ _ _ _ Hh').
Qed.

(** From an entry down to its page, at its first entry. *)
Lemma restore_one s hp e1 p f k e2 V1 V2 V : V ∈ up0 -> V = V1 ++ (hp, e1 ++ BINTERNAL p f k :: e2) :: V2 ->
  (length s < 50)%nat -> (exists h, mpool_get (set_stack t ((p, 0) :: s)) p = (Some h, set_stack t ((p, 0) :: s))) ->
  restore true 1 (set_stack t s) hp (zlen e1) = Ret (true, set_stack t ((p, 0) :: s)).
Proof using Ht.
  intros HV EV Hs [h Hp]. destruct (inner_page s V (hp, e1 ++ BINTERNAL p f k :: e2) HV) as (hq & pr & nx & Hh & _ & Ep & _).
  { rewrite EV, elem_of_app. right. by left. }
  cbn [restore fst] in *. rewrite Ep. cbn [mbind outcome_bind].
  destruct (node_item t (tr_standard _ _ _ _ Ht) _ _ _ _ _ Hh (zlen e1) (BINTERNAL p f k)) as (Ex & _).
  { unfold zlen. rewrite Nat2Z.id. by apply list_lookup_middle. }
  { apply zlen_nonneg. }
  unfold GETBINTERNAL. rewrite Ex. cbn [mbind outcome_bind]. unfold BT_PUSH. cbn [bt_stack set_stack].
  rewrite (proj2 (Nat.leb_gt _ _)) by lia. cbn [mbind outcome_bind].
  change (set_stack (set_stack t s) ((p, 0) :: s)) with (set_stack t ((p, 0) :: s)). by rewrite Hp.
Qed.

Lemma path_length p ls s : path p ls s -> length s = (length ls - 1)%nat.
Proof using.
  revert p s. induction ls as [|L ls IH]; intros p s H; [by destruct s|]. destruct ls as [|U up].
  - by destruct s as [|[? ?] ?].
  - destruct s as [|[pg i] s]; [done|]. destruct H as (U1 & es & U2 & _ & _ & _ & H). apply IH in H. cbn in *. lia.
Qed.

(** What the climb and the way down give. *)
Definition moved (p : nat) (ls : list level) (level : nat) (run : outcome (option (Z * Z * nat) * btree)) : Prop :=
  exists ppg i n rest stack', run = Ret (Some (ppg, i, (level + n)%nat), set_stack t ((ppg, i) :: rest)) /\
    restore true n (set_stack t ((ppg, i) :: rest)) ppg i = Ret (true, set_stack t stack') /\
    path (S p) ls stack' /\ stack' <> [].

(** The entry of the level above for a page. *)
Lemma entry_of_page (X U : level) U1 (n : node) U2 V1 hp e1 x e2 V2 :
  children U = map fst X -> U = V1 ++ (hp, e1 ++ x :: e2) :: V2 -> X = U1 ++ n :: U2 ->
  length U1 = (length (children V1) + length e1)%nat -> ichild x = fst n.
Proof using.
  intros Hc -> -> Hl. rewrite children_app, children_cons in Hc. cbn [snd] in Hc. rewrite !map_app in Hc. cbn [map] in Hc.
  rewrite <- app_assoc, app_assoc in Hc. cbn [app] in Hc. apply app_inj_1 in Hc as [_ Hc]; [by injection Hc|].
  by rewrite length_app, !length_map.
Qed.

(** Further up there is a page to the right: from it down to the first entry of the next page of the level. *)
Lemma moved_down low X U up p level ppg e1 x U1 m U2 run :
  L0 :: up0 = low ++ X :: U :: up -> U = U1 ++ (ppg, e1 ++ [x]) :: m :: U2 -> p = (length (children U1) + length e1)%nat ->
  (length up < 50)%nat -> moved (length U1) (U :: up) (S level) run -> moved p (X :: U :: up) level run.
Proof using Ht.
  intros E EU Ep Hup (qpg & i & n & rest & st & E1 & E2 & Hst & Hne). destruct (level_above t L0 up0 free Ht low X U up E) as (HU & _).
  destruct up as [|V up].
  { exfalso. pose proof (tr_linked _ _ _ _ Ht) as Hlk. rewrite E in Hlk.
    change (low ++ [X; U]) with (low ++ [X] ++ [U]) in Hlk. rewrite app_assoc in Hlk. apply linked_tail in Hlk. cbn in Hlk.
    apply (f_equal length) in Hlk. rewrite EU, length_map, length_app in Hlk. cbn in Hlk. lia. }
  destruct (path_split _ _ _ _ _ Hst) as (V1 & hp' & f1 & z & f2 & V2 & st' & EV & -> & EpV & Hpst).
  destruct (level_above t L0 up0 free Ht (low ++ [X]) U V up) as (HV & _ & HcV & _); [by rewrite <- app_assoc|].
  assert (EU' : U = (U1 ++ [(ppg, e1 ++ [x])]) ++ m :: U2) by (rewrite EU, <- app_assoc; done).
  assert (Hz : ichild z = fst m).
  { eapply (entry_of_page U V); [done|exact EV|exact EU'|]. rewrite length_app. cbn [length]. lia. }
  destruct (inner_page st' V (hp', f1 ++ z :: f2) HV) as (hv & pv & nv & Hhv & _); [rewrite EV, elem_of_app; right; by left|].
  pose proof (ni_items _ _ _ _ _ _ Hhv) as Hit. cbn [snd] in Hit. apply Forall_app in Hit as [_ Hit]. apply Forall_cons in Hit as [Hit _].
  destruct z as [zp zf zk|zf zk zd|]; [|by destruct Hit|done]. cbn [ichild] in Hz.
  destruct (inner_page ((zp, 0) :: (hp', zlen f1) :: st') U m HU) as (hm & pm & nm & _ & Hgm & _ & _ & Hnm & _).
  { rewrite EU', elem_of_app. right. by left. }
  pose proof (path_length _ _ _ Hst) as Hls. cbn [length] in Hls, Hup.
  exists qpg, i, (S n), rest, ((zp, 0) :: (hp', zlen f1) :: st'). split; [rewrite E1; do 4 f_equal; lia|]. split; [|split; [|done]].
  - rewrite (restore_snoc n (set_stack t ((qpg, i) :: rest)) qpg i rest (set_stack t ((hp', zlen f1) :: st')) hp' (zlen f1) st' eq_refl E2 eq_refl).
    apply (restore_one _ hp' f1 zp zf zk f2 V1 V2 V); [done|done|cbn; lia|]. exists hm. rewrite <- Hz in Hgm. exact Hgm.
  - exists (U1 ++ [(ppg, e1 ++ [x])]), (snd m), U2. rewrite Hz. split; [by destruct m|].
    split; [destruct (snd m) as [|y es]; [done|rewrite zlen_cons; pose proof (zlen_nonneg es); lia]|].
    split; [|rewrite length_app, Nat.add_1_r; exact Hst]. rewrite children_app, children_cons, !length_app, length_map. cbn [snd]. rewrite length_app. cbn. lia.
Qed.

Lemma climb_right up : forall low X p s s0 level hp idx,
  L0 :: up0 = low ++ X :: up -> path p (X :: up) s -> (S p < length X)%nat -> (length up <= 50)%nat ->
  moved p (X :: up) level (climb (next_index true) s (set_stack t s0) level hp idx).
Proof using Ht.
  induction up as [|U up IH]; intros low X p s s0 level hp idx E Hp Hlt Hup.
  - pose proof (tr_linked _ _ _ _ Ht) as Hlk. rewrite E in Hlk. apply linked_tail in Hlk. cbn in Hlk.
    apply (f_equal length) in Hlk. rewrite length_map in Hlk. cbn in Hlk. lia.
  - destruct (level_above t L0 up0 free Ht low X U up E) as (HU & _ & Hc & _).
    destruct (path_split p X U up s Hp) as (U1 & ppg & e1 & x & e2 & U2 & s' & EU & -> & Ep & Hp').
    pose proof (path_length _ _ _ Hp') as Hl'. cbn [length] in Hl', Hup. cbn [climb].
    change (set_stack (set_stack t s0) s') with (set_stack t s').
    destruct (inner_page s' U (ppg, e1 ++ x :: e2) HU) as (h & pr & nx & Hh & Hg & _ & Hn & _ & Hb); [rewrite EU, elem_of_app; right; by left|].
    cbn [fst snd] in *. rewrite Hg. unfold next_index at 1. rewrite Hn. rewrite zlen_app, zlen_cons in *.
    pose proof (zlen_nonneg e1). pose proof (zlen_nonneg e2). rewrite u64_id_small by lia.
    destruct e2 as [|y e2].
    + change (zlen []) with 0. rewrite (proj2 (Z.eqb_eq _ _)) by lia. cbv iota.
      assert (HU2 : exists m U2', U2 = m :: U2').
      { destruct U2 as [|m U2]; [|by exists m, U2]. exfalso. apply (f_equal length) in Hc. rewrite EU, children_app, children_cons, !length_app in Hc.
        cbn [snd length map concat children] in Hc. rewrite !length_map, length_app in Hc. unfold children in Hc. cbn in Hc. unfold children in *. lia. }
      destruct HU2 as (m & U2' & ->).
      apply (moved_down low X U up p level ppg e1 x U1 m U2'); [done|done|done|lia|].
      apply (IH (low ++ [X]) U (length U1) s' s' (S level) ppg idx); [by rewrite <- app_assoc|done|rewrite EU, length_app; cbn; lia|lia].
    + rewrite (proj2 (Z.eqb_neq _ _)) by (rewrite zlen_cons; pose proof (zlen_nonneg e2); lia).
      unfold BT_PUSH. cbn [bt_stack set_stack]. rewrite (proj2 (Nat.leb_gt _ _)) by lia. cbn [mbind outcome_bind].
      rewrite (ni_pgno _ _ _ _ _ _ Hh). cbn [fst].
      exists ppg, (zlen e1 + 1), 0%nat, s', ((ppg, zlen e1 + 1) :: s'). rewrite Nat.add_0_r. split; [done|]. split; [done|]. split; [|done].
      exists U1, (e1 ++ x :: y :: e2), U2. split; [done|]. split; [rewrite zlen_app, !zlen_cons; pose proof (zlen_nonneg e2); lia|]. split; [|done].
      unfold zlen. lia.
Qed.

(** *** Along the leaves *)

Lemma leaf_numbers : NoDup (map fst L0).
Proof using Ht.
  pose proof (tr_numbers _ _ _ _ Ht) as H. unfold numbers in H. cbn [map concat] in H. rewrite <- app_assoc in H. by apply NoDup_app in H as [H _].
Qed.

Lemma leaves_apart A n B L1 m L2 : L0 = A ++ n :: B -> L0 = L1 ++ m :: L2 -> length A <> length L1 -> fst n <> fst m.
Proof using Ht.
  intros E1 E2 Hl E. apply Hl. apply (NoDup_lookup (map fst L0) _ _ (fst n) leaf_numbers); rewrite lookup_map.
  - by rewrite E1, list_lookup_middle.
  - by rewrite E2, list_lookup_middle, E.
Qed.

Lemma move_right d : forall A n B L1 m L2 s fuel,
  L0 = A ++ n :: B -> L0 = L1 ++ m :: L2 -> length L1 = (length A + d)%nat -> path (length A) (L0 :: up0) s -> (d < fuel)%nat ->
  (length up0 <= 50)%nat ->
  exists s', move_to fuel true (set_stack t s) (fst n) (fst m) = Ret (Some (fst m), set_stack t s') /\ path (length L1) (L0 :: up0) s'.
Proof using Ht.
  induction d as [|d IH]; intros A n B L1 m L2 s fuel E1 E2 Hd Hp Hf Hup; (destruct fuel as [|fuel]; [lia|]);
    pose proof (tree_stack t L0 up0 free Ht s) as Hts;
    destruct (leaf_page_at (set_stack t s) L0 up0 free Hts A n B E1) as (h & Hh & Ep & _);
    cbn [move_to]; rewrite Ep; cbn [mbind outcome_bind]; rewrite (ni_pgno _ _ _ _ _ _ Hh).
  - assert (E : n = m).
    { rewrite E1 in E2. apply app_inj_1 in E2 as [_ E2]; [by injection E2|lia]. }
    subst m. rewrite Z.eqb_refl. exists s. split; [done|]. by replace (length L1) with (length A) by lia.
  - rewrite (proj2 (Z.eqb_neq _ _)) by (apply (leaves_apart A n B L1 m L2 E1 E2); lia).
    assert (HB : exists n' B', B = n' :: B').
    { destruct B as [|n' B']; [|by exists n', B']. exfalso. rewrite E1 in E2. apply (f_equal length) in E2. rewrite !length_app in E2. cbn in E2. lia. }
    destruct HB as (n' & B' & ->).
    destruct (next_leaf (set_stack t s) L0 up0 free Hts A n (n' :: B') h E1 Hh ltac:(done)) as (Hv & _ & _).
    rewrite (ni_next _ _ _ _ _ _ Hh) in *. cbn [first_of] in *. rewrite (proj2 (Z.eqb_neq _ _) Hv). cbn [bt_stack set_stack].
    destruct (climb_right up0 [] L0 (length A) s s 0 (fst n) 0) as (ppg & i & k & rest & s1 & Ec & Er & Hp1 & _);
      [done|done|rewrite E1, length_app; cbn; lia|done|].
    rewrite Ec. cbn [mbind outcome_bind Nat.add]. rewrite Er. cbn [mbind outcome_bind negb].
    assert (E1' : L0 = (A ++ [n]) ++ n' :: B') by (rewrite E1, <- app_assoc; done).
    destruct (leaf_page_at (set_stack t s1) L0 up0 free (tree_stack t L0 up0 free Ht s1) _ n' B' E1') as (h' & _ & _ & Hg & _).
    rewrite Hg. apply (IH (A ++ [n]) n' B' L1 m L2 s1 fuel E1' E2); [rewrite length_app; cbn; lia| |lia|done].
    rewrite length_app, Nat.add_1_r. exact Hp1.
Qed.

Lemma leaves_below : (length L0 <= Z.to_nat (npages (bt_mp t)))%nat.
Proof using Ht.
  pose proof (tr_range _ _ _ _ Ht) as Hr. unfold numbers in Hr. cbn [map concat] in Hr. rewrite <- app_assoc in Hr.
  apply Forall_app in Hr as [Hr _]. pose proof leaf_numbers as Hn.
  assert (Hn' : List.NoDup (map Z.to_nat (map fst L0))).
  { apply NoDup_ListNoDup. apply NoDup_fmap_2_strong; [|done]. rewrite Forall_forall in Hr. intros a b Ha%Hr Hb%Hr. lia. }
  pose proof (NoDup_incl_length Hn' (l' := seq 0 (Z.to_nat (npages (bt_mp t))))) as H. rewrite !length_map, length_seq in H. apply H.
  intros a Ha. apply in_map_iff in Ha as (b & <- & Hb%list_elem_of_In). rewrite Forall_forall in Hr. apply Hr in Hb. apply in_seq. lia.
Qed.

(** The search for the empty key ends at the first leaf. *)
Lemma search_first : (length up0 <= 50)%nat -> exists n B s r, __bt_search t [] = Ret (Some r, set_stack t s) /\
  L0 = n :: B /\ fst (fst r) = fst n /\ path 0 (L0 :: up0) s.
Proof using Ht.
  intros Hup. destruct (search_spec t L0 up0 free Ht [] eq_refl Hup) as (L1 & m & L2 & s & r & E & Hloc & Hfd).
  destruct (located_keys t L0 up0 free Ht [] L1 m L2 s Hloc) as [Hk _]. pose proof (lo_level _ _ _ _ _ _ _ Hloc) as EL.
  destruct Hfd as (a & c & found & -> & _). pose proof (lo_path _ _ _ _ _ _ _ Hloc) as Hp.
  assert (E1 : L1 = []).
  { destruct (leaf_cases t L0 up0 free Ht) as [(its & E1)|Hne].
    - rewrite E1 in EL. destruct L1 as [|? L1]; [done|]. by destruct L1.
    - destruct L1 as [|[pg its] L1]; [done|]. rewrite EL in Hne. apply Forall_cons in Hne as [Hn _]. unfold not_empty in Hn. cbn in Hn.
      rewrite items_of_cons in Hk. destruct its as [|y its]; [done|]. cbn in Hk. apply Forall_cons in Hk as [Hx _]. unfold klt in Hx. by destruct (ikey y). }
  subst L1. exists m, L2, s, (fst m, zlen a, found). done.
Qed.

(** The stack of the page of the cursor. *)
Lemma stkacq_spec L1 m L2 : (length up0 <= 50)%nat -> L0 = L1 ++ m :: L2 -> c_pgno (bt_cursor t) = fst m -> c_key (bt_cursor t) = [] ->
  exists s, __bt_stkacq t = Ret (false, set_stack t s) /\ path (length L1) (L0 :: up0) s.
Proof using Ht.
  intros Hup E Hc Hk. unfold __bt_stkacq. rewrite Hk, Hc.
  destruct (search_first Hup) as (n & B & s & [[pg index] found] & Es & E1 & Hpg & Hp). cbn [fst] in Hpg. subst pg. rewrite Es. cbn [mbind outcome_bind].
  destruct (move_right (length L1) [] n B L1 m L2 s (S (Z.to_nat (npages (bt_mp t))))) as (s' & Em & Hp'); [done|done|done|done| |done|].
  { pose proof leaves_below as Hl. rewrite E, length_app in Hl. cbn in Hl. lia. }
  rewrite Em. cbn [mbind outcome_bind].
  destruct (leaf_page_at (set_stack t s') L0 up0 free (tree_stack t L0 up0 free Ht s') L1 m L2 E) as (h & Hh & Ep & Hg & _).
  rewrite Ep. cbn [mbind outcome_bind]. rewrite (ni_pgno _ _ _ _ _ _ Hh), Z.eqb_refl, Hg. by exists s'.
Qed.
End stack.

(** ** What leaves the cursor alone *)

(** A run after which the cursor is as given. *)
Definition leaves {A} (c : cursor) (run : outcome (A * btree)) : Prop :=
  match run with Ret (_, t) => bt_cursor t = c | _ => True end.

Lemma leaves_bind {A B} c (run : outcome (A * btree)) (f : A * btree -> outcome (B * btree)) :
  leaves c run -> (forall a t, bt_cursor t = c -> leaves c (f (a, t))) -> leaves c (run ≫= f).
Proof. destruct run as [[a t]| |]; cbn; [|done..]. intros Hc Hf. by apply Hf. Qed.

Lemma leaves_get {A B} c (m : outcome A) (f : A -> outcome (B * btree)) : (forall a, leaves c (f a)) -> leaves c (m ≫= f).
Proof. by destruct m as [a| |]; cbn. Qed.

Lemma mpool_get_cursor t pg : bt_cursor (snd (mpool_get t pg)) = bt_cursor t.
Proof. unfold mpool_get, call_works. destruct (_ <=? _); [done|]. by destruct (calls (bt_mp t)) as [|[|] ?]. Qed.

Lemma leaves_mpool {B} t pg (f : option page * btree -> outcome (B * btree)) :
  (forall h t', bt_cursor t' = bt_cursor t -> leaves (bt_cursor t) (f (h, t'))) -> leaves (bt_cursor t) (f (mpool_get t pg)).
Proof. intros Hf. pose proof (mpool_get_cursor t pg) as H. destruct (mpool_get t pg) as [h t']. by apply Hf. Qed.

Lemma bt_free_leaves {B} t pg (f : btree -> outcome (B * btree)) :
  (forall t', bt_cursor t' = bt_cursor t -> leaves (bt_cursor t) (f t')) -> leaves (bt_cursor t) (__bt_free t pg ≫= f).
Proof. intros Hf. unfold __bt_free. destruct (page_at t pg) as [h| |]; [|done..]. by apply Hf. Qed.

Lemma relink_one_cursor t pg f : bt_cursor (snd (relink_one t pg f)) = bt_cursor t.
Proof.
  unfold relink_one. destruct (_ =? _); [done|]. pose proof (mpool_get_cursor t pg) as H. by destruct (mpool_get t pg) as [[n|] t'].
Qed.

Lemma relink_leaves t pg : leaves (bt_cursor t) (__bt_relink t pg).
Proof.
  unfold __bt_relink. apply leaves_get. intros h. pose proof (relink_one_cursor t (nextpg h) (fun n => set_prevpg n (prevpg h))) as H.
  destruct (relink_one t _ _) as [[|] t1]; cbn [negb]; [|exact H]. apply leaves_get. intros h1.
  pose proof (relink_one_cursor t1 (prevpg h1) (fun p => set_nextpg p (nextpg h1))) as H1.
  destruct (relink_one t1 _ _) as [ok t2]. cbn in *. congruence.
Qed.

Lemma remove_page_leaves t pg : leaves (bt_cursor t) (remove_page t pg).
Proof.
  unfold remove_page. apply leaves_bind; [apply relink_leaves|]. intros status t1 H1. destruct (RET_FAILED status); [done|].
  rewrite <- H1. by apply bt_free_leaves.
Qed.

Lemma ovfl_delete_leaves fuel : forall t pg h sz, leaves (bt_cursor t) (ovfl_delete_loop fuel t pg h sz).
Proof.
  induction fuel as [|fuel IH]; intros t pg h sz; [done|]. cbn [ovfl_delete_loop]. apply bt_free_leaves. intros t1 H1.
  destruct (_ <=? _); [done|]. rewrite <- H1.
  apply (leaves_mpool t1 (nextpg h) (fun r => match r with (None, t) => Ret (RET_ERROR, t) | (Some h', t) => ovfl_delete_loop fuel t (nextpg h) h' _ end)).
  intros [h'|] t2 H2; [|done]. rewrite <- H2. apply IH.
Qed.

Lemma free_overflow_leaves t flagged ref : leaves (bt_cursor t) (free_overflow t flagged ref).
Proof.
  unfold free_overflow, __ovfl_delete. destruct flagged; [|done].
  apply (leaves_mpool t (le_word ref 0) (fun r => match r with (None, t) => Ret (RET_ERROR, t)
    | (Some h, t) => if is_set (flags h) P_PRESERVE then Ret (RET_SUCCESS, t) else ovfl_delete_loop _ t (le_word ref 0) h _ end)).
  intros [h|] t1 H1; [|done]. destruct (is_set _ _); [done|]. rewrite <- H1. apply ovfl_delete_leaves.
Qed.

Lemma pdelete_loop_leaves s : forall t, leaves (bt_cursor t) (pdelete_loop s t).
Proof.
  induction s as [|[ppg index] s IH]; intros t; [done|]. cbn [pdelete_loop]. change (bt_cursor t) with (bt_cursor (set_stack t s)).
  pose proof (mpool_get_cursor (set_stack t s) ppg) as H. destruct (mpool_get _ ppg) as [[pg|] t1]; cbn [snd] in H; rewrite <- H; [|done].
  apply leaves_get. intros [[? fl] key]. apply leaves_bind; [apply free_overflow_leaves|]. intros status t2 H2. rewrite <- H2.
  destruct (_ =? RET_ERROR); [done|]. destruct (_ =? 1); [|done]. destruct (_ =? P_ROOT); [done|].
  apply leaves_bind; [apply remove_page_leaves|]. intros [|] t3 H3; [done|]. rewrite <- H3. apply IH.
Qed.

Lemma pdelete_leaves t pg : leaves (bt_cursor t) (__bt_pdelete t pg).
Proof.
  unfold __bt_pdelete. apply leaves_bind; [apply pdelete_loop_leaves|]. intros status t1 H1. rewrite <- H1.
  destruct (RET_FAILED status); [done|]. apply leaves_get. intros h. destruct (_ =? P_ROOT); [done|].
  apply leaves_bind; [apply remove_page_leaves|]. by intros failed t2 H2.
Qed.

(** ** The records are in order *)

Lemma leaves_sorted L : forall B, bsorted B -> leaves_in B L [] -> StronglySorted klt (map ikey (items_of L)).
Proof.
  induction L as [|n L IH]; intros B Hs Hl; [constructor|]. destruct B as [|b B]; [done|]. destruct Hl as [[Hn Hk] Hl].
  inversion Hs as [|? ? Hs' _]; subst. rewrite items_of_cons, map_app. apply sorted_app. split; [done|]. split; [by apply (IH B)|].
  intros y z Hy Hz. apply list_elem_of_fmap in Hy as (x & -> & Hx). apply list_elem_of_fmap in Hz as (x' & -> & Hx').
  rewrite Forall_forall in Hk. destruct (Hk x Hx) as [_ Hb]. rewrite app_nil_r in Hb.
  pose proof (right_keys (ikey x) L B [] Hs' Hl Hb) as Hr. rewrite Forall_forall in Hr. by apply Hr.
Qed.

Lemma rank_of l x r : StronglySorted klt (map ikey (l ++ x :: r)) -> rank (ikey x) (map record_of (l ++ r)) = length l.
Proof.
  rewrite map_app. cbn [map]. intros (_ & Hr & Hl)%sorted_app. apply rank_app; apply Forall_forall; intros y Hy.
  - apply Hl; [by apply list_elem_of_fmap_2|by left].
  - inversion Hr as [|? ? _ F]; subst. rewrite Forall_forall in F. intros Hyx. apply (klt_irrefl (ikey x)), klt_trans with (ikey y); [|done].
    by apply F, list_elem_of_fmap_2.
Qed.

(** ** __bt_delete with R_CURSOR *)

Lemma c_set_lor c f g : c_set c (Z.lor f g) = c_set c f || c_set c g.
Proof.
  unfold c_set, is_set. rewrite Z.land_lor_distr_r, <- negb_andb. f_equal. apply eq_iff_eq_true.
  rewrite andb_true_iff, !Z.eqb_eq. apply Z.lor_eq_0_iff.
Qed.

Section under.
Context (t : btree) (L : level) (up : list level) (free : list Z) (Ht : tree t L up free) (Hw : writable t).
Context (i : nat) (Hcur : cursor_at t L (At i)) (Hup : (length up <= 50)%nat).

(** The record under the cursor goes; the cursor has its key. *)
Definition goes (run : outcome (Z * btree)) : Prop :=
  exists k d t', contents L !! i = Some (k, d) /\ run = Ret (RET_SUCCESS, t') /\ taken_from t up (delete i (contents L)) run /\
    rank k (delete i (contents L)) = i /\ small_key k /\
    c_key (bt_cursor t') = k /\ c_set (bt_cursor t') CURS_ACQUIRE = true /\ c_set (bt_cursor t') CURS_INIT = true.

Lemma delete_split L1 a x c L2 : L = L1 ++ (c_pgno (bt_cursor t), a ++ x :: c) :: L2 -> i = length (items_of L1 ++ a) ->
  delete i (contents L) = map record_of ((items_of L1 ++ a) ++ c ++ items_of L2) /\ contents L !! i = Some (record_of x) /\
  rank (ikey x) (delete i (contents L)) = i.
Proof using Ht.
  intros E Hi. assert (Ei : items_of L = (items_of L1 ++ a) ++ x :: c ++ items_of L2).
  { rewrite E, items_of_app, items_of_cons. cbn [snd]. by rewrite <- !app_assoc. }
  assert (Ed : delete i (contents L) = map record_of ((items_of L1 ++ a) ++ c ++ items_of L2)).
  { unfold contents. rewrite Ei, Hi. generalize (items_of L1 ++ a). intros l. induction l as [|y l IH]; [done|]. cbn. by f_equal. }
  split; [done|]. split.
  - unfold contents. rewrite lookup_map, Ei, Hi. by rewrite list_lookup_middle.
  - rewrite Ed, Hi. apply rank_of. rewrite <- Ei. apply (leaves_sorted L _ (tr_sorted _ _ _ _ Ht) (tr_keys _ _ _ _ Ht)).
Qed.

(** The stack is there when the leaf is to go. *)
Lemma stack_ready L1 m L2 h : L = L1 ++ m :: L2 -> c_pgno (bt_cursor t) = fst m -> NEXTINDEX h = zlen (snd m) -> exists s,
  (if NEXTINDEX h =? 1 then __bt_stkacq t else Ret (false, t)) = Ret (false, set_stack t s) /\
  (zlen (snd m) = 1 -> path (length L1) (L :: up) s).
Proof using All.
  intros E Hm Hn. destruct Hcur as (_ & _ & _ & _ & Hk & _). rewrite Hn. destruct (Z.eqb_spec (zlen (snd m)) 1) as [H1|H1].
  - destruct (stkacq_spec t L up free Ht L1 m L2 Hup E Hm Hk) as (s & Es & Hp). by exists s.
  - exists (bt_stack t). split; [by destruct t|done].
Qed.

Lemma delete_under : goes ('(status, over, t) ← delete_cursor t; Ret (status, if negb over && (status =? RET_SUCCESS) then modified t else t)).
Proof using All.
  destruct (cursor_page t L up free Ht i Hcur) as (L1 & a & x & c & L2 & h & E & Ei & Hi & Hh & Hg & Hn & Hb).
  destruct (delete_split L1 a x c L2 E Hi) as (Ed & Hx & Hrk). pose proof Hcur as (Hin & Hac & _ & _ & Hk & _).
  unfold delete_cursor. rewrite Hg. pose proof (zlen_nonneg a) as Ha. pose proof (zlen_nonneg c) as Hc.
  destruct (stack_ready L1 _ L2 h E eq_refl) as (s & -> & Hp); [cbn [snd]; rewrite zlen_app, zlen_cons; lia|].
  cbn [mbind outcome_bind snd] in *. set (t0 := set_stack t s) in *. change (bt_cursor t0) with (bt_cursor t). rewrite Ei.
  destruct (proj1 (tree_shape _ _ _ _) Ht) as [Hl _]. rewrite E in Hl.
  pose proof (laid_same t t0 _ _ eq_refl eq_refl ltac:(by split) Hl) as Hl0.
  destruct (dleaf_spec t0 L1 _ a x c L2 up free None Hl0) as (h' & cu & Ed' & Hp' & Hl1 & Hcu).
  rewrite Ed'. cbn [mbind outcome_bind]. set (h1 := pack h' (zlen a) (size x)) in *. set (t1 := store t0 _ h1) in *.
  rewrite (page_at_page (set_cursor t1 cu) _ h1) by apply page_store. cbn [mbind outcome_bind].
  rewrite (packed_count t0 L1 _ (a ++ c) L2 up free h1 Hl1). pose proof (laid_cursor t1 cu _ _ Hl1) as Hl2.
  assert (h' = h) as ->.
  { pose proof (ni_page _ _ _ _ _ _ Hh) as Hpg. change (bt_mp t0) with (bt_mp t) in Hp'. cbn [fst] in Hpg. congruence. }
  destruct Hcu as (K1 & K2 & K3).
  { change (bt_cursor t0) with (bt_cursor t). unfold on_page. change (bt_cursor t0) with (bt_cursor t).
    rewrite Hin, Hac, Ei, (ni_pgno _ _ _ _ _ _ Hh). cbn [fst]. by rewrite !Z.eqb_refl. }
  change (bt_cursor t0) with (bt_cursor t) in K3. rewrite Hin in K3.
  assert (Hsm : small_key (ikey x)).
  { apply (item_small_key t); [apply (tr_standard _ _ _ _ Ht)|]. pose proof (ni_small _ _ _ _ _ _ Hh) as Hs. cbn [snd] in Hs.
    apply Forall_app in Hs as [_ Hs]. by apply Forall_cons in Hs as [? _]. }
  assert (Hgo : forall t3, taken_from t up (map record_of ((items_of L1 ++ a) ++ c ++ items_of L2)) (Ret (RET_SUCCESS, modified t3)) ->
    bt_cursor t3 = cu -> goes (Ret (RET_SUCCESS, modified t3))).
  { intros t3 H3 Hc3. exists (ikey x), (idata x), (modified t3). rewrite Ed. split; [exact Hx|]. split; [done|]. split; [done|].
    rewrite <- Ed. change (bt_cursor (modified t3)) with (bt_cursor t3). by rewrite Hc3. }
  change (RET_SUCCESS =? RET_SUCCESS) with true. destruct (Z.eqb_spec (zlen (a ++ c)) 0) as [E0|E0]; cbn [andb].
  - apply zlen_nil_inv in E0.
    destruct (taken_page t L up free Ht Hw (set_cursor t1 cu) L1 _ a x c L2 E Hl2 ltac:(by split) eq_refl E0) as (t3 & E3 & H3).
    { apply Hp. apply app_eq_nil in E0 as [-> ->]. done. }
    pose proof (pdelete_leaves (set_cursor t1 cu) (c_pgno (bt_cursor t))) as Hlv. rewrite E3 in Hlv. rewrite E3. by apply (Hgo t3).
  - cbn [mbind outcome_bind negb andb]. apply (Hgo (set_cursor t1 cu)); [|done].
    apply (taken_leaf t L up free Ht Hw (set_cursor t1 cu) L1 _ a x c L2 E Hl2 ltac:(by split) eq_refl). by intros Enil; rewrite Enil in E0.
Qed.
End under.

Lemma drop_delete {A} i : forall l : list A, drop i (delete i l) = drop (S i) l.
Proof. induction i as [|i IH]; intros [|y l]; try done. exact (IH l). Qed.

(** From here a scan gives these records, and ends. *)
Definition resumes (t : btree) (levels count : nat) (rs : Samdb.records) : Prop :=
  forall n f, (count < n)%nat -> (levels < f)%nat -> scan n f t Next Next = Ret rs.

(** ** Properties *)

(** C8: __bt_delete with R_CURSOR takes the record under the cursor out of the tree and nothing else, also
    where it is the only one of its leaf: the stack of parents that the removal of the leaf needs is then
    found by a walk over the leaves.  The cursor keeps the key, so a second deletion gives RET_SPECIAL, and
    the scan goes on with the records after the one that is gone. *)
Theorem bt_delete_cursor t L up free i fuel key :
  tree t L up free -> writable t -> cursor_at t L (At i) -> (length up <= 50)%nat ->
  exists k d t' L' up' free', contents L !! i = Some (k, d) /\
    __bt_delete fuel t key R_CURSOR = Ret (RET_SUCCESS, t') /\ tree t' L' up' free' /\ writable t' /\ cfg t' = cfg t /\
    contents L' = delete i (contents L) /\ npages (bt_mp t') = npages (bt_mp t) /\ (length up' <= length up)%nat /\
    cursor_at t' L' (Gone k) /\ __bt_delete fuel t' key R_CURSOR = Ret (RET_SPECIAL, t') /\
    resumes t' (length up) (length (contents L)) (drop (S i) (contents L)).
Proof.
  intros Ht Hw Hcur Hup. pose proof (delete_under t L up free Ht Hw i Hcur Hup) as Hgo. pose proof Hcur as (Hin & Hac & Haf & Hbf & _).
  assert (E : __bt_delete fuel t key R_CURSOR =
    ('(status, over, t) ← delete_cursor t; Ret (status, if negb over && (status =? RET_SUCCESS) then modified t else t))).
  { unfold __bt_delete. unfold writable in Hw. rewrite Hw, Hin, !c_set_lor, Hac, Haf, Hbf. done. }
  rewrite E. destruct Hgo as (k & d & t1 & Hr & E1 & (t' & L' & up' & free' & E2 & Ht' & Hw' & [Hcf _] & Hc & Hn & Hu) & Hrk & Hsm & K1 & K2 & K3).
  rewrite E1 in E2. injection E2 as ->. exists k, d, t', L', up', free'. rewrite E1.
  assert (Hg : cursor_at t' L' (Gone k)) by done. repeat (split; [done|]). split.
  - unfold __bt_delete. unfold writable in Hw'. rewrite Hw', K3, !c_set_lor, K2. done.
  - intros n f Hl Hf. rewrite <- drop_delete, <- Hc. apply (scan_forward L' up' free' f ltac:(lia) ltac:(lia) n t' (Gone k)); [done|done|done| |].
    + cbn [target]. by rewrite Hc, Hrk.
    + rewrite Hc. pose proof (length_delete (contents L) i). apply lookup_lt_Some in Hr as Hlt. rewrite H by done. lia.
Qed.

(** A leaf with two records, the cursor on the first. *)
Definition on_first : btree := __bt_setcur (one_leaf 512 two_records) P_ROOT 0.

Lemma bt_delete_cursor_witness :
  let L := [(P_ROOT, two_records)] in
  exists k d t' L' up' free', contents L !! 0%nat = Some (k, d) /\
    __bt_delete 1 on_first [] R_CURSOR = Ret (RET_SUCCESS, t') /\ tree t' L' up' free' /\ writable t' /\ cfg t' = cfg on_first /\
    contents L' = delete 0%nat (contents L) /\ npages (bt_mp t') = npages (bt_mp on_first) /\ (length up' <= 0)%nat /\
    cursor_at t' L' (Gone k) /\ __bt_delete 1 t' [] R_CURSOR = Ret (RET_SPECIAL, t') /\
    resumes t' 0 2 [([3], [30])].
Proof.
  intros L. assert (Hp : place L 0 P_ROOT 0) by exact (place_in [] P_ROOT [] (BLEAF 0 [1] [10]) [BLEAF 0 [3] [30]] []).
  exact (bt_delete_cursor on_first L [] [] 0 1 [] (tree_cursor _ _ _ _ two_records_tree _) eq_refl
    (conj eq_refl (conj eq_refl (conj eq_refl (conj eq_refl (conj eq_refl Hp))))) ltac:(cbn; lia)).
Defined.
End BtCursor.
