(* ===== verification/BtOverflow.v ===== *)
(** Long keys and data of a btree (db.1.85/bt_overflow.c): they are stored in a chain of pages,
    read back from it, and its pages return to the free list.  The functions are in BtTree.v. *)

From S2P Require Import Prelude BtPage BtUtils Samdb BtTree BtSearch BtLevels.
From stdpp Require Import gmap.
Import BtPage BtTree BtSearch BtLevels.
#[local] Open Scope Z_scope.

Module BtOverflow.

(** How many bytes a page of a chain takes. *)
Definition plen (t : btree) : Z := psize t - BTDATAOFF.

(** The pages hold the data: all but the last are full. *)
Fixpoint chain (t : btree) (ns : list Z) (data : list Z) : Prop :=
  match ns with
  | [] => False
  | n :: rest => exists h, pages (bt_mp t) !! n = Some h /\ pgno h = n /\ flags h = P_OVERFLOW /\
      let nb := Z.to_nat (Z.min (zlen data) (plen t)) in
      take nb (bytes h) = take nb data /\
      match rest with
      | [] => zlen data <= plen t
      | m :: _ => nextpg h = m /\ plen t < zlen data /\ chain t rest (drop nb data)
      end
  end.

Lemma plen_pos t : standard t -> 0 < plen t.
Proof. intros [H _ _ _ _]. unfold plen, BTDATAOFF. lia. Qed.

Lemma chain_agree t t' ns data : agree t t' ns -> chain t ns data -> chain t' ns data.
Proof.
  revert data. induction ns as [|n ns IH]; intros data Ha; [done|]. intros (h & Hh & Hp & Hf & Hb & Hr).
  assert (E : plen t' = plen t) by (unfold plen; by rewrite (proj1 Ha)).
  exists h. rewrite (proj2 Ha) by (by left). rewrite E. split; [done|]. split; [done|]. split; [done|]. split; [done|].
  destruct ns as [|m ns]; [done|]. destruct Hr as (? & ? & Hr). split; [done|]. split; [done|]. apply IH; [|done].
  eapply agree_sub; [|exact Ha]. intros x Hx. by right.
Qed.

(** A page but the last takes at least one byte. *)
Lemma chain_length t ns data : standard t -> chain t ns data -> (length ns <= S (length data))%nat.
Proof.
  intros Hst. pose proof (plen_pos t Hst) as Hp. revert data. induction ns as [|n ns IH]; intros data; [done|].
  intros (h & _ & _ & _ & _ & Hr). destruct ns as [|m ns]; [cbn; lia|]. destruct Hr as (_ & Hl & Hr).
  apply IH in Hr. rewrite length_drop in Hr. unfold zlen in *. cbn [length] in *. lia.
Qed.

(** ** Reading *)

Lemma get_loop_spec t ns : forall fuel data buf,
  standard t -> chain t ns data -> Forall (fun n => 0 < n < npages (bt_mp t)) ns -> (length ns <= fuel)%nat ->
  ovfl_get_loop fuel t (hd 0 ns) (zlen data) buf = Ret (Some (buf ++ data), t).
Proof.
  induction ns as [|n ns IH]; intros fuel data buf Hst Hc Hr Hf; [done|]. destruct fuel as [|fuel]; [cbn in Hf; lia|].
  destruct Hc as (h & Hh & _ & _ & Hb & Hn). apply Forall_cons in Hr as [Hr1 Hr]. cbn [hd ovfl_get_loop].
  rewrite (mpool_get_page t Hst n h) by (done || lia). fold (plen t). rewrite Hb.
  pose proof (zlen_nonneg data). pose proof (plen_pos t Hst). destruct ns as [|m ns].
  - rewrite Z.min_l by lia. rewrite Z.sub_diag, Z.eqb_refl. rewrite take_ge by (unfold zlen; lia). done.
  - destruct Hn as (-> & Hl & Hc). rewrite Z.min_r in * by lia. rewrite (proj2 (Z.eqb_neq _ _)) by lia.
    replace (zlen data - plen t) with (zlen (drop (Z.to_nat (plen t)) data)) by (unfold zlen in *; rewrite length_drop; lia).
    change m with (hd 0 (m :: ns)) at 1. rewrite (IH fuel) by (done || (cbn in Hf |- *; lia)). by rewrite <- app_assoc, take_drop.
Qed.

(** ** Deletion *)

Lemma delete_loop_spec ns : forall fuel t ms free data h,
  standard t -> alloc t (ns ++ ms) free -> chain t ns data -> pages (bt_mp t) !! hd 0 ns = Some h -> (length ns <= fuel)%nat ->
  exists t', ovfl_delete_loop fuel t (hd 0 ns) h (zlen data) = Ret (RET_SUCCESS, t') /\
    alloc t' ms (rev ns ++ free) /\ agree t t' ms /\ keeps t t' /\ npages (bt_mp t') = npages (bt_mp t).
Proof.
  induction ns as [|n ns IH]; intros fuel t ms free data h Hst Ha Hc Hh Hf; [done|]. destruct fuel as [|fuel]; [cbn in Hf; lia|].
  destruct Hc as (h' & Hh' & Hp & _ & _ & Hn). cbn [hd] in *. rewrite Hh in Hh'. injection Hh' as <-. cbn [ovfl_delete_loop].
  destruct (bt_free_spec t (ns ++ ms) free n h Ha Hh Hp) as (t1 & -> & Ha1 & Hg1 & Hk1 & _ & _ & Hnp). cbn [mbind outcome_bind].
  fold (plen t). destruct ns as [|m ns].
  - rewrite (proj2 (Z.leb_le _ _)) by done. exists t1. by repeat (split; [done|]).
  - destruct Hn as (-> & Hl & Hc). rewrite (proj2 (Z.leb_gt _ _)) by lia. pose proof (keeps_standard _ _ Hk1 Hst) as Hst1.
    assert (Hc1 : chain t1 (m :: ns) (drop (Z.to_nat (Z.min (zlen data) (plen t))) data)).
    { eapply chain_agree; [|exact Hc]. eapply agree_sub; [|exact Hg1]. intros x Hx. rewrite elem_of_app. by left. }
    pose proof Hc1 as (h1 & Hh1 & _).
    assert (Hm : 0 < m < npages (bt_mp t1)) by (eapply alloc_in; [exact Ha1|]; rewrite elem_of_app; left; by left).
    rewrite (mpool_get_page t1 Hst1 m h1) by (done || lia). pose proof (plen_pos t Hst).
    replace (zlen data - plen t) with (zlen (drop (Z.to_nat (Z.min (zlen data) (plen t))) data))
      by (unfold zlen in *; rewrite length_drop; lia).
    destruct (IH fuel t1 ms (n :: free) _ h1 Hst1 Ha1 Hc1 Hh1) as (t2 & E & Ha2 & Hg2 & Hk2 & Hnp2); [cbn in Hf |- *; lia|].
    exists t2. split; [exact E|]. split; [change (rev (n :: m :: ns)) with (rev (m :: ns) ++ [n]); by rewrite <- app_assoc|].
    split; [|split; [by etrans|congruence]]. eapply agree_trans; [|exact Hg2]. eapply agree_sub; [|exact Hg1].
    intros x Hx. rewrite elem_of_app. by right.
Qed.

(** ** Storing *)

(** How many pages data takes, or one more. *)
Definition needed (t : btree) (data : list Z) : Z := zlen data / plen t + 1.

Lemma needed_drop t data : standard t -> plen t < zlen data ->
  needed t (drop (Z.to_nat (plen t)) data) = needed t data - 1.
Proof.
  intros Hst Hl. pose proof (plen_pos t Hst). unfold needed. replace (zlen (drop (Z.to_nat (plen t)) data)) with (zlen data - 1 * plen t)
    by (unfold zlen in *; rewrite length_drop; lia). rewrite <- (Z.add_opp_r _ (1 * plen t)), <- Z.mul_opp_l, Z.div_add by lia. lia.
Qed.

(** What becomes of the other pages: the last one so far is linked to the new one. *)
Definition linked_to (t t' : btree) (last : option Z) (n : Z) (ns : list Z) : Prop :=
  forall m, m ∈ ns -> pages (bt_mp t') !! m =
    (if decide (last = Some m) then (fun h => set_nextpg h n) <$> pages (bt_mp t) !! m else pages (bt_mp t) !! m).

(** A turn: the page is taken, filled and linked. *)
Lemma put_turn t ns free data last :
  standard t -> alloc t ns free -> 0 < npages (bt_mp t) < MAX_PAGE_NUMBER ->
  match last with Some l => l ∈ ns /\ is_Some (pages (bt_mp t) !! l) | None => True end ->
  exists n t' free' h,
    (forall fuel first, ovfl_put_loop (S fuel) t data first last =
       let nb := Z.to_nat (Z.min (zlen data) (plen t)) in
       let first := match first with Some pg => Some pg | None => Some n end in
       if zlen data - Z.of_nat nb =? 0 then Ret (first, t') else ovfl_put_loop fuel t' (drop nb data) first (Some n)) /\
    alloc t' (n :: ns) free' /\ pages (bt_mp t') !! n = Some h /\ pgno h = n /\ flags h = P_OVERFLOW /\
    take (Z.to_nat (Z.min (zlen data) (plen t))) (bytes h) = take (Z.to_nat (Z.min (zlen data) (plen t))) data /\
    linked_to t t' last n ns /\ keeps t t' /\ npages (bt_mp t) <= npages (bt_mp t') <= npages (bt_mp t) + 1.
Proof.
  intros Hst Ha Hr Hlast. destruct (bt_new_spec t ns free Hst Ha Hr) as (n & t1 & free' & E & Ha1 & [h0 Hh0] & Hag & Hk & _ & _ & Hnp).
  set (nb := Z.to_nat (Z.min (zlen data) (plen t))).
  set (h := set_bytes (init_page h0 n P_INVALID P_INVALID P_OVERFLOW 0 0) (take nb data ++ drop nb (bytes h0))).
  set (t2 := store t1 n h).
  assert (Hn : n ∉ ns) by (intros Hn; pose proof (al_nodup _ _ _ Ha1) as Nd; cbn in Nd; apply NoDup_cons in Nd as [Nd _]; apply Nd; rewrite elem_of_app; by left).
  assert (Ha2 : alloc t2 (n :: ns) free') by (apply alloc_store; [by left|done]).
  assert (Hl : exists t3, match last with Some l => (h ← page_at t2 l; Ret (store t2 l (set_nextpg h n))) | None => Ret t2 end = Ret t3 /\
    alloc t3 (n :: ns) free' /\ linked_to t t3 last n ns /\ pages (bt_mp t3) !! n = Some h /\ keeps t t3 /\ npages (bt_mp t3) = npages (bt_mp t1)).
  { assert (Hold : forall m, m ∈ ns -> pages (bt_mp t2) !! m = pages (bt_mp t) !! m).
    { intros m Hm. assert (m <> n) by (by intros ->). cbn. rewrite lookup_insert_ne by done. by apply Hag. }
    assert (Hk2 : keeps t t2) by (destruct Hk; by split). destruct last as [l|].
    - destruct Hlast as [Hl [hl Hhl]]. rewrite (page_at_page t2 l hl) by (by rewrite Hold). cbn [mbind outcome_bind].
      assert (l <> n) by (by intros ->). eexists. split; [reflexivity|]. split; [apply alloc_store; [by right|done]|]. split; [|split].
      + intros m Hm. change (pages (bt_mp (store t2 l _))) with (<[l := set_nextpg hl n]> (pages (bt_mp t2))). destruct (decide _) as [[= ->]|Hne].
        * by rewrite lookup_insert_eq, Hhl.
        * rewrite lookup_insert_ne by congruence. by apply Hold.
      + cbn. rewrite lookup_insert_ne by done. apply lookup_insert_eq.
      + by destruct Hk2.
    - exists t2. split; [done|]. split; [done|]. split; [|split; [apply lookup_insert_eq|done]].
      intros m Hm. rewrite decide_False by done. by apply Hold. }
  destruct Hl as (t3 & E3 & Ha3 & Hl3 & Hh3 & Hk3 & Hn3). exists n, t3, free', h. split; [|rewrite Hn3; repeat (split; [done|])].
  - intros fuel first. cbn [ovfl_put_loop]. rewrite E, (page_at_page t1 n h0) by done. cbn [mbind outcome_bind].
    change (psize t1 - BTDATAOFF) with (plen t1). replace (plen t1) with (plen t) by (unfold plen; by rewrite (keeps_psize _ _ Hk)).
    fold nb h t2. destruct last as [l|]; [rewrite E3; cbn [mbind outcome_bind]; done|]. injection E3 as ->. cbn [mbind outcome_bind]. done.
  - split; [|by split]. cbn. apply take_app_length'. rewrite length_take. unfold nb, zlen. pose proof (plen_pos t Hst). lia.
Qed.

Lemma linked_agree t t' ns n : linked_to t t' None n ns -> keeps t t' -> agree t t' ns.
Proof. intros H Hk. split; [by apply keeps_psize|]. intros m Hm. rewrite (H m Hm). by rewrite decide_False. Qed.

Lemma put_loop_spec fuel : forall t ns free data first last,
  standard t -> alloc t ns free -> 0 < npages (bt_mp t) -> npages (bt_mp t) + needed t data <= MAX_PAGE_NUMBER ->
  match last with Some l => l ∈ ns /\ is_Some (pages (bt_mp t) !! l) | None => True end -> (length data < fuel)%nat ->
  exists n c t' free', ovfl_put_loop fuel t data first last = Ret (Some (default n first), t') /\
    alloc t' (rev (n :: c) ++ ns) free' /\ chain t' (n :: c) data /\ linked_to t t' last n ns /\ keeps t t' /\
    npages (bt_mp t) <= npages (bt_mp t') <= npages (bt_mp t) + needed t data.
Proof.
  induction fuel as [|fuel IH]; intros t ns free data first last Hst Ha H0 Hm Hlast Hf; [lia|].
  pose proof (plen_pos t Hst) as Hpl. pose proof (zlen_nonneg data) as Hz.
  assert (Hnd : 1 <= needed t data) by (unfold needed; pose proof (Z.div_pos (zlen data) (plen t)); lia).
  destruct (put_turn t ns free data last Hst Ha ltac:(lia) Hlast) as (n & t1 & free1 & h & E & Ha1 & Hh & Hp & Hfl & Hb & Hl & Hk & Hnp).
  rewrite E. clear E. cbv zeta. pose proof (keeps_standard _ _ Hk Hst) as Hst1.
  assert (Epl : plen t1 = plen t) by (unfold plen; by rewrite (keeps_psize _ _ Hk)).
  replace (match first with Some pg => Some pg | None => Some n end) with (Some (default n first)) by by destruct first.
  destruct (Z.le_gt_cases (zlen data) (plen t)) as [Hle|Hgt].
  - rewrite (proj2 (Z.eqb_eq _ _)) by lia. exists n, [], t1, free1. split; [done|]. split; [done|]. split; [|split; [done|split; [done|lia]]].
    exists h. rewrite Epl. by repeat (split; [done|]).
  - rewrite (proj2 (Z.eqb_neq _ _)) by lia. rewrite Z.min_r in * by lia.
    set (rest := drop (Z.to_nat (plen t)) data).
    assert (Hlen : (length rest < fuel)%nat) by (unfold rest, zlen in *; rewrite length_drop; lia).
    assert (Hneed : needed t1 rest = needed t data - 1).
    { unfold needed at 1. rewrite Epl. fold (needed t rest). by apply needed_drop. }
    destruct (IH t1 (n :: ns) free1 rest (Some (default n first)) (Some n) Hst1 Ha1) as (m & c & t2 & free2 & E & Ha2 & Hc & Hl2 & Hk2 & Hnp2);
      [lia|lia|split; [by left|by eexists]|done|].
    exists n, (m :: c), t2, free2. split; [exact E|]. split; [|split; [|split; [|split; [by etrans|lia]]]].
    + change (rev (n :: m :: c)) with (rev (m :: c) ++ [n]). by rewrite <- app_assoc.
    + pose proof (Hl2 n ltac:(by left)) as Hn. rewrite decide_True, Hh in Hn by done. cbn in Hn. exists (set_nextpg h m).
      replace (plen t2) with (plen t) by (unfold plen; by rewrite (keeps_psize _ _ Hk2), (keeps_psize _ _ Hk)).
      rewrite Z.min_r by lia. by repeat (split; [done|]).
    + intros x Hx. assert (x <> n).
      { intros ->. pose proof (al_nodup _ _ _ Ha1) as Nd. cbn in Nd. apply NoDup_cons in Nd as [Nd _]. apply Nd. rewrite elem_of_app. by left. }
      rewrite (Hl2 x) by (by right). rewrite decide_False by congruence. by apply Hl.
Qed.

(** ** The references *)

Lemma ref_words pg sz : is_u32 pg -> is_u32 sz -> le_word (ovfl_ref pg sz) 0 = pg /\ le_word (ovfl_ref pg sz) 1 = sz.
Proof. intros H1 H2. unfold ovfl_ref. split; [rewrite <- (le_word_bytes pg H1) at 2|rewrite <- (le_word_bytes sz H2) at 2]; done. Qed.

(** ** Properties *)

(** C9: What __ovfl_put stores __ovfl_get reads back from the reference to it, and __ovfl_delete returns its
    pages, and no others, to the free list; neither touches a page in use, and a
    chain that is marked for an internal page stays. *)
Theorem bt_ovfl_roundtrip t ns free data :
  standard t -> alloc t ns free -> 0 < npages (bt_mp t) -> npages (bt_mp t) + needed t data <= MAX_PAGE_NUMBER ->
  zlen data < 2 ^ 32 ->
  exists pg pgs t1 free1, __ovfl_put t data = Ret (Some pg, t1) /\
    alloc t1 (pgs ++ ns) free1 /\ agree t t1 ns /\ npages (bt_mp t1) <= npages (bt_mp t) + needed t data /\
    __ovfl_get t1 (ovfl_ref pg (zlen data)) = Ret (Some data, t1) /\
    (exists t2, __ovfl_delete t1 (ovfl_ref pg (zlen data)) = Ret (RET_SUCCESS, t2) /\
       alloc t2 ns (rev pgs ++ free1) /\ agree t t2 ns) /\
    (forall h, pages (bt_mp t1) !! pg = Some h ->
       let t2 := store t1 pg (set_flags h (Z.lor (flags h) P_PRESERVE)) in
       __ovfl_delete t2 (ovfl_ref pg (zlen data)) = Ret (RET_SUCCESS, t2)).
Proof.
  intros Hst Ha H0 Hm Hd.
  destruct (put_loop_spec (length data + 1) t ns free data None None Hst Ha H0 Hm I ltac:(lia)) as (n & c & t1 & free1 & E & Ha1 & Hc & Hl & Hk & Hnp).
  pose proof (keeps_standard _ _ Hk Hst) as Hst1. pose proof (zlen_nonneg data) as Hz.
  assert (Hperm : rev (n :: c) ++ ns ≡ₚ (n :: c) ++ ns) by (apply Permutation_app_tail; symmetry; apply Permutation_rev).
  apply (alloc_perm _ _ _ _ Hperm) in Ha1. pose proof (al_range _ _ _ Ha1) as Hr. apply Forall_app in Hr as [Hr _].
  apply Forall_app in Hr as [Hr _]. pose proof Hr as Hn. apply Forall_cons in Hn as [Hn _].
  destruct (ref_words n (zlen data)) as [E1 E2]; [unfold fits, MAX_PAGE_NUMBER in *; lia|unfold fits; lia|].
  pose proof Hc as (h & Hh & Hp & Hf & _). pose proof (chain_length t1 _ _ Hst1 Hc) as Hlen.
  exists n, (n :: c), t1, free1. split; [exact E|]. split; [done|]. split; [by apply (linked_agree _ _ _ n)|]. split; [lia|]. split; [|split].
  - unfold __ovfl_get. rewrite E1, E2, grow_standard by done. cbv zeta. change n with (hd 0 (n :: c)) at 1. rewrite (get_loop_spec t1 (n :: c)); [done..|unfold zlen; lia].
  - unfold __ovfl_delete. rewrite E1, E2, (mpool_get_page t1 Hst1 n h) by (done || lia). rewrite Hf.
    change (is_set P_OVERFLOW P_PRESERVE) with false. cbv iota.
    destruct (delete_loop_spec (n :: c) (Z.to_nat (zlen data) + 1) t1 ns free1 data h Hst1 Ha1 Hc Hh) as (t2 & E' & Ha2 & Hg & _); [unfold zlen; lia|].
    exists t2. split; [exact E'|]. split; [done|]. eapply agree_trans; [by apply (linked_agree _ _ _ n)|done].
  - intros h' Hh'. rewrite Hh in Hh'. injection Hh' as <-. cbv zeta. unfold __ovfl_delete. rewrite E1, E2.
    rewrite (mpool_get_page (store t1 n _) ltac:(by destruct Hst1) n (set_flags h (Z.lor (flags h) P_PRESERVE)));
      [|apply lookup_insert_eq|cbn; lia]. cbn [flags set_flags]. by rewrite Hf.
Qed.

Lemma bt_ovfl_roundtrip_witness :
  let t := one_leaf 512 [] in let data := replicate 1000 7 in
  exists pg t1, __ovfl_put t data = Ret (Some pg, t1) /\ __ovfl_get t1 (ovfl_ref pg 1000) = Ret (Some data, t1).
Proof.
  intros t data. assert (Ht : tree t [(P_ROOT, [])] [] []) by (apply one_leaf_tree; [lia|by vm_compute|constructor..]).
  destruct (bt_ovfl_roundtrip t [P_ROOT] [] data (tr_standard _ _ _ _ Ht) (la_alloc _ _ _ (proj1 (proj1 (tree_shape _ _ _ _) Ht)))
    ltac:(cbn; lia) ltac:(by vm_compute) ltac:(by vm_compute)) as (pg & _ & t1 & _ & E & _ & _ & _ & G & _). by exists pg, t1.
Defined.
End BtOverflow.
