(* ===== verification/BtOpen.v ===== *)
(** Opening a btree, writing it out and closing it (db.1.85/bt_open.c, bt_close.c): the checks of
    the options, the parameters that follow from them, the meta page, the root of a
    new tree.  A tree that is written out and opened again is the same tree; a free list
    that has changed since a file was opened is not written. *)

From S2P Require Import Prelude BtPage BtUtils Samdb BtTree BtSearch BtDelete BtLevels BtSplit BtRemove BtInsert.
From stdpp Require Import gmap.
Import BtPage BtTree BtSearch BtDelete BtLevels BtSplit BtRemove BtInsert.
#[local] Open Scope Z_scope.

Module BtOpen.

(** ** Constants *)

Definition P_META : Z := 0.
Definition DEFMINKEYPAGE : Z := 2.
Definition MINCACHE : Z := 5.
Definition MINPSIZE : Z := 512.
Definition MAX_PAGE_OFFSET : Z := 65535.
Definition NOVFLSIZE : Z := 8.
Definition BTREEMAGIC : Z := 0x053162.
Definition BTREEVERSION : Z := 3.
Definition R_DUP : Z := 0x01.
Definition DB_LOCK : Z := 0x10000000.
Definition B_INMEM : Z := 0x1.
Definition B_METADIRTY : Z := 0x2.
Definition B_NEEDSWAP : Z := 0x8.
Definition R_RECNO : Z := 0x80.
Definition SAVEMETA : Z := Z.lor B_NODUPS R_RECNO.

(** What Linux gives them. *)
Definition EFTYPE : Z := EINVAL.
Definition O_RDONLY : Z := 0.
Definition O_RDWR : Z := 2.
Definition O_ACCMODE : Z := 3.
Definition O_CREAT : Z := 0x40.
Definition O_EXCL : Z := 0x80.
Definition O_TRUNC : Z := 0x200.
Definition O_NONBLOCK : Z := 0x800.
Definition LITTLE_ENDIAN : Z := 1234.
Definition BIG_ENDIAN : Z := 4321.

(** ** Data *)

Record BTREEINFO := {
  b_flags : Z; cachesize : Z; minkeypage : Z; b_psize : Z;
  compare : option (list Z -> list Z -> Z); prefix : option (list Z -> list Z -> Z); lorder : Z;
}.

Record BTMETA := { magic : Z; version : Z; m_psize : Z; m_free : Z; m_nrecs : Z; m_flags : Z }.

(** M_32_SWAP. *)
Definition swap32 (x : Z) : Z := le_word (rev (le_bytes 4 x)) 0.

(** The structure in memory and back. *)
Definition meta_bytes (m : BTMETA) : list Z :=
  concat (map (le_bytes 4) [magic m; version m; m_psize m; m_free m; m_nrecs m; m_flags m]).
Definition meta_of (b : list Z) : BTMETA :=
  {| magic := le_word b 0; version := le_word b 1; m_psize := le_word b 2; m_free := le_word b 3;
     m_nrecs := le_word b 4; m_flags := le_word b 5 |}.
Definition swap_meta (m : BTMETA) : BTMETA :=
  {| magic := swap32 (magic m); version := swap32 (version m); m_psize := swap32 (m_psize m); m_free := swap32 (m_free m);
     m_nrecs := swap32 (m_nrecs m); m_flags := swap32 (m_flags m) |}.

(** A file: its size, and the pages that a sync has written there. *)
Record file := { f_size : Z; f_pages : gmap Z page; f_npages : Z }.

(** The system: whether the two allocations work, the descriptor of [open] or [mkstemp],
    [fcntl], the st_blksize of [fstat], the result of [read], whether there is a pool; the errno of a
    call that fails. *)
Record system := {
  malloc_t : bool; malloc_db : bool; s_open : option Z; s_fcntl : bool; s_fstat : option Z; s_read : Z; s_mpool : bool;
  s_calls : list bool; s_errno : Z;
}.

(** What a handle has besides the btree. *)
Record handle := { bt_fd : Z; bt_lorder : Z; bt_nrecs : Z; ncache : Z }.

Inductive resource := Block_t | Block_db | Descriptor | Pool.
#[export] Instance resource_dec : EqDecision resource.
Proof. solve_decision. Defined.

(** How a call ends: the tree, or NULL; [errno]; what is held then. *)
Record opened := { db : option (btree * handle); o_errno : Z; held : list resource }.

(** ** Opening *)

Definition byteorder : Z :=
  match rd (le_bytes 4 0x01020304) 0 with 1 => BIG_ENDIAN | 4 => LITTLE_ENDIAN | _ => 0 end.

Definition default_info : BTREEINFO :=
  {| b_flags := 0; cachesize := 0; minkeypage := DEFMINKEYPAGE; b_psize := 0; compare := Some BtUtils.__bt_defcmp;
     prefix := Some BtUtils.__bt_defpfx; lorder := byteorder |}.

(** The selections of the user; [None] is for [einval]. *)
Definition check_info (openinfo : option BTREEINFO) : option BTREEINFO :=
  b ← match openinfo with
      | None => Some default_info
      | Some b =>
          if negb (Z.land (b_flags b) (Z.lnot R_DUP) =? 0) then None
          else if negb (b_psize b =? 0) &&
                  ((b_psize b <? MINPSIZE) || (MAX_PAGE_OFFSET + 1 <? b_psize b) || negb (Z.land (b_psize b) 1 =? 0)) then None
          else if negb (minkeypage b =? 0) && (minkeypage b <? 2) then None
          else
            Some {| b_flags := b_flags b; cachesize := cachesize b;
                    minkeypage := if minkeypage b =? 0 then DEFMINKEYPAGE else minkeypage b; b_psize := b_psize b;
                    compare := match compare b with None => Some BtUtils.__bt_defcmp | c => c end;
                    prefix := match compare b, prefix b with None, None => Some BtUtils.__bt_defpfx | _, p => p end;
                    lorder := if lorder b =? 0 then byteorder else lorder b |}
      end;
  if negb (lorder b =? BIG_ENDIAN) && negb (lorder b =? LITTLE_ENDIAN) then None else Some b.

(** The cut-off for overflow pages, of the type of an index. *)
Definition ovflsize (psize minkeypage : Z) : Z :=
  let o := u16 (u64 ((psize - BTDATAOFF) / minkeypage - (2 + NBLEAFDBT 0 0))) in
  if o <? NBLEAFDBT NOVFLSIZE NOVFLSIZE + 2 then NBLEAFDBT NOVFLSIZE NOVFLSIZE + 2 else o.

(** The number of pages to cache. *)
Definition cache_pages (size psize : Z) : Z :=
  let size := if negb (Z.land size (psize - 1) =? 0)
              then u32 (size + Z.land (u32 (Z.lnot size)) (psize - 1) + 1) else size in
  let size := if size <? u32 (psize * MINCACHE) then u32 (psize * MINCACHE) else size in
  u32 (size + psize - 1) / psize.

(** The page size of a new file. *)
Definition choose_psize (psize blksize : Z) : Z :=
  if psize =? 0 then
    let p := if blksize <? MINPSIZE then MINPSIZE else blksize in
    if MAX_PAGE_OFFSET + 1 <? p then MAX_PAGE_OFFSET + 1 else p
  else psize.

(** The page filter of a file of the other byte order, on the meta page: mswap of bt_conv.c. *)
Definition mswap (b : list Z) : list Z := meta_bytes (swap_meta (meta_of b)) ++ drop 24 b.
Definition filter_meta (needswap : bool) (ps : gmap Z page) : gmap Z page :=
  if needswap then alter (fun h => set_bytes h (mswap (bytes h))) P_META ps else ps.

(** A page of zeros. *)
Definition zero_page (psize : Z) : page :=
  {| pgno := 0; prevpg := 0; nextpg := 0; flags := 0; lower := 0; upper := 0;
     linp := fun _ => 0; items := fun _ => Junk; bytes := replicate (Z.to_nat psize) 0 |}.

(** The meta page and the root of a new tree. *)
Definition nroot (t : btree) : outcome (Z * btree) :=
  match mpool_get t P_META with
  | (Some _, t) => Ret (RET_SUCCESS, t)
  | (None, t) =>
      if negb (errno t =? EINVAL) then Ret (RET_ERROR, t)
      else
        match mpool_new (set_errno t 0) with
        | (None, t) => Ret (RET_ERROR, t)
        | (Some meta, t) =>
            match mpool_new t with
            | (None, t) => Ret (RET_ERROR, t)
            | (Some npg, t) =>
                if negb (npg =? P_ROOT) then Ret (RET_ERROR, t)
                else
                  root ← page_at t npg;
                  let t := store t npg (init_page root npg P_INVALID P_INVALID P_BLEAF BTDATAOFF (psize t)) in
                  Ret (RET_SUCCESS, store t meta (zero_page (psize t)))
            end
        end
  end.

(** The label [err]: the structure, its DB and the descriptor go. *)
Definition release (r : list resource) : list resource := filter (fun r => r = Pool) r.
Definition fails (e : Z) (r : list resource) : outcome opened := Ret {| db := None; o_errno := e; held := release r |}.

(** The descriptor and the flags, or the errno. *)
Definition open_file (s : system) (fname : bool) (flags fl : Z) : Z + Z * Z :=
  let acc := Z.land flags O_ACCMODE in
  if fname then
    if (acc =? O_RDONLY) || (acc =? O_RDWR) then
      match s_open s with
      | Some fd => inr (fd, if acc =? O_RDONLY then Z.lor fl B_RDONLY else fl)
      | None => inl (s_errno s)
      end
    else inl EINVAL
  else if acc =? O_RDWR then
    match s_open s with Some fd => inr (fd, Z.lor fl B_INMEM) | None => inl (s_errno s) end
  else inl EINVAL.

(** The page size, the flags, the free list and the number of records, from the meta page or for a new
    file; or the errno. *)
Definition file_params (f : file) (s : system) (b : BTREEINFO) (blksize fl : Z) : Z + Z * Z * Z * Z :=
  if f_size f =? 0 then
    let fl := if Z.land (b_flags b) R_DUP =? 0 then Z.lor fl B_NODUPS else fl in
    inr (choose_psize (b_psize b) blksize, Z.lor fl B_METADIRTY, P_INVALID, 0)
  else if s_read s <? 0 then inl (s_errno s)
  else if negb (s_read s =? 24) then inl EFTYPE
  else
    let m := meta_of (match f_pages f !! P_META with Some h => bytes h | None => [] end) in
    let native := magic m =? BTREEMAGIC in
    let fl := if native then F_CLR fl B_NEEDSWAP else Z.lor fl B_NEEDSWAP in
    let m := if native then m else swap_meta m in
    if negb (magic m =? BTREEMAGIC) || negb (version m =? BTREEVERSION) then inl EFTYPE
    else if (m_psize m <? MINPSIZE) || (MAX_PAGE_OFFSET + 1 <? m_psize m) || negb (Z.land (m_psize m) 1 =? 0) then inl EFTYPE
    else if negb (Z.land (m_flags m) (u32 (Z.lnot SAVEMETA)) =? 0) then inl EFTYPE
    else inr (m_psize m, Z.lor fl (m_flags m), m_free m, m_nrecs m).

Definition open_pool (f : file) (s : system) (fl : Z) : pool :=
  {| pages := filter_meta (is_set fl B_NEEDSWAP && negb (is_set fl B_INMEM)) (f_pages f); npages := f_npages f; calls := s_calls s |}.

(** The structure, with what is zero and what has been set. *)
Definition new_btree (np : page) (e : Z) (f : file) (s : system) (b : BTREEINFO) (psize fl free : Z) : btree :=
  {| cfg := {| bt_psize := psize; bt_ovflsize := ovflsize psize (minkeypage b);
               bt_cmp := default BtUtils.__bt_defcmp (compare b); bt_pfx := prefix b; new_page := np |};
     bt_mp := open_pool f s fl; bt_free := free; bt_order := NOT; bt_last := (0, 0);
     bt_cursor := {| c_pgno := 0; c_index := 0; c_key := []; c_flags := 0 |}; bt_stack := [];
     bt_flags := fl; errno := e; panicked := false |}.

Definition global_flags (t : btree) (dflags : Z) : btree :=
  if Z.land dflags DB_LOCK =? 0 then t else set_bt_flags t (Z.lor (bt_flags t) B_DB_LOCK).

(** [np] is what a page of mpool_new holds, [e] is the errno before. *)
Definition __bt_open (np : page) (e : Z) (f : file) (s : system) (fname : bool) (flags : Z) (openinfo : option BTREEINFO)
    (dflags : Z) : outcome opened :=
  match check_info openinfo with
  | None => fails EINVAL []
  | Some b =>
      if negb (malloc_t s) then fails (s_errno s) []
      else if negb (malloc_db s) then fails (s_errno s) [Block_t]
      else
        let fl := if lorder b =? byteorder then 0 else B_NEEDSWAP in
        match open_file s fname flags fl with
        | inl e => fails e [Block_t; Block_db]
        | inr (fd, fl) =>
            let r := [Block_t; Block_db; Descriptor] in
            if negb (s_fcntl s) then fails (s_errno s) r
            else
              match s_fstat s with
              | None => fails (s_errno s) r
              | Some blksize =>
                  match file_params f s b blksize fl with
                  | inl e => fails e r
                  | inr (psize, fl, free, nrecs) =>
                      if negb (s_mpool s) then fails (s_errno s) r
                      else
                        '(status, t) ← nroot (new_btree np e f s b psize fl free);
                        if status =? RET_ERROR then fails (errno t) (r ++ [Pool])
                        else
                          let t := global_flags t dflags in
                          let hd := {| bt_fd := fd; bt_lorder := lorder b; bt_nrecs := nrecs;
                                       ncache := cache_pages (cachesize b) psize |} in
                          Ret {| db := Some (t, hd); o_errno := errno t; held := r ++ [Pool] |}
                  end
              end
        end
  end.

(** dbopen (db.c): the flags that are let through, and the one type there is. *)
Definition DB_BTREE : Z := 0.

Definition USE_OPEN_FLAGS : Z :=
  Z.lor O_CREAT (Z.lor O_EXCL (Z.lor O_NONBLOCK (Z.lor O_RDONLY (Z.lor O_RDWR O_TRUNC)))).

Definition dbopen (np : page) (e : Z) (f : file) (s : system) (fname : bool) (flags type : Z)
    (openinfo : option BTREEINFO) : outcome opened :=
  if (Z.land flags (Z.lnot (Z.lor USE_OPEN_FLAGS DB_LOCK)) =? 0) && (type =? DB_BTREE) then
    __bt_open np e f s fname (Z.land flags USE_OPEN_FLAGS) openinfo (Z.land flags DB_LOCK)
  else fails EINVAL [].

(** ** Writing out and closing *)

Definition bt_meta (t : btree) (nrecs : Z) : Z * btree :=
  match mpool_get t P_META with
  | (None, t) => (RET_ERROR, t)
  | (Some p, t) =>
      let m := {| magic := BTREEMAGIC; version := BTREEVERSION; m_psize := psize t; m_free := bt_free t; m_nrecs := nrecs;
                  m_flags := Z.land (bt_flags t) SAVEMETA |} in
      (RET_SUCCESS, store t P_META (set_bytes p (splice (bytes p) 0 (meta_bytes m))))
  end.

(** What is not specified: the file after a sync that fails, the pages in a pool with
    filters after one that works (they may stay converted, Mpool.mpool_sync_converts). *)
Record unspecified := { torn : file; converted : gmap Z page }.

Definition mpool_sync (x : unspecified) (t : btree) : Z * btree * file :=
  let '(works, t) := call_works t in
  let m := bt_mp t in
  let swap := is_set (bt_flags t) B_NEEDSWAP in
  if works then
    (RET_SUCCESS, if swap then set_mp t {| pages := converted x; npages := npages m; calls := calls m |} else t,
     {| f_size := npages m * psize t; f_pages := filter_meta swap (pages m); f_npages := npages m |})
  else (RET_ERROR, set_errno t EIO, torn x).

Definition __bt_sync (x : unspecified) (t : btree) (nrecs : Z) (f : file) (flags : Z) : Z * btree * file :=
  if negb (flags =? 0) then (RET_ERROR, set_errno t EINVAL, f)
  else if is_set (bt_flags t) (Z.lor B_INMEM B_RDONLY) || negb (is_set (bt_flags t) B_MODIFIED) then (RET_SUCCESS, t, f)
  else
    let '(status, t) := if is_set (bt_flags t) B_METADIRTY then bt_meta t nrecs else (RET_SUCCESS, t) in
    if status =? RET_ERROR then (RET_ERROR, t, f)
    else
      let '(status, t, f) := mpool_sync x t in
      (status, if status =? RET_SUCCESS then set_bt_flags t (F_CLR (bt_flags t) B_MODIFIED) else t, f).

(** The status, the file, and what is still held: a sync that fails leaves all as it was.  mpool_close
    always works. *)
Definition __bt_close (x : unspecified) (closes : bool) (t : btree) (hd : handle) (f : file) (r : list resource) :
    Z * file * list resource :=
  let '(status, t, f) := __bt_sync x t (bt_nrecs hd) f 0 in
  if status =? RET_ERROR then (RET_ERROR, f, r) else (if closes then RET_SUCCESS else RET_ERROR, f, []).

Definition __bt_fd (t : btree) (hd : handle) : Z * btree :=
  if is_set (bt_flags t) B_INMEM then (-1, set_errno t ENOENT) else (bt_fd hd, t).

(** ** The meta page *)

Definition meta_ok (m : BTMETA) : Prop :=
  is_u32 (magic m) /\ is_u32 (version m) /\ is_u32 (m_psize m) /\ is_u32 (m_free m) /\ is_u32 (m_nrecs m) /\ is_u32 (m_flags m).

Lemma meta_round m rest : meta_ok m -> meta_of (meta_bytes m ++ rest) = m.
Proof.
  intros (H1 & H2 & H3 & H4 & H5 & H6). destruct m as [a b c d e f]. cbn [magic version m_psize m_free m_nrecs m_flags] in *.
  unfold meta_of. f_equal; [exact (le_word_bytes a H1)|exact (le_word_bytes b H2)|exact (le_word_bytes c H3)|
    exact (le_word_bytes d H4)|exact (le_word_bytes e H5)|exact (le_word_bytes f H6)].
Qed.

Lemma le_bytes_byte n x : Forall is_byte (le_bytes n x).
Proof.
  unfold le_bytes. apply List.Forall_map, Forall_forall. intros i _. unfold fits, u8. apply Z.mod_pos_bound. done.
Qed.

Lemma swap32_bytes x : le_bytes 4 (swap32 x) = rev (le_bytes 4 x).
Proof. apply le_bytes_word; [|done]. apply Forall_rev, le_bytes_byte. Qed.

Lemma swap32_swap x : is_u32 x -> swap32 (swap32 x) = x.
Proof. intros H. unfold swap32 at 1. rewrite swap32_bytes, rev_involutive. by apply le_word_bytes. Qed.

Lemma swap32_u32 x : is_u32 (swap32 x).
Proof. apply le_word_u32, Forall_rev, le_bytes_byte. Qed.

Lemma swap_meta_ok m : meta_ok (swap_meta m).
Proof. repeat split; apply swap32_u32. Qed.

Lemma swap_meta_swap m : meta_ok m -> swap_meta (swap_meta m) = m.
Proof.
  intros (H1 & H2 & H3 & H4 & H5 & H6). destruct m. unfold swap_meta. cbn in *. by rewrite !swap32_swap.
Qed.

(** What can be opened. *)
Definition meta_valid (m : BTMETA) : Prop :=
  meta_ok m /\ magic m = BTREEMAGIC /\ version m = BTREEVERSION /\ MINPSIZE <= m_psize m <= MAX_PAGE_OFFSET + 1 /\
  Z.land (m_psize m) 1 = 0 /\ Z.land (m_flags m) (u32 (Z.lnot SAVEMETA)) = 0.

Lemma meta_valid_tests m : meta_valid m ->
  negb (magic m =? BTREEMAGIC) || negb (version m =? BTREEVERSION) = false /\
  (m_psize m <? MINPSIZE) || (MAX_PAGE_OFFSET + 1 <? m_psize m) || negb (Z.land (m_psize m) 1 =? 0) = false /\
  negb (Z.land (m_flags m) (u32 (Z.lnot SAVEMETA)) =? 0) = false.
Proof.
  intros (_ & -> & -> & H & -> & ->). split; [done|]. split; [|done].
  rewrite (proj2 (Z.ltb_ge _ _)), (proj2 (Z.ltb_ge _ _)) by lia. done.
Qed.

(** A meta page of either byte order gives the same parameters. *)
Lemma params_of_meta (swapped : bool) f s b blksize fl m h rest :
  meta_valid m -> f_size f <> 0 -> s_read s = 24 -> f_pages f !! P_META = Some h ->
  bytes h = meta_bytes (if swapped then swap_meta m else m) ++ rest ->
  file_params f s b blksize fl =
    inr (m_psize m, Z.lor (if swapped then Z.lor fl B_NEEDSWAP else F_CLR fl B_NEEDSWAP) (m_flags m), m_free m, m_nrecs m).
Proof.
  intros Hm Hs Hr Hh Hb. pose proof Hm as (Hok & Emg & _). destruct (meta_valid_tests m Hm) as (T1 & T2 & T3). unfold file_params.
  rewrite (proj2 (Z.eqb_neq _ _) Hs), Hr, Hh, Hb. change (24 <? 0) with false. change (negb (24 =? 24)) with false. cbv iota zeta.
  assert (E : meta_of (meta_bytes (if swapped then swap_meta m else m) ++ rest) = if swapped then swap_meta m else m).
  { apply meta_round. destruct swapped; [apply swap_meta_ok|done]. }
  rewrite E. destruct swapped.
  - assert (Eg : (magic (swap_meta m) =? BTREEMAGIC) = false) by (cbn; rewrite Emg; by vm_compute).
    rewrite Eg, swap_meta_swap by done. by rewrite T1, T2, T3.
  - rewrite (proj2 (Z.eqb_eq _ _) Emg). cbv iota. by rewrite T1, T2, T3.
Qed.

(** ** The root *)

Lemma nroot_old t h : calls (bt_mp t) = [] -> pages (bt_mp t) !! P_META = Some h -> 0 < npages (bt_mp t) ->
  nroot t = Ret (RET_SUCCESS, t).
Proof.
  intros Hc Hh Hn. unfold nroot, mpool_get, call_works. rewrite (proj2 (Z.leb_gt _ _)) by (unfold P_META; lia). by rewrite Hc, Hh.
Qed.

Definition root_page (np : page) (psize : Z) : page := init_page np P_ROOT P_INVALID P_INVALID P_BLEAF BTDATAOFF psize.

Lemma mpool_new_ok t n : npages (bt_mp t) = n -> n <> MAX_PAGE_NUMBER -> calls (bt_mp t) = [] ->
  mpool_new t = (Some n, set_mp t {| pages := <[n := new_page (cfg t)]> (pages (bt_mp t)); npages := n + 1; calls := [] |}).
Proof.
  intros Hn Hne Hc. unfold mpool_new, call_works. rewrite Hn, (proj2 (Z.eqb_neq _ _) Hne), Hc. by rewrite Hc.
Qed.

Lemma nroot_new t : pages (bt_mp t) = ∅ -> npages (bt_mp t) = 0 -> calls (bt_mp t) = [] ->
  nroot t = Ret (RET_SUCCESS, set_mp (set_errno t 0)
    {| pages := <[P_META := zero_page (psize t)]> (<[P_ROOT := root_page (new_page (cfg t)) (psize t)]>
                  (<[P_ROOT := new_page (cfg t)]> (<[P_META := new_page (cfg t)]> ∅))); npages := 2; calls := [] |}).
Proof.
  intros Hp Hn Hc. unfold nroot, mpool_get. rewrite Hn. change (0 <=? P_META) with true. cbv iota.
  change (negb (errno (set_errno t EINVAL) =? EINVAL)) with false. cbv iota.
  rewrite (mpool_new_ok _ 0) by done. rewrite (mpool_new_ok _ 1) by done. change (negb (1 =? P_ROOT)) with false. cbv iota.
  rewrite (page_at_page _ 1 (new_page (cfg t))) by apply lookup_insert_eq. cbn [mbind outcome_bind]. unfold store. cbn. by rewrite Hp.
Qed.

(** A page without items. *)
Lemma has_empty h psize : 512 <= psize < 2 ^ 16 -> lower h = BTDATAOFF -> upper h = psize -> has psize h [].
Proof.
  intros Hs Hl Hu. split; [|done|rewrite Hl, Hu; unfold BTDATAOFF; lia].
  split; [done| |cbn; rewrite Hu; lia]. exists []. cbn. by rewrite Hu.
Qed.

Lemma fresh_tree t h : standard t -> pages (bt_mp t) !! P_ROOT = Some h -> npages (bt_mp t) = 2 -> bt_free t = P_INVALID ->
  (pgno h, prevpg h, nextpg h, flags h) = (P_ROOT, P_INVALID, P_INVALID, P_BLEAF) -> lower h = BTDATAOFF -> upper h = psize t ->
  tree t [(P_ROOT, [])] [] [].
Proof.
  intros Hst Hp Hn Hf [= E1 E2 E3 E4] Hl Hu. split; try done.
  - split; [|constructor]. split; [|done]. exists h. split; try done. cbn [snd]. by apply has_empty; [apply (st_size _ Hst)|..].
  - repeat constructor. by apply not_elem_of_nil.
  - cbn. rewrite Hn. by repeat constructor.
  - by repeat constructor.
  - split; [|done]. split; [constructor|by constructor].
Qed.

(** ** Opening *)

(** The calls of the system work. *)
Record works (s : system) (fd blksize : Z) : Prop := {
  wk_t : malloc_t s = true;
  wk_db : malloc_db s = true;
  wk_open : s_open s = Some fd;
  wk_fcntl : s_fcntl s = true;
  wk_fstat : s_fstat s = Some blksize;
  wk_mpool : s_mpool s = true;
  wk_calls : s_calls s = [];
}.

Definition all_held : list resource := [Block_t; Block_db; Descriptor; Pool].

Lemma open_run np e f s fd blksize fname flags o b dflags fl psize fl' free nrecs t :
  works s fd blksize -> check_info o = Some b ->
  open_file s fname flags (if lorder b =? byteorder then 0 else B_NEEDSWAP) = inr (fd, fl) ->
  file_params f s b blksize fl = inr (psize, fl', free, nrecs) ->
  nroot (new_btree np e f s b psize fl' free) = Ret (RET_SUCCESS, t) ->
  __bt_open np e f s fname flags o dflags =
    Ret {| db := Some (global_flags t dflags, {| bt_fd := fd; bt_lorder := lorder b; bt_nrecs := nrecs; ncache := cache_pages (cachesize b) psize |});
           o_errno := errno t; held := all_held |}.
Proof.
  intros [W1 W2 W3 W4 W5 W6 W7] Hb Ho Hp Hn. unfold __bt_open. rewrite Hb, W1, W2. cbn [negb]. rewrite Ho, W4, W5, Hp, W6. cbn [negb].
  rewrite Hn. cbn [mbind outcome_bind]. change (RET_SUCCESS =? RET_ERROR) with false. cbv iota.
  f_equal. f_equal. unfold global_flags. by destruct (_ =? 0).
Qed.

Lemma global_flags_is t dflags f : Z.land f B_DB_LOCK = 0 -> is_set (bt_flags (global_flags t dflags)) f = is_set (bt_flags t) f.
Proof.
  intros H. unfold global_flags. destruct (_ =? 0); [done|]. unfold is_set. cbn.
  by rewrite Z.land_lor_distr_l, (Z.land_comm B_DB_LOCK), H, Z.lor_0_r.
Qed.

Lemma check_info_psize o b : check_info o = Some b -> b_psize b = 0 \/ MINPSIZE <= b_psize b.
Proof.
  unfold check_info. destruct o as [b0|]; cbn; [|intros [= <-]; by left].
  destruct (negb (Z.land _ _ =? 0)); [done|]. destruct (Z.eqb_spec (b_psize b0) 0) as [E|E]; cbn [negb andb].
  - intros H. left. destruct (negb _ && _); [done|]. cbn in H. destruct (negb _ && _); [done|]. by injection H as <-.
  - destruct (Z.ltb_spec (b_psize b0) MINPSIZE) as [|G]; [done|]. cbn [orb]. destruct (_ || _); [done|].
    intros H. right. destruct (negb _ && _); [done|]. cbn in H. destruct (negb _ && _); [done|]. by injection H as <-.
Qed.

Lemma choose_psize_min p blksize : p = 0 \/ MINPSIZE <= p -> MINPSIZE <= choose_psize p blksize.
Proof.
  unfold choose_psize, MINPSIZE, MAX_PAGE_OFFSET. destruct (Z.eqb_spec p 0); [|lia].
  intros _. destruct (blksize <? 512) eqn:E1; destruct (65535 + 1 <? _) eqn:E2; lia.
Qed.

(** The cut-off: with three and more keys to a page no item is too large to divide pages, as long as
    the quotient holds the header of an item. *)
Lemma ovflsize_fits psize m (k d : list Z) :
  512 <= psize < 2 ^ 16 -> 3 <= m -> 14 * m <= psize - BTDATAOFF -> zlen k + zlen d <= ovflsize psize m ->
  small psize (NBLEAFDBT (zlen k) (zlen d)).
Proof.
  intros Hp Hm Hq Hk. unfold ovflsize in Hk. change (NBLEAFDBT 0 0) with 12 in Hk. change (NBLEAFDBT NOVFLSIZE NOVFLSIZE + 2) with 30 in Hk.
  set (q := (psize - BTDATAOFF) / m) in *. unfold BTDATAOFF in *.
  assert (Hq1 : 14 <= q) by (apply Z.div_le_lower_bound; lia).
  assert (M : m * q <= psize - 20) by (apply Z.mul_div_le; lia).
  assert (Hq2 : 3 * q <= psize - 20) by (pose proof (Z.mul_nonneg_nonneg (m - 3) q ltac:(lia) ltac:(lia)); lia).
  unfold u64 in Hk. rewrite (Z.mod_small (q - _)) in Hk by lia. rewrite u16_id in Hk by lia.
  unfold small, NBLEAFDBT, BTDATAOFF. pose proof (LALIGN_bounds (4 + 4 + 1 + zlen k + zlen d)) as B.
  destruct (q - (2 + 12) <? 30) eqn:E; lia.
Qed.

(** ** Writing out *)

Lemma nroot_total t : exists status t', nroot t = Ret (status, t').
Proof.
  unfold nroot. destruct (mpool_get t P_META) as [[h|] t1]; [by eexists _, _|]. destruct (negb _); [by eexists _, _|].
  destruct (mpool_new _) as [[meta|] t2]; [|by eexists _, _]. destruct (mpool_new t2) as [[n|] t3] eqn:E; [|by eexists _, _].
  destruct (negb _); [by eexists _, _|]. assert (H : pages (bt_mp t3) !! n = Some (new_page (cfg t2))).
  { unfold mpool_new, call_works in E. destruct (_ =? _); [done|]. destruct (calls (bt_mp t2)) as [|[|] cs]; [| |done];
      injection E as <- <-; apply lookup_insert_eq. }
  rewrite (page_at_page _ _ _ H). by eexists _, _.
Qed.

Lemma is_set_or w f g : is_set w (Z.lor f g) = is_set w f || is_set w g.
Proof.
  unfold is_set. rewrite Z.land_lor_distr_r. destruct (Z.eqb_spec (Z.land w f) 0) as [->|H]; [done|]. cbn [negb orb].
  apply negb_true_iff, Z.eqb_neq. intros [? _]%Z.lor_eq_0_iff. done.
Qed.

(** The meta page of a tree. *)
Definition meta_for (t : btree) (nrecs : Z) : BTMETA :=
  {| magic := BTREEMAGIC; version := BTREEVERSION; m_psize := psize t; m_free := bt_free t; m_nrecs := nrecs;
     m_flags := Z.land (bt_flags t) SAVEMETA |}.

Lemma bt_meta_spec t nrecs m :
  calls (bt_mp t) = [] -> pages (bt_mp t) !! P_META = Some m -> 0 < npages (bt_mp t) ->
  bt_meta t nrecs = (RET_SUCCESS, store t P_META (set_bytes m (meta_bytes (meta_for t nrecs) ++ drop 24 (bytes m)))).
Proof.
  intros Hc Hm Hn. unfold bt_meta, mpool_get, call_works. rewrite (proj2 (Z.leb_gt _ _)) by (unfold P_META; lia). by rewrite Hc, Hm.
Qed.

Lemma tree_free_u32 t L up free : tree t L up free -> npages (bt_mp t) < 2 ^ 32 -> is_u32 (bt_free t).
Proof.
  intros Ht Hn. pose proof (tr_free _ _ _ _ Ht) as Hf. pose proof (tr_range _ _ _ _ Ht) as Hr. apply Forall_app in Hr as [_ Hr].
  destruct free as [|n free]; [cbn in Hf; rewrite Hf; done|]. destruct Hf as [-> _]. apply Forall_cons in Hr as [Hr _]. unfold fits. lia.
Qed.

Lemma meta_for_valid t L up free nrecs :
  tree t L up free -> npages (bt_mp t) < 2 ^ 32 -> Z.land (psize t) 1 = 0 -> is_u32 nrecs -> meta_valid (meta_for t nrecs).
Proof.
  intros Ht Hn Hp Hr. pose proof (st_size _ (tr_standard _ _ _ _ Ht)) as Hs. unfold meta_valid, meta_ok, meta_for.
  cbn [magic version m_psize m_free m_nrecs m_flags]. split; [|split; [done|split; [done|split; [|split; [done|]]]]].
  - split; [by vm_compute|]. split; [by vm_compute|]. split; [unfold fits; lia|]. split; [by eapply tree_free_u32|]. split; [done|].
    by apply fits_land_r.
  - unfold MINPSIZE, MAX_PAGE_OFFSET. lia.
  - rewrite <- Z.land_assoc. change (Z.land SAVEMETA _) with 0. apply Z.land_0_r.
Qed.

(** A tree in the file of its pages. *)
Lemma tree_reload t t' L up free :
  standard t' -> (forall n, 0 < n -> pages (bt_mp t') !! n = pages (bt_mp t) !! n) -> npages (bt_mp t') = npages (bt_mp t) ->
  bt_free t' = bt_free t -> psize t' = psize t -> tree t L up free -> tree t' L up free.
Proof. intros ? ? ? ? ?. rewrite !tree_shape. intros [? ?]. split; [by apply (laid_reload t)|done]. Qed.

(** ** The free list of a file *)

Definition empty_file : file := {| f_size := 0; f_pages := ∅; f_npages := 0 |}.
Definition small_pages : BTREEINFO :=
  {| b_flags := 0; cachesize := 0; minkeypage := 3; b_psize := 512; compare := None; prefix := None; lorder := 0 |}.
Definition linux : system :=
  {| malloc_t := true; malloc_db := true; s_open := Some 3; s_fcntl := true; s_fstat := Some 4096; s_read := 24; s_mpool := true;
     s_calls := []; s_errno := 0 |}.
Definition nothing : unspecified := {| torn := empty_file; converted := ∅ |}.

(** A file is opened, the calls are served, the file is written and closed. *)
Definition session (f : file) (l : list call) : outcome file :=
  r ← dbopen blank 0 f linux true (Z.lor O_CREAT O_RDWR) DB_BTREE (Some small_pages);
  match db r with
  | Some (t, hd) =>
      t ← serve t l;
      let '(status, f, _) := __bt_close nothing true t hd f all_held in
      if status =? RET_SUCCESS then Ret f else Fault
  | None => Fault
  end.

Fixpoint sessions (f : file) (ls : list (list call)) : outcome file :=
  match ls with [] => Ret f | l :: ls => f ← session f l; sessions f ls end.

(** Whether a key is in a file. *)
Definition lookup_in (f : file) (k : key) : outcome Z :=
  r ← dbopen blank 0 f linux true (Z.lor O_CREAT O_RDWR) DB_BTREE (Some small_pages);
  match db r with
  | Some (t, _) => '(status, _, _) ← __bt_get t k 0; Ret status
  | None => Fault
  end.

(** A new file. *)
Lemma open_new np e f s fd blksize (fname : bool) flags o b dflags :
  works s fd blksize -> check_info o = Some b ->
  compare b = Some BtUtils.__bt_defcmp -> prefix b = Some BtUtils.__bt_defpfx -> Z.land (b_flags b) R_DUP = 0 ->
  Z.land flags O_ACCMODE = O_RDWR -> f_size f = 0 -> f_pages f = ∅ -> f_npages f = 0 ->
  choose_psize (b_psize b) blksize < 2 ^ 16 ->
  exists t hd, __bt_open np e f s fname flags o dflags = Ret {| db := Some (t, hd); o_errno := 0; held := all_held |} /\
    tree t [(P_ROOT, [])] [] [] /\ (panicked t = false /\ npages (bt_mp t) = 2) /\ writable t /\ bt_order t = NOT /\ psize t = choose_psize (b_psize b) blksize /\
    (3 <= minkeypage b -> 14 * minkeypage b <= psize t - BTDATAOFF ->
     forall k d, zlen k + zlen d <= bt_ovflsize (cfg t) -> fits_page t k d).
Proof.
  intros W Hb Hc Hpf Hd Ha Hs Hp Hn Hps. pose proof (choose_psize_min _ blksize (check_info_psize o b Hb)) as Hmin.
  set (ps := choose_psize (b_psize b) blksize) in *. unfold MINPSIZE in Hmin.
  set (fl0 := if lorder b =? byteorder then 0 else B_NEEDSWAP). set (fl := if fname then fl0 else Z.lor fl0 B_INMEM).
  set (fl' := Z.lor (Z.lor fl B_NODUPS) B_METADIRTY).
  assert (Ho : open_file s fname flags fl0 = inr (fd, fl)).
  { unfold open_file. rewrite Ha, (wk_open _ _ _ W). by destruct fname. }
  assert (Hf : file_params f s b blksize fl = inr (ps, fl', P_INVALID, 0)).
  { unfold file_params. rewrite Hs. change (0 =? 0) with true. cbv iota. by rewrite Hd. }
  set (t0 := new_btree np e f s b ps fl' P_INVALID).
  assert (Hemp : pages (bt_mp t0) = ∅).
  { cbn. rewrite Hp. unfold filter_meta. destruct (_ && _); [|done]. apply map_eq. intros i. rewrite lookup_alter, lookup_empty. by case_decide. }
  pose proof (nroot_new t0 Hemp Hn (wk_calls _ _ _ W)) as Hr.
  eexists _, _. split; [apply (open_run np e f s fd blksize fname flags o b dflags fl ps fl' P_INVALID 0 _ W Hb Ho Hf Hr)|].
  match goal with |- tree (global_flags ?x _) _ _ _ /\ _ => set (t1 := x) end. set (t := global_flags t1 dflags).
  assert (Hsame : bt_mp t = bt_mp t1 /\ cfg t = cfg t1 /\ bt_free t = P_INVALID /\ bt_order t = NOT) by (unfold t, global_flags; by destruct (_ =? 0)).
  destruct Hsame as (S1 & S2 & S3 & S4). assert (Eps : psize t = ps) by (unfold psize; by rewrite S2).
  assert (Hfl : is_set fl' B_NODUPS = true /\ is_set fl' B_RDONLY = false).
  { unfold fl', fl, fl0. destruct fname, (_ =? _); split; by vm_compute. }
  split; [|split; [split; [unfold t, global_flags; by destruct (_ =? 0)|by rewrite S1]|split; [|split; [done|split; [done|]]]]].
  - apply (fresh_tree t (root_page np ps)); rewrite ?S1, ?S3, ?Eps; try done.
    + split; rewrite ?Eps, ?S1, ?S2; [lia|cbn; by rewrite Hc|cbn; by rewrite Hpf| |done].
      unfold t. rewrite global_flags_is by done. apply Hfl.
    + cbn. apply u16_id. lia.
  - unfold writable, t. rewrite global_flags_is by done. apply Hfl.
  - rewrite Eps. intros H1 H2 k d Hk. rewrite S2 in Hk. split; [by rewrite S2|]. rewrite Eps. by apply (ovflsize_fits ps (minkeypage b)).
Qed.

(** ** Properties *)

(** C12: dbopen of a new file or of no file gives an empty tree that can be written, with all
    four resources held, whatever page size is chosen below 65536 and whatever is in
    the new pages; with three and more keys to a page, records up to the cut-off are of
    the size for which insertion is correct. *)
Theorem bt_open_correct np e f s fd blksize (fname : bool) flags o b dflags :
  works s fd blksize -> check_info o = Some b ->
  compare b = Some BtUtils.__bt_defcmp -> prefix b = Some BtUtils.__bt_defpfx -> Z.land (b_flags b) R_DUP = 0 ->
  Z.land flags O_ACCMODE = O_RDWR -> f_size f = 0 -> f_pages f = ∅ -> f_npages f = 0 ->
  choose_psize (b_psize b) blksize < 2 ^ 16 ->
  exists t hd, __bt_open np e f s fname flags o dflags = Ret {| db := Some (t, hd); o_errno := 0; held := all_held |} /\
    tree t [(P_ROOT, [])] [] [] /\ writable t /\ bt_order t = NOT /\ psize t = choose_psize (b_psize b) blksize /\
    (3 <= minkeypage b -> 14 * minkeypage b <= psize t - BTDATAOFF ->
     forall k d, zlen k + zlen d <= bt_ovflsize (cfg t) -> fits_page t k d).
Proof.
  intros W Hb Hc Hpf Hd Ha Hs Hp Hn Hps.
  destruct (open_new np e f s fd blksize fname flags o b dflags W Hb Hc Hpf Hd Ha Hs Hp Hn Hps) as (t & hd & E & Ht & _ & H).
  by exists t, hd.
Qed.

(** C10: What __bt_sync writes, dbopen finds: a changed tree of which the meta page is to be written
    is the same tree after it has been written and opened again, with the same records and
    the same free list, and can be written. *)
Theorem bt_sync_reopen x t L up free nrecs f m :
  tree t L up free -> writable t -> is_set (bt_flags t) B_INMEM = false -> is_set (bt_flags t) B_NEEDSWAP = false ->
  is_set (bt_flags t) B_MODIFIED = true -> is_set (bt_flags t) B_METADIRTY = true ->
  pages (bt_mp t) !! P_META = Some m -> npages (bt_mp t) < 2 ^ 32 -> Z.land (psize t) 1 = 0 -> is_u32 nrecs ->
  exists t1 f1, __bt_sync x t nrecs f 0 = (RET_SUCCESS, t1, f1) /\ tree t1 L up free /\
    forall np e s fd blksize flags, works s fd blksize -> s_read s = 24 -> Z.land flags O_ACCMODE = O_RDWR ->
      exists t2 hd, __bt_open np e f1 s true flags None 0 = Ret {| db := Some (t2, hd); o_errno := e; held := all_held |} /\
        tree t2 L up free /\ writable t2 /\ bt_order t2 = NOT /\ bt_nrecs hd = nrecs.
Proof.
  intros Ht Hw Hi Hsw Hmod Hmd Hm Hn Hev Hr. pose proof (tr_standard _ _ _ _ Ht) as Hst. pose proof (st_size _ Hst) as Hps.
  assert (Hn0 : 0 < npages (bt_mp t)).
  { destruct (root_level _ (tr_linked _ _ _ _ Ht)) as (low & n & E & Hp). pose proof (tr_range _ _ _ _ Ht) as Hrg.
    apply Forall_app in Hrg as [Hrg _]. rewrite E, BtLevels.numbers_app in Hrg. apply Forall_app in Hrg as [_ Hrg].
    apply Forall_cons in Hrg as [Hrg _]. lia. }
  set (M := meta_for t nrecs). set (m1 := set_bytes m (meta_bytes M ++ drop 24 (bytes m))). set (t1 := store t P_META m1).
  assert (Hsame : forall n, 0 < n -> pages (bt_mp t1) !! n = pages (bt_mp t) !! n).
  { intros n H. cbn. apply lookup_insert_ne. unfold P_META. lia. }
  assert (Hst1 : standard t1) by (by destruct Hst).
  set (t1' := set_bt_flags t1 (F_CLR (bt_flags t1) B_MODIFIED)).
  set (f1 := {| f_size := npages (bt_mp t) * psize t; f_pages := pages (bt_mp t1); f_npages := npages (bt_mp t) |}).
  exists t1', f1. split; [|split].
  - unfold __bt_sync. rewrite is_set_or, Hi, Hmod, Hmd. unfold writable in Hw. rewrite Hw. cbn [orb negb Z.eqb].
    rewrite (bt_meta_spec t nrecs m (st_calls _ Hst) Hm Hn0). fold M. fold m1. fold t1. change (RET_SUCCESS =? RET_ERROR) with false. cbv iota.
    unfold mpool_sync, call_works. change (calls (bt_mp t1)) with (calls (bt_mp t)). rewrite (st_calls _ Hst).
    change (bt_flags t1) with (bt_flags t). rewrite Hsw. done.
  - apply (tree_reload t); [|done..]. destruct Hst1 as [S1 S2 S3 S4 S5]. split; try done.
    cbn. unfold is_set, F_CLR. rewrite <- Z.land_assoc. change (Z.land (Z.lnot B_MODIFIED) B_NODUPS) with B_NODUPS. exact S4.
  - intros np e s fd blksize flags W Hrd Ha. pose proof (meta_for_valid t L up free nrecs Ht Hn Hev Hr) as Hv.
    assert (Ho : open_file s true flags 0 = inr (fd, 0)) by (unfold open_file; rewrite Ha, (wk_open _ _ _ W); done).
    assert (Hp : file_params f1 s default_info blksize 0 = inr (psize t, Z.land (bt_flags t) SAVEMETA, bt_free t, nrecs)).
    { rewrite (params_of_meta false f1 s default_info blksize 0 M m1 (drop 24 (bytes m))); [done|done| |done|apply lookup_insert_eq|done].
      cbn. lia. }
    set (t0 := new_btree np e f1 s default_info (psize t) (Z.land (bt_flags t) SAVEMETA) (bt_free t)).
    assert (Hs0 : is_set (Z.land (bt_flags t) SAVEMETA) B_NEEDSWAP = false /\ is_set (Z.land (bt_flags t) SAVEMETA) B_RDONLY = false /\
      is_set (Z.land (bt_flags t) SAVEMETA) B_NODUPS = true).
    { unfold is_set. rewrite <- !Z.land_assoc. change (Z.land SAVEMETA B_NEEDSWAP) with 0. change (Z.land SAVEMETA B_RDONLY) with 0.
      change (Z.land SAVEMETA B_NODUPS) with B_NODUPS. rewrite Z.land_0_r. split; [done|split; [done|apply (st_nodups _ Hst)]]. }
    destruct Hs0 as (F1 & F2 & F3).
    assert (Hpg : pages (bt_mp t0) = pages (bt_mp t1)) by (cbn; by rewrite F1).
    assert (Hnr : nroot t0 = Ret (RET_SUCCESS, t0)).
    { apply (nroot_old t0 m1); [apply (wk_calls _ _ _ W)|rewrite Hpg; apply lookup_insert_eq|done]. }
    eexists _, _. split; [apply (open_run np e f1 s fd blksize true flags None default_info 0 0 (psize t) _ (bt_free t) nrecs t0 W eq_refl Ho Hp Hnr)|].
    split; [|by split]. apply (tree_reload t); try done.
    + split; [done|done|done|exact F3|apply (wk_calls _ _ _ W)].
    + intros n H. change (pages (bt_mp t0) !! n = pages (bt_mp t) !! n). rewrite Hpg. by apply Hsame.
Qed.

(** dbopen always returns, and a call that returns NULL holds nothing any more, but for the buffer pool when
    the root of a new tree could not be made, which is never freed; a wrong option is found before anything is
    taken. *)
Theorem bt_open_releases np e f s fname flags o dflags :
  exists r, __bt_open np e f s fname flags o dflags = Ret r /\
    match db r with
    | Some _ => held r = all_held
    | None => held r = [] \/ held r = [Pool] /\ s_mpool s = true
    end /\ (check_info o = None -> r = {| db := None; o_errno := EINVAL; held := [] |}).
Proof.
  assert (Hf : forall b e0 r, check_info o = Some b -> release r = [] -> exists r0, fails e0 r = Ret r0 /\
    match db r0 with Some _ => held r0 = all_held | None => held r0 = [] \/ held r0 = [Pool] /\ s_mpool s = true end /\
    (check_info o = None -> r0 = {| db := None; o_errno := EINVAL; held := [] |})).
  { intros b e0 r Hb Hr. eexists. split; [reflexivity|]. cbn. rewrite Hr, Hb. split; [by left|done]. }
  unfold __bt_open. destruct (check_info o) as [b|] eqn:Eb.
  2: { eexists. split; [reflexivity|]. split; [by left|done]. }
  specialize (fun e0 r => Hf b e0 r eq_refl).
  destruct (negb (malloc_t s)); [by apply Hf|]. destruct (negb (malloc_db s)); [by apply Hf|].
  destruct (open_file _ _ _ _) as [?|[fd fl]]; [by apply Hf|]. destruct (negb (s_fcntl s)); [by apply Hf|].
  destruct (s_fstat s) as [blk|]; [|by apply Hf]. destruct (file_params _ _ _ _ _) as [?|[[[ps fl'] fr] nr]]; [by apply Hf|].
  destruct (s_mpool s) eqn:Em; [|by apply Hf]. cbn [negb].
  destruct (nroot_total (new_btree np e f s b ps fl' fr)) as (status & t' & ->). cbn [mbind outcome_bind].
  destruct (status =? RET_ERROR); eexists; (split; [reflexivity|]); split; [by right|done|done|done].
Qed.

(** Too many keys to a page and the cut-off, computed without sign, is larger than the page: records that
    do not fit on it are not stored on overflow pages. *)
Lemma ovflsize_wraps : ovflsize 512 50 = 65531 /\ ovflsize 4096 400 = 65532.
Proof. by vm_compute. Qed.

Lemma bt_open_correct_witness :
  exists t hd, __bt_open blank 0 empty_file linux true O_RDWR (Some small_pages) 0 =
      Ret {| db := Some (t, hd); o_errno := 0; held := all_held |} /\
    tree t [(P_ROOT, [])] [] [] /\ writable t /\ fits_page t [1] (replicate 149 0).
Proof.
  assert (W : works linux 3 4096) by by split.
  destruct (bt_open_correct blank 0 empty_file linux 3 4096 true O_RDWR (Some small_pages) (default default_info (check_info (Some small_pages))) 0
    W eq_refl eq_refl eq_refl eq_refl eq_refl eq_refl eq_refl eq_refl ltac:(by vm_compute)) as (t & hd & E & Ht & Hw & _ & Hp & Hf).
  exists t, hd. split; [exact E|]. split; [exact Ht|]. split; [exact Hw|]. apply Hf; [by vm_compute|rewrite Hp; by vm_compute|].
  injection E as <- _. by vm_compute.
Defined.

(** A tree that was made, as it is after a put. *)
Lemma bt_sync_reopen_witness :
  let t := {| cfg := default_config 512;
              bt_mp := {| pages := <[P_META := zero_page 512]> {[P_ROOT := leaf_page 512 P_ROOT [BLEAF 0 [1] [10]]]}; npages := 2; calls := [] |};
              bt_free := P_INVALID; bt_order := NOT; bt_last := (0, 0); bt_cursor := no_cursor; bt_stack := [];
              bt_flags := Z.lor B_NODUPS (Z.lor B_METADIRTY B_MODIFIED); errno := 0; panicked := false |} in
  exists t1 f1, __bt_sync nothing t 0 empty_file 0 = (RET_SUCCESS, t1, f1) /\
    exists t2 hd, __bt_open blank 0 f1 linux true O_RDWR None 0 = Ret {| db := Some (t2, hd); o_errno := 0; held := all_held |} /\
      tree t2 [(P_ROOT, [BLEAF 0 [1] [10]])] [] [].
Proof.
  intros t. assert (Ht0 : tree (one_leaf 512 [BLEAF 0 [1] [10]]) [(P_ROOT, [BLEAF 0 [1] [10]])] [] []).
  { apply one_leaf_tree; [lia|by vm_compute|by repeat constructor|by repeat constructor|repeat constructor]. }
  assert (Ht : tree t [(P_ROOT, [BLEAF 0 [1] [10]])] [] []).
  { apply (tree_reload (one_leaf 512 [BLEAF 0 [1] [10]])); [|intros n Hn; apply lookup_insert_ne; unfold P_META; lia|done..].
    split; [cbn; lia|done..]. }
  assert (W : works linux 3 4096) by by split.
  destruct (bt_sync_reopen nothing t _ _ _ 0 empty_file (zero_page 512) Ht eq_refl eq_refl eq_refl eq_refl eq_refl eq_refl
    ltac:(by vm_compute) eq_refl ltac:(by vm_compute)) as (t1 & f1 & E & _ & H).
  destruct (H blank 0 linux 3 4096 O_RDWR W eq_refl eq_refl) as (t2 & hd & E2 & Ht2 & _). exists t1, f1. split; [exact E|]. by exists t2, hd.
Defined.

(** B_METADIRTY is set when a file is made and never after: in a later session the free list in the file stays
    what it was.  A page that a put has taken from it is taken again in the session after, and its
    records are lost, though every call has succeeded. *)
Theorem bt_free_list_lost :
  let x k := Put [k] (replicate 100 0) in
  after (sessions empty_file [[x 10; x 20; x 30; x 40; x 50; x 60; Del [10]; Del [20]; Del [30]]; [x 70; x 80]])
    (fun f => lookup_in f [80] = Ret RET_SUCCESS /\
      after (session f [x 41; x 42]) (fun f => lookup_in f [80] = Ret RET_SPECIAL)).
Proof. by vm_compute. Qed.
End BtOpen.
