(* ===== verification/BtConv.v ===== *)
(** The pages of a btree as bytes, and their conversion to and from the other byte order (db.1.85/bt_conv.c).

    BtPage.v has pages as records; here a page is [psize] bytes, numbers in the order of the host, which is
    little-endian.  The conversion of a page in one order is the same page in the other. *)

From S2P Require Import Prelude BtPage BtOpen.
Import BtPage.
#[local] Open Scope Z_scope.

Module BtConv.

Section Conv.
Context (psize : Z).

(** ** Bytes *)

Abbreviation mem := (Z -> Z).

Definition inside (o n : Z) : bool := (0 <=? o) && (o + n <=? psize).
Definition ld (m : mem) (o : Z) : outcome Z := if inside o 1 then Ret (m o) else Fault.
Definition ld16 (m : mem) (o : Z) : outcome Z := if inside o 2 then Ret (m o + 2 ^ 8 * m (o + 1)) else Fault.
Definition ld32 (m : mem) (o : Z) : outcome Z :=
  if inside o 4 then Ret (m o + 2 ^ 8 * m (o + 1) + 2 ^ 16 * m (o + 2) + 2 ^ 24 * m (o + 3)) else Fault.

(** M_32_SWAP, P_32_SWAP and M_16_SWAP. *)
Definition swapped (w o : Z) (m : mem) : mem :=
  fun x => if (o <=? x) && (x <? o + w) then m (2 * o + w - 1 - x) else m x.
Definition bswap (w o : Z) (m : mem) : outcome mem := if inside o w then Ret (swapped w o m) else Fault.

(** ** Conversion *)

(** The header. *)
Definition swap_header (m : mem) : outcome mem :=
  m ← bswap 4 0 m; m ← bswap 4 4 m; m ← bswap 4 8 m; m ← bswap 4 12 m; m ← bswap 2 16 m; bswap 2 18 m.

(** An item of an internal page, and of a leaf page, at [p]. *)
Definition swap_internal (p : Z) (m : mem) : outcome mem :=
  m ← bswap 4 p m;
  let p := p + 4 in
  m ← bswap 4 p m;
  let p := p + 4 in
  fl ← ld m p;
  if is_set fl P_BIGKEY then
    let p := p + 1 in
    m ← bswap 4 p m;
    let p := p + 4 in
    bswap 4 p m
  else Ret m.

Definition swap_leaf (p : Z) (m : mem) : outcome mem :=
  m ← bswap 4 p m;
  let p := p + 4 in
  m ← bswap 4 p m;
  let p := p + 4 in
  fl ← ld m p;
  if is_set fl (Z.lor P_BIGKEY P_BIGDATA) then
    let p := p + 1 in
    '(p, m) ← (if is_set fl P_BIGKEY then
                 m ← bswap 4 p m;
                 let p := p + 4 in
                 m ← bswap 4 p m; Ret (p, m)
               else Ret (p, m));
    if is_set fl P_BIGDATA then
      let p := p + 4 in
      m ← bswap 4 p m;
      let p := p + 4 in
      bswap 4 p m
    else Ret m
  else Ret m.

(** [&h->linp[i]]. *)
Definition linp_at (i : Z) : Z := BTDATAOFF + 2 * i.

(** The turns of the loops, the offset first or last. *)
Definition pgin_turn (item : Z -> mem -> outcome mem) (i : Z) (m : mem) : outcome mem :=
  m ← bswap 2 (linp_at i) m; p ← ld16 m (linp_at i); item p m.
Definition pgout_turn (item : Z -> mem -> outcome mem) (i : Z) (m : mem) : outcome mem :=
  p ← ld16 m (linp_at i); m ← item p m; bswap 2 (linp_at i) m.

(** [for (i = 0; i < top; i++)], with [todo] turns left. *)
Fixpoint each (turn : Z -> mem -> outcome mem) (todo : nat) (i : Z) (m : mem) : outcome mem :=
  match todo with O => Ret m | S todo => m ← turn i m; each turn todo (i + 1) m end.

(** The loop for the type of the page. *)
Definition convert (turn : (Z -> mem -> outcome mem) -> Z -> mem -> outcome mem) (m : mem) : outcome mem :=
  lo ← ld16 m 16;
  fl ← ld32 m 12;
  let top := u16 (u64 (lo - BTDATAOFF) / 2) in
  if Z.land fl P_TYPE =? P_BINTERNAL then each (turn swap_internal) (Z.to_nat top) 0 m
  else if Z.land fl P_TYPE =? P_BLEAF then each (turn swap_leaf) (Z.to_nat top) 0 m
  else Ret m.

Definition mswap_page (m : mem) : outcome mem :=
  m ← bswap 4 0 m; m ← bswap 4 4 m; m ← bswap 4 8 m; m ← bswap 4 12 m; m ← bswap 4 16 m; bswap 4 20 m.

Definition __bt_pgin (needswap : bool) (pg : Z) (m : mem) : outcome mem :=
  if negb needswap then Ret m
  else if pg =? BtOpen.P_META then mswap_page m
  else m ← swap_header m; convert pgin_turn m.

Definition __bt_pgout (needswap : bool) (pg : Z) (m : mem) : outcome mem :=
  if negb needswap then Ret m
  else if pg =? BtOpen.P_META then mswap_page m
  else m ← convert pgout_turn m; swap_header m.

(** ** What the bytes show *)

(** The bytes [l] are at [o]. *)
Definition shows (m : mem) (o : Z) (l : list Z) : Prop := forall j x, l !! j = Some x -> m (o + Z.of_nat j) = x.

Lemma shows_nil m o : shows m o [].
Proof. by intros j x H. Qed.

Lemma shows_app m o a b : shows m o (a ++ b) <-> shows m o a /\ shows m (o + zlen a) b.
Proof.
  unfold shows, zlen. split.
  - intros H. split; intros j x Hj; [apply H; by apply lookup_app_l_Some|].
    rewrite <- Z.add_assoc, <- Nat2Z.inj_add. apply H. rewrite lookup_app_r by lia. by replace (length a + j - length a)%nat with j by lia.
  - intros [Ha Hb] j x Hj. apply lookup_app_Some in Hj as [Hj|[Hl Hj]]; [by apply Ha|].
    rewrite <- (Hb _ _ Hj). f_equal. lia.
Qed.

Lemma shows_cons m o x l : shows m o (x :: l) <-> m o = x /\ shows m (o + 1) l.
Proof.
  change (x :: l) with ([x] ++ l). rewrite shows_app. change (zlen [x]) with 1. split; intros [H1 H2]; (split; [|done]).
  - rewrite <- (H1 0%nat x) by done. f_equal. lia.
  - intros [|j] y; [intros [= <-]; rewrite <- H1; f_equal; lia|done].
Qed.

Lemma shows_ext m m' o l : (forall x, o <= x < o + zlen l -> m' x = m x) -> shows m o l -> shows m' o l.
Proof.
  intros H Hs j x Hj. rewrite H; [by apply Hs|]. apply lookup_lt_Some in Hj. unfold zlen. lia.
Qed.

Lemma shows_eq m m' o l x : shows m o l -> shows m' o l -> o <= x < o + zlen l -> m' x = m x.
Proof.
  intros H H' Hx. unfold zlen in Hx. destruct (lookup_lt_is_Some_2 l (Z.to_nat (x - o)) ltac:(lia)) as [y Hy].
  pose proof (H _ _ Hy) as E. pose proof (H' _ _ Hy) as E'. rewrite Z2Nat.id in E, E' by lia.
  replace (o + (x - o)) with x in * by lia. congruence.
Qed.

(** A swap reverses the bytes at its place, and changes no others. *)
Lemma swapped_other w o m x : ~ o <= x < o + w -> swapped w o m x = m x.
Proof. intros H. unfold swapped. destruct (Z.leb_spec o x), (Z.ltb_spec x (o + w)); cbn; (done || lia). Qed.

Lemma swapped_rev w o m l : zlen l = w -> shows m o l -> shows (swapped w o m) o (rev l).
Proof.
  intros Hw Hs j x Hj. pose proof (lookup_lt_Some _ _ _ Hj) as Hl. rewrite length_rev in Hl.
  rewrite rev_alt in Hj. apply reverse_lookup_Some in Hj as [Hj _].
  unfold swapped, zlen in *. rewrite (proj2 (Z.leb_le _ _)), (proj2 (Z.ltb_lt _ _)) by lia. cbn [andb].
  rewrite <- (Hs _ _ Hj). f_equal. lia.
Qed.

Lemma bswap_ret w o m : 0 <= o -> o + w <= psize -> bswap w o m = Ret (swapped w o m).
Proof. intros H1 H2. unfold bswap, inside. by rewrite !(proj2 (Z.leb_le _ _)). Qed.

(** *** Segments *)

(** Bytes in the order of the host, or in the other. *)
Definition byte_order (be : bool) (l : list Z) : list Z := if be then rev l else l.

(** Segments of memory: the bytes in the order of the host, and whether they have an order. *)
Abbreviation segment := (bool * list Z)%type.
Definition segs_text (be : bool) (segs : list segment) : list Z :=
  concat (map (fun s => if fst s : bool then byte_order be (snd s) else snd s) segs).
Fixpoint flips (o : Z) (segs : list segment) (m : mem) : outcome mem :=
  match segs with
  | [] => Ret m
  | (f, l) :: segs => m ← (if f : bool then bswap (zlen l) o m else Ret m); flips (o + zlen l) segs m
  end.

Lemma zlen_order be l : zlen (byte_order be l) = zlen l.
Proof. destruct be; [|done]. unfold zlen, byte_order. by rewrite length_rev. Qed.

Lemma zlen_text be be' segs : zlen (segs_text be segs) = zlen (segs_text be' segs).
Proof.
  unfold segs_text. induction segs as [|[[] l] segs IH]; [done| |]; cbn; rewrite !zlen_app, IH; [|done]. by rewrite !zlen_order.
Qed.

Lemma text_cons be f l segs : segs_text be ((f, l) :: segs) = (if f : bool then byte_order be l else l) ++ segs_text be segs.
Proof. done. Qed.

Lemma text_app be a b : segs_text be (a ++ b) = segs_text be a ++ segs_text be b.
Proof. unfold segs_text. by rewrite map_app, concat_app. Qed.

(** What a change of the bytes of a place leaves alone. *)
Definition same_outside (o n : Z) (m m' : mem) : Prop := forall x, ~ o <= x < o + n -> m' x = m x.

Lemma flips_spec be segs : forall o m,
  shows m o (segs_text be segs) -> 0 <= o -> o + zlen (segs_text be segs) <= psize ->
  exists m', flips o segs m = Ret m' /\ shows m' o (segs_text (negb be) segs) /\ same_outside o (zlen (segs_text be segs)) m m'.
Proof.
  induction segs as [|[f l] segs IH]; intros o m Hs Ho Hp.
  - exists m. split; [done|]. split; [apply shows_nil|by intros x _].
  - change (segs_text be ((f, l) :: segs)) with ((if f then byte_order be l else l) ++ segs_text be segs) in *.
    change (segs_text (negb be) ((f, l) :: segs)) with ((if f then byte_order (negb be) l else l) ++ segs_text (negb be) segs).
    assert (Hl : forall b, zlen (if f then byte_order b l else l) = zlen l) by (intros b; destruct f; [apply zlen_order|done]).
    rewrite zlen_app, Hl in *. apply shows_app in Hs as [H1 H2]. rewrite Hl in H2. pose proof (zlen_nonneg l). pose proof (zlen_nonneg (segs_text be segs)).
    assert (Hm : exists m1, (if f then bswap (zlen l) o m else Ret m) = Ret m1 /\
      shows m1 o (if f then byte_order (negb be) l else l) /\ same_outside o (zlen l) m m1).
    { destruct f; [|exists m; split; [done|split; [done|by intros x _]]].
      rewrite bswap_ret by lia. eexists. split; [done|]. split.
      - destruct be; cbn [byte_order negb] in *; [|by apply swapped_rev].
        pose proof (swapped_rev (zlen l) o m (rev l)) as E. rewrite rev_involutive in E. apply E; [|done].
        unfold zlen. by rewrite length_rev.
      - intros x Hx. by apply swapped_other. }
    destruct Hm as (m1 & E & S1 & F1). cbn [flips]. rewrite E. cbn [mbind outcome_bind].
    destruct (IH (o + zlen l) m1) as (m' & E' & S2 & F2); [|lia|lia|].
    { eapply shows_ext; [|exact H2]. intros x Hx. apply F1. lia. }
    exists m'. split; [done|]. split.
    + apply shows_app. rewrite Hl. split; [|done]. eapply shows_ext; [|exact S1]. intros x Hx. rewrite Hl in Hx. apply F2. lia.
    + intros x Hx. rewrite F2 by lia. apply F1. lia.
Qed.

(** The segments of the header and of an item. *)
Definition header_segs (h : page) : list segment :=
  [(true, le_bytes 4 (pgno h)); (true, le_bytes 4 (prevpg h)); (true, le_bytes 4 (nextpg h)); (true, le_bytes 4 (flags h));
   (true, le_bytes 2 (lower h)); (true, le_bytes 2 (upper h))].
Definition ref_segs (big : bool) (b : list Z) : list segment :=
  if big then [(true, take 4 b); (true, take 4 (drop 4 b)); (false, drop 8 b)] else [(false, b)].
(** The two words and the flags in front of the rest of an item. *)
Definition item_head (a c fl : Z) : list segment := [(true, le_bytes 4 a); (true, le_bytes 4 c); (false, [fl])].
Definition item_segs (it : item) : list segment :=
  match it with
  | BINTERNAL pg fl b => item_head (zlen b) pg fl ++ ref_segs (is_set fl P_BIGKEY) b
  | BLEAF fl k d =>
      item_head (zlen k) (zlen d) fl ++ ref_segs (is_set fl P_BIGKEY) k ++ ref_segs (is_set fl P_BIGDATA) d
  | Junk => []
  end.

Lemma swap_header_flips h m : swap_header m = flips 0 (header_segs h) m.
Proof.
  symmetry. unfold swap_header. cbn [flips header_segs]. do 5 (apply bind_ext; intros ? _). apply bind_Ret.
Qed.
(** *** Items *)

(** The conversion knows where the words of an item are: for overflow data behind a key that is not on
    overflow pages only when the key has four bytes. *)
Definition convertible (it : item) : Prop :=
  match it with
  | BINTERNAL _ fl b => is_set fl P_BIGKEY = true -> 8 <= zlen b
  | BLEAF fl k d =>
      (is_set fl P_BIGKEY = true -> zlen k = 8) /\
      (is_set fl P_BIGDATA = true -> 8 <= zlen d /\ (is_set fl P_BIGKEY = true \/ zlen k = 4))
  | Junk => False
  end.

Lemma bswap_inv w o m m' : bswap w o m = Ret m' -> same_outside o w m m'.
Proof. unfold bswap. destruct (inside o w); intros [= <-] x Hx. by apply swapped_other. Qed.

Lemma ld_ret m o : 0 <= o -> o + 1 <= psize -> ld m o = Ret (m o).
Proof. intros H1 H2. unfold ld, inside. by rewrite !(proj2 (Z.leb_le _ _)). Qed.

Lemma zlen_take4 (b : list Z) : 8 <= zlen b -> zlen (take 4 b) = 4 /\ zlen (take 4 (drop 4 b)) = 4.
Proof. unfold zlen. rewrite !length_take, length_drop. lia. Qed.

(** The words of a reference to overflow pages. *)
Lemma ref_flips o b m : 8 <= zlen b ->
  flips o (ref_segs true b) m = (m ← bswap 4 o m; bswap 4 (o + 4) m).
Proof.
  intros H. destruct (zlen_take4 b H) as [E1 E2]. cbn [ref_segs flips]. rewrite E1, E2.
  apply bind_ext; intros m1 _. cbn [mbind outcome_bind]. apply bind_Ret.
Qed.

Lemma swap_internal_flips p m pg fl b :
  convertible (BINTERNAL pg fl b) -> m (p + 8) = fl -> 0 <= p -> p + 9 <= psize ->
  swap_internal p m = flips p (item_segs (BINTERNAL pg fl b)) m.
Proof.
  intros Hc Hf Hp Hs. unfold swap_internal. cbn [item_segs item_head app flips].
  change (zlen (le_bytes 4 (zlen b))) with 4. change (zlen (le_bytes 4 pg)) with 4.
  apply bind_ext; intros m1 E1%bswap_inv. apply bind_ext; intros m2 E2%bswap_inv.
  rewrite ld_ret by lia. cbn [mbind outcome_bind].
  rewrite E2, E1 by lia. replace (m (p + 4 + 4)) with fl by (rewrite <- Hf; f_equal; lia).
  change (zlen [fl]) with 1. cbn [convertible] in Hc. destruct (is_set fl P_BIGKEY); [|done].
  by rewrite ref_flips by auto.
Qed.

Lemma is_set_lor f a b : is_set f (Z.lor a b) = is_set f a || is_set f b.
Proof.
  unfold is_set. rewrite Z.land_lor_distr_r. destruct (Z.eqb_spec (Z.land f a) 0) as [->|Ha]; [done|].
  destruct (Z.eqb_spec (Z.lor (Z.land f a) (Z.land f b)) 0) as [E|]; [|done]. apply Z.lor_eq_0_iff in E. by destruct E.
Qed.

Lemma flips_app a b : forall o m, flips o (a ++ b) m = (m ← flips o a m; flips (o + zlen (segs_text false a)) b m).
Proof.
  induction a as [|[f l] a IH]; intros o m; cbn [app flips].
  - by rewrite Z.add_0_r.
  - change (segs_text false ((f, l) :: a)) with ((if f then byte_order false l else l) ++ segs_text false a).
    rewrite zlen_app. replace (zlen (if f then byte_order false l else l)) with (zlen l) by by destruct f.
    rewrite Z.add_assoc. destruct (if f then bswap (zlen l) o m else Ret m); cbn [mbind outcome_bind]; [apply IH|done|done].
Qed.

Lemma zlen_ref be big b : zlen (segs_text be (ref_segs big b)) = zlen b.
Proof.
  rewrite (zlen_text be false). destruct big; cbn [ref_segs]; rewrite ?text_cons; cbn [byte_order segs_text map concat]; rewrite app_nil_r; [|done].
  replace (drop 8 b) with (drop 4 (drop 4 b)) by by rewrite drop_drop. by rewrite !take_drop.
Qed.

Lemma swap_leaf_flips p m fl k d :
  convertible (BLEAF fl k d) -> m (p + 8) = fl -> 0 <= p -> p + 9 <= psize ->
  swap_leaf p m = flips p (item_segs (BLEAF fl k d)) m.
Proof.
  intros [Hk Hd] Hf Hp Hs. unfold swap_leaf. cbn [item_segs item_head app flips].
  change (zlen (le_bytes 4 (zlen k))) with 4. change (zlen (le_bytes 4 (zlen d))) with 4.
  apply bind_ext; intros m1 E1%bswap_inv. apply bind_ext; intros m2 E2%bswap_inv.
  rewrite ld_ret by lia. cbn [mbind outcome_bind].
  rewrite E2, E1 by lia. replace (m (p + 4 + 4)) with fl by (rewrite <- Hf; f_equal; lia).
  change (zlen [fl]) with 1. rewrite is_set_lor, flips_app, zlen_ref.
  destruct (is_set fl P_BIGKEY); cbn [orb].
  - rewrite ref_flips by (rewrite Hk by done; lia). rewrite Hk by done.
    destruct (bswap 4 (p + 4 + 4 + 1) m2) as [m3| |]; cbn [mbind outcome_bind]; [|done|done].
    destruct (bswap 4 (p + 4 + 4 + 1 + 4) m3) as [m4| |]; cbn [mbind outcome_bind]; [|done|done].
    destruct (is_set fl P_BIGDATA); [|done]. destruct (Hd eq_refl) as [Hd' _]. rewrite ref_flips by done.
    replace (p + 4 + 4 + 1 + 4 + 4) with (p + 4 + 4 + 1 + 8) by lia. done.
  - destruct (is_set fl P_BIGDATA); [|done]. destruct (Hd eq_refl) as [Hd' [?|Hk4]]; [done|].
    change (flips ?o (ref_segs false ?b) ?x) with (@Ret mem x). cbn [mbind outcome_bind]. by rewrite Hk4, (ref_flips _ d).
Qed.

(** An item at its place, in one order and then in the other. *)
Definition item_text (be : bool) (it : item) : list Z := segs_text be (item_segs it).
Definition item_len (it : item) : Z := zlen (item_text false it).

Definition swap_item (internal : bool) : Z -> mem -> outcome mem := if internal then swap_internal else swap_leaf.
Definition of_kind (internal : bool) (it : item) : Prop :=
  match it with BINTERNAL _ _ _ => internal = true | BLEAF _ _ _ => internal = false | Junk => False end.

Lemma zlen_item_head be a c fl : zlen (segs_text be (item_head a c fl)) = 9.
Proof. by rewrite (zlen_text be false). Qed.

Lemma item_head_flag be m p a c fl rest : shows m p (segs_text be (item_head a c fl ++ rest)) -> m (p + 8) = fl.
Proof.
  unfold item_head. rewrite text_app, !text_cons. intros [H _]%shows_app. apply shows_app in H as [_ H]. apply shows_app in H as [_ H].
  apply shows_cons in H as [H _]. rewrite <- H. f_equal. unfold zlen. destruct be; unfold byte_order; rewrite ?length_rev, !length_le_bytes; lia.
Qed.

Lemma item_len_size it : item_len it <= size it.
Proof.
  unfold item_len, item_text. destruct it as [pg fl b|fl k d|]; cbn [item_segs]; [| |done].
  - rewrite text_app, zlen_app, zlen_item_head, zlen_ref. cbn [size]. unfold NBINTERNAL.
    pose proof (LALIGN_bounds (4 + 4 + 1 + zlen b)). lia.
  - rewrite !text_app, !zlen_app, zlen_item_head, !zlen_ref. cbn [size]. unfold NBLEAFDBT.
    pose proof (LALIGN_bounds (4 + 4 + 1 + zlen k + zlen d)). lia.
Qed.

Lemma item_spec be internal it p m :
  of_kind internal it -> convertible it -> shows m p (item_text be it) -> 0 <= p -> p + item_len it <= psize ->
  exists m', swap_item internal p m = Ret m' /\ shows m' p (item_text (negb be) it) /\ same_outside p (item_len it) m m'.
Proof.
  intros Hk Hc Hs Hp Hl. unfold item_len, item_text in *. rewrite (zlen_text false be) in *.
  destruct (flips_spec be (item_segs it) p m Hs Hp Hl) as (m' & E & S & F). exists m'. split; [|done]. rewrite <- E.
  destruct it as [pg fl b|fl k d|]; cbn [of_kind item_segs] in *; [| |done]; subst internal; cbn [swap_item].
  - pose proof (item_head_flag _ _ _ _ _ _ _ Hs) as Hf. rewrite text_app, zlen_app, zlen_item_head, zlen_ref in Hl.
    pose proof (zlen_nonneg b). apply (swap_internal_flips p m pg fl b); auto with lia.
  - pose proof (item_head_flag _ _ _ _ _ _ _ Hs) as Hf.
    rewrite !text_app, !zlen_app, zlen_item_head, !zlen_ref in Hl.
    pose proof (zlen_nonneg k). pose proof (zlen_nonneg d). apply (swap_leaf_flips p m fl k d); auto with lia.
Qed.

(** *** The loops *)

Lemma u16_le_bytes v : 0 <= v < 2 ^ 16 -> u8 (v .>> 0) + 2 ^ 8 * u8 (v .>> 8) = v.
Proof.
  intros H. unfold u8. rewrite Z.shiftr_0_r, Z.shiftr_div_pow2 by lia.
  rewrite (Z.mod_small (v / 2 ^ 8)) by (split; [apply Z.div_pos; lia|apply Z.div_lt_upper_bound; lia]).
  pose proof (Z.div_mod v (2 ^ 8)). lia.
Qed.

Lemma ld16_shown m o v : shows m o (le_bytes 2 v) -> 0 <= v < 2 ^ 16 -> 0 <= o -> o + 2 <= psize -> ld16 m o = Ret v.
Proof.
  intros Hs Hv H1 H2. unfold ld16, inside. rewrite !(proj2 (Z.leb_le _ _)) by lia. cbn [andb]. f_equal.
  change (le_bytes 2 v) with [u8 (v .>> 0); u8 (v .>> 8)] in Hs. apply shows_cons in Hs as [-> Hs]. apply shows_cons in Hs as [-> _].
  by apply u16_le_bytes.
Qed.

Lemma ld32_shown m o v : shows m o (le_bytes 4 v) -> 0 <= v < 2 ^ 32 -> 0 <= o -> o + 4 <= psize -> ld32 m o = Ret v.
Proof.
  intros Hs Hv H1 H2. unfold ld32, inside. rewrite !(proj2 (Z.leb_le _ _)) by lia. cbn [andb]. f_equal.
  change (le_bytes 4 v) with [u8 (v .>> 0); u8 (v .>> 8); u8 (v .>> 16); u8 (v .>> 24)] in Hs.
  apply shows_cons in Hs as [-> Hs]. apply shows_cons in Hs as [E1 Hs]. apply shows_cons in Hs as [E2 Hs]. apply shows_cons in Hs as [E3 _].
  rewrite E1. replace (o + 2) with (o + 1 + 1) by lia. replace (o + 3) with (o + 1 + 1 + 1) by lia. rewrite E2, E3.
  unfold u8. rewrite Z.shiftr_0_r, !Z.shiftr_div_pow2 by lia.
  rewrite (Z.mod_small (v / 2 ^ 24)) by (split; [apply Z.div_pos; lia|apply Z.div_lt_upper_bound; lia]).
  pose proof (Z.div_mod v (2 ^ 8)). pose proof (Z.div_mod (v / 2 ^ 8) (2 ^ 8)). pose proof (Z.div_mod (v / 2 ^ 16) (2 ^ 8)).
  rewrite Z.div_div in * by lia. change (2 ^ 8 * 2 ^ 8) with (2 ^ 16) in *. change (2 ^ 16 * 2 ^ 8) with (2 ^ 24) in *. lia.
Qed.

Section Page.
Context (h : page) (n : Z) (internal : bool).

(** The places of the items: behind the offsets, in the page, and apart from each other. *)
Definition item_place (i x : Z) : Prop := linp h i <= x < linp h i + item_len (entry h i).
Hypothesis Hplace : forall i, 0 <= i < n ->
  linp_at n <= linp h i /\ linp h i < 2 ^ 16 /\ linp h i + item_len (entry h i) <= psize.
Hypothesis Hapart : forall i j x, 0 <= i < n -> 0 <= j < n -> i <> j -> item_place i x -> ~ item_place j x.
Hypothesis Hkind : forall i, 0 <= i < n -> of_kind internal (entry h i) /\ convertible (entry h i).

(** The offset and the item of an index, in an order; their bytes. *)
Definition item_shown (be : bool) (m : mem) (i : Z) : Prop :=
  shows m (linp_at i) (byte_order be (le_bytes 2 (linp h i))) /\ shows m (linp h i) (item_text be (entry h i)).
Definition item_bytes (i x : Z) : Prop := linp_at i <= x < linp_at i + 2 \/ item_place i x.

Lemma item_shown_other be m m' i : item_shown be m i -> (forall x, item_bytes i x -> m' x = m x) -> item_shown be m' i.
Proof.
  intros [H1 H2] H. split; (eapply shows_ext; [|eassumption]); intros x Hx; apply H.
  - left. rewrite zlen_order in Hx. exact Hx.
  - right. unfold item_place, item_len, item_text in *. by rewrite (zlen_text false be).
Qed.

Lemma item_bytes_apart i j x : 0 <= i < n -> 0 <= j < n -> i <> j -> item_bytes i x -> ~ item_bytes j x.
Proof.
  intros Hi Hj Hn [Hx|Hx] [Hy|Hy].
  - unfold linp_at in *. lia.
  - pose proof (Hplace j Hj). unfold item_place, linp_at in *. lia.
  - pose proof (Hplace i Hi). unfold item_place, linp_at in *. lia.
  - exact (Hapart i j x Hi Hj Hn Hx Hy).
Qed.

(** What a turn does. *)
Definition turns (be : bool) (turn : Z -> mem -> outcome mem) : Prop := forall i m,
  0 <= i < n -> item_shown be m i ->
  exists m', turn i m = Ret m' /\ item_shown (negb be) m' i /\ forall x, ~ item_bytes i x -> m' x = m x.

Lemma linp_swapped be m i : 0 <= i < n -> shows m (linp_at i) (byte_order be (le_bytes 2 (linp h i))) ->
  bswap 2 (linp_at i) m = Ret (swapped 2 (linp_at i) m) /\
  shows (swapped 2 (linp_at i) m) (linp_at i) (byte_order (negb be) (le_bytes 2 (linp h i))).
Proof.
  intros Hi Hs. pose proof (Hplace i Hi) as (H1 & _ & H2). pose proof (zlen_nonneg (item_text false (entry h i))).
  unfold item_len, linp_at, BTDATAOFF in *. rewrite bswap_ret by lia. split; [done|].
  destruct be; cbn [byte_order negb] in *; [|by apply swapped_rev].
  rewrite <- (rev_involutive (le_bytes 2 _)). by apply swapped_rev.
Qed.

Lemma pgin_turns : turns true (pgin_turn (swap_item internal)).
Proof.
  intros i m Hi [H1 H2]. pose proof (Hplace i Hi) as (P1 & P2 & P3). destruct (Hkind i Hi) as [K C].
  destruct (linp_swapped true m i Hi H1) as [E S]. unfold pgin_turn. rewrite E. cbn [mbind outcome_bind].
  pose proof (zlen_nonneg (item_text false (entry h i))) as Hn. fold (item_len (entry h i)) in Hn.
  rewrite (ld16_shown _ _ _ S) by (unfold linp_at, BTDATAOFF in *; lia). cbn [mbind outcome_bind].
  destruct (item_spec true internal (entry h i) (linp h i) (swapped 2 (linp_at i) m) K C) as (m' & E' & S' & F);
    [|unfold linp_at, BTDATAOFF in *; lia|lia|].
  { eapply shows_ext; [|exact H2]. intros x Hx. apply swapped_other. unfold linp_at, BTDATAOFF in *. lia. }
  exists m'. split; [done|]. split; [split; [|done]|].
  - eapply shows_ext; [|exact S]. intros x Hx. apply F. change (zlen _) with 2 in Hx. unfold linp_at, BTDATAOFF in *. lia.
  - intros x Hx. unfold item_bytes, item_place in Hx. rewrite F by tauto. apply swapped_other. tauto.
Qed.

Lemma pgout_turns : turns false (pgout_turn (swap_item internal)).
Proof.
  intros i m Hi [H1 H2]. pose proof (Hplace i Hi) as (P1 & P2 & P3). destruct (Hkind i Hi) as [K C].
  pose proof (zlen_nonneg (item_text false (entry h i))) as Hn. fold (item_len (entry h i)) in Hn.
  unfold pgout_turn. rewrite (ld16_shown _ _ _ H1) by (unfold linp_at, BTDATAOFF in *; lia). cbn [mbind outcome_bind].
  destruct (item_spec false internal (entry h i) (linp h i) m K C H2) as (m' & E' & S' & F);
    [unfold linp_at, BTDATAOFF in *; lia|lia|]. rewrite E'. cbn [mbind outcome_bind].
  assert (H1' : shows m' (linp_at i) (byte_order false (le_bytes 2 (linp h i)))).
  { eapply shows_ext; [|exact H1]. intros x Hx. apply F. change (zlen _) with 2 in Hx. unfold linp_at, BTDATAOFF in *. lia. }
  destruct (linp_swapped false m' i Hi H1') as [E S]. rewrite E. eexists. split; [done|]. split; [split; [done|]|].
  - eapply shows_ext; [|exact S']. intros x Hx. apply swapped_other.
    unfold linp_at, BTDATAOFF in *. lia.
  - intros x Hx. unfold item_bytes, item_place in Hx. rewrite swapped_other by tauto. apply F. tauto.
Qed.

(** The loop turns every item. *)
Lemma each_spec be turn : turns be turn -> forall todo i m, i + Z.of_nat todo = n -> 0 <= i ->
  (forall j, i <= j < n -> item_shown be m j) -> (forall j, 0 <= j < i -> item_shown (negb be) m j) ->
  exists m', each turn todo i m = Ret m' /\ (forall j, 0 <= j < n -> item_shown (negb be) m' j) /\
    forall x, (forall j, 0 <= j < n -> ~ item_bytes j x) -> m' x = m x.
Proof.
  intros Ht. induction todo as [|todo IH]; intros i m Hn Hi H1 H2.
  - exists m. split; [done|]. split; [|done]. intros j Hj. apply H2. lia.
  - cbn [each]. destruct (Ht i m ltac:(lia) (H1 i ltac:(lia))) as (m1 & -> & S & F). cbn [mbind outcome_bind].
    assert (Hother : forall b j, 0 <= j < n -> j <> i -> item_shown b m j -> item_shown b m1 j).
    { intros b j Hj Hne Hs. eapply item_shown_other; [exact Hs|]. intros x Hx. apply F. apply (item_bytes_apart j i x); auto; lia. }
    destruct (IH (i + 1) m1) as (m' & E & S' & F'); [lia|lia|intros j Hj; apply Hother; [lia|lia|apply H1; lia]| |].
    { intros j Hj. destruct (Z.eq_dec j i) as [->|Hne]; [done|]. apply Hother; [lia|done|apply H2; lia]. }
    exists m'. split; [done|]. split; [done|]. intros x Hx. rewrite F' by done. apply F. apply Hx. lia.
Qed.

End Page.

(** *** Pages *)

Lemma tiles_apart its lo lay hi : tiles its lo lay hi ->
  NoDup lay /\ forall o o' x, o ∈ lay -> o' ∈ lay -> o <> o' -> o <= x < o + size (its o) -> ~ o' <= x < o' + size (its o').
Proof.
  revert lo. induction lay as [|p lay IH]; intros lo; cbn [tiles].
  - intros _. split; [constructor|]. intros o o' x Ho. by apply elem_of_nil in Ho.
  - intros (-> & Hp & Ht). destruct (IH _ Ht) as [Hn Ha].
    assert (Hin : forall o, o ∈ lay -> lo + size (its lo) <= o) by (intros o Ho; by apply (tiles_in _ _ _ _ o Ht)).
    split; [constructor; [|done]; intros Ho%Hin; lia|].
    intros o o' x [->|Ho]%elem_of_cons [->|Ho']%elem_of_cons Hne Hx; [done|apply Hin in Ho'; lia|apply Hin in Ho; lia|by apply (Ha o o')].
Qed.

Lemma offsets_lookup h l : forall i j, (j < length l)%nat -> offsets h i (map Some l) !! j = Some (linp h (i + Z.of_nat j)).
Proof.
  induction l as [|x l IH]; intros i j Hj; cbn [length] in Hj; [lia|]. destruct j as [|j]; cbn.
  - by rewrite Z.add_0_r.
  - rewrite IH by lia. do 2 f_equal. lia.
Qed.

(** The places of the items of a page. *)
Lemma has_places h l : has psize h l -> psize < 2 ^ 16 ->
  (forall i, 0 <= i < zlen l -> linp_at (zlen l) <= linp h i /\ linp h i < 2 ^ 16 /\ linp h i + item_len (entry h i) <= psize) /\
  (forall i j x, 0 <= i < zlen l -> 0 <= j < zlen l -> i <> j -> item_place h i x -> ~ item_place h j x).
Proof.
  intros H Hs. pose proof (has_bounds psize h l H Hs) as Hb. pose proof (has_lower _ _ _ H) as Hlo.
  destruct (has_holds _ _ _ H) as [_ (lay & Ht & Hp) _]. destruct (tiles_apart _ _ _ _ Ht) as [Hn Ha].
  assert (Hl : forall i, 0 <= i < zlen l -> offsets h 0 (map Some l) !! Z.to_nat i = Some (linp h i)).
  { intros i Hi. unfold zlen in Hi. rewrite offsets_lookup by lia. do 2 f_equal. lia. }
  assert (Hin : forall i, 0 <= i < zlen l -> linp h i ∈ lay) by (intros i Hi; rewrite Hp; by eapply list_elem_of_lookup_2, Hl).
  split.
  - intros i Hi. pose proof (tiles_in _ _ _ _ _ Ht (Hin i Hi)) as Hx. pose proof (item_len_size (entry h i)). unfold entry in *.
    unfold linp_at. pose proof (zlen_nonneg (item_text false (items h (linp h i)))). lia.
  - intros i j x Hi Hj Hne Hx Hy. pose proof (item_len_size (entry h i)). pose proof (item_len_size (entry h j)).
    unfold item_place, entry in *. apply (Ha (linp h i) (linp h j) x); auto; [|lia|lia].
    intros E. apply Hne. rewrite Hp in Hn. pose proof (Hl i Hi) as L1. pose proof (Hl j Hj) as L2. rewrite E in L1.
    pose proof (NoDup_lookup _ _ _ _ Hn L1 L2). lia.
Qed.

(** A page with these items, of which the conversion knows the words, or a page of another type. *)
Definition header_fits (h : page) : Prop :=
  fits 32 (pgno h) /\ fits 32 (prevpg h) /\ fits 32 (nextpg h) /\ fits 32 (flags h) /\ fits 16 (lower h) /\ fits 16 (upper h).
Definition is_type (h : page) (ty : Z) : Prop := Z.land (flags h) P_TYPE = ty.
Definition page_ok (h : page) (l : list item) : Prop :=
  header_fits h /\
  ((exists internal : bool, is_type h (if internal then P_BINTERNAL else P_BLEAF) /\ has psize h l /\
      Forall (fun it => of_kind internal it /\ convertible it) l) \/
   (~ is_type h P_BINTERNAL /\ ~ is_type h P_BLEAF /\ l = [])).

(** The bytes show the page, in an order. *)
Definition shows_page (be : bool) (m : mem) (h : page) (l : list item) : Prop :=
  shows m 0 (segs_text be (header_segs h)) /\ forall i, 0 <= i < zlen l -> item_shown h be m i.
Definition page_bytes (h : page) (l : list item) (x : Z) : Prop :=
  0 <= x < BTDATAOFF \/ exists i, 0 <= i < zlen l /\ item_bytes h i x.

Lemma header_bytes h m : shows m 0 (segs_text false (header_segs h)) -> header_fits h -> 20 <= psize ->
  ld32 m 12 = Ret (flags h) /\ ld16 m 16 = Ret (lower h).
Proof.
  intros Hs (_ & _ & _ & Hf & Hl & _) Hp. unfold header_segs in Hs. rewrite !text_cons in Hs. cbn [byte_order] in Hs.
  rewrite !shows_app in Hs. destruct Hs as (_ & _ & _ & S1 & S2 & _). split; [apply ld32_shown|apply ld16_shown]; (done || lia).
Qed.

(** The conversion of the items turns them all. *)
Lemma convert_spec be turn h l m :
  20 <= psize < 2 ^ 16 -> page_ok h l ->
  (forall n internal, (forall i, 0 <= i < n -> linp_at n <= linp h i /\ linp h i < 2 ^ 16 /\ linp h i + item_len (entry h i) <= psize) ->
     (forall i, 0 <= i < n -> of_kind internal (entry h i) /\ convertible (entry h i)) -> turns h n be (turn (swap_item internal))) ->
  shows m 0 (segs_text false (header_segs h)) -> (forall i, 0 <= i < zlen l -> item_shown h be m i) ->
  exists m', convert turn m = Ret m' /\ (forall i, 0 <= i < zlen l -> item_shown h (negb be) m' i) /\
    forall x, (forall i, 0 <= i < zlen l -> ~ item_bytes h i x) -> m' x = m x.
Proof.
  intros Hp [Hw Hk] Ht Hh Hi. destruct (header_bytes h m Hh Hw ltac:(lia)) as [E1 E2]. unfold convert. rewrite E1, E2. cbn [mbind outcome_bind].
  destruct Hk as [(internal & Hty & Hhas & Hf)|(N1 & N2 & ->)].
  - destruct (has_places h l Hhas ltac:(lia)) as [Hpl Hap]. pose proof (has_bounds _ _ _ Hhas ltac:(lia)) as Hb.
    pose proof (has_next _ _ _ Hhas ltac:(lia)) as Hnx. unfold NEXTINDEX in Hnx. rewrite Hnx, u16_id by lia.
    assert (Hkind : forall i, 0 <= i < zlen l -> of_kind internal (entry h i) /\ convertible (entry h i)).
    { intros i Hx. unfold zlen in Hx. destruct (lookup_lt_is_Some_2 l (Z.to_nat i) ltac:(lia)) as [it Hit].
      rewrite (has_entry psize h l i it) by (done || lia). by eapply (Forall_lookup_1 _ _ _ _ Hf). }
    destruct (each_spec h (zlen l) Hpl Hap be (turn (swap_item internal)) (Ht _ _ Hpl Hkind) (Z.to_nat (zlen l)) 0 m) as (m' & E & S & F);
      [lia|lia|exact Hi|lia|].
    exists m'. split; [|done]. rewrite <- E. unfold is_type in Hty. rewrite Hty. by destruct internal.
  - unfold is_type in *. exists m. rewrite (proj2 (Z.eqb_neq _ _) N1), (proj2 (Z.eqb_neq _ _) N2). split; [done|].
    split; [intros i; change (zlen []) with 0; lia|done].
Qed.

Lemma items_not_header h l i x : page_ok h l -> psize < 2 ^ 16 -> 0 <= i < zlen l -> item_bytes h i x -> ~ 0 <= x < BTDATAOFF.
Proof.
  intros [_ [(internal & _ & Hhas & _)|(_ & _ & ->)]] Hp Hi Hx; [|change (zlen []) with 0 in Hi; lia].
  destruct (has_places h l Hhas Hp) as [Hpl _]. pose proof (Hpl i Hi) as Hl. unfold item_bytes, item_place, linp_at, BTDATAOFF in *. lia.
Qed.

Lemma zlen_header be h : zlen (segs_text be (header_segs h)) = BTDATAOFF.
Proof. by rewrite (zlen_text be false). Qed.

Lemma swap_header_spec be h m : 20 <= psize -> shows m 0 (segs_text be (header_segs h)) ->
  exists m', swap_header m = Ret m' /\ shows m' 0 (segs_text (negb be) (header_segs h)) /\ same_outside 0 BTDATAOFF m m'.
Proof.
  intros Hp Hs. rewrite (swap_header_flips h). rewrite <- (zlen_header be h).
  apply flips_spec; [done|lia|]. rewrite zlen_header. unfold BTDATAOFF. lia.
Qed.

Lemma pgout_spec pg h l m : 20 <= psize < 2 ^ 16 -> page_ok h l -> pg <> BtOpen.P_META -> shows_page false m h l ->
  exists m', __bt_pgout true pg m = Ret m' /\ shows_page true m' h l /\ forall x, ~ page_bytes h l x -> m' x = m x.
Proof.
  intros Hp Hok Hpg [Hh Hi]. unfold __bt_pgout. cbn [negb]. rewrite (proj2 (Z.eqb_neq _ _) Hpg).
  destruct (convert_spec false pgout_turn h l m Hp Hok) as (m1 & E1 & S1 & F1); [|done|done|].
  { intros n internal Hpl Hk. by apply pgout_turns. }
  rewrite E1. cbn [mbind outcome_bind].
  assert (Hh1 : shows m1 0 (segs_text false (header_segs h))).
  { eapply shows_ext; [|exact Hh]. intros x Hx. rewrite zlen_header in Hx. apply F1. intros i Hb Hib.
    by apply (items_not_header h l i x Hok ltac:(lia) Hb Hib). }
  destruct (swap_header_spec false h m1 ltac:(lia) Hh1) as (m2 & E2 & S2 & F2). exists m2. split; [done|]. split; [split; [done|]|].
  - intros i Hb. eapply item_shown_other; [by apply S1|]. intros x Hx. apply F2.
    by apply (items_not_header h l i x Hok ltac:(lia) Hb Hx).
  - intros x Hx. unfold page_bytes in Hx. rewrite F2 by tauto. apply F1. intros i Hb Hib. apply Hx. right. by exists i.
Qed.

Lemma pgin_spec pg h l m : 20 <= psize < 2 ^ 16 -> page_ok h l -> pg <> BtOpen.P_META -> shows_page true m h l ->
  exists m', __bt_pgin true pg m = Ret m' /\ shows_page false m' h l /\ forall x, ~ page_bytes h l x -> m' x = m x.
Proof.
  intros Hp Hok Hpg [Hh Hi]. unfold __bt_pgin. cbn [negb]. rewrite (proj2 (Z.eqb_neq _ _) Hpg).
  destruct (swap_header_spec true h m ltac:(lia) Hh) as (m1 & E1 & S1 & F1). rewrite E1. cbn [mbind outcome_bind].
  destruct (convert_spec true pgin_turn h l m1 Hp Hok) as (m2 & E2 & S2 & F2); [|done| |].
  { intros n internal Hpl Hk. by apply pgin_turns. }
  { intros i Hb. eapply item_shown_other; [by apply Hi|]. intros x Hx. apply F1.
    by apply (items_not_header h l i x Hok ltac:(lia) Hb Hx). }
  exists m2. split; [done|]. split; [split; [|done]|].
  - eapply shows_ext; [|exact S1]. intros x Hx. rewrite zlen_header in Hx. apply F2. intros i Hb Hib.
    by apply (items_not_header h l i x Hok ltac:(lia) Hb Hib).
  - intros x Hx. unfold page_bytes in Hx. rewrite F2; [apply F1; tauto|]. intros i Hb Hib. apply Hx. right. by exists i.
Qed.

(** Two memories that show a page in the same order agree on it. *)
Lemma shown_eq be h l m m' x : shows_page be m h l -> shows_page be m' h l -> page_bytes h l x -> m' x = m x.
Proof.
  intros [H1 H2] [H1' H2'] [Hx|(i & Hi & [Hx|Hx])].
  - eapply shows_eq; [exact H1|exact H1'|]. by rewrite zlen_header.
  - destruct (H2 i Hi) as [S _], (H2' i Hi) as [S' _]. apply (shows_eq _ _ _ _ _ S S'). by rewrite zlen_order.
  - destruct (H2 i Hi) as [_ S], (H2' i Hi) as [_ S']. apply (shows_eq _ _ _ _ _ S S').
    unfold item_place, item_len, item_text in *. by rewrite (zlen_text be false).
Qed.

Lemma page_bytes_dec h l x : page_bytes h l x \/ ~ page_bytes h l x.
Proof.
  unfold page_bytes. destruct (decide (0 <= x < BTDATAOFF)) as [|N]; [by left; left|].
  destruct (decide (Exists (fun i => item_bytes h i x) (seqZ 0 (zlen l)))) as [E|E].
  - left. right. apply Exists_exists in E as (i & Hi & Hx). apply elem_of_seqZ in Hi. exists i. split; [lia|done].
  - right. intros [?|(i & Hi & Hx)]; [done|]. apply E, Exists_exists. exists i. split; [apply elem_of_seqZ; lia|done].
Qed.

(** *** The meta page *)

Definition meta_segs (mt : BtOpen.BTMETA) : list segment :=
  map (fun x => (true, le_bytes 4 x))
    [BtOpen.magic mt; BtOpen.version mt; BtOpen.m_psize mt; BtOpen.m_free mt; BtOpen.m_nrecs mt; BtOpen.m_flags mt].

Lemma meta_text mt : segs_text false (meta_segs mt) = BtOpen.meta_bytes mt.
Proof. done. Qed.

Lemma meta_text_swapped mt : segs_text true (meta_segs mt) = BtOpen.meta_bytes (BtOpen.swap_meta mt).
Proof. unfold BtOpen.meta_bytes, BtOpen.swap_meta. cbn [map BtOpen.magic BtOpen.version BtOpen.m_psize BtOpen.m_free BtOpen.m_nrecs BtOpen.m_flags].
  rewrite !BtOpen.swap32_bytes. done. Qed.

(** On the meta page the conversion is that of BtOpen.v, where the page is a list. *)
Lemma mswap_page_meta mt m : 24 <= psize -> shows m 0 (BtOpen.meta_bytes mt) ->
  exists m', __bt_pgout true BtOpen.P_META m = Ret m' /\ __bt_pgin true BtOpen.P_META m = Ret m' /\
    shows m' 0 (BtOpen.meta_bytes (BtOpen.swap_meta mt)) /\ same_outside 0 24 m m'.
Proof.
  intros Hp Hs. rewrite <- meta_text in Hs.
  destruct (flips_spec false (meta_segs mt) 0 m Hs) as (m' & E & S & F); [lia|change (zlen _) with 24; lia|].
  exists m'. assert (E' : mswap_page m = Ret m').
  { rewrite <- E. symmetry. unfold mswap_page, meta_segs. cbn [flips map]. do 5 (apply bind_ext; intros ? _). apply bind_Ret. }
  split_and!; [done|done| |done]. by rewrite <- meta_text_swapped.
Qed.

(** On a machine of the byte order of the file the filters do nothing: they are
    plain filters in the sense of Mpool.v. *)
Lemma bt_pg_native pg m : __bt_pgin false pg m = Ret m /\ __bt_pgout false pg m = Ret m.
Proof. done. Qed.

(** C11: the conversion between byte orders on a page of a btree: a page whose bytes show a header and items
    in the order of the host is written by [__bt_pgout] as the same header and items in the other order, a
    page in the other order is read by [__bt_pgin] as the same page in the order of the host, both stay
    inside the page, and [__bt_pgin] gives back the very bytes that [__bt_pgout] was given. *)
Theorem bt_pgconv pg h l m :
  20 <= psize < 2 ^ 16 -> page_ok h l -> pg <> BtOpen.P_META ->
  (shows_page false m h l -> exists m1 m2, __bt_pgout true pg m = Ret m1 /\ shows_page true m1 h l /\
     __bt_pgin true pg m1 = Ret m2 /\ forall x, m2 x = m x) /\
  (shows_page true m h l -> exists m1, __bt_pgin true pg m = Ret m1 /\ shows_page false m1 h l).
Proof.
  intros Hp Hok Hpg. split; intros Hs.
  - destruct (pgout_spec pg h l m Hp Hok Hpg Hs) as (m1 & E1 & S1 & F1).
    destruct (pgin_spec pg h l m1 Hp Hok Hpg S1) as (m2 & E2 & S2 & F2). exists m1, m2. split_and!; [done..|].
    intros x. destruct (page_bytes_dec h l x) as [Hx|Hx]; [by eapply shown_eq|]. by rewrite F2, F1.
  - destruct (pgin_spec pg h l m Hp Hok Hpg Hs) as (m1 & E1 & S1 & _). by exists m1.
Qed.

End Conv.

(** ** Witnesses *)

(** A leaf page of 64 bytes with the record of one byte each. *)
Definition leaf64 : page :=
  {| pgno := 2; prevpg := 0; nextpg := 3; flags := P_BLEAF; lower := 22; upper := 52;
     linp := fun _ => 52; items := fun _ => BLEAF 0 [7] [8]; bytes := [] |}.
Definition mem64 : Z -> Z :=
  rd ([2; 0; 0; 0; 0; 0; 0; 0; 3; 0; 0; 0; 2; 0; 0; 0; 22; 0; 52; 0; 52; 0] ++ replicate 30 0 ++ [1; 0; 0; 0; 1; 0; 0; 0; 0; 7; 8; 0]).

Lemma leaf64_has : has 64 leaf64 [BLEAF 0 [7] [8]].
Proof.
  constructor; [|done|cbn; lia]. constructor; [by split|exists [52]|cbn; lia]. by split.
Qed.

Lemma leaf64_ok : page_ok 64 leaf64 [BLEAF 0 [7] [8]].
Proof.
  split; [repeat split; by vm_compute|]. left. exists false. split; [done|]. split; [apply leaf64_has|].
  constructor; [|constructor]. split; [done|]. by split.
Qed.

Lemma leaf64_shown : shows_page false mem64 leaf64 [BLEAF 0 [7] [8]].
Proof.
  assert (H : forall o l, forallb (fun j => bool_decide (mem64 (o + Z.of_nat j) = nth j l 0)) (seq 0 (length l)) = true -> shows mem64 o l).
  { intros o l H j x Hj. rewrite forallb_forall in H. specialize (H j).
    rewrite <- (nth_lookup_Some l j 0 x Hj). apply (bool_decide_eq_true_1 (mem64 (o + Z.of_nat j) = nth j l 0)), H, in_seq. apply lookup_lt_Some in Hj. lia. }
  split; [by apply H|]. intros i Hi. change (zlen _) with 1 in Hi. replace i with 0 by lia. by split; apply H.
Qed.

Lemma bt_pgconv_witness :
  let l := [BLEAF 0 [7] [8]] in
  (shows_page false mem64 leaf64 l -> exists m1 m2, __bt_pgout 64 true 2 mem64 = Ret m1 /\ shows_page true m1 leaf64 l /\
     __bt_pgin 64 true 2 m1 = Ret m2 /\ forall x, m2 x = mem64 x) /\
  (shows_page true mem64 leaf64 l -> exists m1, __bt_pgin 64 true 2 mem64 = Ret m1 /\ shows_page false m1 leaf64 l) /\
  shows_page false mem64 leaf64 l.
Proof.
  destruct (bt_pgconv 64 2 leaf64 [BLEAF 0 [7] [8]] mem64) as [H1 H2]; [lia|apply leaf64_ok|done|].
  split; [exact H1|]. split; [exact H2|apply leaf64_shown].
Defined.

(** The reference of overflow data behind a key of one byte is not converted: its first byte is not swapped. *)
Lemma bigdata_misplaced :
  let it := BLEAF P_BIGDATA [7] [5; 0; 0; 0; 9; 0; 0; 0] in
  exists m m', shows m 0 (item_text false it) /\ swap_leaf 64 0 m = Ret m' /\ ~ shows m' 0 (item_text true it).
Proof.
  exists (rd [1; 0; 0; 0; 8; 0; 0; 0; 1; 7; 5; 0; 0; 0; 9; 0; 0; 0]). eexists. split; [|split; [reflexivity|]].
  - intros j x Hj. do 18 (destruct j as [|j]; [by injection Hj as <-|]). done.
  - intros H. specialize (H 10%nat 0 eq_refl). discriminate H.
Qed.

End BtConv.
