(* ===== verification/BtSamdb.v ===== *)
(** samdb.c on the btree of db.1.85: the structure of functions that dbopen makes, which gives what
    the interface of Samdb.v promises, and what the functions of samdb.c do on it. *)

From S2P Require Import Prelude Strings Samdb BtPage BtUtils BtTree BtSearch BtDelete BtPut BtLevels BtSplit BtRemove BtInsert BtSeq BtCursor BtOpen.
From stdpp Require Import gmap sorting.
Import Strings BtPage BtTree BtSearch BtDelete BtPut BtLevels BtSplit BtRemove BtInsert BtSeq BtOpen.
#[local] Open Scope Z_scope.

Module BtSamdb.

(** ** The functions of an open btree *)

(** A DB: the btree, what else belongs to it, its file, and what it holds. *)
Record open_tree := { tree_of : btree; handle_in : handle; file_of : file; resources : list resource }.

Definition set_tree (o : open_tree) (t : btree) : open_tree :=
  {| tree_of := t; handle_in := handle_in o; file_of := file_of o; resources := resources o |}.

(** After __dbpanic all functions but [close] are __dberr. *)
Definition unless_panic {A} (o : open_tree) (failed : A) (f : btree -> outcome (A * btree)) : outcome (A * open_tree) :=
  if panicked (tree_of o) then Ret (failed, o) else '(a, t) ← f (tree_of o); Ret (a, set_tree o t).

Section db.
Context (x : unspecified) (closes : bool).

(** A close that fails before the memory is freed leaves the database open. *)
Definition close_tree (o : open_tree) : outcome (Z * option open_tree) :=
  let '(_, t, _) := __bt_sync x (tree_of o) (bt_nrecs (handle_in o)) (file_of o) 0 in
  let '(status, f, r) := __bt_close x closes (tree_of o) (handle_in o) (file_of o) (resources o) in
  Ret (status, match r with
               | [] => None
               | _ => Some {| tree_of := t; handle_in := handle_in o; file_of := f; resources := r |}
               end).

Definition del_tree (o : open_tree) (key : list Z) (flags : Z) : outcome (Z * open_tree) :=
  unless_panic o RET_ERROR (fun t => __bt_delete 52 t key flags).

Definition get_tree (o : open_tree) (key : list Z) (want : bool) (flags : Z) : outcome (Z * option (list Z) * open_tree) :=
  unless_panic o (RET_ERROR, None) (fun t => bt_get_data t key want flags).

Definition put_tree (o : open_tree) (key data : list Z) (flags : Z) : outcome (Z * open_tree) :=
  unless_panic o RET_ERROR (fun t => __bt_put t key data flags).

Definition seq_tree (o : open_tree) (key : list Z) (flags : Z) : outcome (Z * option (list Z) * option (list Z) * open_tree) :=
  unless_panic o (RET_ERROR, None, None) (fun t => __bt_seq 52 t key flags).

(** The structure as bt_open.c fills it in. *)
Definition bt_db : Samdb.DB open_tree :=
  {| Samdb.close := close_tree; Samdb.del := del_tree; Samdb.get := get_tree; Samdb.put := put_tree; Samdb.seq := seq_tree |}.
End db.

(** dbopen as db_open calls it; [p] is the pointer of the memory that it gets. *)
Definition open_btree (np : page) (e : Z) (f : file) (s : system) (p : Z) (dbname : list Z) (flags : Z) :
    outcome (Z + Z * open_tree) :=
  r ← dbopen np e f s true flags DB_BTREE None;
  Ret match db r with
      | None => inl (o_errno r)
      | Some (t, hd) => inr (p, {| tree_of := t; handle_in := hd; file_of := f; resources := held r |})
      end.

(** ** The interface *)

(** A tree of up to 51 levels. *)
Record good (t : btree) (L : level) (up : list level) (free : list Z) : Prop := {
  gd_tree : tree t L up free;
  gd_writable : writable t;
  gd_panicked : panicked t = false;
  gd_height : (length up <= 50)%nat;
}.

Definition repr (o : open_tree) (l : Samdb.records) : Prop := exists L up free, good (tree_of o) L up free /\ contents L = l.

Definition room (o : open_tree) (l : Samdb.records) (k d : list Z) : Prop := exists L up free,
  good (tree_of o) L up free /\ contents L = l /\ order_ok (tree_of o) L /\ (length up < 50)%nat /\ fits_page (tree_of o) k d /\
  npages (bt_mp (tree_of o)) + zlen up + 2 < MAX_PAGE_NUMBER.

(** The cursor is on a record. *)
Definition at_record (o : open_tree) (l : Samdb.records) (i : nat) : Prop := exists L up free,
  good (tree_of o) L up free /\ contents L = l /\ cursor_at (tree_of o) L (At i).

Lemma good_stack t L up free s : good t L up free -> good (set_stack t s) L up free.
Proof. intros [H1 H2 H3 H4]. split; [by apply tree_stack|done..]. Qed.

Lemma unless_panic_good {A} o L up free (failed a : A) f t' :
  good (tree_of o) L up free -> f (tree_of o) = Ret (a, t') -> unless_panic o failed f = Ret (a, set_tree o t').
Proof. intros H E. unfold unless_panic. rewrite (gd_panicked _ _ _ _ H), E. done. Qed.

Lemma room_key t k d : standard t -> fits_page t k d -> small_key k /\ zlen d < 2 ^ 31.
Proof.
  intros Hst [_ Hs]. split; [by apply (item_small_key t (BLEAF 0 k d))|]. pose proof (st_size _ Hst).
  unfold small, NBLEAFDBT, BTDATAOFF in Hs. pose proof (LALIGN_bounds (4 + 4 + 1 + zlen k + zlen d)). pose proof (zlen_nonneg k). lia.
Qed.

(** A put that went in. *)
Lemma put_repr o up rs k d flags :
  put_into (tree_of o) up rs (__bt_put (tree_of o) k d flags) -> panicked (tree_of o) = false -> (length up < 50)%nat ->
  exists o', put_tree o k d flags = Ret (RET_SUCCESS, o') /\ repr o' rs.
Proof.
  intros (t' & L' & up' & free' & E & Ht & _ & Hw & [_ Hp] & Hc & _ & Hu) Hpan Hup. exists (set_tree o t').
  unfold put_tree, unless_panic. rewrite Hpan, E. split; [done|]. exists L', up', free'. split; [|done].
  split; [done|done|cbn; by rewrite Hp|unfold zlen in Hu; lia].
Qed.

Lemma put_law o l k d : room o l k d ->
  (exists o', put_tree o k d 0 = Ret (0, o') /\ repr o' (Samdb.kv_insert k d l)) /\
  (exists o', put_tree o k d R_NOOVERWRITE = Ret (1 - Samdb.found (Samdb.kv_get k l), o') /\ repr o' (Samdb.kv_add k d l)).
Proof.
  intros (L & up & free & G & <- & Hok & Hup & [Ho Hsm] & Hmax). pose proof G as [Ht Hw Hp _].
  pose proof (put_item_spec _ L up free Ht Hok Hw ltac:(lia) k d Hsm Hmax) as [H1 H2].
  assert (E : forall flags, flags = 0 \/ flags = R_NOOVERWRITE -> __bt_put (tree_of o) k d flags = put_item (tree_of o) flags (BLEAF 0 k d) k d).
  { intros flags Hf. unfold __bt_put, store_item. unfold writable in Hw. rewrite Hw, (proj2 (Z.ltb_ge _ _) Ho).
    by destruct Hf as [-> | ->]. }
  split; [apply (put_repr _ up); by rewrite ?E by auto|]. unfold Samdb.kv_add. destruct (Samdb.kv_get k (contents L)) as [d0|].
  - destruct H2 as (t' & E2 & Ht' & Hu). exists (set_tree o t'). unfold put_tree, unless_panic. rewrite Hp, E by auto. rewrite E2.
    split; [done|]. exists L, up, free. split; [|done]. destruct Hu as [U1 U2 U3 U4 _ U6].
    split; [done|unfold writable; cbn; by rewrite U4|cbn; by rewrite U6|lia].
  - apply (put_repr _ up); by rewrite ?E by auto.
Qed.

Lemma get_law o l k (want : bool) : repr o l -> small_key k ->
  exists o', get_tree o k want 0 = Ret (Samdb.found (Samdb.kv_get k l), if want then Samdb.kv_get k l else None, o') /\ repr o' l.
Proof.
  intros (L & up & free & G & <-) Hk. destruct (get_data_spec _ L up free k want (gd_tree _ _ _ _ G) Hk (gd_height _ _ _ _ G)) as [s E].
  exists (set_tree o (set_stack (tree_of o) s)). split; [|exists L, up, free; split; [by apply good_stack|done]].
  unfold get_tree. apply (unless_panic_good _ L up free); [done|]. rewrite E. by destruct (Samdb.kv_get k (contents L)), want.
Qed.

Lemma del_law o l k : repr o l -> small_key k ->
  exists o', del_tree o k 0 = Ret (Samdb.found (Samdb.kv_get k l), o') /\ repr o' (Samdb.kv_delete k l).
Proof.
  intros (L & up & free & G & <-) Hk. pose proof G as [Ht Hw Hp Hup].
  pose proof (delete_spec _ L up free k 52 Ht Hw Hk Hup ltac:(lia)) as H. destruct (Samdb.kv_get k (contents L)) as [d|] eqn:Ek.
  - destruct H as (t' & L' & up' & free' & E & Ht' & Hw' & [_ Hp'] & Hc & _ & Hu). exists (set_tree o t').
    split; [by apply (unless_panic_good _ L up free)|]. exists L', up', free'. split; [|done]. split; [done|done|cbn; by rewrite Hp'|cbn; lia].
  - destruct H as [s E]. exists (set_tree o (set_stack (tree_of o) s)). split; [by apply (unless_panic_good _ L up free)|].
    rewrite Samdb.kv_delete_absent by done. exists L, up, free. split; [by apply good_stack|done].
Qed.

(** A place that is reached, and its record. *)
Lemma seq_reaches o L up free (i : nat) key flags run :
  good (tree_of o) L up free -> reaches (tree_of o) L run (record_at (contents L) i) ->
  __bt_seq 52 (tree_of o) key flags = ('(status, e, t) ← run;
     if status =? RET_SUCCESS then
       match e with
       | None => Fault
       | Some (pg, index) => h ← page_at t pg; __bt_ret (__bt_setcur t (pgno h) index) pg index true true false
       end
     else Ret (status, None, None, t)) ->
  exists o', seq_tree o key flags
      = Ret (Samdb.found (contents L !! i), fst <$> contents L !! i, snd <$> contents L !! i, o') /\
    repr o' (contents L) /\ (is_Some (contents L !! i) -> at_record o' (contents L) i).
Proof.
  intros G [s Hr] E. destruct (contents L !! i) as [r0|] eqn:Ei.
  - rewrite (record_at_in _ _ _ Ei) in Hr. destruct Hr as (pg & index & -> & Hpl). cbn [mbind outcome_bind] in E.
    change (RET_SUCCESS =? RET_SUCCESS) with true in E. cbv iota in E.
    destruct (found_spec _ L up free (tree_stack _ L up free (gd_tree _ _ _ _ G) s) i pg index Hpl) as (r & t' & E' & Hr & Ht' & Hc' & Hk').
    rewrite E' in E. assert (r0 = r) as -> by congruence. exists (set_tree o t').
    split; [unfold seq_tree; by rewrite (unless_panic_good _ L up free _ _ _ _ G E)|].
    assert (G' : good t' L up free).
    { destruct G as [_ Hw Hp Hl]. split; [done| | |done]; [unfold writable; by rewrite (kp_flags _ _ Hk')|by rewrite (kp_panicked _ _ Hk')]. }
    split; [by exists L, up, free|]. intros _. by exists L, up, free.
  - rewrite record_at_end in Hr by by apply lookup_ge_None_1. rewrite Hr in E. cbn in E. exists (set_tree o (set_stack (tree_of o) s)).
    split; [unfold seq_tree; by rewrite (unless_panic_good _ L up free _ _ _ _ G E)|].
    split; [exists L, up, free; split; [by apply good_stack|done]|]. by intros [? ?].
Qed.

Lemma first_law o l key : repr o l ->
  exists o', seq_tree o key Samdb.R_FIRST = Ret (Samdb.found (head l), fst <$> head l, snd <$> head l, o') /\ repr o' l /\
    (l <> [] -> at_record o' l 0%nat).
Proof.
  intros (L & up & free & G & <-).
  destruct (seq_reaches o L up free 0 key R_FIRST _ G (edge_root _ L up free (gd_tree _ _ _ _ G) false 52 ltac:(pose proof (gd_height _ _ _ _ G); lia)) eq_refl)
    as (o' & E & Hr & Ha).
  replace (contents L !! 0%nat) with (head (contents L)) in E, Ha by by destruct (contents L). exists o'. split; [exact E|]. split; [done|].
  intros Hne. apply Ha. by destruct (contents L).
Qed.

Lemma next_law o l i key : at_record o l i ->
  exists o', seq_tree o key Samdb.R_NEXT = Ret (Samdb.found (l !! S i), fst <$> l !! S i, snd <$> l !! S i, o') /\ repr o' l /\
    (is_Some (l !! S i) -> at_record o' l (S i)).
Proof.
  intros (L & up & free & G & <- & Hc). apply (seq_reaches o L up free (S i) key R_NEXT _ G (next_spec _ L up free (gd_tree _ _ _ _ G) i Hc 52)).
  unfold __bt_seq. cbn [existsb]. change (R_NEXT =? R_NEXT) with true. cbn [orb negb andb].
  pose proof Hc as [Hi _]. by rewrite Hi.
Qed.

Lemma contents_small t L up free : tree t L up free -> Forall (fun r => zlen (snd r) < 2 ^ 31) (contents L).
Proof.
  intros Ht. pose proof (st_size _ (tr_standard _ _ _ _ Ht)) as Hps. apply List.Forall_map, Forall_forall. intros it Hit.
  unfold items_of in Hit. apply list_elem_of_In, in_concat in Hit as (its & Hits & Hit). apply list_elem_of_In in Hit.
  apply in_map_iff in Hits as (n & <- & Hn). apply list_elem_of_In, list_elem_of_split in Hn as (L1 & L2 & EL).
  pose proof (proj1 (tr_levels _ _ _ _ Ht)) as Hl. rewrite EL in Hl. destruct (level_node _ _ _ _ _ Hl) as [h Hh].
  pose proof (ni_small _ _ _ _ _ _ Hh) as Hs. pose proof (ni_items _ _ _ _ _ _ Hh) as Hk. rewrite Forall_forall in Hs, Hk.
  specialize (Hs it Hit). specialize (Hk it Hit). destruct it as [p f k|f k d|]; [by destruct Hk| |done]. cbn [record_of idata snd].
  cbn [size] in Hs. unfold small, NBLEAFDBT, BTDATAOFF in Hs. pose proof (LALIGN_bounds (4 + 4 + 1 + zlen k + zlen d)).
  pose proof (zlen_nonneg k). lia.
Qed.

(** The btree is what samdb.c relies on. *)
#[export] Instance bt_btree x closes : Samdb.Btree (bt_db x closes) repr small_key room at_record.
Proof.
  split.
  - exact put_law.
  - exact get_law.
  - exact del_law.
  - exact first_law.
  - exact next_law.
  - intros o l k d (L & up & free & G & <- & _ & _ & Hf & _). split; [by exists L, up, free|].
    by apply (room_key _ k d (tr_standard _ _ _ _ (gd_tree _ _ _ _ G))).
  - done.
  - intros o l (L & up & free & G & <-). apply (contents_small _ L up free (gd_tree _ _ _ _ G)).
Qed.

Lemma open_access flags : Z.land flags O_ACCMODE = O_RDWR -> Z.land (Z.land flags USE_OPEN_FLAGS) O_ACCMODE = O_RDWR.
Proof.
  intros H. rewrite <- Z.land_assoc. change (Z.land USE_OPEN_FLAGS O_ACCMODE) with (Z.land O_ACCMODE O_RDWR).
  by rewrite Z.land_assoc, H.
Qed.

(** A new file holds nothing, and has room. *)
Lemma open_new_room np e f s fd blksize p name flags k d :
  works s fd blksize -> Z.land flags (Z.lnot (Z.lor USE_OPEN_FLAGS DB_LOCK)) = 0 -> Z.land flags O_ACCMODE = O_RDWR ->
  f_size f = 0 -> f_pages f = ∅ -> f_npages f = 0 -> blksize < 2 ^ 16 ->
  exists o, open_btree np e f s p name flags = Ret (inr (p, o)) /\ repr o [] /\ (fits_page (tree_of o) k d -> room o [] k d).
Proof.
  intros W Hfl Hacc Hs Hp Hn Hb. unfold open_btree, dbopen. rewrite Hfl. change ((0 =? 0) && (DB_BTREE =? DB_BTREE)) with true. cbv iota.
  assert (Hc : choose_psize (b_psize default_info) blksize < 2 ^ 16).
  { unfold choose_psize, MINPSIZE, MAX_PAGE_OFFSET. cbn. destruct (blksize <? 512) eqn:E1; destruct (65535 + 1 <? _) eqn:E2; lia. }
  destruct (open_new np e f s fd blksize true _ None default_info (Z.land flags DB_LOCK) W eq_refl eq_refl eq_refl eq_refl
    (open_access flags Hacc) Hs Hp Hn Hc) as (t & hd & E & Ht & [Hpan Hnp] & Hw & Ho & _).
  rewrite E. cbn [mbind outcome_bind db]. set (o := {| tree_of := t; handle_in := hd; file_of := f; resources := all_held |}).
  assert (G : good (tree_of o) [(P_ROOT, [])] [] []) by (split; [done|done|done|cbn; lia]).
  exists o. split; [done|]. split; [by exists [(P_ROOT, [])], [], []|]. intros Hf. exists [(P_ROOT, [])], [], [].
  split; [done|]. split; [done|]. split; [unfold order_ok; cbn; by rewrite Ho|]. split; [cbn; lia|]. split; [done|].
  cbn. rewrite Hnp. done.
Qed.

(** db_open of a new file as the global database. *)
Lemma db_open_new np e f s fd blksize p name flags (st : Samdb.store (T := open_tree)) k d :
  works s fd blksize -> Z.land (s32 flags) (Z.lnot (Z.lor USE_OPEN_FLAGS DB_LOCK)) = 0 -> Z.land (s32 flags) O_ACCMODE = O_RDWR ->
  f_size f = 0 -> f_pages f = ∅ -> f_npages f = 0 -> blksize < 2 ^ 16 -> p <> 0 -> Samdb.global_db st = 0 ->
  exists o st', Samdb.db_open (open_btree np e f s p) st name flags false = Ret (0, None, st') /\
    Samdb.dbs st' = <[p := o]> (Samdb.dbs st) /\ Samdb.holds (repr := repr) st' 0 [] /\
    (fits_page (tree_of o) k d -> Samdb.has_room (room := room) st' 0 [] k d).
Proof.
  intros W Hfl Hacc Hs Hp Hn Hb Hp0 Hg.
  destruct (open_new_room np e f s fd blksize p name (s32 flags) k d W Hfl Hacc Hs Hp Hn Hb) as (o & E & Hr & Hroom).
  exists o. eexists. split; [unfold Samdb.db_open; rewrite Hg, E; reflexivity|]. split; [done|].
  assert (H0 : Samdb.GET_DB (Samdb.set_global (Samdb.set_db st p o) p) 0 <> 0) by done.
  split; [split; [done|]|intros Hf; split; [done|]]; exists o; (split; [apply lookup_insert_eq|auto]).
Qed.

(** The records are in the order of their keys. *)
Lemma repr_sorted o l : repr o l -> StronglySorted klt (map fst l).
Proof.
  intros (L & up & free & [Ht _ _ _] & <-). unfold contents. rewrite map_map.
  apply (BtCursor.leaves_sorted L (lower_bounds up)); [apply (tr_sorted _ _ _ _ Ht)|apply (tr_keys _ _ _ _ Ht)].
Qed.

(** ** Properties *)

#[local] Abbreviation DBs := (Samdb.store (T := open_tree)).

(** C19: What db_put_str stores in a btree of db.1.85 is what db_get_str reads: the put works
    and adds the record; db_get_str gives the prefix of the string that fits in its buffer, always
    terminated, with the length of the string as its result, or the size of the buffer if the string was
    cut, and db_peek gives 0.  del_tree then works and the key is gone: reading gives -1, db_peek and
    another del_tree give 1.  Every other key, stored or not, reads the same bytes with the same result before,
    between and after, also in a buffer that is too small.  No call changes another database or the global handle.
    A record has to fit into a page, as in C2, and the tree must have room for it. *)
Theorem db_str_roundtrip x closes (st : DBs) (dbh : Z) (l : Samdb.records) (k s val : list Z) (len : Z) :
  let acc := bt_db x closes in
  let gives A := Samdb.gives (repr := repr) (A := A) in
  Samdb.has_room (room := room) st dbh l (k ++ [0]) (s ++ [0]) -> Forall (fun c => c <> 0) s -> 0 < len <= zlen val -> len < 2 ^ 31 ->
  exists t1 t2, let st1 := Samdb.set_db st (Samdb.GET_DB st dbh) t1 in let st2 := Samdb.set_db st (Samdb.GET_DB st dbh) t2 in
    let l1 := Samdb.kv_insert (k ++ [0]) (s ++ [0]) l in let l2 := Samdb.kv_delete (k ++ [0]) l in
    Samdb.db_put_str acc st dbh k (Some s) = Ret (0, st1) /\ repr t1 l1 /\
    gives _ (Samdb.db_get_str acc st1 dbh k val len) (Z.min len (zlen s), splice val 0 (fit s len ++ [0])) st1 dbh l1 /\
    gives _ (Samdb.db_peek acc st1 dbh k) 0 st1 dbh l1 /\
    Samdb.db_del acc st1 dbh k = Ret (0, st2) /\ repr t2 l2 /\
    gives _ (Samdb.db_get_str acc st2 dbh k val len) (-1, val) st2 dbh l2 /\
    gives _ (Samdb.db_peek acc st2 dbh k) 1 st2 dbh l2 /\ gives _ (Samdb.db_del acc st2 dbh k) 1 st2 dbh l2 /\
    forall q, q <> k ++ [0] -> small_key q -> exists r,
      gives _ (Samdb.db_get_raw acc st dbh q (zlen q) val len) r st dbh l /\
      gives _ (Samdb.db_get_raw acc st1 dbh q (zlen q) val len) r st1 dbh l1 /\
      gives _ (Samdb.db_get_raw acc st2 dbh q (zlen q) val len) r st2 dbh l2.
Proof.
  intros acc gives Hroom Hs Hl Hl'. pose proof (bt_btree x closes) as HB. destruct (Samdb.room_holds st dbh l _ _ Hroom) as [H0 Hk].
  pose proof (proj1 H0) as Hdb. set (db := Samdb.GET_DB st dbh) in *.
  assert (Hold : forall t l, repr t l -> Samdb.holds (repr := repr) (Samdb.set_db st db t) dbh l).
  { intros t l' Ht. split; [done|]. exists t. split; [apply lookup_insert_eq|done]. }
  destruct (Samdb.put_str_spec (acc := acc) st dbh l k s Hroom) as (t1 & E1 & H1). pose proof (Hold _ _ H1) as O1.
  destruct (Samdb.del_spec (acc := acc) _ dbh _ k O1 Hk) as (t2 & E2 & H2). rewrite Samdb.kv_delete_insert in H2. pose proof (Hold _ _ H2) as O2.
  assert (Eset : Samdb.set_db (Samdb.set_db st db t1) db t2 = Samdb.set_db st db t2).
  { unfold Samdb.set_db. cbn. by rewrite insert_insert_eq. }
  change (Samdb.GET_DB (Samdb.set_db st db t1) dbh) with db in E2. rewrite Eset in E2.
  assert (K1 : Samdb.kv_get (k ++ [0]) (Samdb.kv_insert (k ++ [0]) (s ++ [0]) l) = Some (s ++ [0])) by (rewrite Samdb.kv_get_insert; by rewrite decide_True).
  assert (K2 : Samdb.kv_get (k ++ [0]) (Samdb.kv_delete (k ++ [0]) l) = None) by (rewrite Samdb.kv_get_delete; by rewrite decide_True).
  exists t1, t2. cbv zeta. fold db. split; [exact E1|]. split; [done|].
  split; [apply (Samdb.get_str_spec _ dbh _ k val len (Some s)); done|].
  split; [pose proof (Samdb.peek_spec (acc := acc) _ dbh _ k O1 Hk) as P; by rewrite K1 in P|].
  split; [rewrite K1 in E2; exact E2|]. split; [done|].
  split; [apply (Samdb.get_str_spec _ dbh _ k val len None); done|].
  split; [pose proof (Samdb.peek_spec (acc := acc) _ dbh _ k O2 Hk) as P; by rewrite K2 in P|].
  split; [pose proof (Samdb.del_spec (acc := acc) _ dbh _ k O2 Hk) as P; rewrite K2, (Samdb.kv_delete_absent _ _ K2) in P; exact P|].
  intros q Hq Hqk. exists (Samdb.read_into (Samdb.kv_get q l) val len). split; [by apply Samdb.get_raw_spec; [..|lia|done]|].
  split.
  - replace (Samdb.kv_get q l) with (Samdb.kv_get q (Samdb.kv_insert (k ++ [0]) (s ++ [0]) l)) by (rewrite Samdb.kv_get_insert; by rewrite decide_False).
    by apply Samdb.get_raw_spec; [..|lia|done].
  - replace (Samdb.kv_get q l) with (Samdb.kv_get q (Samdb.kv_delete (k ++ [0]) l)) by (rewrite Samdb.kv_get_delete; by rewrite decide_False).
    by apply Samdb.get_raw_spec; [..|lia|done].
Qed.

(** An open btree with two records in one leaf, as the global database. *)
Definition two_open : open_tree :=
  {| tree_of := one_leaf 512 two_records; handle_in := {| bt_fd := 3; bt_lorder := LITTLE_ENDIAN; bt_nrecs := 0; ncache := 5 |};
     file_of := empty_file; resources := all_held |}.
Definition two_global : DBs := {| Samdb.dbs := {[ 1 := two_open ]}; Samdb.global_db := 1; Samdb.registered := 1 |}.

Lemma two_good : good (tree_of two_open) [(P_ROOT, two_records)] [] [].
Proof. split; [exact two_records_tree|done|done|cbn; lia]. Qed.

Lemma two_holds : Samdb.holds (repr := repr) two_global 0 [([1], [10]); ([3], [30])].
Proof. split; [done|]. exists two_open. split; [apply lookup_singleton_eq|]. exists [(P_ROOT, two_records)], [], []. split; [exact two_good|done]. Qed.

Lemma db_str_roundtrip_witness :
  exists t1 t2, let st1 := Samdb.set_db two_global 1 t1 in let st2 := Samdb.set_db two_global 1 t2 in
    Samdb.db_put_str (bt_db nothing true) two_global 0 [97] (Some [104; 105]) = Ret (0, st1) /\
    Samdb.gives (repr := repr) (Samdb.db_get_str (bt_db nothing true) st1 0 [97] (replicate 4 255) 2) (2, [104; 0; 255; 255]) st1 0
      [([1], [10]); ([3], [30]); ([97; 0], [104; 105; 0])] /\
    Samdb.db_del (bt_db nothing true) st1 0 [97] = Ret (0, st2) /\
    Samdb.gives (repr := repr) (Samdb.db_peek (bt_db nothing true) st2 0 [97]) 1 st2 0 [([1], [10]); ([3], [30])].
Proof.
  assert (Hroom : Samdb.has_room (room := room) two_global 0 [([1], [10]); ([3], [30])] ([97] ++ [0]) ([104; 105] ++ [0])).
  { split; [done|]. exists two_open. split; [apply lookup_singleton_eq|]. exists [(P_ROOT, two_records)], [], [].
    split; [exact two_good|]. split; [done|]. split; [done|]. split; [cbn; lia|]. split; [split; by vm_compute|by vm_compute]. }
  destruct (db_str_roundtrip nothing true two_global 0 _ [97] [104; 105] (replicate 4 255) 2 Hroom
    ltac:(by repeat constructor) ltac:(by vm_compute) ltac:(lia)) as (t1 & t2 & E1 & _ & G1 & _ & E2 & _ & _ & G2 & _).
  exists t1, t2. split; [exact E1|]. split; [exact G1|]. split; [exact E2|exact G2].
Defined.

(** C34: db_walk of a btree of db.1.85 calls its function for the records, with the sizes of their data,
    in the order of their keys, each once, until it gives something else than 0, which is then the result;
    it ends, and the records stay.  A NULL function gives -EINVAL and changes nothing. *)
Theorem db_walk_correct {A} x closes (st : DBs) (dbh : Z) (l : Samdb.records) (walk_func : Samdb.walker A) (a : A) (fuel : nat) :
  let acc := bt_db x closes in
  Samdb.holds (repr := repr) st dbh l -> (length l < fuel)%nat ->
  StronglySorted (fun k k' => Samdb.bytes_lt k k' = true) (map fst l) /\
  Samdb.gives (repr := repr) (Samdb.db_walk acc fuel st dbh (Some walk_func) a) (Some (Samdb.walk_records walk_func l a)) st dbh l /\
  Samdb.db_walk acc fuel st dbh None a = Ret (Some (- EINVAL, a), st).
Proof.
  intros acc H Hf. pose proof (bt_btree x closes) as HB. split; [|split].
  - destruct H as (_ & t & _ & Hr). exact (repr_sorted t l Hr).
  - by apply Samdb.walk_spec.
  - unfold Samdb.db_walk. by destruct (_ =? 0).
Qed.

Lemma db_walk_correct_witness :
  Samdb.gives (repr := repr) (Samdb.db_walk (bt_db nothing true) 3 two_global 0
    (Some (fun (a : list Z) k (d : list Z) n => (if decide (k = [1]) then 0 else 7, a ++ d ++ [n]))) [])
    (Some (7, [10; 1; 30; 1])) two_global 0 [([1], [10]); ([3], [30])].
Proof.
  exact (proj1 (proj2 (db_walk_correct nothing true two_global 0 _
    (fun (a : list Z) k (d : list Z) n => (if decide (k = [1]) then 0 else 7, a ++ d ++ [n])) [] 3 two_holds ltac:(cbn; lia)))).
Defined.
End BtSamdb.
