(* ===== verification/Fnmatch.v ===== *)
(** Shell patterns on Windows (win32/fnmatch.c, the fnmatch of glibc 2.17 with changes): the
    matcher, bracket expressions, and the extended patterns of ksh.

    A pattern is a list of bytes with its NUL: what is read behind it is [Fault].  A string is
    the list of its bytes up to [string_end], which is where the code tests for it.  A loop whose
    fuel is used up is [Spent], a result of its own, which is shown never to happen. *)

From S2P Require Import Prelude.
#[local] Open Scope Z_scope.

Module Fnmatch.

(** ** Results *)

(** How a call ends: with a value, in a read outside the pattern, or not at all with the fuel
    that its loops were given. *)
Inductive outcome (A : Type) :=
  | Ret (a : A)
  | Fault
  | Spent.
Arguments Ret {A} a.
Arguments Fault {A}.
Arguments Spent {A}.

#[export] Instance outcome_ret : MRet outcome := @Ret.
#[export] Instance outcome_bind : MBind outcome := fun A B f m =>
  match m with Ret a => f a | Fault => Fault | Spent => Spent end.

(** ** Flags and characters *)

Definition FNM_FILE_NAME : Z := 0x1.
Definition FNM_NOESCAPE : Z := 0x2.
Definition FNM_PERIOD : Z := 0x4.
Definition FNM_LEADING_DIR : Z := 0x8.
Definition FNM_CASEFOLD : Z := 0x10.
Definition FNM_EXTMATCH : Z := 0x20.
Definition FNM_NOMATCH : Z := 1.
Definition CHAR_CLASS_MAX_LENGTH : Z := 6.

Definition flagged (flags f : Z) : bool := negb (Z.land flags f =? 0).
Definition without (flags f : Z) : Z := Z.land flags (Z.lnot f).
Definition NO_LEADING_PERIOD (flags : Z) : bool :=
  Z.land flags (Z.lor FNM_FILE_NAME FNM_PERIOD) =? Z.lor FNM_FILE_NAME FNM_PERIOD.

Definition BANG : Z := 33.
Definition LPAR : Z := 40.
Definition RPAR : Z := 41.
Definition STAR : Z := 42.
Definition PLUS : Z := 43.
Definition DASH : Z := 45.
Definition DOT : Z := 46.
Definition SLASH : Z := 47.
Definition COLON : Z := 58.
Definition EQUALS : Z := 61.
Definition QUEST : Z := 63.
Definition AT : Z := 64.
Definition LBR : Z := 91.
Definition BSL : Z := 92.
Definition RBR : Z := 93.
Definition CARET : Z := 94.
Definition BAR : Z := 124.

(** The classes of the C locale. *)
Definition in_range (lo c hi : Z) : bool := (lo <=? c) && (c <=? hi).
Definition ISUPPER (c : Z) : bool := in_range 65 c 90.
Definition ISLOWER (c : Z) : bool := in_range 97 c 122.
Definition ISALPHA (c : Z) : bool := ISUPPER c || ISLOWER c.
Definition ISDIGIT (c : Z) : bool := in_range 48 c 57.
Definition ISALNUM (c : Z) : bool := ISALPHA c || ISDIGIT c.
Definition ISBLANK (c : Z) : bool := (c =? 32) || (c =? 9).
Definition ISCNTRL (c : Z) : bool := in_range 0 c 31 || (c =? 127).
Definition ISPRINT (c : Z) : bool := in_range 32 c 126.
Definition ISSPACE (c : Z) : bool := (c =? 32) || in_range 9 c 13.
Definition ISGRAPH (c : Z) : bool := ISPRINT c && negb (ISSPACE c).
Definition ISPUNCT (c : Z) : bool := ISGRAPH c && negb (ISALNUM c).
Definition ISXDIGIT (c : Z) : bool := ISDIGIT c || in_range 65 c 70 || in_range 97 c 102.
Definition tolower (c : Z) : Z := if ISUPPER c then c + 32 else c.

Definition FOLD (flags c : Z) : Z := if flagged flags FNM_CASEFOLD && ISUPPER c then tolower c else c.

(** The value of a [char]. *)
Definition s8 (c : Z) : Z := if c <? 128 then c else c - 256.

(** ** Pointers into the pattern *)

Abbreviation ptr := (list Z).

(** [*p], [p[1]], [*p++]. *)
Definition peek (p : ptr) : outcome Z := match p with c :: _ => Ret c | [] => Fault end.
Definition peek1 (p : ptr) : outcome Z := match p with _ :: c :: _ => Ret c | _ => Fault end.
Definition next (p : ptr) : outcome (Z * ptr) := match p with c :: p => Ret (c, p) | [] => Fault end.

(** [++p] and [p += 2]. *)
Definition bump (p : ptr) : outcome ptr := match p with _ :: p => Ret p | [] => Fault end.
Definition bump2 (p : ptr) : outcome ptr := p ← bump p; bump p.

(** [*p == a && p[1] == b]. *)
Definition peeks (p : ptr) (a b : Z) : outcome bool :=
  c ← peek p;
  if c =? a then c1 ← peek1 p; Ret (c1 =? b) else Ret false.

(** ** Brackets *)

(** How the list of a bracket ends: at a match, at its end, with an error, or not at all. *)
Inductive listing := Hit (p : ptr) | Miss (p : ptr) | Bad | Open.

Definition class_names : list (list Z * (Z -> bool)) :=
  [([97; 108; 110; 117; 109], ISALNUM); ([97; 108; 112; 104; 97], ISALPHA); ([98; 108; 97; 110; 107], ISBLANK);
   ([99; 110; 116; 114; 108], ISCNTRL); ([100; 105; 103; 105; 116], ISDIGIT); ([103; 114; 97; 112; 104], ISGRAPH);
   ([108; 111; 119; 101; 114], ISLOWER); ([112; 114; 105; 110; 116], ISPRINT); ([112; 117; 110; 99; 116], ISPUNCT);
   ([115; 112; 97; 99; 101], ISSPACE); ([117; 112; 112; 101; 114], ISUPPER); ([120; 100; 105; 103; 105; 116], ISXDIGIT)].
Definition in_class (str : list Z) (n : Z) : bool :=
  existsb (fun c => bool_decide (str = fst c) && snd c n) class_names.

(** The name of a class: [inl] is the name with what follows, [inr] whether it is too long, or else
    no name at all.  [p] is at the character before. *)
Fixpoint class_name (fuel : nat) (p : ptr) (str : list Z) : outcome (list Z * ptr + bool) :=
  match fuel with
  | O => Spent
  | S fuel =>
      if zlen str =? CHAR_CLASS_MAX_LENGTH then Ret (inr true)
      else
        p ← bump p;
        c ← peek p;
        e ← peeks p COLON RBR;
        if e : bool then p ← bump2 p; Ret (inl (str, p))
        else if (c <? 97) || (122 <=? c) then Ret (inr false)
        else class_name fuel p (str ++ [c])
  end.

(** The list of a bracket from the character [c] on; [nc] is the character of the string. *)
Fixpoint set_loop (fuel : nat) (flags nc c : Z) (p : ptr) : outcome listing :=
  match fuel with
  | O => Spent
  | S fuel =>
      let fn := FOLD flags nc in
      let finish c p := if c =? RBR then Ret (Miss p) else set_loop fuel flags nc c p in
      let normal_bracket c p :=
        c0 ← peek p;
        is_range ← (if c0 =? DASH then c1 ← peek1 p; Ret (negb (c1 =? 0) && negb (c1 =? RBR)) else Ret false);
        if negb is_range && (c =? fn) then Ret (Hit p)
        else
          let cold := s8 c in
          '(c, p) ← next p;
          range ← (if c =? DASH then c0 ← peek p; Ret (negb (c0 =? RBR)) else Ret false);
          if range : bool then
            '(cend, p) ← next p;
            '(cend, p) ← (if negb (flagged flags FNM_NOESCAPE) && (cend =? BSL) then next p else Ret (cend, p));
            if cend =? 0 then Ret Bad
            else if (cold <=? fn) && (fn <=? cend) then Ret (Hit p)
            else '(c, p) ← next p; finish c p
          else finish c p in
      c1 ← (if c =? LBR then peek p else Ret 0);
      if negb (flagged flags FNM_NOESCAPE) && (c =? BSL) then
        c ← peek p;
        if c =? 0 then Ret Bad else p ← bump p; normal_bracket (FOLD flags c) p
      else if (c =? LBR) && (c1 =? COLON) then
        r ← class_name 7 p [];
        match r with
        | inr true => Ret Bad
        | inr false => normal_bracket LBR p
        | inl (str, p) => if in_class str nc then Ret (Hit p) else '(c, p) ← next p; finish c p
        end
      else if c =? 0 then Ret Open
      else normal_bracket (FOLD flags c) p
  end.

(** The rest of a class name that is skipped: [None] when too long, [Some None] when it is none. *)
Fixpoint skip_class (fuel : nat) (p : ptr) (c1 : Z) : outcome (option (option ptr)) :=
  match fuel with
  | O => Spent
  | S fuel =>
      p ← bump p;
      c ← peek p;
      if c1 + 1 =? CHAR_CLASS_MAX_LENGTH then Ret None
      else
        e ← peeks p COLON RBR;
        if e : bool then Ret (Some (Some p))
        else if (c <? 97) || (122 <=? c) then Ret (Some None)
        else skip_class fuel p (c1 + 1)
  end.

(** A collating symbol that is skipped, to its end; [None] where there is none. *)
Fixpoint skip_symbol (fuel : nat) (p : ptr) : outcome (option ptr) :=
  match fuel with
  | O => Spent
  | S fuel =>
      p ← bump p;
      c ← peek p;
      if c =? 0 then Ret None
      else e ← peeks p DOT RBR; if e : bool then Ret (Some p) else skip_symbol fuel p
  end.

(** The label [matched]: the rest of the bracket; [None] is for no match. *)
Fixpoint matched (fuel : nat) (flags : Z) (p : ptr) : outcome (option ptr) :=
  match fuel with
  | O => Spent
  | S fuel =>
      '(c, p) ← next p;
      let again c p := if c =? RBR then Ret (Some p) else matched fuel flags p in
      if c =? 0 then Ret None
      else if negb (flagged flags FNM_NOESCAPE) && (c =? BSL) then
        c ← peek p;
        if c =? 0 then Ret None else p ← bump p; matched fuel flags p
      else
        c0 ← (if c =? LBR then peek p else Ret 0);
        if c0 =? COLON then
          r ← skip_class 7 p 0;
          match r with
          | None => Ret None
          | Some None => matched fuel flags p
          | Some (Some p) => p ← bump2 p; '(c, p) ← next p; again c p
          end
        else if c0 =? EQUALS then
          p ← bump p;
          c ← peek p;
          if c =? 0 then Ret None
          else
            p ← bump p;
            c ← peek p;
            if negb (c =? EQUALS) then Ret None
            else
              c1 ← peek1 p;
              if negb (c1 =? RBR) then Ret None else p ← bump2 p; '(c, p) ← next p; again c p
        else if c0 =? DOT then
          p ← bump p;
          r ← skip_symbol (S (length p)) p;
          match r with
          | None => Ret None
          | Some p => p ← bump2 p; '(c, p) ← next p; again c p
          end
        else again c p
  end.

(** What a bracket does with a character: no match, a match with the rest of the pattern, or it
    is a normal character. *)
Inductive bracketed := No | Yes (p : ptr) | Normal.

Definition bracket (flags nc : Z) (p : ptr) : outcome bracketed :=
  c ← peek p;
  let neg := (c =? BANG) || (c =? CARET) in
  p ← (if neg then bump p else Ret p);
  '(c, p) ← next p;
  r ← set_loop (S (length p)) flags nc c p;
  match r with
  | Open => Ret Normal
  | Bad => Ret No
  | Miss p => Ret (if neg then Yes p else No)
  | Hit p => q ← matched (S (length p)) flags p;
             Ret match q with Some p => if neg then No else Yes p | None => No end
  end.

(** ** Extended patterns *)

Definition extended (c : Z) : bool := (c =? QUEST) || (c =? STAR) || (c =? PLUS) || (c =? AT) || (c =? BANG).

(** Over the characters of a list to its bracket; [None] where there is none. *)
Fixpoint over_list (fuel : nat) (p : ptr) : outcome (option ptr) :=
  match fuel with
  | O => Spent
  | S fuel =>
      c ← peek p;
      if c =? RBR then Ret (Some p) else p ← bump p; if c =? 0 then Ret None else over_list fuel p
  end.

(** From a bracket to the one that closes it. *)
Definition over_bracket (p : ptr) : outcome (option ptr) :=
  p ← bump p;
  c ← peek p;
  p ← (if (c =? BANG) || (c =? CARET) then bump p else Ret p);
  c ← peek p;
  p ← (if c =? RBR then bump p else Ret p);
  over_list (S (length p)) p.

(** The end of an extended pattern, with [p] at its parenthesis; or [p] itself. *)
Fixpoint end_loop (fuel : nat) (pattern p : ptr) : outcome ptr :=
  match fuel with
  | O => Spent
  | S fuel =>
      p ← bump p;
      c ← peek p;
      if c =? 0 then Ret pattern
      else if c =? LBR then
        r ← over_bracket p;
        match r with Some p => end_loop fuel pattern p | None => Ret pattern end
      else
        c1 ← (if extended c then peek1 p else Ret 0);
        if c1 =? LPAR then q ← bump p; p ← end_loop fuel q q; end_loop fuel pattern p
        else if c =? RPAR then bump p
        else end_loop fuel pattern p
  end.
Definition end_pattern (p : ptr) : outcome ptr := end_loop (S (length p)) p p.

(** The alternatives and what follows them, from [p] on: [cur] is what has been read of the
    alternative since [startp].  -1 is for a pattern that is not valid, -2 for no memory. *)
Fixpoint split_alternatives (oom : bool) (fuel : nat) (p : ptr) (cur : list Z) (level : nat) (acc : list (list Z)) :
    outcome (list (list Z) * ptr + Z) :=
  match fuel with
  | O => Spent
  | S fuel =>
      c ← peek p;
      let on p read level acc := q ← bump p; split_alternatives oom fuel q read level acc in
      if c =? 0 then Ret (inr (-1))
      else if c =? LBR then
        r ← over_bracket p;
        match r with
        | None => Ret (inr (-1))
        | Some q => on q (cur ++ take (length p - length q) p ++ [RBR]) level acc
        end
      else
        c1 ← (if extended c then peek1 p else Ret 0);
        if c1 =? LPAR then on p (cur ++ [c]) (S level) acc
        else if c =? RPAR then
          match level with
          | O => if oom then Ret (inr (-2)) else q ← bump p; Ret (inl (acc ++ [cur], q))
          | S level => on p (cur ++ [c]) level acc
          end
        else if (c =? BAR) && (level =? 0)%nat then if oom then Ret (inr (-2)) else on p [] level (acc ++ [cur])
        else on p (cur ++ [c]) level acc
  end.

(** Where a match stopped at a [*]: the pattern from there, the string, and no_leading_period. *)
Abbreviation place := (ptr * list Z * bool)%type.
Abbreviation matcher := (ptr -> list Z -> bool -> Z -> outcome Z).

(** The first of the alternatives for which a test works. *)
Fixpoint any_of {A} (f : A -> outcome bool) (l : list A) : outcome bool :=
  match l with [] => Ret false | x :: l => b ← f x; if b : bool then Ret true else any_of f l end.

Definition matches (m : matcher) (p : ptr) (n : list Z) (nlp : bool) (flags : Z) : outcome bool :=
  r ← m p n nlp flags; Ret (r =? 0).

(** Whether the rest of a string that is cut at [k] begins with a period that needs an explicit one. *)
Definition leading_at (string : list Z) (k : nat) (nlp : bool) (flags : Z) : bool :=
  match k with O => nlp | S j => (nth j string 0 =? SLASH) && NO_LEADING_PERIOD flags end.

(** [pattern] is at the parenthesis after [opt]. *)
Definition ext_match (oom : bool) (m : matcher) (opt : Z) (pattern : ptr) (string : list Z) (nlp : bool) (flags : Z) : outcome Z :=
  start ← bump pattern;
  r ← split_alternatives oom (length pattern) start [] 0 [];
  match r with
  | inr e => Ret e
  | inl (alts, p) =>
      let flags' := if flagged flags FNM_FILE_NAME then flags else without flags FNM_PERIOD in
      let cuts := seq 0 (S (length string)) in
      let head a k := matches m (a ++ [0]) (take k string) nlp flags' in
      let tail k := matches m p (drop k string) (leading_at string k nlp flags) flags' in
      let whole k := matches m (opt :: pattern) (drop k string) (leading_at string k nlp flags) flags' in
      let done b := Ret (if b : bool then 0 else FNM_NOMATCH) in
      if (opt =? STAR) || (opt =? PLUS) then
        e ← (if opt =? STAR then matches m p string nlp flags else Ret false);
        if e : bool then Ret 0
        else
          b ← any_of (fun a => any_of (fun k =>
                h ← head a k;
                if h : bool then
                  r ← tail k; if r : bool then Ret true else if (k =? 0)%nat then Ret false else whole k
                else Ret false) cuts) alts;
          done b
      else if (opt =? QUEST) || (opt =? AT) then
        e ← (if opt =? QUEST then matches m p string nlp flags else Ret false);
        if e : bool then Ret 0
        else b ← any_of (fun a => matches m (a ++ p) string nlp flags') alts; done b
      else
        b ← any_of (fun k => e ← any_of (fun a => head a k) alts; if e : bool then Ret false else tail k) cuts;
        done b
  end.

(** ** The matcher *)

(** The characters after a [*]: over the wildcards, of which each [?] takes a character of the
    string; [None] when it cannot. *)
Fixpoint wildcards (fuel : nat) (flags : Z) (p : ptr) (n : list Z) : outcome (option (Z * ptr * list Z)) :=
  match fuel with
  | O => Spent
  | S fuel =>
      '(c, p) ← next p;
      if negb ((c =? QUEST) || (c =? STAR)) then Ret (Some (c, p, n))
      else
        c0 ← peek p;
        q ← (if (c0 =? LPAR) && flagged flags FNM_EXTMATCH then end_pattern p else Ret p);
        if negb (length q =? length p)%nat then wildcards fuel flags q n
        else if c =? QUEST then
          match n with
          | [] => Ret None
          | x :: n => if (x =? SLASH) && negb (flagged flags FNM_FILE_NAME) then Ret None else wildcards fuel flags p n
          end
        else wildcards fuel flags p n
  end.

(** The places of the string, as many as there are up to [endp], for which a test holds and the rest
    matches, perhaps only up to the next [*]. *)
Fixpoint try_places (f : list Z -> bool -> outcome (Z * option place)) (test : Z -> bool) (k : nat) (n : list Z) (nlp : bool) :
    outcome (option (option place)) :=
  match k, n with
  | S k, x :: n' =>
      if test x then
        '(r, e) ← f n nlp;
        if r =? 0 then Ret (Some e) else try_places f test k n' false
      else try_places f test k n' false
  | _, _ => Ret None
  end.

(** memchr, as the number of characters before it. *)
Fixpoint count_to (c : Z) (n : list Z) : nat :=
  match n with [] => O | x :: n => if x =? c then O else S (count_to c n) end.
Definition is_in (c : Z) (n : list Z) : bool := existsb (Z.eqb c) n.

(** The label [normal_match]: a character of the string. *)
Definition normal_match (flags c : Z) (n : list Z) : bool :=
  match n with [] => false | x :: _ => c =? FOLD flags x end.

(** A turn of the loop of [internal_fnmatch].  The next turn is a call of [rec] with the rest of the
    pattern, as are the matches within the match. *)
Abbreviation matching := (ptr -> list Z -> bool -> Z -> bool -> outcome (Z * option place)).
Definition fnmatch_turn (oom : bool) (rec : matching) : matching := fun p n nlp flags ends =>
  let again p n nlp := rec p n nlp flags ends in
  let nomatch := Ret (FNM_NOMATCH, None) in
  let m p n nlp flags := '(r, _) ← rec p n nlp flags false; Ret r in
  let normal c p := if normal_match flags c n then again p (drop 1 n) false else nomatch in
  '(c, p) ← next p;
  if c =? 0 then
    match n with
    | [] => Ret (0, None)
    | x :: _ => if flagged flags FNM_LEADING_DIR && (x =? SLASH) then Ret (0, None) else nomatch
    end
  else
    let c := FOLD flags c in
    r ← (if extended c && negb (flagged flags FNM_EXTMATCH) then
           c0 ← peek p; if c0 =? LPAR then ext_match oom m c p n nlp flags else Ret (-3)
         else Ret (-3));
    if negb ((r =? -1) || (r =? -3)) then Ret (r, None)
    else if c =? QUEST then
      match n with
      | [] => nomatch
      | x :: n' =>
          if (x =? SLASH) && flagged flags FNM_FILE_NAME then nomatch
          else if (x =? DOT) && nlp then nomatch
          else again p n' false
      end
    else if c =? BSL then
      if flagged flags FNM_NOESCAPE then if normal_match flags c n then again p (drop 1 n) false else nomatch
      else
        '(c, p) ← next p;
        if c =? 0 then nomatch else normal (FOLD flags c) p
    else if c =? STAR then
      if (r =? -3) && ends then Ret (0, Some (STAR :: p, n, nlp))
      else if match n with x :: _ => (x =? DOT) && nlp | [] => false end then nomatch
      else
        w ← wildcards (S (length p)) flags p n;
        match w with
        | None => nomatch
        | Some (c, p, n) =>
            if c =? 0 then
              Ret (if negb (flagged flags FNM_FILE_NAME) || flagged flags FNM_LEADING_DIR || negb (is_in SLASH n)
                   then 0 else FNM_NOMATCH, None)
            else
              let k := if flagged flags FNM_FILE_NAME then count_to SLASH n else length n in
              let flags2 := if flagged flags FNM_FILE_NAME then flags else without flags FNM_PERIOD in
              let sub n nlp := rec (c :: p) n nlp flags2 true in
              c0 ← peek p;
              if (c =? LBR) || (flagged flags FNM_EXTMATCH && ((c =? AT) || (c =? PLUS) || (c =? BANG)) && (c0 =? LPAR)) then
                e ← try_places sub (fun _ => true) k n nlp;
                match e with
                | Some None => Ret (0, None)
                | Some (Some (p, n, nlp)) => again p n nlp
                | None => nomatch
                end
              else if (c =? SLASH) && flagged flags FNM_FILE_NAME then
                match drop (count_to SLASH n) n with
                | _ :: n => '(r, _) ← rec p n (flagged flags FNM_PERIOD) flags false;
                            if r =? 0 then Ret (0, None) else nomatch
                | [] => nomatch
                end
              else
                let c := FOLD flags (if (c =? BSL) && negb (flagged flags FNM_NOESCAPE) then c0 else c) in
                e ← try_places sub (fun x => FOLD flags x =? c) k n nlp;
                match e with
                | Some None => Ret (0, None)
                | Some (Some (p, n, nlp)) => again p n nlp
                | None => nomatch
                end
        end
    else if c =? LBR then
      match n with
      | [] => nomatch
      | x :: n' =>
          if (x =? DOT) && nlp then nomatch
          else if (x =? SLASH) && flagged flags FNM_FILE_NAME then nomatch
          else
            b ← bracket flags x p;
            match b with
            | No => nomatch
            | Yes p => again p n' false
            | Normal => normal c p
            end
      end
    else if (c =? SLASH) && NO_LEADING_PERIOD flags then
      match n with x :: n' => if x =? c then again p n' true else nomatch | [] => nomatch end
    else normal c p.

(** [internal_fnmatch]; [ends] says whether it may stop at a [*], which it then returns. *)
Fixpoint internal_fnmatch (oom : bool) (fuel : nat) : matching :=
  match fuel with
  | O => fun _ _ _ _ _ => Spent
  | S fuel => fnmatch_turn oom (internal_fnmatch oom fuel)
  end.

(** Each call within a call is for a shorter pattern or a shorter string. *)
Definition fnmatch (oom : bool) (pattern string : list Z) (flags : Z) : outcome Z :=
  '(r, _) ← internal_fnmatch oom (length pattern + length string + 2) (pattern ++ [0]) string (flagged flags FNM_PERIOD) flags false;
  Ret r.

(** ** What a call leaves *)

Lemma step_ext {A B} (x : outcome A) (f g : A -> outcome B) : (forall a, x = Ret a -> f a = g a) -> x ≫= f = x ≫= g.
Proof. destruct x; cbn; auto. Qed.

Lemma step_ext2 {A B} (x y : outcome A) (f g : A -> outcome B) :
  x = y -> (forall a, y = Ret a -> f a = g a) -> x ≫= f = y ≫= g.
Proof. intros ->. apply step_ext. Qed.

Lemma next_ret p c q : next p = Ret (c, q) <-> p = c :: q.
Proof. destruct p; simpl; split; congruence. Qed.

Lemma bump_ret p q : bump p = Ret q -> length p = S (length q).
Proof. destruct p; cbn; congruence. Qed.

Lemma bump2_ret p q : bump2 p = Ret q -> length p = S (S (length q)).
Proof. destruct p as [|? [|? ?]]; cbv; congruence. Qed.

Ltac inv_ret :=
  repeat (match goal with
          | H : mbind _ ?x = Ret _ |- _ => let E := fresh "E" in destruct x eqn:E; cbn [mbind outcome_bind] in H; [|discriminate H|discriminate H]
          | H : Ret _ = Ret _ |- _ => injection H as H
          | H : Fault = Ret _ |- _ => discriminate H
          | H : Spent = Ret _ |- _ => discriminate H
          | H : next _ = Ret (_, _) |- _ => apply next_ret in H
          | H : bump _ = Ret _ |- _ => apply bump_ret in H
          | H : bump2 _ = Ret _ |- _ => apply bump2_ret in H
          | H : Some _ = Some _ |- _ => injection H as H
          | H : inl _ = inl _ |- _ => injection H as H
          | H : (_, _) = (_, _) |- _ => injection H as H
          | H : None = Some _ |- _ => discriminate H
          | H : Some _ = None |- _ => discriminate H
          | H : inr _ = inl _ |- _ => discriminate H
          | H : inl _ = inr _ |- _ => discriminate H
          | H : (let '(_, _) := ?x in _) = _ |- _ => destruct x
          | H : (if ?b then _ else _) = Ret _ |- _ => let E := fresh "E" in destruct b eqn:E
          | H : match ?x with _ => _ end = Ret _ |- _ => let E := fresh "E" in destruct x eqn:E
          end; try subst; cbn [length] in *).

Lemma class_name_shorter fuel p str s q : class_name fuel p str = Ret (inl (s, q)) -> (length q < length p)%nat.
Proof.
  revert p str; induction fuel as [|fuel IH]; intros p str H; simpl in H; inv_ret; try lia.
  apply IH in H; lia.
Qed.

Lemma skip_class_shorter fuel p c1 q : skip_class fuel p c1 = Ret (Some (Some q)) -> (length q < length p)%nat.
Proof.
  revert p c1; induction fuel as [|fuel IH]; intros p c1 H; simpl in H; inv_ret; try lia.
  apply IH in H; lia.
Qed.

Lemma skip_symbol_shorter fuel p q : skip_symbol fuel p = Ret (Some q) -> (length q < length p)%nat.
Proof.
  revert p; induction fuel as [|fuel IH]; intros p H; simpl in H; inv_ret; try lia.
  apply IH in H; lia.
Qed.

Definition listed_below (r : listing) (p : ptr) : Prop :=
  match r with Hit q | Miss q => (length q <= length p)%nat | Bad | Open => True end.

Lemma set_loop_shorter fuel flags nc c p r : set_loop fuel flags nc c p = Ret r -> listed_below r p.
Proof.
  revert c p; induction fuel as [|fuel IH]; intros c p H; cbn [set_loop] in H; [discriminate|].
  cbv zeta in H. inv_ret; try match goal with H : class_name _ _ _ = _ |- _ => apply class_name_shorter in H end;
    try match goal with H : set_loop _ _ _ _ _ = _ |- _ => apply IH in H; destruct r end; cbn [listed_below length] in *; auto; lia.
Qed.

Lemma matched_shorter fuel flags p q : matched fuel flags p = Ret (Some q) -> (length q < length p)%nat.
Proof.
  revert p; induction fuel as [|fuel IH]; intros p H; cbn [matched] in H; [discriminate|].
  cbv zeta in H. inv_ret;
    repeat match goal with
           | H : skip_class _ _ _ = _ |- _ => apply skip_class_shorter in H
           | H : skip_symbol _ _ = _ |- _ => apply skip_symbol_shorter in H
           | H : matched _ _ _ = _ |- _ => apply IH in H
           end; cbn [length] in *; lia.
Qed.

Lemma bracket_shorter flags nc p q : bracket flags nc p = Ret (Yes q) -> (length q < length p)%nat.
Proof.
  intros H. unfold bracket in H. cbv zeta in H. inv_ret; try discriminate;
    repeat match goal with
           | H : matched _ _ _ = _ |- _ => apply matched_shorter in H
           | H : set_loop _ _ _ _ _ = _ |- _ => apply set_loop_shorter in H; cbn [listed_below] in H
           | H : Yes _ = Yes _ |- _ => injection H as H
           end; try subst; try lia.
  all: destruct a0; [|discriminate H]; try discriminate H.
  injection H as ->. match goal with H : matched _ _ _ = _ |- _ => apply matched_shorter in H end. lia.
Qed.

Lemma over_list_shorter fuel p q : over_list fuel p = Ret (Some q) -> (length q <= length p)%nat.
Proof.
  revert p; induction fuel as [|fuel IH]; intros p H; cbn [over_list] in H; inv_ret; try lia. apply IH in H; lia.
Qed.

Lemma over_bracket_shorter p q : over_bracket p = Ret (Some q) -> (length q < length p)%nat.
Proof. intros H. unfold over_bracket in H. inv_ret; apply over_list_shorter in H; cbn [length] in *; lia. Qed.

Lemma end_loop_shorter fuel pattern p q :
  end_loop fuel pattern p = Ret q -> (length p <= length pattern)%nat -> (length q <= length pattern)%nat.
Proof.
  revert pattern p q; induction fuel as [|fuel IH]; intros pattern p q H Hp; cbn [end_loop] in H; inv_ret;
    repeat match goal with
           | H : over_bracket _ = _ |- _ => apply over_bracket_shorter in H
           | H : end_loop _ ?q ?q = _ |- _ => apply IH in H; [|lia]
           | H : end_loop _ _ _ = _ |- _ => apply IH in H; [|lia]
           end; lia.
Qed.

Lemma wildcards_shorter fuel flags p n c q n' :
  wildcards fuel flags p n = Ret (Some (c, q, n')) -> (length q < length p)%nat /\ (length n' <= length n)%nat.
Proof.
  revert p n; induction fuel as [|fuel IH]; intros p n H; cbn [wildcards] in H; inv_ret;
    repeat match goal with
           | H : end_pattern _ = _ |- _ => unfold end_pattern in H; apply end_loop_shorter in H; [|lia]
           | H : wildcards _ _ _ _ = _ |- _ => apply IH in H
           end; cbn [length] in *; lia.
Qed.

Lemma split_alternatives_shorter oom fuel p cur level acc alts q L :
  split_alternatives oom fuel p cur level acc = Ret (inl (alts, q)) ->
  (length cur + length p <= L)%nat -> Forall (fun a => (length a + length p <= L)%nat) acc ->
  Forall (fun a => (length a + S (length q) <= L)%nat) alts /\ (length q < length p)%nat.
Proof.
  revert p cur level acc; induction fuel as [|fuel IH]; intros p cur level acc H Hc Ha; cbn [split_alternatives] in H; [discriminate|].
  assert (Hw : forall k, (k <= length p)%nat -> Forall (fun a => (length a + k <= L)%nat) acc)
    by (intros k Hk; eapply Forall_impl; [exact Ha|]; cbn; intros; lia).
  cbv zeta in H. inv_ret;
    repeat match goal with
           | H : over_bracket _ = _ |- _ => apply over_bracket_shorter in H
           | H : split_alternatives _ _ _ _ _ _ = _ |- _ =>
               apply IH in H;
               [destruct H; split; [done|lia]|rewrite ?length_app, ?length_take; cbn [length]; lia
               |rewrite ?Forall_app; split_and?; try (apply Hw; lia); repeat constructor; lia]
           end.
  all: split; [|lia]; apply Forall_app; split; [apply Hw; lia|repeat constructor; lia].
Qed.

(** ** Termination: the fuel is enough *)

Lemma first_of_ext {A} (f g : A -> outcome bool) l : (forall x, x ∈ l -> f x = g x) -> any_of f l = any_of g l.
Proof.
  induction l as [|x l IH]; intros H; [done|]; cbn [any_of]. rewrite (H x) by constructor.
  apply step_ext; intros [] _; [done|]. apply IH; intros y Hy; apply H; by constructor.
Qed.

Lemma try_places_ext f g test k n nlp :
  (forall n' nlp, (length n' <= length n)%nat -> f n' nlp = g n' nlp) -> try_places f test k n nlp = try_places g test k n nlp.
Proof.
  revert n nlp; induction k as [|k IH]; intros n nlp H; [done|]; destruct n as [|x n]; [done|]; cbn [try_places].
  rewrite (H (x :: n)) by done. rewrite (IH n) by (intros; apply H; cbn [length]; lia). done.
Qed.

Lemma try_places_some f test k n nlp e :
  try_places f test k n nlp = Ret (Some e) ->
  exists n' nlp', (length n' <= length n)%nat /\ f n' nlp' = Ret (0, e).
Proof.
  revert n nlp; induction k as [|k IH]; intros n nlp H; [discriminate|]; destruct n as [|x n]; [discriminate|]; cbn [try_places] in H.
  destruct (test x).
  - destruct (f (x :: n) nlp) as [[r e']| |] eqn:E; try discriminate H; cbn [mbind outcome_bind] in H.
    destruct (Z.eqb_spec r 0) as [->|]; [injection H as ->; eauto|].
    destruct (IH _ _ H) as (n' & l & ? & ?). exists n', l. cbn [length]. split; [lia|done].
  - destruct (IH _ _ H) as (n' & l & ? & ?). exists n', l. cbn [length]. split; [lia|done].
Qed.

Lemma ext_match_ext oom (m1 m2 : matcher) opt pattern string nlp flags :
  (forall p n nlp flags, (length p + length n <= length pattern + length string)%nat -> m1 p n nlp flags = m2 p n nlp flags) ->
  ext_match oom m1 opt pattern string nlp flags = ext_match oom m2 opt pattern string nlp flags.
Proof.
  intros H. unfold ext_match. apply step_ext; intros start Hs. apply bump_ret in Hs.
  apply step_ext; intros [[alts p]|] Hr; [|done].
  eapply (split_alternatives_shorter _ _ _ _ _ _ _ _ (length start)) in Hr as [Ha Hp]; [|cbn [length]; lia|constructor].
  rewrite Forall_forall in Ha. cbv zeta. unfold matches.
  assert (Hm : forall q s nlp flags, (length q <= length p)%nat -> (length s <= length string)%nat -> m1 q s nlp flags = m2 q s nlp flags)
    by (intros; apply H; lia).
  destruct ((opt =? STAR) || (opt =? PLUS)); [|destruct ((opt =? QUEST) || (opt =? AT))].
  - rewrite (Hm p) by lia. apply step_ext; intros [] _; [done|]. f_equal.
    apply first_of_ext; intros a Ia. specialize (Ha a Ia). apply first_of_ext; intros k Ik.
    rewrite (H (a ++ [0])) by (rewrite length_app, length_take; cbn [length]; lia). apply step_ext; intros [] _; [|done].
    rewrite (Hm p (drop k string)) by (rewrite ?length_drop; lia). apply step_ext; intros [] _; [done|].
    destruct (Nat.eqb_spec k 0) as [|Hk]; [done|]. apply elem_of_seq in Ik.
    rewrite (H (opt :: pattern)) by (rewrite length_drop; cbn [length]; lia). done.
  - rewrite (Hm p) by lia. apply step_ext; intros [] _; [done|]. f_equal.
    apply first_of_ext; intros a Ia. specialize (Ha a Ia). rewrite (H (a ++ p)) by (rewrite length_app; lia). done.
  - f_equal. apply first_of_ext; intros k _.
    rewrite (first_of_ext _ (fun a => r ← m2 (a ++ [0]) (take k string) nlp (if flagged flags FNM_FILE_NAME then flags else without flags FNM_PERIOD); Ret (r =? 0))).
    + apply step_ext; intros [] _; [done|]. rewrite (Hm p (drop k string)) by (rewrite ?length_drop; lia). done.
    + intros a Ia. specialize (Ha a Ia). rewrite (H (a ++ [0])) by (rewrite length_app, length_take; cbn [length]; lia). done.
Qed.

(** What a call returns lies in the rest of what it was given. *)
Definition stops_inside (rec : matching) : Prop := forall p n nlp flags ends r p' n' nlp',
  rec p n nlp flags ends = Ret (r, Some (p', n', nlp')) -> (length p' <= length p)%nat /\ (length n' <= length n)%nat.

Lemma turn_stops oom rec : stops_inside rec -> stops_inside (fnmatch_turn oom rec).
Proof.
  intros Hr p n nlp flags ends r p' n' nlp' H. unfold fnmatch_turn in H. cbv zeta in H.
  inv_ret; try discriminate;
    repeat match goal with
           | H : (_, _) = (_, Some _) |- _ => injection H as H; try subst
           | H : try_places _ _ _ _ _ = _ |- _ => apply try_places_some in H as (? & ? & ? & H); apply Hr in H
           | H : wildcards _ _ _ _ = _ |- _ => apply wildcards_shorter in H
           | H : bracket _ _ _ = _ |- _ => apply bracket_shorter in H
           | H : rec _ _ _ _ _ = _ |- _ => apply Hr in H; rewrite ?length_drop in H
           end; cbn [length] in *; try lia.
Qed.

Lemma internal_stops oom fuel : stops_inside (internal_fnmatch oom fuel).
Proof. induction fuel as [|fuel IH]; [by intros ?|]. exact (turn_stops _ _ IH). Qed.

Section Agree.
Context (oom : bool) (rec1 rec2 : matching) (p0 : ptr) (n0 : list Z).
Hypothesis Hrec : forall p n nlp flags ends,
  (length p + length n < length p0 + length n0)%nat -> rec1 p n nlp flags ends = rec2 p n nlp flags ends.
Hypothesis Hin : stops_inside rec2.

(** What follows the places that are tried at a [*]. *)
Lemma star_ext p n sub1 sub2 test k nlp0 flags flags2 ends :
  (length p + length n < length p0 + length n0)%nat ->
  sub1 = (fun n nlp => rec1 p n nlp flags2 true) -> sub2 = (fun n nlp => rec2 p n nlp flags2 true) ->
  (e ← try_places sub1 test k n nlp0;
   match e with Some None => Ret (0, None) | Some (Some (p, n, nlp)) => rec1 p n nlp flags ends | None => Ret (FNM_NOMATCH, None) end) =
  (e ← try_places sub2 test k n nlp0;
   match e with Some None => Ret (0, None) | Some (Some (p, n, nlp)) => rec2 p n nlp flags ends | None => Ret (FNM_NOMATCH, None) end).
Proof using Hrec Hin.
  intros Hl -> ->. rewrite (try_places_ext _ (fun n nlp => rec2 p n nlp flags2 true)) by (intros; apply Hrec; lia).
  apply step_ext; intros [[[[q n'] nlp]|]|] E; try done.
  apply try_places_some in E as (? & ? & ? & E). apply Hin in E. apply Hrec; lia.
Qed.

Lemma turn_ext nlp flags ends : fnmatch_turn oom rec1 p0 n0 nlp flags ends = fnmatch_turn oom rec2 p0 n0 nlp flags ends.
Proof using Hrec Hin.
  unfold fnmatch_turn. apply step_ext; intros [c p] Hp. apply next_ret in Hp.
  assert (Hl : length p0 = S (length p)) by (rewrite Hp; done).
  cbv zeta. destruct (c =? 0); [done|]. generalize (FOLD flags c) as d; intros d.
  assert (Hn : forall q c, (length q <= length p)%nat ->
    (if normal_match flags c n0 then rec1 q (drop 1 n0) false flags ends else Ret (FNM_NOMATCH, None)) =
    (if normal_match flags c n0 then rec2 q (drop 1 n0) false flags ends else Ret (FNM_NOMATCH, None))).
  { intros q e Hq. destruct (normal_match flags e n0); [|done]. apply Hrec. rewrite length_drop. lia. }
  apply step_ext2.
  { destruct (extended d && _); [|done]. apply step_ext; intros c0 _. destruct (c0 =? LPAR); [|done].
    apply ext_match_ext; intros q m l f Hq. rewrite Hrec by lia. done. }
  intros r _. destruct (negb _); [done|]. destruct (d =? QUEST).
  { destruct n0 as [|x n]; [done|]. rewrite Hrec by (cbn [length]; lia). done. }
  destruct (d =? BSL).
  { destruct (flagged flags FNM_NOESCAPE); [by apply Hn|]. apply step_ext; intros [c' q] Hq.
    apply next_ret in Hq. subst p. destruct (c' =? 0); [done|]. apply Hn. cbn [length]. lia. }
  destruct (d =? STAR).
  { destruct (_ && ends); [done|]. destruct (match n0 with [] => false | _ => _ end); [done|].
    apply step_ext; intros [[[c' q] n]|] Hw; [|done]. apply wildcards_shorter in Hw as [Hq Hm].
    destruct (c' =? 0); [done|]. apply step_ext; intros c0 _.
    destruct (_ || _); [eapply star_ext; [|reflexivity|reflexivity]; cbn [length]; lia|]. destruct (_ && _).
    - destruct (drop _ n) as [|x m] eqn:D; [done|]. apply (f_equal length) in D. rewrite length_drop in D. cbn [length] in D.
      rewrite Hrec by lia. done.
    - eapply star_ext; [|reflexivity|reflexivity]; cbn [length]; lia. }
  destruct (d =? LBR).
  { destruct n0 as [|x n]; [done|]. destruct (_ && nlp); [done|]. destruct (_ && _); [done|].
    apply step_ext; intros [|q|] Hb; [done| |by apply Hn]. apply bracket_shorter in Hb. apply Hrec. cbn [length]. lia. }
  destruct (_ && _); [|by apply Hn]. destruct n0 as [|x n]; [done|]. rewrite Hrec by (cbn [length]; lia). done.
Qed.
End Agree.

Lemma internal_enough oom fuel1 : forall fuel2 p n nlp flags ends,
  (length p + length n < fuel1)%nat -> (length p + length n < fuel2)%nat ->
  internal_fnmatch oom fuel1 p n nlp flags ends = internal_fnmatch oom fuel2 p n nlp flags ends.
Proof.
  induction fuel1 as [|fuel1 IH]; intros fuel2 p n nlp flags ends H1 H2; [lia|]. destruct fuel2 as [|fuel2]; [lia|].
  apply (turn_ext oom _ _ p n); [|apply internal_stops]. intros; apply IH; lia.
Qed.

(** ** The loops end *)

Definition ended {A} (x : outcome A) : Prop := x <> Spent.

Lemma ended_bind {A B} (x : outcome A) (f : A -> outcome B) :
  ended x -> (forall a, x = Ret a -> ended (f a)) -> ended (x ≫= f).
Proof. unfold ended. destruct x; cbn; auto. Qed.

Lemma ended_ret {A} (a : A) : ended (Ret a).
Proof. done. Qed.
Lemma ended_fault {A} : ended (@Fault A).
Proof. done. Qed.
Lemma ended_peek p : ended (peek p).
Proof. by destruct p. Qed.
Lemma ended_peek1 p : ended (peek1 p).
Proof. by destruct p as [|? [|? ?]]. Qed.
Lemma ended_next p : ended (next p).
Proof. by destruct p. Qed.
Lemma ended_bump p : ended (bump p).
Proof. by destruct p. Qed.
Lemma ended_bump2 p : ended (bump2 p).
Proof. by destruct p as [|? [|? ?]]. Qed.
Lemma ended_peeks p a b : ended (peeks p a b).
Proof.
  unfold peeks. apply ended_bind; [apply ended_peek|]. intros c _. destruct (c =? a); [|done].
  apply ended_bind; [apply ended_peek1|done].
Qed.

Create HintDb ends.
#[export] Hint Resolve ended_ret ended_fault ended_peek ended_peek1 ended_next ended_bump ended_bump2 ended_peeks : ends.

(** [ends] goes through a body to the calls of loops that are left. *)
Ltac ends :=
  repeat (cbv zeta; match goal with
          | |- ended (mbind _ _) => apply ended_bind; [|intros ? ?]
          | |- ended (if ?b then _ else _) => destruct b eqn:?
          | |- ended (match ?x with _ => _ end) => destruct x eqn:?
          | |- ended _ => solve [auto with ends]
          end).

Lemma class_name_ends fuel p str : 7 - zlen str <= Z.of_nat fuel -> zlen str <= 6 -> ended (class_name fuel p str).
Proof.
  revert p str; induction fuel as [|fuel IH]; intros p str Hf Hs; [lia|]. cbn [class_name]. unfold CHAR_CLASS_MAX_LENGTH.
  destruct (Z.eqb_spec (zlen str) 6); [done|]. ends.
  apply IH; rewrite zlen_app; change (zlen [_]) with 1; lia.
Qed.

Lemma set_loop_ends fuel flags nc c p : (length p < fuel)%nat -> ended (set_loop fuel flags nc c p).
Proof.
  revert c p; induction fuel as [|fuel IH]; intros c p Hf; [lia|]. cbn [set_loop]. ends;
    try (apply class_name_ends; change (zlen []) with 0; lia);
    apply IH; inv_ret; try match goal with H : class_name _ _ _ = _ |- _ => apply class_name_shorter in H end; cbn [length] in *; lia.
Qed.

Lemma skip_class_ends fuel p c1 : 6 - c1 <= Z.of_nat fuel -> c1 <= 5 -> ended (skip_class fuel p c1).
Proof.
  revert p c1; induction fuel as [|fuel IH]; intros p c1 Hf Hc; [lia|]. cbn [skip_class]. unfold CHAR_CLASS_MAX_LENGTH.
  ends. apply IH; lia.
Qed.

Lemma skip_symbol_ends fuel p : (length p < fuel)%nat -> ended (skip_symbol fuel p).
Proof.
  revert p; induction fuel as [|fuel IH]; intros p Hf; [lia|]. cbn [skip_symbol]. ends. apply IH. inv_ret; lia.
Qed.

Lemma matched_ends fuel flags p : (length p < fuel)%nat -> ended (matched fuel flags p).
Proof.
  revert p; induction fuel as [|fuel IH]; intros p Hf; [lia|]. cbn [matched]. ends;
    try (apply skip_class_ends; lia); try (apply skip_symbol_ends; lia);
    apply IH; inv_ret;
    repeat match goal with
           | H : skip_class _ _ _ = _ |- _ => apply skip_class_shorter in H
           | H : skip_symbol _ _ = _ |- _ => apply skip_symbol_shorter in H
           end; cbn [length] in *; lia.
Qed.

Lemma bracket_ends flags nc p : ended (bracket flags nc p).
Proof. unfold bracket. ends; [apply set_loop_ends|apply matched_ends]; lia. Qed.

Lemma over_list_ends fuel p : (length p < fuel)%nat -> ended (over_list fuel p).
Proof.
  revert p; induction fuel as [|fuel IH]; intros p Hf; [lia|]. cbn [over_list]. ends. apply IH. inv_ret; lia.
Qed.

Lemma over_bracket_ends p : ended (over_bracket p).
Proof. unfold over_bracket. ends. apply over_list_ends. lia. Qed.
#[export] Hint Resolve bracket_ends over_bracket_ends : ends.

Lemma end_loop_ends fuel pattern p : (length p < fuel)%nat -> ended (end_loop fuel pattern p).
Proof.
  revert pattern p; induction fuel as [|fuel IH]; intros pattern p Hf; [lia|]. cbn [end_loop]. ends;
    apply IH; inv_ret;
    repeat match goal with
           | H : over_bracket _ = _ |- _ => apply over_bracket_shorter in H
           | H : end_loop _ ?q ?q = _ |- _ => apply end_loop_shorter in H; [|lia]
           end; cbn [length] in *; lia.
Qed.

Lemma end_pattern_ends p : ended (end_pattern p).
Proof. apply end_loop_ends. lia. Qed.
#[export] Hint Resolve end_pattern_ends : ends.

Lemma split_alternatives_ends oom fuel p cur level acc :
  (length p < fuel)%nat -> ended (split_alternatives oom fuel p cur level acc).
Proof.
  revert p cur level acc; induction fuel as [|fuel IH]; intros p cur level acc Hf; [lia|]. cbn [split_alternatives]. ends;
    apply IH; inv_ret; repeat match goal with H : over_bracket _ = _ |- _ => apply over_bracket_shorter in H end; lia.
Qed.

Lemma wildcards_ends fuel flags p n : (length p < fuel)%nat -> ended (wildcards fuel flags p n).
Proof.
  revert p n; induction fuel as [|fuel IH]; intros p n Hf; [lia|]. cbn [wildcards]. ends;
    apply IH; inv_ret; repeat match goal with H : end_pattern _ = _ |- _ => unfold end_pattern in H; apply end_loop_shorter in H; [|lia] end; lia.
Qed.

Lemma any_of_ends {A} (f : A -> outcome bool) l : (forall x, x ∈ l -> ended (f x)) -> ended (any_of f l).
Proof.
  induction l as [|x l IH]; intros H; [done|]; cbn [any_of]. apply ended_bind; [apply H; by constructor|].
  intros [] _; [done|]. apply IH; intros y Hy; apply H; by constructor.
Qed.

Lemma try_places_ends f test k n nlp :
  (forall n' nlp, (length n' <= length n)%nat -> ended (f n' nlp)) -> ended (try_places f test k n nlp).
Proof.
  revert n nlp; induction k as [|k IH]; intros n nlp H; [done|]; destruct n as [|x n]; [done|]; cbn [try_places].
  assert (ended (try_places f test k n false)) by (apply IH; intros; apply H; cbn [length]; lia).
  destruct (test x); [|done]. apply ended_bind; [by apply H|]. intros [r e] _. by destruct (r =? 0).
Qed.

Lemma ext_match_ends oom (m : matcher) opt pattern string nlp flags :
  (forall p n nlp flags, (length p + length n <= length pattern + length string)%nat -> ended (m p n nlp flags)) ->
  ended (ext_match oom m opt pattern string nlp flags).
Proof.
  intros H. unfold ext_match. apply ended_bind; [apply ended_bump|]. intros start Hs. apply bump_ret in Hs.
  apply ended_bind; [apply split_alternatives_ends; lia|]. intros [[alts p]|] Hr; [|done].
  eapply (split_alternatives_shorter _ _ _ _ _ _ _ _ (length start)) in Hr as [Ha Hp]; [|cbn [length]; lia|constructor].
  rewrite Forall_forall in Ha. cbv zeta.
  assert (Hm : forall q s nlp flags, (length q + length s <= length pattern + length string)%nat -> ended (matches m q s nlp flags))
    by (intros; apply ended_bind; [by apply H|done]).
  destruct ((opt =? STAR) || (opt =? PLUS)); [|destruct ((opt =? QUEST) || (opt =? AT))].
  - apply ended_bind; [destruct (opt =? STAR); [apply Hm; lia|done]|]. intros [] _; [done|].
    apply ended_bind; [|by intros ? _]. apply any_of_ends; intros a Ia. specialize (Ha a Ia). apply any_of_ends; intros k Ik.
    apply ended_bind; [apply Hm; rewrite length_app, length_take; cbn [length]; lia|]. intros [] _; [|done].
    apply ended_bind; [apply Hm; rewrite length_drop; lia|]. intros [] _; [done|].
    destruct (Nat.eqb_spec k 0) as [|Hk]; [done|]. apply elem_of_seq in Ik. apply Hm. rewrite length_drop; cbn [length]; lia.
  - apply ended_bind; [destruct (opt =? QUEST); [apply Hm; lia|done]|]. intros [] _; [done|].
    apply ended_bind; [|by intros ? _]. apply any_of_ends; intros a Ia. specialize (Ha a Ia). apply Hm. rewrite length_app; lia.
  - apply ended_bind; [|by intros ? _]. apply any_of_ends; intros k _. apply ended_bind.
    + apply any_of_ends; intros a Ia. specialize (Ha a Ia). apply Hm. rewrite length_app, length_take; cbn [length]; lia.
    + intros [] _; [done|]. apply Hm. rewrite length_drop; lia.
Qed.

Section Ends.
Context (oom : bool) (rec : matching) (p0 : ptr) (n0 : list Z).
Hypothesis Hrec : forall p n nlp flags ends,
  (length p + length n < length p0 + length n0)%nat -> ended (rec p n nlp flags ends).
Hypothesis Hin : stops_inside rec.

Lemma star_ends p n test k nlp0 flags flags2 ends :
  (length p + length n < length p0 + length n0)%nat ->
  ended (e ← try_places (fun n nlp => rec p n nlp flags2 true) test k n nlp0;
   match e with Some None => Ret (0, None) | Some (Some (p, n, nlp)) => rec p n nlp flags ends | None => Ret (FNM_NOMATCH, None) end).
Proof using Hrec Hin.
  intros Hl. apply ended_bind; [apply try_places_ends; intros; apply Hrec; lia|].
  intros [[[[q n'] nlp]|]|] E; try done.
  apply try_places_some in E as (? & ? & ? & E). apply Hin in E. apply Hrec; lia.
Qed.

Lemma turn_ends nlp flags ends : ended (fnmatch_turn oom rec p0 n0 nlp flags ends).
Proof using Hrec Hin.
  unfold fnmatch_turn. apply ended_bind; [apply ended_next|]. intros [c p] Hp. apply next_ret in Hp.
  assert (Hl : length p0 = S (length p)) by (rewrite Hp; done).
  cbv zeta. assert (H0 : ended (@Ret (Z * option place) (FNM_NOMATCH, None))) by done.
  destruct (c =? 0).
  { destruct n0; [done|]. by destruct (_ && _). }
  generalize (FOLD flags c) as d; intros d.
  assert (Hn : forall q c, (length q <= length p)%nat ->
    ended (if normal_match flags c n0 then rec q (drop 1 n0) false flags ends else Ret (FNM_NOMATCH, None))).
  { intros q e Hq. destruct (normal_match flags e n0); [|done]. apply Hrec. rewrite length_drop. lia. }
  apply ended_bind.
  { destruct (extended d && _); [|done]. apply ended_bind; [apply ended_peek|]. intros c0 _. destruct (c0 =? LPAR); [|done].
    apply ext_match_ends; intros q m l f Hq. apply ended_bind; [apply Hrec; lia|by intros []]. }
  intros r _. destruct (negb _); [done|]. destruct (d =? QUEST).
  { destruct n0 as [|x n]; [done|]. destruct (_ && flagged _ _); [done|]. destruct (_ && nlp); [done|]. apply Hrec. cbn [length]; lia. }
  destruct (d =? BSL).
  { destruct (flagged flags FNM_NOESCAPE); [by apply Hn|]. apply ended_bind; [apply ended_next|]. intros [c' q] Hq.
    apply next_ret in Hq. subst p. destruct (c' =? 0); [done|]. apply Hn. cbn [length]. lia. }
  destruct (d =? STAR).
  { destruct (_ && ends); [done|]. destruct (match n0 with [] => false | _ => _ end); [done|].
    apply ended_bind; [apply wildcards_ends; lia|]. intros [[[c' q] n]|] Hw; [|done]. apply wildcards_shorter in Hw as [Hq Hm].
    destruct (c' =? 0); [done|]. apply ended_bind; [apply ended_peek|]. intros c0 _.
    destruct (_ || _); [apply star_ends; cbn [length]; lia|]. destruct (_ && _).
    - destruct (drop _ n) as [|x m] eqn:D; [done|]. apply (f_equal length) in D. rewrite length_drop in D. cbn [length] in D.
      apply ended_bind; [apply Hrec; lia|]. intros [r' ?] _. by destruct (r' =? 0).
    - apply star_ends; cbn [length]; lia. }
  destruct (d =? LBR).
  { destruct n0 as [|x n]; [done|]. destruct (_ && nlp); [done|]. destruct (_ && _); [done|].
    apply ended_bind; [apply bracket_ends|]. intros [|q|] Hb; [done| |by apply Hn]. apply bracket_shorter in Hb. apply Hrec. cbn [length]. lia. }
  destruct (_ && _); [|by apply Hn]. destruct n0 as [|x n]; [done|]. destruct (x =? d); [|done]. apply Hrec. cbn [length]; lia.
Qed.
End Ends.

Lemma internal_ends oom fuel : forall p n nlp flags ends,
  (length p + length n < fuel)%nat -> ended (internal_fnmatch oom fuel p n nlp flags ends).
Proof.
  induction fuel as [|fuel IH]; intros p n nlp flags ends H; [lia|].
  apply (turn_ends oom _ p n); [|apply internal_stops]. intros; apply IH; lia.
Qed.

(** C25: [fnmatch] terminates: for every pattern and string, with any flags and whatever extended patterns,
    neither the matcher nor one of its loops uses up its fuel (running out of it is a result of its own, that
    no caller catches), and the result is the one that [internal_fnmatch] has with any fuel above the length
    of the two. *)
Theorem fnmatch_terminates oom pattern string flags :
  fnmatch oom pattern string flags <> Spent /\
  forall fuel, (length pattern + length string + 2 <= fuel)%nat ->
    fnmatch oom pattern string flags =
    ('(r, _) ← internal_fnmatch oom fuel (pattern ++ [0]) string (flagged flags FNM_PERIOD) flags false; Ret r).
Proof.
  split.
  - apply ended_bind; [|by intros []]. apply internal_ends. rewrite length_app; cbn [length]; lia.
  - intros fuel H. unfold fnmatch. rewrite (internal_enough oom _ fuel) by (rewrite length_app; cbn [length]; lia). done.
Qed.

Lemma fnmatch_terminates_witness :
  fnmatch false [PLUS; LPAR; STAR; 97; QUEST; RPAR] [97; 98] 0 <> Spent /\
  fnmatch false [STAR; 97; QUEST] [97; 98] 0 =
  ('(r, _) ← internal_fnmatch false 100 [STAR; 97; QUEST; 0] [97; 98] false 0 false; Ret r).
Proof.
  split.
  - exact (proj1 (fnmatch_terminates false [PLUS; LPAR; STAR; 97; QUEST; RPAR] [97; 98] 0)).
  - exact (proj2 (fnmatch_terminates false [STAR; 97; QUEST] [97; 98] 0) 100%nat ltac:(cbn [length]; lia)).
Defined.

(** ** What the matcher does not do *)

(** The test for [FNM_EXTMATCH] is the wrong way round: ksh patterns work without the flag. *)
Lemma extended_inverted oom :
  fnmatch oom [AT; LPAR; 97; BAR; 98; RPAR] [98] 0 = (if oom then Ret (-2) else Ret 0) /\
  fnmatch oom [AT; LPAR; 97; BAR; 98; RPAR] [98] FNM_EXTMATCH = Ret FNM_NOMATCH.
Proof. by destruct oom. Qed.

(** So is the test for a slash at a [?] after a [*]. *)
Lemma star_question_inverted oom :
  fnmatch oom [QUEST] [SLASH] 0 = Ret 0 /\ fnmatch oom [STAR; QUEST] [SLASH] 0 = Ret FNM_NOMATCH /\
  fnmatch oom [QUEST] [SLASH] FNM_FILE_NAME = Ret FNM_NOMATCH /\ fnmatch oom [STAR; QUEST] [SLASH] FNM_FILE_NAME = Ret 0.
Proof. by destruct oom. Qed.

(** The class of the hexadecimal digits has a name that is too long: no character matches it. *)
Lemma xdigit_never flags x p : bracket flags x ([LBR; COLON; 120; 100; 105; 103; 105; 116; COLON; RBR; RBR] ++ p) = Ret No.
Proof.
  assert (E : forall fuel, set_loop (S fuel) flags x LBR ([COLON; 120; 100; 105; 103; 105; 116; COLON; RBR; RBR] ++ p) = Ret Bad).
  { intros fuel. cbn [set_loop]. change (LBR =? LBR) with true. change (LBR =? BSL) with false. rewrite andb_false_r. done. }
  unfold bracket. cbn [app peek next mbind outcome_bind]. change ((LBR =? BANG) || (LBR =? CARET)) with false.
  cbn [mbind outcome_bind next]. etransitivity; [apply (f_equal (fun t => t ≫= _)); exact (E _)|]. done.
Qed.

(** After a match, a bracket with a class in what is left of it does not match. *)
Lemma class_after_match fuel flags name p : name ∈ map fst class_names ->
  matched (S fuel) flags (LBR :: COLON :: name ++ [COLON; RBR] ++ p) = Ret None.
Proof.
  intros Hn. assert (E : skip_class 7 (COLON :: name ++ [COLON; RBR] ++ p) 0 = Ret None).
  { unfold class_names in Hn. cbn [map fst] in Hn.
    repeat (apply elem_of_cons in Hn as [->|Hn]; [reflexivity|]). by apply elem_of_nil in Hn. }
  cbn [matched next mbind outcome_bind]. change (LBR =? 0) with false. change (LBR =? BSL) with false.
  rewrite andb_false_r. change (LBR =? LBR) with true. cbn [peek mbind outcome_bind]. change (COLON =? COLON) with true.
  cbn iota. by rewrite E.
Qed.

(** The end of a range is not folded: the capital letters match none, in either case. *)
Lemma capitals_casefold x : is_byte x -> bracket FNM_CASEFOLD x [65; DASH; 90; RBR; 0] = Ret No.
Proof.
  intros Hx. assert (H : match bracket FNM_CASEFOLD x [65; DASH; 90; RBR; 0] with Ret No => true | _ => false end = true).
  { revert Hx. apply (byte_forall (fun x => match bracket FNM_CASEFOLD x [65; DASH; 90; RBR; 0] with Ret No => true | _ => false end = true)).
    by vm_compute. }
  by destruct (bracket _ _ _) as [[]| |].
Qed.

(** A bracket without its end that begins a collating symbol after a match is read past the NUL. *)
Lemma matched_reads_past fuel flags : matched (S fuel) flags [LBR; DOT; 0] = Fault /\ fnmatch false [LBR; 97; LBR; DOT] [97] 0 = Fault.
Proof.
  split; [|by vm_compute]. cbn [matched next mbind outcome_bind]. change (LBR =? 0) with false. change (LBR =? BSL) with false.
  by rewrite andb_false_r.
Qed.

End Fnmatch.
