(* ===== verification/Globs.v ===== *)
(** The languages of shell patterns: fnmatch.c without flags decides the language of every pattern of
    characters, wildcards and brackets, and with it the globs of walkfiles.c select files. *)

From S2P Require Import Prelude Walkfiles Fnmatch.
Import Fnmatch.
#[local] Open Scope Z_scope.

Module Globs.

(** ** The languages of patterns *)

(** The members of a bracket. *)
Inductive member := Single (c : Z) | Range (lo hi : Z).

(** A pattern as a list of items: a character, [?], [*], a bracket of members, or of a class. *)
Inductive glob_item := Lit (c : Z) | One | Many | Set_ (neg : bool) (ms : list member) | Class_ (neg : bool) (name : list Z).

#[export] Instance member_eq_dec : EqDecision member.
Proof. solve_decision. Defined.
#[export] Instance item_eq_dec : EqDecision glob_item.
Proof. solve_decision. Defined.

(** How an item is written. *)
Definition special (c : Z) : bool :=
  extended c || (c =? LPAR) || (c =? LBR) || (c =? BSL).
Definition member_text (m : member) : list Z :=
  match m with Single c => [c] | Range lo hi => [lo; DASH; hi] end.
Definition sign (neg : bool) : list Z := if neg then [BANG] else [].
Definition text (i : glob_item) : list Z :=
  match i with
  | Lit c => if special c then [BSL; c] else [c]
  | One => [QUEST]
  | Many => [STAR]
  | Set_ neg ms => LBR :: sign neg ++ concat (map member_text ms) ++ [RBR]
  | Class_ neg name => LBR :: sign neg ++ [LBR; COLON] ++ name ++ [COLON; RBR; RBR]
  end.
Definition glob_text (is_ : list glob_item) : list Z := concat (map text is_).

(** What is written without surprises: in a bracket no character with a meaning there. *)
Definition reserved (c : Z) : bool := is_in c [0; LBR; RBR; BSL; DASH; BANG; CARET].
Definition plain_char (c : Z) : Prop := 0 < c < 128 /\ reserved c = false.
Definition good_member (m : member) : Prop :=
  match m with Single c => plain_char c | Range lo hi => plain_char lo /\ plain_char hi end.
Definition good_item (i : glob_item) : Prop :=
  match i with
  | Lit c => c <> 0
  | One | Many => True
  | Set_ _ ms => ms <> [] /\ Forall good_member ms
  | Class_ _ name => name ∈ map fst class_names /\ length name = 5%nat
  end.

(** The characters that an item stands for. *)
Definition member_has (m : member) (x : Z) : bool :=
  match m with Single c => x =? c | Range lo hi => in_range lo x hi end.
Definition accepts (i : glob_item) (x : Z) : bool :=
  match i with
  | Lit c => c =? x
  | One => true
  | Many => false
  | Set_ neg ms => xorb neg (existsb (fun m => member_has m x) ms)
  | Class_ neg name => xorb neg (in_class name x)
  end.

(** The language of a pattern. *)
Inductive denotes : list glob_item -> list Z -> Prop :=
  | denotes_nil : denotes [] []
  | denotes_one i is_ x s : i <> Many -> accepts i x = true -> denotes is_ s -> denotes (i :: is_) (x :: s)
  | denotes_many is_ s s' : denotes is_ s' -> denotes (Many :: is_) (s ++ s').

(** *** Brackets *)

Lemma plain_neq c d : plain_char c -> reserved d = true -> (c =? d) = false.
Proof. intros [_ H] Hd. destruct (Z.eqb_spec c d) as [->|]; [congruence|done]. Qed.

Lemma flagged_0 f : flagged 0 f = false.
Proof. done. Qed.

Lemma FOLD_0 c : FOLD 0 c = c.
Proof. done. Qed.

Lemma s8_plain c : plain_char c -> s8 c = c.
Proof. intros [H _]. unfold s8. destruct (Z.ltb_spec c 128); lia. Qed.

Definition members_text (ms : list member) : list Z := concat (map member_text ms).

(** What comes after a member: the end of the bracket or the next member. *)
Lemma after_member ms rest : Forall good_member ms ->
  exists d q, members_text ms ++ RBR :: rest = d :: q /\ (d =? DASH) = false /\
    (ms = [] /\ d = RBR /\ q = rest \/ (ms <> [] /\ plain_char d)).
Proof.
  destruct ms as [|m ms]; intros H; [exists RBR, rest; split; [done|split; [done|by left]]|].
  inversion_clear H as [|? ? Hm _]. destruct m as [c|lo hi]; cbn; do 2 eexists; (split; [reflexivity|]).
  - split; [by apply plain_neq|by right; split].
  - destruct Hm. split; [by apply plain_neq|by right; split].
Qed.

Ltac not_special H := rewrite !(plain_neq _ _ H) by done.

(** One member: a match, or on to what comes after it. *)
Lemma set_loop_member fuel nc m d q c p :
  good_member m -> member_text m ++ d :: q = c :: p -> (d =? DASH) = false ->
  set_loop (S fuel) 0 nc c p =
  Ret (Hit (d :: q)) /\ member_has m nc = true \/
  set_loop (S fuel) 0 nc c p = (if d =? RBR then Ret (Miss q) else set_loop fuel 0 nc d q) /\ member_has m nc = false.
Proof.
  intros Hm E Hd. destruct m as [a|lo hi]; cbn [member_text app] in E; injection E as <- <-; cbn [good_member] in Hm.
  - cbn [set_loop peek next]. rewrite FOLD_0. not_special Hm. cbn [mbind outcome_bind andb negb flagged_0]. rewrite !flagged_0, Hd.
    cbn [mbind outcome_bind andb negb]. cbn [member_has]. rewrite FOLD_0, (Z.eqb_sym nc).
    destruct (a =? nc); [by left|by right].
  - destruct Hm as [Hl Hh]. cbn [set_loop peek next]. rewrite FOLD_0. not_special Hl.
    cbn [mbind outcome_bind andb negb]. rewrite !flagged_0. cbn [mbind outcome_bind andb negb peek peek1 next].
    change (DASH =? DASH) with true. not_special Hh. cbn [mbind outcome_bind andb negb].
    not_special Hh. rewrite FOLD_0, s8_plain by done. cbn [mbind outcome_bind andb negb]. cbn [member_has]. unfold in_range.
    destruct ((lo <=? nc) && (nc <=? hi)); [by left|by right].
Qed.

Lemma set_loop_members ms : forall fuel nc rest c p,
  ms <> [] -> Forall good_member ms -> members_text ms ++ RBR :: rest = c :: p -> (length ms <= fuel)%nat ->
  if existsb (fun m => member_has m nc) ms
  then exists ms', Forall good_member ms' /\ set_loop fuel 0 nc c p = Ret (Hit (members_text ms' ++ RBR :: rest))
  else set_loop fuel 0 nc c p = Ret (Miss rest).
Proof.
  induction ms as [|m ms IH]; intros fuel nc rest c p Hne Hg E Hf; [done|]. apply Forall_cons in Hg as [Hm Hg].
  cbn [length] in Hf. destruct fuel as [|fuel]; [lia|]. cbn [existsb].
  destruct (after_member ms rest Hg) as (d & q & Eq & Hd & Hcase).
  unfold members_text in E. cbn [map concat] in E. fold (members_text ms) in E. rewrite <- app_assoc, Eq in E.
  destruct (set_loop_member fuel nc m d q c p Hm E Hd) as [[-> ->]|[-> ->]]; cbn [orb].
  - exists ms. by rewrite Eq.
  - destruct Hcase as [(-> & -> & ->)|[Hn Hp]]; [done|].
    rewrite (plain_neq _ _ Hp) by done. apply IH; auto; lia.
Qed.

(** The rest of a bracket is skipped. *)
Lemma matched_skips l rest : forall fuel,
  Forall (fun c => (c =? 0) = false /\ (c =? LBR) = false /\ (c =? BSL) = false /\ (c =? RBR) = false) l -> (length l < fuel)%nat ->
  matched fuel 0 (l ++ RBR :: rest) = Ret (Some rest).
Proof.
  induction l as [|c l IH]; intros fuel H Hf; (destruct fuel as [|fuel]; [cbn [length] in Hf; lia|]); [done|].
  apply Forall_cons in H as [(H0 & H1 & H2 & H3) H]. cbn [app matched next mbind outcome_bind]. rewrite H0, H1, H2, H3.
  cbn [andb mbind outcome_bind]. apply IH; [done|cbn [length] in Hf; lia].
Qed.

Lemma members_text_skipped ms : Forall good_member ms ->
  Forall (fun c => (c =? 0) = false /\ (c =? LBR) = false /\ (c =? BSL) = false /\ (c =? RBR) = false) (members_text ms).
Proof.
  assert (Hp : forall c, plain_char c -> (c =? 0) = false /\ (c =? LBR) = false /\ (c =? BSL) = false /\ (c =? RBR) = false)
    by (intros c Hc; split_and!; by apply plain_neq).
  induction 1 as [|m ms Hm _ IH]; [constructor|]. unfold members_text. cbn [map concat]. apply Forall_app; split; [|exact IH].
  destruct m as [c|lo hi]; cbn in *; repeat constructor; destruct_and?; try apply Hp; done.
Qed.

Lemma class_name_found name rest : name ∈ map fst class_names -> length name = 5%nat ->
  class_name 7 (COLON :: name ++ [COLON; RBR] ++ rest) [] = Ret (inl (name, rest)).
Proof.
  intros Hn Hl. unfold class_names in Hn. cbn [map fst] in Hn.
  repeat (apply elem_of_cons in Hn as [->|Hn]; [first [discriminate Hl|reflexivity]|]). by apply elem_of_nil in Hn.
Qed.

Lemma set_loop_class fuel nc name rest : name ∈ map fst class_names -> length name = 5%nat ->
  set_loop (S fuel) 0 nc LBR (COLON :: name ++ [COLON; RBR] ++ RBR :: rest) =
  Ret (if in_class name nc then Hit (RBR :: rest) else Miss rest).
Proof.
  intros Hn Hl. cbn [set_loop]. change (LBR =? LBR) with true. change (LBR =? BSL) with false.
  cbn [peek mbind outcome_bind andb negb]. change (COLON =? COLON) with true. cbn [andb].
  rewrite flagged_0. cbn [andb negb]. rewrite class_name_found by done. cbn [mbind outcome_bind].
  destruct (in_class name nc); reflexivity.
Qed.

(** The verdict of a bracket. *)
Definition verdict (b : bool) (rest : ptr) : bracketed := if b then Yes rest else No.

Lemma bracket_signed neg nc d p rest (b : bool) :
  d <> BANG -> d <> CARET -> (forall fuel, (length p < fuel)%nat ->
    if b then exists q, set_loop fuel 0 nc d p = Ret (Hit q) /\ (forall fuel, (length q < fuel)%nat -> matched fuel 0 q = Ret (Some rest))
    else set_loop fuel 0 nc d p = Ret (Miss rest)) ->
  bracket 0 nc (sign neg ++ d :: p) = Ret (verdict (xorb neg b) rest).
Proof.
  intros N1%Z.eqb_neq N2%Z.eqb_neq H. unfold bracket. specialize (H (S (length p)) ltac:(lia)).
  destruct neg; cbn [sign app peek bump next mbind outcome_bind]; rewrite ?N1, ?N2;
    change (BANG =? BANG) with true; cbn [orb bump next mbind outcome_bind];
    (destruct b; [destruct H as (q & -> & Hq)|rewrite H]; cbn [mbind outcome_bind]; [rewrite Hq by lia|]; done).
Qed.

Lemma bracket_set neg nc ms rest : ms <> [] -> Forall good_member ms ->
  bracket 0 nc (sign neg ++ members_text ms ++ RBR :: rest) = Ret (verdict (xorb neg (existsb (fun m => member_has m nc) ms)) rest).
Proof.
  intros Hne Hg. destruct (after_member ms rest Hg) as (d & p & E & _ & [(? & _)|[_ Hd]]); [done|]. rewrite E.
  apply bracket_signed.
  - intros ->. pose proof (plain_neq _ BANG Hd eq_refl). done.
  - intros ->. pose proof (plain_neq _ CARET Hd eq_refl). done.
  - intros fuel Hf. pose proof (set_loop_members ms fuel nc rest d p Hne Hg E) as H.
    assert (Hl : (length ms <= length p)%nat).
    { apply (f_equal length) in E. rewrite length_app in E. cbn [length] in E.
      assert (length ms <= length (members_text ms))%nat; [|lia]. clear. unfold members_text.
      induction ms as [|[] ms IH]; cbn [map concat member_text app length]; lia. }
    specialize (H ltac:(lia)). destruct (existsb _ ms); [|exact H]. destruct H as (ms' & Hg' & ->).
    eexists; split; [reflexivity|]. intros f Hf'. apply matched_skips; [by apply members_text_skipped|].
    rewrite length_app in Hf'. lia.
Qed.

Lemma bracket_class neg nc name rest : name ∈ map fst class_names -> length name = 5%nat ->
  bracket 0 nc (sign neg ++ LBR :: COLON :: name ++ [COLON; RBR] ++ RBR :: rest) = Ret (verdict (xorb neg (in_class name nc)) rest).
Proof.
  intros Hn Hl. apply bracket_signed; [done..|]. intros fuel Hf. destruct fuel as [|fuel]; [lia|].
  rewrite set_loop_class by done. destruct (in_class name nc); [|done].
  eexists; split; [reflexivity|]. intros f Hf'. apply (matched_skips []); [constructor|cbn [length] in *; lia].
Qed.

(** *** A turn for each item *)

Definition no_paren (p : ptr) : Prop := exists c q, p = c :: q /\ (c =? LPAR) = false.

Lemma special_false c : special c = false ->
  extended c = false /\ (c =? QUEST) = false /\ (c =? BSL) = false /\ (c =? STAR) = false /\ (c =? LBR) = false /\ (c =? LPAR) = false.
Proof.
  unfold special, extended. intros H. repeat (apply orb_false_iff in H as [H ?]). rewrite H. split_and!; auto.
  repeat match goal with E : _ = false |- _ => rewrite E end. done.
Qed.

Lemma render_no_paren is_ : Forall good_item is_ -> no_paren (glob_text is_ ++ [0]).
Proof.
  destruct is_ as [|i is_]; intros H; [by exists 0, []|]. apply Forall_cons in H as [Hi _].
  unfold glob_text. cbn [map concat]. rewrite <- app_assoc.
  destruct i as [c| | |neg ms|neg name]; cbn [text]; try (by do 2 eexists).
  destruct (special c) eqn:E; [by do 2 eexists|]. exists c. eexists. split; [reflexivity|]. by apply special_false.
Qed.

Definition step_on (rec : matching) (ok : bool) (rest : ptr) (n : list Z) (ends : bool) : outcome (Z * option place) :=
  if ok then rec rest n false 0 ends else Ret (FNM_NOMATCH, None).

Lemma turn_item oom rec i rest n ends : good_item i -> i <> Many -> no_paren rest ->
  fnmatch_turn oom rec (text i ++ rest) n false 0 ends =
  match n with x :: n' => step_on rec (accepts i x) rest n' ends | [] => Ret (FNM_NOMATCH, None) end.
Proof.
  intros Hg Hi (c0 & q & -> & Hq). destruct i as [c| | |neg ms|neg name]; cbn [good_item text] in *; [..|done| |].
  - destruct (special c) eqn:E.
    + unfold fnmatch_turn. cbn [app next mbind outcome_bind]. rewrite !FOLD_0. change (BSL =? 0) with false.
      apply Z.eqb_neq in Hg. cbn. rewrite Hg. destruct n as [|x n]; [done|]. done.
    + apply special_false in E as (E & E1 & E2 & E3 & E4 & _). apply Z.eqb_neq in Hg.
      unfold fnmatch_turn. cbn [app next mbind outcome_bind]. rewrite !FOLD_0, Hg, E. cbn [andb mbind outcome_bind].
      rewrite E1, E2, E3, E4. cbn. rewrite andb_false_r. destruct n; done.
  - unfold fnmatch_turn. cbn. rewrite Hq. cbn. destruct n as [|x n]; [done|]. cbn. rewrite !andb_false_r. done.
  - destruct Hg as [Hne Hg]. unfold fnmatch_turn. cbn [app next mbind outcome_bind]. rewrite !FOLD_0. cbn -[bracket app sign].
    destruct n as [|x n]; [done|]. rewrite !andb_false_r. rewrite <- !app_assoc. cbn [app].
    change (concat (map member_text ms)) with (members_text ms). rewrite bracket_set by done.
    cbn [mbind outcome_bind accepts]. by destruct (xorb _ _).
  - destruct Hg as [Hn Hl]. unfold fnmatch_turn. cbn [app next mbind outcome_bind]. rewrite !FOLD_0. cbn -[bracket app sign].
    destruct n as [|x n]; [done|]. rewrite !andb_false_r. rewrite <- !app_assoc. cbn [app]. rewrite <- app_assoc.
    change ([COLON; RBR; RBR] ++ c0 :: q) with ([COLON; RBR] ++ RBR :: c0 :: q). rewrite bracket_class by done.
    cbn [mbind outcome_bind accepts]. by destruct (xorb _ _).
Qed.

(** *** Languages, by runs without a [*] *)

(** The items up to the next [*], of which [Some] of the rest is left. *)
Fixpoint run_items (is_ : list glob_item) (n : list Z) : option (option (list glob_item * list Z)) :=
  match is_ with
  | [] => match n with [] => Some None | _ => None end
  | Many :: _ => Some (Some (is_, n))
  | i :: is_ => match n with x :: n => if accepts i x then run_items is_ n else None | [] => None end
  end.

(** The first place where a run works. *)
Fixpoint seek (is_ : list glob_item) (n : list Z) : option (option (list glob_item * list Z)) :=
  match n with
  | [] => None
  | _ :: n' => match run_items is_ n with Some e => Some e | None => seek is_ n' end
  end.

(** Over the wildcards after a [*]. *)
Fixpoint wild (is_ : list glob_item) (n : list Z) : option (list glob_item * list Z) :=
  match is_ with
  | Many :: is_ => wild is_ n
  | One :: is_ => match n with [] => None | _ :: n => wild is_ n end
  | _ => Some (is_, n)
  end.

Definition in_rest (e : option (option (list glob_item * list Z))) : Prop :=
  match e with None => False | Some None => True | Some (Some (is_, n)) => denotes is_ n end.
Definition is_wild (is_ : list glob_item) : bool := match is_ with One :: _ | Many :: _ => true | _ => false end.

Lemma run_items_cons i is_ n : i <> Many -> run_items (i :: is_) n = match n with x :: n => if accepts i x then run_items is_ n else None | [] => None end.
Proof. by destruct i. Qed.

Lemma denotes_many_iff is_ n : denotes (Many :: is_) n <-> exists s s', n = s ++ s' /\ denotes is_ s'.
Proof.
  split.
  - inversion 1 as [| |? s s' H']; simplify_eq; eauto.
  - intros (s & s' & -> & H). by constructor.
Qed.

Lemma denotes_nil_iff n : denotes [] n <-> n = [].
Proof. split; [by inversion 1|intros ->; constructor]. Qed.

Lemma denotes_item_iff i is_ n : i <> Many ->
  denotes (i :: is_) n <-> exists x n', n = x :: n' /\ accepts i x = true /\ denotes is_ n'.
Proof.
  intros Hi. split.
  - inversion 1; simplify_eq; eauto.
  - intros (x & n' & -> & ? & ?). by constructor.
Qed.

Lemma denotes_many_cons is_ x n : denotes (Many :: is_) (x :: n) <-> denotes is_ (x :: n) \/ denotes (Many :: is_) n.
Proof.
  rewrite !denotes_many_iff. split.
  - intros ([|y s] & s' & E & H); [left; by rewrite E|right]. injection E as -> ->. eauto.
  - intros [H|(s & s' & -> & H)]; [by exists [], (x :: n)|by exists (x :: s), s'].
Qed.

Lemma denotes_many_suffix is_ s s' : denotes (Many :: is_) s' -> denotes (Many :: is_) (s ++ s').
Proof. rewrite !denotes_many_iff. intros (t & t' & -> & H). exists (s ++ t), t'. by rewrite app_assoc. Qed.

Lemma denotes_run is_ : forall n, denotes is_ n <-> in_rest (run_items is_ n).
Proof.
  induction is_ as [|i is_ IH]; intros n.
  - rewrite denotes_nil_iff. by destruct n; cbn.
  - destruct (decide (i = Many)) as [->|Hi]; [done|]. rewrite denotes_item_iff by done.
    rewrite run_items_cons by done. destruct n as [|x n]; [split; [intros (? & ? & [=] & _)|done]|]. destruct (accepts i x) eqn:A.
    + rewrite <- IH. split; [by intros (? & ? & [= <- <-] & _ & H)|intros H; by exists x, n].
    + split; [intros (? & ? & [= <- <-] & ? & _); congruence|done].
Qed.

Lemma run_shape is_ : forall n is2 n2, run_items is_ n = Some (Some (is2, n2)) ->
  exists tl j, is2 = Many :: tl /\ n2 = drop j n /\ forall m e, run_items is_ m = Some e -> e = Some (is2, drop j m).
Proof.
  induction is_ as [|i is_ IH]; intros n is2 n2 H; [by destruct n|].
  destruct (decide (i = Many)) as [->|Hi].
  - cbn in H. injection H as <- <-. exists is_, O. split_and!; [done..|]. intros m e [= <-]. by rewrite drop_0.
  - rewrite run_items_cons in H by done. destruct n as [|x n]; [done|]. destruct (accepts i x); [|done].
    apply IH in H as (tl & j & -> & -> & H). exists tl, (S j). split_and!; [done..|].
    intros m e. rewrite run_items_cons by done. destruct m as [|y m]; [done|]. destruct (accepts i y); [|done]. apply H.
Qed.

Lemma drop_suffix {A} j (s s' : list A) : exists t, drop j (s ++ s') = t ++ drop j s'.
Proof.
  revert j; induction s as [|x s IH]; intros j; [by exists []|]. destruct j as [|j]; [by exists (x :: s)|].
  cbn [app drop]. destruct (IH j) as (t & ->). exists (t ++ take 1 (drop j s')).
  rewrite <- app_assoc. f_equal. replace (S j) with (1 + j)%nat by lia.
  rewrite <- (take_drop 1 (drop j s')) at 1. by rewrite drop_drop, Nat.add_comm.
Qed.

(** The greedy search is complete. *)
Lemma denotes_seek is_ n : (forall m, run_items is_ m <> None -> m <> []) -> denotes (Many :: is_) n <-> in_rest (seek is_ n).
Proof.
  intros Hne. induction n as [|x n IH].
  - cbn. split; [|done]. rewrite denotes_many_iff. intros (s & s' & E & H). symmetry in E. apply app_eq_nil in E as [-> ->].
    apply denotes_run in H. destruct (run_items is_ []) eqn:R; [|done]. exfalso. by eapply Hne; [|reflexivity]; rewrite R.
  - rewrite denotes_many_cons, (denotes_run is_ (x :: n)). cbn [seek].
    destruct (run_items is_ (x :: n)) as [[[is2 n2]|]|] eqn:R; cbn [in_rest]; [|tauto|rewrite IH; tauto].
    split; [|by left]. intros [?|H]; [done|]. apply run_shape in R as (tl & j & -> & -> & Hs).
    apply denotes_many_iff in H as (s & s' & -> & H). apply denotes_run in H.
    destruct (run_items is_ s') as [e|] eqn:R'; [|done]. apply Hs in R' as ->. cbn in H.
    destruct (drop_suffix j (x :: s) s') as (t & E). cbn [app] in E. rewrite E. by apply denotes_many_suffix.
Qed.

Lemma denotes_wild is_ : forall n,
  denotes (Many :: is_) n <-> match wild is_ n with None => False | Some (is', n') => denotes (Many :: is') n' end.
Proof.
  induction is_ as [|[c| | |neg ms|neg name] is_ IH]; intros n; cbn [wild]; [done|done| | |done|done].
  - induction n as [|x n IHn].
    + split; [|done]. rewrite denotes_many_iff. intros (s & s' & E & H). symmetry in E. apply app_eq_nil in E as [-> ->].
      inversion H.
    + rewrite <- IH, !denotes_many_cons. rewrite denotes_item_iff by done. rewrite IHn. destruct n as [|y n].
      * rewrite (denotes_many_iff is_ []). split.
        -- intros [(? & ? & [= <- <-] & _ & H)|[]]. by exists [], [].
        -- intros (s & s' & E & H). symmetry in E. apply app_eq_nil in E as [-> ->]. left. eauto.
      * rewrite <- IH. rewrite (denotes_many_cons is_ y n). split.
        -- intros [(? & ? & [= <- <-] & _ & H)|H]; tauto.
        -- intros [H|H]; [left; by eexists _, _|by right].
  - rewrite <- IH. rewrite (denotes_many_iff (Many :: is_)). split.
    + intros (s & s' & -> & H). by apply denotes_many_suffix.
    + intros H. by exists [], n.
Qed.

(** *** The matcher and the language *)

Definition no_slash (n : list Z) : Prop := Forall (fun x => (x =? SLASH) = false) n.
Definition place_of (e : list glob_item * list Z) : place := (glob_text (fst e) ++ [0], snd e, false).
Definition answer (e : option (option (list glob_item * list Z))) : outcome (Z * option place) :=
  Ret match e with None => (FNM_NOMATCH, None) | Some None => (0, None) | Some (Some e) => (0, Some (place_of e)) end.

Lemma render_cons i is_ : glob_text (i :: is_) ++ [0] = text i ++ glob_text is_ ++ [0].
Proof. unfold glob_text. cbn [map concat]. by rewrite <- app_assoc. Qed.

Lemma length_render_cons i is_ : length (glob_text (i :: is_)) = (length (text i) + length (glob_text is_))%nat.
Proof. unfold glob_text. cbn [map concat]. apply length_app. Qed.

Lemma text_length i : (0 < length (text i))%nat.
Proof. destruct i as [c| | |neg ms|neg name]; cbn; try lia. destruct (special c); cbn; lia. Qed.

Lemma turn_many oom rec p n : no_paren p -> fnmatch_turn oom rec (STAR :: p) n false 0 true = Ret (0, Some (STAR :: p, n, false)).
Proof. intros (c & q & -> & Hc). unfold fnmatch_turn. cbn. by rewrite Hc. Qed.

Lemma internal_run oom is_ : forall fuel n, Forall good_item is_ -> (length (glob_text is_) + length n + 1 < fuel)%nat ->
  internal_fnmatch oom fuel (glob_text is_ ++ [0]) n false 0 true = answer (run_items is_ n).
Proof.
  induction is_ as [|i is_ IH]; intros fuel n Hg Hf; (destruct fuel as [|fuel]; [lia|]).
  - by destruct n.
  - pose proof (text_length i) as Ht. apply Forall_cons in Hg as [Hi Hg]. rewrite render_cons. rewrite length_render_cons in Hf. cbn [internal_fnmatch].
    destruct (decide (i = Many)) as [->|Hm].
    + apply turn_many. by apply render_no_paren.
    + rewrite turn_item by (auto using render_no_paren).
      rewrite run_items_cons by done. destruct n as [|x n]; [done|]. unfold step_on. destruct (accepts i x); [|done].
      apply IH; [done|]. cbn [length] in Hf. lia.
Qed.

(** Over the wildcards. *)
Lemma wild_inv is_ : forall n is' n', wild is_ n = Some (is', n') -> Forall good_item is_ -> no_slash n ->
  is_wild is' = false /\ Forall good_item is' /\ no_slash n' /\
  (length (glob_text is') <= length (glob_text is_))%nat /\ (length n' <= length n)%nat.
Proof.
  induction is_ as [|i is_ IH]; intros n is' n' H Hg Hs.
  - injection H as <- <-. auto.
  - assert (E : wild (i :: is_) n = Some (i :: is_, n) /\ is_wild (i :: is_) = false \/ i = Many \/ i = One) by (destruct i; auto).
    destruct E as [[E E']|[->| ->]].
    + rewrite E in H. injection H as <- <-. auto.
    + apply Forall_cons in Hg as [_ Hg]. apply IH in H as (? & ? & ? & ? & ?); [|done..].
      unfold glob_text in *. cbn. auto with lia.
    + destruct n as [|x n]; [done|]. apply Forall_cons in Hg as [_ Hg]. apply Forall_cons in Hs as [_ Hs].
      apply IH in H as (? & ? & ? & ? & ?); [|done..]. unfold glob_text in *. cbn. auto with lia.
Qed.

Lemma render_first is_ : is_wild is_ = false -> Forall good_item is_ ->
  exists c q, glob_text is_ ++ [0] = c :: q /\ ((c =? QUEST) || (c =? STAR)) = false.
Proof.
  destruct is_ as [|i is_]; intros Hw Hg; [by exists 0, []|]. rewrite render_cons.
  destruct i as [c| | |neg ms|neg name]; [|done|done|by do 2 eexists..]. cbn [text].
  destruct (special c) eqn:E; [by do 2 eexists|]. apply special_false in E as (_ & E1 & _ & E2 & _).
  exists c. eexists. split; [reflexivity|]. by rewrite E1, E2.
Qed.

Lemma wildcards_step fuel w p n : no_paren p -> (w =? QUEST) || (w =? STAR) = true ->
  wildcards (S fuel) 0 (w :: p) n =
  if w =? QUEST then match n with [] => Ret None | x :: n => if x =? SLASH then Ret None else wildcards fuel 0 p n end
  else wildcards fuel 0 p n.
Proof.
  intros (c & q & -> & Hc) Hw. cbn [wildcards next mbind outcome_bind peek]. rewrite Hw, Hc. cbn [negb andb mbind outcome_bind].
  rewrite Nat.eqb_refl. cbn [negb]. destruct (w =? QUEST); [|done]. destruct n as [|x n]; [done|].
  by destruct (x =? SLASH).
Qed.

Lemma wildcards_wild is_ : forall fuel n, Forall good_item is_ -> no_slash n -> (length (glob_text is_) < fuel)%nat ->
  match wild is_ n with
  | None => wildcards fuel 0 (glob_text is_ ++ [0]) n = Ret None
  | Some (is', n') => exists c q, glob_text is' ++ [0] = c :: q /\ wildcards fuel 0 (glob_text is_ ++ [0]) n = Ret (Some (c, q, n'))
  end.
Proof.
  induction is_ as [|i is_ IH]; intros fuel n Hg Hs Hf; (destruct fuel as [|fuel]; [lia|]).
  - by exists 0, [].
  - assert (E : is_wild (i :: is_) = false \/ i = Many \/ i = One) by (destruct i; auto). destruct E as [E|[->| ->]].
    + destruct (render_first _ E Hg) as (c & q & Eq & Hc). replace (wild (i :: is_) n) with (Some (i :: is_, n)) by by destruct i.
      exists c, q. split; [done|]. rewrite Eq. cbn [wildcards next mbind outcome_bind]. by rewrite Hc.
    + apply Forall_cons in Hg as [_ Hg]. cbn [wild]. rewrite render_cons. cbn [text app].
      rewrite wildcards_step by (auto using render_no_paren). apply IH; [done..|]. rewrite length_render_cons in Hf. cbn [text length] in Hf. lia.
    + apply Forall_cons in Hg as [_ Hg]. cbn [wild]. rewrite render_cons. cbn [text app].
      rewrite wildcards_step by (auto using render_no_paren). cbn. destruct n as [|x n]; [done|].
      apply Forall_cons in Hs as [-> Hs]. apply IH; [done..|]. rewrite length_render_cons in Hf. cbn [text length] in Hf. lia.
Qed.

(** The places that are tried are those of the search. *)
Lemma try_places_seek f test is_ : (forall x n, test x = false -> run_items is_ (x :: n) = None) ->
  forall n, (forall m, (length m <= length n)%nat -> f m false = answer (run_items is_ m)) ->
  try_places f test (length n) n false = Ret match seek is_ n with None => None | Some e => Some (place_of <$> e) end.
Proof.
  intros Ht. induction n as [|x n IH]; intros Hf; [done|]. cbn [try_places length seek].
  assert (IH' := IH ltac:(intros m Hm; apply Hf; cbn [length]; lia)).
  destruct (test x) eqn:E; [|by rewrite (Ht x n E)]. rewrite (Hf (x :: n)) by done.
  destruct (run_items is_ (x :: n)) as [[e|]|]; cbn; [done|done|exact IH'].
Qed.

(** The first character of an item after the wildcards, and the test with which places are tried. *)
Lemma item_probe i is_ c q : good_item i -> is_wild (i :: is_) = false -> glob_text (i :: is_) ++ [0] = c :: q ->
  exists c1 r test, q = c1 :: r /\ (c =? 0) = false /\
    (forall x m, test x = false -> run_items (i :: is_) (x :: m) = None) /\
    (((c =? LBR) = true /\ test = (fun _ => true)) \/ (c =? LBR) = false /\ test = (fun x => x =? (if c =? BSL then c1 else c))).
Proof.
  intros Hi Hwild Eq.
  rewrite render_cons in Eq. destruct i as [l| | |neg ms|neg name]; [|done|done|..].
  - assert (Hrun : forall x m, (x =? l) = false -> run_items (Lit l :: is_) (x :: m) = None)
      by (intros x m Hx; cbn [run_items accepts]; by rewrite Z.eqb_sym, Hx).
    cbn [text] in Eq. apply Z.eqb_neq in Hi. destruct (special l) eqn:Sp.
    + injection Eq as <- <-. exists l, (glob_text is_ ++ [0]), (fun x => x =? l). split_and!; [done..|]. by right.
    + injection Eq as <- <-. apply special_false in Sp as (_ & _ & B & _ & L & _). rewrite B, L.
      destruct (glob_text is_ ++ [0]) as [|c1 r] eqn:R; [by destruct (glob_text is_)|].
      exists c1, r, (fun x => x =? l). split_and!; [done..|]. by right.
  - injection Eq as <- Eq. destruct q as [|c1 r]; [apply (f_equal length) in Eq; rewrite !length_app in Eq; cbn in Eq; lia|].
    exists c1, r, (fun _ => true). split_and!; [done..|]. by left.
  - injection Eq as <- Eq. destruct q as [|c1 r]; [apply (f_equal length) in Eq; rewrite !length_app in Eq; cbn in Eq; lia|].
    exists c1, r, (fun _ => true). split_and!; [done..|]. by left.
Qed.

Lemma star_turn oom rec is_ n : Forall good_item is_ -> no_slash n ->
  (forall is' m, Forall good_item is' -> (length (glob_text is') <= length (glob_text is_))%nat -> (length m <= length n)%nat ->
     rec (glob_text is' ++ [0]) m false 0 true = answer (run_items is' m)) ->
  fnmatch_turn oom rec (STAR :: glob_text is_ ++ [0]) n false 0 false =
  match wild is_ n with
  | None => Ret (FNM_NOMATCH, None)
  | Some ([], _) => Ret (0, None)
  | Some (is', n') =>
      match seek is' n' with
      | None => Ret (FNM_NOMATCH, None)
      | Some None => Ret (0, None)
      | Some (Some (is2, n2)) => rec (glob_text is2 ++ [0]) n2 false 0 false
      end
  end.
Proof.
  intros Hg Hs Hrec. destruct (render_no_paren is_ Hg) as (c0 & q0 & E0 & Hc0).
  pose proof (wildcards_wild is_ (S (length (glob_text is_ ++ [0]))) n Hg Hs) as Hw.
  rewrite length_app in Hw. cbn [length] in Hw. specialize (Hw ltac:(lia)).
  unfold fnmatch_turn. cbn [next mbind outcome_bind]. rewrite !FOLD_0. change (STAR =? 0) with false. cbn [extended].
  rewrite flagged_0, E0. cbn [peek mbind outcome_bind]. rewrite Hc0, <- E0. cbn -[wildcards try_places flagged].
  assert (E1 : match n with x :: _ => (x =? DOT) && false | [] => false end = false) by (destruct n; [done|apply andb_false_r]).
  rewrite E1, length_app. cbn [length].
  destruct (wild is_ n) as [[is' n']|] eqn:W; [|by rewrite Hw].
  destruct Hw as (c & q & Eq & ->). cbn -[try_places flagged].
  apply wild_inv in W as (Hwild & Hg' & Hs' & Hl & Hn); [|done..].
  destruct is' as [|i is']; [by injection Eq as <- <-|].
  destruct (item_probe i is' c q) as (c1 & r & test & -> & C0 & Ht & Hcase); [by inversion Hg'|done..|].
  pose proof (try_places_seek (fun n nlp => rec (c :: c1 :: r) n nlp 0 true) test (i :: is') Ht n') as Htry.
  rewrite <- Eq in Htry. specialize (Htry (fun m Hm => Hrec _ m Hg' Hl ltac:(lia))). rewrite Eq in Htry.
  change (flagged 0 FNM_EXTMATCH) with false. change (flagged 0 FNM_FILE_NAME) with false. change (flagged 0 FNM_NOESCAPE) with false.
  change (without 0 FNM_PERIOD) with 0. rewrite C0. cbn [negb mbind outcome_bind peek andb orb Z.eqb Pos.eqb].
  rewrite orb_false_r, andb_false_r, andb_true_r.
  destruct Hcase as [[-> ->]|[-> ->]]; cbn [mbind outcome_bind]; rewrite ?FOLD_0;
    (etransitivity; [apply (f_equal (fun t => t ≫= _)); exact Htry|]);
    destruct (seek (i :: is') n') as [[[is2 n2]|]|]; done.
Qed.

Lemma run_items_inv is_ : forall n is2 n2, run_items is_ n = Some (Some (is2, n2)) -> Forall good_item is_ -> no_slash n ->
  Forall good_item is2 /\ no_slash n2 /\ (length (glob_text is2) <= length (glob_text is_))%nat /\ (length n2 <= length n)%nat.
Proof.
  induction is_ as [|i is_ IH]; intros n is2 n2 H Hg Hs; [by destruct n|]. destruct (decide (i = Many)) as [->|Hi].
  - injection H as <- <-. auto.
  - rewrite run_items_cons in H by done. destruct n as [|x n]; [done|]. destruct (accepts i x); [|done].
    apply Forall_cons in Hg as [_ Hg]. apply Forall_cons in Hs as [_ Hs]. rewrite length_render_cons. cbn [length].
    apply IH in H as (? & ? & ? & ?); [|done..]. auto with lia.
Qed.

Lemma seek_inv is_ n is2 n2 : seek is_ n = Some (Some (is2, n2)) -> Forall good_item is_ -> no_slash n ->
  Forall good_item is2 /\ no_slash n2 /\ (length (glob_text is2) <= length (glob_text is_))%nat /\ (length n2 <= length n)%nat.
Proof.
  induction n as [|x n IH]; intros H Hg Hs; [done|]. cbn [seek] in H. pose proof Hs as Hs'. apply Forall_cons in Hs as [_ Hs].
  destruct (run_items is_ (x :: n)) as [e|] eqn:R.
  - injection H as ->. by apply run_items_inv in R.
  - apply IH in H as (? & ? & ? & ?); [|done..]. cbn [length]. auto with lia.
Qed.

Definition decides (r : outcome (Z * option place)) (P : Prop) : Prop :=
  r = Ret (0, None) /\ P \/ r = Ret (FNM_NOMATCH, None) /\ ~ P.

Lemma decides_iff r P Q : (P <-> Q) -> decides r P -> decides r Q.
Proof. intros H [[? ?]|[? ?]]; [left|right]; tauto. Qed.

(** The matcher decides the language. *)
Lemma internal_decides oom fuel : forall is_ n, Forall good_item is_ -> no_slash n -> (length (glob_text is_) + length n + 1 < fuel)%nat ->
  decides (internal_fnmatch oom fuel (glob_text is_ ++ [0]) n false 0 false) (denotes is_ n).
Proof.
  induction fuel as [|fuel IH]; intros is_ n Hg Hs Hf; [lia|]. destruct is_ as [|i is_].
  { eapply decides_iff; [symmetry; apply denotes_nil_iff|]. destruct n; [left|right]; by split. }
  apply Forall_cons in Hg as [Hi Hg]. rewrite render_cons. rewrite length_render_cons in Hf. pose proof (text_length i) as Hl.
  cbn [internal_fnmatch]. destruct (decide (i = Many)) as [->|Hm].
  - cbn [text app]. eapply decides_iff; [symmetry; apply denotes_wild|].
    rewrite star_turn; [|done|done|intros; apply internal_run; [done|lia]].
    destruct (wild is_ n) as [[is' n']|] eqn:W; [|right; by split; [|intros []]].
    apply wild_inv in W as (Hw & Hg' & Hs' & Hl' & Hn'); [|done..].
    destruct is' as [|j is']; [left; split; [done|]; apply denotes_many_iff; exists n', []; rewrite app_nil_r; split; [done|constructor]|].
    eapply decides_iff; [symmetry; apply denotes_seek; intros m Hm ->; by destruct j|].
    destruct (seek (j :: is') n') as [[[is2 n2]|]|] eqn:S; [|left; by split|right; by split; [|intros []]].
    apply seek_inv in S as (? & ? & ? & ?); [|done..]. apply IH; [done..|lia].
  - eapply decides_iff; [symmetry; by apply denotes_item_iff|]. rewrite turn_item by (auto using render_no_paren).
    destruct n as [|x n]; [right; split; [done|by intros (? & ? & ? & _)]|]. unfold step_on. apply Forall_cons in Hs as [_ Hs].
    destruct (accepts i x) eqn:A.
    + eapply decides_iff; [|apply (IH is_ n); [done..|cbn [length] in Hf; lia]].
      split; [intros H; by exists x, n|by intros (? & ? & [= <- <-] & _ & H)].
    + right. split; [done|]. intros (? & ? & [= <- <-] & ? & _). congruence.
Qed.

(** C22: [fnmatch] decides the language of a pattern.  For a pattern of characters (with a backslash before
    those that are special), [?], [*], brackets of characters and ranges, and brackets of a class, each perhaps
    negated, and a string without a slash, [fnmatch] without flags returns 0 when the string is in the language
    and [FNM_NOMATCH] when it is not. *)
Theorem fnmatch_correct oom is_ s : Forall good_item is_ -> no_slash s ->
  fnmatch oom (glob_text is_) s 0 = Ret 0 /\ denotes is_ s \/
  fnmatch oom (glob_text is_) s 0 = Ret FNM_NOMATCH /\ ~ denotes is_ s.
Proof.
  intros Hg Hs. unfold fnmatch. rewrite flagged_0.
  destruct (internal_decides oom (length (glob_text is_) + length s + 2) is_ s Hg Hs ltac:(lia)) as [[-> H]|[-> H]];
    [by left|by right].
Qed.

(** [*.[ch]] with [fnmatch.c]. *)
Lemma fnmatch_correct_witness :
  let is_ := [Many; Lit 46; Set_ false [Single 99; Single 104]] in
  let s := [102; 110; 109; 97; 116; 99; 104; 46; 99] in
  fnmatch false (glob_text is_) s 0 = Ret 0 /\ denotes is_ s \/
  fnmatch false (glob_text is_) s 0 = Ret FNM_NOMATCH /\ ~ denotes is_ s.
Proof. apply fnmatch_correct; [repeat constructor; cbn; (lia || done)|repeat constructor]. Defined.

(** ** The filters of walkfiles.c *)

Section Filters.
Context {regex : Type} (regexec : regex -> list Z -> bool) (oom : bool).

(** [fnmatch(f->pat, fname, 0) == 0]. *)
Definition fnmatch_b (p fname : list Z) : bool := match fnmatch oom p fname 0 with Ret r => r =? 0 | _ => false end.

(** Calls of [add_filter], one for each glob. *)
Fixpoint add_globs (w : Walkfiles.walk_state (regex := regex)) (gs : list (list glob_item)) : Prelude.outcome Walkfiles.walk_state :=
  match gs with [] => Prelude.Ret w | g :: gs => w ← Walkfiles.add_filter w (glob_text g); add_globs w gs end.

Definition globs_only (w : Walkfiles.walk_state (regex := regex)) : Prop :=
  Forall (fun f => is_Some (Walkfiles.pat f)) (Walkfiles.filters (Walkfiles.sel w)).
Definition matched_by (w : Walkfiles.walk_state (regex := regex)) (name : list Z) : Prop :=
  exists f, f ∈ Walkfiles.filters (Walkfiles.sel w) /\ Walkfiles.filter_match regexec fnmatch_b f name = true.

Lemma fnmatch_b_iff g name : Forall good_item g -> no_slash name -> fnmatch_b (glob_text g) name = true <-> denotes g name.
Proof.
  intros Hg Hs. unfold fnmatch_b, fnmatch. rewrite flagged_0.
  destruct (internal_decides oom (length (glob_text g) + length name + 2) g name Hg Hs ltac:(lia)) as [[-> H]|[-> H]]; cbn;
    split; done.
Qed.

Lemma add_filter_glob w p name : globs_only w ->
  exists w', Walkfiles.add_filter w p = Prelude.Ret w' /\ globs_only w' /\ Walkfiles.filters (Walkfiles.sel w') <> [] /\
    (matched_by w' name <-> matched_by w name \/ fnmatch_b p name = true).
Proof.
  intros Hw. destruct (Walkfiles.find_pat_spec _ p Hw) as (b & E & Hb). unfold Walkfiles.add_filter. rewrite E. destruct b.
  - destruct Hb as [(f & Hin & Hf) _]; [done|]. exists w. split_and!; [done|done|intros E0; rewrite E0 in Hin; by apply elem_of_nil in Hin|].
    split; [by left|]. intros [H|H]; [done|]. exists f. split; [done|]. unfold Walkfiles.filter_match. by rewrite Hf.
  - eexists. unfold globs_only, matched_by. rewrite Walkfiles.sel_put_walk. cbn [Walkfiles.filters Walkfiles.set_filters].
    split_and!; [done|by constructor|done|]. split.
    + intros (f & Hin & Hf). apply elem_of_cons in Hin as [->|Hin]; [by right|left; eauto].
    + intros [(f & Hin & Hf)|H]; [exists f; split; [by right|done]|eexists; split; [left|exact H]].
Qed.

(** C23: the globs of walkfiles.c with the [fnmatch] of this directory: after [add_filter] for each of one or
    more globs, on a walk whose other filters are globs, the filters accept a name when it is in the language
    of one of the globs or one of the other filters accepts it. *)
Theorem globs_filter w gs name : globs_only w -> gs <> [] -> Forall (Forall good_item) gs -> no_slash name ->
  exists w', add_globs w gs = Prelude.Ret w' /\
    (Walkfiles.check_filters regexec fnmatch_b (Walkfiles.sel w') name <> 0 <->
     matched_by w name \/ exists g, g ∈ gs /\ denotes g name).
Proof.
  intros Hw Hne Hg Hs. assert (H : exists w', add_globs w gs = Prelude.Ret w' /\ Walkfiles.filters (Walkfiles.sel w') <> [] /\
    (matched_by w' name <-> matched_by w name \/ exists g, g ∈ gs /\ denotes g name)).
  { revert w Hw Hne. induction Hg as [|g gs Hg Hgs IH]; intros w Hw Hne; [done|]. cbn [add_globs].
    destruct (add_filter_glob w (glob_text g) name Hw) as (w1 & E & Hw1 & Hn1 & H1). rewrite E. cbn [mbind Prelude.outcome_bind].
    rewrite (fnmatch_b_iff g name Hg Hs) in H1.
    assert (Hcons : (exists h, h ∈ g :: gs /\ denotes h name) <-> denotes g name \/ exists h, h ∈ gs /\ denotes h name).
    { setoid_rewrite elem_of_cons. split; [intros (h & [->|Hh] & Hd); eauto|intros [Hd|(h & Hh & Hd)]; eauto]. }
    destruct gs as [|h gs].
    - exists w1. split_and!; [done..|]. rewrite H1, Hcons. split; [tauto|].
      intros [?|[?|(h & Hh & _)]]; [tauto|tauto|by apply elem_of_nil in Hh].
    - destruct (IH w1 Hw1 ltac:(done)) as (w2 & E2 & Hn2 & H2). exists w2. split_and!; [done..|]. rewrite H2, H1, Hcons. tauto. }
  destruct H as (w' & E & Hn & H). exists w'. split; [done|]. rewrite Walkfiles.check_filters_spec. unfold Walkfiles.passes.
  rewrite <- H. unfold matched_by. tauto.
Qed.
End Filters.

(** The globs [*.c] and [*.h], on a walk without filters. *)
Lemma globs_filter_witness :
  let w := ({| Walkfiles.file_func := None; Walkfiles.ignores := []; Walkfiles.filters := []; Walkfiles.flags := 0 |}, None) : Walkfiles.walk_state (regex := unit) in
  let gs := [[Many; Lit 46; Lit 99]; [Many; Lit 46; Lit 104]] in
  exists w', add_globs w gs = Prelude.Ret w' /\
    (Walkfiles.check_filters (fun _ _ => false) (fnmatch_b false) (Walkfiles.sel w') [97; 46; 104] <> 0 <->
     matched_by (fun _ _ => false) false w [97; 46; 104] \/ exists g, g ∈ gs /\ denotes g [97; 46; 104]).
Proof. apply globs_filter; [constructor|done|repeat constructor; done|repeat constructor]. Defined.

End Globs.
